(* ===== verification/_CoqProject ===== *)
-Q . S2P
Prelude.v
PyStr.v
PyFloat.v
Json.v
Loads.v
Crypto.v
PyTime.v
Models.v
World.v
Text.v
AuditTrail.v
Rbac.v
Ip.v
Policies.v
Approvals.v
Vault.v
Mfa.v
Accounts.v
Leases.v
Sessions.v
Broker.v
GatewayApi.v
Rotation.v
Governance.v
Licensing.v
Directory.v
Keyring.v
Portal.v
PortalMfa.v
Recordings.v
Outbound.v
Forms.v
ConsoleForms.v
Console.v
ConsoleInvariant.v
ConsoleOps.v
Rdp.v
Gateway.v
SignIn.v
Endpoints.v
Migration.v
Ldap.v
PortalPages.v
Deployment.v
LicenseTool.v
Upgrade.v
TechnicalAdmin.v
