(* ===== verification/Prelude.v ===== *)
(** * PAM-olive: a verification library for the access-management core

    PAM-olive is a privileged-access manager: a Django application that decides who
    may read which secret and open which session, a session broker that runs the
    sessions, and a keyring service that holds the master key.  This library
    translates the decision-making code into Rocq functions and proves what it
    promises.  Source paths below are relative to [src/], and to [src/pamolive/]
    unless they start with [keyring/] or [config/].

    ** How the program is modelled

    A Python function that touches the database, the clock or the random source is a
    function in the monad [M] of [World]: it takes a [world] (database, clock with
    the delays between its readings, number of random draws, cache) and returns an
    [outcome] (a value or a Python exception) and the next world.  The database is a
    record of tables ([Models]), each a finite map from primary keys to rows; unique
    constraints are tested where a row is written.  [transaction.atomic] restores the
    tables when its body raises and leaves the clock and the draws.  Row locks are
    modelled by running one transaction at a time, in any order: the invariants are
    proved for every sequence of operations.  What the program calls but does not
    contain (keyring transport, random source, time zones, password hashing, Fernet,
    HKDF, Ed25519, the Vault server, regular expressions, Redis, directory servers,
    the volume of the recordings,
    rotation plug-ins, AES, Guacamole, the SSH and OAuth libraries, name resolution,
    Django's field parsers and URL checks) is an argument: a class ([Platform],
    [LicenseEnv], [KeyringCrypto], [PortalEnv], [SecurityPagesEnv], [DjangoForms],
    [OutboundEnv], [InternalAPI], [SshLibrary], [SignInEnv], [Disk]) or a section
    variable.  What is relied on is a named class of laws ([EncryptingKeyring],
    [SigningKeyring], [FernetFormat], [FernetReaderLaws], [BlockCipherLaws]) with a
    concrete instance.  SHA-1, SHA-256, HMAC,
    base 32 and 64, JSON printing and parsing, UTF-8, IP addresses and ISO dates are
    computed, not assumed.

    Strings are sequences of characters with codes below 256; case folding and
    [isdigit] are those of this range.  Instants are integers in microseconds since
    the epoch, [epoch] gives whole seconds.  Integers are unbounded as in Python; the
    places where a width matters (TOTP truncation, SHA words, counters packed in eight
    bytes, column lengths) write it out.  Floats are the binary64 numbers of the Standard
    Library: a settings value or a JSON number is rounded once and printed with the
    fewest digits.  Database columns and JSON texts the program writes keep characters up
    to code 255; a decoded JSON text with a character above U+00FF is outside the model.

    ** Files

    - [Prelude]: record update, tactics, lemmas on lists and options, the hint
      database [pam].
    - [PyStr], [PyFloat], [Json], [Loads], [Text], [PyTime], [Crypto]: the parts of
      Python's library the program uses (strings, floats, [json.dumps], [json.loads],
      [repr] and [int], dates, hashes and encodings), with round trips.
    - [Models], [World]: rows, tables, querysets; the monad, transactions, and the
      notions [quiet] (writes nothing), [preserves], [flows] (time does not go back),
      [undone] (failures leave no trace) with tactics that decompose programs.
    - [AuditTrail] ([audit/services.py], [audit/models.py]): hash-chained signed
      events.  [Rbac] ([rbac/services.py], [rbac/permission_profiles.py]): roles,
      capabilities, profiles.  [Ip] ([common/network.py]): addresses and proxies.
    - [Policies] ([policies/services.py]): who may do what, when and from where.
      [Approvals] ([approvals/services.py], [approvals/forms.py]): requests, decisions, quorum.
    - [Vault] ([vault/services.py], [vault/key_rotation.py]): the cipher, one-time
      codes, re-encryption.  [Mfa] ([mfa/services.py]): devices and recovery codes.
      [Accounts] ([accounts/session_security.py], [sensitive_actions.py],
      [mfa_enforcement.py]): session life time, step-up, enrolment.
    - [Leases] ([vault/leases.py], [common/justification.py]): one-use disclosure of a secret.
      [Sessions] ([sessions/services.py]): tickets, capacity, life cycle.
    - [Broker] ([gateway/crypto.py], [client.py], [config.py], [asgi.py], [ssh.py],
      [sessions/control.py]): signed requests, envelopes, the control endpoint, the
      command filter.  [GatewayApi] ([api/gateway.py], [targets/services.py]): the
      broker's endpoints and SSH host keys.
    - [Rotation] ([operations/services.py], [tasks.py]): rotation of secrets.
      [Governance] ([operations/governance.py]): risk, access reviews, findings.
    - [Licensing] ([licensing/]): editions, signed licences, limits.
      [Directory] ([connectors/sync.py], [oidc.py]): provisioning of external users.
    - [Keyring] ([keyring/], [common/keyring.py]): the key service, its rate limit,
      its backends and the client of the application.
    - [Portal] ([api/views.py], [api/forms.py], [vault/forms.py]): the personal vault,
      reveal, refresh and start of sessions.  [PortalMfa] ([api/views.py],
      [accounts/forms.py]): enrolment, step-up, reset, preferences.
    - [Recordings] ([gateway/recording.py], [sessions/recordings.py]): encrypted
      recordings and their replay; the answer of the volume to each request of the
      recorder (done, or an [OSError], with what reached the file) is a parameter.  [Outbound] ([common/outbound.py], [audit/siem.py],
      [audit/tasks.py]): the guard on outbound addresses, delivery to collectors.
    - [Forms], [ConsoleForms] ([console/forms.py], [connectors/services.py]): Django's
      form fields and the forms of the console.  [Console] ([console/views.py]): the
      configuration pages; [ConsoleInvariant]: what they keep true of the tables.
      [ConsoleOps]: the operational pages, with the CSV and JSON exports.
    - [Rdp] ([rdp/], [gateway/client.py]): the RDP broker and the client of the internal
      API.  [Gateway] ([gateway/asgi.py], [gateway/ssh.py]): the SSH terminal from the
      websocket to the report; a session runs on a list of batches of events, one batch
      for each wake-up of the waiting coroutine, and is still open when they run out before
      the remote process and its streams have ended.
    - [SignIn] ([accounts/views.py], [accounts/forms.py], [connectors/oidc.py]): password
      and OpenID Connect sign-in.  [Endpoints] ([operations/views.py],
      [sessions/consumers.py], [common/middleware.py]): probes, metrics, the terminal
      consumer, headers.
    - [Migration] ([vault/management/commands/], [vault/legacy.py],
      [operations/management/commands/verify_restore.py]): moving an installation to
      another keyring, and the check of a restored database.
    - [Ldap] ([connectors/adapters.py], [connectors/tasks.py]): the LDAP adapter, as the
      calls it makes to the directory with their outcome, and the synchronisation task.
    - [PortalPages] ([api/views.py], [accounts/forms.py]): the start page, the list of
      targets, the account page with its forms, the health endpoint.
    - [Deployment] ([config/runtime_secrets.py], [config/settings/], [keyring/app.py],
      [keyring/backends.py], [operations/management/commands/preflight_status.py]): what
      has to hold before the services start, and the preflight report.  [LicenseTool]
      ([tools/generate_license.py], [licensing/management/commands/license_status.py]):
      how a licence is issued, and the file it is written to.
    - [Upgrade] ([audit/migrations/0002_audit_chain_v2.py],
      [rbac/migrations/0004_seed_system_roles.py], [0006_expand_system_roles.py]): the
      schema migrations that compute.  [TechnicalAdmin] ([api/admin.py]): the access to
      the framework's administration site and the tables it may write.

    ** What the theorems show

    - Authority: a secret is released and a session is opened only for a signed-in
      user with the action granted by a current policy that covers the account, with
      its approval and MFA conditions, from the broker ([envelope_released_under_authority]),
      from the portal ([revealed_secret_is_authorised], [launched_session_is_authorised])
      and in the services below ([secret_lease_is_authorised], [session_is_authorised],
      [credential_allows_action_exact]), through the RDP broker
      ([rdp_launch_is_authorised]) and on a trusted host key ([shell_needs_trusted_key]).
      A page of the console changes the configuration only for a holder of its
      capability, and on the trail ([configuration_changes_are_authorised],
      [sensitive_operations_are_cleared]); a sign-in gives a session to its own account
      only ([password_sign_in_exact], [oidc_callback_exact]).
    - Accounting: an authorised terminal session is still open, or ends with one report,
      whose digest is that of the recording unless the volume refused a request, or the
      volume refused the close of the recorder and nothing was reported
      ([session_is_accounted_for]); a failed RDP launch is reported
      ([rdp_failure_is_reported]); a termination request reaches the connection
      ([termination_reaches_connection]).
    - State: approval quorum, session quota and life cycle, browser session life
      time, audit chain, licence limits and single use of leases, codes and recovery
      codes are invariants over all sequences of operations; the console keeps the
      tables well formed ([configuration_stays_well_formed]).
    - Audit: verification accepts exactly the well-formed chains, and two chains with
      the same head agree unless they hold a SHA-256 collision.
    - Refinement: password rotation simulates an abstract account slot
      ([rotation_refines_slot]) and the key service discharges the signing contract
      of the audit trail ([service_signs_verifiably]).
    - Migration: moving to another keyring carries every secret, every row and every event
      over ([backend_migration_keeps_everything], [legacy_migration_keeps_everything]) or
      changes nothing ([migration_all_or_nothing]).
    - Upgrade: the trail of the first version is accepted exactly when it is linked
      ([upgraded_trail_verifies]); the seeded profiles give the staff the console and
      nobody else anything ([upgrade_grants_exactly]).
    - Deployment: production settings that load are complete ([production_starts_exactly])
      and, with a readable timeout, enough for the other services
      ([production_services_start]); a licence that is issued is accepted under its
      edition until it expires ([issued_license_accepted]), and a commercial edition that is
      valid has one ([commercial_license_is_signed]).
    - Own account: the account page changes no right and nobody else
      ([account_page_confined]); a browser is let into the technical administration only
      as an enrolled superuser ([technical_admin_gated]).
    - Failures: a directory that is down leaves every account as it was
      ([directory_outage_not_retried]), and its connection is released on every path
      ([directory_always_released]).
    - Liveness and bounds: rate limits hold in every window and an announced waiting
      time suffices; refresh grants end after 120 seconds.
    - Round trips: stored items, rotated secrets, keyring values (up to a size),
      permission profiles, JSON texts, recovery codes, recordings, Guacamole tokens, the
      CSV export and the metrics text.
    - Faults: some theorems pin down behaviour the code should not have (the command
      filter, MFA policies and the broker, enrolment without a factor, codes shown
      beyond a policy, sizes that cannot be decrypted, a system role rewritten, a second
      websocket that disarms termination, a recorder whose close fails and suppresses the
      report, a service account that signs in, a sign-in the licence limit stops, an outage that
      is not retried, targets that are not listed, a redirection without end); each states
      exactly when it happens.

    Every theorem with hypotheses has a witness: the same theorem applied to a
    concrete database, evaluated.

    ** Termination and fuel

    Loops are folds over finite lists.  The JSON reader is given twice the length of
    the text plus two as fuel; its round trip [loads_ser] shows that this is enough
    for every printed document.  The hash functions, base 32 and the removal of a
    prefix recurse on a count computed from the length of their input, so each count
    is that of the blocks, words or characters there are.  The body of an RDP launch is
    read until it ends or exceeds its limit ([launch_body_terminates]).

    ** Not modelled

    Templates, widgets and texts ([common/ui.py], labels of forms): presentation, in an
    alphabet the character type does not have.  The columns the lists of the technical
    administration show.  Schema migrations that only change columns, and the routing
    table ([config/urls.py]): the framework's.  The scripts that make certificates
    ([keyring/init_keyring_tls.py], [init_redis_tls.py]): a sequence of calls to a
    cryptographic library and to the file system.  Framework settings of
    [config/settings/base.py] (applications, middleware classes, caches, cookies); the
    settings the code reads are records.  Timing is not modelled (constant-time comparison is
    equality), nor is true concurrency inside one transaction; a socket that fails while
    the gateway writes to it is not modelled either, nor is the cancellation of a
    websocket handler by the server that runs it. *)

From Stdlib Require Export ZArith Lia Ascii.
From stdpp Require Export base decidable gmap strings sorting pretty numbers.
From stdpp Require Export list.

#[global] Set Default Goal Selector "!".

Declare Scope pam_scope.
Delimit Scope pam_scope with pam.
#[global] Open Scope pam_scope.

(** ** Record update

    Django code assigns one attribute of a model instance at a time.  A record
    that is updated this way declares its eta-expansion once ([Settable]); the
    setter of each field is then computed on demand from that expansion. *)

Class Settable (R : Type) := eta_record : R → R.
Class Setter {R T} (getter : R → T) := set_field : (T → T) → R → R.
#[global] Arguments set_field {R T} getter {_} f r /.

Ltac solve_setter getter :=
  match type of getter with
  | ?R → ?T =>
      let eta := constr:(_ : Settable R) in
      let eta := eval hnf in eta in
      let p := eval pattern getter in eta in
      match p with
      | ?h _ =>
          let b := eval cbv beta in
            (fun (f : T → T) (r : R) => h (fun r => f (getter r)) r) in
          exact b
      end
  end.
#[export] Hint Extern 1 (Setter ?g) => solve_setter g : typeclass_instances.

Notation "r <| f := v |>" := (set_field f (λ _, v) r)
  (at level 12, left associativity, only parsing) : pam_scope.
Notation "r <| f ::= g |>" := (set_field f g r)
  (at level 12, left associativity, only parsing) : pam_scope.

(** ** Hint databases and tactics *)

Create HintDb pam discriminated.

(** Split every conjunction and existential of the context. *)
Ltac destruct_all :=
  repeat match goal with
    | H : _ ∧ _ |- _ => destruct H
    | H : ∃ _, _ |- _ => destruct H
    end.

(** Case analysis on the scrutinee of the first [match]/[if] of a hypothesis,
    keeping the equation. *)
Ltac case_in H :=
  match type of H with
  | context [match ?x with _ => _ end] =>
      first [ is_var x; destruct x | let E := fresh "E" in destruct x eqn:E ]
  end.

Ltac case_goal :=
  match goal with
  | |- context [match ?x with _ => _ end] =>
      first [ is_var x; destruct x | let E := fresh "E" in destruct x eqn:E ]
  end.

(** Explore all branches of a symbolic run recorded in [H] and drop the ones
    whose outcome is absurd. *)
Ltac explore H := repeat (case_in H; simplify_eq/=; try discriminate).

(** Turn boolean tests of the source into propositions. *)
Ltac breflect :=
  repeat match goal with
    | H : andb _ _ = true |- _ => apply andb_true_iff in H as [? ?]
    | H : andb _ _ = false |- _ => apply andb_false_iff in H
    | H : orb _ _ = false |- _ => apply orb_false_iff in H as [? ?]
    | H : orb _ _ = true |- _ => apply orb_true_iff in H
    | H : negb _ = true |- _ => apply negb_true_iff in H
    | H : negb _ = false |- _ => apply negb_false_iff in H
    | H : bool_decide _ = true |- _ => apply bool_decide_eq_true in H
    | H : bool_decide _ = false |- _ => apply bool_decide_eq_false in H
    | H : (_ <? _)%Z = true |- _ => apply Z.ltb_lt in H
    | H : (_ <? _)%Z = false |- _ => apply Z.ltb_ge in H
    | H : (_ <=? _)%Z = true |- _ => apply Z.leb_le in H
    | H : (_ <=? _)%Z = false |- _ => apply Z.leb_gt in H
    | H : (_ =? _)%Z = true |- _ => apply Z.eqb_eq in H
    | H : (_ =? _)%Z = false |- _ => apply Z.eqb_neq in H
    end.

(** ** Generic lemmas on lists and options *)

Lemma existsb_elem {A} (f : A → bool) (l : list A) :
  existsb f l = true ↔ ∃ x, x ∈ l ∧ f x = true.
Proof.
  rewrite existsb_exists. setoid_rewrite list_elem_of_In. done.
Qed.

Lemma forallb_elem {A} (f : A → bool) (l : list A) :
  forallb f l = true ↔ ∀ x, x ∈ l → f x = true.
Proof.
  rewrite forallb_forall. setoid_rewrite list_elem_of_In. done.
Qed.

Lemma existsb_false_elem {A} (f : A → bool) (l : list A) :
  existsb f l = false ↔ ∀ x, x ∈ l → f x = false.
Proof.
  split.
  - intros H x Hx. destruct (f x) eqn:E; [|done].
    rewrite <- H. symmetry. apply existsb_elem. eauto.
  - intros H. destruct (existsb f l) eqn:E; [|done].
    apply existsb_elem in E as (x & Hx & Hf). by rewrite H in Hf.
Qed.

(** [find] of the standard library, with stdpp membership. *)
Lemma find_elem {A} (f : A → bool) (l : list A) x :
  List.find f l = Some x → x ∈ l ∧ f x = true.
Proof. intros H. apply find_some in H. by rewrite list_elem_of_In. Qed.

Lemma find_none_elem {A} (f : A → bool) (l : list A) x :
  List.find f l = None → x ∈ l → f x = false.
Proof. intros H Hx. eapply find_none; [done|]. by apply list_elem_of_In. Qed.

(** Two strictly sorted permutations of each other are equal. *)
Lemma strictly_sorted_unique {A} (key : A → Z) (l1 l2 : list A) :
  StronglySorted (λ a b, key a < key b)%Z l1 →
  StronglySorted (λ a b, key a < key b)%Z l2 →
  l1 ≡ₚ l2 → l1 = l2.
Proof.
  intros H1 H2 Hp. eapply StronglySorted_unique_strong; [|done..].
  intros; simpl in *; lia.
Qed.

(** A list whose keys are pairwise distinct and weakly sorted is strictly sorted. *)
Lemma sorted_distinct_strict {A} (key : A → Z) (l : list A) :
  StronglySorted (λ a b, key a ≤ key b)%Z l → NoDup (key <$> l) →
  StronglySorted (λ a b, key a < key b)%Z l.
Proof.
  induction 1 as [|x l Hs IH Hall]; intros Hnd; [constructor|].
  rewrite fmap_cons, NoDup_cons in Hnd. destruct Hnd as [Hx Hnd].
  constructor; [auto|]. rewrite Forall_forall in Hall |- *.
  intros y Hy. specialize (Hall _ Hy).
  assert (key x ≠ key y).
  { intros E. apply Hx. apply list_elem_of_fmap. eauto. }
  lia.
Qed.

#[global] Instance key_order_dec {A} (key : A → Z) (a b : A) :
  Decision ((λ a b, (key a ≤ key b)%Z) a b).
Proof. simpl. apply _. Defined.

(** Stable ascending sort on an integer key, the [ORDER BY] of the queries. *)
Definition sort_by {A} (key : A → Z) (l : list A) : list A :=
  merge_sort (λ a b, (key a ≤ key b)%Z) l.

#[global] Instance key_order_total {A} (key : A → Z) :
  Total (λ a b, (key a ≤ key b)%Z).
Proof. intros a b. lia. Qed.

#[global] Instance key_order_trans {A} (key : A → Z) :
  Transitive (λ a b, (key a ≤ key b)%Z).
Proof. intros a b c. lia. Qed.

Lemma sort_by_Permutation {A} (key : A → Z) (l : list A) : sort_by key l ≡ₚ l.
Proof. apply merge_sort_Permutation. Qed.

Lemma elem_of_sort_by {A} (key : A → Z) (l : list A) x : x ∈ sort_by key l ↔ x ∈ l.
Proof. by rewrite sort_by_Permutation. Qed.

Lemma sort_by_sorted {A} (key : A → Z) (l : list A) :
  StronglySorted (λ a b, key a ≤ key b)%Z (sort_by key l).
Proof. apply (StronglySorted_merge_sort _). Qed.

(** Any strictly sorted permutation of the input is what [sort_by] returns. *)
Lemma sort_by_unique {A} (key : A → Z) (l s : list A) :
  StronglySorted (λ a b, key a < key b)%Z s → s ≡ₚ l → sort_by key l = s.
Proof.
  intros Hs Hp. apply (strictly_sorted_unique key); [|done|].
  - apply sorted_distinct_strict; [apply sort_by_sorted|].
    rewrite sort_by_Permutation, <- Hp. clear Hp.
    induction Hs as [|x s Hs IH Hall]; [constructor|].
    rewrite fmap_cons. constructor; [|done].
    intros (y & E & Hy)%list_elem_of_fmap. rewrite Forall_forall in Hall.
    specialize (Hall _ Hy). lia.
  - by rewrite sort_by_Permutation.
Qed.

(** A strictly sorted list extended by a larger last element. *)
Lemma strictly_sorted_snoc {A} (key : A → Z) (l : list A) x :
  StronglySorted (λ a b, key a < key b)%Z l →
  (∀ y, y ∈ l → key y < key x)%Z →
  StronglySorted (λ a b, key a < key b)%Z (l ++ [x]).
Proof.
  induction 1 as [|y l Hs IH Hall]; intros Hlt; simpl; [repeat constructor|].
  constructor.
  - apply IH. intros z Hz. apply Hlt. by right.
  - apply Forall_app. split; [done|]. constructor; [|constructor].
    apply Hlt. by left.
Qed.
