(* ===== verification/PyStr.v ===== *)
(** * Python strings

    The part of Python's [str] (and of [re]) the modelled code uses.  A Python
    string is a Rocq [string] read as one [ascii] per code point, i.e. the
    strings over U+0000..U+00FF; [encode] is the UTF-8 encoding of such a
    string, again as a [string] of bytes.  Every character predicate below is
    the Unicode one restricted to that range. *)

From S2P Require Import Prelude.

Local Open Scope Z_scope.

(** ** Characters *)

Definition code (c : ascii) : Z := Z.of_N (N_of_ascii c).
Definition chr (z : Z) : ascii := ascii_of_N (Z.to_N z).

Definition between (lo c hi : Z) : bool := (lo <=? c) && (c <=? hi).

(** [str.isspace] and the [\s] class of [re] on code points below 256. *)
Definition isspace_char (c : ascii) : bool :=
  let z := code c in
  between 9 z 13 || between 28 z 32 || (z =? 133) || (z =? 160).

Definition is_ascii_digit (c : ascii) : bool := between 48 (code c) 57.

(** [str.isdigit] also holds of the superscripts U+00B2, U+00B3, U+00B9. *)
Definition isdigit_char (c : ascii) : bool :=
  let z := code c in is_ascii_digit c || (z =? 178) || (z =? 179) || (z =? 185).

Definition is_upper_char (c : ascii) : bool :=
  let z := code c in between 65 z 90 || (between 192 z 222 && negb (z =? 215)).

Definition is_lower_char (c : ascii) : bool :=
  let z := code c in
  between 97 z 122 || (between 223 z 255 && negb (z =? 247)) || (z =? 181).

(** [str.isalnum]: letters (ordinal indicators included), digits and the
    vulgar fractions. *)
Definition isalnum_char (c : ascii) : bool :=
  let z := code c in
  is_upper_char c || is_lower_char c || isdigit_char c
  || (z =? 170) || (z =? 186) || between 188 z 190.

Definition lower_char (c : ascii) : ascii :=
  if is_upper_char c then chr (code c + 32) else c.

(** Upper case of the letters whose upper case stays below U+0100. *)
Definition upper_char (c : ascii) : ascii :=
  let z := code c in
  if between 97 z 122 || (between 224 z 254 && negb (z =? 247))
  then chr (z - 32) else c.

(** ** Strings as lists of characters *)

Abbreviation chars := String.list_ascii_of_string (only parsing).
Abbreviation of_chars := String.string_of_list_ascii (only parsing).

Definition len (s : string) : Z := Z.of_nat (String.length s).

Definition map_chars (f : ascii → ascii) (s : string) : string :=
  of_chars (f <$> chars s).

Definition lower (s : string) : string := map_chars lower_char s.

(** [str.casefold]: lower case, with sharp s expanded.  (The micro sign folds
    to U+03BC, which lies outside the modelled range, and is left alone.) *)
Definition casefold (s : string) : string :=
  of_chars (mbind (λ c, if (code c =? 223) then ["s"; "s"]%char else [lower_char c]) (chars s)).

(** [str.upper] (sharp s expands to SS; U+00FF and U+00B5 leave the range and
    are left alone). *)
Definition upper (s : string) : string :=
  of_chars (mbind (λ c, if (code c =? 223) then ["S"; "S"]%char else [upper_char c]) (chars s)).

Fixpoint drop_while {A} (f : A → bool) (l : list A) : list A :=
  match l with
  | [] => []
  | x :: l' => if f x then drop_while f l' else l
  end.

Definition strip_chars (f : ascii → bool) (l : list ascii) : list ascii :=
  rev (drop_while f (rev (drop_while f l))).

(** [str.strip()] *)
Definition strip (s : string) : string := of_chars (strip_chars isspace_char (chars s)).

(** [str.rstrip("=")] and the like: strip trailing occurrences of one character. *)
Definition rstrip_char (c : ascii) (s : string) : string :=
  of_chars (rev (drop_while (λ x, bool_decide (x = c)) (rev (chars s)))).

(** [s[:n]] and [s[-n:]] for a non-negative literal [n]. *)
Definition slice_to (n : nat) (s : string) : string := of_chars (take n (chars s)).
Definition slice_last (n : nat) (s : string) : string :=
  of_chars (drop (length (chars s) - n) (chars s)).

(** [re.sub(r"\s+", " ", s)]: every maximal run of white space becomes one blank.
    [in_run] records that the current run already produced its blank. *)
Fixpoint collapse_ws (in_run : bool) (l : list ascii) : list ascii :=
  match l with
  | [] => []
  | c :: l' =>
      if isspace_char c
      then (if in_run then collapse_ws true l' else " "%char :: collapse_ws true l')
      else c :: collapse_ws false l'
  end.

Definition startswith (p s : string) : bool := String.prefix p s.

Definition endswith (p s : string) : bool :=
  bool_decide (slice_last (String.length p) s = p) && (len p <=? len s).

(** [fragment in s] *)
Fixpoint contains_chars (p l : list ascii) : bool :=
  bool_decide (take (length p) l = p)
  || match l with [] => false | _ :: l' => contains_chars p l' end.

Definition contains (p s : string) : bool := contains_chars (chars p) (chars s).

(** [str.isdigit()] *)
Definition isdigit (s : string) : bool :=
  bool_decide (s ≠ "") && forallb isdigit_char (chars s).

Definition is_ascii (s : string) : bool := forallb (λ c, code c <? 128) (chars s).

(** Split on one separator character, keeping empty pieces: [s.split(c)]. *)
Fixpoint split_char (c : ascii) (l : list ascii) : list (list ascii) :=
  match l with
  | [] => [[]]
  | x :: l' =>
      if bool_decide (x = c) then [] :: split_char c l'
      else match split_char c l' with
           | [] => [[x]]
           | w :: ws => (x :: w) :: ws
           end
  end.

(** [s.split()]: maximal runs of non-blank characters. *)
Definition split_ws (s : string) : list string :=
  of_chars <$> filter (λ w, w ≠ [])
    (split_char " " ((λ c, if isspace_char c then " "%char else c) <$> chars s)).

(** [s.partition(c)]: the head, whether the separator occurs, the tail. *)
Fixpoint partition_char (c : ascii) (l : list ascii) : list ascii * bool * list ascii :=
  match l with
  | [] => ([], false, [])
  | x :: l' =>
      if bool_decide (x = c) then ([], true, l')
      else let '(h, b, t) := partition_char c l' in (x :: h, b, t)
  end.

Definition join (sep : string) (l : list string) : string := String.concat sep l.

(** ** Integers *)

(** [str(z)] *)
Definition str_int (z : Z) : string := pretty z.

Definition digit_value (c : ascii) : Z := code c - 48.

(** The digits of an [int] literal: single underscores may separate digits. *)
Fixpoint int_digits (acc : Z) (l : list ascii) : option Z :=
  match l with
  | [] => Some acc
  | c :: l' =>
      if is_ascii_digit c then int_digits (10 * acc + digit_value c) l'
      else match c, l' with
           | "_"%char, d :: l'' =>
               if is_ascii_digit d then int_digits (10 * acc + digit_value d) l'' else None
           | _, _ => None
           end
  end.

(** [int(s)], [None] for the [ValueError]. *)
Definition py_int (s : string) : option Z :=
  let unsigned l :=
    match l with
    | c :: _ => if is_ascii_digit c then int_digits 0 l else None
    | [] => None
    end in
  match strip_chars isspace_char (chars s) with
  | "-"%char :: l => Z.opp <$> unsigned l
  | "+"%char :: l => unsigned l
  | l => unsigned l
  end.

(** [s.zfill(n)] for a string of digits. *)
Definition zfill (n : nat) (s : string) : string :=
  (of_chars (replicate (n - String.length s) "0"%char) +:+ s).

(** ** UTF-8 *)

Definition encode_char (c : ascii) : list ascii :=
  if (code c <? 128) then [c]
  else [chr (192 + code c / 64); chr (128 + code c mod 64)].

Definition encode (s : string) : string := of_chars (mbind encode_char (chars s)).

(** ** Facts *)

Lemma collapse_ws_length b l : (length (collapse_ws b l) <= length l)%nat.
Proof.
  revert b. induction l as [|c l IH]; intros b; simpl; [lia|].
  pose proof (IH true). pose proof (IH false).
  repeat case_match; simpl; lia.
Qed.

Lemma of_chars_chars s : of_chars (chars s) = s.
Proof. apply String.string_of_list_ascii_of_string. Qed.

Lemma chars_of_chars l : chars (of_chars l) = l.
Proof. apply String.list_ascii_of_string_of_list_ascii. Qed.

Lemma chars_inj s t : chars s = chars t → s = t.
Proof. intros H. rewrite <- (of_chars_chars s), <- (of_chars_chars t). by rewrite H. Qed.

Lemma length_chars s : length (chars s) = String.length s.
Proof. induction s; simpl; auto. Qed.

Lemma len_of_chars l : len (of_chars l) = Z.of_nat (length l).
Proof. unfold len. by rewrite <- length_chars, chars_of_chars. Qed.

(** *** Pieces *)

Lemma split_char_free c l : c ∉ l → split_char c l = [l].
Proof.
  induction l as [|x l IH]; [done|]. rewrite not_elem_of_cons. intros [Hx Hl]. simpl.
  rewrite bool_decide_false by done. by rewrite IH.
Qed.

Lemma split_char_line c a b : c ∉ a → split_char c (a ++ c :: b) = a :: split_char c b.
Proof.
  induction a as [|x a IH]; intros H; simpl; [by rewrite bool_decide_true|].
  rewrite not_elem_of_cons in H. destruct H as [Hx Ha]. rewrite bool_decide_false by done. by rewrite IH.
Qed.

(** A piece lies between separators, or at an end. *)
Lemma split_char_piece c l w :
  w ∈ split_char c l → ∃ a b, l = a ++ w ++ b ∧ (c ∉ w) ∧ (a = [] ∨ ∃ a', a = a' ++ [c]) ∧ (b = [] ∨ ∃ b', b = c :: b').
Proof.
  remember (length l) as n eqn:E. revert l E. induction (lt_wf n) as [n _ IH]. intros l -> Hw.
  destruct (decide (c ∈ l)) as [(v & r & -> & Hv)%list_elem_of_split_l|Hc].
  - rewrite split_char_line in Hw by done. apply elem_of_cons in Hw as [->|Hw].
    + exists [], (c :: r). split_and!; try done; [by left|right; by exists r].
    + destruct (IH (length r) ltac:(rewrite length_app; simpl; lia) r eq_refl Hw) as (a & b & -> & Hcw & Ha & Hb).
      exists (v ++ c :: a), b. split_and!; try done; [by rewrite <- app_assoc|right].
      destruct Ha as [->|(a' & ->)]; [by exists v|exists (v ++ c :: a'); by rewrite <- app_assoc].
  - rewrite split_char_free in Hw by done. apply list_elem_of_singleton in Hw as ->.
    exists [], []. split_and!; try done; [by rewrite app_nil_r|by left..].
Qed.

Lemma split_char_last c l :
  c ∈ l → ∃ user d, last (split_char c l) = Some d ∧ l = user ++ c :: d ∧ (c ∉ d).
Proof.
  remember (length l) as n eqn:E. revert l E. induction (lt_wf n) as [n _ IH]. intros l -> (v & r & -> & Hv)%list_elem_of_split_l.
  rewrite split_char_line by done. destruct (decide (c ∈ r)) as [Hr|Hr].
  - destruct (IH (length r) ltac:(rewrite length_app; simpl; lia) r eq_refl Hr) as (user & d & Hd & -> & Hc).
    exists (v ++ c :: user), d. rewrite last_cons, Hd. split; [done|]. split; [by rewrite <- app_assoc|done].
  - rewrite split_char_free by done. by exists v, r.
Qed.

Lemma drop_while_length {A} f (l : list A) : (length (drop_while f l) <= length l)%nat.
Proof. induction l as [|x l IH]; simpl; [lia|]. case_match; simpl; lia. Qed.

Lemma slice_to_len n s : len (slice_to n s) = Z.min (Z.of_nat n) (len s).
Proof.
  unfold slice_to. rewrite len_of_chars, length_take, length_chars.
  unfold len. lia.
Qed.

Lemma code_range c : 0 <= code c < 256.
Proof. destruct c as [[] [] [] [] [] [] [] []]; vm_compute; split; congruence. Qed.

Lemma code_chr z : 0 <= z < 256 → code (chr z) = z.
Proof. intros H. unfold code, chr. rewrite N_ascii_embedding; lia. Qed.

Lemma chr_code c : chr (code c) = c.
Proof. unfold code, chr. by rewrite N2Z.id, ascii_N_embedding. Qed.

Lemma code_inj c d : code c = code d → c = d.
Proof. intros H. by rewrite <- (chr_code c), <- (chr_code d), H. Qed.

(** UTF-8 encoding is injective on the modelled strings. *)
Lemma encode_char_prefix c d r r' :
  encode_char c ++ r = encode_char d ++ r' → c = d ∧ r = r'.
Proof.
  pose proof (code_range c). pose proof (code_range d).
  pose proof (Z.div_mod (code c) 64). pose proof (Z.div_mod (code d) 64).
  pose proof (Z.mod_pos_bound (code c) 64). pose proof (Z.mod_pos_bound (code d) 64).
  assert (0 <= code c / 64 < 4 ∧ 0 <= code d / 64 < 4) as [? ?].
  { split; split; first [apply Z.div_pos; lia | apply Z.div_lt_upper_bound; lia]. }
  unfold encode_char.
  destruct (Z.ltb_spec (code c) 128), (Z.ltb_spec (code d) 128); simpl; intros E.
  - by injection E.
  - injection E as E1 _. apply (f_equal code) in E1. rewrite code_chr in E1 by lia. lia.
  - injection E as E1 _. apply (f_equal code) in E1. rewrite code_chr in E1 by lia. lia.
  - injection E as E1 E2 E3. apply (f_equal code) in E1. apply (f_equal code) in E2.
    rewrite !code_chr in E1, E2 by lia. split; [apply code_inj; lia|done].
Qed.

Lemma encode_inj s t : encode s = encode t → s = t.
Proof.
  unfold encode. intros H.
  assert (mbind encode_char (chars s) = mbind encode_char (chars t)) as E.
  { rewrite <- (chars_of_chars (mbind encode_char (chars s))), H. by rewrite chars_of_chars. }
  clear H. apply chars_inj. revert E. generalize (chars t). generalize (chars s). clear.
  induction l as [|c l IH]; intros [|d l'] E; [done| | |].
  - exfalso. cbn in E. unfold encode_char in E. by destruct (_ <? _).
  - exfalso. cbn in E. unfold encode_char in E. by destruct (_ <? _).
  - apply encode_char_prefix in E as [-> E]. f_equal. by apply IH.
Qed.

Example collapse_ex : of_chars (collapse_ws false (chars "a   b c")) = "a b c".
Proof. reflexivity. Qed.
Example py_int_ex :
  py_int " -1_000 " = Some (-1000) ∧ py_int "1__0" = None ∧ py_int "" = None ∧ py_int "3" = Some 3.
Proof. repeat split. Qed.
Example split_ws_ex : split_ws "  ssh-rsa   AAAA host " = ["ssh-rsa"; "AAAA"; "host"].
Proof. reflexivity. Qed.
