(* ===== verification/PyFloat.v ===== *)
(** * Python floats

    [float(s)] and [repr(x)] of CPython on the IEEE binary64 numbers of the Standard
    Library's [SpecFloat]: a literal is rounded once, to nearest with ties to even, and a
    number is printed with the fewest digits that are read back as it is. *)

From Stdlib Require Import SpecFloat.
From S2P Require Import Prelude PyStr.

Local Open Scope Z_scope.

Abbreviation pyfloat := spec_float (only parsing).

#[global] Instance pyfloat_eq_dec : EqDecision pyfloat.
Proof. solve_decision. Defined.

(** ** From a decimal to the nearest float *)

(** The number of decimal digits of a positive number; [fuel] bounds them. *)
Fixpoint decimal_digits (fuel : nat) (z : Z) : Z :=
  match fuel with
  | O => 0
  | S n => if z <=? 0 then 0 else 1 + decimal_digits n (z / 10)
  end.

Definition count_digits (z : Z) : Z := decimal_digits (Z.to_nat (Z.log2 z + 2)) z.

(** The float nearest to [m * 10 ^ e]; beyond the range it is infinite or zero. *)
Definition nearest (negative : bool) (m e : Z) : pyfloat :=
  match m with
  | Zpos p =>
      let magnitude := count_digits m + e in
      if 310 <? magnitude then S754_infinity negative
      else if magnitude <? -330 then S754_zero negative
      else
        let x := if 0 <=? e then binary_normalize 53 1024 (m * 10 ^ e) 0 false
                 else SFdiv 53 1024 (S754_finite false p 0) (S754_finite false (Z.to_pos (10 ^ (- e))) 0) in
        if negative then SFopp x else x
  | _ => S754_zero negative
  end.

(** ** [float(s)] *)

Fixpoint span_digits (l : list ascii) : list ascii * list ascii :=
  match l with
  | c :: l' => if is_ascii_digit c then let '(d, r) := span_digits l' in (c :: d, r) else ([], l)
  | [] => ([], [])
  end.

Definition digits_value (l : list ascii) : Z := fold_left (λ acc c, 10 * acc + digit_value c) l 0.

(** A single underscore may stand between two digits; anything else is refused. *)
Fixpoint drop_underscores (after_digit : bool) (l : list ascii) : option (list ascii) :=
  match l with
  | [] => Some []
  | "_"%char :: l' =>
      match l' with
      | d :: _ => if after_digit && is_ascii_digit d then drop_underscores false l' else None
      | [] => None
      end
  | c :: l' => r ← drop_underscores (is_ascii_digit c) l'; Some (c :: r)
  end.

(** The exponent: nothing, or [e], a sign and digits up to the end. *)
Definition exponent_of (l : list ascii) : option Z :=
  match l with
  | [] => Some 0
  | c :: l' =>
      if bool_decide (c = "e"%char ∨ c = "E"%char) then
        let '(negative, l') := match l' with
                               | "-"%char :: r => (true, r) | "+"%char :: r => (false, r) | _ => (false, l') end in
        match span_digits l' with
        | ((_ :: _) as d, []) => Some (if negative : bool then - digits_value d else digits_value d)
        | _ => None
        end
      else None
  end.

(** An unsigned literal: digits around a point, at least one, and an exponent. *)
Definition unsigned_float (negative : bool) (l : list ascii) : option pyfloat :=
  let '(whole, r) := span_digits l in
  let '(fraction, r) := match r with "."%char :: r' => span_digits r' | _ => ([], r) end in
  if bool_decide (whole ++ fraction = []) then None
  else e ← exponent_of r;
       Some (nearest negative (digits_value (whole ++ fraction)) (e - Z.of_nat (length fraction))).

Definition special_float (negative : bool) (l : list ascii) : option pyfloat :=
  let word := lower (of_chars l) in
  if decide (word = "nan") then Some S754_nan
  else if decide (word = "inf" ∨ word = "infinity") then Some (S754_infinity negative) else None.

(** [float(s)] of a string, [None] for the [ValueError]. *)
Definition py_float (s : string) : option pyfloat :=
  let '(negative, l) := match strip_chars isspace_char (chars s) with
                        | "-"%char :: l => (true, l) | "+"%char :: l => (false, l) | l => (false, l) end in
  match special_float negative l with
  | Some x => Some x
  | None => l ← drop_underscores false l; unsigned_float negative l
  end.

(** ** [repr(x)] *)

(** The digits before the point of [m * 2 ^ e], negative when zeros follow the point:
    the [p] with [10 ^ (p - 1) <= m * 2 ^ e < 10 ^ p]. *)
Fixpoint leading_zeros (fuel : nat) (m d : Z) : Z :=
  match fuel with O => 0 | S n => if d <=? 10 * m then 0 else 1 + leading_zeros n (10 * m) d end.

Definition decimal_point (m e : Z) : Z :=
  if 0 <=? e then count_digits (m * 2 ^ e)
  else let d := 2 ^ (- e) in if d <=? m then count_digits (m / d) else - leading_zeros 400 m d.

(** [m * 2 ^ e * 10 ^ k] as a fraction. *)
Definition scaled (m e k : Z) : Z * Z :=
  (m * (if 0 <=? e then 2 ^ e else 1) * (if 0 <=? k then 10 ^ k else 1),
   (if 0 <=? e then 1 else 2 ^ (- e)) * (if 0 <=? k then 1 else 10 ^ (- k))).

(** The [n]-digit decimal that is read back as the number, the nearer of two. *)
Definition digits_of (x : pyfloat) (m e p n : Z) : option Z :=
  let '(a, b) := scaled m e (n - p) in
  let d := a / b in
  let reads d := bool_decide (nearest false d (p - n) = x) in
  let below := 2 * (a - d * b) <=? b in
  if reads d && (below || negb (reads (d + 1))) then Some d
  else if reads (d + 1) then Some (d + 1) else None.

Fixpoint shortest (fuel : nat) (x : pyfloat) (m e p n : Z) : Z * Z :=
  match digits_of x m e p n, fuel with
  | Some d, _ => (d, n)
  | None, O => (m, p)
  | None, S f => shortest f x m e p (n + 1)
  end.

Fixpoint trim_zeros (l : list ascii) : list ascii :=
  match l with
  | [] => []
  | c :: l' => match trim_zeros l' with
               | [] => if bool_decide (c = "0"%char) then [] else [c]
               | r => c :: r
               end
  end.

Definition zeros (n : Z) : list ascii := replicate (Z.to_nat n) "0"%char.

(** Fixed or exponent notation, by the place of the point. *)
Definition format_digits (l : list ascii) (p : Z) : list ascii :=
  let n := Z.of_nat (length l) in
  if (p <=? -4) || (16 <? p) then
    let e := p - 1 in
    match l with
    | c :: ((_ :: _) as r) => c :: "."%char :: r
    | l => l
    end ++ "e"%char :: (if e <? 0 then "-"%char else "+"%char) :: chars (zfill 2 (str_int (Z.abs e)))
  else if p <=? 0 then chars "0." ++ zeros (- p) ++ l
  else if n <=? p then l ++ zeros (p - n) ++ chars ".0"
  else take (Z.to_nat p) l ++ "."%char :: drop (Z.to_nat p) l.

Definition repr_positive (m : positive) (e : Z) : list ascii :=
  let x := S754_finite false m e in
  let m := Zpos m in
  let p := decimal_point m e in
  let '(d, n) := shortest 17 x m e p 1 in
  let text := chars (str_int d) in
  format_digits (trim_zeros text) (p + (Z.of_nat (length text) - n)).

Definition signed (negative : bool) (l : list ascii) : list ascii := if negative then "-"%char :: l else l.

Definition repr_float (x : pyfloat) : string :=
  of_chars (match x with
            | S754_zero s => signed s (chars "0.0")
            | S754_infinity s => signed s (chars "inf")
            | S754_nan => chars "nan"
            | S754_finite s m e => signed s (repr_positive m e)
            end).

(** ** [int(x)], [None] for the [OverflowError] or [ValueError]; and [n >= x] *)

Definition truncate (x : pyfloat) : option Z :=
  match x with
  | S754_zero _ => Some 0
  | S754_finite s m e =>
      let z := if 0 <=? e then Zpos m * 2 ^ e else Zpos m / 2 ^ (- e) in Some (if s then - z else z)
  | _ => None
  end.

(** [x <= n] for an integer [n], exactly. *)
Definition float_le (x : pyfloat) (n : Z) : bool :=
  match x with
  | S754_zero _ => 0 <=? n
  | S754_infinity s => s
  | S754_nan => false
  | S754_finite s m e =>
      let m := if s then Zneg m else Zpos m in
      if 0 <=? e then m * 2 ^ e <=? n else m <=? n * 2 ^ (- e)
  end.

Definition nan : pyfloat := S754_nan.

(** Why [int(x)] fails. *)
Definition is_nan (x : pyfloat) : bool := bool_decide (x = S754_nan).

(** [bool(x)] *)
Definition float_truthy (x : pyfloat) : bool := match x with S754_zero _ => false | _ => true end.

Example py_float_ex :
  repr_float <$> (py_float <$> ["10"; " 1_0.5 "; "0.1"; "1e23"; "5e-324"; "1.7976931348623157E308"; "-0"; "1e400"; "nan"])
                 ≫= option_list
  = ["10.0"; "10.5"; "0.1"; "1e+23"; "5e-324"; "1.7976931348623157e+308"; "-0.0"; "inf"; "nan"] ∧
  py_float "10s" = None ∧ py_float "" = None ∧ py_float "." = None ∧ py_float "1__0" = None ∧ py_float "1e" = None.
Proof. vm_compute. repeat split. Qed.

Example repr_float_ex :
  repr_float <$> (py_float <$> ["123456789012345678"; "1e16"; "9999999999999998"; "0.0001"; "0.00001"; "9007199254740993";
                                "5.684341886080802e-14"; "2.2250738585072014e-308"; "0.3"; "1e22"; "-2.50"])
                 ≫= option_list
  = ["1.2345678901234568e+17"; "1e+16"; "9999999999999998.0"; "0.0001"; "1e-05"; "9007199254740992.0";
     "5.684341886080802e-14"; "2.2250738585072014e-308"; "0.3"; "1e+22"; "-2.5"].
Proof. vm_compute. repeat split. Qed.
