(* ===== verification/Json.v ===== *)
(** * JSON values and their canonical serialisation

    The audit chain hashes [json.dumps(payload, ensure_ascii=False,
    sort_keys=True, separators=(",", ":"))].  [dumps] is that function on the
    values the code serialises.  The two facts the audit proofs rest on are that the unsorted serialiser is injective, so equal
    texts mean equal documents, and that sorting makes the text independent of
    the key order in which a JSON column is read back. *)

From S2P Require Import Prelude PyStr PyFloat.

#[local] Set Warnings "-register-all".

(** A float is held as the text that [json] writes for it, which no other value has. *)
Definition num_char (c : ascii) : bool := is_ascii_digit c || bool_decide (c = "-"%char).

Definition float_mark (c : ascii) : bool :=
  bool_decide (c = "."%char ∨ c = "e"%char ∨ c = "I"%char ∨ c = "N"%char).

Definition float_char (c : ascii) : bool :=
  num_char c || float_mark c || bool_decide (c ∈ ["+"; "n"; "f"; "i"; "t"; "y"; "a"]%char).

Definition is_float_text (s : string) : bool :=
  match chars s with
  | c :: l => (num_char c || bool_decide (c = "I"%char ∨ c = "N"%char))
              && forallb float_char (c :: l) && existsb float_mark (c :: l)
  | [] => false
  end.

Record json_float := JsonFloat { float_str : string; float_ok : Is_true (is_float_text float_str) }.

Lemma json_float_eq f g : float_str f = float_str g → f = g.
Proof. destruct f as [s Hs], g as [t Ht]. simpl. intros ->. f_equal. apply Is_true_pi. Qed.

#[global] Instance json_float_eq_dec : EqDecision json_float.
Proof.
  refine (λ f g, cast_if (decide (float_str f = float_str g))); [by apply json_float_eq|congruence].
Defined.

(** [float.__repr__], but for the three names of [json]. *)
Definition json_float_text (x : pyfloat) : string :=
  let s := repr_float x in
  if decide (s = "nan") then "NaN" else if decide (s = "inf") then "Infinity"
  else if decide (s = "-inf") then "-Infinity" else s.

Definition float_of_text (s : string) : option json_float :=
  match decide (Is_true (is_float_text s)) with left H => Some (JsonFloat s H) | right _ => None end.

(** The number a text stands for. *)
Definition float_value (f : json_float) : pyfloat := default nan (py_float (float_str f)).

Inductive json :=
  | JNull
  | JBool (b : bool)
  | JInt (z : Z)
  | JStr (s : string)
  | JArr (l : list json)
  | JObj (l : list (string * json))
  | JFloat (f : json_float).

(** Induction principle reaching into arrays and objects. *)
Definition json_rect_strong (P : json → Prop)
    (Hnull : P JNull) (Hbool : ∀ b, P (JBool b)) (Hint : ∀ z, P (JInt z))
    (Hstr : ∀ s, P (JStr s)) (Harr : ∀ l, Forall P l → P (JArr l))
    (Hobj : ∀ l, Forall (λ kv, P kv.2) l → P (JObj l)) (Hfloat : ∀ f, P (JFloat f)) : ∀ j, P j :=
  fix go j :=
    match j with
    | JNull => Hnull
    | JBool b => Hbool b
    | JInt z => Hint z
    | JStr s => Hstr s
    | JArr l => Harr l ((fix goL l := match l return Forall P l with
                          | [] => Forall_nil_2 P
                          | x :: l => Forall_cons_2 _ x l (go x) (goL l) end) l)
    | JObj l => Hobj l ((fix goL l := match l return Forall (λ kv, P kv.2) l with
                          | [] => Forall_nil_2 _
                          | x :: l => Forall_cons_2 _ x l (go x.2) (goL l) end) l)
    | JFloat f => Hfloat f
    end.

#[global] Instance json_eq_dec : EqDecision json.
Proof.
  refine (fix go (x y : json) : Decision (x = y) :=
    let _ : EqDecision json := go in
    match x, y with
    | JNull, JNull => left eq_refl
    | JBool a, JBool b => cast_if (decide (a = b))
    | JInt a, JInt b => cast_if (decide (a = b))
    | JStr a, JStr b => cast_if (decide (a = b))
    | JArr a, JArr b => cast_if (decide (a = b))
    | JObj a, JObj b => cast_if (decide (a = b))
    | JFloat a, JFloat b => cast_if (decide (a = b))
    | _, _ => right _
    end); clear go || idtac; congruence.
Defined.

(** [bool(value)] of a decoded JSON value. *)
Definition json_truthy (j : json) : bool :=
  match j with
  | JNull => false
  | JBool b => b
  | JInt z => bool_decide (z ≠ 0%Z)
  | JStr s => bool_decide (s ≠ "")
  | JArr l => bool_decide (l ≠ [])
  | JObj l => bool_decide (l ≠ [])
  | JFloat f => float_truthy (float_value f)
  end.

(** ** Serialisation *)

Definition quote : ascii := chr 34.

Definition hex_digit (z : Z) : ascii :=
  if (z <? 10)%Z then chr (48 + z) else chr (87 + z).

(** The escapes of [json.encoder.ESCAPE] (non-ASCII characters are kept). *)
Definition escape_char (c : ascii) : list ascii :=
  let z := code c in
  if (z =? 34)%Z then ["\"%char; quote]
  else if (z =? 92)%Z then ["\"; "\"]%char
  else if (z =? 10)%Z then ["\"; "n"]%char
  else if (z =? 13)%Z then ["\"; "r"]%char
  else if (z =? 9)%Z then ["\"; "t"]%char
  else if (z =? 8)%Z then ["\"; "b"]%char
  else if (z =? 12)%Z then ["\"; "f"]%char
  else if (z <? 32)%Z then
    ["\"; "u"; "0"; "0"]%char ++ [hex_digit (z / 16); hex_digit (z mod 16)]
  else [c].

Definition ser_str (s : string) : list ascii :=
  quote :: mbind escape_char (chars s) ++ [quote].

Fixpoint ser (j : json) : list ascii :=
  match j with
  | JNull => chars "null"
  | JBool true => chars "true"
  | JBool false => chars "false"
  | JInt z => chars (str_int z)
  | JStr s => ser_str s
  | JArr l =>
      "["%char ::
      (fix go (sep : bool) (l : list json) : list ascii :=
         match l with
         | [] => ["]"%char]
         | x :: l' => (if sep then [","%char] else []) ++ ser x ++ go true l'
         end) false l
  | JObj l =>
      "{"%char ::
      (fix go (sep : bool) (l : list (string * json)) : list ascii :=
         match l with
         | [] => ["}"%char]
         | (k, x) :: l' =>
             (if sep then [","%char] else []) ++ ser_str k ++ ":"%char :: ser x ++ go true l'
         end) false l
  | JFloat f => chars (float_str f)
  end.

(** Ascending key order, as [sorted(dct.items())]: code points, lexicographic. *)
Definition key_le (a b : string * json) : Prop := String.leb a.1 b.1 = true.

#[global] Instance key_le_dec a b : Decision (key_le a b).
Proof. unfold key_le. apply _. Defined.

Fixpoint sort_keys (j : json) : json :=
  match j with
  | JArr l => JArr (sort_keys <$> l)
  | JObj l => JObj (merge_sort key_le ((λ kv, (kv.1, sort_keys kv.2)) <$> l))
  | _ => j
  end.

(** [json.dumps(j, ensure_ascii=False, sort_keys=True, separators=(",", ":"))] *)
Definition dumps (j : json) : string := of_chars (ser (sort_keys j)).

Example dumps_ex :
  dumps (JObj [("b", JArr [JInt (-3); JBool true]); ("a", JNull)]) =
  of_chars (["{"%char; quote; "a"%char; quote] ++ chars ":null," ++
            [quote; "b"%char; quote] ++ chars ":[-3,true]}").
Proof. reflexivity. Qed.

Example dumps_sorts :
  dumps (JObj [("b", JNull); ("a", JInt 7)]) = dumps (JObj [("a", JInt 7); ("b", JNull)]).
Proof. reflexivity. Qed.

(** ** The serialiser is a prefix code *)

Definition hex_value (c : ascii) : Z :=
  if is_ascii_digit c then code c - 48 else code c - 87.

(** Reads back one escaped character; [None] at the closing quote. *)
Definition unescape (l : list ascii) : option (ascii * list ascii) :=
  match l with
  | [] => None
  | c :: l' =>
      if (code c =? 34)%Z then None
      else if (code c =? 92)%Z then
        match l' with
        | "n"%char :: r => Some (chr 10, r)
        | "r"%char :: r => Some (chr 13, r)
        | "t"%char :: r => Some (chr 9, r)
        | "b"%char :: r => Some (chr 8, r)
        | "f"%char :: r => Some (chr 12, r)
        | "u"%char :: _ :: _ :: a :: b :: r => Some (chr (16 * hex_value a + hex_value b), r)
        | e :: r => Some (e, r)
        | [] => None
        end
      else Some (c, l')
  end.

Lemma unescape_escape c r : unescape (escape_char c ++ r) = Some (c, r).
Proof. destruct c as [[] [] [] [] [] [] [] []]; reflexivity. Qed.

Lemma escape_inj l1 l2 r1 r2 :
  mbind escape_char l1 ++ quote :: r1 = mbind escape_char l2 ++ quote :: r2 →
  l1 = l2 ∧ r1 = r2.
Proof.
  revert l2. induction l1 as [|c l1 IH]; intros [|d l2]; cbn [mbind list_bind]; intros H.
  - by injection H.
  - exfalso. apply (f_equal unescape) in H. rewrite <- app_assoc, unescape_escape in H.
    by vm_compute in H.
  - exfalso. apply (f_equal unescape) in H. rewrite <- app_assoc, unescape_escape in H.
    by vm_compute in H.
  - rewrite <- !app_assoc in H. pose proof (f_equal unescape H) as E.
    rewrite !unescape_escape in E. injection E as -> E.
    apply IH in E as [-> ->]. done.
Qed.

Lemma ser_str_prefix s1 s2 r1 r2 :
  ser_str s1 ++ r1 = ser_str s2 ++ r2 → s1 = s2 ∧ r1 = r2.
Proof.
  unfold ser_str. simpl. rewrite <- !app_assoc. simpl. intros H.
  apply (f_equal tail) in H. simpl in H. apply escape_inj in H as [H ->].
  split; [by apply chars_inj|done].
Qed.

Lemma pretty_N_char_num x : num_char (pretty_N_char x) = true.
Proof. unfold pretty_N_char. repeat case_match; reflexivity. Qed.

Lemma pretty_N_go_num x s :
  forallb num_char (chars s) = true → forallb num_char (chars (pretty_N_go x s)) = true.
Proof.
  revert s. induction (N.lt_wf_0 x) as [x _ IH]; intros s Hs.
  assert (x = 0 ∨ 0 < x)%N as [->|Hx] by lia; [done|].
  rewrite pretty_N_go_step by done. apply IH; [by apply N.div_lt|].
  simpl. by rewrite pretty_N_char_num, Hs.
Qed.

Lemma pretty_N_num (x : N) : forallb num_char (chars (pretty x)) = true.
Proof. unfold pretty, pretty_N. case_decide; [done|]. by apply pretty_N_go_num. Qed.

Lemma str_int_num z : forallb num_char (chars (str_int z)) = true.
Proof.
  unfold str_int, pretty, pretty_Z. destruct z; [done|apply pretty_N_num|].
  change (chars ("-" +:+ pretty (N.pos p))) with ("-"%char :: chars (pretty (N.pos p))).
  simpl. apply pretty_N_num.
Qed.

Lemma pretty_N_ne_empty (x : N) : chars (pretty x) ≠ [].
Proof.
  unfold pretty, pretty_N. case_decide as Hx; [done|].
  rewrite pretty_N_go_step by lia. intros H.
  cut (∀ y s, s ≠ "" → pretty_N_go y s ≠ "").
  { intros Hc. eapply Hc; [|apply chars_inj; exact H]. done. }
  intros y. induction (N.lt_wf_0 y) as [y _ IH]; intros s Hs.
  assert (y = 0 ∨ 0 < y)%N as [->|Hy] by lia; [done|].
  rewrite pretty_N_go_step by done. apply IH; [by apply N.div_lt|done].
Qed.

Lemma str_int_ne_empty z : chars (str_int z) ≠ [].
Proof. unfold str_int, pretty, pretty_Z. destruct z; [done|apply pretty_N_ne_empty|done]. Qed.

(** What may follow a value inside a document. *)
Definition stops (r : list ascii) : Prop :=
  match r with [] => True | c :: _ => c = ","%char ∨ c = "]"%char ∨ c = "}"%char end.

Lemma num_prefix w1 w2 r1 r2 :
  forallb float_char w1 = true → forallb float_char w2 = true → stops r1 → stops r2 →
  w1 ++ r1 = w2 ++ r2 → w1 = w2 ∧ r1 = r2.
Proof.
  revert w2. induction w1 as [|c w1 IH]; intros [|d w2] H1 H2 S1 S2 E; simpl in *.
  - done.
  - subst r1. breflect. destruct S1 as [->|[->| ->]]; discriminate.
  - subst r2. breflect. destruct S2 as [->|[->| ->]]; discriminate.
  - injection E as -> E. breflect. destruct (IH w2) as [-> ->]; auto.
Qed.

(** The loops over array items and object members, named. *)
Definition ser_items : bool → list json → list ascii :=
  fix go (sep : bool) (l : list json) : list ascii :=
    match l with
    | [] => ["]"%char]
    | x :: l' => (if sep then [","%char] else []) ++ ser x ++ go true l'
    end.

Definition ser_members : bool → list (string * json) → list ascii :=
  fix go (sep : bool) (l : list (string * json)) : list ascii :=
    match l with
    | [] => ["}"%char]
    | (k, x) :: l' =>
        (if sep then [","%char] else []) ++ ser_str k ++ ":"%char :: ser x ++ go true l'
    end.

Lemma ser_items_stops l : ∀ r, stops (ser_items true l ++ r).
Proof. intros r. destruct l; simpl; auto. Qed.
Lemma ser_members_stops l : ∀ r, stops (ser_members true l ++ r).
Proof. intros r. destruct l as [|[k x] l]; simpl; auto. Qed.

(** First characters tell the constructors apart. *)
Definition head_class (c : ascii) : Z :=
  if num_char c || bool_decide (c = "I"%char ∨ c = "N"%char) then 3 else
  if (code c =? 34)%Z then 7 else
  match c with
  | "n" => 1 | "t" => 2 | "f" => 4 | "[" => 5 | "{" => 6 | _ => 8
  end%char%Z.

Definition json_class (j : json) : Z :=
  match j with
  | JNull => 1 | JBool true => 2 | JBool false => 4 | JInt _ | JFloat _ => 3
  | JArr _ => 5 | JObj _ => 6 | JStr _ => 7
  end%Z.

Lemma ser_head j : ∃ c w, ser j = c :: w ∧ head_class c = json_class j.
Proof.
  destruct j as [|[]|z|s|l|l|[s Hs]]; simpl; eauto 10.
  - pose proof (str_int_ne_empty z). pose proof (str_int_num z) as Hn.
    destruct (chars (str_int z)) as [|c w]; [done|]. exists c, w. split; [done|].
    simpl in Hn. breflect. unfold head_class. by rewrite H0.
  - unfold is_float_text in Hs. destruct (chars s) as [|c w]; [done|]. exists c, w. split; [done|].
    apply Is_true_true in Hs. rewrite !andb_true_iff in Hs. destruct Hs as [[Hs _] _].
    unfold head_class. by rewrite Hs.
Qed.

(** No integer is written as a float is. *)
Lemma num_is_float_char l : forallb num_char l = true → forallb float_char l = true.
Proof. rewrite !forallb_forall. intros H c Hc. unfold float_char. by rewrite (H c Hc). Qed.

Lemma num_not_marked l : forallb num_char l = true → existsb float_mark l = false.
Proof.
  rewrite forallb_forall. intros H. apply not_true_iff_false. rewrite existsb_exists. intros (c & Hc & Hm).
  apply H in Hc. revert Hc Hm. clear. by destruct c as [[] [] [] [] [] [] [] []].
Qed.

Lemma float_str_chars f :
  forallb float_char (chars (float_str f)) = true ∧ existsb float_mark (chars (float_str f)) = true.
Proof.
  destruct f as [s Hs]. simpl. unfold is_float_text in Hs. destruct (chars s) as [|c l]; [done|].
  apply Is_true_true in Hs. rewrite !andb_true_iff in Hs. tauto.
Qed.

Lemma int_not_float z f r1 r2 :
  stops r1 → stops r2 → chars (str_int z) ++ r1 = chars (float_str f) ++ r2 → False.
Proof.
  intros S1 S2 E. destruct (float_str_chars f) as [Hc Hm].
  apply num_prefix in E as [E _]; [|apply num_is_float_char, str_int_num|done..].
  rewrite <- E, num_not_marked in Hm by apply str_int_num. done.
Qed.

Lemma ser_class j1 j2 r1 r2 : ser j1 ++ r1 = ser j2 ++ r2 → json_class j1 = json_class j2.
Proof.
  destruct (ser_head j1) as (c1 & w1 & E1 & H1), (ser_head j2) as (c2 & w2 & E2 & H2).
  rewrite E1, E2. simpl. intros E. injection E as -> _. congruence.
Qed.

(** No item starts with a closing bracket. *)
Lemma ser_not_close j w r :
  ser j ++ w = "]"%char :: r → False.
Proof.
  destruct (ser_head j) as (c & w' & E & H). rewrite E. simpl. intros [= -> _].
  destruct j as [|[]|?|?|?|?|?]; discriminate H.
Qed.

Lemma ser_items_prefix l1 :
  Forall (λ j1, ∀ j2 r1 r2, stops r1 → stops r2 →
    ser j1 ++ r1 = ser j2 ++ r2 → j1 = j2 ∧ r1 = r2) l1 →
  ∀ sep l2 r1 r2, ser_items sep l1 ++ r1 = ser_items sep l2 ++ r2 → l1 = l2 ∧ r1 = r2.
Proof.
  induction 1 as [|j1 l1 Hj Hl IH]; intros sep [|j2 l2] r1 r2 E.
  - by injection E.
  - exfalso. destruct sep; simpl in E; [discriminate|].
    symmetry in E. rewrite <- app_assoc in E. by eapply ser_not_close.
  - exfalso. destruct sep; simpl in E; [discriminate|].
    rewrite <- app_assoc in E. by eapply ser_not_close.
  - assert (ser j1 ++ ser_items true l1 ++ r1 = ser j2 ++ ser_items true l2 ++ r2) as E'.
    { destruct sep; simpl in E; rewrite <- ?app_assoc in E; [by injection E|done]. }
    apply Hj in E' as [-> E']; [|apply ser_items_stops..].
    apply IH in E' as [-> ->]. done.
Qed.

Lemma ser_members_cons sep k x l r :
  ser_members sep ((k, x) :: l) ++ r =
  (if sep then [","%char] else []) ++ ser_str k ++ ":"%char :: ser x ++ ser_members true l ++ r.
Proof. destruct sep; simpl; repeat (rewrite <- app_assoc; simpl); done. Qed.

Lemma ser_members_prefix l1 :
  Forall (λ kv, ∀ j2 r1 r2, stops r1 → stops r2 →
    ser kv.2 ++ r1 = ser j2 ++ r2 → kv.2 = j2 ∧ r1 = r2) l1 →
  ∀ sep l2 r1 r2, ser_members sep l1 ++ r1 = ser_members sep l2 ++ r2 → l1 = l2 ∧ r1 = r2.
Proof.
  induction 1 as [|[k1 j1] l1 Hj Hl IH]; intros sep [|[k2 j2] l2] r1 r2 E.
  - by injection E.
  - exfalso. apply (f_equal head) in E. by destruct sep; vm_compute in E.
  - exfalso. apply (f_equal head) in E. by destruct sep; vm_compute in E.
  - assert (ser_str k1 ++ ":"%char :: ser j1 ++ ser_members true l1 ++ r1
      = ser_str k2 ++ ":"%char :: ser j2 ++ ser_members true l2 ++ r2) as E'.
    { rewrite !ser_members_cons in E. destruct sep; [|exact E].
      apply (f_equal tail) in E. exact E. }
    apply ser_str_prefix in E' as [-> E']. injection E' as E'.
    apply Hj in E' as [E1 E']; [|apply ser_members_stops..]. simpl in E1. subst j2.
    apply IH in E' as [-> ->]. done.
Qed.

Lemma ser_prefix j1 : ∀ j2 r1 r2, stops r1 → stops r2 →
  ser j1 ++ r1 = ser j2 ++ r2 → j1 = j2 ∧ r1 = r2.
Proof.
  induction j1 as [|b1|z1|s1|l1 IH|l1 IH|f1] using json_rect_strong;
    intros j2 r1 r2 S1 S2 E; pose proof (ser_class _ _ _ _ E) as Hc;
    destruct j2 as [|b2|z2|s2|l2|l2|f2];
    try (destruct b1); try (destruct b2); try discriminate Hc.
  - simpl in E. by injection E.
  - simpl in E. by injection E.
  - simpl in E. by injection E.
  - simpl in E. apply num_prefix in E as [E ->]; auto using str_int_num, num_is_float_char.
    apply chars_inj in E. split; [|done]. f_equal. by apply (inj pretty).
  - by apply int_not_float in E.
  - simpl in E. apply ser_str_prefix in E as [-> ->]. done.
  - apply (f_equal tail) in E. apply (ser_items_prefix _ IH false) in E as [-> ->]. done.
  - apply (f_equal tail) in E. apply (ser_members_prefix _ IH false) in E as [-> ->]. done.
  - symmetry in E. by apply int_not_float in E.
  - simpl in E. apply num_prefix in E as [E ->]; [|apply float_str_chars..|done|done].
    apply chars_inj, json_float_eq in E. by subst.
Qed.

(** Equal canonical texts come from documents that are equal once sorted. *)
Lemma dumps_inj j1 j2 : dumps j1 = dumps j2 → sort_keys j1 = sort_keys j2.
Proof.
  unfold dumps. intros H. apply (f_equal chars) in H. rewrite !chars_of_chars in H.
  eapply (ser_prefix _ _ [] []); [done..|]. by rewrite !app_nil_r.
Qed.
