(* ===== verification/Loads.v ===== *)
(** * Reading JSON back ([json.loads])

    A recursive-descent reader of the documents the services exchange: whitespace,
    escapes, floats and duplicate keys as in CPython's [json] module.  Escaped
    characters above U+00FF are outside the value type and make the reader answer
    [None].  [loads_dumps] is the round trip with the canonical serialiser, on documents
    without floats. *)

From S2P Require Import Prelude PyStr PyFloat Json.

Local Open Scope Z_scope.
#[local] Set Warnings "-register-all".

(** ** Lexical level *)

Definition is_ws (c : ascii) : bool :=
  let z := code c in (z =? 32) || (z =? 9) || (z =? 10) || (z =? 13).

Definition skip_ws (l : list ascii) : list ascii := drop_while is_ws l.

Definition hex4 (c : ascii) : option Z :=
  let z := code c in
  if between 48 z 57 then Some (z - 48)
  else if between 97 z 102 then Some (z - 87)
  else if between 65 z 70 then Some (z - 55) else None.

(** One character of a string literal; control characters must be escaped. *)
Definition read_char (l : list ascii) : option (ascii * list ascii) :=
  match l with
  | [] => None
  | c :: l' =>
      if (code c <? 32) || (code c =? 34) then None
      else if code c =? 92 then
        match l' with
        | "n"%char :: r => Some (chr 10, r)
        | "r"%char :: r => Some (chr 13, r)
        | "t"%char :: r => Some (chr 9, r)
        | "b"%char :: r => Some (chr 8, r)
        | "f"%char :: r => Some (chr 12, r)
        | "/"%char :: r => Some ("/"%char, r)
        | "u"%char :: a :: b :: c :: d :: r =>
            x ← hex4 a; y ← hex4 b; z ← hex4 c; t ← hex4 d;
            let v := 4096 * x + 256 * y + 16 * z + t in
            if v <? 256 then Some (chr v, r) else None
        | e :: r => if (code e =? 34) || (code e =? 92) then Some (e, r) else None
        | [] => None
        end
      else Some (c, l')
  end.

(** The rest of a string literal, after its opening quote. *)
Fixpoint read_string (n : nat) (l : list ascii) : option (list ascii * list ascii) :=
  match n with
  | O => None
  | S n' =>
      match l with
      | [] => None
      | c :: r =>
          if code c =? 34 then Some ([], r)
          else p ← read_char l; q ← read_string n' p.2; Some (p.1 :: q.1, q.2)
      end
  end.

Fixpoint digits_prefix (acc : Z) (l : list ascii) : Z * list ascii :=
  match l with
  | c :: l' => if is_ascii_digit c then digits_prefix (10 * acc + digit_value c) l' else (acc, l)
  | [] => (acc, [])
  end.

Definition read_nat (l : list ascii) : option (Z * list ascii) :=
  match l with
  | "0"%char :: l' => Some (0, l')
  | c :: _ => if is_ascii_digit c then Some (digits_prefix 0 l) else None
  | [] => None
  end.

(** A fraction or an exponent follows. *)
Definition is_float_tail (l : list ascii) : bool :=
  match l with
  | c :: _ => bool_decide (c = "."%char) || bool_decide (c = "e"%char) || bool_decide (c = "E"%char)
  | [] => false
  end.

Definition read_int (l : list ascii) : option (Z * list ascii) :=
  p ← match l with
      | "-"%char :: l' => q ← read_nat l'; Some (- q.1, q.2)
      | _ => read_nat l
      end;
  if is_float_tail p.2 then None else Some p.

Fixpoint strip_chars_prefix (p l : list ascii) : option (list ascii) :=
  match p, l with
  | [], _ => Some l
  | c :: p', d :: l' => if bool_decide (c = d) then strip_chars_prefix p' l' else None
  | _, _ => None
  end.

Definition read_literal (word : string) (j : json) (l : list ascii) : option (json * list ascii) :=
  r ← strip_chars_prefix (chars word) l; Some (j, r).

(** A fraction is a point and digits; an exponent is [e], a sign and digits. *)
Definition read_fraction (l : list ascii) : option (list ascii * list ascii) :=
  match l with
  | "."%char :: r => match span_digits r with
                     | ((_ :: _) as d, r') => Some ("."%char :: d, r')
                     | _ => None
                     end
  | _ => Some ([], l)
  end.

Definition read_exponent (l : list ascii) : option (list ascii * list ascii) :=
  match l with
  | c :: r =>
      if bool_decide (c = "e"%char ∨ c = "E"%char) then
        let '(sign, r) := match r with
                          | "-"%char :: r' => (["-"%char], r') | "+"%char :: r' => ([], r') | _ => ([], r) end in
        match span_digits r with
        | ((_ :: _) as d, r') => Some ("e"%char :: sign ++ d, r')
        | _ => None
        end
      else Some ([], l)
  | [] => Some ([], l)
  end.

(** The literals that are not integers: a fraction or an exponent, and the three names. *)
Definition read_float (l : list ascii) : option (json * list ascii) :=
  let '(sign, u) := match l with "-"%char :: u => (["-"%char], u) | _ => ([], l) end in
  literal ← match strip_chars_prefix (chars "Infinity") u with
            | Some r => Some (sign ++ chars "Infinity", r)
            | None =>
                match strip_chars_prefix (chars "NaN") l with
                | Some r => Some (chars "NaN", r)
                | None =>
                    whole ← read_nat u;
                    fraction ← read_fraction whole.2;
                    exponent ← read_exponent fraction.2;
                    Some (sign ++ take (length u - length whole.2) u ++ fraction.1 ++ exponent.1, exponent.2)
                end
            end;
  x ← py_float (of_chars literal.1);
  f ← float_of_text (json_float_text x);
  Some (JFloat f, literal.2).

(** ** Values *)

(** [d[k] = v] on a dictionary: the last value wins, the first position stays. *)
Fixpoint dict_set (k : string) (v : json) (l : list (string * json)) : list (string * json) :=
  match l with
  | [] => [(k, v)]
  | (k', v') :: l' => if bool_decide (k = k') then (k, v) :: l' else (k', v') :: dict_set k v l'
  end.

Definition dict_of (l : list (string * json)) : list (string * json) :=
  fold_left (λ acc kv, dict_set kv.1 kv.2 acc) l [].

(** [d.get(k)] *)
Fixpoint dict_get (k : string) (l : list (string * json)) : option json :=
  match l with
  | [] => None
  | (k', v) :: l' => if bool_decide (k = k') then Some v else dict_get k l'
  end.

Fixpoint read_value (n : nat) (l : list ascii) {struct n} : option (json * list ascii) :=
  match n with
  | O => None
  | S n' =>
      match l with
      | "n"%char :: _ => read_literal "null" JNull l
      | "t"%char :: _ => read_literal "true" (JBool true) l
      | "f"%char :: _ => read_literal "false" (JBool false) l
      | "["%char :: r =>
          match skip_ws r with
          | "]"%char :: r' => Some (JArr [], r')
          | _ => p ← read_items n' r; Some (JArr p.1, p.2)
          end
      | "{"%char :: r =>
          match skip_ws r with
          | "}"%char :: r' => Some (JObj [], r')
          | _ => p ← read_members n' r; Some (JObj (dict_of p.1), p.2)
          end
      | c :: r =>
          if code c =? 34 then p ← read_string (length l) r; Some (JStr (of_chars p.1), p.2)
          else match read_int l with
               | Some p => Some (JInt p.1, p.2)
               | None => read_float l
               end
      | [] => None
      end
  end
with read_items (n : nat) (l : list ascii) {struct n} : option (list json * list ascii) :=
  match n with
  | O => None
  | S n' =>
      p ← read_value n' (skip_ws l);
      match skip_ws p.2 with
      | ","%char :: r => q ← read_items n' r; Some (p.1 :: q.1, q.2)
      | "]"%char :: r => Some ([p.1], r)
      | _ => None
      end
  end
with read_members (n : nat) (l : list ascii) {struct n} : option (list (string * json) * list ascii) :=
  match n with
  | O => None
  | S n' =>
      match skip_ws l with
      | c :: r =>
          if code c =? 34 then
            k ← read_string (length r) r;
            match skip_ws k.2 with
            | ":"%char :: r' =>
                p ← read_value n' (skip_ws r');
                match skip_ws p.2 with
                | ","%char :: r2 => q ← read_members n' r2; Some ((of_chars k.1, p.1) :: q.1, q.2)
                | "}"%char :: r2 => Some ([(of_chars k.1, p.1)], r2)
                | _ => None
                end
            | _ => None
            end
          else None
      | [] => None
      end
  end.

(** [json.loads]; [None] for the [JSONDecodeError]. *)
Definition loads_chars (l : list ascii) : option json :=
  p ← read_value (2 * length l + 2)%nat (skip_ws l);
  match skip_ws p.2 with [] => Some p.1 | _ => None end.

Definition loads (s : string) : option json := loads_chars (chars s).

Definition sample_text : string :=
  of_chars (chars " { " ++ quote :: chars "a" ++ quote :: chars " : [1, -20 ,null],"
            ++ quote :: chars "b" ++ quote :: chars ":{}, " ++ quote :: chars "a" ++ quote :: chars ":true}").

Example loads_sample :
  loads sample_text = Some (JObj [("a", JBool true); ("b", JObj [])]) ∧
  loads "[1,]" = None ∧ loads "01" = None ∧ loads "" = None ∧ loads "nul" = None.
Proof. repeat split. Qed.

(** Floats are read as the number and written as Python writes it. *)
Example loads_floats :
  (dumps <$> loads "[1.50, -2E3, 1e400, 0.1, 12e-1]") = Some "[1.5,-2000.0,Infinity,0.1,1.2]" ∧
  loads "1." = None ∧ loads "1e" = None ∧ loads "-NaN" = None ∧ loads ".5" = None.
Proof. vm_compute. repeat split. Qed.

(** ** Round trip *)

(** No object has the same key twice: the Python dictionaries; and no float occurs. *)
Inductive well_keyed : json → Prop :=
  | wk_null : well_keyed JNull
  | wk_bool b : well_keyed (JBool b)
  | wk_int z : well_keyed (JInt z)
  | wk_str s : well_keyed (JStr s)
  | wk_arr l : Forall well_keyed l → well_keyed (JArr l)
  | wk_obj l : NoDup l.*1 → Forall (λ kv, well_keyed kv.2) l → well_keyed (JObj l).

Lemma dict_set_fresh k v l : k ∉ l.*1 → dict_set k v l = l ++ [(k, v)].
Proof.
  induction l as [|[k' v'] l IH]; intros H; simpl in *; [done|].
  rewrite not_elem_of_cons in H. destruct H as [Hne H].
  rewrite bool_decide_false by done. by rewrite IH.
Qed.

Lemma dict_of_distinct l : NoDup l.*1 → dict_of l = l.
Proof.
  enough (∀ acc, NoDup (acc ++ l).*1 → fold_left (λ acc kv, dict_set kv.1 kv.2 acc) l acc = acc ++ l) as H
    by (intros Hl; by apply (H [])).
  induction l as [|[k v] l IH]; intros acc Hnd; simpl; [by rewrite app_nil_r|].
  assert (NoDup (acc ++ (k, v) :: l).*1) as Hnd' by done.
  rewrite fmap_app, NoDup_app in Hnd'. destruct Hnd' as (_ & Hdisj & _).
  rewrite dict_set_fresh; [|intros Hin; eapply Hdisj; [exact Hin|left]].
  rewrite IH; rewrite <- app_assoc; done.
Qed.

Lemma read_char_escape c r : read_char (escape_char c ++ r) = Some (c, r).
Proof. destruct c as [[] [] [] [] [] [] [] []]; reflexivity. Qed.

Lemma escape_head c : ∃ d w, escape_char c = d :: w ∧ (code d =? 34) = false.
Proof. destruct c as [[] [] [] [] [] [] [] []]; do 2 eexists; split; reflexivity. Qed.

(** Any way of escaping characters that the reader undoes. *)
Section escapes.
Variable esc : ascii → list ascii.
Hypothesis esc_read : ∀ c r, read_char (esc c ++ r) = Some (c, r).
Hypothesis esc_head : ∀ c, ∃ d w, esc c = d :: w ∧ (code d =? 34) = false.

Lemma read_string_escaped s : ∀ n r, (length s < n)%nat →
  read_string n (mbind esc s ++ quote :: r) = Some (s, r).
Proof.
  induction s as [|c s IH]; intros n r Hn; (destruct n as [|n]; [simpl in Hn; lia|]); [done|].
  change (mbind esc (c :: s)) with (esc c ++ mbind esc s). rewrite <- app_assoc.
  destruct (esc_head c) as (d & w & E & Hd). pose proof (esc_read c (mbind esc s ++ quote :: r)) as Hc.
  rewrite E in Hc |- *. cbn [app read_string] in *. rewrite Hd, Hc. cbn. rewrite IH; [done|simpl in Hn; lia].
Qed.

Lemma escaped_length s : (length s <= length (mbind esc s))%nat.
Proof.
  induction s as [|c s IH]; [done|]. change (mbind esc (c :: s)) with (esc c ++ mbind esc s).
  rewrite length_app. destruct (esc_head c) as (d & w & E & _). rewrite E. simpl. lia.
Qed.
End escapes.

Lemma read_string_ser s : ∀ n r, (length s < n)%nat →
  read_string n (mbind escape_char s ++ quote :: r) = Some (s, r).
Proof. apply read_string_escaped; [apply read_char_escape|apply escape_head]. Qed.

Lemma escape_length s : (length s <= length (mbind escape_char s))%nat.
Proof. apply escaped_length, escape_head. Qed.

(** Decimal numerals. *)
Lemma pretty_char_digit x :
  (x < 10)%N → is_ascii_digit (pretty_N_char x) = true ∧ digit_value (pretty_N_char x) = Z.of_N x.
Proof. intros H. assert (x = 0 ∨ x = 1 ∨ x = 2 ∨ x = 3 ∨ x = 4 ∨ x = 5 ∨ x = 6 ∨ x = 7 ∨ x = 8 ∨ x = 9)%N by lia.
  naive_solver. Qed.

Lemma digits_prefix_go x s r :
  digits_prefix 0 (chars (pretty_N_go x s) ++ r) = digits_prefix (Z.of_N x) (chars s ++ r).
Proof.
  revert s. induction (N.lt_wf_0 x) as [x _ IH]; intros s.
  destruct (decide (x = 0)%N) as [->|Hx]; [done|]. rewrite pretty_N_go_step by lia.
  rewrite IH by (apply N.div_lt; lia).
  destruct (pretty_char_digit (x mod 10)) as [Hd Hv]; [by apply N.mod_lt|].
  simpl. rewrite Hd, Hv. f_equal. pose proof (N.div_mod x 10). lia.
Qed.

Lemma pretty_go_head x s :
  (x ≠ 0)%N → ∃ c w, chars (pretty_N_go x s) = c :: w ∧ is_ascii_digit c = true ∧ c ≠ "0"%char.
Proof.
  revert s. induction (N.lt_wf_0 x) as [x _ IH]; intros s Hx. rewrite pretty_N_go_step by lia.
  destruct (decide (x / 10 = 0)%N) as [E|E]; [|apply IH; [apply N.div_lt; lia|done]].
  rewrite E, pretty_N_go_0. assert (x < 10)%N by (apply N.div_small_iff in E; lia).
  rewrite N.mod_small by done. destruct (pretty_char_digit x) as [Hd Hv]; [done|].
  do 2 eexists. split; [reflexivity|]. split; [done|]. intros E0. rewrite E0 in Hv.
  change (digit_value "0"%char) with 0 in Hv. lia.
Qed.

(** What may follow a number: no digit, no fraction, no exponent. *)
Definition ends_number (r : list ascii) : Prop :=
  match r with [] => True | c :: _ => is_ascii_digit c = false ∧ is_float_tail r = false end.

Lemma stops_ends_number r : stops r → ends_number r.
Proof. destruct r as [|c r]; [done|]. by intros [->|[->| ->]]. Qed.

Lemma digits_prefix_stop z r : ends_number r → digits_prefix z r = (z, r).
Proof. destruct r as [|c r]; [done|]. intros [Hc _]. simpl. by rewrite Hc. Qed.

Lemma read_nat_pretty (n : N) r : ends_number r → read_nat (chars (pretty n) ++ r) = Some (Z.of_N n, r).
Proof.
  intros Hr. unfold pretty, pretty_N. case_decide as Hn; [by subst|].
  pose proof (digits_prefix_go n "" r) as Hd. destruct (pretty_go_head n "" Hn) as (c & w & E & Hc & H0).
  rewrite E in Hd |- *. cbn [app] in *. unfold read_nat. rewrite Hc, Hd. simpl app.
  rewrite digits_prefix_stop by done.
  destruct c as [[] [] [] [] [] [] [] []]; try reflexivity. by destruct H0.
Qed.

Lemma read_int_pretty z r : ends_number r → read_int (chars (str_int z) ++ r) = Some (z, r).
Proof.
  intros Hr. assert (is_float_tail r = false) as Hf by (destruct r as [|c r]; [done|]; by destruct Hr).
  unfold read_int. rename z into z'. destruct (decide (z' < 0)) as [Hz|Hz].
  - destruct z' as [|p|p]; try lia.
    change (chars (str_int (Z.neg p)) ++ r) with ("-"%char :: chars (pretty (N.pos p)) ++ r).
    cbv beta iota. rewrite (read_nat_pretty (N.pos p) r Hr). simpl. by rewrite Hf.
  - assert (∃ n : N, chars (str_int z') = chars (pretty n) ∧ Z.of_N n = z') as (n & -> & <-).
    { exists (Z.to_N z'). destruct z' as [|p|p]; try lia; done. }
    destruct (chars (pretty n) ++ r) as [|c w] eqn:E.
    { exfalso. apply app_eq_nil in E as [E _]. by apply pretty_N_ne_empty in E. }
    pose proof (read_nat_pretty n r Hr) as Hn. rewrite E in Hn.
    destruct (decide (c = "-"%char)) as [->|Hc]; [done|].
    assert (∀ A (x y : A), match c with "-"%char => x | _ => y end = y) as Hm.
    { intros. destruct c as [[] [] [] [] [] [] [] []]; try reflexivity. by destruct Hc. }
    rewrite Hm, Hn. simpl. by rewrite Hf.
Qed.

(** Dispatch on the first character: numbers. *)
Lemma read_value_num n c w :
  num_char c = true →
  read_value (S n) (c :: w) = match read_int (c :: w) with Some p => Some (JInt p.1, p.2) | None => read_float (c :: w) end.
Proof. destruct c as [[] [] [] [] [] [] [] []]; try discriminate; reflexivity. Qed.

Lemma ser_no_ws j r : skip_ws (ser j ++ r) = ser j ++ r.
Proof.
  destruct (ser_head j) as (c & w & E & Hc). rewrite E. simpl. unfold skip_ws. simpl.
  destruct (is_ws c) eqn:Ews; [|done]. exfalso. revert Hc Ews. clear.
  destruct c as [[] [] [] [] [] [] [] []]; try discriminate; destruct j as [|[]| | | | |]; discriminate.
Qed.

Lemma ser_nonempty j : (1 <= length (ser j))%nat.
Proof. destruct (ser_head j) as (c & w & -> & _). simpl. lia. Qed.

Lemma read_value_open_arr n r :
  (∀ w, r ≠ "]"%char :: w) → skip_ws r = r →
  read_value (S n) ("["%char :: r) = (p ← read_items n r; Some (JArr p.1, p.2)).
Proof.
  intros Hne Hws. cbn [read_value]. rewrite Hws. destruct r as [|c w]; [done|].
  destruct c as [[] [] [] [] [] [] [] []]; try reflexivity. by destruct (Hne w).
Qed.

Lemma ser_items_cons sep x l r :
  ser_items sep (x :: l) ++ r = (if sep then [","%char] else []) ++ ser x ++ ser_items true l ++ r.
Proof. destruct sep; simpl; by rewrite <- app_assoc. Qed.

(** The reader of one value, as the induction hypothesis has it. *)
Definition reads_back (j : json) : Prop :=
  ∀ n r, (2 * length (ser j) + 1 <= n)%nat → stops r → read_value n (ser j ++ r) = Some (j, r).

Lemma read_items_ser l : Forall reads_back l → l ≠ [] → ∀ n r,
  (2 * length (ser_items false l) + 2 <= n)%nat →
  read_items n (ser_items false l ++ r) = Some (l, r).
Proof.
  induction 1 as [|x l Hx Hl IH]; intros Hne n r Hn; [done|]. destruct n as [|n]; [lia|].
  assert (length (ser_items false (x :: l)) = length (ser x) + length (ser_items true l))%nat as Hlen
    by (simpl; by rewrite length_app).
  rewrite Hlen in Hn. rewrite ser_items_cons. cbn [app read_items]. rewrite ser_no_ws.
  rewrite Hx; [|lia|apply ser_items_stops]. cbn.
  destruct l as [|y l]; [done|]. rewrite ser_items_cons. cbn [app skip_ws]. unfold skip_ws. cbn [drop_while].
  change (is_ws ",") with false. cbv iota.
  rewrite <- (ser_items_cons false y l r : _ = ser y ++ _). rewrite IH; [done|done|].
  assert (length (ser_items true (y :: l)) = S (length (ser_items false (y :: l)))) by (simpl; by rewrite !length_app).
  lia.
Qed.

Lemma ser_str_app s r : ser_str s ++ r = quote :: mbind escape_char (chars s) ++ quote :: r.
Proof. unfold ser_str. simpl. by rewrite <- app_assoc. Qed.

Lemma read_members_ser l : Forall (λ kv, reads_back kv.2) l → l ≠ [] → ∀ n r,
  (2 * length (ser_members false l) + 2 <= n)%nat →
  read_members n (ser_members false l ++ r) = Some (l, r).
Proof.
  induction 1 as [|[k x] l Hx Hl IH]; intros Hne n r Hn; [done|]. destruct n as [|n]; [lia|].
  rewrite ser_members_cons. cbn [app]. rewrite ser_str_app. cbn [read_members].
  unfold skip_ws at 1. cbn [drop_while]. change (is_ws quote) with false. cbv iota.
  change (code quote =? 34) with true. cbv iota.
  assert (length (ser_members false ((k, x) :: l))
    = length (ser_str k) + S (length (ser x) + length (ser_members true l)))%nat as Hlen.
  { pose proof (f_equal length (ser_members_cons false k x l [])) as E. rewrite !app_nil_r in E. rewrite E. simpl.
    rewrite !length_app. simpl. by rewrite length_app. }
  rewrite Hlen in Hn.
  rewrite read_string_ser; [|rewrite length_app; pose proof (escape_length (chars k)); simpl; lia].
  cbn [mbind option_bind fst snd]. unfold skip_ws at 1. cbn [drop_while]. change (is_ws ":") with false. cbv iota.
  rewrite ser_no_ws. simpl in Hx. rewrite Hx; [|lia|apply ser_members_stops].
  cbn [mbind option_bind fst snd]. rewrite of_chars_chars.
  destruct l as [|[k2 y] l]; [done|]. rewrite ser_members_cons. cbn [app]. unfold skip_ws. cbn [drop_while].
  change (is_ws ",") with false. cbv iota.
  pose proof (ser_members_cons false k2 y l r) as E2. cbn [app] in E2. rewrite <- E2. rewrite IH; [done|done|].
  assert (length (ser_members true ((k2, y) :: l)) = S (length (ser_members false ((k2, y) :: l)))) by done. lia.
Qed.

Lemma read_value_open_obj n k x l r :
  read_value (S n) ("{"%char :: ser_members false ((k, x) :: l) ++ r)
  = (p ← read_members n (ser_members false ((k, x) :: l) ++ r); Some (JObj (dict_of p.1), p.2)).
Proof. rewrite ser_members_cons. cbn [app]. rewrite ser_str_app. reflexivity. Qed.

Lemma read_value_quote n w :
  read_value (S n) (quote :: w) = (p ← read_string (S (length w)) w; Some (JStr (of_chars p.1), p.2)).
Proof. reflexivity. Qed.

Lemma read_value_ser j : well_keyed j → reads_back j.
Proof.
  induction j as [|b|z|s|l IH|l IH|f] using json_rect_strong; intros Hw n r Hn Hr;
    (destruct n as [|n]; [lia|]); [..|by inversion Hw].
  - reflexivity.
  - by destruct b.
  - destruct (ser_head (JInt z)) as (c & w & E & Hc). pose proof (read_int_pretty z r (stops_ends_number _ Hr)) as Hi.
    simpl ser in *. rewrite E in Hi |- *. cbn [app] in *. rewrite read_value_num, Hi; [done|].
    pose proof (str_int_num z) as Hnum. rewrite E in Hnum. simpl in Hnum. by breflect.
  - simpl ser. rewrite ser_str_app, read_value_quote, read_string_ser.
    + cbn. by rewrite of_chars_chars.
    + rewrite length_app. pose proof (escape_length (chars s)). simpl. lia.
  - inversion Hw as [| | | |? Hl|]; subst. destruct l as [|x l]; [reflexivity|].
    change (ser (JArr (x :: l)) ++ r) with ("["%char :: ser_items false (x :: l) ++ r).
    change (ser (JArr (x :: l))) with ("["%char :: ser_items false (x :: l)) in Hn.
    rewrite read_value_open_arr.
    + rewrite read_items_ser; [done| |done|simpl length in *; lia].
      rewrite Forall_forall in *. auto.
    + intros w E. rewrite ser_items_cons in E. by eapply ser_not_close.
    + rewrite ser_items_cons. apply ser_no_ws.
  - inversion Hw as [| | | | |? Hnd Hl]; subst. destruct l as [|[k x] l]; [reflexivity|].
    change (ser (JObj ((k, x) :: l)) ++ r) with ("{"%char :: ser_members false ((k, x) :: l) ++ r).
    change (ser (JObj ((k, x) :: l))) with ("{"%char :: ser_members false ((k, x) :: l)) in Hn.
    rewrite read_value_open_obj, read_members_ser; [|..].
    + cbn [mbind option_bind fst snd]. by rewrite dict_of_distinct.
    + rewrite Forall_forall in *. auto.
    + done.
    + simpl length in *. lia.
Qed.

Lemma well_keyed_sort j : well_keyed j → well_keyed (sort_keys j).
Proof.
  induction j as [|b|z|s|l IH|l IH|f] using json_rect_strong; intros Hw; try done; simpl.
  - inversion Hw as [| | | |? Hl|]; subst. constructor. rewrite Forall_fmap. rewrite Forall_forall in *. auto.
  - inversion Hw as [| | | | |? Hnd Hl]; subst.
    set (l' := (λ kv, (kv.1, sort_keys kv.2)) <$> l).
    assert (merge_sort key_le l' ≡ₚ l') as Hp by apply merge_sort_Permutation.
    constructor.
    + rewrite Hp. unfold l'. by rewrite <- list_fmap_compose.
    + rewrite Hp. unfold l'. rewrite Forall_fmap. rewrite Forall_forall in *. intros x Hx. by apply IH, Hl.
Qed.

(** Reading the text of a document gives the document. *)
Lemma loads_ser j : well_keyed j → loads (of_chars (ser j)) = Some j.
Proof.
  intros Hw. unfold loads, loads_chars. rewrite chars_of_chars.
  pose proof (ser_no_ws j []) as Hws. rewrite app_nil_r in Hws. rewrite Hws.
  pose proof (read_value_ser _ Hw (2 * length (ser j) + 2)%nat []) as H. rewrite app_nil_r in H.
  rewrite H; [done|lia|done].
Qed.

(** The canonical text has the keys sorted. *)
Lemma loads_dumps j : well_keyed j → loads (dumps j) = Some (sort_keys j).
Proof. intros Hw%well_keyed_sort. by apply loads_ser. Qed.

Lemma dict_get_elem k v l : NoDup l.*1 → (k, v) ∈ l → dict_get k l = Some v.
Proof.
  induction l as [|[k' v'] l IH]; [by intros _ ?%elem_of_nil|]. simpl. intros [Hn Hnd]%NoDup_cons [[= -> ->]|Hin]%elem_of_cons.
  - by rewrite bool_decide_true.
  - rewrite bool_decide_false; [by apply IH|]. intros ->. apply Hn, list_elem_of_fmap. by exists (k', v).
Qed.

Lemma dict_get_set_ne k k' v l : k ≠ k' → dict_get k (dict_set k' v l) = dict_get k l.
Proof.
  intros Hne. induction l as [|[k1 v1] l IH]; simpl; [by rewrite bool_decide_false|].
  case_bool_decide as E; simpl; [subst; by rewrite !bool_decide_false|]. by rewrite IH.
Qed.
