(* ===== verification/Crypto.v ===== *)
(** * Digests and encodings of Python's standard library

    [hashlib.sha256], [hashlib.sha1], [hmac.new], hexadecimal, base64 and
    base32, as executable functions on lists of bytes ([Z] in 0..255), so that
    the token hashes, chained audit hashes, request signatures and one-time
    codes of the model are computed, not postulated.  32-bit words are kept at
    their width with explicit wrap-around. *)

From S2P Require Import Prelude PyStr.

Local Open Scope Z_scope.

Definition bytes := list Z.

(** Bytes of an already encoded string. *)
Definition bytes_of (s : string) : bytes := code <$> chars s.
Definition string_of_bytes (b : bytes) : string := of_chars (chr <$> b).

(** [s.encode()] as bytes. *)
Definition utf8 (s : string) : bytes := bytes_of (encode s).

Definition hex_char (z : Z) : ascii := if z <? 10 then chr (48 + z) else chr (87 + z).
Definition hexdigest (b : bytes) : string :=
  of_chars (mbind (λ z, [hex_char (z / 16); hex_char (z mod 16)]) b).

(** ** 32-bit words *)

Definition w32 (z : Z) : Z := z mod 2 ^ 32.
Definition add32 (x y : Z) : Z := w32 (x + y).
Definition rotl32 (n x : Z) : Z := Z.lor (w32 (Z.shiftl x n)) (Z.shiftr x (32 - n)).
Definition rotr32 (n x : Z) : Z := rotl32 (32 - n) x.
Definition not32 (x : Z) : Z := Z.lxor x (2 ^ 32 - 1).

(** Big-endian words and bytes. *)
Fixpoint be_bytes (n : nat) (z : Z) : bytes :=
  match n with
  | O => []
  | S n' => be_bytes n' (z / 256) ++ [z mod 256]
  end.

Definition be_value (b : bytes) : Z := fold_left (λ acc x, 256 * acc + x) b 0.

Fixpoint words (n : nat) (b : bytes) : list Z :=
  match n with
  | O => []
  | S n' => be_value (take 4 b) :: words n' (drop 4 b)
  end.

(** Merkle-Damgard padding to a multiple of 64 bytes. *)
Definition pad (b : bytes) : bytes :=
  let n := Z.of_nat (length b) in
  b ++ 128 :: replicate (Z.to_nat ((55 - n) mod 64)) 0 ++ be_bytes 8 (8 * n).

Fixpoint blocks (n : nat) (b : bytes) : list bytes :=
  match n with
  | O => []
  | S n' => take 64 b :: blocks n' (drop 64 b)
  end.

Definition padded_blocks (b : bytes) : list bytes :=
  let p := pad b in blocks (length p / 64)%nat p.

(** ** SHA-256 *)

(** The round constants and the initial state as FIPS 180-4 defines them: the first 32 bits of
    the fractional parts of the cube roots of the first 64 primes, and of the square roots of
    the first eight. *)
Definition primes_below (bound : nat) : list Z :=
  filter (λ p, forallb (λ d, negb (p mod d =? 0)) (seqZ 2 (p - 2)) = true)
    (seqZ 2 (Z.of_nat bound - 2)).

Fixpoint cube_root_bits (n : nat) (x acc : Z) : Z :=
  match n with
  | O => acc
  | S n' =>
      let r := acc + 2 ^ Z.of_nat n' in
      cube_root_bits n' x (if r * r * r <=? x then r else acc)
  end.

Definition first_primes : list Z := Eval vm_compute in take 64 (primes_below 320).

Definition sha256_k : list Z :=
  Eval vm_compute in map (λ p, w32 (cube_root_bits 40 (p * 2 ^ 96) 0)) first_primes.

Definition sha256_init : list Z :=
  Eval vm_compute in map (λ p, w32 (Z.sqrt (p * 2 ^ 64))) (take 8 first_primes).

(** Message schedule, newest word first. *)
Fixpoint schedule256 (n : nat) (rev_w : list Z) : list Z :=
  match n with
  | O => rev_w
  | S n' =>
      let g i := nth i rev_w 0 in
      let s0 := Z.lxor (Z.lxor (rotr32 7 (g 14%nat)) (rotr32 18 (g 14%nat))) (Z.shiftr (g 14%nat) 3) in
      let s1 := Z.lxor (Z.lxor (rotr32 17 (g 1%nat)) (rotr32 19 (g 1%nat))) (Z.shiftr (g 1%nat) 10) in
      schedule256 n' (w32 (g 15%nat + s0 + g 6%nat + s1) :: rev_w)
  end.

Definition round256 (st : list Z) (kw : Z * Z) : list Z :=
  match st with
  | [a; b; c; d; e; f; g; h] =>
      let s1 := Z.lxor (Z.lxor (rotr32 6 e) (rotr32 11 e)) (rotr32 25 e) in
      let ch := Z.lxor (Z.land e f) (Z.land (not32 e) g) in
      let t1 := w32 (h + s1 + ch + kw.1 + kw.2) in
      let s0 := Z.lxor (Z.lxor (rotr32 2 a) (rotr32 13 a)) (rotr32 22 a) in
      let maj := Z.lxor (Z.lxor (Z.land a b) (Z.land a c)) (Z.land b c) in
      [add32 t1 (add32 s0 maj); a; b; c; add32 d t1; e; f; g]
  | _ => st
  end.

Definition block256 (st : list Z) (b : bytes) : list Z :=
  let w := rev (schedule256 48 (rev (words 16 b))) in
  zip_with add32 st (fold_left round256 (zip sha256_k w) st).

Definition sha256 (b : bytes) : bytes :=
  mbind (be_bytes 4) (fold_left block256 (padded_blocks b) sha256_init).

(** [hashlib.sha256(s.encode()).hexdigest()] *)
Definition sha256_hex (s : string) : string := hexdigest (sha256 (utf8 s)).

(** ** SHA-1 *)

Definition sha1_init : list Z := [0x67452301; 0xefcdab89; 0x98badcfe; 0x10325476; 0xc3d2e1f0].

Fixpoint schedule1 (n : nat) (rev_w : list Z) : list Z :=
  match n with
  | O => rev_w
  | S n' =>
      let g i := nth i rev_w 0 in
      schedule1 n'
        (rotl32 1 (Z.lxor (Z.lxor (g 2%nat) (g 7%nat)) (Z.lxor (g 13%nat) (g 15%nat))) :: rev_w)
  end.

Definition round1 (st : list Z) (iw : nat * Z) : list Z :=
  match st with
  | [a; b; c; d; e] =>
      let i := iw.1 in
      let fk :=
        if (i <? 20)%nat then (Z.lor (Z.land b c) (Z.land (not32 b) d), 0x5a827999)
        else if (i <? 40)%nat then (Z.lxor (Z.lxor b c) d, 0x6ed9eba1)
        else if (i <? 60)%nat
          then (Z.lor (Z.lor (Z.land b c) (Z.land b d)) (Z.land c d), 0x8f1bbcdc)
        else (Z.lxor (Z.lxor b c) d, 0xca62c1d6) in
      [w32 (rotl32 5 a + fk.1 + e + fk.2 + iw.2); a; rotl32 30 b; c; d]
  | _ => st
  end.

Definition block1 (st : list Z) (b : bytes) : list Z :=
  let w := rev (schedule1 64 (rev (words 16 b))) in
  zip_with add32 st (fold_left round1 (zip (seq 0 80) w) st).

Definition sha1 (b : bytes) : bytes :=
  mbind (be_bytes 4) (fold_left block1 (padded_blocks b) sha1_init).

(** ** HMAC (both digests have 64-byte blocks) *)

Definition hmac_key (h : bytes → bytes) (key : bytes) : bytes :=
  let k0 := if (64 <? length key)%nat then h key else key in
  k0 ++ replicate (64 - length k0) 0.

Definition hmac (h : bytes → bytes) (key msg : bytes) : bytes :=
  let k := hmac_key h key in
  h ((Z.lxor 0x5c <$> k) ++ h ((Z.lxor 0x36 <$> k) ++ msg)).

(** [hmac.compare_digest] on [str]: a [TypeError] ([None]) unless both arguments
    are ASCII. *)
Definition compare_digest (a b : string) : option bool :=
  if is_ascii a && is_ascii b then Some (bool_decide (a = b)) else None.

(** ** Base 64 and base 32 *)

Definition b64_char (z : Z) : ascii :=
  if z <? 26 then chr (65 + z) else if z <? 52 then chr (71 + z)
  else if z <? 62 then chr (z - 4) else if z =? 62 then "+"%char else "/"%char.

Definition b64_value (c : ascii) : option Z :=
  let z := code c in
  if between 65 z 90 then Some (z - 65) else if between 97 z 122 then Some (z - 71)
  else if between 48 z 57 then Some (z + 4) else if z =? 43 then Some 62
  else if z =? 47 then Some 63 else None.

Fixpoint b64encode (b : bytes) : list ascii :=
  match b with
  | x :: y :: z :: b' =>
      let v := 65536 * x + 256 * y + z in
      b64_char (v / 262144) :: b64_char (v / 4096 mod 64) :: b64_char (v / 64 mod 64)
      :: b64_char (v mod 64) :: b64encode b'
  | [x; y] =>
      let v := 65536 * x + 256 * y in
      [b64_char (v / 262144); b64_char (v / 4096 mod 64); b64_char (v / 64 mod 64); "="%char]
  | [x] => let v := 65536 * x in
      [b64_char (v / 262144); b64_char (v / 4096 mod 64); "="%char; "="%char]
  | [] => []
  end.

(** [base64.b64decode(s, validate=True)]; [None] for [binascii.Error]. *)
Fixpoint b64decode (l : list ascii) : option bytes :=
  match l with
  | [] => Some []
  | [a; b; "="%char; "="%char] =>
      x ← b64_value a; y ← b64_value b; Some [(64 * x + y) / 16]
  | [a; b; c; "="%char] =>
      x ← b64_value a; y ← b64_value b; z ← b64_value c;
      let v := 4096 * x + 64 * y + z in Some [v / 1024; v / 4 mod 256]
  | a :: b :: c :: d :: l' =>
      x ← b64_value a; y ← b64_value b; z ← b64_value c; t ← b64_value d;
      let v := 262144 * x + 4096 * y + 64 * z + t in
      r ← b64decode l'; Some (v / 65536 :: v / 256 mod 256 :: v mod 256 :: r)
  | _ => None
  end.

Definition b32_value (c : ascii) : option Z :=
  let z := code c in
  if between 65 z 90 then Some (z - 65)
  else if between 97 z 122 then Some (z - 97)
  else if between 50 z 55 then Some (z - 24) else None.

(** One quantum of [base64.b32decode(s, casefold=True)]: eight characters, of
    which the last [p] are padding. *)
Definition b32_quantum (l : list ascii) (p : nat) : option bytes :=
  vs ← mapM b32_value (take (8 - p) l);
  let v := fold_left (λ acc x, 32 * acc + x) (vs ++ replicate p 0) 0 in
  match p with
  | 0%nat => Some (be_bytes 5 v)
  | 1%nat => Some (take 4 (be_bytes 5 v))
  | 3%nat => Some (take 3 (be_bytes 5 v))
  | 4%nat => Some (take 2 (be_bytes 5 v))
  | 6%nat => Some (take 1 (be_bytes 5 v))
  | _ => None
  end.

Fixpoint b32decode_go (n : nat) (l : list ascii) : option bytes :=
  match n with
  | O => Some []
  | S n' =>
      let q := take 8 l in let r := drop 8 l in
      let p := match r with
               | [] => length q - length (rev (drop_while (λ c, bool_decide (c = "="%char)) (rev q)))
               | _ => 0
               end%nat in
      x ← b32_quantum q p; y ← b32decode_go n' r; Some (x ++ y)
  end.

Definition b32decode (s : string) : option bytes :=
  let l := chars s in
  if (length l mod 8 =? 0)%nat then b32decode_go (length l / 8)%nat l else None.

Definition b32_char (z : Z) : ascii := if z <? 26 then chr (65 + z) else chr (24 + z).

(** [base64.b32encode] of whole quanta: a multiple of five bytes, no padding. *)
Fixpoint b32encode (b : bytes) : list ascii :=
  match b with
  | v1 :: v2 :: v3 :: v4 :: v5 :: b' =>
      let v := be_value [v1; v2; v3; v4; v5] in
      (b32_char <$> [v / 2 ^ 35; v / 2 ^ 30 mod 32; v / 2 ^ 25 mod 32; v / 2 ^ 20 mod 32;
                     v / 2 ^ 15 mod 32; v / 2 ^ 10 mod 32; v / 32 mod 32; v mod 32])
      ++ b32encode b'
  | _ => []
  end.

(** ** Test vectors (FIPS 180-4, RFC 4231, RFC 4648) *)

Example sha256_abc :
  sha256_hex "abc" = "ba7816bf8f01cfea414140de5dae2223b00361a396177a9cb410ff61f20015ad".
Proof. vm_compute. reflexivity. Qed.
Example sha256_two_blocks :
  sha256_hex "abcdbcdecdefdefgefghfghighijhijkijkljklmklmnlmnomnopnopq" =
  "248d6a61d20638b8e5c026930c3e6039a33ce45964ff2167f6ecedd419db06c1".
Proof. vm_compute. reflexivity. Qed.
Example sha1_abc :
  hexdigest (sha1 (bytes_of "abc")) = "a9993e364706816aba3e25717850c26c9cd0d89d".
Proof. vm_compute. reflexivity. Qed.
Example hmac_sha256_rfc4231_2 :
  hexdigest (hmac sha256 (bytes_of "Jefe") (bytes_of "what do ya want for nothing?")) =
  "5bdcc146bf60754e6a042426089575c75a003f089d2739839dec58b964ec3843".
Proof. vm_compute. reflexivity. Qed.
Example b64_ex : of_chars (b64encode (bytes_of "fooba")) = "Zm9vYmE=".
Proof. reflexivity. Qed.
Example b64_dec_ex : string_of_bytes <$> b64decode (chars "Zm9vYmE=") = Some "fooba".
Proof. reflexivity. Qed.
Example b32_enc_ex : of_chars (b32encode (bytes_of "foobarfoob")) = "MZXW6YTBOJTG633C".
Proof. reflexivity. Qed.
Example b32_ex : string_of_bytes <$> b32decode "MZXW6YTB" = Some "fooba"
  ∧ string_of_bytes <$> b32decode "MZXW6===" = Some "foo".
Proof. split; reflexivity. Qed.

(** ** Sizes *)

Lemma be_bytes_length n z : length (be_bytes n z) = n.
Proof.
  revert z. induction n as [|n IH]; intros z; simpl; [done|].
  rewrite length_app, IH. simpl. lia.
Qed.

Lemma hexdigest_length b : String.length (hexdigest b) = (2 * length b)%nat.
Proof.
  unfold hexdigest. rewrite <- length_chars, chars_of_chars.
  induction b as [|x b IH]; [done|]. cbn [mbind list_bind app length] in *. lia.
Qed.

Lemma round256_length st kw : length st = 8%nat → length (round256 st kw) = 8%nat.
Proof. do 9 (destruct st as [|? st]; try done). Qed.

Lemma block256_length st b : length st = 8%nat → length (block256 st b) = 8%nat.
Proof.
  intros H. unfold block256. rewrite length_zip_with, H.
  set (l := zip _ _). clearbody l.
  enough (length (fold_left round256 l st) = 8%nat) as -> by done.
  revert st H. induction l as [|x l IH]; intros st H; simpl; [done|].
  by apply IH, round256_length.
Qed.

Lemma sha256_length b : length (sha256 b) = 32%nat.
Proof.
  unfold sha256.
  enough (length (fold_left block256 (padded_blocks b) sha256_init) = 8%nat) as H.
  { revert H. generalize (fold_left block256 (padded_blocks b) sha256_init).
    intros l H. do 9 (destruct l as [|? l]; try done). }
  assert (length sha256_init = 8%nat) as H by done. revert H.
  generalize sha256_init. induction (padded_blocks b) as [|x l IH]; intros st H; simpl; [done|].
  by apply IH, block256_length.
Qed.

Lemma sha256_hex_length s : String.length (sha256_hex s) = 64%nat.
Proof. unfold sha256_hex. by rewrite hexdigest_length, sha256_length. Qed.

Lemma sha256_hex_ne_empty s : sha256_hex s ≠ "".
Proof. intros H. pose proof (sha256_hex_length s) as L. by rewrite H in L. Qed.

(** These two inputs differ and have the same digest.  (That some two inputs do is no
    news: the theorems name the two they mean.) *)
Definition sha256_collides (a b : bytes) : Prop := a ≠ b ∧ sha256 a = sha256 b.

Lemma hex_char_inj x y : 0 <= x < 16 → 0 <= y < 16 → hex_char x = hex_char y → x = y.
Proof.
  intros Hx Hy H. apply (f_equal code) in H. unfold hex_char in H.
  destruct (Z.ltb_spec x 10), (Z.ltb_spec y 10); rewrite !code_chr in H; lia.
Qed.

Definition is_byte (z : Z) : Prop := 0 <= z < 256.

Lemma hexdigest_inj a b :
  Forall is_byte a → Forall is_byte b → hexdigest a = hexdigest b → a = b.
Proof.
  intros Ha Hb H. apply (f_equal chars) in H. unfold hexdigest in H.
  rewrite !chars_of_chars in H. revert b Hb H.
  induction Ha as [|x a Hx Ha IH]; intros [|y b] Hb H; try done.
  cbn [mbind list_bind app] in H. injection H as H1 H2 H3.
  inversion_clear Hb as [|? ? Hy Hb'].
  unfold is_byte in Hx, Hy.
  pose proof (Z.div_mod x 16). pose proof (Z.div_mod y 16).
  pose proof (Z.mod_pos_bound x 16). pose proof (Z.mod_pos_bound y 16).
  assert (0 <= x / 16 < 16 ∧ 0 <= y / 16 < 16) as [? ?].
  { split; split; first [apply Z.div_pos; lia | apply Z.div_lt_upper_bound; lia]. }
  apply hex_char_inj in H1; [|lia..]. apply hex_char_inj in H2; [|lia..].
  f_equal; [lia|by apply IH].
Qed.

Lemma be_bytes_bytes n z : Forall is_byte (be_bytes n z).
Proof.
  revert z. induction n as [|n IH]; intros z; simpl; [constructor|].
  apply Forall_app. split; [done|]. constructor; [|constructor].
  unfold is_byte. apply Z.mod_pos_bound. lia.
Qed.

Lemma sha256_bytes b : Forall is_byte (sha256 b).
Proof.
  unfold sha256. generalize (fold_left block256 (padded_blocks b) sha256_init).
  intros l. induction l as [|x l IH]; [constructor|].
  cbn [mbind list_bind]. apply Forall_app. split; [apply be_bytes_bytes|done].
Qed.

Lemma bytes_of_inj s t : bytes_of s = bytes_of t → s = t.
Proof.
  unfold bytes_of. intros H. apply chars_inj. revert H.
  generalize (chars t). generalize (chars s).
  induction l as [|c l IH]; intros [|d l'] H; try done.
  simpl in H. injection H as H1 H2. f_equal; [by apply code_inj|by apply IH].
Qed.

(** Equal hexadecimal digests of two strings: they are equal or their encodings
    collide. *)
Lemma sha256_hex_inj s t : sha256_hex s = sha256_hex t → s = t ∨ sha256_collides (utf8 s) (utf8 t).
Proof.
  unfold sha256_hex. intros H. apply hexdigest_inj in H; [|apply sha256_bytes..].
  destruct (decide (s = t)) as [|Hne]; [by left|right]. split; [|done]. unfold utf8.
  intros E. by apply bytes_of_inj, encode_inj in E.
Qed.

(** What the two rounds of HMAC-SHA-256 absorb for a message, and a collision in either
    round between two given messages. *)
Definition hmac_inner (key msg : bytes) : bytes := (Z.lxor 0x36 <$> hmac_key sha256 key) ++ msg.
Definition hmac_outer (key msg : bytes) : bytes :=
  (Z.lxor 0x5c <$> hmac_key sha256 key) ++ sha256 (hmac_inner key msg).
Definition hmac_collides (key a b : bytes) : Prop :=
  sha256_collides (hmac_inner key a) (hmac_inner key b) ∨ sha256_collides (hmac_outer key a) (hmac_outer key b).

Lemma hmac_sha256_inj key a b : hmac sha256 key a = hmac sha256 key b → a = b ∨ hmac_collides key a b.
Proof.
  intros H. destruct (decide (sha256 (hmac_inner key a) = sha256 (hmac_inner key b))) as [E|E].
  - destruct (decide (a = b)) as [|Hne]; [by left|]. right. left. split; [|exact E].
    intros E2. by apply app_inv_head in E2.
  - right. right. split; [|exact H]. intros E2. by apply app_inv_head in E2.
Qed.
