(* ===== verification/PyTime.v ===== *)
(** * Instants, dates and clocks

    Aware datetimes are [Z] microseconds since 1970-01-01T00:00:00Z, durations
    [Z] microseconds.  [isoformat] is [datetime.isoformat()] of a UTC datetime,
    computed from the proleptic Gregorian calendar. *)

From S2P Require Import Prelude PyStr.

Local Open Scope Z_scope.

Definition microsecond : Z := 1.
Definition second : Z := 1000000.
Definition minute : Z := 60 * second.
Definition hour : Z := 60 * minute.
Definition day : Z := 24 * hour.

(** [timedelta(seconds=n)], [timedelta(minutes=n)], ... *)
Definition seconds (n : Z) : Z := n * second.
Definition minutes (n : Z) : Z := n * minute.
Definition hours (n : Z) : Z := n * hour.
Definition days (n : Z) : Z := n * day.

(** [int(time.time())] at the instant [t]. *)
Definition epoch (t : Z) : Z := t / second.

(** Civil date of a day number (day 0 is 1970-01-01), by 400-year eras that
    start on the first of March. *)
Definition civil (d : Z) : Z * Z * Z :=
  let z := d + 719468 in
  let era := z / 146097 in
  let doe := z - era * 146097 in
  let yoe := (doe - doe / 1460 + doe / 36524 - doe / 146096) / 365 in
  let doy := doe - (365 * yoe + yoe / 4 - yoe / 100) in
  let mp := (5 * doy + 2) / 153 in
  let dd := doy - (153 * mp + 2) / 5 + 1 in
  let mm := if mp <? 10 then mp + 3 else mp - 9 in
  ((yoe + era * 400) + (if mm <=? 2 then 1 else 0), mm, dd).

Definition pad2 (z : Z) : string := zfill 2 (str_int z).

(** [dt.isoformat()] of an aware UTC datetime: the fraction is printed only
    when it is not zero. *)
Definition isoformat (t : Z) : string :=
  let '(y, m, d) := civil (t / day) in
  let tod := t mod day in
  let us := tod mod second in
  zfill 4 (str_int y) +:+ "-" +:+ pad2 m +:+ "-" +:+ pad2 d +:+ "T"
  +:+ pad2 (tod / hour) +:+ ":" +:+ pad2 (tod / minute mod 60) +:+ ":"
  +:+ pad2 (tod / second mod 60)
  +:+ (if us =? 0 then "" else "." +:+ zfill 6 (str_int us))
  +:+ "+00:00".

Example isoformat_ex :
  isoformat (1709210096 * second + 5) = "2024-02-29T12:34:56.000005+00:00"
  ∧ isoformat 0 = "1970-01-01T00:00:00+00:00".
Proof. split; reflexivity. Qed.

(** [dt.weekday()] (Monday is 0) and [dt.time()] of a local wall-clock instant. *)
Definition weekday (local : Z) : Z := (local / day + 3) mod 7.
Definition time_of_day (local : Z) : Z := local mod day.

Lemma time_of_day_range t : 0 <= time_of_day t < day.
Proof. apply Z.mod_pos_bound. reflexivity. Qed.

Lemma weekday_range t : 0 <= weekday t < 7.
Proof. apply Z.mod_pos_bound. reflexivity. Qed.
