(* ===== verification/Models.v ===== *)
(** * The data model

    The Django models of the applications, one [Record] per model with the
    source's fields, one [Inductive] per [TextChoices], and the database: one
    finite map per table, keyed by primary key.  Foreign keys are primary keys
    of the referenced table; many-to-many fields are sets of primary keys.
    A model instance held by Python code is [obj]: its primary key and the
    column values it was loaded with, which may be stale with respect to the
    table. *)

From S2P Require Import Prelude PyStr Json.

Local Open Scope Z_scope.

Abbreviation id := N (only parsing).

(** A model instance: primary key and loaded columns. *)
Record obj (A : Type) := Obj { pk : id; val : A }.
Arguments Obj {A} pk val.
Arguments pk {A} o.
Arguments val {A} o.

#[global] Instance obj_settable A : Settable (obj A) := λ r, Obj (pk r) (val r).

#[global] Instance obj_eq_dec `{EqDecision A} : EqDecision (obj A).
Proof. solve_decision. Defined.

(** [UUIDTimeStampedModel]: [auto_now_add] and [auto_now] columns. *)
Record stamps := Stamps { created_at : Z; updated_at : Z }.
#[global] Instance stamps_settable : Settable stamps := λ r, Stamps (created_at r) (updated_at r).

(** ** accounts *)

Record user := User {
  u_username : string;
  u_email : string;
  u_display_name : string;
  u_is_active : bool;
  u_is_superuser : bool;
  u_is_service_account : bool;
  u_preferred_theme : string;
  u_preferred_language : string;
  u_password : string;    (** the hash; ["!"] when it is unusable *)
}.
#[global] Instance user_settable : Settable user := λ r,
  User (u_username r) (u_email r) (u_display_name r) (u_is_active r) (u_is_superuser r)
    (u_is_service_account r) (u_preferred_theme r) (u_preferred_language r) (u_password r).

(** [request.user]: anonymous, or a loaded [User]. *)
Inductive principal := AnonymousUser | Authenticated (u : obj user).

Record platform_security_policy := PlatformSecurityPolicy {
  idle_timeout_minutes : Z;
  absolute_session_minutes : Z;
  require_mfa_for_all_users : bool;
  sensitive_action_mfa_window_minutes : Z;
  psp_updated_by : option id;
}.
#[global] Instance psp_settable : Settable platform_security_policy := λ r,
  PlatformSecurityPolicy (idle_timeout_minutes r) (absolute_session_minutes r)
    (require_mfa_for_all_users r) (sensitive_action_mfa_window_minutes r) (psp_updated_by r).

(** The column defaults used by [get_or_create(pk=1)]. *)
Definition default_security_policy : platform_security_policy :=
  PlatformSecurityPolicy 15 480 true 5 None.

(** ** rbac *)

Record role := Role {
  ro_name : string;
  ro_slug : option string;
  ro_capabilities : list string;
  ro_is_system : bool;
  ro_enabled : bool;
  ro_description : string;
}.
#[global] Instance role_settable : Settable role := λ r,
  Role (ro_name r) (ro_slug r) (ro_capabilities r) (ro_is_system r) (ro_enabled r) (ro_description r).

Record role_assignment := RoleAssignment {
  ra_user : id;
  ra_role : id;
  ra_valid_from : Z;
  ra_valid_until : option Z;
}.

Record user_group := UserGroup {
  ug_name : string;
  ug_users : gset id;
  ug_roles : gset id;
  ug_enabled : bool;
  ug_description : string;
}.
#[global] Instance user_group_settable : Settable user_group := λ r,
  UserGroup (ug_name r) (ug_users r) (ug_roles r) (ug_enabled r) (ug_description r).

(** ** targets *)

Inductive protocol := SSH | RDP | WEB | VNC | TELNET | RAW_TCP.
#[global] Instance protocol_eq_dec : EqDecision protocol.
Proof. solve_decision. Defined.

Definition protocol_str (p : protocol) : string :=
  match p with
  | SSH => "ssh" | RDP => "rdp" | WEB => "web" | VNC => "vnc"
  | TELNET => "telnet" | RAW_TCP => "raw_tcp"
  end.

Inductive ssh_host_key_policy := TRUST_ON_FIRST_USE | STRICT.
#[global] Instance host_key_policy_eq_dec : EqDecision ssh_host_key_policy.
Proof. solve_decision. Defined.

Definition host_key_policy_str (p : ssh_host_key_policy) : string :=
  match p with TRUST_ON_FIRST_USE => "tofu" | STRICT => "strict" end.

Record domain := Domain {
  do_name : string;
  do_kind : string;
  do_dns_name : string;
  do_description : string;
  do_enabled : bool;
}.

Record target := Target {
  t_name : string;
  t_hostname : string;
  t_port : Z;
  t_protocol : protocol;
  t_host_key_policy : ssh_host_key_policy;
  t_enabled : bool;
  t_rdp_security : string;
  t_rdp_certificate_fingerprints : string;
  t_rdp_server_layout : string;
  t_rdp_resize_method : string;
  t_kind : string;
  t_domain : option id;
  t_platform : string;
  t_description : string;
}.
#[global] Instance target_settable : Settable target := λ r,
  Target (t_name r) (t_hostname r) (t_port r) (t_protocol r) (t_host_key_policy r) (t_enabled r)
    (t_rdp_security r) (t_rdp_certificate_fingerprints r) (t_rdp_server_layout r) (t_rdp_resize_method r)
    (t_kind r) (t_domain r) (t_platform r) (t_description r).

Record target_group := TargetGroup {
  tg_name : string;
  tg_targets : gset id;
  tg_enabled : bool;
  tg_description : string;
}.

Record target_host_key := TargetHostKey {
  hk_target : id;
  hk_key_type : string;
  hk_public_key : string;
  hk_fingerprint_sha256 : string;
  hk_comment : string;
  hk_trusted_at : Z;
  hk_trusted_by : option id;
  hk_revoked_at : option Z;
  hk_revoked_by : option id;
}.
#[global] Instance target_host_key_settable : Settable target_host_key := λ r,
  TargetHostKey (hk_target r) (hk_key_type r) (hk_public_key r) (hk_fingerprint_sha256 r) (hk_comment r)
    (hk_trusted_at r) (hk_trusted_by r) (hk_revoked_at r) (hk_revoked_by r).

(** ** policies *)

Record time_frame := TimeFrame {
  tf_name : string;
  tf_weekdays : list json;
  tf_start_time : option Z;
  tf_end_time : option Z;
  tf_valid_from : option Z;
  tf_valid_until : option Z;
  tf_enabled : bool;
}.

Record secret_rotation_policy := SecretRotationPolicy {
  srp_name : string;
  srp_interval_days : Z;
  srp_password_length : Z;
  srp_connector_key : string;
  srp_enabled : bool;
  srp_strategy : string;
  srp_target_groups : gset id;
}.

(** [AccessPolicy.Action]. *)
Definition REQUEST_ACCESS : string := "request_access".
Definition START_SESSION : string := "start_session".
Definition VIEW_SECRET : string := "view_secret".
Definition REVEAL_TOTP : string := "reveal_totp".
Definition APPROVE_REQUEST : string := "approve_request".
Definition MANAGE_TARGETS : string := "manage_targets".

Record access_policy := AccessPolicy {
  p_name : string;
  p_targets : gset id;
  p_credentials : gset id;
  p_user_groups : gset id;
  p_target_groups : gset id;
  p_approver_groups : gset id;
  p_time_frames : gset id;
  p_actions : list string;
  p_protocols : list string;
  p_requires_approval : bool;
  p_approval_quorum : Z;
  p_ticket_required : bool;
  p_requires_mfa : bool;
  p_max_duration_minutes : Z;
  p_max_concurrent_sessions : Z;
  p_allow_clipboard_copy : bool;
  p_allow_clipboard_paste : bool;
  p_command_deny_patterns : list string;
  p_command_alert_patterns : list string;
  p_valid_from : option Z;
  p_valid_until : option Z;
  p_weekdays : list json;
  p_access_start_time : option Z;
  p_access_end_time : option Z;
  p_source_cidrs : list string;
  p_enabled : bool;
}.
#[global] Instance access_policy_settable : Settable access_policy := λ r,
  AccessPolicy (p_name r) (p_targets r) (p_credentials r) (p_user_groups r)
    (p_target_groups r) (p_approver_groups r) (p_time_frames r) (p_actions r)
    (p_protocols r) (p_requires_approval r) (p_approval_quorum r) (p_ticket_required r)
    (p_requires_mfa r) (p_max_duration_minutes r) (p_max_concurrent_sessions r)
    (p_allow_clipboard_copy r) (p_allow_clipboard_paste r) (p_command_deny_patterns r)
    (p_command_alert_patterns r) (p_valid_from r) (p_valid_until r) (p_weekdays r)
    (p_access_start_time r) (p_access_end_time r) (p_source_cidrs r) (p_enabled r).

(** ** approvals *)

Module RequestStatus.
Inductive t := PENDING | APPROVED | REJECTED | CANCELLED | EXPIRED.
#[global] Instance eq_dec : EqDecision t.
Proof. solve_decision. Defined.
Definition str (s : t) : string :=
  match s with
  | PENDING => "pending" | APPROVED => "approved" | REJECTED => "rejected"
  | CANCELLED => "cancelled" | EXPIRED => "expired"
  end.
End RequestStatus.

Record access_request := AccessRequest {
  ar_requester : id;
  ar_target : id;
  ar_policy : id;
  ar_reason : string;
  ar_ticket_reference : string;
  ar_requested_duration_minutes : Z;
  ar_status : RequestStatus.t;
  ar_decided_by : option id;
  ar_decided_at : option Z;
  ar_decision_comment : string;
  ar_stamps : stamps;
}.
#[global] Instance access_request_settable : Settable access_request := λ r,
  AccessRequest (ar_requester r) (ar_target r) (ar_policy r) (ar_reason r)
    (ar_ticket_reference r) (ar_requested_duration_minutes r) (ar_status r)
    (ar_decided_by r) (ar_decided_at r) (ar_decision_comment r) (ar_stamps r).

Inductive decision := APPROVE | REJECT.
#[global] Instance decision_eq_dec : EqDecision decision.
Proof. solve_decision. Defined.

Record approval_decision := ApprovalDecision {
  ad_access_request : id;
  ad_approver : id;
  ad_decision : decision;
  ad_comment : string;
  ad_stamps : stamps;
}.

(** ** vault *)

Module RotationStatus.
Inductive t := NEVER | SUCCEEDED | FAILED | BLOCKED.
#[global] Instance eq_dec : EqDecision t.
Proof. solve_decision. Defined.
End RotationStatus.

Inductive credential_kind := PASSWORD | SSH_KEY | TOTP_SEED.
#[global] Instance credential_kind_eq_dec : EqDecision credential_kind.
Proof. solve_decision. Defined.
Definition credential_kind_str (k : credential_kind) : string :=
  match k with PASSWORD => "password" | SSH_KEY => "ssh_key" | TOTP_SEED => "totp" end.

Record credential := Credential {
  c_name : string;
  c_target : id;
  c_domain : option id;
  c_username : string;
  c_kind : credential_kind;
  c_encrypted_secret : string;
  c_secret_key_id : string;
  c_encrypted_totp_secret : string;
  c_totp_key_id : string;
  c_key_version : Z;
  c_checkout_enabled : bool;
  c_rotation_enabled : bool;
  c_rotation_interval_days : option Z;
  c_rotation_backend : string;
  c_rotation_policy : option id;
  c_last_rotated_at : option Z;
  c_next_rotation_at : option Z;
  c_last_rotation_status : RotationStatus.t;
  c_rotation_failure_count : Z;
  c_last_checked_out_at : option Z;
  c_stamps : stamps;
  c_account_type : string;
}.
#[global] Instance credential_settable : Settable credential := λ r,
  Credential (c_name r) (c_target r) (c_domain r) (c_username r) (c_kind r)
    (c_encrypted_secret r) (c_secret_key_id r) (c_encrypted_totp_secret r)
    (c_totp_key_id r) (c_key_version r) (c_checkout_enabled r) (c_rotation_enabled r)
    (c_rotation_interval_days r) (c_rotation_backend r) (c_rotation_policy r)
    (c_last_rotated_at r) (c_next_rotation_at r) (c_last_rotation_status r)
    (c_rotation_failure_count r) (c_last_checked_out_at r) (c_stamps r) (c_account_type r).

Inductive lease_purpose := REVEAL | SESSION | ROTATION.
#[global] Instance lease_purpose_eq_dec : EqDecision lease_purpose.
Proof. solve_decision. Defined.
Definition lease_purpose_str (p : lease_purpose) : string :=
  match p with REVEAL => "reveal" | SESSION => "session" | ROTATION => "rotation" end.

Record secret_lease := SecretLease {
  l_credential : id;
  l_user : id;
  l_policy : id;
  l_access_request : option id;
  l_purpose : lease_purpose;
  l_token_hash : string;
  l_expires_at : Z;
  l_max_uses : Z;
  l_use_count : Z;
  l_consumed_at : option Z;
  l_revoked_at : option Z;
  l_source_ip : option string;
  l_justification : string;
  l_stamps : stamps;
}.
#[global] Instance secret_lease_settable : Settable secret_lease := λ r,
  SecretLease (l_credential r) (l_user r) (l_policy r) (l_access_request r) (l_purpose r)
    (l_token_hash r) (l_expires_at r) (l_max_uses r) (l_use_count r) (l_consumed_at r)
    (l_revoked_at r) (l_source_ip r) (l_justification r) (l_stamps r).

Record personal_vault_group := PersonalVaultGroup {
  pg_owner : id;
  pg_name : string;
  pg_stamps : stamps;
}.

Record personal_vault_item := PersonalVaultItem {
  pv_owner : id;
  pv_group : option id;
  pv_name : string;
  pv_item_type : string;
  pv_encrypted_payload : string;
  pv_key_id : string;
  pv_favorite : bool;
  pv_stamps : stamps;
}.
#[global] Instance personal_vault_item_settable : Settable personal_vault_item := λ r,
  PersonalVaultItem (pv_owner r) (pv_group r) (pv_name r) (pv_item_type r) (pv_encrypted_payload r)
    (pv_key_id r) (pv_favorite r) (pv_stamps r).

(** ** sessions *)

Module SessionStatus.
Inductive t := CREATED | ACTIVE | TERMINATING | CLOSED | FAILED.
#[global] Instance eq_dec : EqDecision t.
Proof. solve_decision. Defined.
Definition str (s : t) : string :=
  match s with
  | CREATED => "created" | ACTIVE => "active" | TERMINATING => "terminating"
  | CLOSED => "closed" | FAILED => "failed"
  end.
End SessionStatus.

Record privileged_session := PrivilegedSession {
  s_user : id;
  s_target : id;
  s_credential : option id;
  s_policy : option id;
  s_access_request : option id;
  s_status : SessionStatus.t;
  s_expires_at : option Z;
  s_started_at : option Z;
  s_ended_at : option Z;
  s_last_activity_at : option Z;
  s_client_ip : option string;
  s_justification : string;
  s_recording_reference : string;
  s_termination_reason : string;
  s_termination_requested_at : option Z;
  s_termination_requested_by : option id;
  s_stamps : stamps;
}.
#[global] Instance privileged_session_settable : Settable privileged_session := λ r,
  PrivilegedSession (s_user r) (s_target r) (s_credential r) (s_policy r)
    (s_access_request r) (s_status r) (s_expires_at r) (s_started_at r) (s_ended_at r)
    (s_last_activity_at r) (s_client_ip r) (s_justification r) (s_recording_reference r)
    (s_termination_reason r) (s_termination_requested_at r)
    (s_termination_requested_by r) (s_stamps r).

Record session_ticket := SessionTicket {
  k_session : id;
  k_token_hash : string;
  k_expires_at : Z;
  k_consumed_at : option Z;
  k_revoked_at : option Z;
  k_source_ip : option string;
  k_stamps : stamps;
}.
#[global] Instance session_ticket_settable : Settable session_ticket := λ r,
  SessionTicket (k_session r) (k_token_hash r) (k_expires_at r) (k_consumed_at r)
    (k_revoked_at r) (k_source_ip r) (k_stamps r).

(** ** audit *)

Record audit_chain_state := AuditChainState { last_sequence : Z; last_hash : string }.

Record audit_event := AuditEvent {
  e_occurred_at : Z;
  e_sequence : Z;
  e_hash_version : Z;
  e_actor : option id;
  e_action : string;
  e_resource_type : string;
  e_resource_id : string;
  e_source_ip : option string;
  e_metadata : list (string * json);
  e_previous_hash : string;
  e_event_hash : string;
  e_signature : string;
}.

Inductive siem_kind := HTTPS_WEBHOOK | SYSLOG_TLS.
#[global] Instance siem_kind_eq_dec : EqDecision siem_kind.
Proof. solve_decision. Defined.

Inductive delivery_status := DELIVERED | DELIVERY_FAILED.
#[global] Instance delivery_status_eq_dec : EqDecision delivery_status.
Proof. solve_decision. Defined.

Record siem_integration := SIEMIntegration {
  si_name : string;
  si_kind : siem_kind;
  si_endpoint : string;
  si_host : string;
  si_port : Z;
  si_enabled : bool;
  si_encrypted_auth_token : string;
  si_key_id : string;
  si_last_delivery_at : option Z;
  si_last_status : option delivery_status;
  si_last_error : string;
  si_verify_tls : bool;
}.
#[global] Instance siem_integration_settable : Settable siem_integration := λ r,
  SIEMIntegration (si_name r) (si_kind r) (si_endpoint r) (si_host r) (si_port r)
    (si_enabled r) (si_encrypted_auth_token r) (si_key_id r) (si_last_delivery_at r)
    (si_last_status r) (si_last_error r) (si_verify_tls r).

Record siem_delivery := SIEMDelivery {
  sd_integration : id;
  sd_event : id;
  sd_attempted_at : Z;
  sd_delivered_at : option Z;
  sd_status : delivery_status;
  sd_payload_hash : string;
  sd_error : string;
}.

(** ** mfa *)

Inductive mfa_kind := TOTP | WEBAUTHN.
#[global] Instance mfa_kind_eq_dec : EqDecision mfa_kind.
Proof. solve_decision. Defined.

Record mfa_device := MFADevice {
  m_user : id;
  m_name : string;
  m_kind : mfa_kind;
  m_encrypted_configuration : string;
  m_key_id : string;
  m_confirmed : bool;
  m_last_used_at : option Z;
  m_last_accepted_totp_counter : option Z;
  m_stamps : stamps;
}.
#[global] Instance mfa_device_settable : Settable mfa_device := λ r,
  MFADevice (m_user r) (m_name r) (m_kind r) (m_encrypted_configuration r) (m_key_id r)
    (m_confirmed r) (m_last_used_at r) (m_last_accepted_totp_counter r) (m_stamps r).

Record mfa_recovery_code := MFARecoveryCode {
  rc_user : id;
  rc_device : id;
  rc_code_hash : string;
  rc_used_at : option Z;
  rc_stamps : stamps;
}.
#[global] Instance mfa_recovery_code_settable : Settable mfa_recovery_code := λ r,
  MFARecoveryCode (rc_user r) (rc_device r) (rc_code_hash r) (rc_used_at r) (rc_stamps r).

(** ** operations *)

Module JobStatus.
Inductive t := PENDING | RUNNING | SUCCEEDED | FAILED | ACTION_REQUIRED | CANCELLED.
#[global] Instance eq_dec : EqDecision t.
Proof. solve_decision. Defined.
End JobStatus.

Record rotation_job := RotationJob {
  j_credential : id;
  j_requested_by : option id;
  j_reason : string;
  j_backend : string;
  j_status : JobStatus.t;
  j_scheduled_for : Z;
  j_started_at : option Z;
  j_completed_at : option Z;
  j_previous_key_version : Z;
  j_new_key_version : option Z;
  j_encrypted_candidate_secret : string;
  j_candidate_key_id : string;
  j_error_code : string;
  j_error_message : string;
  j_stamps : stamps;
}.
#[global] Instance rotation_job_settable : Settable rotation_job := λ r,
  RotationJob (j_credential r) (j_requested_by r) (j_reason r) (j_backend r) (j_status r)
    (j_scheduled_for r) (j_started_at r) (j_completed_at r) (j_previous_key_version r)
    (j_new_key_version r) (j_encrypted_candidate_secret r) (j_candidate_key_id r)
    (j_error_code r) (j_error_message r) (j_stamps r).

Inductive campaign_status := OPEN | CAMPAIGN_CLOSED.
#[global] Instance campaign_status_eq_dec : EqDecision campaign_status.
Proof. solve_decision. Defined.

Record access_review_campaign := AccessReviewCampaign {
  rv_name : string;
  rv_status : campaign_status;
  rv_due_at : option Z;
  rv_created_by : option id;
  rv_closed_at : option Z;
  rv_closed_by : option id;
  rv_stamps : stamps;
}.

Record access_review_item := AccessReviewItem {
  ri_campaign : id;
  ri_policy : id;
  ri_snapshot : list (string * json);
  ri_risk_score : Z;
  ri_decision : string;
  ri_decided_by : option id;
  ri_decided_at : option Z;
  ri_comment : string;
  ri_stamps : stamps;
}.
#[global] Instance access_review_item_settable : Settable access_review_item := λ r,
  AccessReviewItem (ri_campaign r) (ri_policy r) (ri_snapshot r) (ri_risk_score r)
    (ri_decision r) (ri_decided_by r) (ri_decided_at r) (ri_comment r) (ri_stamps r).

(** ** connectors *)

Inductive sync_status := SYNC_NEVER | SYNC_RUNNING | SYNC_SUCCESS | SYNC_FAILED.
#[global] Instance sync_status_eq_dec : EqDecision sync_status.
Proof. solve_decision. Defined.

Record connector := Connector {
  cn_name : string;
  cn_encrypted_configuration : string;
  cn_key_id : string;
}.
#[global] Instance connector_settable : Settable connector := λ r,
  Connector (cn_name r) (cn_encrypted_configuration r) (cn_key_id r).

Record identity_source := IdentitySource {
  is_name : string;
  is_kind : string;
  is_enabled : bool;
  is_encrypted_configuration : string;
  is_key_id : string;
  is_last_sync_at : option Z;
  is_last_sync_status : sync_status;
  is_last_error : string;
  is_stamps : stamps;
  is_slug : string;
  is_verify_tls : bool;
  is_sync_enabled : bool;
  is_sync_interval_minutes : Z;
}.
#[global] Instance identity_source_settable : Settable identity_source := λ r,
  IdentitySource (is_name r) (is_kind r) (is_enabled r) (is_encrypted_configuration r)
    (is_key_id r) (is_last_sync_at r) (is_last_sync_status r) (is_last_error r) (is_stamps r)
    (is_slug r) (is_verify_tls r) (is_sync_enabled r) (is_sync_interval_minutes r).

Record external_identity := ExternalIdentity {
  xi_source : id;
  xi_user : id;
  xi_subject : string;
  xi_username : string;
  xi_email : string;
  xi_claims : list (string * json);
  xi_enabled : bool;
  xi_last_seen_at : option Z;
  xi_stamps : stamps;
}.
#[global] Instance external_identity_settable : Settable external_identity := λ r,
  ExternalIdentity (xi_source r) (xi_user r) (xi_subject r) (xi_username r) (xi_email r)
    (xi_claims r) (xi_enabled r) (xi_last_seen_at r) (xi_stamps r).

Record directory_group_mapping := DirectoryGroupMapping {
  gm_source : id;
  gm_external_group : string;
  gm_user_group : id;
  gm_auto_create_users : bool;
  gm_enabled : bool;
}.

Record external_group_membership := ExternalGroupMembership {
  xm_identity : id;
  xm_mapping : id;
  xm_preserve : bool;
}.

Record oidc_default_membership := OIDCDefaultGroupMembership {
  om_identity : id;
  om_user_group : id;
  om_preserve : bool;
}.

(** ** The database *)

Record db := Db {
  users : gmap id user;
  security_policy : option platform_security_policy;
  roles : gmap id role;
  role_assignments : gmap id role_assignment;
  user_groups : gmap id user_group;
  domains : gmap id domain;
  targets : gmap id target;
  target_groups : gmap id target_group;
  host_keys : gmap id target_host_key;
  time_frames : gmap id time_frame;
  rotation_policies : gmap id secret_rotation_policy;
  policies : gmap id access_policy;
  access_requests : gmap id access_request;
  decisions : gmap id approval_decision;
  credentials : gmap id credential;
  leases : gmap id secret_lease;
  vault_items : gmap id personal_vault_item;
  vault_groups : gmap id personal_vault_group;
  sessions : gmap id privileged_session;
  tickets : gmap id session_ticket;
  audit_state : option audit_chain_state;
  audit_events : gmap id audit_event;
  siem_integrations : gmap id siem_integration;
  siem_deliveries : gmap id siem_delivery;
  mfa_devices : gmap id mfa_device;
  recovery_codes : gmap id mfa_recovery_code;
  rotation_jobs : gmap id rotation_job;
  campaigns : gmap id access_review_campaign;
  review_items : gmap id access_review_item;
  connectors : gmap id connector;
  identity_sources : gmap id identity_source;
  external_identities : gmap id external_identity;
  group_mappings : gmap id directory_group_mapping;
  managed_memberships : gmap id external_group_membership;
  oidc_memberships : gmap id oidc_default_membership;
  (** callbacks registered with [transaction.on_commit]: events to forward *)
  on_commit : list id;
}.
#[global] Instance db_settable : Settable db := λ r,
  Db (users r) (security_policy r) (roles r) (role_assignments r) (user_groups r)
    (domains r) (targets r) (target_groups r) (host_keys r) (time_frames r)
    (rotation_policies r) (policies r) (access_requests r) (decisions r) (credentials r)
    (leases r) (vault_items r) (vault_groups r) (sessions r) (tickets r) (audit_state r) (audit_events r)
    (siem_integrations r) (siem_deliveries r) (mfa_devices r) (recovery_codes r)
    (rotation_jobs r) (campaigns r) (review_items r) (connectors r) (identity_sources r)
    (external_identities r) (group_mappings r) (managed_memberships r)
    (oidc_memberships r) (on_commit r).

(** A freshly migrated database: the audit migration creates the chain state. *)
Definition empty_db : db :=
  Db ∅ None ∅ ∅ ∅ ∅ ∅ ∅ ∅ ∅ ∅ ∅ ∅ ∅ ∅ ∅ ∅ ∅ ∅ ∅ (Some (AuditChainState 0 "")) ∅ ∅ ∅ ∅ ∅
    ∅ ∅ ∅ ∅ ∅ ∅ ∅ ∅ ∅ [].

(** ** Querysets

    [Model.objects.filter(...)] is the list of rows that satisfy the condition.
    The source leaves the order unspecified unless it says [order_by]; here it
    is the enumeration order of the map, and no theorem depends on it. *)

Definition rows {A} (t : gmap id A) : list (obj A) :=
  (λ kv, Obj kv.1 kv.2) <$> map_to_list t.

Definition objects_filter {A} (f : obj A → bool) (t : gmap id A) : list (obj A) :=
  List.filter f (rows t).

Definition exists_row {A} (f : obj A → bool) (t : gmap id A) : bool := existsb f (rows t).

Definition count_rows {A} (f : obj A → bool) (t : gmap id A) : Z :=
  Z.of_nat (length (objects_filter f t)).

Lemma elem_of_rows {A} (t : gmap id A) (o : obj A) :
  o ∈ rows t ↔ t !! pk o = Some (val o).
Proof.
  unfold rows. rewrite list_elem_of_fmap. split.
  - intros ([k v] & -> & H). by apply elem_of_map_to_list in H.
  - intros H. exists (pk o, val o). split; [by destruct o|]. by apply elem_of_map_to_list.
Qed.

Lemma elem_of_objects_filter {A} f (t : gmap id A) (o : obj A) :
  o ∈ objects_filter f t ↔ t !! pk o = Some (val o) ∧ f o = true.
Proof.
  unfold objects_filter. rewrite list_elem_of_In, filter_In, <- list_elem_of_In.
  by rewrite elem_of_rows.
Qed.

(** Rows are distinct by their key. *)
Lemma objects_filter_NoDup {A} f (t : gmap id A) : NoDup (objects_filter f t).
Proof.
  unfold objects_filter, rows. apply NoDup_ListNoDup, List.NoDup_filter, NoDup_ListNoDup.
  apply NoDup_fmap_2_strong; [|apply NoDup_map_to_list].
  intros [] [] _ _. simpl. by intros [= -> ->].
Qed.

Lemma exists_row_true {A} f (t : gmap id A) :
  exists_row f t = true ↔ ∃ o, t !! pk o = Some (val o) ∧ f o = true.
Proof.
  unfold exists_row. rewrite existsb_elem. by setoid_rewrite elem_of_rows.
Qed.

Lemma exists_row_false {A} f (t : gmap id A) :
  exists_row f t = false ↔ ∀ o, t !! pk o = Some (val o) → f o = false.
Proof.
  unfold exists_row. rewrite existsb_false_elem. by setoid_rewrite elem_of_rows.
Qed.

Lemma rows_insert {A} (t : gmap id A) k v :
  t !! k = None → rows (<[k := v]> t) ≡ₚ Obj k v :: rows t.
Proof. intros H. unfold rows. by rewrite map_to_list_insert. Qed.

Lemma rows_replace {A} (t : gmap id A) k v :
  rows (<[k := v]> t) ≡ₚ Obj k v :: rows (delete k t).
Proof.
  rewrite <- insert_delete_eq. apply rows_insert. apply lookup_delete_eq.
Qed.

Lemma rows_delete {A} (t : gmap id A) k v :
  t !! k = Some v → rows t ≡ₚ Obj k v :: rows (delete k t).
Proof.
  intros H. rewrite <- (insert_id t k v) at 1 by done. apply rows_replace.
Qed.

Lemma filter_perm {A} (f : A → bool) (l1 l2 : list A) :
  l1 ≡ₚ l2 → List.filter f l1 ≡ₚ List.filter f l2.
Proof.
  induction 1 as [|x l1 l2 H IH|x y l|l1 l2 l3 H1 IH1 H2 IH2]; simpl; [done| | |].
  - case_match; [by constructor|done].
  - repeat case_match; try done. apply perm_swap.
  - by etrans.
Qed.

Lemma objects_filter_insert {A} f (t : gmap id A) k v :
  t !! k = None →
  objects_filter f (<[k := v]> t)
    ≡ₚ (if f (Obj k v) then [Obj k v] else []) ++ objects_filter f t.
Proof.
  intros H. unfold objects_filter. rewrite (filter_perm _ _ _ (rows_insert _ _ _ H)).
  simpl. by case_match.
Qed.

Lemma count_rows_insert {A} f (t : gmap id A) k v :
  t !! k = None →
  count_rows f (<[k := v]> t) = (if f (Obj k v) then 1 else 0) + count_rows f t.
Proof.
  intros H. unfold count_rows. rewrite (objects_filter_insert _ _ _ _ H), length_app.
  case_match; simpl; lia.
Qed.

Lemma count_rows_delete {A} f (t : gmap id A) k v :
  t !! k = Some v →
  count_rows f t = (if f (Obj k v) then 1 else 0) + count_rows f (delete k t).
Proof.
  intros H. rewrite <- (insert_id t k v) at 1 by done. rewrite <- insert_delete_eq.
  apply count_rows_insert, lookup_delete_eq.
Qed.

(** Replacing a row changes a count by the row's own contribution. *)
Lemma count_rows_replace {A} f (t : gmap id A) k v w :
  t !! k = Some v →
  count_rows f (<[k := w]> t) =
  count_rows f t + (if f (Obj k w) then 1 else 0) - (if f (Obj k v) then 1 else 0).
Proof.
  intros H. rewrite (count_rows_delete f t k v H), <- insert_delete_eq.
  rewrite count_rows_insert by apply lookup_delete_eq. lia.
Qed.

Lemma count_rows_nonneg {A} f (t : gmap id A) : 0 <= count_rows f t.
Proof. unfold count_rows. lia. Qed.

Lemma count_rows_ext {A} f g (t : gmap id A) :
  (∀ o, t !! pk o = Some (val o) → f o = g o) → count_rows f t = count_rows g t.
Proof.
  intros H. unfold count_rows, objects_filter. do 2 f_equal.
  assert (∀ o, o ∈ rows t → f o = g o) as H'.
  { intros o Ho. apply H. by apply elem_of_rows. }
  clear H. induction (rows t) as [|x l IH]; [done|]. simpl.
  rewrite H' by (by left). rewrite IH; [done|].
  intros o Ho. apply H'. by right.
Qed.

Lemma count_rows_mono {A} f g (t : gmap id A) :
  (∀ o, t !! pk o = Some (val o) → f o = true → g o = true) →
  count_rows f t <= count_rows g t.
Proof.
  intros H. unfold count_rows, objects_filter.
  assert (∀ o, o ∈ rows t → f o = true → g o = true) as H'.
  { intros o Ho. apply H. by apply elem_of_rows. }
  clear H. induction (rows t) as [|x l IH]; [done|].
  assert (∀ o, o ∈ l → f o = true → g o = true) as H2.
  { intros o Ho. apply H'. by right. }
  specialize (IH H2). simpl. destruct (f x) eqn:Ef.
  - rewrite (H' x); [simpl; lia|by left|done].
  - destruct (g x); simpl; lia.
Qed.

(** Counts compare along keys: every counted row of one table is counted under
    the same key in the other. *)
Lemma count_rows_le_keys {A B} f g (t : gmap id A) (t' : gmap id B) :
  (∀ k v, t !! k = Some v → f (Obj k v) = true → ∃ v', t' !! k = Some v' ∧ g (Obj k v') = true) →
  count_rows f t <= count_rows g t'.
Proof.
  intros H. unfold count_rows. apply inj_le.
  rewrite <- (length_fmap pk (objects_filter f t)), <- (length_fmap pk (objects_filter g t')).
  apply submseteq_length, NoDup_submseteq.
  - apply NoDup_fmap_2_strong; [|apply objects_filter_NoDup].
    intros [k v] [k' v'] [Hk _]%elem_of_objects_filter [Hk' _]%elem_of_objects_filter. simpl in *.
    intros ->. congruence.
  - intros k ([k' v] & -> & [Hk Hf]%elem_of_objects_filter)%list_elem_of_fmap. simpl in *.
    destruct (H _ _ Hk Hf) as (v' & Hv' & Hg). apply list_elem_of_fmap.
    exists (Obj k' v'). split; [done|]. by apply elem_of_objects_filter.
Qed.
