(* ===== verification/World.v ===== *)
(** * Effects: exceptions, transactions, clock and randomness

    Handlers are state transformers on a [world]: the database, the clock, the
    number of random draws made so far, and the cache (each key with its expiry).  A computation ends with a value or
    with a Python exception; what it wrote before raising stays written unless
    an enclosing [transaction.atomic] rolls it back.

    - [timezone.now()] and [time.time()] read the clock.  Time passes between
      two readings: [w_ticks] lists the delays after the successive readings, so
      a theorem that holds for every [world] holds for every schedule.
    - [uuid.uuid4()], [secrets.token_urlsafe(n)] and cipher nonces are the
      successive draws of the platform's random source.

    What the program calls but does not contain (the random source, the keyring
    service behind HTTP, the time-zone database, deployment settings, password
    hashing) is the [Platform] class. *)

From S2P Require Import Prelude PyStr Json Crypto PyTime Models.

Local Open Scope Z_scope.

(** ** Exceptions *)

Inductive exn :=
  | PermissionDenied (msg : string)
  | ValidationError (msg : string)
  | DoesNotExist (model : string)
  | Http404
  | IntegrityError (constraint : string)
  | DatabaseError
  | RuntimeError (msg : string)
  | ValueError (msg : string)
  | TypeError (msg : string)
  | KeyringError (msg : string)
  | VaultError (msg : string)
  | RotationBackendError (code : string) (safe_message : string)
  | DirectorySynchronizationError (msg : string)
  | DirectoryConnectionError (msg : string)
  | GatewayProtocolError (msg : string)
  | OtherError (cls : string).

#[global] Instance exn_eq_dec : EqDecision exn.
Proof. solve_decision. Defined.

Inductive outcome (A : Type) := Ok (a : A) | Raise (e : exn).
Arguments Ok {A} a.
Arguments Raise {A} e.

Definition is_ok {A} (r : outcome A) : bool := match r with Ok _ => true | Raise _ => false end.

(** ** The platform *)

Record settings := Settings {
  PAMOLIVE_RDP_ENABLED : bool;
  PAMOLIVE_GATEWAY_SHARED_KEY : string;
  PAMOLIVE_GATEWAY_ACCEPT_LEGACY_SIGNATURES : bool;
  PAMOLIVE_TRUST_PROXY_HEADERS : bool;
  PAMOLIVE_TEST_BYPASS_GLOBAL_MFA : bool;
  PAMOLIVE_MFA_STEP_UP_MAX_AGE_SECONDS : Z;
  PAMOLIVE_OPERATIONS_TOKEN : string;
}.

(** The four operations of [pamolive.common.keyring]; [encrypt] is randomised. *)
Record keyring_client := KeyringClient {
  kr_encrypt : nat → string → outcome string;
  kr_decrypt : string → outcome string;
  kr_sign : string → outcome string;
  kr_verify : string → string → outcome bool;
}.

Class Platform := {
  draw_uuid4 : nat → id;
  draw_token_urlsafe : nat → Z → string;
  draw_token_hex : nat → Z → string;
  draw_token_bytes : nat → Z → list Z;
  keyring : keyring_client;
  utc_offset : Z → Z;
  make_password : nat → string → string;
  check_password : string → string → bool;
  conf : settings;
}.

(** ** The monad *)

Record world := World {
  w_db : db;
  w_clock : Z;
  w_ticks : list Z;
  w_draws : nat;
  w_cache : gmap string Z;
}.
#[global] Instance world_settable : Settable world := λ r,
  World (w_db r) (w_clock r) (w_ticks r) (w_draws r) (w_cache r).

Definition M (A : Type) : Type := world → outcome A * world.

#[global] Instance M_ret : MRet M := λ A a w, (Ok a, w).
#[global] Instance M_bind : MBind M := λ A B f m w,
  match m w with
  | (Ok a, w') => f a w'
  | (Raise e, w') => (Raise e, w')
  end.

Definition raise {A} (e : exn) : M A := λ w, (Raise e, w).

(** [if b: raise e] *)
Definition raise_if (b : bool) (e : exn) : M unit := if b then raise e else mret tt.

Definition of_outcome {A} (r : outcome A) : M A := λ w, (r, w).

Definition asks {A} (f : db → A) : M A := λ w, (Ok (f (w_db w)), w).
(** Replace the database, keep the rest. *)
Definition with_db (d : db) (w : world) : world := World d (w_clock w) (w_ticks w) (w_draws w) (w_cache w).

Definition modify (f : db → db) : M unit := λ w, (Ok tt, with_db (f (w_db w)) w).

(** [timezone.now()] *)
Definition advance (w : world) : world :=
  World (w_db w) (w_clock w + hd 0 (w_ticks w)) (tail (w_ticks w)) (w_draws w) (w_cache w).

Definition now : M Z := λ w, (Ok (w_clock w), advance w).

(** [int(time.time())] *)
Definition time_time : M Z := t ← now; mret (epoch t).

Definition drawn (w : world) : world := World (w_db w) (w_clock w) (w_ticks w) (S (w_draws w)) (w_cache w).

Definition draw {A} (f : nat → A) : M A := λ w, (Ok (f (w_draws w)), drawn w).

(** [cache.add(key, value, timeout=n)]: false when a live entry exists.  The cache
    is not part of the database transaction. *)
Definition cache_add (key : string) (timeout : Z) : M bool := λ w,
  let w1 := advance w in
  match w_cache w !! key with
  | Some e => if w_clock w <? e then (Ok false, w1)
              else (Ok true, w1 <| w_cache ::= <[key := w_clock w + seconds timeout]> |>)
  | None => (Ok true, w1 <| w_cache ::= <[key := w_clock w + seconds timeout]> |>)
  end.

(** [with transaction.atomic():] a raised exception undoes the writes and the
    registered callbacks; the clock and the random source are not undone. *)
Definition atomic {A} (m : M A) : M A := λ w,
  match m w with
  | (Ok a, w') => (Ok a, w')
  | (Raise e, w') => (Raise e, with_db (w_db w) w')
  end.

(** [try: m except: h] for the exceptions [h] accepts. *)
Definition try_except {A} (m : M A) (h : exn → option (M A)) : M A := λ w,
  match m w with
  | (Ok a, w') => (Ok a, w')
  | (Raise e, w') => match h e with Some k => k w' | None => (Raise e, w') end
  end.

Fixpoint for_each {A} (l : list A) (f : A → M unit) : M unit :=
  match l with
  | [] => mret tt
  | x :: l' => f x ;; for_each l' f
  end.

Fixpoint fold_m {A S} (l : list A) (s : S) (f : S → A → M S) : M S :=
  match l with
  | [] => mret s
  | x :: l' => s' ← f s x; fold_m l' s' f
  end.

(** ** The object-relational layer *)

Section orm.
Context {A : Type} (tbl : db → gmap id A).

(** [Model.objects.get(pk=k)], also under [select_for_update()]. *)
Definition get_row (model : string) (k : id) : M (obj A) := λ w,
  match tbl (w_db w) !! k with
  | Some v => (Ok (Obj k v), w)
  | None => (Raise (DoesNotExist model), w)
  end.

Context `{!Setter tbl}.

(** [INSERT]: a duplicate primary key is an [IntegrityError]. *)
Definition insert_row (k : id) (v : A) : M unit := λ w,
  match tbl (w_db w) !! k with
  | Some _ => (Raise (IntegrityError "primary key"), w)
  | None => (Ok tt, with_db (w_db w <| tbl ::= <[k := v]> |>) w)
  end.

(** [instance.save(update_fields=...)]: writes the named columns of the
    instance into the row; no row is a [DatabaseError]. *)
Definition save_fields (k : id) (f : A → A) : M unit := λ w,
  match tbl (w_db w) !! k with
  | Some v => (Ok tt, with_db (w_db w <| tbl ::= <[k := f v]> |>) w)
  | None => (Raise DatabaseError, w)
  end.

(** [queryset.filter(p).update(...)] *)
Definition update_where (p : obj A → bool) (f : A → A) : M unit :=
  modify (λ d, d <| tbl ::= map_imap (λ k v, Some (if p (Obj k v) then f v else v)) |>).

(** [queryset.filter(p).delete()] *)
Definition delete_where (p : obj A → bool) : M unit :=
  modify (λ d, d <| tbl ::= map_imap (λ k v, if p (Obj k v) then None else Some v) |>).
End orm.

Section platform.
Context {PF : Platform}.

Definition uuid4 : M id := draw draw_uuid4.
Definition token_urlsafe (n : Z) : M string := draw (λ i, draw_token_urlsafe i n).
Definition token_hex (n : Z) : M string := draw (λ i, draw_token_hex i n).
Definition token_bytes (n : Z) : M (list Z) := draw (λ i, draw_token_bytes i n).
End platform.

(** [auto_now_add] and [auto_now] of a new row. *)
Definition new_stamps : M stamps := c ← now; u ← now; mret (Stamps c u).

(** The model instance that an [.update()]d row yields when it is re-read. *)
Definition touch (t : Z) (s : stamps) : stamps := s <| updated_at := t |>.

(** ** Printing of keys *)

(** [str(uuid)]: 32 hexadecimal digits in groups of 8-4-4-4-12. *)
Definition str_uuid (k : id) : string :=
  let h := chars (hexdigest (be_bytes 16 (Z.of_N k))) in
  of_chars (take 8 h) +:+ "-" +:+ of_chars (take 4 (drop 8 h)) +:+ "-"
  +:+ of_chars (take 4 (drop 12 h)) +:+ "-" +:+ of_chars (take 4 (drop 16 h)) +:+ "-"
  +:+ of_chars (drop 20 h).

(** [str(user.pk)]: users have integer keys. *)
Definition str_user_pk (k : id) : string := pretty k.

Example str_uuid_ex : str_uuid 0x12345678123456781234567812345678%N
  = "12345678-1234-5678-1234-567812345678".
Proof. reflexivity. Qed.

(** ** Reasoning about runs *)

(** [runs m w a w']: the computation returns [a]. *)
Definition runs {A} (m : M A) (w : world) (a : A) (w' : world) : Prop := m w = (Ok a, w').
Definition raises {A} (m : M A) (w : world) (e : exn) (w' : world) : Prop := m w = (Raise e, w').

Lemma bind_ok_inv {A B} (m : M A) (f : A → M B) w b w' :
  (m ≫= f) w = (Ok b, w') → ∃ a w1, m w = (Ok a, w1) ∧ f a w1 = (Ok b, w').
Proof. unfold mbind, M_bind. destruct (m w) as [[a|e] w1]; naive_solver. Qed.

Lemma bind_ok {A B} (m : M A) (f : A → M B) w a w1 :
  m w = (Ok a, w1) → (m ≫= f) w = f a w1.
Proof. unfold mbind, M_bind. by intros ->. Qed.

Lemma bind_raise {A B} (m : M A) (f : A → M B) w e w1 :
  m w = (Raise e, w1) → (m ≫= f) w = (Raise e, w1).
Proof. unfold mbind, M_bind. by intros ->. Qed.

Lemma raise_if_ok_inv b e w u w' :
  raise_if b e w = (Ok u, w') → b = false ∧ w' = w.
Proof. unfold raise_if. destruct b; simpl; unfold raise, mret, M_ret; naive_solver. Qed.

Lemma atomic_ok_inv {A} (m : M A) w a w' :
  atomic m w = (Ok a, w') → m w = (Ok a, w').
Proof. unfold atomic. destruct (m w) as [[?|?] ?]; naive_solver. Qed.

(** A raising transaction leaves the database as it was. *)
Lemma atomic_raise_db {A} (m : M A) w e w' :
  atomic m w = (Raise e, w') → w_db w' = w_db w.
Proof.
  unfold atomic. destruct (m w) as [[?|?] ?]; intros; simplify_eq/=. done.
Qed.

Lemma get_row_ok_inv {A} (tbl : db → gmap id A) model k w o w' :
  get_row tbl model k w = (Ok o, w') →
  w' = w ∧ pk o = k ∧ tbl (w_db w) !! k = Some (val o).
Proof. unfold get_row. case_match; intros; simplify_eq/=. done. Qed.

Lemma get_row_ok {A} (tbl : db → gmap id A) model k w v :
  tbl (w_db w) !! k = Some v → get_row tbl model k w = (Ok (Obj k v), w).
Proof. unfold get_row. by intros ->. Qed.

(** Forward execution of the primitives, as rewrite rules. *)
Section run.
Context {B : Type}.
Lemma run_ret {A} (a : A) (f : A → M B) w : (mret a ≫= f) w = f a w.
Proof. done. Qed.
Lemma run_now (f : Z → M B) w : (now ≫= f) w = f (w_clock w) (advance w).
Proof. done. Qed.
Lemma run_draw {A} (g : nat → A) (f : A → M B) w : (draw g ≫= f) w = f (g (w_draws w)) (drawn w).
Proof. done. Qed.
Lemma run_asks {A} (g : db → A) (f : A → M B) w : (asks g ≫= f) w = f (g (w_db w)) w.
Proof. done. Qed.
Lemma run_modify g (f : unit → M B) w : (modify g ≫= f) w = f tt (with_db (g (w_db w)) w).
Proof. done. Qed.
Lemma run_raise {A} e (f : A → M B) w : (raise e ≫= f) w = (Raise e, w).
Proof. done. Qed.
Lemma run_assoc {A C} (m : M A) (g : A → M C) (f : C → M B) w :
  ((m ≫= g) ≫= f) w = (m ≫= (λ a, g a ≫= f)) w.
Proof. unfold mbind, M_bind. by destruct (m w) as [[?|?] ?]. Qed.
End run.
Lemma run_uuid4 {PF : Platform} {B} (f : id → M B) w :
  (uuid4 ≫= f) w = f (draw_uuid4 (w_draws w)) (drawn w).
Proof. done. Qed.
Lemma run_token_urlsafe {PF : Platform} {B} n (f : string → M B) w :
  (token_urlsafe n ≫= f) w = f (draw_token_urlsafe (w_draws w) n) (drawn w).
Proof. done. Qed.
Lemma run_new_stamps {B} (f : stamps → M B) w :
  (new_stamps ≫= f) w = f (Stamps (w_clock w) (w_clock (advance w))) (advance (advance w)).
Proof. done. Qed.
Lemma run_raise_if_false {B} b e (f : unit → M B) w :
  b = false → (raise_if b e ≫= f) w = f tt w.
Proof. by intros ->. Qed.
Lemma run_raise_if_true {B} b e (f : unit → M B) w :
  b = true → (raise_if b e ≫= f) w = (Raise e, w).
Proof. by intros ->. Qed.
Lemma run_of_ok {A B} (r : outcome A) a (f : A → M B) w :
  r = Ok a → (of_outcome r ≫= f) w = f a w.
Proof. by intros ->. Qed.
Lemma run_get {A B} (tbl : db → gmap id A) model k v (f : obj A → M B) w :
  tbl (w_db w) !! k = Some v → (get_row tbl model k ≫= f) w = f (Obj k v) w.
Proof. intros H. by rewrite (bind_ok _ _ _ _ _ (get_row_ok _ _ _ _ _ H)). Qed.
Lemma run_get_none {A B} (tbl : db → gmap id A) model k (f : obj A → M B) w :
  tbl (w_db w) !! k = None → (get_row tbl model k ≫= f) w = (Raise (DoesNotExist model), w).
Proof. intros H. unfold mbind, M_bind, get_row. by rewrite H. Qed.
Lemma run_save {A B} (tbl : db → gmap id A) `{!Setter tbl} k v g (f : unit → M B) w :
  tbl (w_db w) !! k = Some v →
  (save_fields tbl k g ≫= f) w = f tt (with_db (set_field tbl <[k := g v]> (w_db w)) w).
Proof. intros H. unfold mbind, M_bind, save_fields. by rewrite H. Qed.
Lemma run_insert {A B} (tbl : db → gmap id A) `{!Setter tbl} k v (f : unit → M B) w :
  tbl (w_db w) !! k = None →
  (insert_row tbl k v ≫= f) w = f tt (with_db (set_field tbl <[k := v]> (w_db w)) w).
Proof. intros H. unfold mbind, M_bind, insert_row. by rewrite H. Qed.

Create Rewrite HintDb run.
#[export] Hint Rewrite @run_ret @run_now @run_draw @run_asks @run_modify @run_raise @run_assoc
  @run_uuid4 @run_token_urlsafe @run_new_stamps : run.

(** Execute the deterministic primitives at the head of a run. *)
Ltac run := repeat (autorewrite with run; cbv beta zeta).

(** Programs that keep a property of the database, whatever their outcome. *)
Definition preserves {A} (P : db → Prop) (m : M A) : Prop :=
  ∀ w, P (w_db w) → P (w_db (m w).2).

Section preserves.
Context (P : db → Prop).

Lemma preserves_ret {A} (a : A) : preserves P (mret a).
Proof. intros w H. done. Qed.
Lemma preserves_raise {A} e : preserves P (@raise A e).
Proof. intros w H. done. Qed.
Lemma preserves_raise_if b e : preserves P (raise_if b e).
Proof. intros w H. by destruct b. Qed.
Lemma preserves_of_outcome {A} (r : outcome A) : preserves P (of_outcome r).
Proof. intros w H. done. Qed.
Lemma preserves_asks {A} (f : db → A) : preserves P (asks f).
Proof. intros w H. done. Qed.
Lemma preserves_now : preserves P now.
Proof. intros w H. done. Qed.
Lemma preserves_draw {A} (f : nat → A) : preserves P (draw f).
Proof. intros w H. done. Qed.
Lemma preserves_get {A} (tbl : db → gmap id A) model k : preserves P (get_row tbl model k).
Proof. intros w H. unfold get_row. by case_match. Qed.

Lemma preserves_bind {A B} (m : M A) (f : A → M B) :
  preserves P m → (∀ a, preserves P (f a)) → preserves P (m ≫= f).
Proof.
  intros Hm Hf w H. specialize (Hm w H). unfold mbind, M_bind.
  destruct (m w) as [[a|e] w1]; [|done]. by apply Hf.
Qed.

Lemma preserves_atomic {A} (m : M A) : preserves P m → preserves P (atomic m).
Proof.
  intros Hm w H. specialize (Hm w H). unfold atomic.
  by destruct (m w) as [[a|e] w1].
Qed.

Lemma preserves_modify f : (∀ d, P d → P (f d)) → preserves P (modify f).
Proof. intros Hf w H. by apply Hf. Qed.

Lemma preserves_try {A} (m : M A) h :
  preserves P m → (∀ e k, h e = Some k → preserves P k) → preserves P (try_except m h).
Proof.
  intros Hm Hh w H. specialize (Hm w H). unfold try_except.
  destruct (m w) as [[a|e] w1]; [done|].
  destruct (h e) as [k|] eqn:E; [|done]. eapply Hh; eauto.
Qed.
End preserves.

#[export] Hint Resolve preserves_ret preserves_raise preserves_raise_if preserves_of_outcome
  preserves_asks preserves_now preserves_draw preserves_get : pam.

Lemma insert_row_ok_inv {A} (tbl : db → gmap id A) `{!Setter tbl} k v w u w' :
  insert_row tbl k v w = (Ok u, w') →
  tbl (w_db w) !! k = None ∧ w' = with_db (set_field tbl <[k := v]> (w_db w)) w.
Proof. unfold insert_row. case_match; intros; simplify_eq. done. Qed.

Lemma save_fields_ok_inv {A} (tbl : db → gmap id A) `{!Setter tbl} k f w u w' :
  save_fields tbl k f w = (Ok u, w') →
  ∃ v, tbl (w_db w) !! k = Some v ∧ w' = with_db (set_field tbl <[k := f v]> (w_db w)) w.
Proof. unfold save_fields. case_match; intros; simplify_eq. eauto. Qed.

Lemma modify_ok_inv f w u w' : modify f w = (Ok u, w') → w' = with_db (f (w_db w)) w.
Proof. unfold modify. intros H. by simplify_eq. Qed.

(** Invert one successful primitive step. *)
Ltac prim_inv H :=
  lazymatch type of H with
  | now _ = (Ok _, _) => unfold now in H; injection H as <- <-
  | time_time _ = (Ok _, _) =>
      unfold time_time, now, mbind, M_bind, mret, M_ret in H; injection H as <- <-
  | draw _ _ = (Ok _, _) => unfold draw in H; injection H as <- <-
  | uuid4 _ = (Ok _, _) => unfold uuid4, draw in H; injection H as <- <-
  | token_urlsafe _ _ = (Ok _, _) => unfold token_urlsafe, draw in H; injection H as <- <-
  | token_hex _ _ = (Ok _, _) => unfold token_hex, draw in H; injection H as <- <-
  | new_stamps _ = (Ok _, _) =>
      unfold new_stamps, now, mbind, M_bind, mret, M_ret in H; injection H as <- <-
  | asks _ _ = (Ok _, _) => unfold asks in H; injection H as <- <-
  | modify _ _ = (Ok _, _) => apply modify_ok_inv in H as ->
  | mret _ _ = (Ok _, _) =>
      unfold mret, M_ret in H; first [injection H as <- <- <- <- | injection H as <- <- <- | injection H as <- <-]
  | raise _ _ = (Ok _, _) => discriminate H
  | raise_if _ _ _ = (Ok _, _) => apply raise_if_ok_inv in H as [H ->]
  | of_outcome _ _ = (Ok _, _) => unfold of_outcome in H; injection H as H <-
  | get_row _ _ _ _ = (Ok _, _) =>
      let E := fresh "Epk" in apply get_row_ok_inv in H as (-> & E & H)
  | insert_row _ _ _ _ = (Ok _, _) =>
      let E := fresh "Enew" in apply insert_row_ok_inv in H as [E ->]
  | save_fields _ _ _ _ = (Ok _, _) =>
      let v := fresh "row" in let E := fresh "Erow" in
      apply save_fields_ok_inv in H as (v & E & ->)
  end.

(** Invert a successful run step by step. *)
Ltac run_inv H :=
  repeat match type of H with
    | (_ ≫= _) _ = (Ok _, _) =>
        let a := fresh "a" in let w := fresh "w" in let H1 := fresh "R" in
        apply bind_ok_inv in H as (a & w & H1 & H); try prim_inv H1
    | atomic _ _ = (Ok _, _) => apply atomic_ok_inv in H
    | (let '(_, _) := ?x in _) _ = (Ok _, _) => destruct x
    end; try prim_inv H.

(** *** Time *)

(** Clock readings never go backwards. *)
Definition time_flows (w : world) : Prop := Forall (λ t, 0 <= t) (w_ticks w).

(** [w'] is reached from [w] as time passes. *)
Definition later (w w' : world) : Prop :=
  time_flows w → w_clock w <= w_clock w' ∧ time_flows w'.

#[global] Instance later_refl : Reflexive later.
Proof. intros w H. split; [lia|done]. Qed.
#[global] Instance later_trans : Transitive later.
Proof. intros w1 w2 w3 H1 H2 H. destruct (H1 H) as [? H']. destruct (H2 H') as [? ?]. split; [lia|done]. Qed.

Lemma later_advance w : later w (advance w).
Proof.
  unfold later, time_flows, advance. destruct w as [d c [|t ts] n ca]; simpl.
  - intros _. split; [lia|constructor].
  - intros H. inversion H; subst. split; [lia|done].
Qed.
#[export] Hint Resolve later_refl later_advance : pam.

(** Nothing is written; time may pass. *)
Definition reads (w w' : world) : Prop := w_db w' = w_db w ∧ later w w'.

#[global] Instance reads_refl : Reflexive reads.
Proof. intros w. by split. Qed.
#[global] Instance reads_trans : Transitive reads.
Proof. intros w1 w2 w3 [? ?] [? ?]. split; [congruence|by etrans]. Qed.

Lemma reads_advance w : reads w (advance w).
Proof. split; [done|apply later_advance]. Qed.
#[export] Hint Resolve reads_refl reads_advance : pam.

(** Programs that write nothing, whatever their outcome. *)
Definition quiet {A} (m : M A) : Prop := ∀ w, reads w (m w).2.

Section quiet.
Lemma quiet_ret {A} (a : A) : quiet (mret a).
Proof. intros w. apply reads_refl. Qed.
Lemma quiet_raise {A} e : quiet (@raise A e).
Proof. intros w. apply reads_refl. Qed.
Lemma quiet_raise_if b e : quiet (raise_if b e).
Proof. intros w. destruct b; apply reads_refl. Qed.
Lemma quiet_of_outcome {A} (r : outcome A) : quiet (of_outcome r).
Proof. intros w. apply reads_refl. Qed.
Lemma quiet_asks {A} (f : db → A) : quiet (asks f).
Proof. intros w. apply reads_refl. Qed.
Lemma quiet_now : quiet now.
Proof. intros w. apply reads_advance. Qed.
Lemma quiet_draw {A} (f : nat → A) : quiet (draw f).
Proof. intros w. split; [done|]. intros H. split; [simpl; lia|done]. Qed.
Lemma quiet_get {A} (tbl : db → gmap id A) model k : quiet (get_row tbl model k).
Proof. intros w. unfold get_row. case_match; apply reads_refl. Qed.
Lemma quiet_cache_add key n : quiet (cache_add key n).
Proof.
  intros w. unfold cache_add. repeat case_match; (split; [done|]);
    intros Hf; destruct (later_advance w Hf) as [? ?]; (split; [simpl in *; lia|done]).
Qed.
Lemma quiet_bind {A B} (m : M A) (f : A → M B) :
  quiet m → (∀ a, quiet (f a)) → quiet (m ≫= f).
Proof.
  intros Hm Hf w. specialize (Hm w). unfold mbind, M_bind.
  destruct (m w) as [[a|e] w1]; [|done]. etrans; [apply Hm|apply Hf].
Qed.
Lemma quiet_fold {A S} (l : list A) (s : S) f :
  (∀ s x, quiet (f s x)) → quiet (fold_m l s f).
Proof.
  intros Hf. revert s. induction l as [|x l IH]; intros s; simpl; [apply quiet_ret|].
  by apply quiet_bind.
Qed.
End quiet.
Lemma quiet_uuid4 {PF : Platform} : quiet uuid4.
Proof. apply quiet_draw. Qed.
#[export] Hint Resolve quiet_ret quiet_raise quiet_raise_if quiet_of_outcome quiet_asks
  quiet_now quiet_draw quiet_get quiet_uuid4 quiet_cache_add : pam.

Ltac solve_quiet :=
  repeat first
    [ progress (auto with pam)
    | apply quiet_bind; [|intros]
    | apply quiet_fold; intros
    | match goal with |- quiet (match ?x with _ => _ end) => destruct x end
    | match goal with |- quiet (if ?x then _ else _) => destruct x end ].

Lemma quiet_run {A} (m : M A) w r w' : quiet m → m w = (r, w') → reads w w'.
Proof. intros H E. specialize (H w). by rewrite E in H. Qed.

Lemma quiet_preserves {A} (P : db → Prop) (m : M A) : quiet m → preserves P m.
Proof. intros H w HP. destruct (H w) as [-> _]. done. Qed.

Lemma preserves_save {A} (P : db → Prop) (tbl : db → gmap id A) `{!Setter tbl} k f :
  (∀ d v, tbl d !! k = Some v → P d → P (set_field tbl <[k := f v]> d)) →
  preserves P (save_fields tbl k f).
Proof. intros H w HP. unfold save_fields. case_match; [by apply H|done]. Qed.

Lemma preserves_insert {A} (P : db → Prop) (tbl : db → gmap id A) `{!Setter tbl} k v :
  (∀ d, tbl d !! k = None → P d → P (set_field tbl <[k := v]> d)) →
  preserves P (insert_row tbl k v).
Proof. intros H w HP. unfold insert_row. case_match; [done|by apply H]. Qed.

(** Decompose a [preserves] goal along the structure of the program. *)
Ltac solve_preserves :=
  repeat first
    [ progress (auto with pam)
    | apply quiet_preserves; solve [auto with pam]
    | apply preserves_bind; [|intros]
    | apply preserves_atomic
    | match goal with |- preserves _ (match ?x with _ => _ end) => destruct x end
    | match goal with |- preserves _ (if ?x then _ else _) => destruct x end ].

(** Programs along which time does not go backwards: all of them, since only
    [now] touches the clock. *)
Definition flows {A} (m : M A) : Prop := ∀ w, later w (m w).2.

Section flows.
Lemma quiet_flows {A} (m : M A) : quiet m → flows m.
Proof. intros H w. apply H. Qed.
Lemma later_with_db w d : later w (with_db d w).
Proof. intros H. split; [simpl; lia|done]. Qed.
Lemma later_drawn w : later w (drawn w).
Proof. intros H. split; [simpl; lia|done]. Qed.
Lemma flows_modify f : flows (modify f).
Proof. intros w. apply later_with_db. Qed.
Lemma flows_insert {A} (tbl : db → gmap id A) `{!Setter tbl} k v : flows (insert_row tbl k v).
Proof. intros w. unfold insert_row. case_match; [apply later_refl|apply later_with_db]. Qed.
Lemma flows_save {A} (tbl : db → gmap id A) `{!Setter tbl} k f : flows (save_fields tbl k f).
Proof. intros w. unfold save_fields. case_match; [apply later_with_db|apply later_refl]. Qed.
Lemma flows_update {A} (tbl : db → gmap id A) `{!Setter tbl} p f : flows (update_where tbl p f).
Proof. apply flows_modify. Qed.
Lemma flows_bind {A B} (m : M A) (f : A → M B) :
  flows m → (∀ a, flows (f a)) → flows (m ≫= f).
Proof.
  intros Hm Hf w. specialize (Hm w). unfold mbind, M_bind.
  destruct (m w) as [[a|e] w1]; [|done]. etrans; [apply Hm|apply Hf].
Qed.
Lemma flows_atomic {A} (m : M A) : flows m → flows (atomic m).
Proof.
  intros Hm w. specialize (Hm w). unfold atomic. destruct (m w) as [[a|e] w1]; [done|].
  etrans; [exact Hm|apply later_with_db].
Qed.
Lemma flows_try {A} (m : M A) h :
  flows m → (∀ e k, h e = Some k → flows k) → flows (try_except m h).
Proof.
  intros Hm Hh w. specialize (Hm w). unfold try_except. destruct (m w) as [[a|e] w1]; [done|].
  destruct (h e) as [k|] eqn:E; [|done]. etrans; [exact Hm|by eapply Hh].
Qed.
Lemma flows_fold {A S} (l : list A) (s : S) f : (∀ s x, flows (f s x)) → flows (fold_m l s f).
Proof.
  intros Hf. revert s. induction l as [|x l IH]; intros s; simpl; [apply quiet_flows, quiet_ret|].
  by apply flows_bind.
Qed.
End flows.
#[export] Hint Resolve flows_modify flows_insert flows_save flows_update : pam.

Ltac solve_flows :=
  repeat first
    [ progress (auto with pam)
    | apply quiet_flows; solve [auto with pam]
    | apply flows_bind; [|intros]
    | apply flows_atomic
    | apply flows_fold; intros
    | match goal with |- flows (match ?x with _ => _ end) => destruct x end
    | match goal with |- flows (if ?x then _ else _) => destruct x end ].

(** Time order between the worlds of one run. *)
Ltac solve_later :=
  repeat first
    [ assumption
    | apply later_refl
    | etrans; [|apply later_advance]
    | etrans; [|apply later_drawn]
    | etrans; [|apply later_with_db] ].

Lemma flows_run {A} (m : M A) w r w' : flows m → m w = (r, w') → later w w'.
Proof. intros H E. specialize (H w). by rewrite E in H. Qed.

(** Programs whose failures leave the database as it was. *)
Definition undone {A} (m : M A) : Prop := ∀ w e w', m w = (Raise e, w') → w_db w' = w_db w.

Lemma undone_quiet {A} (m : M A) : quiet m → undone m.
Proof. intros H w e w' E. by destruct (quiet_run _ _ _ _ H E). Qed.
Lemma undone_atomic {A} (m : M A) : undone (atomic m).
Proof. intros w e w'. apply atomic_raise_db. Qed.
Lemma undone_bind {A B} (m : M A) (f : A → M B) :
  quiet m → (∀ a, undone (f a)) → undone (m ≫= f).
Proof.
  intros Hm Hf w e w'. specialize (Hm w). unfold mbind, M_bind.
  destruct (m w) as [[a|e1] w1]; simpl in Hm; destruct Hm as [Hd _].
  - intros E. apply Hf in E. congruence.
  - intros E. by simplify_eq.
Qed.
Lemma undone_ret {A B} (m : M A) (g : A → B) : undone m → undone (m ≫= λ a, mret (g a)).
Proof.
  intros Hm w e w'. unfold mbind, M_bind. destruct (m w) as [[a|e1] w1] eqn:E; [done|].
  intros [= -> ->]. by eapply Hm.
Qed.

(** ** A concrete platform

    Used to evaluate the definitions on concrete inputs: counters as random
    source, a tagging keyring, central European winter time. *)

Definition strip_prefix (p s : string) : option string :=
  if startswith p s then Some (of_chars (drop (String.length p) (chars s))) else None.

Definition demo_keyring : keyring_client := {|
  kr_encrypt n s := Ok ("enc:" +:+ s);
  kr_decrypt c := match strip_prefix "enc:" c with
                  | Some s => Ok s
                  | None => Raise (KeyringError "The keyring operation failed")
                  end;
  kr_sign h := Ok ("sig:" +:+ h);
  kr_verify h s := Ok (bool_decide (s = "sig:" +:+ h));
|}.

Definition demo_conf : settings :=
  Settings true "0123456789abcdef0123456789abcdef" false false false 300 "".

Definition demo_platform : Platform := {|
  draw_uuid4 n := (1000 + N.of_nat n)%N;
  draw_token_urlsafe n k := "token-" +:+ pretty n;
  draw_token_hex n k := "0123456789";
  draw_token_bytes n k := replicate (Z.to_nat k) (Z.of_nat n mod 256);
  keyring := demo_keyring;
  utc_offset _ := hour;
  make_password n p := "hash:" +:+ p;
  check_password p h := bool_decide (h = "hash:" +:+ p);
  conf := demo_conf;
|}.

(** Noon of Thursday 2026-01-01, UTC. *)
Definition demo_now : Z := 1767268800 * second.

Definition demo_world (d : db) : world := World d demo_now [] 0 ∅.
