(* ===== verification/Text.v ===== *)
(** * Conversions between text and values

    UTF-8 decoding, [str()] of a decoded JSON value, and [uuid.UUID] of a string with
    its inverse. *)

From S2P Require Import Prelude PyStr PyFloat Json Loads Crypto PyTime Models World.

Local Open Scope Z_scope.

(** ** UTF-8 *)

(** [bytes.decode()]: [None] for the [UnicodeDecodeError], and for characters above
    U+00FF, which the string type does not hold. *)
Fixpoint decode_chars (l : list ascii) : option (list ascii) :=
  match l with
  | [] => Some []
  | c :: l' =>
      if code c <? 128 then r ← decode_chars l'; Some (c :: r)
      else match l' with
           | d :: l'' =>
               if between 194 (code c) 195 && between 128 (code d) 191
               then r ← decode_chars l''; Some (chr (64 * (code c - 192) + (code d - 128)) :: r)
               else None
           | [] => None
           end
  end.

Definition decode (b : string) : option string := of_chars <$> decode_chars (chars b).

Lemma decode_encode_char c r :
  decode_chars (encode_char c ++ r) = (x ← decode_chars r; Some (c :: x)).
Proof.
  pose proof (code_range c). unfold encode_char. destruct (Z.ltb_spec (code c) 128) as [Hc|Hc].
  - simpl. by rewrite (proj2 (Z.ltb_lt _ _) Hc).
  - pose proof (Z.div_mod (code c) 64). pose proof (Z.mod_pos_bound (code c) 64).
    assert (2 <= code c / 64 < 4) by (split; [apply Z.div_le_lower_bound; lia|apply Z.div_lt_upper_bound; lia]).
    simpl. rewrite !code_chr by lia. rewrite (proj2 (Z.ltb_ge _ _)) by lia.
    unfold between. rewrite !(proj2 (Z.leb_le _ _)) by lia. simpl.
    replace (64 * (192 + code c / 64 - 192) + (128 + code c mod 64 - 128)) with (code c) by lia.
    by rewrite chr_code.
Qed.

Lemma decode_encode s : decode (encode s) = Some s.
Proof.
  unfold decode, encode. rewrite chars_of_chars.
  enough (decode_chars (mbind encode_char (chars s)) = Some (chars s)) as -> by (simpl; by rewrite of_chars_chars).
  induction (chars s) as [|c l IH]; [done|].
  change (mbind encode_char (c :: l)) with (encode_char c ++ mbind encode_char l).
  by rewrite decode_encode_char, IH.
Qed.

(** [json.loads(body)] of a request body. *)
Definition json_loads (body : string) : option json := s ← decode body; loads s.

Lemma json_loads_dumps j : well_keyed j → json_loads (encode (dumps j)) = Some (sort_keys j).
Proof. intros H. unfold json_loads. rewrite decode_encode. by apply loads_dumps. Qed.

(** ** [str(value)] *)

Definition printable (c : ascii) : bool :=
  let z := code c in between 32 z 126 || (between 161 z 255 && negb (z =? 173)).

(** [repr(s)]: double quotes only when the text has single and no double ones. *)
Definition repr_str (s : string) : string :=
  let has z := existsb (λ c, code c =? z) (chars s) in
  let q := if has 39 && negb (has 34) then chr 34 else chr 39 in
  let esc c :=
    let z := code c in
    if bool_decide (c = q) || (z =? 92) then ["\"%char; c]
    else if z =? 10 then ["\"; "n"]%char
    else if z =? 13 then ["\"; "r"]%char
    else if z =? 9 then ["\"; "t"]%char
    else if printable c then [c]
    else ["\"; "x"]%char ++ [hex_char (z / 16); hex_char (z mod 16)] in
  of_chars (q :: mbind esc (chars s) ++ [q]).

Fixpoint repr (j : json) : string :=
  match j with
  | JNull => "None"
  | JBool true => "True"
  | JBool false => "False"
  | JInt z => str_int z
  | JFloat f => repr_float (float_value f)
  | JStr s => repr_str s
  | JArr l => "[" +:+ join ", " (repr <$> l) +:+ "]"
  | JObj l => "{" +:+ join ", " ((λ kv, repr_str kv.1 +:+ ": " +:+ repr kv.2) <$> l) +:+ "}"
  end.

Definition py_str (j : json) : string := match j with JStr s => s | _ => repr j end.

Example py_str_ex :
  py_str (JArr [JInt 1; JNull; JObj [("a", JStr "it's")]])
  = of_chars (chars "[1, None, {'a': " ++ quote :: chars "it's" ++ quote :: chars "}]").
Proof. reflexivity. Qed.

(** ** UUIDs *)

(** [s.replace(p, "")] with [p] non-empty. *)
Fixpoint remove_all (n : nat) (p l : list ascii) : list ascii :=
  match n with
  | O => l
  | S n' =>
      match l with
      | [] => []
      | c :: l' =>
          if bool_decide (take (length p) l = p) then remove_all n' p (drop (length p) l)
          else c :: remove_all n' p l'
      end
  end.

Fixpoint hex_literal (acc : Z) (l : list ascii) : option Z :=
  match l with
  | [] => Some acc
  | c :: l' =>
      match hex4 c with
      | Some v => hex_literal (16 * acc + v) l'
      | None =>
          match c, l' with
          | "_"%char, d :: l'' => v ← hex4 d; hex_literal (16 * acc + v) l''
          | _, _ => None
          end
      end
  end.

(** [int(s, 16)] *)
Definition hex_number (l : list ascii) : option Z :=
  match l with
  | c :: _ => _ ← hex4 c; hex_literal 0 l
  | [] => None
  end.

Definition skip_underscore (l : list ascii) : list ascii :=
  match l with
  | c :: l' => if bool_decide (c = "_"%char) then l' else l
  | [] => []
  end.

Definition hex_unsigned (l : list ascii) : option Z :=
  match l with
  | c :: x :: r =>
      if bool_decide (c = "0"%char) && (bool_decide (x = "x"%char) || bool_decide (x = "X"%char))
      then hex_number (skip_underscore r) else hex_number l
  | _ => hex_number l
  end.

Definition py_int16 (l : list ascii) : option Z :=
  match strip_chars isspace_char l with
  | c :: r =>
      if bool_decide (c = "-"%char) then Z.opp <$> hex_unsigned r
      else if bool_decide (c = "+"%char) then hex_unsigned r
      else hex_unsigned (c :: r)
  | [] => None
  end.

Definition is_brace (c : ascii) : bool := bool_decide (c = "{"%char) || bool_decide (c = "}"%char).

(** [uuid.UUID(s)]; [None] for the [ValueError]. *)
Definition uuid_of_str (s : string) : option id :=
  let l := chars s in
  let l := remove_all (length l) (chars "urn:") l in
  let l := remove_all (length l) (chars "uuid:") l in
  let l := filter (λ c, c ≠ "-"%char) (strip_chars is_brace l) in
  if (length l =? 32)%nat then
    z ← py_int16 l; if (0 <=? z) && (z <? 2 ^ 128) then Some (Z.to_N z) else None
  else None.

Example uuid_of_str_ex :
  uuid_of_str "{12345678-1234-5678-1234-567812345678}" = Some 0x12345678123456781234567812345678%N
  ∧ uuid_of_str "urn:uuid:12345678-1234-5678-1234-567812345678" = Some 0x12345678123456781234567812345678%N
  ∧ uuid_of_str "12345678" = None.
Proof. repeat split. Qed.

(** *** [uuid.UUID(str(k)) = k] *)

Definition is_hex_char (c : ascii) : bool := between 48 (code c) 57 || between 97 (code c) 102.

Lemma hex_char_spec z :
  0 <= z < 16 → is_hex_char (hex_char z) = true ∧ hex4 (hex_char z) = Some z.
Proof.
  intros H. assert (z ∈ seqZ 0 16) as Hin by (apply elem_of_seqZ; lia).
  assert (forallb (λ z, is_hex_char (hex_char z) && bool_decide (hex4 (hex_char z) = Some z)) (seqZ 0 16) = true)
    as Hall by (vm_compute; reflexivity).
  apply (proj1 (forallb_elem _ _) Hall) in Hin. by breflect.
Qed.

Lemma be_value_be_bytes n z :
  0 <= z < 256 ^ Z.of_nat n → be_value (be_bytes n z) = z.
Proof.
  revert z. induction n as [|n IH]; intros z Hz; [simpl in *; unfold be_value; simpl; lia|].
  rewrite Nat2Z.inj_succ, Z.pow_succ_r in Hz by lia.
  unfold be_value in *. simpl be_bytes. rewrite fold_left_app. simpl. rewrite IH.
  - pose proof (Z.div_mod z 256). lia.
  - split; [apply Z.div_pos; lia|apply Z.div_lt_upper_bound; lia].
Qed.

Definition hex_of (b : bytes) : list ascii := mbind (λ z, [hex_char (z / 16); hex_char (z mod 16)]) b.

Lemma hex_of_cons z b : hex_of (z :: b) = hex_char (z / 16) :: hex_char (z mod 16) :: hex_of b.
Proof. done. Qed.

Lemma nibbles z : is_byte z → 0 <= z / 16 < 16 ∧ 0 <= z mod 16 < 16 ∧ 16 * (z / 16) + z mod 16 = z.
Proof.
  unfold is_byte. intros H. pose proof (Z.div_mod z 16). pose proof (Z.mod_pos_bound z 16).
  split_and!; lia.
Qed.

Lemma hex_of_chars b : Forall is_byte b → Forall (λ c, is_hex_char c = true) (hex_of b).
Proof.
  induction 1 as [|z b Hz Hb IH]; [constructor|]. rewrite hex_of_cons.
  destruct (nibbles z Hz) as (? & ? & _). repeat constructor; [by apply hex_char_spec..|done].
Qed.

Lemma hex_of_length b : length (hex_of b) = (2 * length b)%nat.
Proof. induction b as [|z b IH]; [done|]. rewrite hex_of_cons. simpl. lia. Qed.

Lemma hex_literal_hex_of b acc :
  Forall is_byte b →
  hex_literal acc (hex_of b) = Some (fold_left (λ acc x, 256 * acc + x) b acc).
Proof.
  intros Hb. revert acc. induction Hb as [|z b Hz Hb IH]; intros acc; [done|].
  destruct (nibbles z Hz) as (H1 & H2 & H3). rewrite hex_of_cons. cbn [hex_literal].
  rewrite (proj2 (hex_char_spec _ H1)), (proj2 (hex_char_spec _ H2)), IH. cbn [fold_left]. do 2 f_equal. lia.
Qed.

(** Facts on texts of hexadecimal digits. *)
Lemma hex_not c d : is_hex_char c = true → is_hex_char d = false → c ≠ d.
Proof. congruence. Qed.

Lemma drop_while_none {A} (f : A → bool) l : Forall (λ x, f x = false) l → drop_while f l = l.
Proof. destruct 1 as [|x l Hx Hl]; simpl; [done|]. by rewrite Hx. Qed.

Lemma strip_chars_none f l : Forall (λ x, f x = false) l → strip_chars f l = l.
Proof.
  intros H. unfold strip_chars. rewrite (drop_while_none f l) by done.
  rewrite drop_while_none; [apply rev_involutive|]. by apply Forall_rev.
Qed.

Lemma remove_all_absent n x p l : x ∉ l → remove_all n (x :: p) l = l.
Proof.
  revert l. induction n as [|n IH]; intros l Hx; [done|]. destruct l as [|c l]; [done|].
  cbn [remove_all]. rewrite not_elem_of_cons in Hx. destruct Hx as [Hne Hx].
  rewrite bool_decide_false by (simpl; congruence). by rewrite IH.
Qed.

Lemma is_hex_char_class c :
  is_hex_char c = true → isspace_char c = false ∧ is_brace c = false ∧ is_Some (hex4 c).
Proof.
  unfold is_hex_char, isspace_char, is_brace, hex4, between. rewrite !orb_true_iff, !andb_true_iff, !Z.leb_le. intros H.
  split_and!.
  - rewrite !orb_false_iff, !andb_false_iff, !Z.leb_gt, !Z.eqb_neq. lia.
  - apply orb_false_iff. split; apply bool_decide_eq_false; intros ->; vm_compute in H; naive_solver lia.
  - destruct ((48 <=? code c) && (code c <=? 57)) eqn:E; [by eexists|].
    destruct ((97 <=? code c) && (code c <=? 102)) eqn:E2; [by eexists|].
    exfalso. rewrite !andb_false_iff, !Z.leb_gt in *. lia.
Qed.

Lemma py_int16_hex l :
  Forall (λ c, is_hex_char c = true) l → l ≠ [] → py_int16 l = hex_literal 0 l.
Proof.
  intros Hl Hne. unfold py_int16.
  rewrite strip_chars_none by (eapply Forall_impl; [exact Hl|]; intros c Hc; by apply is_hex_char_class).
  destruct l as [|c r]; [done|]. inversion Hl as [|? ? Hc Hr]; subst.
  rewrite !(bool_decide_false (c = _)) by (intros ->; discriminate).
  destruct (is_hex_char_class c Hc) as (_ & _ & v & Hv).
  assert (hex_number (c :: r) = hex_literal 0 (c :: r)) as Hd by (unfold hex_number; by rewrite Hv).
  unfold hex_unsigned. destruct r as [|x r]; [done|]. inversion Hr as [|? ? Hx _]; subst.
  rewrite !(bool_decide_false (x = _)) by (intros ->; discriminate). by rewrite andb_false_r.
Qed.

Lemma partition_char_true c l h t : partition_char c l = (h, true, t) → l = h ++ c :: t.
Proof.
  revert h. induction l as [|x l IH]; intros h; simpl; [done|]. case_bool_decide as E.
  - intros [= <- <-]. by subst.
  - destruct (partition_char c l) as [[h1 b] t1]. intros [= <- -> ->]. simpl. f_equal. by apply IH.
Qed.

Lemma chars_app a b : chars (a +:+ b) = chars a ++ chars b.
Proof.
  induction a as [|c a IH]; [done|].
  change (chars (String c a +:+ b)) with (c :: chars (a +:+ b)). by rewrite IH.
Qed.

(** The characters of a printed key. *)
Lemma str_uuid_chars k :
  chars (str_uuid k) =
  let h := hex_of (be_bytes 16 (Z.of_N k)) in
  take 8 h ++ "-"%char :: take 4 (drop 8 h) ++ "-"%char :: take 4 (drop 12 h)
  ++ "-"%char :: take 4 (drop 16 h) ++ "-"%char :: drop 20 h.
Proof.
  unfold str_uuid, hexdigest. rewrite chars_of_chars. fold (hex_of (be_bytes 16 (Z.of_N k))).
  rewrite !chars_app, !chars_of_chars. done.
Qed.

Lemma filter_dash h :
  Forall (λ c, is_hex_char c = true) h → filter (λ c, c ≠ "-"%char) h = h.
Proof.
  induction 1 as [|c h Hc Hh IH]; [done|]. rewrite filter_cons_True by (intros ->; discriminate). by rewrite IH.
Qed.

Lemma hex_literal_value b : Forall is_byte b → hex_literal 0 (hex_of b) = Some (be_value b).
Proof. apply hex_literal_hex_of. Qed.

Lemma be_value_key k : (k < 2 ^ 128)%N → be_value (be_bytes 16 (Z.of_N k)) = Z.of_N k.
Proof.
  intros Hk. apply be_value_be_bytes.
  replace (256 ^ Z.of_nat 16) with (2 ^ 128) by (vm_compute; reflexivity). lia.
Qed.

Lemma five_pieces {A} (h : list A) :
  take 8 h ++ take 4 (drop 8 h) ++ take 4 (drop 12 h) ++ take 4 (drop 16 h) ++ drop 20 h = h.
Proof.
  change 20%nat with (16 + 4)%nat. rewrite <- drop_drop, take_drop.
  change 16%nat with (12 + 4)%nat. rewrite <- drop_drop, take_drop.
  change 12%nat with (8 + 4)%nat. rewrite <- drop_drop, take_drop. apply take_drop.
Qed.

Lemma uuid_of_str_uuid k : (k < 2 ^ 128)%N → uuid_of_str (str_uuid k) = Some k.
Proof.
  intros Hk. unfold uuid_of_str. rewrite str_uuid_chars. cbv zeta.
  set (h := hex_of (be_bytes 16 (Z.of_N k))).
  assert (Forall (λ c, is_hex_char c = true) h) as Hh by apply hex_of_chars, be_bytes_bytes.
  assert (length h = 32%nat) as Hlen by (unfold h; by rewrite hex_of_length, be_bytes_length).
  assert (∀ n m, Forall (λ c, is_hex_char c = true) (take n (drop m h))) as Htd
    by (intros; by apply Forall_take, Forall_drop).
  set (l := take 8 h ++ _).
  assert (Forall (λ c, is_hex_char c = true ∨ c = "-"%char) l) as Hl.
  { assert (∀ x, Forall (λ c, is_hex_char c = true) x → Forall (λ c, is_hex_char c = true ∨ c = "-"%char) x) as Hw
      by (intros x Hx; eapply Forall_impl; [exact Hx|]; auto).
    unfold l. do 4 (apply Forall_app; split; [apply Hw; first [apply Htd|by apply Forall_take]|];
                    apply Forall_cons; split; [by right|]).
    by apply Hw, Forall_drop. }
  assert ("u"%char ∉ l) as Hu by (intros Hin; rewrite Forall_forall in Hl; destruct (Hl _ Hin); discriminate).
  change (chars "urn:") with ("u"%char :: chars "rn:").
  change (chars "uuid:") with ("u"%char :: chars "uid:").
  rewrite (remove_all_absent _ "u"%char (chars "rn:") l Hu), (remove_all_absent _ _ _ l Hu).
  rewrite strip_chars_none.
  2:{ eapply Forall_impl; [exact Hl|]. intros c [Hc|Hc]; simpl; [by apply is_hex_char_class|by rewrite Hc]. }
  assert (filter (λ c, c ≠ "-"%char) l = h) as ->.
  { unfold l. rewrite !filter_app, !filter_cons_False, !filter_app, !filter_cons_False, !filter_app,
      !filter_cons_False, !filter_app, !filter_cons_False by tauto.
    rewrite !filter_dash by first [apply Htd|by apply Forall_take|by apply Forall_drop].
    apply five_pieces. }
  rewrite Hlen. simpl Nat.eqb. cbv iota. rewrite py_int16_hex by (try done; intros ->; discriminate).
  assert (hex_literal 0 h = Some (Z.of_N k)) as ->.
  { unfold h. rewrite hex_literal_value by apply be_bytes_bytes. by rewrite be_value_key. }
  cbn [mbind option_bind]. rewrite (proj2 (Z.leb_le _ _)) by lia.
  rewrite (proj2 (Z.ltb_lt _ _)) by lia.
  simpl. by rewrite N2Z.id.
Qed.
