(* ===== verification/AuditTrail.v ===== *)
(** * The audit chain ([pamolive/audit])

    Every privileged operation appends one event to a hash chain whose head is
    kept in [AuditChainState]; events are signed by the keyring.  This file
    models [record_event], the verifier [verify_audit_chain], the immutability
    hooks of [AuditEvent], the redaction applied before events leave the
    platform, and the delivery to SIEM integrations. *)

From S2P Require Import Prelude PyStr Json Crypto PyTime Models World.

Local Open Scope Z_scope.

(** What [record_event] reads of a resource: [_meta.label_lower] and [str(pk)]. *)
Record resource := Resource { label_lower : string; resource_pk : string }.

Definition session_resource (k : id) := Resource "privileged_sessions.privilegedsession" (str_uuid k).

(** ** Hashing *)

(** [str(x) if x else None] of an optional string. *)
Definition str_or_none (x : option string) : json :=
  match x with Some s => if decide (s = "") then JNull else JStr s | None => JNull end.

Definition actor_or_none (a : option id) : json :=
  match a with Some k => if decide (k = 0%N) then JNull else JStr (str_user_pk k) | None => JNull end.

Definition _canonical_payload (sequence occurred_at : Z) (actor_id : option id)
    (action resource_type resource_id : string) (source_ip : option string)
    (metadata : list (string * json)) (previous_hash : string) (hash_version : Z) : json :=
  JObj [("action", JStr action);
        ("actor", actor_or_none actor_id);
        ("hash_version", JInt hash_version);
        ("metadata", JObj metadata);
        ("occurred_at", JStr (isoformat occurred_at));
        ("previous_hash", JStr previous_hash);
        ("resource_id", JStr resource_id);
        ("resource_type", JStr resource_type);
        ("sequence", JInt sequence);
        ("source_ip", str_or_none source_ip)].

Definition _payload_hash (payload : json) : string := sha256_hex (dumps payload).

(** The payload recomputed from a stored event. *)
Definition event_canonical (e : audit_event) : json :=
  _canonical_payload (e_sequence e) (e_occurred_at e) (e_actor e) (e_action e)
    (e_resource_type e) (e_resource_id e) (e_source_ip e) (e_metadata e)
    (e_previous_hash e) (e_hash_version e).

(** ** Recording *)

Section audit.
Context {PF : Platform}.

Definition _signature (event_hash : string) : M string :=
  of_outcome (kr_sign keyring event_hash).

(** [AuditEvent.save]: a row with this key already exists. *)
Definition save_audit_event (k : id) (e : audit_event) : M unit :=
  d ← asks (λ d, d);
  raise_if (bool_decide (is_Some (audit_events d !! k)))
    (RuntimeError "Audit events are immutable") ;;
  raise_if (exists_row (λ o, bool_decide (e_sequence (val o) = e_sequence e)) (audit_events d))
    (IntegrityError "sequence") ;;
  raise_if (exists_row (λ o, bool_decide (e_event_hash (val o) = e_event_hash e)) (audit_events d))
    (IntegrityError "event_hash") ;;
  insert_row audit_events k e.

(** [AuditEvent.delete] *)
Definition delete_audit_event (k : id) : M unit :=
  raise (RuntimeError "Audit events cannot be deleted").

Definition get_chain_state : M audit_chain_state := λ w,
  match audit_state (w_db w) with
  | Some st => (Ok st, w)
  | None => (Raise (DoesNotExist "AuditChainState"), w)
  end.

Definition record_event (actor : option id) (action : string) (res : resource)
    (metadata : list (string * json)) (source_ip : option string) : M (obj audit_event) :=
  atomic (
    state ← get_chain_state;
    let sequence := last_sequence state + 1 in
    occurred_at ← now;
    let payload := _canonical_payload sequence occurred_at actor action (label_lower res)
                     (resource_pk res) source_ip metadata (last_hash state) 2 in
    let event_hash := _payload_hash payload in
    signature ← _signature event_hash;
    k ← uuid4;
    let event := AuditEvent occurred_at sequence 2 actor action (label_lower res)
                   (resource_pk res) source_ip metadata (last_hash state) event_hash signature in
    save_audit_event k event ;;
    now ;;
    modify (λ d, d <| audit_state := Some (AuditChainState sequence event_hash) |>) ;;
    forward ← asks (λ d, exists_row (λ o, si_enabled (val o)) (siem_integrations d));
    (if forward : bool then modify (λ d, d <| on_commit ::= λ l, l ++ [k] |>) else mret tt) ;;
    mret (Obj k event)).

(** ** Verification *)

Inductive audit_issue :=
  | SequenceGap (event : id)
  | BrokenLink (event : id)
  | BadHash (event : id)
  | BadSignature (event : id)
  | UnknownVersion (event : id)
  | HeadMismatch.

Record audit_verification := AuditVerification {
  av_valid : bool;
  av_checked_events : Z;
  av_legacy_events : Z;
  av_issues : list audit_issue;
  av_head_hash : string;
}.

(** The local variables of the loop. *)
Record verify_state := VerifyState {
  vs_previous_hash : string;
  vs_previous_sequence : Z;
  vs_issues : list audit_issue;
  vs_checked : Z;
  vs_legacy : Z;
}.

(** [not event.signature or not keyring.verify(hash, signature)] *)
Definition signature_invalid (e : audit_event) : M bool :=
  if decide (e_signature e = "") then mret true
  else ok ← of_outcome (kr_verify keyring (e_event_hash e) (e_signature e)); mret (negb ok).

Definition verify_event (s : verify_state) (o : obj audit_event) : M verify_state :=
  let e := val o in
  let issues1 := vs_issues s
    ++ (if decide (e_sequence e = vs_previous_sequence s + 1) then [] else [SequenceGap (pk o)])
    ++ (if decide (e_previous_hash e = vs_previous_hash s) then [] else [BrokenLink (pk o)]) in
  let next issues legacy :=
    VerifyState (e_event_hash e) (e_sequence e) issues (vs_checked s + 1) legacy in
  if decide (e_hash_version e = 1) then mret (next issues1 (vs_legacy s + 1))
  else if decide (e_hash_version e = 2) then
    let issues2 := issues1 ++
      (if decide (e_event_hash e = _payload_hash (event_canonical e)) then [] else [BadHash (pk o)]) in
    bad ← signature_invalid e;
    mret (next (issues2 ++ (if bad : bool then [BadSignature (pk o)] else [])) (vs_legacy s))
  else mret (next (issues1 ++ [UnknownVersion (pk o)]) (vs_legacy s)).

Definition by_sequence (t : gmap id audit_event) : list (obj audit_event) :=
  sort_by (λ o, e_sequence (val o)) (rows t).

Definition verify_audit_chain : M audit_verification :=
  events ← asks (λ d, by_sequence (audit_events d));
  s ← fold_m events (VerifyState "" 0 [] 0 0) verify_event;
  state ← get_chain_state;
  let issues := vs_issues s ++
    (if bool_decide (last_sequence state ≠ vs_previous_sequence s)
        || bool_decide (last_hash state ≠ vs_previous_hash s)
     then [HeadMismatch] else []) in
  mret (AuditVerification (bool_decide (issues = [])) (vs_checked s) (vs_legacy s) issues
          (vs_previous_hash s)).

(** ** Redaction *)

Definition SENSITIVE_METADATA_FRAGMENTS : list string :=
  ["authorization"; "cookie"; "credential"; "key"; "password"; "secret"; "ticket"; "token"].

Definition sensitive_key (k : string) : bool :=
  existsb (λ fragment, contains fragment (casefold k)) SENSITIVE_METADATA_FRAGMENTS.

Fixpoint redact_metadata (v : json) : json :=
  match v with
  | JObj l =>
      JObj ((λ kv, (kv.1, if sensitive_key kv.1 then JStr "[REDACTED]"
                          else redact_metadata kv.2)) <$> l)
  | JArr l => JArr (redact_metadata <$> l)
  | _ => v
  end.
End audit.

(** ** What recording changes *)

(** The database differs at most in the audit tables and the callbacks. *)
Definition audit_frame (d d' : db) : Prop :=
  ∃ st ev oc, d' = d <| audit_state := st |> <| audit_events := ev |> <| on_commit := oc |>.

#[global] Instance audit_frame_refl : Reflexive audit_frame.
Proof. intros d. exists (audit_state d), (audit_events d), (on_commit d). by destruct d. Qed.

#[global] Instance audit_frame_trans : Transitive audit_frame.
Proof. intros d1 d2 d3 (?&?&?&->) (?&?&?&->). do 3 eexists. reflexivity. Qed.

Section audit_facts.
Context {PF : Platform}.

(** The event [record_event] appends to a chain in state [st] at time [t]. *)
Definition new_event (st : audit_chain_state) (t : Z) (actor : option id) (action : string)
    (res : resource) (metadata : list (string * json)) (ip : option string)
    (signature : string) : audit_event :=
  AuditEvent t (last_sequence st + 1) 2 actor action (label_lower res) (resource_pk res) ip
    metadata (last_hash st)
    (_payload_hash (_canonical_payload (last_sequence st + 1) t actor action (label_lower res)
       (resource_pk res) ip metadata (last_hash st) 2)) signature.

Lemma record_event_ok_inv actor action res md ip w o w' :
  record_event actor action res md ip w = (Ok o, w') →
  ∃ st sig,
    audit_state (w_db w) = Some st ∧
    val o = new_event st (w_clock w) actor action res md ip sig ∧
    kr_sign keyring (e_event_hash (val o)) = Ok sig ∧
    pk o = draw_uuid4 (w_draws w) ∧
    audit_events (w_db w) !! pk o = None ∧
    (∀ x, audit_events (w_db w) !! pk x = Some (val x) →
          e_sequence (val x) ≠ e_sequence (val o) ∧ e_event_hash (val x) ≠ e_event_hash (val o)) ∧
    audit_state (w_db w') = Some (AuditChainState (e_sequence (val o)) (e_event_hash (val o))) ∧
    audit_events (w_db w') = <[pk o := val o]> (audit_events (w_db w)) ∧
    audit_frame (w_db w) (w_db w').
Proof.
  intros H. unfold record_event in H. run_inv H.
  unfold get_chain_state in R. case_in R; simplify_eq.
  unfold _signature in R0. prim_inv R0.
  unfold save_audit_event in R1. run_inv R1. rewrite exists_row_false in R3, R4.
  exists a, a0. case_in R2; prim_inv R2; simpl in *; split_and!; try done;
    try (do 3 eexists; reflexivity);
    (intros x Hx; split; [apply R3 in Hx|apply R4 in Hx]; by apply bool_decide_eq_false in Hx).
Qed.

Lemma record_event_frame actor action res md ip w o w' :
  record_event actor action res md ip w = (Ok o, w') → audit_frame (w_db w) (w_db w').
Proof. 
  intros H. apply record_event_ok_inv in H as (?&?&?&?&?&?&?&?&?&?&?). done.
Qed.

Lemma record_event_raise_db actor action res md ip w e w' :
  record_event actor action res md ip w = (Raise e, w') → w_db w' = w_db w.
Proof. apply atomic_raise_db. Qed.

Lemma record_event_any actor action res md ip w :
  audit_frame (w_db w) (w_db (record_event actor action res md ip w).2).
Proof.
  destruct (record_event actor action res md ip w) as [[o|e] w'] eqn:E; simpl.
  - by eapply record_event_frame.
  - by rewrite (record_event_raise_db _ _ _ _ _ _ _ _ E).
Qed.

(** Properties of the database that do not look at the audit tables. *)
Class AuditStable (P : db → Prop) := audit_stable d d' : audit_frame d d' → P d → P d'.

Lemma record_event_preserves P `{!AuditStable P} actor action res md ip :
  preserves P (record_event actor action res md ip).
Proof. intros w HP. eapply audit_stable; [apply record_event_any|done]. Qed.

Lemma record_event_flows actor action res md ip : flows (record_event actor action res md ip).
Proof.
  unfold record_event, _signature, save_audit_event. solve_flows.
  intros w. unfold get_chain_state. case_match; apply later_refl.
Qed.

(** Recording succeeds on a database with a chain state, when the keyring
    signs, the drawn key is unused and the event is new. *)
Lemma record_event_succeeds actor action res md ip w st sig :
  audit_state (w_db w) = Some st →
  let e := new_event st (w_clock w) actor action res md ip sig in
  kr_sign keyring (e_event_hash e) = Ok sig →
  audit_events (w_db w) !! draw_uuid4 (w_draws w) = None →
  (∀ x, audit_events (w_db w) !! pk x = Some (val x) →
        e_sequence (val x) ≠ e_sequence e ∧ e_event_hash (val x) ≠ e_event_hash e) →
  ∃ w', record_event actor action res md ip w = (Ok (Obj (draw_uuid4 (w_draws w)) e), w').
Proof.
  intros Hst e Hsig Hk Hx. unfold record_event, atomic.
  rewrite (bind_ok _ _ _ st w) by (unfold get_chain_state; by rewrite Hst).
  run. unfold _signature. rewrite (run_of_ok _ sig) by exact Hsig. run. simpl w_draws.
  fold (new_event st (w_clock w) actor action res md ip sig). fold e.
  unfold save_audit_event. run. simpl w_db.
  rewrite run_raise_if_false by (apply bool_decide_eq_false; rewrite Hk; apply is_Some_None). run.
  rewrite run_raise_if_false
    by (apply exists_row_false; intros x Hxx; apply bool_decide_eq_false, (Hx x Hxx)). run.
  rewrite run_raise_if_false
    by (apply exists_row_false; intros x Hxx; apply bool_decide_eq_false, (Hx x Hxx)). run.
  rewrite run_insert by exact Hk. run.
  destruct (exists_row _ _); run; eexists; reflexivity.
Qed.
End audit_facts.

#[export] Hint Resolve record_event_flows : pam.
#[export] Hint Extern 1 (preserves _ (record_event _ _ _ _ _)) =>
  apply record_event_preserves; apply _ : pam.

(** ** The chain as a specification *)

Section chain.
Context {PF : Platform}.

(** An event is sound on its own: legacy events are taken as they are, current
    ones carry the hash of their content and a signature the keyring accepts. *)
Definition event_ok (e : audit_event) : Prop :=
  e_hash_version e = 1 ∨
  (e_hash_version e = 2 ∧ e_event_hash e = _payload_hash (event_canonical e) ∧
   e_signature e ≠ "" ∧ kr_verify keyring (e_event_hash e) (e_signature e) = Ok true).

(** [linked s h l s' h']: the events [l] extend the head [(s, h)] to [(s', h')]. *)
Inductive linked : Z → string → list (obj audit_event) → Z → string → Prop :=
  | linked_nil s h : linked s h [] s h
  | linked_cons s h o l s' h' :
      e_sequence (val o) = s + 1 → e_previous_hash (val o) = h → event_ok (val o) →
      linked (e_sequence (val o)) (e_event_hash (val o)) l s' h' →
      linked s h (o :: l) s' h'.

(** The specification the verifier implements. *)
Definition chain_ok (d : db) : Prop :=
  ∃ st, audit_state d = Some st ∧
    linked 0 "" (by_sequence (audit_events d)) (last_sequence st) (last_hash st).

(** What the keyring promises about its own signatures. *)
Class SigningKeyring := {
  sign_verifies h s : kr_sign keyring h = Ok s → s ≠ "" ∧ kr_verify keyring h s = Ok true;
}.

Lemma linked_snoc s h l o s' h' :
  linked s h l s' h' → e_sequence (val o) = s' + 1 → e_previous_hash (val o) = h' →
  event_ok (val o) → linked s h (l ++ [o]) (e_sequence (val o)) (e_event_hash (val o)).
Proof.
  induction 1; intros; simpl; [by constructor; [..|constructor]|].
  constructor; auto.
Qed.

Lemma linked_snoc_inv s h l o s' h' :
  linked s h (l ++ [o]) s' h' →
  ∃ h0, linked s h l (s' - 1) h0 ∧ e_sequence (val o) = s' ∧ e_event_hash (val o) = h' ∧
    e_previous_hash (val o) = h0 ∧ event_ok (val o).
Proof.
  revert s h. induction l as [|x l IH]; intros s h H; simpl in H.
  - inversion H as [|? ? ? ? ? ? Hs Hh He Hl]; subst. inversion Hl; subst.
    exists (e_previous_hash (val o)). split_and!; try done.
    replace (e_sequence (val o) - 1) with s by lia. constructor.
  - inversion H as [|? ? ? ? ? ? Hs Hh He Hl]; subst.
    apply IH in Hl as (h0 & Hl & ? & ? & ? & ?). exists h0. split_and!; try done.
    by constructor.
Qed.

(** Sequence numbers of a linked list increase by one up to the head. *)
Lemma linked_sequences s h l s' h' :
  linked s h l s' h' → s' = s + Z.of_nat (length l) ∧
  StronglySorted (λ a b, e_sequence (val a) < e_sequence (val b)) l ∧
  (∀ o, o ∈ l → s < e_sequence (val o) <= s').
Proof.
  induction 1 as [|s h o l s' h' Hs Hh He Hl (IH1 & IH2 & IH3)]; simpl.
  - split_and!; [lia|constructor|]. intros o Ho. by apply not_elem_of_nil in Ho.
  - split_and!; [lia| |].
    + constructor; [done|]. apply Forall_forall. intros x Hx. specialize (IH3 x Hx). lia.
    + intros x [->|Hx]%elem_of_cons; [lia|]. specialize (IH3 x Hx). lia.
Qed.

Lemma issue_if_nil {A} (P : Prop) `{!Decision P} (x : A) :
  (if decide P then [] else [x]) = [] ↔ P.
Proof. by case_decide. Qed.

(** One iteration of the verifier's loop. *)
Lemma verify_event_spec s o w s' w' :
  verify_event s o w = (Ok s', w') →
  w' = w ∧ vs_previous_hash s' = e_event_hash (val o) ∧
  vs_previous_sequence s' = e_sequence (val o) ∧
  vs_checked s' = vs_checked s + 1 ∧
  (vs_issues s' = [] ↔ vs_issues s = [] ∧ e_sequence (val o) = vs_previous_sequence s + 1 ∧
     e_previous_hash (val o) = vs_previous_hash s ∧ event_ok (val o)).
Proof.
  unfold verify_event, event_ok. intros H.
  destruct (decide (e_hash_version (val o) = 1)) as [Hv|Hv];
    [|destruct (decide (e_hash_version (val o) = 2)) as [Hv2|Hv2]].
  - prim_inv H. simpl. split_and!; try done.
    rewrite !app_nil, !issue_if_nil. naive_solver.
  - unfold signature_invalid in H. run_inv H. simpl.
    assert (w0 = w ∧ (a = false ↔ e_signature (val o) ≠ "" ∧
      kr_verify keyring (e_event_hash (val o)) (e_signature (val o)) = Ok true)) as [-> Ha].
    { destruct (decide (e_signature (val o) = "")) as [->|Hn].
      - prim_inv R. naive_solver.
      - run_inv R. rewrite R0. destruct a0; naive_solver. }
    split_and!; try done. rewrite !app_nil, !issue_if_nil.
    assert ((if a then [BadSignature (pk o)] else []) = [] ↔ a = false) as -> by by destruct a.
    naive_solver.
  - prim_inv H. simpl. split_and!; try done.
    rewrite !app_nil, !issue_if_nil. naive_solver.
Qed.

(** Sequence and hash of the last event of a list. *)
Definition head_after (s : Z) (h : string) (l : list (obj audit_event)) : Z * string :=
  fold_left (λ _ o, (e_sequence (val o), e_event_hash (val o))) l (s, h).

Lemma linked_head s h l s' h' : linked s h l s' h' → (s', h') = head_after s h l.
Proof. induction 1; [done|]. by unfold head_after in *. Qed.

Lemma verify_loop_spec l s w s' w' :
  fold_m l s verify_event w = (Ok s', w') →
  w' = w ∧
  (vs_previous_sequence s', vs_previous_hash s')
    = head_after (vs_previous_sequence s) (vs_previous_hash s) l ∧
  (vs_issues s' = [] ↔ vs_issues s = [] ∧
     linked (vs_previous_sequence s) (vs_previous_hash s) l
            (vs_previous_sequence s') (vs_previous_hash s')).
Proof.
  revert s. induction l as [|o l IH]; intros s H; simpl in H.
  - prim_inv H. split_and!; [done..|]. split; [intros ->; split; [done|constructor]|naive_solver].
  - run_inv H. apply verify_event_spec in R as (-> & Hh & Hs & _ & Hi).
    apply IH in H as (-> & Hend & H). rewrite Hh, Hs in Hend, H.
    split; [done|]. split; [done|]. rewrite H, Hi. split.
    + intros ((?&?&?&?) & ?). split; [done|]. by constructor.
    + intros (? & Hl). inversion Hl; subst. done.
Qed.
End chain.

Section chain_theorems.
Context {PF : Platform}.

(** The answer of the verifier, once its loop has ended. *)
Lemma verify_after_loop w st s' :
  audit_state (w_db w) = Some st →
  fold_m (by_sequence (audit_events (w_db w))) (VerifyState "" 0 [] 0 0) verify_event w = (Ok s', w) →
  ∃ r, verify_audit_chain w = (Ok r, w) ∧ (av_valid r = true ↔ chain_ok (w_db w)) ∧
    av_checked_events r = vs_checked s' ∧ av_legacy_events r = vs_legacy s'.
Proof.
  intros Hst Hs. unfold verify_audit_chain. run.
  rewrite (bind_ok _ _ _ _ _ Hs), (bind_ok _ _ _ st w)
    by (unfold get_chain_state; by rewrite Hst).
  eexists. split; [reflexivity|]. split; [|done]. simpl. rewrite bool_decide_eq_true, app_nil.
  apply verify_loop_spec in Hs as (_ & Hend & ->). simpl in *.
  assert ((if bool_decide (last_sequence st ≠ vs_previous_sequence s')
              || bool_decide (last_hash st ≠ vs_previous_hash s')
           then [HeadMismatch] else []) = [] ↔
          last_sequence st = vs_previous_sequence s' ∧ last_hash st = vs_previous_hash s') as ->.
  { repeat case_bool_decide; simpl; naive_solver. }
  unfold chain_ok. rewrite Hst. split.
  - intros [[_ Hl] [E1 E2]]. exists st. split; [done|]. by rewrite E1, E2.
  - intros (st' & [= <-] & Hl). pose proof (linked_head _ _ _ _ _ Hl) as E.
    rewrite <- Hend in E. injection E as E1 E2. by rewrite <- E1, <- E2.
Qed.

(** C9: [verify_audit_chain] decides the chain specification.  Whenever the
    keyring answers every verification request and the chain state exists, the
    verifier returns (it changes nothing), and its [valid] flag is true exactly
    when the stored events, in sequence order, form a linked list of sound events
    from the empty head to the recorded head. *)
Theorem verify_audit_chain_decides w st :
  audit_state (w_db w) = Some st →
  (∀ h s, ∃ b, kr_verify keyring h s = Ok b) →
  ∃ r, verify_audit_chain w = (Ok r, w) ∧ (av_valid r = true ↔ chain_ok (w_db w)).
Proof.
  intros Hst Hkr.
  assert (∀ l s, ∃ s', fold_m l s verify_event w = (Ok s', w)) as Hloop.
  { induction l as [|o l IH]; intros s; [by eexists|]. simpl.
    enough (∃ s1, verify_event s o w = (Ok s1, w)) as [s1 H1].
    { rewrite (bind_ok _ _ _ _ _ H1). apply IH. }
    unfold verify_event, signature_invalid.
    destruct (decide (e_hash_version (val o) = 1)); [by eexists|].
    destruct (decide (e_hash_version (val o) = 2)); [|by eexists].
    destruct (decide (e_signature (val o) = "")); [by eexists|].
    destruct (Hkr (e_event_hash (val o)) (e_signature (val o))) as [b Hb].
    rewrite run_assoc, (run_of_ok _ b) by done. by eexists. }
  destruct (Hloop (by_sequence (audit_events (w_db w))) (VerifyState "" 0 [] 0 0)) as [s' Hs].
  destruct (verify_after_loop w st s' Hst Hs) as (r & Hr & Hv & _). by exists r.
Qed.

Lemma chain_ok_record {SK : SigningKeyring} actor action res md ip w o w' :
  chain_ok (w_db w) →
  record_event actor action res md ip w = (Ok o, w') →
  chain_ok (w_db w').
Proof.
  intros (st & Hst & Hl) H.
  apply record_event_ok_inv in H as (st' & sig & Hst' & Ho & Hsig & _ & Hk & _ & Hst2 & Hev & _).
  rewrite Hst in Hst'. injection Hst' as <-.
  exists (AuditChainState (e_sequence (val o)) (e_event_hash (val o))). split; [done|]. simpl.
  pose proof (linked_sequences _ _ _ _ _ Hl) as (_ & Hsorted & Hbound).
  assert (by_sequence (audit_events (w_db w')) = by_sequence (audit_events (w_db w)) ++ [o]) as ->.
  { unfold by_sequence. apply sort_by_unique.
    - apply strictly_sorted_snoc; [done|]. intros y Hy. apply Hbound in Hy.
      rewrite Ho. simpl. lia.
    - rewrite Hev, rows_insert by done. rewrite sort_by_Permutation, Permutation_app_comm.
      by destruct o. }
  apply sign_verifies in Hsig as [Hne Hver].
  eapply linked_snoc; [done|by rewrite Ho..|].
  right. rewrite Ho in *. simpl in *. done.
Qed.

(** Recording an event keeps the chain valid: if the stored chain satisfies
    its specification and the keyring accepts its own signatures, then after a
    successful [record_event] the extended chain satisfies it too. *)
Theorem record_event_keeps_chain {SK : SigningKeyring} actor action res md ip w o w' :
  chain_ok (w_db w) →
  record_event actor action res md ip w = (Ok o, w') →
  chain_ok (w_db w').
Proof.
  apply chain_ok_record.
Qed.
End chain_theorems.

(** ** Tamper evidence *)

Section tamper.
Context {PF : Platform}.

Lemma sort_payload j1 j2 j3 j4 j5 j6 j7 j8 j9 j10 :
  sort_keys (JObj [("action", j1); ("actor", j2); ("hash_version", j3); ("metadata", j4);
    ("occurred_at", j5); ("previous_hash", j6); ("resource_id", j7); ("resource_type", j8);
    ("sequence", j9); ("source_ip", j10)]) =
  JObj [("action", sort_keys j1); ("actor", sort_keys j2); ("hash_version", sort_keys j3);
    ("metadata", sort_keys j4); ("occurred_at", sort_keys j5); ("previous_hash", sort_keys j6);
    ("resource_id", sort_keys j7); ("resource_type", sort_keys j8);
    ("sequence", sort_keys j9); ("source_ip", sort_keys j10)].
Proof. reflexivity. Qed.

(** Two events say the same: same position, time, author, action, resource, address
    and predecessor, and the same metadata up to the order of its keys. *)
Record same_event (e1 e2 : audit_event) : Prop := {
  se_sequence : e_sequence e1 = e_sequence e2;
  se_occurred_at : isoformat (e_occurred_at e1) = isoformat (e_occurred_at e2);
  se_actor : actor_or_none (e_actor e1) = actor_or_none (e_actor e2);
  se_action : e_action e1 = e_action e2;
  se_resource : e_resource_type e1 = e_resource_type e2 ∧ e_resource_id e1 = e_resource_id e2;
  se_source_ip : str_or_none (e_source_ip e1) = str_or_none (e_source_ip e2);
  se_metadata : sort_keys (JObj (e_metadata e1)) = sort_keys (JObj (e_metadata e2));
  se_previous_hash : e_previous_hash e1 = e_previous_hash e2;
}.

Lemma sort_keys_actor a : sort_keys (actor_or_none a) = actor_or_none a.
Proof. unfold actor_or_none. by repeat case_match. Qed.

Lemma sort_keys_str a : sort_keys (str_or_none a) = str_or_none a.
Proof. unfold str_or_none. by repeat case_match. Qed.

Lemma canonical_same_event e1 e2 :
  sort_keys (event_canonical e1) = sort_keys (event_canonical e2) → same_event e1 e2.
Proof.
  unfold event_canonical, _canonical_payload. rewrite !sort_payload, !sort_keys_actor, !sort_keys_str.
  intros H. injection H as Haction Hactor _ Hmeta Hat Hprev Hid Htype Hseq Hip. split; try done. simpl. by rewrite Hmeta.
Qed.

Definition current (e : audit_event) : Prop := e_hash_version e = 2.

(** A current-format chain that is not empty has a non-empty head hash. *)
Lemma linked_snoc_head_ne s h l e s' h' :
  linked s h (l ++ [e]) s' h' → Forall (current ∘ val) (l ++ [e]) → h' ≠ "".
Proof.
  intros (h0 & _ & _ & Hh & _ & Hok)%linked_snoc_inv [_ C]%Forall_app ->.
  inversion C as [|? ? Hc _]; subst. unfold current, compose in Hc.
  destruct Hok as [?|(_ & He & _)]; [congruence|].
  rewrite Hh in He. symmetry in He. by apply sha256_hex_ne_empty in He.
Qed.

(** The bytes an event's hash is computed from. *)
Definition hashed_text (e : audit_event) : bytes := utf8 (dumps (event_canonical e)).

(** Two chains collide when an event of one and an event of the other have different
    hashed texts with the same SHA-256. *)
Definition chains_collide (l1 l2 : list (obj audit_event)) : Prop :=
  ∃ o1 o2, o1 ∈ l1 ∧ o2 ∈ l2 ∧ sha256_collides (hashed_text (val o1)) (hashed_text (val o2)).

Lemma chains_collide_app l1 l2 k1 k2 : chains_collide l1 l2 → chains_collide (l1 ++ k1) (l2 ++ k2).
Proof. intros (o1 & o2 & ? & ? & ?). exists o1, o2. rewrite !elem_of_app. auto. Qed.

(** C8: The audit chain is tamper-evident.  Take two valid chains of current-format events
    that end in the same head hash.  Either they contain the same events, position by
    position: they agree on sequence, time, actor, action, resource, address, metadata
    and previous hash; or the two chains themselves contain a SHA-256 collision, an
    event of each whose hashed texts differ and have the same digest.  So rewriting,
    inserting, dropping or reordering past events under a published head requires a
    collision between two of the events. *)
Theorem audit_chain_tamper_evident l1 l2 s1 s2 h :
  linked 0 "" l1 s1 h → linked 0 "" l2 s2 h →
  Forall (current ∘ val) l1 → Forall (current ∘ val) l2 →
  Forall2 (λ o1 o2, same_event (val o1) (val o2)) l1 l2 ∨ chains_collide l1 l2.
Proof.
  revert l2 s1 s2 h. induction l1 as [|e1 l1 IH] using rev_ind;
    intros l2 s1 s2 h H1 H2 C1 C2; destruct l2 as [|e2 l2 _] using rev_ind.
  - by left.
  - exfalso. inversion H1; subst. by eapply linked_snoc_head_ne.
  - exfalso. inversion H2; subst. by eapply linked_snoc_head_ne.
  - apply Forall_app in C1 as [C1 C1e], C2 as [C2 C2e].
    inversion C1e as [|? ? Hc1 _]; inversion C2e as [|? ? Hc2 _]; subst.
    unfold current, compose in Hc1, Hc2.
    apply linked_snoc_inv in H1 as (h1 & L1 & _ & Hh1 & P1 & [?|(_ & E1 & _)]); [congruence|].
    apply linked_snoc_inv in H2 as (h2 & L2 & _ & Hh2 & P2 & [?|(_ & E2 & _)]); [congruence|].
    unfold _payload_hash in E1, E2.
    assert (sha256_hex (dumps (event_canonical (val e1)))
            = sha256_hex (dumps (event_canonical (val e2)))) as E by congruence.
    apply sha256_hex_inj in E as [E|E];
      [|right; exists e1, e2; rewrite !elem_of_app, !list_elem_of_singleton; by auto].
    apply dumps_inj, canonical_same_event in E. pose proof (se_previous_hash _ _ E) as Hp.
    rewrite <- P1, Hp, P2 in L1.
    destruct (IH l2 _ _ _ L1 L2 C1 C2) as [IHe|Hc]; [|right; by apply chains_collide_app].
    left. apply Forall2_app; [done|]. by constructor.
Qed.
End tamper.

(** ** Redaction *)

#[local] Set Warnings "-register-all".

Section redaction.
(** [entry j k v]: the member [k: v] occurs in [j], at any depth. *)
Inductive entry : json → string → json → Prop :=
  | entry_here l k v : (k, v) ∈ l → entry (JObj l) k v
  | entry_obj l k v k' v' : (k', v') ∈ l → entry v' k v → entry (JObj l) k v
  | entry_arr l k v x : x ∈ l → entry x k v → entry (JArr l) k v.

(** [low_equiv j1 j2]: the documents differ only below sensitive keys. *)
Inductive low_equiv : json → json → Prop :=
  | low_refl j : low_equiv j j
  | low_arr l1 l2 : Forall2 low_equiv l1 l2 → low_equiv (JArr l1) (JArr l2)
  | low_obj l1 l2 :
      Forall2 (λ a b, a.1 = b.1 ∧ (sensitive_key a.1 = true ∨ low_equiv a.2 b.2)) l1 l2 →
      low_equiv (JObj l1) (JObj l2).

(** Redaction leaves no sensitive member: whatever the nesting, a member of
    the redacted document whose folded key contains one of the sensitive
    fragments holds the marker and nothing else. *)
Theorem redact_metadata_complete j k v :
  entry (redact_metadata j) k v → sensitive_key k = true → v = JStr "[REDACTED]".
Proof.
  intros H Hs. revert H. induction j as [| | | |l IH|l IH|] using json_rect_strong;
    simpl; intros H; inversion H as [? ? ? Hin|? ? ? ? ? Hin He|? ? ? x Hin He]; subst.
  - apply list_elem_of_fmap in Hin as (y & -> & Hy).
    rewrite Forall_forall in IH. by eapply IH.
  - apply list_elem_of_fmap in Hin as ([k0 v0] & [= -> ->] & Hy). simpl in *. by rewrite Hs.
  - apply list_elem_of_fmap in Hin as ([k0 v0] & [= -> ->] & Hy). simpl in *.
    destruct (sensitive_key k0); [inversion He|].
    rewrite Forall_forall in IH. by eapply (IH _ Hy).
Qed.

(** Redaction reveals nothing about sensitive values: two documents that
    differ only below sensitive keys have the same redacted form. *)
Theorem redact_metadata_noninterference j1 j2 :
  low_equiv j1 j2 → redact_metadata j1 = redact_metadata j2.
Proof.
  revert j2. induction j1 as [| | | |l IH|l IH|] using json_rect_strong;
    intros j2 H; inversion H as [|? l2 HF|? l2 HF]; subst; try done; simpl; f_equal.
  - clear H. revert IH. induction HF as [|x y l l2 Hxy HF IHF]; intros IH; [done|].
    inversion_clear IH as [|? ? IHx IHl]. simpl. f_equal; [by apply IHx|by apply IHF].
  - clear H. revert IH. induction HF as [|[k1 x] [k2 y] l l2 [Hk Hxy] HF IHF]; intros IH; [done|].
    inversion_clear IH as [|? ? IHx IHl]. simpl in *. subst k2. f_equal; [|by apply IHF].
    destruct Hxy as [->|Hxy]; [done|]. destruct (sensitive_key k1); [done|]. f_equal. by apply IHx.
Qed.
End redaction.

(** ** Concrete runs *)

Section witnesses.
#[local] Existing Instance demo_platform.

(** A run whose first component is a value. *)
Lemma surjective_pairing_ok {A} (x : outcome A * world) (a : A) :
  x.1 = Ok a → x = (Ok a, x.2).
Proof. destruct x. simpl. by intros ->. Qed.

#[local] Instance demo_signing : SigningKeyring.
Proof.
  split. intros h s [= <-]. split; [done|]. simpl. by rewrite bool_decide_true.
Qed.

Definition demo_resource : resource := Resource "accounts.user" "7".

(** A chain of two events recorded on an empty database. *)
Definition demo_chain : world := Eval vm_compute in
  (record_event None "second" demo_resource [] (Some "192.0.2.1")
    (record_event (Some 7%N) "first" demo_resource [("reason", JStr "idle")] None
       (demo_world empty_db)).2).2.

Lemma empty_chain_ok : chain_ok empty_db.
Proof. eexists. split; [reflexivity|]. constructor. Qed.

Lemma verify_audit_chain_decides_witness :
  ∃ r, verify_audit_chain demo_chain = (Ok r, demo_chain) ∧
       (av_valid r = true ↔ chain_ok (w_db demo_chain)) .
Proof.
  eapply verify_audit_chain_decides; [vm_compute; reflexivity|].
  intros h s. eexists. reflexivity.
Defined.

Lemma record_event_keeps_chain_witness :
  chain_ok (w_db (record_event None "x" demo_resource [] None (demo_world empty_db)).2).
Proof.
  eapply (record_event_keeps_chain None "x" demo_resource [] None (demo_world empty_db));
    [apply empty_chain_ok|].
  apply surjective_pairing_ok. vm_compute. reflexivity.
Defined.

Lemma redact_metadata_complete_witness :
  JStr "[REDACTED]" = JStr "[REDACTED]".
Proof.
  apply (redact_metadata_complete
           (JObj [("outer", JObj [("API_Key", JInt 3)])]) "API_Key" (JStr "[REDACTED]")).
  - eapply entry_obj; [left|]. simpl. apply entry_here. left.
  - reflexivity.
Defined.

Lemma redact_metadata_noninterference_witness :
  redact_metadata (JObj [("user", JStr "a"); ("token", JInt 1)]) =
  redact_metadata (JObj [("user", JStr "a"); ("token", JStr "zz")]).
Proof.
  apply redact_metadata_noninterference. apply low_obj.
  constructor; [split; [done|right; constructor]|].
  constructor; [split; [done|left; reflexivity]|constructor].
Defined.

Definition demo_events : list (obj audit_event) := Eval vm_compute in
  by_sequence (audit_events (w_db demo_chain)).

Definition demo_head : string := Eval vm_compute in
  match audit_state (w_db demo_chain) with Some st => last_hash st | None => "" end.

Lemma demo_events_linked : linked 0 "" demo_events 2 demo_head.
Proof.
  unfold demo_events.
  do 2 (apply linked_cons;
        [reflexivity|reflexivity
        |right; split_and!; [reflexivity|vm_compute; reflexivity|discriminate|vm_compute; reflexivity]|]).
  apply linked_nil.
Qed.

Lemma audit_chain_tamper_evident_witness :
  Forall2 (λ o1 o2, same_event (val o1) (val o2)) demo_events demo_events ∨ chains_collide demo_events demo_events.
Proof.
  apply (audit_chain_tamper_evident demo_events demo_events 2 2 demo_head).
  - apply demo_events_linked.
  - apply demo_events_linked.
  - vm_compute. repeat constructor.
  - vm_compute. repeat constructor.
Defined.
End witnesses.
