(* ===== verification/Rbac.v ===== *)
(** * Roles and capabilities ([pamolive/rbac])

    [user_capabilities] (group roles, direct assignments with a validity window,
    super-administrators), the capability guard of the console views, and the
    permission profiles: areas with levels, and their translation to and from
    flat capability lists. *)

From S2P Require Import Prelude PyStr Json Crypto PyTime Models World.

Local Open Scope Z_scope.

Definition role_order (a b : string) : Prop := String.leb a b = true.
#[global] Instance role_order_dec a b : Decision (role_order a b).
Proof. unfold role_order. apply _. Defined.

(** [sorted(set_of_strings)] *)
Definition sorted_set (s : gset string) : list string := merge_sort role_order (elements s).

Lemma elem_of_sorted_set s x : x ∈ sorted_set s ↔ x ∈ s.
Proof. unfold sorted_set. by rewrite merge_sort_Permutation, elem_of_elements. Qed.

(** ** Capabilities *)

Module Capability.
Definition CONSOLE_ACCESS := "console.access".
Definition CONFIGURATION_VIEW := "configuration.view".
Definition USERS_VIEW := "users.view".
Definition USERS_MANAGE := "users.manage".
Definition GROUPS_VIEW := "groups.view".
Definition GROUPS_MANAGE := "groups.manage".
Definition ROLES_VIEW := "roles.view".
Definition ROLES_MANAGE := "roles.manage".
Definition IDENTITY_SOURCES_VIEW := "identity_sources.view".
Definition IDENTITY_SOURCES_MANAGE := "identity_sources.manage".
Definition IDENTITY_SOURCES_SYNC := "identity_sources.sync".
Definition TARGETS_VIEW := "targets.view".
Definition TARGETS_MANAGE := "targets.manage".
Definition TARGET_GROUPS_VIEW := "target_groups.view".
Definition TARGET_GROUPS_MANAGE := "target_groups.manage".
Definition DOMAINS_VIEW := "domains.view".
Definition DOMAINS_MANAGE := "domains.manage".
Definition CREDENTIALS_VIEW_METADATA := "credentials.view_metadata".
Definition CREDENTIALS_MANAGE := "credentials.manage".
Definition CREDENTIALS_REVEAL := "credentials.reveal".
Definition CREDENTIALS_ROTATE := "credentials.rotate".
Definition POLICIES_VIEW := "policies.view".
Definition POLICIES_MANAGE := "policies.manage".
Definition APPROVALS_VIEW := "approvals.view".
Definition APPROVALS_DECIDE := "approvals.decide".
Definition AUDIT_VIEW := "audit.view".
Definition AUDIT_EXPORT := "audit.export".
Definition SESSIONS_VIEW := "sessions.view".
Definition SESSIONS_TERMINATE := "sessions.terminate".
Definition SESSIONS_JOIN := "sessions.join".
Definition SYSTEM_VIEW := "system.view".
Definition SYSTEM_MANAGE := "system.manage".

Definition choices : list string :=
  [CONSOLE_ACCESS; CONFIGURATION_VIEW; USERS_VIEW; USERS_MANAGE; GROUPS_VIEW; GROUPS_MANAGE;
   ROLES_VIEW; ROLES_MANAGE; IDENTITY_SOURCES_VIEW; IDENTITY_SOURCES_MANAGE;
   IDENTITY_SOURCES_SYNC; TARGETS_VIEW; TARGETS_MANAGE; TARGET_GROUPS_VIEW;
   TARGET_GROUPS_MANAGE; DOMAINS_VIEW; DOMAINS_MANAGE; CREDENTIALS_VIEW_METADATA;
   CREDENTIALS_MANAGE; CREDENTIALS_REVEAL; CREDENTIALS_ROTATE; POLICIES_VIEW;
   POLICIES_MANAGE; APPROVALS_VIEW; APPROVALS_DECIDE; AUDIT_VIEW; AUDIT_EXPORT;
   SESSIONS_VIEW; SESSIONS_TERMINATE; SESSIONS_JOIN; SYSTEM_VIEW; SYSTEM_MANAGE].
End Capability.
Import Capability.

(** ** Effective capabilities of a user *)

(** [Role.objects.filter(enabled=True, user_groups__enabled=True, user_groups__users=user)] *)
Definition group_roles (d : db) (u : id) : list (obj role) :=
  objects_filter (λ r, ro_enabled (val r) &&
    exists_row (λ g, ug_enabled (val g) && bool_decide (u ∈ ug_users (val g))
                     && bool_decide (pk r ∈ ug_roles (val g))) (user_groups d)) (roles d).

(** The validity window of an assignment at instant [t]. *)
Definition assignment_current (t : Z) (a : role_assignment) : bool :=
  (ra_valid_from a <=? t) &&
  match ra_valid_until a with None => true | Some u => t <? u end.

Definition direct_roles (d : db) (u : id) (t : Z) : list (obj role) :=
  objects_filter (λ r, ro_enabled (val r) &&
    exists_row (λ a, bool_decide (ra_user (val a) = u) && bool_decide (ra_role (val a) = pk r)
                     && assignment_current t (val a)) (role_assignments d)) (roles d).

Definition capabilities_of_roles (l : list (obj role)) : gset string :=
  ⋃ ((λ r, list_to_set (ro_capabilities (val r))) <$> l).

Definition user_capabilities (u : principal) : M (gset string) :=
  match u with
  | AnonymousUser => mret ∅
  | Authenticated u =>
      if u_is_superuser (val u) then mret (list_to_set Capability.choices)
      else
        d ← asks (λ d, d);
        t ← now;
        mret (capabilities_of_roles (group_roles d (pk u) ++ direct_roles d (pk u) t))
  end.

Definition user_has_capability (u : principal) (capability : string) : M bool :=
  caps ← user_capabilities u; mret (bool_decide (capability ∈ caps)).

(** [@capability_required(c)] around a view. *)
Definition capability_required {A} (capability : string) (u : principal) (view : M A) : M A :=
  match u with
  | AnonymousUser => raise (PermissionDenied "")
  | Authenticated _ =>
      ok ← user_has_capability u capability;
      if ok : bool then view else raise (PermissionDenied "")
  end.

Definition can_view_configuration (u : principal) (manage : string) (view : option string) : M bool :=
  ok ← user_has_capability u manage;
  if ok : bool then mret true
  else user_has_capability u
         (match view with
          | Some v => if decide (v = "") then CONFIGURATION_VIEW else v
          | None => CONFIGURATION_VIEW
          end).

(** ** Permission profiles *)

Record permission_level := PermissionLevel {
  pl_value : string;
  pl_label : string;
  pl_capabilities : list string;
}.

Record permission_area := PermissionArea {
  pa_field_name : string;
  pa_label : string;
  pa_levels : list permission_level;
}.

Definition NONE : permission_level := PermissionLevel "none" "Aucun accès" [].

Definition _area (field_name label : string) (levels : list permission_level) : permission_area :=
  PermissionArea field_name label (NONE :: levels).

Definition PERMISSION_AREAS : list permission_area := [
  _area "users_level" "Utilisateurs"
    [PermissionLevel "view" "Lecture" [USERS_VIEW];
     PermissionLevel "manage" "Gestion" [USERS_VIEW; USERS_MANAGE]];
  _area "groups_level" "Groupes utilisateurs"
    [PermissionLevel "view" "Lecture" [GROUPS_VIEW];
     PermissionLevel "manage" "Gestion" [GROUPS_VIEW; GROUPS_MANAGE]];
  _area "roles_level" "Profils de permissions"
    [PermissionLevel "view" "Lecture" [ROLES_VIEW];
     PermissionLevel "manage" "Gestion" [ROLES_VIEW; ROLES_MANAGE]];
  _area "identity_sources_level" "Annuaires et fournisseurs d’identité"
    [PermissionLevel "view" "Lecture" [IDENTITY_SOURCES_VIEW];
     PermissionLevel "manage" "Gestion" [IDENTITY_SOURCES_VIEW; IDENTITY_SOURCES_MANAGE];
     PermissionLevel "operate" "Gestion et synchronisation"
       [IDENTITY_SOURCES_VIEW; IDENTITY_SOURCES_MANAGE; IDENTITY_SOURCES_SYNC]];
  _area "targets_level" "Équipements SSH / RDP"
    [PermissionLevel "view" "Lecture" [TARGETS_VIEW];
     PermissionLevel "manage" "Gestion" [TARGETS_VIEW; TARGETS_MANAGE]];
  _area "target_groups_level" "Groupes de cibles"
    [PermissionLevel "view" "Lecture" [TARGET_GROUPS_VIEW];
     PermissionLevel "manage" "Gestion" [TARGET_GROUPS_VIEW; TARGET_GROUPS_MANAGE]];
  _area "domains_level" "Domaines"
    [PermissionLevel "view" "Lecture" [DOMAINS_VIEW];
     PermissionLevel "manage" "Gestion" [DOMAINS_VIEW; DOMAINS_MANAGE]];
  _area "credentials_level" "Comptes privilégiés"
    [PermissionLevel "view" "Lecture des métadonnées" [CREDENTIALS_VIEW_METADATA];
     PermissionLevel "manage" "Gestion des comptes"
       [CREDENTIALS_VIEW_METADATA; CREDENTIALS_MANAGE]];
  _area "secret_operations_level" "Opérations sensibles sur les secrets"
    [PermissionLevel "reveal" "Révélation autorisée"
       [CREDENTIALS_VIEW_METADATA; CREDENTIALS_REVEAL];
     PermissionLevel "rotate" "Rotation autorisée"
       [CREDENTIALS_VIEW_METADATA; CREDENTIALS_ROTATE];
     PermissionLevel "full" "Révélation et rotation"
       [CREDENTIALS_VIEW_METADATA; CREDENTIALS_REVEAL; CREDENTIALS_ROTATE]];
  _area "policies_level" "Autorisations d’accès"
    [PermissionLevel "view" "Lecture" [POLICIES_VIEW];
     PermissionLevel "manage" "Gestion" [POLICIES_VIEW; POLICIES_MANAGE]];
  _area "approvals_level" "Approbations"
    [PermissionLevel "view" "Lecture" [APPROVALS_VIEW];
     PermissionLevel "decide" "Décision" [APPROVALS_VIEW; APPROVALS_DECIDE]];
  _area "sessions_level" "Sessions privilégiées"
    [PermissionLevel "view" "Lecture" [SESSIONS_VIEW];
     PermissionLevel "control" "Supervision et terminaison"
       [SESSIONS_VIEW; SESSIONS_JOIN; SESSIONS_TERMINATE]];
  _area "audit_level" "Audit"
    [PermissionLevel "view" "Lecture" [AUDIT_VIEW];
     PermissionLevel "export" "Lecture et export" [AUDIT_VIEW; AUDIT_EXPORT]];
  _area "system_level" "Configuration système"
    [PermissionLevel "view" "Lecture" [SYSTEM_VIEW];
     PermissionLevel "manage" "Gestion" [SYSTEM_VIEW; SYSTEM_MANAGE]]
].

Definition level_for_capabilities (area : permission_area) (capabilities : list string) : string :=
  let granted : gset string := list_to_set capabilities in
  fold_left (λ selected level,
    if negb (bool_decide (pl_capabilities level = []))
       && forallb (λ c, bool_decide (c ∈ granted)) (pl_capabilities level)
    then pl_value level else selected) (pa_levels area) "none".

(** [next((item for item in area.levels if item.value == selected), NONE)] *)
Definition selected_level (values : gmap string string) (area : permission_area) : permission_level :=
  let selected := default "none" (values !! pa_field_name area) in
  default NONE (List.find (λ l, bool_decide (pl_value l = selected)) (pa_levels area)).

Definition with_console_access (s : gset string) : gset string :=
  if decide (s = ∅) then s else {[CONSOLE_ACCESS; CONFIGURATION_VIEW]} ∪ s.

Definition capabilities_from_levels (values : gmap string string) : list string :=
  sorted_set (with_console_access
    (⋃ ((λ area, list_to_set (pl_capabilities (selected_level values area))) <$> PERMISSION_AREAS))).

Definition dependencies : list (string * string) :=
  [(USERS_MANAGE, USERS_VIEW); (GROUPS_MANAGE, GROUPS_VIEW); (ROLES_MANAGE, ROLES_VIEW);
   (IDENTITY_SOURCES_MANAGE, IDENTITY_SOURCES_VIEW);
   (IDENTITY_SOURCES_SYNC, IDENTITY_SOURCES_VIEW);
   (TARGETS_MANAGE, TARGETS_VIEW); (TARGET_GROUPS_MANAGE, TARGET_GROUPS_VIEW);
   (DOMAINS_MANAGE, DOMAINS_VIEW); (CREDENTIALS_MANAGE, CREDENTIALS_VIEW_METADATA);
   (CREDENTIALS_REVEAL, CREDENTIALS_VIEW_METADATA);
   (CREDENTIALS_ROTATE, CREDENTIALS_VIEW_METADATA);
   (POLICIES_MANAGE, POLICIES_VIEW); (APPROVALS_DECIDE, APPROVALS_VIEW);
   (AUDIT_EXPORT, AUDIT_VIEW); (SESSIONS_TERMINATE, SESSIONS_VIEW);
   (SESSIONS_JOIN, SESSIONS_VIEW); (SYSTEM_MANAGE, SYSTEM_VIEW)].

Definition add_dependencies (deps : list (string * string)) (granted : gset string) : gset string :=
  fold_left (λ g cd, if decide (cd.1 ∈ g) then {[cd.2]} ∪ g else g) deps granted.

Definition normalize_capabilities (capabilities : list string) : list string :=
  sorted_set (with_console_access (add_dependencies dependencies (list_to_set capabilities))).

Definition permission_summary (capabilities : list string) : list string :=
  mbind (λ area,
    let selected := level_for_capabilities area capabilities in
    if decide (selected = "none") then []
    else match List.find (λ l, bool_decide (pl_value l = selected)) (pa_levels area) with
         | Some level => [pa_label area +:+ " · " +:+ pl_label level]
         | None => []
         end) PERMISSION_AREAS.

(** ** Facts *)

(** A role reaches the user: through an enabled group, or a current assignment. *)
Definition role_reaches (d : db) (u r : id) (t : Z) : Prop :=
  (∃ g, user_groups d !! pk g = Some (val g) ∧ ug_enabled (val g) = true ∧
        u ∈ ug_users (val g) ∧ r ∈ ug_roles (val g)) ∨
  (∃ a, role_assignments d !! pk a = Some (val a) ∧ ra_user (val a) = u ∧ ra_role (val a) = r ∧
        ra_valid_from (val a) <= t ∧ ∀ v, ra_valid_until (val a) = Some v → t < v).

Lemma assignment_current_spec t a :
  assignment_current t a = true ↔
  ra_valid_from a <= t ∧ ∀ v, ra_valid_until a = Some v → t < v.
Proof.
  unfold assignment_current. rewrite andb_true_iff, Z.leb_le.
  destruct (ra_valid_until a); [rewrite Z.ltb_lt|]; naive_solver.
Qed.

Lemma elem_of_capabilities_of_roles c l :
  c ∈ capabilities_of_roles l ↔ ∃ r, r ∈ l ∧ c ∈ ro_capabilities (val r).
Proof.
  unfold capabilities_of_roles. rewrite elem_of_union_list. split.
  - intros (X & (r & -> & Hr)%list_elem_of_fmap & Hc). exists r. by rewrite elem_of_list_to_set in Hc.
  - intros (r & Hr & Hc). eexists. split; [apply list_elem_of_fmap; eauto|]. by apply elem_of_list_to_set.
Qed.

Lemma elem_of_group_or_direct d u t r :
  r ∈ group_roles d u ++ direct_roles d u t ↔
  roles d !! pk r = Some (val r) ∧ ro_enabled (val r) = true ∧ role_reaches d u (pk r) t.
Proof.
  unfold group_roles, direct_roles, role_reaches.
  rewrite elem_of_app, !elem_of_objects_filter, !andb_true_iff, !exists_row_true.
  split.
  - intros [(?&?&g&?&?)|(?&?&a&?&?)]; breflect; split_and!; try done; [left; eauto 10|right].
    exists a. match goal with H : _ = true |- _ => apply assignment_current_spec in H end.
    by destruct_all.
  - intros (?&?&[(g&?&?&?&?)|(a&?&?&?&?&?)]); [left|right]; split_and!; try done.
    + exists g. split; [done|]. rewrite !andb_true_iff, !bool_decide_eq_true. done.
    + exists a. split; [done|].
      rewrite !andb_true_iff, !bool_decide_eq_true, assignment_current_spec. done.
Qed.

Lemma user_has_capability_run u c w :
  u_is_superuser (val u) = false →
  user_has_capability (Authenticated u) c w =
  (Ok (bool_decide (c ∈ capabilities_of_roles
         (group_roles (w_db w) (pk u) ++ direct_roles (w_db w) (pk u) (w_clock w)))), advance w).
Proof. intros H. unfold user_has_capability, user_capabilities. by rewrite H. Qed.

(** The database is not touched by the capability checks. *)
Lemma user_has_capability_total u c w :
  ∃ b w', user_has_capability u c w = (Ok b, w') ∧ w_db w' = w_db w.
Proof.
  destruct u as [|u]; [by do 2 eexists|].
  unfold user_has_capability, user_capabilities.
  destruct (u_is_superuser (val u)); by do 2 eexists.
Qed.

(** A signed-in user who is not a super-administrator has a capability exactly
    when some enabled role lists it and reaches the user, either through an
    enabled group the user belongs to or through a direct assignment whose
    validity window contains the current instant; the check always answers.
    Disabled roles, disabled groups, future and expired assignments grant nothing. *)
Theorem user_has_capability_spec u c w :
  u_is_superuser (val u) = false →
  ∃ b w', user_has_capability (Authenticated u) c w = (Ok b, w') ∧ w_db w' = w_db w ∧
    (b = true ↔ ∃ r, roles (w_db w) !! pk r = Some (val r) ∧ ro_enabled (val r) = true ∧
                     c ∈ ro_capabilities (val r) ∧ role_reaches (w_db w) (pk u) (pk r) (w_clock w)).
Proof.
  intros H. do 2 eexists. split; [by apply user_has_capability_run|]. split; [done|].
  rewrite bool_decide_eq_true, elem_of_capabilities_of_roles.
  setoid_rewrite elem_of_group_or_direct. naive_solver.
Qed.

(** The capability guard is exact: for every user the guarded view runs (in the
    same database) when the check grants the capability, and is not run at all,
    with [PermissionDenied] raised and nothing written, when it does not; anonymous
    requests are always refused. *)
Theorem capability_required_guards {A} c u (view : M A) w :
  (∃ w1, w_db w1 = w_db w ∧ user_has_capability u c w = (Ok true, w1) ∧
         capability_required c u view w = view w1) ∨
  (∃ w1, w_db w1 = w_db w ∧ user_has_capability u c w = (Ok false, w1) ∧
         capability_required c u view w = (Raise (PermissionDenied ""), w1)).
Proof.
  destruct (user_has_capability_total u c w) as (b & w1 & H & Hd).
  destruct u as [|u].
  - right. exists w. split_and!; try done.
  - unfold capability_required. rewrite (bind_ok _ _ _ _ _ H).
    destruct b; [left|right]; exists w1; done.
Qed.

(** *** Normalisation *)

Lemma elem_of_with_console_access c s :
  c ∈ with_console_access s ↔
  c ∈ s ∨ (s ≠ ∅ ∧ (c = CONSOLE_ACCESS ∨ c = CONFIGURATION_VIEW)).
Proof. unfold with_console_access. case_decide; set_solver. Qed.

Lemma add_dependencies_mono deps g : g ⊆ add_dependencies deps g.
Proof.
  revert g. induction deps as [|[c x] deps IH]; intros g; [done|].
  unfold add_dependencies in *. simpl. etrans; [|apply IH]. case_decide; set_solver.
Qed.

(** No dependency target is itself a source, so one pass over the table closes
    the set. *)
Lemma add_dependencies_spec deps g x :
  Forall (λ cd, cd.2 ∉ deps.*1) deps →
  x ∈ add_dependencies deps g ↔ x ∈ g ∨ ∃ c, (c, x) ∈ deps ∧ c ∈ g.
Proof.
  intros H. assert (∀ pre suf, deps = pre ++ suf → ∀ g0,
    x ∈ add_dependencies suf g0 ↔ x ∈ g0 ∨ ∃ c, (c, x) ∈ suf ∧ c ∈ g0) as Hg.
  { intros pre suf. revert pre. induction suf as [|[c y] suf IH]; intros pre E g0.
    - simpl. set_solver.
    - unfold add_dependencies. cbn [fold_left fst snd].
      change (x ∈ add_dependencies suf (if decide (c ∈ g0) then {[y]} ∪ g0 else g0) ↔
              x ∈ g0 ∨ ∃ c0, (c0, x) ∈ (c, y) :: suf ∧ c0 ∈ g0).
      rewrite (IH (pre ++ [(c, y)])) by (by rewrite <- app_assoc).
      setoid_rewrite elem_of_cons. case_decide as Hc; [|set_solver].
      split; [|set_solver]. intros [|(c0 & Hin & [->%elem_of_singleton|]%elem_of_union)]; [set_solver| |set_solver].
      exfalso. rewrite Forall_forall in H. apply (H (c, y)); [rewrite E; set_solver|].
      simpl. apply list_elem_of_fmap. exists (y, x). split; [done|]. rewrite E. set_solver. }
  by apply (Hg []).
Qed.

Lemma dependencies_flat : Forall (λ cd, cd.2 ∉ dependencies.*1) dependencies.
Proof. apply (bool_decide_unpack _). vm_compute. exact I. Qed.

(** The targets of the table are not sources, nor is console access. *)
Lemma elem_of_normalize l x :
  x ∈ normalize_capabilities l ↔
  x ∈ l ∨ (∃ c, (c, x) ∈ dependencies ∧ c ∈ l)
  ∨ (l ≠ [] ∧ (x = CONSOLE_ACCESS ∨ x = CONFIGURATION_VIEW)).
Proof.
  unfold normalize_capabilities. rewrite elem_of_sorted_set, elem_of_with_console_access.
  rewrite add_dependencies_spec by apply dependencies_flat.
  rewrite elem_of_list_to_set.
  assert ((∃ c, (c, x) ∈ dependencies ∧ c ∈@{gset string} list_to_set l)
          ↔ ∃ c, (c, x) ∈ dependencies ∧ c ∈ l) as ->
    by (split; intros (c & ? & ?); exists c; by rewrite elem_of_list_to_set in *).
  assert (add_dependencies dependencies (list_to_set l) ≠ ∅ ↔ l ≠ []) as ->; [|tauto].
  split; [intros H ->; by apply H|].
  destruct l as [|y l]; [done|]. intros _ E.
  apply (not_elem_of_empty (C := gset string) y). rewrite <- E.
  apply add_dependencies_mono, elem_of_list_to_set. left.
Qed.

Lemma sorted_set_ext s t : (∀ x, x ∈ s ↔ x ∈ t) → sorted_set s = sorted_set t.
Proof. intros H. f_equal. by apply set_eq. Qed.

Lemma normalize_ext l1 l2 :
  (∀ x, x ∈ normalize_capabilities l1 ↔ x ∈ normalize_capabilities l2) →
  normalize_capabilities l1 = normalize_capabilities l2.
Proof.
  unfold normalize_capabilities. intros H. apply sorted_set_ext. intros x.
  by rewrite <- !elem_of_sorted_set.
Qed.

(** Neither console access nor any dependency target has dependencies. *)
Lemma dependency_target_final c x y :
  (c, x) ∈ dependencies → (x, y) ∈ dependencies → False.
Proof.
  intros H1 H2. pose proof dependencies_flat as F. rewrite Forall_forall in F.
  apply (F (c, x) H1). cbn [snd]. apply list_elem_of_fmap. by exists (x, y).
Qed.

Lemma console_access_final c x :
  c = CONSOLE_ACCESS ∨ c = CONFIGURATION_VIEW → (c, x) ∈ dependencies → False.
Proof.
  intros Hc Hin. assert (c ∈ dependencies.*1) as H by (apply list_elem_of_fmap; by exists (c, x)).
  revert H. destruct Hc as [-> | ->]; apply (bool_decide_unpack _); vm_compute; exact I.
Qed.

(** [normalize_capabilities] computes the closure of a role's capability list:
    it keeps every capability it was given, adds the read capability each write
    capability depends on, adds console access to any non-empty list and nothing
    else; and it is idempotent, so saving a normalised role again changes nothing. *)
Theorem normalize_capabilities_closure l :
  (∀ x, x ∈ normalize_capabilities l ↔
     x ∈ l ∨ (∃ c, (c, x) ∈ dependencies ∧ c ∈ l) ∨
     (l ≠ [] ∧ (x = CONSOLE_ACCESS ∨ x = CONFIGURATION_VIEW))) ∧
  normalize_capabilities (normalize_capabilities l) = normalize_capabilities l.
Proof.
  split; [apply elem_of_normalize|].
  apply normalize_ext. intros x.
  rewrite elem_of_normalize. split; [|by left].
  intros [?|[(c & Hd & Hc)|[Hne Hx]]]; [done| |].
  - apply elem_of_normalize in Hc as [Hc|[(c' & Hd' & _)|[_ Hc]]].
    + apply elem_of_normalize. right. left. eauto.
    + by destruct (dependency_target_final _ _ _ Hd' Hd).
    + by destruct (console_access_final _ _ Hc Hd).
  - apply elem_of_normalize. right. right. split; [|done]. intros ->. by apply Hne.
Qed.

(** *** Profiles *)

Definition granted_by (values : gmap string string) : gset string :=
  ⋃ ((λ area, list_to_set (pl_capabilities (selected_level values area))) <$> PERMISSION_AREAS).

Lemma selected_level_elem values area :
  area ∈ PERMISSION_AREAS → selected_level values area ∈ pa_levels area.
Proof.
  intros Ha. unfold selected_level. destruct (List.find _ _) as [l|] eqn:E.
  - apply find_elem in E as [E _]. done.
  - simpl. clear E. revert area Ha. apply Forall_forall. unfold PERMISSION_AREAS, _area.
    repeat constructor.
Qed.

Lemma elem_of_granted c values :
  c ∈ granted_by values ↔
  ∃ area, area ∈ PERMISSION_AREAS ∧ c ∈ pl_capabilities (selected_level values area).
Proof.
  unfold granted_by. rewrite elem_of_union_list. split.
  - intros (X & (a & -> & Ha)%list_elem_of_fmap & Hc). exists a. by rewrite elem_of_list_to_set in Hc.
  - intros (a & Ha & Hc). eexists. split; [apply list_elem_of_fmap; eauto|]. by apply elem_of_list_to_set.
Qed.


#[global] Instance permission_level_eq_dec : EqDecision permission_level.
Proof. solve_decision. Defined.
#[global] Instance permission_area_eq_dec : EqDecision permission_area.
Proof. solve_decision. Defined.

(** Facts about the static table, decided by evaluation. *)
Ltac by_table := apply (bool_decide_unpack _); vm_compute; exact I.

Lemma table_owner :
  Forall (λ a, Forall (λ l, Forall (λ c, c ≠ CREDENTIALS_VIEW_METADATA →
    Forall (λ a', Forall (λ l', c ∈ pl_capabilities l' → a' = a) (pa_levels a')) PERMISSION_AREAS)
    (pl_capabilities l)) (pa_levels a)) PERMISSION_AREAS.
Proof. by_table. Qed.

Lemma table_no_console :
  Forall (λ a, Forall (λ l, Forall (λ c, c ∉ [CONSOLE_ACCESS; CONFIGURATION_VIEW])
    (pl_capabilities l)) (pa_levels a)) PERMISSION_AREAS.
Proof. by_table. Qed.

(** A level is determined by its capabilities other than metadata reading,
    except that reading metadata is a level of its own for accounts. *)
Lemma table_separated :
  Forall (λ a, Forall (λ l, Forall (λ l',
    pa_field_name a ≠ "credentials_level" ∨ CREDENTIALS_VIEW_METADATA ∈ pl_capabilities l' →
    Forall (λ c, c ≠ CREDENTIALS_VIEW_METADATA → c ∈ pl_capabilities l') (pl_capabilities l) →
    Forall (λ c, c ∈ pl_capabilities l') (pl_capabilities l)) (pa_levels a)) (pa_levels a))
    PERMISSION_AREAS.
Proof. by_table. Qed.

Lemma table_reads_back :
  Forall (λ a, Forall (λ l, level_for_capabilities a (pl_capabilities l) = pl_value l) (pa_levels a))
    PERMISSION_AREAS.
Proof. by_table. Qed.

Lemma Forall_in {A} (P : A → Prop) l x : Forall P l → x ∈ l → P x.
Proof. rewrite Forall_forall. auto. Qed.

Lemma Forall_iff_in {A} (P Q : A → Prop) l :
  (∀ x, x ∈ l → P x ↔ Q x) → Forall P l ↔ Forall Q l.
Proof. rewrite !Forall_forall. naive_solver. Qed.

Lemma level_for_ext area l1 l2 :
  (∀ l, l ∈ pa_levels area →
     Forall (λ c, c ∈ l1) (pl_capabilities l) ↔ Forall (λ c, c ∈ l2) (pl_capabilities l)) →
  level_for_capabilities area l1 = level_for_capabilities area l2.
Proof.
  unfold level_for_capabilities. generalize "none".
  induction (pa_levels area) as [|l ls IH]; intros s H; [done|]. simpl.
  rewrite IH by (intros; apply H; by right). do 2 f_equal. specialize (H l ltac:(left)).
  assert (∀ caps, forallb (λ c, bool_decide (c ∈@{gset string} list_to_set caps)) (pl_capabilities l)
                  = bool_decide (Forall (λ c, c ∈ caps) (pl_capabilities l))) as E.
  { intros caps. apply eq_bool_prop_intro. rewrite !Is_true_true, bool_decide_eq_true.
    rewrite forallb_elem, Forall_forall.
    setoid_rewrite bool_decide_eq_true. by setoid_rewrite elem_of_list_to_set. }
  rewrite !E. by rewrite (bool_decide_ext _ _ H).
Qed.

Lemma elem_of_capabilities_from_levels values c :
  c ∈ capabilities_from_levels values ↔
  c ∈ granted_by values ∨
  (granted_by values ≠ ∅ ∧ (c = CONSOLE_ACCESS ∨ c = CONFIGURATION_VIEW)).
Proof. unfold capabilities_from_levels. by rewrite elem_of_sorted_set, elem_of_with_console_access. Qed.

(** A listed capability is granted by a profile exactly when some area selects
    a level that lists it. *)
Lemma listed_granted values area l c :
  area ∈ PERMISSION_AREAS → l ∈ pa_levels area → c ∈ pl_capabilities l →
  c ∈ capabilities_from_levels values ↔
  ∃ a, a ∈ PERMISSION_AREAS ∧ c ∈ pl_capabilities (selected_level values a).
Proof.
  intros Ha Hl Hc. rewrite elem_of_capabilities_from_levels, elem_of_granted.
  split; [|by left]. intros [?|[_ Hx]]; [done|]. exfalso.
  eapply (Forall_in _ _ _ (Forall_in _ _ _ (Forall_in _ _ _ table_no_console Ha) Hl) Hc).
  destruct Hx as [->| ->]; [left|right; left].
Qed.

(** Apart from reading metadata, a capability belongs to one area only. *)
Lemma listed_granted_own values area l c :
  area ∈ PERMISSION_AREAS → l ∈ pa_levels area → c ∈ pl_capabilities l →
  c ≠ CREDENTIALS_VIEW_METADATA →
  c ∈ capabilities_from_levels values ↔ c ∈ pl_capabilities (selected_level values area).
Proof.
  intros Ha Hl Hc Hne. rewrite listed_granted by done. split; [|eauto].
  intros (a & Ha' & Hin).
  pose proof (Forall_in _ _ _ (Forall_in _ _ _ (Forall_in _ _ _ table_owner Ha) Hl) Hc Hne) as H.
  simpl in H. pose proof (Forall_in _ _ _ (Forall_in _ _ _ H Ha')
    (selected_level_elem values a Ha') Hin) as ->. done.
Qed.

(** Where metadata reading cannot come from another area, the level read back is
    the level selected. *)
Lemma profile_reads_back values area :
  area ∈ PERMISSION_AREAS →
  pa_field_name area ≠ "credentials_level" ∨
  CREDENTIALS_VIEW_METADATA ∈ pl_capabilities (selected_level values area) →
  level_for_capabilities area (capabilities_from_levels values)
  = pl_value (selected_level values area).
Proof.
  intros Ha Hside. pose proof (selected_level_elem values area Ha) as Hs.
  rewrite <- (Forall_in _ _ _ (Forall_in _ _ _ table_reads_back Ha) Hs).
  apply level_for_ext. intros l Hl. split; intros H.
  - apply (Forall_in _ _ _ (Forall_in _ _ _ (Forall_in _ _ _ table_separated Ha) Hl) Hs Hside).
    apply Forall_forall. intros c Hc Hne.
    by apply (listed_granted_own values area l c), (Forall_in _ _ _ H Hc).
  - apply Forall_forall. intros c Hc. rewrite (listed_granted values area l c) by done.
    exists area. split; [done|]. by apply (Forall_in _ _ _ H).
Qed.

Definition credentials_area : permission_area := Eval vm_compute in
  nth 7 PERMISSION_AREAS (PermissionArea "" "" []).
Definition secret_operations_area : permission_area := Eval vm_compute in
  nth 8 PERMISSION_AREAS (PermissionArea "" "" []).

Lemma table_credentials_level :
  Forall (λ a, pa_field_name a = "credentials_level" → a = credentials_area) PERMISSION_AREAS.
Proof. by_table. Qed.

Lemma table_metadata :
  Forall (λ a, Forall (λ l, CREDENTIALS_VIEW_METADATA ∈ pl_capabilities l →
      a = credentials_area ∨ a = secret_operations_area) (pa_levels a)) PERMISSION_AREAS ∧
  Forall (λ l, CREDENTIALS_VIEW_METADATA ∈ pl_capabilities l ↔ pl_value l ≠ "none")
    (pa_levels secret_operations_area) ∧
  Forall (λ l, CREDENTIALS_VIEW_METADATA ∉ pl_capabilities l → l = NONE)
    (pa_levels credentials_area) ∧
  Forall (λ a, a ∈ PERMISSION_AREAS) [credentials_area; secret_operations_area].
Proof. by_table. Qed.

(** Whether metadata reading is granted while the accounts area is at "none". *)
Lemma metadata_granted values :
  CREDENTIALS_VIEW_METADATA ∉ pl_capabilities (selected_level values credentials_area) →
  CREDENTIALS_VIEW_METADATA ∈ capabilities_from_levels values ↔
  pl_value (selected_level values secret_operations_area) ≠ "none".
Proof.
  intros Hc. destruct table_metadata as (T1 & T2 & _ & T4).
  assert (credentials_area ∈ PERMISSION_AREAS) as Hca by (apply (Forall_in _ _ _ T4); left).
  assert (secret_operations_area ∈ PERMISSION_AREAS) as Hso by (apply (Forall_in _ _ _ T4); right; left).
  pose proof (Forall_in _ _ _ T2 (selected_level_elem values _ Hso)) as <-.
  rewrite (listed_granted values credentials_area
             (PermissionLevel "view" "Lecture des métadonnées" [CREDENTIALS_VIEW_METADATA]))
    by (done || (right; left) || left).
  split; [|eauto]. intros (a & Ha & Hin).
  destruct (Forall_in _ _ _ (Forall_in _ _ _ T1 Ha) (selected_level_elem values _ Ha) Hin)
    as [-> | ->]; done.
Qed.

(** Permission profiles round-trip: the levels an administrator selected are
    the levels read back from the stored capability list, in every area, with one
    exception the table forces: when privileged accounts are left at "none" while
    secret operations are granted, accounts read back as "view". *)
Theorem permission_profile_round_trip values area :
  area ∈ PERMISSION_AREAS →
  level_for_capabilities area (capabilities_from_levels values) =
  if bool_decide (area = credentials_area)
     && bool_decide (pl_value (selected_level values credentials_area) = "none")
     && bool_decide (pl_value (selected_level values secret_operations_area) ≠ "none")
  then "view" else pl_value (selected_level values area).
Proof.
  intros Ha. destruct table_metadata as (_ & _ & T3 & _).
  destruct (decide (area = credentials_area)) as [->|Hne]; [rewrite bool_decide_true by done|].
  - destruct (decide (CREDENTIALS_VIEW_METADATA ∈ pl_capabilities (selected_level values credentials_area)))
      as [Hv|Hv].
    + rewrite profile_reads_back by auto. rewrite (bool_decide_false (_ = "none")); [done|].
      intros E. revert Hv. pose proof (selected_level_elem values credentials_area Ha) as Hs.
      revert Hs E. generalize (selected_level values credentials_area). intros l Hs.
      repeat apply elem_of_cons in Hs as [->|Hs]; [..|by apply elem_of_nil in Hs];
        try discriminate. intros _ H. by apply elem_of_nil in H.
    + pose proof (metadata_granted values Hv) as Hg.
      pose proof (Forall_in _ _ _ T3 (selected_level_elem values _ Ha) Hv) as E.
      rewrite E in *. rewrite (bool_decide_true (pl_value NONE = _)) by done. simpl andb.
      rewrite (level_for_ext _ _ (if bool_decide (pl_value (selected_level values secret_operations_area) ≠ "none")
                                  then [CREDENTIALS_VIEW_METADATA] else [])).
      * by case_bool_decide.
      * intros l Hl. apply Forall_iff_in. intros c Hc.
        destruct (decide (c = CREDENTIALS_VIEW_METADATA)) as [->|Hcne].
        -- rewrite Hg. case_bool_decide; [|done]. split; [by left|done].
        -- rewrite (listed_granted_own values credentials_area l c), E by done. simpl.
           case_bool_decide; set_solver.
  - rewrite bool_decide_false by done. apply profile_reads_back; [done|]. left.
    intros E. apply Hne. by apply (Forall_in _ _ _ table_credentials_level).
Qed.

(** ** Concrete instances *)

Definition demo_role : role := Role "Operators" (Some "operators") [USERS_VIEW] false true "".
Definition demo_user : obj user :=
  Obj 7%N (User "alice" "alice@example.org" "Alice" true false false "system" "fr" "hash:secret").

Lemma user_has_capability_spec_witness :
  let d := empty_db <| roles := {[3%N := demo_role]} |>
             <| user_groups := {[5%N := UserGroup "ops" {[7%N]} {[3%N]} true ""]} |> in
  ∃ b w', user_has_capability (Authenticated demo_user) USERS_VIEW (demo_world d) = (Ok b, w') ∧
    w_db w' = d ∧
    (b = true ↔ ∃ r, roles d !! pk r = Some (val r) ∧ ro_enabled (val r) = true ∧
       USERS_VIEW ∈ ro_capabilities (val r) ∧ role_reaches d 7 (pk r) demo_now).
Proof. intros d. apply (user_has_capability_spec demo_user USERS_VIEW (demo_world d)). reflexivity. Defined.

Lemma permission_profile_round_trip_witness :
  level_for_capabilities credentials_area
    (capabilities_from_levels {["secret_operations_level" := "rotate"]}) = "view".
Proof.
  rewrite (permission_profile_round_trip {["secret_operations_level" := "rotate"]} credentials_area).
  - reflexivity.
  - do 7 right. left.
Defined.
