(* ===== verification/Ip.v ===== *)
(** * Internet addresses

    The part of Python's [ipaddress] module the access rules rely on
    (addresses, networks with [strict=False], membership, printing), and
    [pamolive/common/network.py]. *)

From S2P Require Import Prelude PyStr Models World.

Local Open Scope Z_scope.

(** ** Addresses *)

Inductive ip_addr :=
  | IPv4 (v : Z)
  | IPv6 (v : Z) (scope : option string).

#[global] Instance ip_addr_eq_dec : EqDecision ip_addr.
Proof. solve_decision. Defined.

Definition ip_version (a : ip_addr) : Z := match a with IPv4 _ => 4 | IPv6 _ _ => 6 end.
Definition ip_int (a : ip_addr) : Z := match a with IPv4 v => v | IPv6 v _ => v end.
Definition max_prefixlen (version : Z) : Z := if version =? 4 then 32 else 128.

(** A decimal octet: one to three ASCII digits, no leading zero, at most 255. *)
Definition parse_octet (l : list ascii) : option Z :=
  if forallb is_ascii_digit l && (1 <=? Z.of_nat (length l)) && (Z.of_nat (length l) <=? 3) then
    match l with
    | "0"%char :: _ :: _ => None
    | _ => match int_digits 0 l with
           | Some z => if z <=? 255 then Some z else None
           | None => None
           end
    end
  else None.

Definition parse_ipv4 (l : list ascii) : option Z :=
  match split_char "." l with
  | [a; b; c; d] =>
      a ← parse_octet a; b ← parse_octet b; c ← parse_octet c; d ← parse_octet d;
      Some (((a * 256 + b) * 256 + c) * 256 + d)
  | _ => None
  end.

Definition hex_value (c : ascii) : option Z :=
  let z := code c in
  if between 48 z 57 then Some (z - 48)
  else if between 97 z 102 then Some (z - 87)
  else if between 65 z 70 then Some (z - 55)
  else None.

Fixpoint hex_digits (acc : Z) (l : list ascii) : option Z :=
  match l with
  | [] => Some acc
  | c :: l' => d ← hex_value c; hex_digits (16 * acc + d) l'
  end.

Definition parse_hextet (l : list ascii) : option Z :=
  if (1 <=? Z.of_nat (length l)) && (Z.of_nat (length l) <=? 4) then hex_digits 0 l else None.

(** The hextets of a part list, most significant first, appended to [acc]. *)
Fixpoint hextets (acc : Z) (l : list (list ascii)) : option Z :=
  match l with
  | [] => Some acc
  | p :: l' => h ← parse_hextet p; hextets (acc * 65536 + h) l'
  end.

(** Indices of the empty parts strictly inside the list. *)
Definition inner_gaps (parts : list (list ascii)) : list nat :=
  List.filter (λ i, bool_decide (parts !! i = Some []))
    (seq 1 (length parts - 2)).

(** A trailing dotted quad stands for the last two hextets: the parsed value. *)
Definition split_tail (parts : list (list ascii)) : option (list (list ascii) * option Z) :=
  match last parts with
  | Some p =>
      if existsb (λ c, bool_decide (c = "."%char)) p then
        v ← parse_ipv4 p; Some (take (length parts - 1) parts, Some v)
      else Some (parts, None)
  | None => None
  end.

Definition hex_part (z : Z) : list ascii :=
  let digit d := if d <? 10 then chr (d + 48) else chr (d + 87) in
  if z <? 16 then [digit z]
  else if z <? 256 then [digit (z / 16); digit (z mod 16)]
  else if z <? 4096 then [digit (z / 256); digit (z / 16 mod 16); digit (z mod 16)]
  else [digit (z / 4096); digit (z / 256 mod 16); digit (z / 16 mod 16); digit (z mod 16)].

Definition parse_ipv6 (l : list ascii) : option Z :=
  let parts0 := split_char ":" l in
  if (length parts0 <? 3)%nat then None
  else
    '(parts1, quad) ← split_tail parts0;
    let parts := parts1 ++ match quad with
                           | Some v => [hex_part (v / 65536); hex_part (v mod 65536)]
                           | None => []
                           end in
    let n := length parts in
    if (9 <? n)%nat then None
    else match inner_gaps parts with
      | [] =>
          if (n =? 8)%nat && bool_decide (head parts ≠ Some []) && bool_decide (last parts ≠ Some [])
          then hextets 0 parts else None
      | [k] =>
          let first_empty := bool_decide (head parts = Some []) in
          let last_empty := bool_decide (last parts = Some []) in
          let hi := if first_empty then (k - 1)%nat else k in
          let lo := if last_empty then (n - k - 2)%nat else (n - k - 1)%nat in
          if (first_empty && negb (hi =? 0)%nat) || (last_empty && negb (lo =? 0)%nat)
             || (8 <=? hi + lo)%nat
          then None
          else
            h ← hextets 0 (take hi parts);
            hextets (h * 65536 ^ Z.of_nat (8 - (hi + lo))) (drop (n - lo) parts)
      | _ => None
      end.

(** [ipaddress.ip_address(s)], [None] for the [ValueError]. *)
Definition ip_address (s : string) : option ip_addr :=
  let l := chars s in
  if existsb (λ c, bool_decide (c = "/"%char)) l then None
  else match parse_ipv4 l with
  | Some v => Some (IPv4 v)
  | None =>
      let '(addr, sep, scope) := partition_char "%" l in
      if sep && (bool_decide (scope = []) || existsb (λ c, bool_decide (c = "%"%char)) scope)
      then None
      else v ← parse_ipv6 addr; Some (IPv6 v (if sep then Some (of_chars scope) else None))
  end.

(** ** Networks *)

Record ip_network := IPNetwork { net_version : Z; net_address : Z; net_prefixlen : Z }.

Definition netmask (width p : Z) : Z := Z.shiftl (Z.ones p) (width - p).

(** A decimal prefix length. *)
Definition prefix_from_string (width : Z) (l : list ascii) : option Z :=
  if bool_decide (l ≠ []) && forallb is_ascii_digit l then
    p ← int_digits 0 l; if p <=? width then Some p else None
  else None.

(** A dotted netmask, or a dotted host mask. *)
Definition prefix_from_mask (l : list ascii) : option Z :=
  v ← parse_ipv4 l;
  let lens := Z.of_nat <$> seq 0 33 in
  match List.find (λ p, v =? netmask 32 p) lens with
  | Some p => Some p
  | None => List.find (λ p, Z.lxor v (Z.ones 32) =? netmask 32 p) lens
  end.

Definition prefix_of (version : Z) (l : list ascii) : option Z :=
  if version =? 4 then
    match prefix_from_string 32 l with Some p => Some p | None => prefix_from_mask l end
  else prefix_from_string 128 l.

(** [ipaddress.ip_network(s, strict=False)], [None] for the [ValueError]. *)
Definition ip_network_of (s : string) : option ip_network :=
  match split_char "/" (chars s) with
  | addr :: rest =>
      a ← ip_address (of_chars addr);
      let width := max_prefixlen (ip_version a) in
      p ← match rest with
          | [] => Some width
          | [m] => prefix_of (ip_version a) m
          | _ => None
          end;
      Some (IPNetwork (ip_version a) (Z.land (ip_int a) (netmask width p)) p)
  | [] => None
  end.

(** [address in network] *)
Definition ip_in_network (a : ip_addr) (n : ip_network) : bool :=
  (ip_version a =? net_version n) &&
  (Z.land (ip_int a) (netmask (max_prefixlen (net_version n)) (net_prefixlen n)) =? net_address n).

(** ** Printing *)

Definition str_ipv4 (v : Z) : string :=
  join "." (str_int <$> [v / 16777216; v / 65536 mod 256; v / 256 mod 256; v mod 256]).

(** The eight hextets of an address. *)
Definition hextets_of (v : Z) : list Z :=
  (λ i, Z.shiftr v (16 * (7 - Z.of_nat i)) mod 65536) <$> seq 0 8.

(** Length of the run of zeros that starts the list. *)
Fixpoint zero_run (l : list Z) : nat :=
  match l with 0 :: l' => S (zero_run l') | _ => 0 end.

(** Start and length of the first longest run of zeros. *)
Fixpoint best_run (i : nat) (l : list Z) (best : nat * nat) : nat * nat :=
  match l with
  | [] => best
  | _ :: l' => best_run (S i) l' (if (best.2 <? zero_run l)%nat then (i, zero_run l) else best)
  end.

Definition str_ipv6 (v : Z) : string :=
  let hs := hextets_of v in
  let text l := join ":" ((λ h, of_chars (hex_part h)) <$> l) in
  let '(start, n) := best_run 0 hs (0%nat, 0%nat) in
  if (n <? 2)%nat then text hs
  else text (take start hs) +:+ "::" +:+ text (drop (start + n) hs).

(** [str(address)] *)
Definition str_ip (a : ip_addr) : string :=
  match a with
  | IPv4 v => str_ipv4 v
  | IPv6 v None => str_ipv6 v
  | IPv6 v (Some sc) => str_ipv6 v +:+ "%" +:+ sc
  end.

(** ** The client address of a request *)

(** What the handlers read of [request.META]. *)
Record request_meta := RequestMeta {
  HTTP_X_FORWARDED_FOR : option string;
  REMOTE_ADDR : option string;
}.

Definition _valid_ip (value : string) : option string := str_ip <$> ip_address value.

(** [forwarded.split(",", 1)[0].strip()] *)
Definition first_hop (forwarded : string) : string :=
  strip (of_chars (partition_char "," (chars forwarded)).1.1).

Definition request_client_ip {PF : Platform} (m : request_meta) : option string :=
  let direct := _valid_ip (default "" (REMOTE_ADDR m)) in
  if PAMOLIVE_TRUST_PROXY_HEADERS conf then
    let forwarded := default "" (HTTP_X_FORWARDED_FOR m) in
    if decide (forwarded = "") then direct
    else match _valid_ip (first_hop forwarded) with Some c => Some c | None => direct end
  else direct.

(** ** Facts *)

Example ip_address_ex :
  ip_address "192.0.2.10" = Some (IPv4 3221225994) ∧ ip_address "192.0.2.010" = None ∧
  ip_address "256.1.1.1" = None ∧ ip_address "10.0.0.0/8" = None ∧
  ip_address "2001:db8::1" = Some (IPv6 42540766411282592856903984951653826561 None) ∧
  ip_address "::" = Some (IPv6 0 None) ∧ ip_address "1::2::3" = None ∧
  ip_address "::ffff:192.0.2.10" = Some (IPv6 281473902969354 None) ∧
  ip_address "fe80::1%eth0" = Some (IPv6 338288524927261089654018896841347694593 (Some "eth0")) ∧
  ip_address "fe80::1%" = None ∧ ip_address "12345::" = None ∧ ip_address "1:2:3:4:5:6:7" = None.
Proof. vm_compute. repeat split. Qed.

Example ip_network_ex :
  ip_network_of "192.0.2.77/24" = Some (IPNetwork 4 3221225984 24) ∧
  ip_network_of "10.0.0.0/255.0.0.0" = Some (IPNetwork 4 167772160 8) ∧
  ip_network_of "10.0.0.0/0.255.255.255" = Some (IPNetwork 4 167772160 8) ∧
  ip_network_of "10.0.0.0/33" = None ∧ ip_network_of "10.0.0.1" = Some (IPNetwork 4 167772161 32) ∧
  ip_network_of "2001:db8::1/32" = Some (IPNetwork 6 42540766411282592856903984951653826560 32).
Proof. vm_compute. repeat split. Qed.

Example str_ip_ex :
  _valid_ip "2001:0DB8:0:0:0:0:0:1" = Some "2001:db8::1" ∧ _valid_ip "0:0:1::" = Some "0:0:1::" ∧
  _valid_ip "::" = Some "::" ∧ _valid_ip "1:0:0:2:0:0:0:3" = Some "1:0:0:2::3" ∧
  _valid_ip "198.51.100.7" = Some "198.51.100.7" ∧ _valid_ip "evil" = None.
Proof. vm_compute. repeat split. Qed.

(** Masking keeps the bits from [width - p] up, i.e. the first [p] bits. *)
Lemma land_netmask width p v :
  0 <= p <= width → 0 <= v < 2 ^ width →
  Z.land v (netmask width p) = Z.shiftl (Z.shiftr v (width - p)) (width - p).
Proof.
  intros Hp Hv. apply Z.bits_inj'. intros n Hn. unfold netmask.
  rewrite Z.land_spec. rewrite !Z.shiftl_spec by lia.
  destruct (decide (n < width - p)) as [Hlt|Hge].
  - by rewrite !(Z.testbit_neg_r _ (n - (width - p))), andb_false_r by lia.
  - rewrite Z.shiftr_spec by lia. replace (n - (width - p) + (width - p)) with n by lia.
    destruct (decide (n < width)) as [Hn2|Hn2].
    + rewrite Z.ones_spec_low by lia. apply andb_true_r.
    + destruct (decide (v = 0)) as [->|]; [by rewrite Z.bits_0|].
      rewrite (Z.bits_above_log2 v n), andb_false_l; [done|lia|].
      apply Z.lt_le_trans with width; [|lia]. apply Z.log2_lt_pow2; lia.
Qed.

(** Two addresses agree under a mask exactly when they have the same prefix. *)
Lemma same_prefix width p v w :
  0 <= p <= width → 0 <= v < 2 ^ width → 0 <= w < 2 ^ width →
  Z.land v (netmask width p) = Z.land w (netmask width p) ↔
  v / 2 ^ (width - p) = w / 2 ^ (width - p).
Proof.
  intros Hp Hv Hw. rewrite !land_netmask by done.
  rewrite <- !Z.shiftr_div_pow2 by lia. split; [|by intros ->].
  intros H. apply (f_equal (λ x, Z.shiftr x (width - p))) in H.
  by rewrite !Z.shiftr_shiftl_l, !Z.sub_diag, !Z.shiftl_0_r in H by lia.
Qed.

(** *** Parsed values are in range *)

Lemma digit_value_nonneg c : is_ascii_digit c = true → 0 <= digit_value c.
Proof. unfold is_ascii_digit, between, digit_value. intros. breflect. lia. Qed.

Lemma int_digits_nonneg l acc z :
  forallb is_ascii_digit l = true → 0 <= acc → int_digits acc l = Some z → 0 <= z.
Proof.
  revert acc. induction l as [|c l IH]; intros acc; simpl; [intros; by simplify_eq|].
  intros [Hc Hl]%andb_true_iff Hacc. rewrite Hc. apply IH; [done|].
  pose proof (digit_value_nonneg c Hc). lia.
Qed.

Lemma parse_octet_range l z : parse_octet l = Some z → 0 <= z < 256.
Proof.
  unfold parse_octet. case_match eqn:E; [|done]. breflect. intros Hx.
  assert (int_digits 0 l = Some z ∧ z <= 255) as [Hi ?].
  { repeat case_match; simplify_eq; breflect; done. }
  apply int_digits_nonneg in Hi; [lia|done|lia].
Qed.

Lemma parse_ipv4_range l v : parse_ipv4 l = Some v → 0 <= v < 2 ^ 32.
Proof.
  unfold parse_ipv4. repeat case_match; try done. intros Hx.
  repeat (apply bind_Some in Hx as (? & ?%parse_octet_range & Hx)). simplify_eq. lia.
Qed.

Lemma hex_value_range c d : hex_value c = Some d → 0 <= d < 16.
Proof. unfold hex_value, between. repeat case_match; intros; simplify_eq; breflect; lia. Qed.

Lemma hex_digits_range l acc z :
  0 <= acc → hex_digits acc l = Some z → 0 <= z < (acc + 1) * 16 ^ Z.of_nat (length l).
Proof.
  revert acc. induction l as [|c l IH]; intros acc Ha; simpl length; cbn [hex_digits].
  - intros [= <-]. simpl. lia.
  - intros (d & Hd%hex_value_range & H)%bind_Some. apply IH in H; [|lia].
    rewrite Nat2Z.inj_succ, Z.pow_succ_r by lia.
    assert (0 < 16 ^ Z.of_nat (length l)) by (apply Z.pow_pos_nonneg; lia). nia.
Qed.

Lemma parse_hextet_range l h : parse_hextet l = Some h → 0 <= h < 65536.
Proof.
  unfold parse_hextet. case_match eqn:E; [|done]. breflect. intros Hx%hex_digits_range; [|lia].
  enough (16 ^ Z.of_nat (length l) <= 16 ^ 4) by lia. apply Z.pow_le_mono_r; lia.
Qed.

Lemma hextets_range l acc z :
  0 <= acc → hextets acc l = Some z → 0 <= z < (acc + 1) * 65536 ^ Z.of_nat (length l).
Proof.
  revert acc. induction l as [|p l IH]; intros acc Ha; simpl length; cbn [hextets].
  - intros [= <-]. simpl. lia.
  - intros (h & Hh%parse_hextet_range & H)%bind_Some. apply IH in H; [|lia].
    rewrite Nat2Z.inj_succ, Z.pow_succ_r by lia.
    assert (0 < 65536 ^ Z.of_nat (length l)) by (apply Z.pow_pos_nonneg; lia). nia.
Qed.

Lemma pow_hextets n : 65536 ^ n = 2 ^ (16 * n).
Proof. replace 65536 with (2 ^ 16) by done. destruct n; [done| |done]. by rewrite <- Z.pow_mul_r. Qed.

Lemma parse_ipv6_range l v : parse_ipv6 l = Some v → 0 <= v < 2 ^ 128.
Proof.
  unfold parse_ipv6. destruct (_ <? 3)%nat; [done|]. intros ([parts1 quad] & _ & H)%bind_Some.
  revert H. generalize (parts1 ++ match quad with
    | Some v => [hex_part (v / 65536); hex_part (v mod 65536)] | None => [] end). intros parts H.
  destruct (9 <? length parts)%nat; [done|].
  destruct (inner_gaps parts) as [|k [|]]; [..|done].
  - destruct (Nat.eqb_spec (length parts) 8) as [E|]; simpl in H; [|done].
    case_match; [|done]. apply hextets_range in H; [|lia]. rewrite E in H. simpl in H. lia.
  - revert H. set (hi := if bool_decide (head parts = Some []) then _ else _).
    set (lo := if bool_decide (last parts = Some []) then _ else _). case_match eqn:E; [done|].
    apply orb_false_iff in E as [_ E]. apply Nat.leb_gt in E.
    intros (h & Hh & H)%bind_Some.
    apply hextets_range in Hh; [|lia]. apply hextets_range in H; [|nia].
    rewrite pow_hextets in Hh, H. rewrite length_take in Hh. rewrite length_drop in H.
    rewrite pow_hextets in H.
    assert (2 ^ (16 * Z.of_nat (hi `min` length parts)) <= 2 ^ (16 * Z.of_nat hi))
      by (apply Z.pow_le_mono_r; lia).
    assert (2 ^ (16 * Z.of_nat (length parts - (length parts - lo))) <= 2 ^ (16 * Z.of_nat lo))
      by (apply Z.pow_le_mono_r; lia).
    assert (2 ^ 128 = 2 ^ (16 * Z.of_nat hi) * 2 ^ (16 * Z.of_nat (8 - (hi + lo)))
                      * 2 ^ (16 * Z.of_nat lo)) as ->
      by (rewrite <- !Z.pow_add_r by lia; f_equal; lia).
    assert (0 < 2 ^ (16 * Z.of_nat (8 - (hi + lo)))) by (apply Z.pow_pos_nonneg; lia).
    split; [lia|]. eapply Z.lt_le_trans; [apply H|].
    apply Z.mul_le_mono_nonneg; [nia| |apply Z.pow_nonneg; lia|done].
    etrans; [|apply Z.mul_le_mono_nonneg_r with (n := h + 1); lia]. nia.
Qed.

Lemma ip_address_range s a :
  ip_address s = Some a → 0 <= ip_int a < 2 ^ max_prefixlen (ip_version a).
Proof.
  unfold ip_address. case_match; [done|]. destruct (parse_ipv4 _) eqn:E.
  - intros [= <-]. by apply parse_ipv4_range in E.
  - case_match. case_match. case_match; [done|]. intros (v & Hv & [= <-])%bind_Some.
    by apply parse_ipv6_range in Hv.
Qed.

Lemma prefix_of_range version l p :
  prefix_of version l = Some p → 0 <= p <= max_prefixlen version.
Proof.
  assert (∀ w, prefix_from_string w l = Some p → 0 <= p <= w) as Hs.
  { intros w. unfold prefix_from_string. case_match eqn:E; [|done].
    intros (q & Hq & H)%bind_Some. case_match; simplify_eq. breflect.
    apply int_digits_nonneg in Hq; [lia|done|lia]. }
  assert (∀ f, List.find f (Z.of_nat <$> seq 0 33) = Some p → 0 <= p <= 32) as Hf.
  { intros f [H _]%find_elem. apply list_elem_of_fmap in H as (n & -> & Hn%elem_of_seq). lia. }
  unfold prefix_of, max_prefixlen. destruct (version =? 4); [|by apply Hs].
  destruct (prefix_from_string 32 l) eqn:E; [intros [= ->]; by apply Hs|].
  unfold prefix_from_mask. intros (v & _ & H)%bind_Some.
  destruct (List.find (λ p0, v =? netmask 32 p0) _) eqn:E2; simplify_eq; eauto.
Qed.

Lemma ip_network_inv s n :
  ip_network_of s = Some n → ∃ a,
    ip_version a = net_version n ∧ 0 <= ip_int a < 2 ^ max_prefixlen (net_version n) ∧
    0 <= net_prefixlen n <= max_prefixlen (net_version n) ∧
    net_address n = Z.land (ip_int a) (netmask (max_prefixlen (net_version n)) (net_prefixlen n)).
Proof.
  unfold ip_network_of. destruct (split_char _ _); [done|]. intros (a & Ha & H)%bind_Some.
  apply bind_Some in H as (p & Hp & [= <-]). exists a. simpl.
  split; [done|]. split; [by apply ip_address_range in Ha|]. split; [|done].
  repeat case_match; simplify_eq; [|by apply prefix_of_range in Hp].
  unfold max_prefixlen. case_match; lia.
Qed.
