(* ===== verification/Policies.v ===== *)
(** * Access policies ([pamolive/policies])

    Which policies apply to a user, when they are current (validity dates, time
    frames, legacy weekly schedule), from which addresses, and which targets,
    accounts and actions they cover. *)

From S2P Require Import Prelude PyStr PyFloat Json Crypto PyTime Models World Ip.

Local Open Scope Z_scope.

(** ** Source addresses *)

Definition _source_is_allowed (policy : access_policy) (source_ip : option string) : bool :=
  if decide (p_source_cidrs policy = []) then true
  else match source_ip with
  | None => false
  | Some ip =>
      if decide (ip = "") then false
      else match ip_address ip, mapM ip_network_of (p_source_cidrs policy) with
      | Some address, Some networks => existsb (ip_in_network address) networks
      | _, _ => false
      end
  end.

(** ** Schedules *)

(** [start] and [end] are times of day; a missing bound is open. *)
Definition _clock_is_current (current_time : Z) (start end_ : option Z) : bool :=
  match start, end_ with
  | Some s, Some e =>
      if s <=? e then (s <=? current_time) && (current_time <? e)
      else (s <=? current_time) || (current_time <? e)
  | Some s, None => s <=? current_time
  | None, Some e => current_time <? e
  | None, None => true
  end.

(** [int(day)] of a JSON value. *)
Definition int_of_json (j : json) : outcome Z :=
  match j with
  | JInt z => Ok z
  | JBool b => Ok (if b then 1 else 0)
  | JStr s => match py_int s with Some z => Ok z | None => Raise (ValueError "int") end
  | JFloat f => match truncate (float_value f) with
                | Some z => Ok z
                | None => Raise (if is_nan (float_value f) then ValueError "int" else OtherError "OverflowError")
                end
  | _ => Raise (TypeError "int")
  end.

(** [{int(day) for day in days}] *)
Fixpoint weekday_set (days : list json) : outcome (list Z) :=
  match days with
  | [] => Ok []
  | j :: l =>
      match int_of_json j with
      | Raise e => Raise e
      | Ok z => match weekday_set l with Ok zs => Ok (z :: zs) | Raise e => Raise e end
      end
  end.

(** The weekday test: an empty list admits every day. *)
Definition weekday_allowed (days : list json) (local_at : Z) : outcome bool :=
  if decide (days = []) then Ok true
  else match weekday_set days with
  | Ok zs => Ok (bool_decide (weekday local_at ∈ zs))
  | Raise e => Raise e
  end.

Section schedule.
Context {PF : Platform}.

(** [timezone.localtime(t)] as wall-clock time.  Two local datetimes of the same
    zone are compared by wall clock, as Python does. *)
Definition localtime (t : Z) : Z := t + utc_offset t.

(** Local wall-clock time lies in the validity dates of a time frame. *)
Definition frame_dates_allow (frame : time_frame) (local_at : Z) : bool :=
  match tf_valid_from frame with Some f => localtime f <=? local_at | None => true end &&
  match tf_valid_until frame with Some u => local_at <? localtime u | None => true end.

Definition _time_frame_is_current (frame : time_frame) (local_at : Z) : outcome bool :=
  if negb (frame_dates_allow frame local_at) then Ok false
  else match weekday_allowed (tf_weekdays frame) local_at with
  | Ok true => Ok (_clock_is_current (time_of_day local_at) (tf_start_time frame) (tf_end_time frame))
  | r => r
  end.

Definition _legacy_schedule_is_current (policy : access_policy) (local_at : Z) : outcome bool :=
  match weekday_allowed (p_weekdays policy) local_at with
  | Ok true => Ok (_clock_is_current (time_of_day local_at) (p_access_start_time policy)
                     (p_access_end_time policy))
  | r => r
  end.

(** [any(f(x) for x in l)] with a predicate that may raise. *)
Fixpoint any_outcome {A} (f : A → outcome bool) (l : list A) : outcome bool :=
  match l with
  | [] => Ok false
  | x :: l' => match f x with Ok false => any_outcome f l' | r => r end
  end.

(** [policy.time_frames.filter(enabled=True)] *)
Definition enabled_frames (d : db) (policy : access_policy) : list (obj time_frame) :=
  objects_filter (λ f, tf_enabled (val f) && bool_decide (pk f ∈ p_time_frames policy))
    (time_frames d).

Definition validity_dates_allow (policy : access_policy) (t : Z) : bool :=
  match p_valid_from policy with Some f => f <=? t | None => true end &&
  match p_valid_until policy with Some u => t <? u | None => true end.

(** The body of [policy_is_current] at a known instant. *)
Definition policy_current_at (d : db) (policy : access_policy) (t : Z)
    (source_ip : option string) : outcome bool :=
  if negb (validity_dates_allow policy t) then Ok false
  else
    let local_at := localtime t in
    let frames := enabled_frames d policy in
    match (if decide (frames = []) then _legacy_schedule_is_current policy local_at
           else any_outcome (λ f, _time_frame_is_current (val f) local_at) frames) with
    | Ok true => Ok (_source_is_allowed policy source_ip)
    | r => r
    end.

(** [at or timezone.now()] *)
Definition at_or_now (at_ : option Z) : M Z :=
  match at_ with Some t => mret t | None => now end.

Definition policy_is_current (policy : obj access_policy) (at_ : option Z)
    (source_ip : option string) : M bool :=
  t ← at_or_now at_;
  d ← asks (λ d, d);
  of_outcome (policy_current_at d (val policy) t source_ip).

(** ** Policies of a user *)

(** The user belongs to one of the given groups, which is enabled. *)
Definition in_enabled_group (d : db) (groups : gset id) (u : id) : bool :=
  exists_row (λ g, ug_enabled (val g) && bool_decide (pk g ∈ groups)
                   && bool_decide (u ∈ ug_users (val g))) (user_groups d).

Definition policies_for_user (d : db) (u : principal) : list (obj access_policy) :=
  match u with
  | AnonymousUser => []
  | Authenticated u =>
      objects_filter (λ p, p_enabled (val p) && in_enabled_group d (p_user_groups (val p)) (pk u))
        (policies d)
  end.

(** [AccessPolicy.allows] *)
Definition allows (policy : access_policy) (action : string) : bool :=
  bool_decide (action ∈ p_actions policy).

(** The keys of the policies that allow the action and are current, each one
    checked at the instant of its own test. *)
Definition current_policy_ids (l : list (obj access_policy)) (action : string)
    (source_ip : option string) (at_ : option Z) : M (list id) :=
  fold_m l [] (λ ids p,
    if allows (val p) action then
      ok ← policy_is_current p at_ source_ip;
      mret (if ok : bool then ids ++ [pk p] else ids)
    else mret ids).

Definition policies_allowing (u : principal) (action : string) (source_ip : option string)
    (at_ : option Z) : M (list (obj access_policy)) :=
  l ← asks (λ d, policies_for_user d u);
  ids ← current_policy_ids l action source_ip at_;
  asks (λ d, objects_filter (λ p, bool_decide (pk p ∈ ids)) (policies d)).

(** ** Coverage of targets and accounts *)

Definition protocol_allowed (policy : access_policy) (p : protocol) : bool :=
  bool_decide (p_protocols policy = []) || bool_decide (protocol_str p ∈ p_protocols policy).

(** [credential.target.protocol] follows the foreign key of the account, which
    the database keeps valid. *)
Definition policy_allows_credential (d : db) (policy : access_policy) (cred : obj credential) : bool :=
  match targets d !! c_target (val cred) with
  | Some t => protocol_allowed policy (t_protocol t)
  | None => bool_decide (p_protocols policy = [])
  end &&
  (bool_decide (p_credentials policy = ∅) || bool_decide (pk cred ∈ p_credentials policy)).

(** The target is one of the policy's, or in one of its enabled groups. *)
Definition target_covered (d : db) (policy : access_policy) (target : id) : bool :=
  (bool_decide (target ∈ p_targets policy) && bool_decide (is_Some (targets d !! target)))
  || exists_row (λ g, tg_enabled (val g) && bool_decide (pk g ∈ p_target_groups policy)
                      && bool_decide (target ∈ tg_targets (val g))) (target_groups d).

Definition credential_allows_action (u : principal) (cred : obj credential) (action : string)
    (source_ip : option string) (at_ : option Z) : M bool :=
  l ← policies_allowing u action source_ip at_;
  d ← asks (λ d, d);
  mret (existsb (λ p, target_covered d (val p) (c_target (val cred))
                      && policy_allows_credential d (val p) cred) l).

Definition targets_for_policies (d : db) (l : list (obj access_policy)) : list (obj target) :=
  objects_filter (λ t, t_enabled (val t) &&
    existsb (λ p, target_covered d (val p) (pk t)) l) (targets d).

Definition target_groups_for_user (d : db) (u : principal) : list (obj target_group) :=
  let l := policies_for_user d u in
  objects_filter (λ g, tg_enabled (val g) &&
    existsb (λ p, bool_decide (pk g ∈ p_target_groups (val p))) l) (target_groups d).

Definition actions_for_target (u : principal) (t : obj target) (source_ip : option string)
    (at_ : option Z) : M (gset string) :=
  l ← asks (λ d, policies_for_user d u);
  fold_m l ∅ (λ actions p,
    ok ← policy_is_current p at_ source_ip;
    d ← asks (λ d, d);
    mret (if (ok : bool) && protocol_allowed (val p) (t_protocol (val t))
             && target_covered d (val p) (pk t)
          then actions ∪ list_to_set (p_actions (val p)) else actions)).
End schedule.

(** ** Specification *)

(** *** Daily windows *)

(** A daily window with both bounds is a half-open arc of the clock face: the
    window is open exactly when going round the clock from its start one meets the
    current time before its end.  This covers windows that cross midnight; a
    window whose bounds coincide is never open. *)
Theorem clock_window_is_arc t s e :
  0 <= t < day → 0 <= s < day → 0 <= e < day →
  _clock_is_current t (Some s) (Some e) = true ↔ (t - s) mod day < (e - s) mod day.
Proof.
  intros Ht Hs He. simpl.
  assert (∀ x, - day < x < day → x mod day = if decide (0 <= x) then x else x + day) as E.
  { intros x Hx. case_decide; [apply Z.mod_small; lia|].
    rewrite <- (Z.mod_add x 1 day) by done. apply Z.mod_small. lia. }
  rewrite !E by lia.
  destruct (Z.leb_spec s e).
  - rewrite andb_true_iff, Z.leb_le, Z.ltb_lt. repeat case_decide; lia.
  - rewrite orb_true_iff, Z.leb_le, Z.ltb_lt. repeat case_decide; lia.
Qed.

Lemma clock_window_is_arc_witness :
  _clock_is_current (hours 23) (Some (hours 22)) (Some (hours 6)) = true ↔
  (hours 23 - hours 22) mod day < (hours 6 - hours 22) mod day.
Proof. apply (clock_window_is_arc (hours 23) (hours 22) (hours 6)); vm_compute; split; congruence. Defined.

(** *** Source addresses *)

(** The address has the same version and the same leading bits as the network. *)
Definition prefix_agrees (a : ip_addr) (n : ip_network) : Prop :=
  let shift := max_prefixlen (net_version n) - net_prefixlen n in
  ip_version a = net_version n ∧ ip_int a / 2 ^ shift = net_address n / 2 ^ shift.

Lemma ip_in_network_spec a s n ip :
  ip_address ip = Some a → ip_network_of s = Some n →
  ip_in_network a n = true ↔ prefix_agrees a n.
Proof.
  intros Ha Hn. apply ip_address_range in Ha.
  apply ip_network_inv in Hn as (b & Hv & Hb & Hp & Hn).
  unfold ip_in_network, prefix_agrees. rewrite andb_true_iff, !Z.eqb_eq.
  split; intros [Ev E]; (split; [done|]); rewrite Ev in Ha.
  - rewrite Hn in E |- *. apply same_prefix in E; [|done..]. rewrite E.
    rewrite land_netmask by done. rewrite <- !Z.shiftr_div_pow2 by lia.
    by rewrite Z.shiftr_shiftl_l, Z.sub_diag, Z.shiftl_0_r by lia.
  - rewrite Hn. apply same_prefix; [done..|]. rewrite E, Hn.
    rewrite land_netmask by done. rewrite <- !Z.shiftr_div_pow2 by lia.
    by rewrite Z.shiftr_shiftl_l, Z.sub_diag, Z.shiftl_0_r by lia.
Qed.

(** The source restriction fails closed and decides prefix membership.  A
    policy without networks accepts any client.  A policy with networks accepts a
    client exactly when the client address is known and parses, every configured
    network parses, and the address agrees with some network on the network's
    leading bits, in the same address family. *)
Theorem source_is_allowed_spec policy source_ip :
  _source_is_allowed policy source_ip = true ↔
  p_source_cidrs policy = [] ∨
  ∃ ip a, source_ip = Some ip ∧ ip_address ip = Some a ∧
    (∀ c, c ∈ p_source_cidrs policy → is_Some (ip_network_of c)) ∧
    ∃ c n, c ∈ p_source_cidrs policy ∧ ip_network_of c = Some n ∧ prefix_agrees a n.
Proof.
  unfold _source_is_allowed. case_decide as Hc; [naive_solver|].
  destruct source_ip as [ip|]; [|naive_solver].
  assert (ip_address "" = None) as He by reflexivity.
  case_decide as Hip; [subst; naive_solver|].
  destruct (ip_address ip) as [a|] eqn:Ea; [|naive_solver].
  destruct (mapM ip_network_of (p_source_cidrs policy)) as [ns|] eqn:Em.
  - apply mapM_Some in Em. rewrite existsb_elem. split.
    + intros (n & Hn & Hin). right. exists ip, a. split_and!; try done.
      * intros c Hcin. apply list_elem_of_lookup in Hcin as [i Hi].
        destruct (Forall2_lookup_l _ _ _ _ _ Em Hi) as (n' & _ & Hn'). by eexists.
      * apply list_elem_of_lookup in Hn as [i Hi].
        destruct (Forall2_lookup_r _ _ _ _ _ Em Hi) as (c & Hci & Hcn). exists c, n.
        split_and!; [by eapply list_elem_of_lookup_2|done|by eapply ip_in_network_spec].
    + intros [?|(ip' & a' & [= <-] & Ha & _ & c & n & Hcin & Hcn & Hpre)]; [done|].
      rewrite Ea in Ha. injection Ha as <-.
      apply list_elem_of_lookup in Hcin as [i Hi].
      destruct (Forall2_lookup_l _ _ _ _ _ Em Hi) as (n' & Hni & Hn').
      rewrite Hcn in Hn'. injection Hn' as <-. exists n.
      split; [by eapply list_elem_of_lookup_2|by eapply ip_in_network_spec].
  - split; [done|]. intros [?|(ip' & a' & [= <-] & Ha & Hall & _)]; [done|].
    assert (is_Some (mapM ip_network_of (p_source_cidrs policy))) as [? ?]; [|congruence].
    apply mapM_is_Some. apply Forall_forall. done.
Qed.

(** *** What it means for a policy to grant an action *)

Section spec.
Context {PF : Platform}.

Definition weekday_ok (days : list json) (local_at : Z) : Prop :=
  days = [] ∨ ∃ j, j ∈ days ∧ int_of_json j = Ok (weekday local_at).

(** The schedule is open: some enabled time frame of the policy is, or the
    policy has no enabled time frame and its own weekly schedule is. *)
Definition schedule_open (d : db) (p : access_policy) (t : Z) : Prop :=
  let l := localtime t in
  (∃ f, f ∈ enabled_frames d p ∧ frame_dates_allow (val f) l = true ∧
        weekday_ok (tf_weekdays (val f)) l ∧
        _clock_is_current (time_of_day l) (tf_start_time (val f)) (tf_end_time (val f)) = true) ∨
  (enabled_frames d p = [] ∧ weekday_ok (p_weekdays p) l ∧
   _clock_is_current (time_of_day l) (p_access_start_time p) (p_access_end_time p) = true).

Definition policy_current (d : db) (p : access_policy) (t : Z) (ip : option string) : Prop :=
  (∀ f, p_valid_from p = Some f → f <= t) ∧ (∀ u, p_valid_until p = Some u → t < u) ∧
  schedule_open d p t ∧ _source_is_allowed p ip = true.

(** The user holds the policy: it is enabled and one of its groups, itself
    enabled, has the user as a member. *)
Definition holds_policy (d : db) (u : id) (p : obj access_policy) : Prop :=
  policies d !! pk p = Some (val p) ∧ p_enabled (val p) = true ∧
  ∃ g, user_groups d !! pk g = Some (val g) ∧ ug_enabled (val g) = true ∧
       pk g ∈ p_user_groups (val p) ∧ u ∈ ug_users (val g).

Definition grants (d : db) (u : id) (p : obj access_policy) (action : string) (t : Z)
    (ip : option string) : Prop :=
  holds_policy d u p ∧ action ∈ p_actions (val p) ∧ policy_current d (val p) t ip.

(** The target is named by the policy or is in one of its enabled groups. *)
Definition names_target (d : db) (p : access_policy) (target : id) : Prop :=
  (target ∈ p_targets p ∧ is_Some (targets d !! target)) ∨
  ∃ g, target_groups d !! pk g = Some (val g) ∧ tg_enabled (val g) = true ∧
       pk g ∈ p_target_groups p ∧ target ∈ tg_targets (val g).

(** The policy covers the account: it names the target of the account; a list of
    protocols that is not empty has the target's protocol, and a set of accounts
    that is not empty has the account. *)
Definition covers (d : db) (p : access_policy) (cred : obj credential) : Prop :=
  names_target d p (c_target (val cred)) ∧
  (p_protocols p = [] ∨
   ∃ t, targets d !! c_target (val cred) = Some t ∧ protocol_str (t_protocol t) ∈ p_protocols p) ∧
  (p_credentials p = ∅ ∨ pk cred ∈ p_credentials p).

(** Weekday lists hold integers, as the forms that write them guarantee. *)
Definition integer_days (d : db) : Prop :=
  (∀ k p, policies d !! k = Some p → ∀ j, j ∈ p_weekdays p → ∃ z, int_of_json j = Ok z) ∧
  (∀ k f, time_frames d !! k = Some f → ∀ j, j ∈ tf_weekdays f → ∃ z, int_of_json j = Ok z).

(** *** Lemmas *)

Lemma target_covered_spec d p target :
  target_covered d p target = true ↔ names_target d p target.
Proof.
  unfold target_covered, names_target.
  rewrite orb_true_iff, andb_true_iff, !bool_decide_eq_true, exists_row_true.
  setoid_rewrite andb_true_iff. setoid_rewrite andb_true_iff.
  setoid_rewrite bool_decide_eq_true. clear PF. firstorder.
Qed.

Lemma covers_spec d p cred :
  covers d p cred ↔
  target_covered d p (c_target (val cred)) = true ∧ policy_allows_credential d p cred = true.
Proof.
  unfold covers, policy_allows_credential, protocol_allowed. rewrite target_covered_spec.
  rewrite andb_true_iff, orb_true_iff, !bool_decide_eq_true.
  destruct (targets d !! c_target (val cred)) as [t|].
  - rewrite orb_true_iff, !bool_decide_eq_true. naive_solver.
  - rewrite bool_decide_eq_true. naive_solver.
Qed.

Lemma weekday_set_spec days zs z :
  weekday_set days = Ok zs → z ∈ zs ↔ ∃ j, j ∈ days ∧ int_of_json j = Ok z.
Proof.
  revert zs. induction days as [|j days IH]; intros zs; simpl; intros H.
  - injection H as <-. set_solver.
  - destruct (int_of_json j) as [y|] eqn:Ej; [|done].
    destruct (weekday_set days) as [ys|]; [|done]. injection H as <-.
    rewrite elem_of_cons, IH by done. setoid_rewrite elem_of_cons. split.
    + intros [->|(j' & ? & ?)]; [exists j|exists j']; eauto.
    + intros (j' & [->|?] & ?); [left; congruence|right; eauto].
Qed.

Lemma weekday_set_total days :
  (∀ j, j ∈ days → ∃ z, int_of_json j = Ok z) → ∃ zs, weekday_set days = Ok zs.
Proof.
  induction days as [|j days IH]; intros H; simpl; [by eexists|].
  destruct (H j) as [z ->]; [by left|]. destruct IH as [zs ->]; [|by eexists].
  intros j' Hj. apply H. by right.
Qed.

Lemma weekday_allowed_ok days l b :
  weekday_allowed days l = Ok b → b = true ↔ weekday_ok days l.
Proof.
  unfold weekday_allowed, weekday_ok. case_decide; [intros [= <-]; tauto|].
  destruct (weekday_set days) eqn:E; [|done]. intros [= <-].
  rewrite bool_decide_eq_true, (weekday_set_spec _ _ _ E). naive_solver.
Qed.

Lemma weekday_allowed_total days l :
  (∀ j, j ∈ days → ∃ z, int_of_json j = Ok z) → ∃ b, weekday_allowed days l = Ok b.
Proof.
  intros H. unfold weekday_allowed. case_decide; [by eexists|].
  destruct (weekday_set_total _ H) as [zs ->]. by eexists.
Qed.

Lemma any_outcome_true {A} (f : A → outcome bool) l :
  any_outcome f l = Ok true → ∃ x, x ∈ l ∧ f x = Ok true.
Proof.
  induction l as [|x l IH]; simpl; [done|].
  destruct (f x) as [[]|] eqn:E; [exists x; split; [left|done]| |done].
  intros (y & ? & ?)%IH. exists y. split; [by right|done].
Qed.

Lemma any_outcome_total {A} (f : A → outcome bool) l :
  (∀ x, x ∈ l → ∃ b, f x = Ok b) →
  ∃ b, any_outcome f l = Ok b ∧ (b = true ↔ ∃ x, x ∈ l ∧ f x = Ok true).
Proof.
  induction l as [|x l IH]; intros H; simpl; [exists false; split; [done|set_solver]|].
  destruct (H x) as [[] E]; [by left|rewrite E..].
  - exists true. split; [done|]. split; [|done]. intros _. exists x. split; [by left|done].
  - destruct IH as (b & -> & Hb); [intros; apply H; by right|]. exists b. split; [done|].
    rewrite Hb. setoid_rewrite elem_of_cons. split.
    + intros (y & ? & ?). eauto.
    + intros (y & [->|?] & ?); [congruence|eauto].
Qed.

Lemma time_frame_current_ok f l b :
  _time_frame_is_current f l = Ok b →
  b = true ↔ frame_dates_allow f l = true ∧ weekday_ok (tf_weekdays f) l ∧
             _clock_is_current (time_of_day l) (tf_start_time f) (tf_end_time f) = true.
Proof.
  unfold _time_frame_is_current. destruct (frame_dates_allow f l); simpl; [|naive_solver].
  destruct (weekday_allowed _ _) as [[]|] eqn:E; [| |done];
    apply weekday_allowed_ok in E; naive_solver.
Qed.

Lemma legacy_current_ok p l b :
  _legacy_schedule_is_current p l = Ok b →
  b = true ↔ weekday_ok (p_weekdays p) l ∧
             _clock_is_current (time_of_day l) (p_access_start_time p) (p_access_end_time p) = true.
Proof.
  unfold _legacy_schedule_is_current.
  destruct (weekday_allowed _ _) as [[]|] eqn:E; [| |done];
    apply weekday_allowed_ok in E; naive_solver.
Qed.

Lemma validity_dates_spec p t :
  validity_dates_allow p t = true ↔
  (∀ f, p_valid_from p = Some f → f <= t) ∧ (∀ u, p_valid_until p = Some u → t < u).
Proof.
  unfold validity_dates_allow. rewrite andb_true_iff.
  destruct (p_valid_from p), (p_valid_until p); rewrite ?Z.leb_le, ?Z.ltb_lt; naive_solver.
Qed.

(** An answer of [policy_is_current] is right. *)
Lemma policy_current_at_ok d p t ip b :
  policy_current_at d p t ip = Ok b → b = true → policy_current d p t ip.
Proof.
  unfold policy_current_at, policy_current.
  destruct (validity_dates_allow p t) eqn:Ev; simpl; [|naive_solver].
  apply validity_dates_spec in Ev as [Hv1 Hv2]. intros H ->.
  split; [done|]. split; [done|]. unfold schedule_open.
  case_decide as Hf.
  - destruct (_legacy_schedule_is_current _ _) as [[]|] eqn:E; simplify_eq.
    apply legacy_current_ok in E. split; [right|done]. naive_solver.
  - destruct (any_outcome _ _) as [[]|] eqn:E; simplify_eq.
    apply any_outcome_true in E as (f & Hin & E). apply time_frame_current_ok in E.
    split; [left|done]. exists f. naive_solver.
Qed.

(** On integer weekday lists it always answers, and exactly. *)
Lemma policy_current_at_total d k p t ip :
  integer_days d → policies d !! k = Some p →
  ∃ b, policy_current_at d p t ip = Ok b ∧ (b = true ↔ policy_current d p t ip).
Proof.
  intros [Hp Hf] Hk. unfold policy_current_at, policy_current.
  destruct (validity_dates_allow p t) eqn:Ev; simpl.
  2:{ exists false. split; [done|]. split; [done|]. intros (?&?&_).
      rewrite (proj2 (validity_dates_spec p t)) in Ev; done. }
  apply validity_dates_spec in Ev as [? ?]. unfold schedule_open.
  assert (∃ s, (if decide (enabled_frames d p = []) then _legacy_schedule_is_current p (localtime t)
           else any_outcome (λ f, _time_frame_is_current (val f) (localtime t)) (enabled_frames d p))
           = Ok s ∧ (s = true ↔ schedule_open d p t)) as (s & -> & Hs).
  { unfold schedule_open. case_decide as Hn.
    - destruct (weekday_allowed_total (p_weekdays p) (localtime t)) as [b Hb]; [eauto|].
      assert (∃ s, _legacy_schedule_is_current p (localtime t) = Ok s) as [s Es]
        by (unfold _legacy_schedule_is_current; rewrite Hb; destruct b; eauto).
      exists s. split; [done|]. rewrite (legacy_current_ok _ _ _ Es), Hn. set_solver.
    - destruct (any_outcome_total (λ f, _time_frame_is_current (val f) (localtime t))
                  (enabled_frames d p)) as (s & -> & Hs).
      + intros f Hin. apply elem_of_objects_filter in Hin as [Hin _].
        unfold _time_frame_is_current. case_match; [by eexists|].
        destruct (weekday_allowed_total (tf_weekdays (val f)) (localtime t)) as [b ->]; [eauto|].
        destruct b; by eexists.
      + exists s. split; [done|]. rewrite Hs. split.
        * intros (f & Hin & E). left. exists f. apply time_frame_current_ok in E. naive_solver.
        * intros [(f & Hin & E)|[? _]]; [|done]. exists f. split; [done|].
          apply elem_of_objects_filter in Hin as [Hin _].
          unfold _time_frame_is_current. destruct E as (-> & E & Ec). simpl.
          destruct (weekday_allowed_total (tf_weekdays (val f)) (localtime t)) as [b Hb]; [eauto|].
          pose proof (proj2 (weekday_allowed_ok _ _ _ Hb) E) as ->. rewrite Hb. by f_equal. }
  destruct s.
  - eexists. split; [done|]. naive_solver.
  - exists false. split; [done|]. unfold schedule_open in Hs. naive_solver.
Qed.
End spec.

Section allowing.
Context {PF : Platform}.

(** The instant of a check that started in [w] and was over in [w']. *)
Definition instant (w w' : world) (at_ : option Z) (t : Z) : Prop :=
  match at_ with
  | Some t0 => t = t0
  | None => time_flows w → w_clock w <= t <= w_clock w'
  end.

Lemma instant_weaken w0 w w' w1 at_ t :
  later w0 w → later w' w1 → later w w' → instant w w' at_ t → instant w0 w1 at_ t.
Proof.
  destruct at_; [done|]. intros H0 H1 H H2 Hf.
  destruct (H0 Hf) as [? Hw]. destruct (H Hw) as [? Hw']. destruct (H1 Hw') as [? _].
  specialize (H2 Hw). lia.
Qed.

Lemma policy_is_current_run p at_ ip w r w' :
  policy_is_current p at_ ip w = (r, w') →
  reads w w' ∧ ∃ t, instant w w' at_ t ∧ r = policy_current_at (w_db w) (val p) t ip.
Proof.
  unfold policy_is_current, at_or_now. destruct at_ as [t|]; run; unfold of_outcome;
    intros [= <- <-].
  - split; [auto with pam|]. by exists t.
  - split; [auto with pam|]. exists (w_clock w). split; [|done].
    intros Hf. destruct (later_advance w Hf). lia.
Qed.

Lemma current_policy_ids_sound l action ip at_ w ids w' :
  current_policy_ids l action ip at_ w = (Ok ids, w') →
  reads w w' ∧ ∀ k, k ∈ ids → ∃ p t, p ∈ l ∧ pk p = k ∧ action ∈ p_actions (val p) ∧
    instant w w' at_ t ∧ policy_current_at (w_db w) (val p) t ip = Ok true.
Proof.
  unfold current_policy_ids. intros H.
  enough (∀ ids0, fold_m l ids0 (λ ids p,
    if allows (val p) action then
      ok ← policy_is_current p at_ ip; mret (if ok : bool then ids ++ [pk p] else ids)
    else mret ids) w = (Ok ids, w') → reads w w' ∧ ∀ k, k ∈ ids → k ∈ ids0 ∨
      ∃ p t, p ∈ l ∧ pk p = k ∧ action ∈ p_actions (val p) ∧ instant w w' at_ t ∧
        policy_current_at (w_db w) (val p) t ip = Ok true) as G.
  { destruct (G [] H) as [Hr Hk]. split; [done|]. intros k [?|?]%Hk; [|done]. set_solver. }
  clear H. revert w. induction l as [|p l IH]; intros w ids0 H; simpl in H.
  - prim_inv H. split; [auto with pam|]. by left.
  - run_inv H.
    assert (reads w w0 ∧ ∀ k, k ∈ a → k ∈ ids0 ∨ k = pk p ∧ action ∈ p_actions (val p) ∧
              ∃ t, instant w w0 at_ t ∧ policy_current_at (w_db w) (val p) t ip = Ok true)
      as [Hr0 Hstep].
    { unfold allows in R. case_bool_decide as Ha; [|prim_inv R; split; [auto with pam|by left]].
      run_inv R. apply policy_is_current_run in R0 as (Hr & t & Hi & Ht). split; [done|].
      intros k. destruct a0; [|by left]. intros [?|?%list_elem_of_singleton]%elem_of_app; eauto 10. }
    apply IH in H as [Hr Hk]. split; [by etrans|].
    intros k [[?|(-> & ? & t & Hi & Ht)]%Hstep|(q & t & Hq & <- & Ha & Hi & Ht)]%Hk.
    + by left.
    + right. exists p, t. split_and!; try done; [by left|].
      eapply instant_weaken; [| |apply Hr0|done]; [reflexivity|apply Hr].
    + right. exists q, t. rewrite (proj1 Hr0) in Ht. split_and!; try done; [by right|].
      eapply instant_weaken; [apply Hr0|reflexivity|apply Hr|done].
Qed.

Lemma elem_of_policies_for_user d u p :
  p ∈ policies_for_user d (Authenticated u) ↔ holds_policy d (pk u) p.
Proof.
  unfold policies_for_user, holds_policy, in_enabled_group.
  rewrite elem_of_objects_filter, andb_true_iff, exists_row_true.
  setoid_rewrite andb_true_iff. setoid_rewrite andb_true_iff.
  setoid_rewrite bool_decide_eq_true. naive_solver.
Qed.

Lemma policies_allowing_sound u action ip at_ w l w' :
  policies_allowing u action ip at_ w = (Ok l, w') →
  reads w w' ∧ ∀ p, p ∈ l → ∃ uo t, u = Authenticated uo ∧ instant w w' at_ t ∧
    grants (w_db w) (pk uo) p action t ip.
Proof.
  unfold policies_allowing. intros H. run_inv H.
  apply current_policy_ids_sound in R as [[Hd Hl] Hk]. split; [by split|].
  intros p [Hp Hin%bool_decide_eq_true]%elem_of_objects_filter. rewrite Hd in Hp.
  apply Hk in Hin as (q & t & Hq & Epk & Ha & Hi & Ht).
  destruct u as [|uo]; [by apply elem_of_nil in Hq|].
  apply elem_of_policies_for_user in Hq.
  assert (q = p) as -> by (destruct Hq as [Hq _], q, p; simpl in *; congruence).
  exists uo, t. do 4 (split; [done|]). by eapply policy_current_at_ok.
Qed.

Lemma policies_allowing_quiet u action ip at_ : quiet (policies_allowing u action ip at_).
Proof.
  unfold policies_allowing, current_policy_ids, policy_is_current, at_or_now. solve_quiet.
Qed.

Lemma current_policy_ids_exact l action ip t w :
  (∀ p, p ∈ l → ∃ b, policy_current_at (w_db w) (val p) t ip = Ok b) →
  ∃ ids, current_policy_ids l action ip (Some t) w = (Ok ids, w) ∧
    ∀ k, k ∈ ids ↔ ∃ p, p ∈ l ∧ pk p = k ∧ action ∈ p_actions (val p) ∧
      policy_current_at (w_db w) (val p) t ip = Ok true.
Proof.
  unfold current_policy_ids. intros Hall.
  enough (∀ ids0, ∃ ids, fold_m l ids0 (λ ids p,
    if allows (val p) action then
      ok ← policy_is_current p (Some t) ip; mret (if ok : bool then ids ++ [pk p] else ids)
    else mret ids) w = (Ok ids, w) ∧ ∀ k, k ∈ ids ↔ k ∈ ids0 ∨
      ∃ p, p ∈ l ∧ pk p = k ∧ action ∈ p_actions (val p) ∧
        policy_current_at (w_db w) (val p) t ip = Ok true) as G.
  { destruct (G []) as (ids & ? & Hk). exists ids. split; [done|]. intros k. rewrite Hk.
    split; [intros [?%not_elem_of_nil|?]; done|by right]. }
  induction l as [|p l IH]; intros ids0; simpl.
  - exists ids0. split; [done|]. intros k. set_solver.
  - destruct (Hall p) as [b Hb]; [by left|].
    assert (∃ ids1, (if allows (val p) action then
      ok ← policy_is_current p (Some t) ip; mret (if ok : bool then ids0 ++ [pk p] else ids0)
      else mret ids0) w = (Ok ids1, w) ∧ ∀ k, k ∈ ids1 ↔ k ∈ ids0 ∨
        k = pk p ∧ action ∈ p_actions (val p) ∧ b = true) as (ids1 & E1 & H1).
    { unfold allows. case_bool_decide; [|exists ids0; split; [done|]; intros; tauto].
      unfold policy_is_current, at_or_now. run. rewrite (run_of_ok _ b) by done.
      eexists. split; [done|]. intros k. destruct b; [|intuition congruence].
      rewrite elem_of_app, list_elem_of_singleton. tauto. }
    rewrite (bind_ok _ _ _ _ _ E1).
    destruct (IH (λ q Hq, Hall q (list_elem_of_further _ _ _ Hq)) ids1) as (ids & E & Hk).
    exists ids. split; [done|]. intros k. rewrite Hk, H1. setoid_rewrite elem_of_cons. split.
    + intros [[?|(-> & ? & ->)]|(q & ? & ? & ? & ?)]; [by left|right; exists p; eauto|].
      right. exists q. eauto.
    + intros [?|(q & [->|?] & <- & ? & E2)]; [by left; left| |right; eauto].
      left. right. split_and!; try done. congruence.
Qed.

Lemma policies_allowing_exact u action ip t w :
  integer_days (w_db w) →
  ∃ l, policies_allowing (Authenticated u) action ip (Some t) w = (Ok l, w) ∧
    ∀ p, p ∈ l ↔ grants (w_db w) (pk u) p action t ip.
Proof.
  intros Hdays. unfold policies_allowing. run.
  destruct (current_policy_ids_exact (policies_for_user (w_db w) (Authenticated u)) action ip t w)
    as (ids & E & Hk).
  { intros p [Hp _]%elem_of_policies_for_user.
    destruct (policy_current_at_total _ _ _ t ip Hdays Hp) as (b & ? & _). eauto. }
  rewrite (bind_ok _ _ _ _ _ E). eexists. split; [reflexivity|].
  intros p. rewrite elem_of_objects_filter, bool_decide_eq_true, Hk. split.
  - intros (Hp & q & Hq%elem_of_policies_for_user & Epk & ? & Hcur).
    assert (q = p) as -> by (destruct Hq as [Hq _], q, p; simpl in *; congruence).
    do 2 (split; [done|]). by eapply policy_current_at_ok.
  - intros (Hh & Ha & Hcur). split; [apply Hh|]. exists p.
    split; [by apply elem_of_policies_for_user|]. split_and!; try done.
    destruct (policy_current_at_total _ _ _ t ip Hdays (proj1 Hh)) as (b & -> & Hb).
    by rewrite (proj2 Hb Hcur).
Qed.

(** An access check never grants without a policy.  Whenever
    [credential_allows_action] answers yes, the user is signed in and some
    enabled policy held through an enabled group lists the action, was current
    (dates, schedule, source address) at an instant between the call and its
    return, and covers the account and its target; nothing is written. *)
Theorem credential_allows_action_sound u cred action ip at_ w w' :
  credential_allows_action u cred action ip at_ w = (Ok true, w') →
  reads w w' ∧ ∃ uo p t, u = Authenticated uo ∧ instant w w' at_ t ∧
    grants (w_db w) (pk uo) p action t ip ∧ covers (w_db w) (val p) cred.
Proof.
  unfold credential_allows_action. intros H. run_inv H.
  injection H as H <-. apply policies_allowing_sound in R as [Hr Hp]. split; [done|].
  apply existsb_elem in H as (p & Hin & Hc%andb_true_iff%covers_spec).
  destruct (Hp _ Hin) as (uo & t & -> & ? & ?).
  exists uo, p, t. rewrite (proj1 Hr) in *. done.
Qed.

(** C17: An access check at a given instant is exact: on weekday lists of
    integers it always answers, writes nothing, and the answer is yes exactly
    when some policy grants the action to the user at that instant from that
    address and covers the account. *)
Theorem credential_allows_action_exact u cred action ip t w :
  integer_days (w_db w) →
  ∃ b, credential_allows_action (Authenticated u) cred action ip (Some t) w = (Ok b, w) ∧
    (b = true ↔ ∃ p, grants (w_db w) (pk u) p action t ip ∧ covers (w_db w) (val p) cred).
Proof.
  intros Hd. unfold credential_allows_action.
  destruct (policies_allowing_exact u action ip t w Hd) as (l & E & Hl).
  rewrite (bind_ok _ _ _ _ _ E). run. eexists. split; [reflexivity|].
  rewrite existsb_elem. setoid_rewrite covers_spec. setoid_rewrite Hl.
  split; intros (p & Hg & Hc); exists p; (split; [done|]); by apply andb_true_iff.
Qed.

(** The catalogue shows exactly the reachable targets: a target is listed for
    a set of policies when it is enabled and some of the policies names it or
    one of its enabled target groups. *)
Theorem targets_for_policies_spec d l t :
  t ∈ targets_for_policies d l ↔
  targets d !! pk t = Some (val t) ∧ t_enabled (val t) = true ∧
  ∃ p, p ∈ l ∧ (pk t ∈ p_targets (val p) ∨
    ∃ g, target_groups d !! pk g = Some (val g) ∧ tg_enabled (val g) = true ∧
         pk g ∈ p_target_groups (val p) ∧ pk t ∈ tg_targets (val g)).
Proof.
  unfold targets_for_policies.
  rewrite elem_of_objects_filter, andb_true_iff, existsb_elem.
  setoid_rewrite target_covered_spec. unfold names_target. split.
  - intros (? & ? & p & ? & [[? ?]|?]); split_and!; eauto 10.
  - intros (? & ? & p & ? & [?|?]); split_and!; eauto 10.
Qed.
End allowing.

(** ** Concrete instances *)

Definition demo_policy : access_policy :=
  AccessPolicy "ops" {[20%N]} ∅ {[5%N]} ∅ {[6%N]} ∅ [REQUEST_ACCESS; START_SESSION; VIEW_SECRET] []
    false 1 false false 60 1 false false [] [] None None [JInt 3; JStr "4"]
    (Some (hours 8)) (Some (hours 18)) ["192.0.2.0/24"] true.
Definition demo_target : target :=
  Target "srv" "srv.example.org" 22 SSH TRUST_ON_FIRST_USE true "any" "" "" "" "device" None "" "".
Definition demo_credential : credential :=
  Credential "root" 20 None "root" PASSWORD "enc:secret" "keyring-v1" "" "" 1 true false None "" None
    None None RotationStatus.NEVER 0 None (Stamps 0 0) "local".
Definition demo_policy_db : db :=
  empty_db <| policies := {[40%N := demo_policy]} |>
    <| user_groups := {[5%N := UserGroup "ops" {[7%N]} ∅ true ""]} |>
    <| targets := {[20%N := demo_target]} |> <| credentials := {[30%N := demo_credential]} |>
    <| users := {[7%N := User "alice" "alice@example.org" "Alice" true false false "system" "fr" "hash:secret"]} |>.
Definition demo_alice : obj user :=
  Obj 7%N (User "alice" "alice@example.org" "Alice" true false false "system" "fr" "hash:secret").

Section witnesses.
#[local] Existing Instance demo_platform.

Lemma demo_integer_days : integer_days demo_policy_db.
Proof.
  assert (time_frames demo_policy_db = ∅) as Ef by reflexivity.
  assert (policies demo_policy_db = {[40%N := demo_policy]}) as Ep by reflexivity.
  split; [|intros k f H; rewrite Ef in H; by apply lookup_empty_Some in H].
  rewrite Ep. intros k p [<- <-]%lookup_singleton_Some j Hj.
  repeat apply elem_of_cons in Hj as [->|Hj]; [by eexists..|by apply elem_of_nil in Hj].
Qed.

Lemma credential_allows_action_sound_witness :
  let w := demo_world demo_policy_db in
  reads w (advance w) ∧
  ∃ uo p t, Authenticated demo_alice = Authenticated uo ∧ instant w (advance w) None t ∧
    grants demo_policy_db (pk uo) p START_SESSION t (Some "192.0.2.9") ∧
    covers demo_policy_db (val p) (Obj 30%N demo_credential).
Proof.
  apply (credential_allows_action_sound (Authenticated demo_alice) (Obj 30%N demo_credential)
           START_SESSION (Some "192.0.2.9") None). vm_compute. reflexivity.
Defined.

Lemma credential_allows_action_exact_witness :
  ∃ b, credential_allows_action (Authenticated demo_alice) (Obj 30%N demo_credential) START_SESSION
         (Some "198.51.100.1") (Some demo_now) (demo_world demo_policy_db)
       = (Ok b, demo_world demo_policy_db) ∧
    (b = true ↔ ∃ p, grants demo_policy_db 7 p START_SESSION demo_now (Some "198.51.100.1") ∧
                     covers demo_policy_db (val p) (Obj 30%N demo_credential)).
Proof.
  apply (credential_allows_action_exact demo_alice (Obj 30%N demo_credential) START_SESSION
           (Some "198.51.100.1") demo_now (demo_world demo_policy_db)).
  apply demo_integer_days.
Defined.
End witnesses.
