(* ===== verification/Approvals.v ===== *)
(** * Access requests and approvals ([pamolive/approvals])

    A user asks for access under a policy; approvers decide.  This file models the
    request form and its submission, the decision service with its quorum, and
    the immutability of decisions. *)

From S2P Require Import Prelude PyStr Json Crypto PyTime Models World AuditTrail Rbac Ip Policies.

Local Open Scope Z_scope.

Definition access_request_resource (k : id) : resource :=
  Resource "approvals.accessrequest" (str_uuid k).

(** ** Decisions *)

Section decisions.
Context {PF : Platform}.

(** [ApprovalDecision.save] of a new instance, with the table's constraints. *)
Definition save_decision (k : id) (v : stamps → approval_decision) : M unit :=
  taken ← asks (λ d, bool_decide (is_Some (decisions d !! k)));
  raise_if taken (RuntimeError "Approval decisions are immutable") ;;
  st ← new_stamps;
  duplicate ← asks (λ d, exists_row (λ o,
    bool_decide (ad_access_request (val o) = ad_access_request (v st)) &&
    bool_decide (ad_approver (val o) = ad_approver (v st))) (decisions d));
  raise_if duplicate (IntegrityError "unique_approval_decision_per_approver") ;;
  insert_row decisions k (v st).

(** [ApprovalDecision.delete] *)
Definition delete_decision (k : id) : M unit :=
  raise (RuntimeError "Approval decisions cannot be deleted").

(** [access_request.policy.approver_groups.filter(enabled=True)] *)
Definition enabled_approver_groups (d : db) (p : access_policy) : list (obj user_group) :=
  objects_filter (λ g, ug_enabled (val g) && bool_decide (pk g ∈ p_approver_groups p))
    (user_groups d).

Definition _actor_may_decide (policy : access_policy) (actor : obj user) : M bool :=
  if u_is_superuser (val actor) then mret true
  else
    ok ← user_has_capability (Authenticated actor) Capability.APPROVALS_DECIDE;
    if negb ok then mret false
    else
      groups ← asks (λ d, enabled_approver_groups d policy);
      mret (bool_decide (groups = [])
            || existsb (λ g, bool_decide (pk actor ∈ ug_users (val g))) groups).

(** [locked.decisions.filter(decision=APPROVE).count()] *)
Definition approval_count (d : db) (request : id) : Z :=
  count_rows (λ o, bool_decide (ad_access_request (val o) = request)
                   && bool_decide (ad_decision (val o) = APPROVE)) (decisions d).

Definition already_decided (d : db) (request actor : id) : bool :=
  exists_row (λ o, bool_decide (ad_access_request (val o) = request)
                   && bool_decide (ad_approver (val o) = actor)) (decisions d).

Definition quorum_of (p : access_policy) : Z := Z.max 1 (p_approval_quorum p).

(** The status a decision leads to. *)
Definition next_status (approve : bool) (count quorum : Z) : RequestStatus.t :=
  if negb approve then RequestStatus.REJECTED
  else if quorum <=? count then RequestStatus.APPROVED
  else RequestStatus.PENDING.

(** The columns written by [locked.save(update_fields=...)]. *)
Definition record_decision (status : RequestStatus.t) (actor : id) (at_ : Z) (comment : string)
    (stamp : Z) (r : access_request) : access_request :=
  r <| ar_status := status |> <| ar_decided_by := Some actor |> <| ar_decided_at := Some at_ |>
    <| ar_decision_comment := comment |> <| ar_stamps ::= touch stamp |>.

(** [if locked.status != PENDING: ... locked.save(...)] *)
Definition apply_status (locked : obj access_request) (status : RequestStatus.t) (actor : id)
    (comment : string) : M access_request :=
  if decide (status = RequestStatus.PENDING) then mret (val locked)
  else
    at_ ← now;
    stamp ← now;
    save_fields access_requests (pk locked) (record_decision status actor at_ comment stamp) ;;
    mret (record_decision status actor at_ comment stamp (val locked)).

Definition decide_access_request (request : id) (actor : obj user) (approve : bool)
    (comment : string) : M (obj access_request) :=
  atomic (
    locked ← get_row access_requests "AccessRequest" request;
    policy ← get_row policies "AccessPolicy" (ar_policy (val locked));
    raise_if (bool_decide (ar_status (val locked) ≠ RequestStatus.PENDING))
      (ValidationError "Seules les demandes en attente peuvent recevoir une décision.") ;;
    raise_if (bool_decide (pk actor = ar_requester (val locked)))
      (PermissionDenied "Un demandeur ne peut pas approuver sa propre demande.") ;;
    may ← _actor_may_decide (val policy) actor;
    raise_if (negb may)
      (PermissionDenied "Vous n’êtes pas approbateur pour cette politique.") ;;
    decided ← asks (λ d, already_decided d request (pk actor));
    raise_if decided
      (ValidationError "Vous avez déjà rendu une décision pour cette demande.") ;;
    k ← uuid4;
    save_decision k (ApprovalDecision request (pk actor) (if approve then APPROVE else REJECT) comment) ;;
    count ← asks (λ d, approval_count d request);
    let quorum := quorum_of (val policy) in
    let status := next_status approve count quorum in
    result ← apply_status locked status (pk actor) comment;
    record_event (Some (pk actor))
      (if decide (status = RequestStatus.PENDING) then "access_request.approval_recorded"
       else "access_request." +:+ RequestStatus.str status)
      (access_request_resource request)
      [("decision_id", JStr (str_uuid k)); ("approval_count", JInt count); ("quorum", JInt quorum)]
      None ;;
    mret (Obj request result)).

(** ** The request form *)

(** What the browser submits. *)
Record request_form := RequestForm {
  f_policy : option id;
  f_target : option id;
  f_reason : string;
  f_ticket_reference : string;
  f_duration : option Z;
}.

(** The largest value of a PostgreSQL [integer] column. *)
Definition MAX_INTEGER : Z := 2147483647.

(** [ModelChoiceField.clean]: the chosen row, if the queryset has it. *)
Definition choose {A} (l : list (obj A)) (k : option id) : option (obj A) :=
  match k with
  | Some k => List.find (λ o, bool_decide (pk o = k)) l
  | None => None
  end.

(** [IntegerField.clean] of the duration: required, in the column's range. *)
Definition clean_duration (f : request_form) : option Z :=
  match f_duration f with
  | Some n => if (0 <=? n) && (n <=? MAX_INTEGER) then Some n else None
  | None => None
  end.

Definition clean_ticket (f : request_form) : option string :=
  let t := strip (f_ticket_reference f) in
  if len t <=? 255 then Some t else None.

Definition clean_reason (f : request_form) : option string :=
  let r := strip (f_reason f) in if decide (r = "") then None else Some r.

(** [AccessRequestForm.clean], on the fields that were valid on their own: the
    names of the fields it adds an error to. *)
Definition form_clean (d : db) (allowed : list (obj access_policy)) (f : request_form)
    (policy : option (obj access_policy)) (target : option (obj target)) : list string :=
  match policy with
  | None => []
  | Some p =>
      (if bool_decide (pk p ∈ pk <$> allowed) then [] else ["policy"]) ++
      match target with
      | None => []
      | Some t =>
          if exists_row (λ g, tg_enabled (val g) && bool_decide (pk g ∈ p_target_groups (val p))
                              && bool_decide (pk t ∈ tg_targets (val g))) (target_groups d)
             || (bool_decide (pk t ∈ p_targets (val p)) && t_enabled (val t))
          then [] else ["target"]
      end ++
      match clean_duration f with
      | Some n => if negb (n =? 0) && (p_max_duration_minutes (val p) <? n)
                  then ["requested_duration_minutes"] else []
      | None => []
      end ++
      (if p_ticket_required (val p) && bool_decide (default "" (clean_ticket f) = "")
       then ["ticket_reference"] else [])
  end.

(** [form.is_valid()] and the instance [form.save(commit=False)] builds. *)
Definition clean_form (d : db) (allowed : list (obj access_policy)) (f : request_form)
    : option (obj access_policy * obj target * string * string * Z) :=
  let policy := choose allowed (f_policy f) in
  let target := choose (targets_for_policies d allowed) (f_target f) in
  match policy, target, clean_reason f, clean_ticket f, clean_duration f with
  | Some p, Some t, Some r, Some k, Some n =>
      if decide (form_clean d allowed f policy target = []) then Some (p, t, r, k, n) else None
  | _, _, _, _, _ => None
  end.

(** The POST branch of [requests_page]; [None] re-displays the form. *)
Definition requests_page_post (u : obj user) (m : request_meta) (f : request_form) : M (option id) :=
  k ← uuid4;
  allowed ← policies_allowing (Authenticated u) REQUEST_ACCESS (request_client_ip m) None;
  form ← asks (λ d, clean_form d allowed f);
  match form with
  | None => mret None
  | Some (p, t, reason, ticket, n) =>
      decided ← (if p_requires_approval (val p) then mret (RequestStatus.PENDING, None)
                 else at_ ← now; mret (RequestStatus.APPROVED, Some at_));
      st ← new_stamps;
      insert_row access_requests k
        (AccessRequest (pk u) (pk t) (pk p) reason ticket n decided.1 None decided.2 "" st) ;;
      record_event (Some (pk u)) "access_request.created" (access_request_resource k)
        [("status", JStr (RequestStatus.str decided.1))] None ;;
      mret (Some k)
  end.
End decisions.

(** ** Facts *)

Section decide_facts.
Context {PF : Platform}.

(** Who may decide: super-administrators; otherwise holders of the decision
    capability who are in some enabled approver group, when there is one. *)
Definition may_decide (d : db) (t : Z) (p : access_policy) (actor : obj user) : Prop :=
  u_is_superuser (val actor) = true ∨
  (Capability.APPROVALS_DECIDE ∈ capabilities_of_roles
     (group_roles d (pk actor) ++ direct_roles d (pk actor) t) ∧
   (enabled_approver_groups d p = [] ∨
    ∃ g, g ∈ enabled_approver_groups d p ∧ pk actor ∈ ug_users (val g))).

Lemma actor_may_decide_run p actor w :
  ∃ b w', _actor_may_decide p actor w = (Ok b, w') ∧ reads w w' ∧
    (b = true ↔ may_decide (w_db w) (w_clock w) p actor).
Proof.
  unfold _actor_may_decide, may_decide. destruct (u_is_superuser (val actor)) eqn:Es.
  - exists true, w. split; [done|]. split; [auto with pam|]. tauto.
  - rewrite (bind_ok _ _ _ _ _ (user_has_capability_run actor _ w Es)).
    case_bool_decide as Hc; simpl negb; cbn iota.
    + run. do 2 eexists. split; [reflexivity|]. split; [auto with pam|].
      rewrite orb_true_iff, bool_decide_eq_true, existsb_elem.
      setoid_rewrite bool_decide_eq_true. simpl. naive_solver.
    + do 2 eexists. split; [reflexivity|]. split; [auto with pam|]. intuition congruence.
Qed.

Lemma save_decision_ok_inv k v w u w' :
  save_decision k v w = (Ok u, w') →
  ∃ st, decisions (w_db w) !! k = None ∧
    (∀ o, decisions (w_db w) !! pk o = Some (val o) →
      ¬ (ad_access_request (val o) = ad_access_request (v st) ∧
         ad_approver (val o) = ad_approver (v st))) ∧
    w_db w' = w_db w <| decisions ::= <[k := v st]> |>.
Proof.
  unfold save_decision. intros H. run_inv H. eexists. split; [done|]. split; [|reflexivity].
  rewrite exists_row_false in R0. intros o Ho [? ?]. apply R0 in Ho.
  by rewrite !bool_decide_true in Ho.
Qed.

(** The row after a decision. *)
Definition decided_row (status : RequestStatus.t) (actor : id) (at_ : Z) (comment : string)
    (stamp : Z) (r : access_request) : access_request :=
  if decide (status = RequestStatus.PENDING) then r
  else record_decision status actor at_ comment stamp r.

Lemma apply_status_ok_inv locked status actor comment w r w' :
  access_requests (w_db w) !! pk locked = Some (val locked) →
  apply_status locked status actor comment w = (Ok r, w') →
  ∃ at_ stamp, r = decided_row status actor at_ comment stamp (val locked) ∧
    w_db w' = w_db w <| access_requests ::= <[pk locked := r]> |>.
Proof.
  unfold apply_status, decided_row. intros Hrow H. case_decide as Hs.
  - prim_inv H. exists 0, 0. split; [done|]. destruct (w_db w); simpl in *.
    by rewrite insert_id by done.
  - run_inv H. do 2 eexists. split; [reflexivity|]. simpl in *. by simplify_eq.
Qed.

(** Everything a successful decision did. *)
Lemma decide_ok_inv request actor approve comment w o w' :
  decide_access_request request actor approve comment w = (Ok o, w') →
  ∃ r p k st at_ stamp status w2 a,
    access_requests (w_db w) !! request = Some r ∧
    policies (w_db w) !! ar_policy r = Some p ∧
    ar_status r = RequestStatus.PENDING ∧ pk actor ≠ ar_requester r ∧
    may_decide (w_db w) (w_clock w) p actor ∧
    (∀ x, decisions (w_db w) !! pk x = Some (val x) →
       ¬ (ad_access_request (val x) = request ∧ ad_approver (val x) = pk actor)) ∧
    decisions (w_db w) !! k = None ∧
    w_db w2 = w_db w
      <| decisions ::= <[k := ApprovalDecision request (pk actor)
                                (if approve then APPROVE else REJECT) comment st]> |>
      <| access_requests ::= <[request := val o]> |> ∧
    status = next_status approve (approval_count (w_db w2) request) (quorum_of p) ∧
    o = Obj request (decided_row status (pk actor) at_ comment stamp r) ∧
    record_event (Some (pk actor))
      (if decide (status = RequestStatus.PENDING) then "access_request.approval_recorded"
       else "access_request." +:+ RequestStatus.str status)
      (access_request_resource request)
      [("decision_id", JStr (str_uuid k));
       ("approval_count", JInt (approval_count (w_db w2) request));
       ("quorum", JInt (quorum_of p))] None w2 = (Ok a, w').
Proof.
  unfold decide_access_request. intros H. run_inv H. subst.
  destruct (actor_may_decide_run (val a0) actor w) as (b & w4 & E & [Hd _] & Hb).
  rewrite R3 in E. injection E as -> ->. apply negb_false_iff in R4. subst b.
  unfold already_decided in R5. rewrite exists_row_false, Hd in R5.
  apply save_decision_ok_inv in R6 as (st & Hk & _ & Hd1). simpl in Hd1, Hk.
  rewrite Hd in Hk, Hd1.
  apply apply_status_ok_inv in R7 as (at_ & stamp & -> & Hd2); [|by rewrite Hd1].
  assert (approval_count (w_db w1) (pk a) = approval_count (w_db w2) (pk a)) as Hcount
    by (by rewrite Hd2).
  rewrite Hcount in Hd2, R8 |- *. breflect.
  exists (val a), (val a0), (draw_uuid4 (w_draws w4)), st, at_, stamp.
  exists (next_status approve (approval_count (w_db w2) (pk a)) (quorum_of (val a0))), w2, a8.
  split_and!; try done.
  - by destruct (ar_status (val a)) eqn:E; [|exfalso; apply R1..].
  - by apply Hb.
  - intros x Hx [? ?]. apply R5 in Hx. by rewrite !bool_decide_true in Hx.
  - etrans; [exact Hd2|]. rewrite Hd1.
    reflexivity.
Qed.
End decide_facts.

(** ** The request form *)

Lemma choose_elem {A} (l : list (obj A)) k o : choose l k = Some o → o ∈ l ∧ k = Some (pk o).
Proof.
  unfold choose. destruct k as [k|]; [|done].
  intros [Hl Hk]%find_elem. apply bool_decide_eq_true in Hk. by subst.
Qed.

(** An accepted form: an allowed policy, an enabled target it covers, a reason, a
    duration within the policy's limit, a ticket when the policy wants one. *)
Lemma clean_form_inv d allowed f p t reason ticket n :
  clean_form d allowed f = Some (p, t, reason, ticket, n) →
  p ∈ allowed ∧ targets d !! pk t = Some (val t) ∧ t_enabled (val t) = true ∧
  names_target d (val p) (pk t) ∧
  reason ≠ "" ∧ (p_ticket_required (val p) = true → ticket ≠ "") ∧
  0 <= n ∧ (n = 0 ∨ n <= p_max_duration_minutes (val p)).
Proof.
  unfold clean_form. destruct (choose allowed _) as [p'|] eqn:Ep; [|done].
  destruct (choose (targets_for_policies _ _) _) as [t'|] eqn:Et; [|done].
  destruct (clean_reason f) as [r'|] eqn:Er; [|done].
  destruct (clean_ticket f) as [k'|] eqn:Ek; [|done].
  destruct (clean_duration f) as [n'|] eqn:En; [|done].
  case_decide as Hc; [|done]. intros [= -> -> -> -> ->].
  apply choose_elem in Ep as [Hp _]. apply choose_elem in Et as [Ht _].
  unfold targets_for_policies in Ht.
  apply elem_of_objects_filter in Ht as [Ht [Hen _]%andb_true_iff].
  unfold form_clean in Hc. rewrite Ek, En in Hc. simpl in Hc.
  rewrite !app_nil in Hc. destruct Hc as (_ & Hcov & Hdur & Htick).
  split_and!; try done.
  - refine (proj1 (target_covered_spec d (val p) (pk t)) _). unfold target_covered. apply orb_true_iff.
    destruct (exists_row _ _); simpl in Hcov; [by right|]. left.
    destruct (bool_decide (pk t ∈ p_targets (val p))); [|done]. simpl.
    apply bool_decide_eq_true. by eexists.
  - unfold clean_reason in Er. case_decide; by simplify_eq.
  - intros Hreq ->. by rewrite Hreq in Htick.
  - unfold clean_duration in En. repeat case_match; simplify_eq. by breflect.
  - destruct (Z.eqb_spec n 0); [by left|right]. simpl in Hdur.
    destruct (Z.ltb_spec (p_max_duration_minutes (val p)) n); [done|lia].
Qed.

(** ** The approval state machine *)

Section machine.
Context {PF : Platform}.

(** What the tables of requests and decisions always satisfy. *)
Record approvals_inv (d : db) : Prop := {
  inv_distinct : ∀ a b, decisions d !! pk a = Some (val a) → decisions d !! pk b = Some (val b) →
    ad_access_request (val a) = ad_access_request (val b) →
    ad_approver (val a) = ad_approver (val b) → pk a = pk b;
  inv_separation : ∀ k x, decisions d !! k = Some x →
    ∃ r, access_requests d !! ad_access_request x = Some r ∧ ad_approver x ≠ ar_requester r;
  inv_pending : ∀ k r p, access_requests d !! k = Some r → policies d !! ar_policy r = Some p →
    ar_status r = RequestStatus.PENDING → approval_count d k < quorum_of p;
  inv_approved : ∀ k r p, access_requests d !! k = Some r → policies d !! ar_policy r = Some p →
    ar_status r = RequestStatus.APPROVED → p_requires_approval p = true →
    quorum_of p <= approval_count d k;
}.

Lemma approvals_inv_ext d d' :
  policies d' = policies d → access_requests d' = access_requests d →
  decisions d' = decisions d → approvals_inv d → approvals_inv d'.
Proof.
  intros Ep Er Ed [H1 H2 H3 H4]. unfold approval_count in *.
  split; unfold approval_count; rewrite ?Ep, ?Er, ?Ed; done.
Qed.

Lemma approvals_inv_frame d d' : audit_frame d d' → approvals_inv d → approvals_inv d'.
Proof. intros (?&?&?&->). by apply approvals_inv_ext. Qed.

Lemma approval_count_other d d' k x request :
  decisions d !! k = None → ad_access_request x ≠ request →
  decisions d' = <[k := x]> (decisions d) → approval_count d' request = approval_count d request.
Proof.
  intros Hk Hx E. unfold approval_count. rewrite E, count_rows_insert by done. simpl.
  by rewrite (bool_decide_false _ Hx).
Qed.

(** A request with no decision at all has no approval. *)
Lemma approval_count_fresh d k :
  approvals_inv d → access_requests d !! k = None → approval_count d k = 0.
Proof.
  intros Hinv Hk. unfold approval_count.
  rewrite (count_rows_ext _ (λ _, false)).
  - unfold count_rows, objects_filter. by induction (rows (decisions d)).
  - intros o Ho. apply andb_false_intro1, bool_decide_eq_false. intros <-.
    destruct (inv_separation _ Hinv _ _ Ho) as (r & Hr & _). congruence.
Qed.

Lemma quorum_pos p : 1 <= quorum_of p.
Proof. unfold quorum_of. lia. Qed.

(** A new decision [x] on the request together with the request's new row [r']
    keeps the invariant, if the new status respects the quorum. *)
Lemma inv_after_decision d d' request r p k x r' :
  approvals_inv d →
  access_requests d !! request = Some r → policies d !! ar_policy r = Some p →
  decisions d !! k = None → ad_access_request x = request → ad_approver x ≠ ar_requester r →
  (∀ y, decisions d !! pk y = Some (val y) →
     ¬ (ad_access_request (val y) = request ∧ ad_approver (val y) = ad_approver x)) →
  ar_requester r' = ar_requester r → ar_policy r' = ar_policy r →
  policies d' = policies d → access_requests d' = <[request := r']> (access_requests d) →
  decisions d' = <[k := x]> (decisions d) →
  (ar_status r' = RequestStatus.PENDING → approval_count d' request < quorum_of p) →
  (ar_status r' = RequestStatus.APPROVED → quorum_of p <= approval_count d' request) →
  approvals_inv d'.
Proof.
  intros Hinv Hr Hp Hk Hx Hne Hnew Hreq Hpol Ep Er Ed Hpend Happ. split.
  - intros a b. rewrite Ed, !lookup_insert_Some. intros Ha Hb Eq1 Eq2.
    destruct Ha as [[Ha1 Ha2]|[? Ha]], Hb as [[Hb1 Hb2]|[? Hb]].
    + congruence.
    + exfalso. apply (Hnew _ Hb). rewrite <- Eq1, <- Eq2, <- Ha2. done.
    + exfalso. apply (Hnew _ Ha). rewrite Eq1, Eq2, <- Hb2. done.
    + by apply (inv_distinct _ Hinv).
  - intros j y. rewrite Ed, Er, lookup_insert_Some. intros [[_ <-]|[_ Hy]].
    + exists r'. by rewrite Hx, lookup_insert_eq, Hreq.
    + destruct (inv_separation _ Hinv _ _ Hy) as (ry & Hry & Hney).
      destruct (decide (ad_access_request y = request)) as [Ej|Hj].
      * exists r'. rewrite Ej in Hry |- *. rewrite lookup_insert_eq, Hreq.
        split; [done|]. congruence.
      * exists ry. by rewrite lookup_insert_ne by done.
  - intros j rj pj. rewrite Er, Ep, lookup_insert_Some. intros [[<- <-]|[Hj Hrj]] Hpj Hsj.
    + rewrite Hpol, Hp in Hpj. injection Hpj as <-. auto.
    + rewrite (approval_count_other d d' k x) by congruence. by eapply (inv_pending _ Hinv).
  - intros j rj pj. rewrite Er, Ep, lookup_insert_Some. intros [[<- <-]|[Hj Hrj]] Hpj Hsj Hra.
    + rewrite Hpol, Hp in Hpj. injection Hpj as <-. auto.
    + rewrite (approval_count_other d d' k x) by congruence. by eapply (inv_approved _ Hinv).
Qed.

Lemma decided_row_fields status actor at_ comment stamp r :
  ar_status r = RequestStatus.PENDING →
  let r' := decided_row status actor at_ comment stamp r in
  ar_requester r' = ar_requester r ∧ ar_policy r' = ar_policy r ∧ ar_status r' = status.
Proof. intros Hs. unfold decided_row. case_decide; simpl; by rewrite ?Hs. Qed.

(** Deciding keeps the invariant. *)
Lemma decide_keeps request actor approve comment w :
  approvals_inv (w_db w) →
  approvals_inv (w_db (decide_access_request request actor approve comment w).2).
Proof.
  intros Hinv. destruct (decide_access_request _ _ _ _ w) as [[o|e] w'] eqn:E; cbn [snd].
  2:{ by rewrite (atomic_raise_db _ _ _ _ E). }
  apply decide_ok_inv in E as (r & p & k & st & at_ & stamp & status & w2 & a & Hr & Hp & Hs & Hne
    & _ & Hnew & Hk & Hd2 & Hstatus & -> & Hrec).
  apply record_event_frame in Hrec. eapply approvals_inv_frame; [done|].
  destruct (decided_row_fields status (pk actor) at_ comment stamp r Hs) as (Hreq & Hpol & Hst).
  eapply (inv_after_decision _ (w_db w2) request r p k _ _ Hinv Hr Hp Hk _ _ _ Hreq Hpol);
    [by rewrite Hd2..| |]; rewrite Hst, Hstatus; unfold next_status;
    repeat case_match; try done; by breflect.
  Unshelve. all: done.
Qed.

(** What a submission can do: nothing but the audit trail, or one new request
    whose status follows the policy. *)
Lemma requests_page_post_db u m f w res w' :
  requests_page_post u m f w = (res, w') →
  audit_frame (w_db w) (w_db w') ∨
  ∃ k r p, access_requests (w_db w) !! k = None ∧ policies (w_db w) !! ar_policy r = Some p ∧
    ar_status r = (if p_requires_approval p then RequestStatus.PENDING else RequestStatus.APPROVED) ∧
    audit_frame (w_db w <| access_requests ::= <[k := r]> |>) (w_db w').
Proof.
  unfold requests_page_post. rewrite run_uuid4. unfold mbind at 1, M_bind at 1.
  destruct (policies_allowing _ _ _ _ (drawn w)) as [[allowed|e] w1] eqn:Ea;
    pose proof (quiet_run _ _ _ _ (policies_allowing_quiet _ _ _ _) Ea) as [Hd _]; simpl in Hd.
  2:{ intros [= <- <-]. left. by rewrite Hd. }
  apply policies_allowing_sound in Ea as [_ Hall]. simpl in Hall.
  run. destruct (clean_form (w_db w1) allowed f) as [[[[[p t] reason] ticket] n]|] eqn:Ef.
  2:{ intros [= <- <-]. left. by rewrite Hd. }
  destruct (clean_form_inv _ _ _ _ _ _ _ _ Ef) as (Hp & _).
  apply Hall in Hp as (? & ? & _ & _ & ((Hp & _) & _)).
  assert (∃ dec w2, (if p_requires_approval (val p) then mret (RequestStatus.PENDING, None)
                 else at_ ← now; mret (RequestStatus.APPROVED, Some at_)) w1
            = (Ok (dec : RequestStatus.t * option Z), w2) ∧ w_db w2 = w_db w1 ∧
            dec.1 = if p_requires_approval (val p) then RequestStatus.PENDING
                    else RequestStatus.APPROVED) as (dec & w2 & E & Hd2 & Hdec).
  { destruct (p_requires_approval (val p)); by do 2 eexists. }
  rewrite (bind_ok _ _ _ _ _ E). run. unfold mbind at 1, M_bind at 1, insert_row.
  set (row := AccessRequest _ _ _ _ _ _ _ _ _ _ _).
  destruct (access_requests (w_db _) !! _) eqn:Ek; simpl in Ek; rewrite Hd2, Hd in Ek.
  - intros [= <- <-]. left. simpl. by rewrite Hd2, Hd.
  - unfold mbind, M_bind.
    match goal with |- context [record_event ?a ?b ?c ?d ?e ?w] =>
      pose proof (record_event_any a b c d e w) as Hrec end.
    destruct (record_event _ _ _ _ _ _) as [[?|?] ?]; intros [= <- <-]; right;
      exists (draw_uuid4 (w_draws w)), row, (val p); simpl in Hrec; rewrite Hd2, Hd in Hrec; done.
Qed.

(** Submitting keeps the invariant. *)
Lemma submit_keeps u m f w :
  approvals_inv (w_db w) → approvals_inv (w_db (requests_page_post u m f w).2).
Proof.
  intros Hinv.
  destruct (requests_page_post_db u m f w _ _ (surjective_pairing _))
    as [Hf|(k & r & p & Hk & Hp & Hs & Hf)]; (eapply approvals_inv_frame; [exact Hf|]); [done|].
  split; simpl.
  - apply (inv_distinct _ Hinv).
  - intros j x Hx. destruct (inv_separation _ Hinv _ _ Hx) as (rx & Hrx & Hne).
    exists rx. split; [|done]. rewrite lookup_insert_ne; [done|]. congruence.
  - intros j rj pj. rewrite lookup_insert_Some. intros [[<- <-]|[Hj Hrj]] Hpj Hsj.
    + pose proof (approval_count_fresh _ _ Hinv Hk) as E. unfold approval_count in *. simpl.
      rewrite E. pose proof (quorum_pos pj). lia.
    + by apply (inv_pending _ Hinv j rj pj).
  - intros j rj pj. rewrite lookup_insert_Some. intros [[<- <-]|[Hj Hrj]] Hpj Hsj Hra.
    + rewrite Hp in Hpj. injection Hpj as <-. rewrite Hra in Hs. congruence.
    + by apply (inv_approved _ Hinv j rj pj).
Qed.

(** One operation on requests, by anyone, with any outcome. *)
Inductive approval_step : world → world → Prop :=
  | step_decide request actor approve comment w :
      approval_step w (decide_access_request request actor approve comment w).2
  | step_submit u m f w : approval_step w (requests_page_post u m f w).2
  | step_quiet w w' : reads w w' → approval_step w w'.

Lemma approvals_inv_steps w w' :
  rtc approval_step w w' → approvals_inv (w_db w) → approvals_inv (w_db w').
Proof.
  induction 1 as [|w w1 w' Hstep _ IH]; [done|]. intros Hinv. apply IH. destruct Hstep as [| |? ? [E _]].
  - by apply decide_keeps.
  - by apply submit_keeps.
  - by rewrite E.
Qed.

(** The approvers of a request, one entry per approving decision. *)
Definition approvers (d : db) (request : id) : list id :=
  (λ o, ad_approver (val o)) <$> objects_filter (λ o,
    bool_decide (ad_access_request (val o) = request)
    && bool_decide (ad_decision (val o) = APPROVE)) (decisions d).

Lemma approvers_distinct d request : approvals_inv d → NoDup (approvers d request).
Proof.
  intros Hinv. unfold approvers. apply NoDup_fmap_2_strong.
  - intros a b [Ha Ca]%elem_of_objects_filter [Hb Cb]%elem_of_objects_filter E. breflect.
    assert (pk a = pk b) as Epk by (apply (inv_distinct _ Hinv); congruence).
    destruct a, b; simpl in *. congruence.
  - apply objects_filter_NoDup.
Qed.

(** C6: Four-eyes approval.  Start from a database without requests or decisions
    and run any sequence of submissions and decisions, by anyone, in any order
    and with any outcome.  Then every approved request whose policy requires
    approval has approving decisions by at least the policy's quorum (never less
    than one) of pairwise distinct users, none of whom is the requester. *)
Theorem approved_requests_have_quorum w0 w k r p :
  access_requests (w_db w0) = ∅ → decisions (w_db w0) = ∅ →
  rtc approval_step w0 w →
  access_requests (w_db w) !! k = Some r → policies (w_db w) !! ar_policy r = Some p →
  ar_status r = RequestStatus.APPROVED → p_requires_approval p = true →
  ∃ l, NoDup l ∧ Z.max 1 (p_approval_quorum p) <= Z.of_nat (length l) ∧
    ∀ u, u ∈ l → u ≠ ar_requester r ∧
      ∃ x, decisions (w_db w) !! pk x = Some (val x) ∧ ad_access_request (val x) = k ∧
           ad_approver (val x) = u ∧ ad_decision (val x) = APPROVE.
Proof.
  intros Hr0 Hd0 Hsteps Hr Hp Hs Hra.
  assert (approvals_inv (w_db w)) as Hinv.
  { eapply approvals_inv_steps; [done|]. split; unfold approval_count; rewrite ?Hr0, ?Hd0; intros; simplify_map_eq. }
  exists (approvers (w_db w) k). split; [by apply approvers_distinct|]. split.
  - unfold approvers. rewrite length_fmap. by apply (inv_approved _ Hinv k r p).
  - intros u (x & -> & [Hx Hc]%elem_of_objects_filter)%list_elem_of_fmap. breflect.
    split; [|eauto 10]. destruct (inv_separation _ Hinv _ _ Hx) as (r' & Hr' & Hne). congruence.
Qed.
End machine.

(** ** What deciding and submitting do *)

Section outcomes.
Context {PF : Platform}.

(** A decision goes through only for a pending request, by somebody other than
    the requester who is entitled to decide and has not decided it before.  It
    adds exactly one decision, the request's new status is "rejected" for a
    refusal, "approved" when the approvals now reach the quorum and "pending"
    otherwise, and exactly one audit event is appended, naming the actor. *)
Theorem decide_access_request_effect request actor approve comment w o w' :
  decide_access_request request actor approve comment w = (Ok o, w') →
  ∃ r p k x,
    access_requests (w_db w) !! request = Some r ∧ policies (w_db w) !! ar_policy r = Some p ∧
    ar_status r = RequestStatus.PENDING ∧ pk actor ≠ ar_requester r ∧
    may_decide (w_db w) (w_clock w) p actor ∧
    (∀ y, decisions (w_db w) !! pk y = Some (val y) →
       ¬ (ad_access_request (val y) = request ∧ ad_approver (val y) = pk actor)) ∧
    decisions (w_db w) !! k = None ∧
    decisions (w_db w') = <[k := x]> (decisions (w_db w)) ∧
    ad_access_request x = request ∧ ad_approver x = pk actor ∧
    ad_decision x = (if approve then APPROVE else REJECT) ∧
    access_requests (w_db w') = <[request := val o]> (access_requests (w_db w)) ∧
    ar_status (val o) = next_status approve (approval_count (w_db w') request) (quorum_of p) ∧
    ar_requester (val o) = ar_requester r ∧ ar_policy (val o) = ar_policy r ∧
    ∃ e, audit_events (w_db w) !! pk e = None ∧ e_actor (val e) = Some (pk actor) ∧
         audit_events (w_db w') = <[pk e := val e]> (audit_events (w_db w)).
Proof.
  intros H. apply decide_ok_inv in H as (r & p & k & st & at_ & stamp & status & w2 & a & Hr & Hp & Hs
    & Hne & Hmay & Hnew & Hk & Hd2 & Hstatus & -> & Hrec).
  destruct (decided_row_fields status (pk actor) at_ comment stamp r Hs) as (Hreq & Hpol & Hst).
  apply record_event_ok_inv in Hrec as (st0 & sig & _ & Ha & _ & _ & Hfresh & _ & _ & Hev & (?&?&?&E)).
  assert (approval_count (w_db w') request = approval_count (w_db w2) request) as Hc by by rewrite E.
  exists r, p, k, (ApprovalDecision request (pk actor) (if approve then APPROVE else REJECT) comment st).
  split_and!; try done; [by rewrite E, Hd2..|by rewrite Hc, <- Hstatus|].
  exists a. rewrite Hd2 in Hfresh, Hev. split_and!; try done. by rewrite Ha.
Qed.

(** Refused decisions change nothing.  On a request that is no longer pending,
    by its own requester (super-administrators included), by somebody who may not
    decide, or a second time by the same approver, [decide_access_request] raises
    the corresponding error and the database is exactly as before. *)
Theorem decide_access_request_refusals request actor approve comment w r p :
  access_requests (w_db w) !! request = Some r → policies (w_db w) !! ar_policy r = Some p →
  let run := decide_access_request request actor approve comment w in
  let already := ∃ x, decisions (w_db w) !! pk x = Some (val x) ∧
                      ad_access_request (val x) = request ∧ ad_approver (val x) = pk actor in
  (ar_status r ≠ RequestStatus.PENDING → ∃ m, run.1 = Raise (ValidationError m)) ∧
  (ar_status r = RequestStatus.PENDING → pk actor = ar_requester r →
     ∃ m, run.1 = Raise (PermissionDenied m)) ∧
  (ar_status r = RequestStatus.PENDING → pk actor ≠ ar_requester r →
     ¬ may_decide (w_db w) (w_clock w) p actor → ∃ m, run.1 = Raise (PermissionDenied m)) ∧
  (ar_status r = RequestStatus.PENDING → pk actor ≠ ar_requester r →
     may_decide (w_db w) (w_clock w) p actor → already → ∃ m, run.1 = Raise (ValidationError m)) ∧
  (∀ e, run.1 = Raise e → w_db run.2 = w_db w).
Proof.
  intros Hr Hp run already.
  assert (∀ A (m : M A), (atomic m w).1 = (m w).1) as Hatom.
  { intros A m. unfold atomic. by destruct (m w) as [[?|?] ?]. }
  split_and!; try (intros; unfold run, decide_access_request; rewrite Hatom, (run_get _ _ _ _ _ _ Hr);
    cbn [val]; rewrite (run_get _ _ _ _ _ _ Hp); cbn [val]).
  - rewrite run_raise_if_true by (by apply bool_decide_eq_true). by eexists.
  - rewrite run_raise_if_false by (apply bool_decide_eq_false; naive_solver).
    rewrite run_raise_if_true by (by apply bool_decide_eq_true). by eexists.
  - rewrite run_raise_if_false by (apply bool_decide_eq_false; naive_solver).
    rewrite run_raise_if_false by (by apply bool_decide_eq_false).
    destruct (actor_may_decide_run p actor w) as (b & w1 & E & _ & Hb).
    rewrite (bind_ok _ _ _ _ _ E). destruct b; [naive_solver|]. by eexists.
  - rewrite run_raise_if_false by (apply bool_decide_eq_false; naive_solver).
    rewrite run_raise_if_false by (by apply bool_decide_eq_false).
    destruct (actor_may_decide_run p actor w) as (b & w1 & E & [Hd _] & Hb).
    rewrite (bind_ok _ _ _ _ _ E). rewrite (proj2 Hb) by done. cbn [negb].
    rewrite run_raise_if_false by done. run. rewrite Hd.
    rewrite run_raise_if_true; [by eexists|].
    destruct H2 as (x & Hx & ? & ?). apply exists_row_true. exists x. split; [done|].
    by rewrite !bool_decide_true.
  - intros e E. unfold run in *. eapply (atomic_raise_db _ _ e).
    rewrite <- E. unfold decide_access_request. apply surjective_pairing.
Qed.

(** A submitted request is backed by a policy.  When [requests_page] stores a
    request, some policy granted the requester the action "request access" from
    the client's address while the page ran; the target is enabled and covered by
    that policy; the duration respects the policy's maximum, the reason is not
    empty and a ticket is given when the policy wants one; and the request is
    pending exactly when the policy requires approval. *)
Theorem submitted_request_is_backed u m f w k w' :
  requests_page_post u m f w = (Ok (Some k), w') →
  ∃ r p t, access_requests (w_db w) !! k = None ∧
    access_requests (w_db w') = <[k := r]> (access_requests (w_db w)) ∧
    ar_requester r = pk u ∧ ar_policy r = pk p ∧
    (∃ i, (time_flows w → w_clock w <= i <= w_clock w') ∧
          grants (w_db w) (pk u) p REQUEST_ACCESS i (request_client_ip m)) ∧
    targets (w_db w) !! ar_target r = Some t ∧ t_enabled t = true ∧
    names_target (w_db w) (val p) (ar_target r) ∧
    ar_reason r ≠ "" ∧ (p_ticket_required (val p) = true → ar_ticket_reference r ≠ "") ∧
    (ar_requested_duration_minutes r = 0 ∨
     ar_requested_duration_minutes r <= p_max_duration_minutes (val p)) ∧
    ar_status r = (if p_requires_approval (val p) then RequestStatus.PENDING
                   else RequestStatus.APPROVED).
Proof.
  unfold requests_page_post. intros H. run_inv H.
  apply policies_allowing_sound in R as [[Hd Hl] Hall]. simpl in Hd, Hall.
  destruct (clean_form (w_db w0) a f) as [[[[[p t] reason] ticket] n]|] eqn:Ef; [|discriminate].
  run_inv H.
  assert (w_db w1 = w_db w ∧ a0.1 = (if p_requires_approval (val p) then RequestStatus.PENDING
           else RequestStatus.APPROVED) ∧ later w0 w1) as (Hd1 & Hs & Hl1).
  { destruct (p_requires_approval (val p)); run_inv R; simpl; rewrite ?Hd; auto with pam. }
  destruct (clean_form_inv _ _ _ _ _ _ _ _ Ef) as (Hp & Ht & Hen & Hcov & Hrs & Htk & _ & Hn).
  apply Hall in Hp as (uo & i & [= <-] & Hi & Hg). rewrite Hd in Ht, Hcov. simpl in Enew, Hi.
  rewrite Hd1 in Enew.
  pose proof (flows_run _ _ _ _ (record_event_flows _ _ _ _ _) R0) as Hl2.
  apply record_event_frame in R0 as (?&?&?&E). simpl in E, Hl2. rewrite Hd1 in E.
  eexists. exists p, (val t). split; [done|]. split; [by rewrite E|]. simpl.
  do 2 (split; [done|]). split_and!; try done.
  exists i. split; [|done]. intros Hf.
  eapply (instant_weaken w (drawn w) w0 w2 None i); [| |exact Hl|exact Hi|exact Hf].
  - intros _. split; [simpl; lia|done].
  - etrans; [exact Hl1|]. etrans; [|exact Hl2]. etrans; apply later_advance.
Qed.
End outcomes.

(** ** Concrete runs *)

Section witnesses.
#[local] Existing Instance demo_platform.

Definition demo_boss : obj user :=
  Obj 9%N (User "boss" "boss@example.org" "Boss" true true false "system" "fr" "hash:secret").

Definition demo_approval_policy : access_policy :=
  demo_policy <| p_requires_approval := true |> <| p_weekdays := [] |>
    <| p_source_cidrs := [] |>.

Definition demo_approval_world : world :=
  demo_world (demo_policy_db <| policies := {[40%N := demo_approval_policy]} |>).

Definition demo_form : request_form :=
  RequestForm (Some 40%N) (Some 20%N) "restart the service" "" (Some 30).

Definition demo_meta : request_meta := RequestMeta None (Some "192.0.2.9").

Definition demo_submitted : world := Eval vm_compute in
  (requests_page_post demo_alice demo_meta demo_form demo_approval_world).2.

Definition demo_approved : world := Eval vm_compute in
  (decide_access_request 1000 demo_boss true "ok" demo_submitted).2.

Definition demo_request (w : world) : access_request :=
  default (AccessRequest 0 0 0 "" "" 0 RequestStatus.EXPIRED None None "" (Stamps 0 0))
    (access_requests (w_db w) !! 1000%N).

Lemma demo_submit_step : approval_step demo_approval_world demo_submitted.
Proof.
  replace demo_submitted
    with (requests_page_post demo_alice demo_meta demo_form demo_approval_world).2
    by (vm_compute; reflexivity).
  apply step_submit.
Qed.

Lemma demo_decide_step : approval_step demo_submitted demo_approved.
Proof.
  replace demo_approved with (decide_access_request 1000 demo_boss true "ok" demo_submitted).2
    by (vm_compute; reflexivity).
  apply step_decide.
Qed.

Lemma approved_requests_have_quorum_witness :
  ∃ l, NoDup l ∧ Z.max 1 1 <= Z.of_nat (length l) ∧
    ∀ u, u ∈ l → u ≠ 7%N ∧
      ∃ x, decisions (w_db demo_approved) !! pk x = Some (val x) ∧
           ad_access_request (val x) = 1000%N ∧ ad_approver (val x) = u ∧ ad_decision (val x) = APPROVE.
Proof.
  apply (approved_requests_have_quorum demo_approval_world demo_approved 1000
           (demo_request demo_approved) demo_approval_policy).
  - reflexivity.
  - reflexivity.
  - eapply rtc_l; [apply demo_submit_step|]. eapply rtc_l; [apply demo_decide_step|]. apply rtc_refl.
  - vm_compute. reflexivity.
  - vm_compute. reflexivity.
  - vm_compute. reflexivity.
  - reflexivity.
Defined.

Lemma decide_access_request_effect_witness :
  ∃ r p k x,
    access_requests (w_db demo_submitted) !! 1000%N = Some r ∧
    policies (w_db demo_submitted) !! ar_policy r = Some p ∧
    ar_status r = RequestStatus.PENDING ∧ pk demo_boss ≠ ar_requester r ∧
    may_decide (w_db demo_submitted) (w_clock demo_submitted) p demo_boss ∧
    (∀ y, decisions (w_db demo_submitted) !! pk y = Some (val y) →
       ¬ (ad_access_request (val y) = 1000%N ∧ ad_approver (val y) = pk demo_boss)) ∧
    decisions (w_db demo_submitted) !! k = None ∧
    decisions (w_db demo_approved) = <[k := x]> (decisions (w_db demo_submitted)) ∧
    ad_access_request x = 1000%N ∧ ad_approver x = pk demo_boss ∧ ad_decision x = APPROVE ∧
    access_requests (w_db demo_approved)
      = <[1000%N := demo_request demo_approved]> (access_requests (w_db demo_submitted)) ∧
    ar_status (demo_request demo_approved)
      = next_status true (approval_count (w_db demo_approved) 1000) (quorum_of p) ∧
    ar_requester (demo_request demo_approved) = ar_requester r ∧
    ar_policy (demo_request demo_approved) = ar_policy r ∧
    ∃ e, audit_events (w_db demo_submitted) !! pk e = None ∧ e_actor (val e) = Some (pk demo_boss) ∧
         audit_events (w_db demo_approved) = <[pk e := val e]> (audit_events (w_db demo_submitted)).
Proof.
  apply (decide_access_request_effect 1000 demo_boss true "ok" demo_submitted
           (Obj 1000%N (demo_request demo_approved)) demo_approved).
  vm_compute. reflexivity.
Defined.

Lemma decide_access_request_refusals_witness :
  ∃ m, (decide_access_request 1000 demo_boss true "again" demo_approved).1 = Raise (ValidationError m).
Proof.
  destruct (decide_access_request_refusals 1000 demo_boss true "again" demo_approved
              (demo_request demo_approved) demo_approval_policy) as [Hdecided _].
  - vm_compute; reflexivity.
  - vm_compute; reflexivity.
  - apply Hdecided. vm_compute; discriminate.
Defined.

Lemma submitted_request_is_backed_witness :
  ∃ r p t, access_requests (w_db demo_approval_world) !! 1000%N = None ∧
    access_requests (w_db demo_submitted) = <[1000%N := r]> (access_requests (w_db demo_approval_world)) ∧
    ar_requester r = pk demo_alice ∧ ar_policy r = pk p ∧
    (∃ i, (time_flows demo_approval_world → w_clock demo_approval_world <= i <= w_clock demo_submitted) ∧
          grants (w_db demo_approval_world) (pk demo_alice) p REQUEST_ACCESS i (request_client_ip demo_meta)) ∧
    targets (w_db demo_approval_world) !! ar_target r = Some t ∧ t_enabled t = true ∧
    names_target (w_db demo_approval_world) (val p) (ar_target r) ∧
    ar_reason r ≠ "" ∧ (p_ticket_required (val p) = true → ar_ticket_reference r ≠ "") ∧
    (ar_requested_duration_minutes r = 0 ∨
     ar_requested_duration_minutes r <= p_max_duration_minutes (val p)) ∧
    ar_status r = (if p_requires_approval (val p) then RequestStatus.PENDING
                   else RequestStatus.APPROVED).
Proof.
  apply (submitted_request_is_backed demo_alice demo_meta demo_form demo_approval_world 1000 demo_submitted).
  vm_compute. reflexivity.
Defined.
End witnesses.
