(* ===== verification/Vault.v ===== *)
(** * Secrets and one-time codes ([pamolive/vault/services.py], [key_rotation.py])

    [VaultCipher] (encryption through the keyring service, with refusal of legacy
    key identifiers), time-based one-time passwords, and the re-encryption of
    every stored secret under the active key. *)

From S2P Require Import Prelude PyStr Json Crypto PyTime Models World AuditTrail.

Local Open Scope Z_scope.

(** ** VaultCipher *)

Definition active_key_id : string := "keyring-v1".

Section cipher.
Context {PF : Platform}.

(** [VaultCipher().encrypt]; the keyring's randomness is one draw. *)
Definition encrypt (secret : string) : M string :=
  n ← draw (λ i, i); of_outcome (kr_encrypt keyring n secret).

(** [VaultCipher().decrypt]: keyring failures become a [VaultError]. *)
Definition decrypt (token key_id : string) : M string :=
  if bool_decide (key_id ≠ "") && bool_decide (key_id ≠ active_key_id)
  then raise (VaultError ("Secret uses legacy key '" +:+ key_id +:+ "'; run migrate_secrets_to_keyring"))
  else of_outcome (match kr_decrypt keyring token with
                   | Raise (KeyringError _) => Raise (VaultError "Credential could not be decrypted")
                   | r => r
                   end).

(** What the keyring documents: decryption undoes encryption. *)
Class EncryptingKeyring := {
  decrypt_encrypt n s c : kr_encrypt keyring n s = Ok c → kr_decrypt keyring c = Ok s;
}.

Lemma encrypt_ok_inv s c w w' :
  encrypt s w = (Ok c, w') → w' = drawn w ∧ kr_encrypt keyring (w_draws w) s = Ok c.
Proof. unfold encrypt. intros H. run_inv H. done. Qed.

Lemma encrypt_quiet s : quiet (encrypt s).
Proof. unfold encrypt. solve_quiet. Qed.

Lemma decrypt_quiet token key_id : quiet (decrypt token key_id).
Proof. unfold decrypt. solve_quiet. Qed.

Lemma decrypt_indep token key_id w w' : (decrypt token key_id w).1 = (decrypt token key_id w').1.
Proof. unfold decrypt. by destruct (_ && _). Qed.

Lemma decrypt_run token key_id w : (decrypt token key_id w).2 = w.
Proof. unfold decrypt. by destruct (_ && _). Qed.
End cipher.

(** ** Time-based one-time passwords *)

Definition remove_char (c : ascii) (s : string) : string :=
  of_chars (filter (λ x, x ≠ c) (chars s)).

Definition normalize_totp_secret (secret : string) : string :=
  upper (remove_char "-" (remove_char " " secret)).

Definition interval : Z := 30.
Definition digits : Z := 6.

(** Dynamic truncation: four bytes at the offset given by the last byte, without
    the sign bit. *)
Definition truncate (digest : bytes) : Z :=
  let offset := Z.land (default 0 (last digest)) 0x0F in
  Z.land (be_value (take 4 (drop (Z.to_nat offset) digest))) 0x7FFFFFFF.

(** The body of [totp_code] once the counter is known. *)
Definition totp_value (secret : string) (counter : Z) : outcome string :=
  let normalized := normalize_totp_secret secret in
  let padding := of_chars (replicate (Z.to_nat ((8 - len normalized mod 8) mod 8)) "="%char) in
  match b32decode (normalized +:+ padding) with
  | None => Raise (OtherError "binascii.Error")
  | Some key =>
      if (0 <=? counter) && (counter <? 2 ^ 64) then
        Ok (zfill (Z.to_nat digits)
              (str_int (truncate (hmac sha1 key (be_bytes 8 counter)) mod 10 ^ digits)))
      else Raise (OtherError "struct.error")
  end.

(** [totp_code(secret, timestamp)]: a missing or zero timestamp means now. *)
Definition totp_code (secret : string) (timestamp : option Z) : M string :=
  t ← match timestamp with
      | Some t => if t =? 0 then time_time else mret t
      | None => time_time
      end;
  of_outcome (totp_value secret (t / interval)).

(** The loop of [matching_totp_counter], from the newest counter down. *)
Fixpoint find_counter (secret token : string) (candidates : list Z) : M (option Z) :=
  match candidates with
  | [] => mret None
  | c :: l =>
      expected ← totp_code secret (Some (c * interval));
      match compare_digest expected token with
      | None => raise (TypeError "comparing strings with non-ASCII characters is not supported")
      | Some true => mret (Some c)
      | Some false => find_counter secret token l
      end
  end.

(** [range(window, -window - 1, -1)] around the current counter. *)
Definition window_counters (current : Z) (window : nat) : list Z :=
  (λ i, current + Z.of_nat window - Z.of_nat i) <$> seq 0 (2 * window + 1).

Definition matching_totp_counter (secret token : string) (window : nat) (timestamp : option Z)
    : M (option Z) :=
  if bool_decide (token = "") || negb (isdigit token) then mret None
  else
    t ← match timestamp with Some t => mret t | None => time_time end;
    find_counter secret token (window_counters (t / interval) window).

Definition verify_totp (secret token : string) (window : nat) : M bool :=
  r ← matching_totp_counter secret token window None;
  mret (bool_decide (is_Some r)).

(** RFC 6238, appendix B (SHA-1), truncated to six digits; RFC 4226, appendix D. *)
Example totp_rfc6238 :
  totp_value "GEZDGNBVGY3TQOJQ gezdgnbvgy3tqojq" (59 / 30) = Ok "287082" ∧
  totp_value "GEZDGNBV-GY3TQOJQ-GEZDGNBV-GY3TQOJQ" (1111111109 / 30) = Ok "081804" ∧
  totp_value "GEZDGNBVGY3TQOJQGEZDGNBVGY3TQOJQ" (20000000000 / 30) = Ok "353130" ∧
  totp_value "GEZDGNBVGY3TQOJQGEZDGNBVGY3TQOJQ" 0 = Ok "755224" ∧
  totp_value "not base32!" 0 = Raise (OtherError "binascii.Error").
Proof. vm_compute. repeat split. Qed.

(** *** Facts *)

Lemma pretty_N_go_length n x s :
  (x < 10 ^ N.of_nat n)%N → (String.length (pretty_N_go x s) <= n + String.length s)%nat.
Proof.
  revert x s. induction n as [|n IH]; intros x s Hx.
  - simpl in Hx. by assert (x = 0%N) as -> by lia.
  - destruct (decide (x = 0%N)) as [->|Hne]; [rewrite pretty_N_go_0; lia|].
    rewrite pretty_N_go_step by lia. etrans; [apply IH|simpl; lia].
    apply N.Div0.div_lt_upper_bound. rewrite Nat2N.inj_succ, N.pow_succ_r' in Hx. lia.
Qed.

Lemma str_int_length n z :
  (0 < n)%nat → 0 <= z < 10 ^ Z.of_nat n → (String.length (str_int z) <= n)%nat.
Proof.
  intros Hn Hz. unfold str_int, pretty, pretty_Z. destruct z as [|p|p]; [simpl; lia| |lia].
  unfold pretty, pretty_positive, pretty, pretty_N. case_decide; [done|].
  etrans; [apply (pretty_N_go_length n)|simpl; lia].
  apply N2Z.inj_lt. rewrite N2Z.inj_pow. simpl. rewrite nat_N_Z. lia.
Qed.

Lemma zfill_length n s :
  (String.length s <= n)%nat → String.length (zfill n s) = n.
Proof.
  intros H. unfold zfill. rewrite <- length_chars.
  assert (∀ l t, chars (of_chars l +:+ t) = l ++ chars t) as E.
  { induction l as [|c l IH]; intros t; [done|]. simpl. by rewrite <- IH. }
  rewrite E, length_app, length_replicate, length_chars. lia.
Qed.

(** A computed code is six characters. *)
Lemma totp_value_length secret counter code :
  totp_value secret counter = Ok code → String.length code = 6%nat.
Proof.
  unfold totp_value. destruct (b32decode _); [|done]. case_match; [|done]. intros [= <-].
  apply zfill_length. apply str_int_length; [lia|]. apply Z.mod_pos_bound. reflexivity.
Qed.

Lemma window_counters_spec current window c :
  c ∈ window_counters current window ↔ current - Z.of_nat window <= c <= current + Z.of_nat window.
Proof.
  unfold window_counters. rewrite list_elem_of_fmap. setoid_rewrite elem_of_seq. split.
  - intros (i & -> & ?). lia.
  - intros H. exists (Z.to_nat (current + Z.of_nat window - c)). lia.
Qed.

(** The candidates come newest first. *)
Lemma window_counters_sorted current window :
  StronglySorted (λ a b, b < a) (window_counters current window).
Proof.
  unfold window_counters. generalize 0%nat at 1.
  induction (2 * window + 1)%nat as [|n IH]; intros s; simpl; constructor; [apply IH|].
  apply Forall_forall. intros x (i & -> & Hi%elem_of_seq)%list_elem_of_fmap. lia.
Qed.

Lemma totp_code_at secret c w :
  c ≠ 0 → totp_code secret (Some (c * interval)) w = (totp_value secret c, w).
Proof.
  intros Hc. unfold totp_code, interval. destruct (Z.eqb_spec (c * 30) 0); [lia|].
  rewrite run_ret, Z.div_mul by lia. done.
Qed.

(** What the loop answers when it answers. *)
Lemma find_counter_spec secret token l w r w' :
  0 ∉ l → StronglySorted (λ a b, b < a) l →
  find_counter secret token l w = (Ok r, w') →
  w' = w ∧
  match r with
  | Some c => c ∈ l ∧ totp_value secret c = Ok token ∧
              ∀ c', c' ∈ l → c < c' → totp_value secret c' ≠ Ok token
  | None => ∀ c, c ∈ l → totp_value secret c ≠ Ok token
  end.
Proof.
  intros H0 Hs. induction Hs as [|c l Hs IH Hall]; simpl; intros H.
  - prim_inv H. split; [done|]. intros c Hc. by apply not_elem_of_nil in Hc.
  - rewrite not_elem_of_cons in H0. destruct H0 as [Hc0 H0].
    apply bind_ok_inv in H as (code & w1 & Hcode & H).
    rewrite totp_code_at in Hcode by done. injection Hcode as Hcode <-.
    unfold compare_digest in H. destruct (is_ascii code && is_ascii token); [|done].
    case_bool_decide as Heq.
    + subst. prim_inv H. split; [done|]. split; [by left|]. split; [done|].
      intros c' [->|Hin]%elem_of_cons Hlt; [lia|].
      rewrite Forall_forall in Hall. specialize (Hall _ Hin). lia.
    + apply IH in H as [-> Hr]; [|done]. split; [done|]. destruct r as [c2|].
      * destruct Hr as (? & ? & Hmax). split; [by right|]. split; [done|].
        intros c' [->|Hin]%elem_of_cons Hlt; [congruence|auto].
      * intros c' [->|Hin]%elem_of_cons; [congruence|auto].
Qed.

Definition all_digits (s : string) : Prop := forallb is_ascii_digit (chars s) = true.

Lemma pretty_N_go_digits x s : all_digits s → all_digits (pretty_N_go x s).
Proof.
  revert s. induction (N.lt_wf_0 x) as [x _ IH]; intros s Hs.
  destruct (decide (x = 0)%N) as [->|Hx]; [done|]. rewrite pretty_N_go_step by lia.
  apply IH; [apply N.div_lt; lia|]. unfold all_digits in *. simpl. rewrite Hs, andb_true_r.
  unfold pretty_N_char. repeat case_match; reflexivity.
Qed.

Lemma str_int_digits z : 0 <= z → all_digits (str_int z).
Proof.
  intros Hz. unfold str_int, pretty, pretty_Z. destruct z as [|p|p]; [done| |lia].
  unfold pretty, pretty_positive, pretty, pretty_N. case_decide; [done|]. by apply pretty_N_go_digits.
Qed.

Lemma zfill_digits n s : all_digits s → all_digits (zfill n s).
Proof.
  unfold all_digits, zfill. intros Hs.
  induction (n - String.length s)%nat as [|k IH]; [done|]. simpl. done.
Qed.

Lemma digits_ascii s : all_digits s → is_ascii s = true.
Proof.
  unfold all_digits, is_ascii. rewrite !forallb_elem. intros H c Hc.
  specialize (H c Hc). unfold is_ascii_digit, between in H. breflect. apply Z.ltb_lt. lia.
Qed.

Lemma digits_isdigit s : s ≠ "" → all_digits s → isdigit s = true.
Proof.
  unfold all_digits, isdigit. intros Hne H. rewrite bool_decide_true by done. simpl.
  rewrite forallb_elem in H |- *. intros c Hc. unfold isdigit_char. by rewrite (H c Hc).
Qed.

Lemma totp_value_digits secret counter code :
  totp_value secret counter = Ok code → all_digits code.
Proof.
  unfold totp_value. destruct (b32decode _); [|done]. case_match; [|done]. intros [= <-].
  apply zfill_digits, str_int_digits. apply Z.mod_pos_bound. reflexivity.
Qed.

(** A secret that decodes yields a code for every 64-bit counter. *)
Lemma totp_value_total secret counter code0 :
  totp_value secret 0 = Ok code0 → 0 <= counter < 2 ^ 64 → ∃ code, totp_value secret counter = Ok code.
Proof.
  unfold totp_value. destruct (b32decode _); [|done]. intros _ Hc.
  rewrite (proj2 (Z.leb_le 0 counter)), (proj2 (Z.ltb_lt counter _)) by lia. by eexists.
Qed.

(** The loop answers on an ASCII token and a usable secret. *)
Lemma find_counter_total secret token l w code0 :
  totp_value secret 0 = Ok code0 → is_ascii token = true →
  (∀ c, c ∈ l → 0 < c < 2 ^ 64) → ∃ r, find_counter secret token l w = (Ok r, w).
Proof.
  intros H0 Hascii. induction l as [|c l IH]; intros Hl; [by eexists|]. simpl.
  assert (0 < c < 2 ^ 64) as Hc by (apply Hl; left).
  destruct (totp_value_total secret c code0 H0) as [code Hcode]; [lia|].
  rewrite (bind_ok _ _ w code w) by (rewrite totp_code_at by lia; by rewrite Hcode).
  unfold compare_digest. rewrite (digits_ascii code), Hascii by (by eapply totp_value_digits).
  case_bool_decide; [by eexists|]. apply IH. intros c' ?. apply Hl. by right.
Qed.

Section totp_theorems.
(** One-time code matching is exact.  For a secret that decodes, an ASCII token
    and a clock past the first minutes of the epoch, [matching_totp_counter]
    always answers, without touching the database; it answers with the newest
    counter of the window (one step either side by default) whose code is the
    token, and with nothing exactly when no counter of the window has that code. *)
Theorem matching_totp_counter_exact secret token window w code0 :
  let current := epoch (w_clock w) / interval in
  totp_value secret 0 = Ok code0 → is_ascii token = true →
  Z.of_nat window < current → current + Z.of_nat window < 2 ^ 64 →
  ∃ r, matching_totp_counter secret token window None w
       = (Ok r, if bool_decide (token = "") || negb (isdigit token) then w else advance w) ∧
    match r with
    | Some c => Z.abs (c - current) <= Z.of_nat window ∧ totp_value secret c = Ok token ∧
        ∀ c', c < c' → Z.abs (c' - current) <= Z.of_nat window → totp_value secret c' ≠ Ok token
    | None => ∀ c, Z.abs (c - current) <= Z.of_nat window → totp_value secret c ≠ Ok token
    end.
Proof.
  intros current H0 Hascii Hlo Hhi. unfold matching_totp_counter.
  destruct (bool_decide (token = "") || negb (isdigit token)) eqn:Eg.
  - exists None. split; [done|]. intros c _ Hc.
    assert (token ≠ "") by (intros ->; by apply totp_value_length in Hc).
    apply totp_value_digits in Hc. rewrite bool_decide_false in Eg by done.
    by rewrite digits_isdigit in Eg.
  - unfold time_time. run. fold current.
    destruct (find_counter_total secret token (window_counters current window) (advance w) code0)
      as [r Hr]; [done..| |].
    { intros c Hc%window_counters_spec. lia. }
    exists r. split; [done|]. apply find_counter_spec in Hr as [_ Hr].
    + destruct r as [c|].
      * destruct Hr as (Hc%window_counters_spec & Hv & Hmax). split; [lia|]. split; [done|].
        intros c' Hlt Hc'. apply Hmax; [apply window_counters_spec; lia|done].
      * intros c Hc. apply Hr, window_counters_spec. lia.
    + rewrite window_counters_spec. lia.
    + apply window_counters_sorted.
Qed.

(** A token made of Unicode digits outside ASCII (such as a superscript two)
    passes the [isdigit] guard and makes the comparison raise a [TypeError]
    instead of being rejected as a wrong code. *)
Theorem matching_totp_counter_non_ascii_digit secret token window w code0 :
  let current := epoch (w_clock w) / interval in
  totp_value secret 0 = Ok code0 → isdigit token = true → is_ascii token = false →
  Z.of_nat window < current → current + Z.of_nat window < 2 ^ 64 →
  ∃ m, (matching_totp_counter secret token window None w).1 = Raise (TypeError m).
Proof.
  intros current H0 Hd Hascii Hlo Hhi. unfold matching_totp_counter. rewrite Hd.
  rewrite bool_decide_false by (by intros ->). cbn [orb negb]. unfold time_time. run. fold current.
  unfold window_counters. rewrite Nat.add_1_r. cbn [seq]. rewrite fmap_cons. cbn [find_counter].
  replace (current + Z.of_nat window - Z.of_nat 0) with (current + Z.of_nat window) by lia.
  destruct (totp_value_total secret (current + Z.of_nat window) code0 H0) as [code Hcode]; [lia|].
  rewrite (bind_ok _ _ (advance w) code (advance w)) by (rewrite totp_code_at by lia; by rewrite Hcode).
  unfold compare_digest. rewrite Hascii, andb_false_r. by eexists.
Qed.
End totp_theorems.

(** ** Re-encryption of stored secrets *)

Section rotation.
Context {PF : Platform}.

(** One encrypted column of a table and the column with its key identifier. *)
Record encrypted_field (A : Type) := EncryptedField {
  ef_value : A → string;
  ef_key : A → string;
  ef_set : string → string → A → A;
}.
Arguments ef_value {A} _.
Arguments ef_key {A} _.
Arguments ef_set {A} _.

Record rotation_report := RotationReport {
  scanned_fields : Z;
  fields_to_reencrypt : Z;
  reencrypted_fields : Z;
}.

(** The inner loop over the encrypted fields of one instance: the updated
    instance and whether anything is to be saved. *)
Definition rotate_fields {A} (apply : bool) (fields : list (encrypted_field A))
    (a : A) (rep : rotation_report) : M (A * bool * rotation_report) :=
  fold_m fields (a, false, rep) (λ '(a, dirty, rep) f,
    if decide (ef_value f a = "") then mret (a, dirty, rep)
    else
      plaintext ← decrypt (ef_value f a) (ef_key f a);
      let scanned := scanned_fields rep + 1 in
      if decide (ef_key f a = active_key_id) then
        mret (a, dirty, RotationReport scanned (fields_to_reencrypt rep) (reencrypted_fields rep))
      else if apply then
        c ← encrypt plaintext;
        mret (ef_set f c active_key_id a, true,
              RotationReport scanned (fields_to_reencrypt rep + 1) (reencrypted_fields rep + 1))
      else
        mret (a, dirty,
              RotationReport scanned (fields_to_reencrypt rep + 1) (reencrypted_fields rep))).

(** The loop over one model, in primary-key order; [stamp] is the [updated_at]
    column, for the models that have one. *)
Definition rotate_model {A} (tbl : db → gmap id A) `{!Setter tbl} (fields : list (encrypted_field A))
    (stamp : Z → A → A) (apply : bool) (rep : rotation_report) : M rotation_report :=
  l ← asks (λ d, sort_by (λ o, Z.of_N (pk o)) (rows (tbl d)));
  fold_m l rep (λ rep o,
    r ← rotate_fields apply fields (val o) rep;
    let '(a, dirty, rep') := r in
    (if apply && dirty then
       t ← now;
       save_fields tbl (pk o) (λ _, stamp t a)
     else mret tt) ;;
    mret rep').

Definition credential_fields : list (encrypted_field credential) :=
  [EncryptedField _ c_encrypted_secret c_secret_key_id
     (λ v k c, c <| c_encrypted_secret := v |> <| c_secret_key_id := k |>);
   EncryptedField _ c_encrypted_totp_secret c_totp_key_id
     (λ v k c, c <| c_encrypted_totp_secret := v |> <| c_totp_key_id := k |>)].
Definition vault_item_fields : list (encrypted_field personal_vault_item) :=
  [EncryptedField _ pv_encrypted_payload pv_key_id
     (λ v k c, c <| pv_encrypted_payload := v |> <| pv_key_id := k |>)].
Definition mfa_device_fields : list (encrypted_field mfa_device) :=
  [EncryptedField _ m_encrypted_configuration m_key_id
     (λ v k c, c <| m_encrypted_configuration := v |> <| m_key_id := k |>)].
Definition connector_fields : list (encrypted_field connector) :=
  [EncryptedField _ cn_encrypted_configuration cn_key_id
     (λ v k c, c <| cn_encrypted_configuration := v |> <| cn_key_id := k |>)].
Definition identity_source_fields : list (encrypted_field identity_source) :=
  [EncryptedField _ is_encrypted_configuration is_key_id
     (λ v k c, c <| is_encrypted_configuration := v |> <| is_key_id := k |>)].
Definition rotation_job_fields : list (encrypted_field rotation_job) :=
  [EncryptedField _ j_encrypted_candidate_secret j_candidate_key_id
     (λ v k c, c <| j_encrypted_candidate_secret := v |> <| j_candidate_key_id := k |>)].
Definition siem_fields : list (encrypted_field siem_integration) :=
  [EncryptedField _ si_encrypted_auth_token si_key_id
     (λ v k c, c <| si_encrypted_auth_token := v |> <| si_key_id := k |>)].

(** [ENCRYPTED_MODEL_FIELDS], in the order of the tuple. *)
Definition rotate_all_models (apply : bool) : M rotation_report :=
  r ← rotate_model credentials credential_fields (λ t c, c <| c_stamps ::= touch t |>) apply
        (RotationReport 0 0 0);
  r ← rotate_model vault_items vault_item_fields (λ t c, c <| pv_stamps ::= touch t |>) apply r;
  r ← rotate_model mfa_devices mfa_device_fields (λ t c, c <| m_stamps ::= touch t |>) apply r;
  r ← rotate_model connectors connector_fields (λ _ c, c) apply r;
  r ← rotate_model identity_sources identity_source_fields (λ t c, c <| is_stamps ::= touch t |>) apply r;
  r ← rotate_model rotation_jobs rotation_job_fields (λ t c, c <| j_stamps ::= touch t |>) apply r;
  rotate_model siem_integrations siem_fields (λ _ c, c) apply r.

Definition rotate_vault_encryption (apply : bool) (actor : option id) : M rotation_report :=
  atomic (
    rep ← rotate_all_models apply;
    (if apply && (0 <? reencrypted_fields rep) then
       get_chain_state ;;
       record_event actor "vault.master_key_rotated" (Resource "audit.auditchainstate" "1")
         [("active_key_id", JStr active_key_id); ("reencrypted_fields", JInt (reencrypted_fields rep))]
         None ;;
       mret tt
     else mret tt) ;;
    mret rep).
End rotation.
Arguments ef_value {A} _.
Arguments ef_key {A} _.
Arguments ef_set {A} _.

(** The demonstration keyring gives back what it encrypted. *)
Lemma demo_encrypting : @EncryptingKeyring demo_platform.
Proof.
  constructor. intros n s c H. injection H as <-. unfold keyring. simpl. unfold strip_prefix. simpl.
  destruct s; simpl; by rewrite ?drop_0, ?of_chars_chars.
Qed.
