(* ===== verification/Mfa.v ===== *)
(** * Multi-factor authentication ([pamolive/mfa/services.py])

    Enrolment and confirmation of a TOTP device, verification with replay
    protection, recovery codes, reset. *)

From S2P Require Import Prelude PyStr Json Crypto PyTime Models World AuditTrail Vault.

Local Open Scope Z_scope.

Section mfa.
Context {PF : Platform}.

(** Twenty bytes are four whole base-32 quanta: nothing to strip. *)
Definition generate_totp_secret : M string :=
  b ← token_bytes 20; mret (rstrip_char "=" (of_chars (b32encode b))).

Definition device_secret (device : mfa_device) : M string :=
  decrypt (m_encrypted_configuration device) (m_key_id device).

Definition TOTP_LOCAL : string := "TOTP local".

(** The columns [begin_totp_enrollment] resets. *)
Definition enrol (cipher key_id : string) (stamp : Z) (m : mfa_device) : mfa_device :=
  m <| m_encrypted_configuration := cipher |> <| m_key_id := key_id |> <| m_confirmed := false |>
    <| m_last_used_at := None |> <| m_last_accepted_totp_counter := None |>
    <| m_stamps ::= touch stamp |>.

Definition begin_totp_enrollment (user : id) : M (id * string) :=
  secret ← generate_totp_secret;
  cipher ← encrypt secret;
  atomic (
    found ← asks (λ d, objects_filter (λ o, bool_decide (m_user (val o) = user)
              && bool_decide (m_kind (val o) = TOTP) && bool_decide (m_name (val o) = TOTP_LOCAL))
              (mfa_devices d));
    match found with
    | [o] =>
        stamp ← now;
        save_fields mfa_devices (pk o) (enrol cipher active_key_id stamp) ;;
        mret (pk o, secret)
    | [] =>
        k ← uuid4;
        st ← new_stamps;
        insert_row mfa_devices k
          (MFADevice user TOTP_LOCAL TOTP cipher active_key_id false None None st) ;;
        mret (k, secret)
    | _ => raise (OtherError "MultipleObjectsReturned")
    end).

Definition confirm_totp_device (device : id) (token : string) : M bool :=
  atomic (
    locked ← get_row mfa_devices "MFADevice" device;
    secret ← device_secret (val locked);
    counter ← matching_totp_counter secret token 1 None;
    match counter with
    | None => mret false
    | Some c =>
        at_ ← now;
        stamp ← now;
        save_fields mfa_devices device (λ m,
          m <| m_confirmed := true |> <| m_last_used_at := Some at_ |>
            <| m_last_accepted_totp_counter := Some c |> <| m_stamps ::= touch stamp |>) ;;
        mret true
    end).

(** The user's confirmed TOTP device, the first by primary key. *)
Definition confirmed_totp_device (d : db) (user : id) : option (obj mfa_device) :=
  head (sort_by (λ o, Z.of_N (pk o))
    (objects_filter (λ o, bool_decide (m_user (val o) = user) && bool_decide (m_kind (val o) = TOTP)
                          && m_confirmed (val o)) (mfa_devices d))).

(** [counter <= device.last_accepted_totp_counter] *)
Definition replayed (device : mfa_device) (counter : Z) : bool :=
  match m_last_accepted_totp_counter device with
  | Some last => counter <=? last
  | None => false
  end.

Definition accept_counter (c at_ stamp : Z) (m : mfa_device) : mfa_device :=
  m <| m_last_used_at := Some at_ |> <| m_last_accepted_totp_counter := Some c |>
    <| m_stamps ::= touch stamp |>.

Definition verify_user_totp (user : id) (token : string) : M bool :=
  atomic (
    device ← asks (λ d, confirmed_totp_device d user);
    match device with
    | None => mret false
    | Some o =>
        secret ← device_secret (val o);
        counter ← matching_totp_counter secret token 1 None;
        match counter with
        | None => mret false
        | Some c =>
            if replayed (val o) c then mret false
            else
              at_ ← now;
              stamp ← now;
              save_fields mfa_devices (pk o) (accept_counter c at_ stamp) ;;
              mret true
        end
    end).

(** ** Recovery codes *)

Definition _normalized_recovery_code (value : string) : string :=
  of_chars (filter (λ c, isalnum_char c = true) (chars (upper value))).

(** One iteration of the generation loop. *)
Definition create_recovery_code (user device : id) : M string :=
  hex ← token_hex 5;
  let raw := upper hex in
  code_hash ← draw (λ n, make_password n raw);
  k ← uuid4;
  st ← new_stamps;
  insert_row recovery_codes k (MFARecoveryCode user device code_hash None st) ;;
  mret (slice_to 5 raw +:+ "-" +:+ of_chars (drop 5 (chars raw))).

Fixpoint create_recovery_codes (user device : id) (count : nat) : M (list string) :=
  match count with
  | O => mret []
  | S n =>
      code ← create_recovery_code user device;
      rest ← create_recovery_codes user device n;
      mret (code :: rest)
  end.

Definition replace_recovery_codes (user device : id) (count : nat) : M (list string) :=
  atomic (
    delete_where recovery_codes (λ o, bool_decide (rc_user (val o) = user)
                                      && bool_decide (rc_device (val o) = device)) ;;
    create_recovery_codes user device count).

(** The user's unused codes of confirmed devices, oldest first. *)
Definition usable_codes (d : db) (user : id) : list (obj mfa_recovery_code) :=
  sort_by (λ o, created_at (rc_stamps (val o)))
    (objects_filter (λ o, bool_decide (rc_user (val o) = user) && bool_decide (rc_used_at (val o) = None)
       && match mfa_devices d !! rc_device (val o) with
          | Some m => m_confirmed m
          | None => false
          end) (recovery_codes d)).

Definition use_code (at_ stamp : Z) (c : mfa_recovery_code) : mfa_recovery_code :=
  c <| rc_used_at := Some at_ |> <| rc_stamps ::= touch stamp |>.

Definition consume_recovery_code (user : id) (token : string) : M bool :=
  atomic (
    let normalized := _normalized_recovery_code token in
    if negb (len normalized =? 10) then mret false
    else
      codes ← asks (λ d, usable_codes d user);
      match List.find (λ o, check_password normalized (rc_code_hash (val o))) codes with
      | None => mret false
      | Some o =>
          at_ ← now;
          stamp ← now;
          save_fields recovery_codes (pk o) (use_code at_ stamp) ;;
          mret true
      end).

Definition verify_user_mfa (user : id) (token : string) : M bool :=
  ok ← verify_user_totp user token;
  if ok : bool then mret true else consume_recovery_code user token.

(** The devices of a user, with their recovery codes (on delete: cascade). *)
Definition reset_user_mfa (user : id) : M unit :=
  atomic (
    devices ← asks (λ d, pk <$> objects_filter (λ o, bool_decide (m_user (val o) = user)) (mfa_devices d));
    delete_where recovery_codes (λ o, bool_decide (rc_device (val o) ∈ devices)) ;;
    delete_where mfa_devices (λ o, bool_decide (m_user (val o) = user))).

(** [User.mfa_enrolled] *)
Definition mfa_enrolled (d : db) (user : id) : bool :=
  exists_row (λ o, bool_decide (m_user (val o) = user) && bool_decide (m_kind (val o) = TOTP)
                   && m_confirmed (val o)) (mfa_devices d).
End mfa.

(** ** Verification never accepts a time step twice *)

Section totp_facts.
Context {PF : Platform}.

(** A confirmed TOTP device of the user. *)
Definition totp_device_of (d : db) (u : id) (o : obj mfa_device) : Prop :=
  mfa_devices d !! pk o = Some (val o) ∧ m_user (val o) = u ∧ m_kind (val o) = TOTP ∧
  m_confirmed (val o) = true.

Lemma confirmed_candidates d u o :
  o ∈ objects_filter (λ o, bool_decide (m_user (val o) = u) && bool_decide (m_kind (val o) = TOTP)
                           && m_confirmed (val o)) (mfa_devices d) ↔ totp_device_of d u o.
Proof.
  rewrite elem_of_objects_filter, !andb_true_iff, !bool_decide_eq_true. unfold totp_device_of. tauto.
Qed.

(** The device used is the candidate with the smallest key. *)
Lemma confirmed_totp_device_spec d u o :
  confirmed_totp_device d u = Some o ↔
  totp_device_of d u o ∧ ∀ o', totp_device_of d u o' → (pk o <= pk o')%N.
Proof.
  unfold confirmed_totp_device.
  set (l := objects_filter _ _).
  pose proof (sort_by_sorted (λ o : obj mfa_device, Z.of_N (pk o)) l) as Hs.
  pose proof (λ x, elem_of_sort_by (λ o : obj mfa_device, Z.of_N (pk o)) l x) as Hin.
  assert (∀ x, x ∈ l ↔ totp_device_of d u x) as Hl by apply confirmed_candidates.
  destruct (sort_by _ l) as [|x r]; simpl.
  - split; [done|]. intros [Ho _]. apply Hl, Hin, elem_of_nil in Ho. done.
  - inversion Hs as [|? ? Hs' Hall]; subst. rewrite Forall_forall in Hall.
    assert (∀ y, totp_device_of d u y → (pk x <= pk y)%N) as Hmin.
    { intros y Hy. apply Hl, Hin, elem_of_cons in Hy as [->|Hy]; [done|].
      specialize (Hall _ Hy). simpl in Hall. lia. }
    assert (totp_device_of d u x) as Hx by (apply Hl, Hin; left).
    split; [intros [= <-]; done|]. intros [Ho Hmino]. f_equal.
    specialize (Hmin _ Ho). specialize (Hmino _ Hx).
    destruct x as [kx x], o as [ko o], Ho as [Ho _], Hx as [Hx _]; simpl in *.
    assert (kx = ko) as -> by lia. congruence.
Qed.

(** Rewriting a device without changing its owner, kind and confirmation keeps
    everybody's device. *)
Lemma confirmed_totp_device_update d d' k m m' u :
  mfa_devices d !! k = Some m → mfa_devices d' = <[k := m']> (mfa_devices d) →
  m_user m' = m_user m → m_kind m' = m_kind m → m_confirmed m' = m_confirmed m →
  confirmed_totp_device d' u =
  (λ o, if decide (pk o = k) then Obj k m' else o) <$> confirmed_totp_device d u.
Proof.
  intros Hk Hd' Hu Hkind Hc.
  set (g := λ o : obj mfa_device, if decide (pk o = k) then Obj k m' else o).
  assert (∀ o, pk (g o) = pk o) as Hpk by (intros o; unfold g; case_decide; by subst).
  assert (∀ o, totp_device_of d u o → totp_device_of d' u (g o)) as Hto.
  { intros o (H1 & H2 & H3 & H4). unfold totp_device_of. rewrite Hpk, Hd'. unfold g.
    case_decide as E; simpl.
    - rewrite E, Hk in H1. injection H1 as H1. rewrite E, lookup_insert_eq. split_and!; congruence.
    - rewrite lookup_insert_ne by done. done. }
  assert (∀ o, totp_device_of d' u o → ∃ o0, totp_device_of d u o0 ∧ pk o0 = pk o) as Hfrom.
  { intros o (H1 & H2 & H3 & H4). rewrite Hd', lookup_insert_Some in H1.
    destruct H1 as [[E1 E2]|[E1 H1]].
    - exists (Obj k m). unfold totp_device_of. simpl. rewrite <- E2 in *. split; [|done].
      split_and!; congruence.
    - exists o. unfold totp_device_of. done. }
  destruct (confirmed_totp_device d u) as [o|] eqn:E; simpl.
  - apply confirmed_totp_device_spec in E as [Ho Hmin]. apply confirmed_totp_device_spec.
    split; [by apply Hto|]. intros o' (o0 & H0 & <-)%Hfrom. rewrite Hpk. auto.
  - destruct (confirmed_totp_device d' u) as [o'|] eqn:E'; [|done]. exfalso.
    apply confirmed_totp_device_spec in E' as [(o0 & H0 & _)%Hfrom _].
    unfold confirmed_totp_device in E.
    assert (o0 ∈ sort_by (λ o : obj mfa_device, Z.of_N (pk o)) (objects_filter (λ o, bool_decide (m_user (val o) = u)
      && bool_decide (m_kind (val o) = TOTP) && m_confirmed (val o)) (mfa_devices d))) as Hin
      by (by apply elem_of_sort_by, confirmed_candidates).
    destruct (sort_by _ _); [by apply elem_of_nil in Hin|done].
Qed.

Lemma matching_quiet secret token window ts : quiet (matching_totp_counter secret token window ts).
Proof.
  assert (∀ l, quiet (find_counter secret token l)) as Hf.
  { induction l as [|c l IH]; simpl; [auto with pam|]. apply quiet_bind; [|intros code].
    - unfold totp_code, time_time. solve_quiet.
    - destruct (compare_digest _ _) as [[]|]; auto with pam. }
  unfold matching_totp_counter, time_time. solve_quiet.
Qed.

(** Either nothing changed, or a counter above the last accepted one was. *)
Lemma verify_user_totp_inv u token w r w' :
  verify_user_totp u token w = (r, w') →
  (w_db w' = w_db w ∧ r ≠ Ok true) ∨
  (r = Ok true ∧ ∃ o c at_ stamp, confirmed_totp_device (w_db w) u = Some o ∧
     (∀ last, m_last_accepted_totp_counter (val o) = Some last → last < c) ∧
     w_db w' = w_db w <| mfa_devices ::= <[pk o := accept_counter c at_ stamp (val o)]> |>).
Proof.
  intros H. destruct r as [b|e].
  2:{ left. split; [by eapply atomic_raise_db|done]. }
  unfold verify_user_totp in H. run_inv H.
  destruct (confirmed_totp_device (w_db w) u) as [o|] eqn:Eo; [|prim_inv H; by left].
  run_inv H.
  pose proof (quiet_run _ _ _ _ (decrypt_quiet _ _) R) as [Hd0 _].
  pose proof (quiet_run _ _ _ _ (matching_quiet _ _ _ _) R0) as [Hd1 _].
  rewrite Hd0 in Hd1. destruct a0 as [c|]; [|prim_inv H; left; split; [congruence|done]].
  destruct (replayed (val o) c) eqn:Er; [prim_inv H; left; split; [congruence|done]|].
  run_inv H. right. split; [done|]. exists o, c. do 2 eexists. split; [done|]. split.
  - intros last Hl. unfold replayed in Er. rewrite Hl in Er. by breflect.
  - simpl in *. rewrite Hd1 in *.
    apply confirmed_totp_device_spec in Eo as [[Eo _] _]. rewrite Eo in Erow. injection Erow as <-. done.
Qed.

(** The last counter accepted for the user's device. *)
Definition last_counter (d : db) (u : id) : option Z :=
  confirmed_totp_device d u ≫= λ o, m_last_accepted_totp_counter (val o).

Lemma verify_last_counter u token w w' :
  verify_user_totp u token w = (Ok true, w') →
  ∃ c, last_counter (w_db w') u = Some c ∧
       ∀ c0, last_counter (w_db w) u = Some c0 → c0 < c.
Proof.
  intros [[_ ?]|(_ & o & c & at_ & stamp & Ho & Hlt & Hd)]%verify_user_totp_inv; [done|].
  exists c. unfold last_counter.
  rewrite (confirmed_totp_device_update (w_db w) (w_db w') (pk o) (val o)
             (accept_counter c at_ stamp (val o)) u); [|by rewrite ?Hd; try apply confirmed_totp_device_spec in Ho as [[? _] _]..].
  rewrite Ho. simpl. rewrite decide_True by done. split; [done|]. auto.
Qed.

Lemma verify_keeps_counter u token w u' c0 :
  last_counter (w_db w) u' = Some c0 →
  ∃ c, last_counter (w_db (verify_user_totp u token w).2) u' = Some c ∧ c0 <= c.
Proof.
  intros Hc0. destruct (verify_user_totp u token w) as [r w'] eqn:E. simpl.
  apply verify_user_totp_inv in E as [[-> _]|(_ & o & c & at_ & stamp & Ho & Hlt & Hd)]; [eauto with lia|].
  unfold last_counter in *.
  rewrite (confirmed_totp_device_update (w_db w) (w_db w') (pk o) (val o)
             (accept_counter c at_ stamp (val o)) u'); [|by rewrite ?Hd; try apply confirmed_totp_device_spec in Ho as [[? _] _]..].
  destruct (confirmed_totp_device (w_db w) u') as [o'|] eqn:Eo'; [|done]. simpl in *.
  case_decide as Epk; simpl; [|eauto with lia].
  exists c. split; [done|].
  apply confirmed_totp_device_spec in Eo' as [[H1 _] _], Ho as [[H2 _] _]. rewrite Epk, H2 in H1.
  injection H1 as Ev. rewrite <- Ev in Hc0. specialize (Hlt _ Hc0). lia.
Qed.
End totp_facts.

Section recovery_facts.
Context {PF : Platform}.

Lemma elem_of_usable_codes d u o :
  o ∈ usable_codes d u ↔
  recovery_codes d !! pk o = Some (val o) ∧ rc_user (val o) = u ∧ rc_used_at (val o) = None ∧
  ∃ m, mfa_devices d !! rc_device (val o) = Some m ∧ m_confirmed m = true.
Proof.
  unfold usable_codes. rewrite elem_of_sort_by, elem_of_objects_filter, !andb_true_iff, !bool_decide_eq_true.
  destruct (mfa_devices d !! rc_device (val o)) as [m|]; naive_solver.
Qed.

Lemma consume_recovery_code_inv u token w r w' :
  consume_recovery_code u token w = (r, w') →
  (w_db w' = w_db w ∧ r = Ok false) ∨
  (r = Ok true ∧ ∃ o at_ stamp, o ∈ usable_codes (w_db w) u ∧
     check_password (_normalized_recovery_code token) (rc_code_hash (val o)) = true ∧
     w_db w' = w_db w <| recovery_codes ::= <[pk o := use_code at_ stamp (val o)]> |>).
Proof.
  unfold consume_recovery_code, atomic. destruct (negb _); [intros [= <- <-]; by left|].
  run. destruct (List.find _ _) as [o|] eqn:Ef; [|intros [= <- <-]; by left].
  apply find_elem in Ef as [Hin Hc].
  assert (recovery_codes (w_db w) !! pk o = Some (val o)) as Hrow
    by (apply elem_of_usable_codes in Hin; apply Hin).
  run. rewrite (run_save _ _ (val o)) by done. intros [= <- <-].
  right. split; [done|]. exists o. do 2 eexists. done.
Qed.

(** Recovery codes work once.  A consumption that succeeds turns exactly one
    unused code of the user, whose hash accepts the given token and whose device
    is confirmed, into a used one: afterwards the user's usable codes are the
    former ones without it.  A consumption that fails returns [False] and changes
    nothing; it never raises. *)
Theorem recovery_codes_single_use u token w :
  let r := consume_recovery_code u token w in
  (r.1 = Ok false ∧ w_db r.2 = w_db w) ∨
  (r.1 = Ok true ∧ ∃ o, o ∈ usable_codes (w_db w) u ∧
     check_password (_normalized_recovery_code token) (rc_code_hash (val o)) = true ∧
     (∃ c, recovery_codes (w_db r.2) !! pk o = Some c ∧ is_Some (rc_used_at c)) ∧
     ∀ o', o' ∈ usable_codes (w_db r.2) u ↔ o' ∈ usable_codes (w_db w) u ∧ pk o' ≠ pk o).
Proof.
  destruct (consume_recovery_code u token w) as [r w'] eqn:E. simpl.
  apply consume_recovery_code_inv in E as [[-> ->]|(-> & o & at_ & stamp & Hin & Hc & Hd)]; [by left|].
  right. split; [done|]. exists o. do 2 (split; [done|]). split.
  { eexists. rewrite Hd. simpl. rewrite lookup_insert_eq. split; [done|]. by eexists. }
  intros o'. rewrite !elem_of_usable_codes, Hd. simpl. rewrite lookup_insert_Some. split.
  - intros ([[<- <-]|[Hne H]] & H2 & H3 & H4); [done|]. split; [done|]. congruence.
  - intros [(H1 & H2 & H3 & H4) Hne]. split; [right; split; congruence|done].
Qed.

(** Time passing, verifications and consumptions by any user, any outcome. *)
Inductive mfa_step : world → world → Prop :=
  | step_totp u token w : mfa_step w (verify_user_totp u token w).2
  | step_recovery u token w : mfa_step w (consume_recovery_code u token w).2
  | step_mfa u token w : mfa_step w (verify_user_mfa u token w).2
  | step_quiet w w' : reads w w' → mfa_step w w'.

Lemma last_counter_ext d d' u :
  mfa_devices d' = mfa_devices d → last_counter d' u = last_counter d u.
Proof. unfold last_counter, confirmed_totp_device. by intros ->. Qed.

Lemma consume_keeps_counter u token w u' :
  last_counter (w_db (consume_recovery_code u token w).2) u' = last_counter (w_db w) u'.
Proof.
  destruct (consume_recovery_code u token w) as [r w'] eqn:E. simpl.
  apply consume_recovery_code_inv in E as [[-> _]|(_ & o & at_ & stamp & _ & _ & ->)]; [done|].
  by apply last_counter_ext.
Qed.

Lemma mfa_steps_keep_counter w w' u c0 :
  rtc mfa_step w w' → last_counter (w_db w) u = Some c0 →
  ∃ c, last_counter (w_db w') u = Some c ∧ c0 <= c.
Proof.
  intros H. revert c0. induction H as [w|w w1 w' Hstep _ IH]; intros c0 Hc0; [eauto with lia|].
  enough (∃ c, last_counter (w_db w1) u = Some c ∧ c0 <= c) as (c1 & H1 & Hle).
  { destruct (IH _ H1) as (c & ? & ?). exists c. split; [done|lia]. }
  destruct Hstep as [v t w|v t w|v t w|w1 w2 [-> _]]; [by apply verify_keeps_counter| | |eauto with lia].
  - rewrite consume_keeps_counter. eauto with lia.
  - unfold verify_user_mfa, mbind, M_bind.
    destruct (verify_keeps_counter v t w u c0 Hc0) as (c & Hc & Hle).
    destruct (verify_user_totp v t w) as [[[]|e] w2]; simpl in *; eauto.
    rewrite consume_keeps_counter. eauto.
Qed.

(** C15: No replay of one-time codes.  Once a code was accepted for a user, a later
    acceptance, after any number of verifications by anybody, recovery-code uses
    and waiting, is for a strictly later time step: no time step of the user's
    device is ever accepted twice. *)
Theorem totp_codes_are_not_replayed u t1 t2 w w1 w2 w3 :
  verify_user_totp u t1 w = (Ok true, w1) →
  rtc mfa_step w1 w2 →
  verify_user_totp u t2 w2 = (Ok true, w3) →
  ∃ c1 c2, last_counter (w_db w1) u = Some c1 ∧ last_counter (w_db w3) u = Some c2 ∧ c1 < c2.
Proof.
  intros (c1 & H1 & _)%verify_last_counter Hsteps (c2 & H2 & Hlt)%verify_last_counter.
  destruct (mfa_steps_keep_counter _ _ _ _ Hsteps H1) as (c & Hc & Hle).
  exists c1, c2. split_and!; try done. specialize (Hlt _ Hc). lia.
Qed.

(** ** Generated codes are accepted *)

(** What the password hasher and the token generator document. *)
Class PasswordHasher := {
  check_make n p : check_password p (make_password n p) = true;
  token_hex_shape n : String.length (draw_token_hex n 5) = 10%nat ∧
    Forall (λ c, is_ascii_digit c = true ∨ between 97 (code c) 102 = true) (chars (draw_token_hex n 5));
}.

(** A lower-case hexadecimal digit in upper case: alphanumeric, and stable. *)
Lemma upper_hex c :
  is_ascii_digit c = true ∨ between 97 (code c) 102 = true →
  code c ≠ 223 ∧ code (upper_char c) ≠ 223 ∧ upper_char (upper_char c) = upper_char c ∧
  isalnum_char (upper_char c) = true.
Proof.
  destruct c as [[] [] [] [] [] [] [] []]; vm_compute; intros [H|H]; try discriminate H;
    split_and!; congruence.
Qed.

Lemma upper_chars s :
  Forall (λ c, code c ≠ 223) (chars s) → chars (upper s) = upper_char <$> chars s.
Proof.
  intros H. unfold upper. rewrite chars_of_chars. induction H as [|c l Hc _ IH]; [done|].
  rewrite fmap_cons, bind_cons, IH. destruct (Z.eqb_spec (code c) 223); [done|done].
Qed.

(** Normalising the displayed form of a generated code gives back the code. *)
Lemma normalized_display hex :
  Forall (λ c, is_ascii_digit c = true ∨ between 97 (code c) 102 = true) (chars hex) →
  _normalized_recovery_code (slice_to 5 (upper hex) +:+ "-" +:+ of_chars (drop 5 (chars (upper hex))))
  = upper hex.
Proof.
  intros H. assert (Forall (λ c, code c ≠ 223) (chars hex)) as H1
    by (eapply Forall_impl; [exact H|]; intros c Hc; by apply upper_hex).
  assert (Forall (λ c, code c ≠ 223 ∧ upper_char c = c ∧ isalnum_char c = true) (chars (upper hex))) as H2.
  { rewrite upper_chars by done. apply Forall_fmap. eapply Forall_impl; [exact H|].
    intros c Hc. unfold compose. destruct (upper_hex c Hc) as (? & ? & ? & ?). done. }
  assert (∀ s t, chars (s +:+ t) = chars s ++ chars t) as Happ.
  { induction s as [|c s IH]; intros t; [done|]. simpl. by rewrite <- IH. }
  apply chars_inj. unfold _normalized_recovery_code. rewrite chars_of_chars, upper_chars.
  - unfold slice_to. rewrite !Happ, !chars_of_chars, !fmap_app, !filter_app.
    rewrite <- (take_drop 5 (chars (upper hex))) in H2 at 1. apply Forall_app in H2 as [Ha Hb].
    rewrite <- (take_drop 5 (chars (upper hex))) at 3. f_equal.
    + revert Ha. generalize (take 5 (chars (upper hex))). induction 1 as [|c l (? & E & ?) _ IH]; [done|].
      rewrite fmap_cons, E, filter_cons_True by done. by rewrite IH.
    + change (filter (λ c, isalnum_char c = true) (upper_char <$> chars "-")) with (@nil ascii). simpl.
      revert Hb. generalize (drop 5 (chars (upper hex))). induction 1 as [|c l (? & E & ?) _ IH]; [done|].
      rewrite fmap_cons, E, filter_cons_True by done. by rewrite IH.
  - rewrite !Happ. unfold slice_to. rewrite !chars_of_chars. apply Forall_app. split.
    + apply Forall_take. eapply Forall_impl; [exact H2|]. naive_solver.
    + constructor; [done|]. apply Forall_drop. eapply Forall_impl; [exact H2|]. naive_solver.
Qed.
End recovery_facts.

Section recovery_round_trip.
Context {PF : Platform} {PH : PasswordHasher}.

(** A row of the code displayed as [code]. *)
Definition code_row (d : db) (u device : id) (code : string) : Prop :=
  ∃ k c, recovery_codes d !! k = Some c ∧ rc_user c = u ∧ rc_device c = device ∧
    rc_used_at c = None ∧ len (_normalized_recovery_code code) = 10 ∧
    check_password (_normalized_recovery_code code) (rc_code_hash c) = true.

Lemma create_recovery_code_inv u device w code w' :
  create_recovery_code u device w = (Ok code, w') →
  code_row (w_db w') u device code ∧ recovery_codes (w_db w) ⊆ recovery_codes (w_db w') ∧
  mfa_devices (w_db w') = mfa_devices (w_db w).
Proof.
  unfold create_recovery_code. intros H. run_inv H.
  destruct (token_hex_shape (w_draws w)) as [Hlen Hhex].
  pose proof (normalized_display _ Hhex) as Hnorm. simpl. split; [|split; [|done]].
  - do 2 eexists. split; [apply lookup_insert_eq|]. simpl. rewrite Hnorm. split_and!; try done.
    + unfold len. rewrite <- length_chars, upper_chars, length_fmap, length_chars, Hlen; [done|].
      eapply Forall_impl; [exact Hhex|]. intros c Hc. by apply upper_hex.
    + apply check_make.
  - by apply insert_subseteq.
Qed.

Lemma code_row_mono d d' u device code :
  recovery_codes d ⊆ recovery_codes d' → code_row d u device code → code_row d' u device code.
Proof. intros Hs (k & c & Hk & ?). exists k, c. split; [by eapply lookup_weaken|done]. Qed.

Lemma create_recovery_codes_inv u device n w codes w' :
  create_recovery_codes u device n w = (Ok codes, w') →
  length codes = n ∧ (∀ code, code ∈ codes → code_row (w_db w') u device code) ∧
  recovery_codes (w_db w) ⊆ recovery_codes (w_db w') ∧ mfa_devices (w_db w') = mfa_devices (w_db w).
Proof.
  revert w codes. induction n as [|n IH]; intros w codes H; cbn [create_recovery_codes] in H.
  - prim_inv H. split_and!; try done. intros code Hc. by apply elem_of_nil in Hc.
  - run_inv H. apply create_recovery_code_inv in R as (Hrow & Hs & Hm).
    apply IH in R0 as (Hlen & Hrows & Hs' & Hm'). split_and!; [simpl; lia| |by etrans|congruence].
    intros code [->|Hin]%elem_of_cons; [by eapply code_row_mono|auto].
Qed.

(** Freshly generated recovery codes are accepted.  Every code shown to the
    user by [replace_recovery_codes] is accepted by [consume_recovery_code], in
    the displayed form with its dash, when the device is confirmed; and as many
    codes are shown as were asked for. *)
Theorem recovery_codes_round_trip u device n w codes w' m code :
  replace_recovery_codes u device n w = (Ok codes, w') →
  mfa_devices (w_db w) !! device = Some m → m_confirmed m = true →
  length codes = n ∧
  (code ∈ codes → ∃ w2, consume_recovery_code u code w' = (Ok true, w2)).
Proof.
  unfold replace_recovery_codes. intros H Hm Hc. run_inv H.
  unfold delete_where in R. prim_inv R.
  apply create_recovery_codes_inv in H as (Hlen & Hrows & _ & Hdev). simpl in Hdev.
  split; [done|]. intros Hin. destruct (Hrows _ Hin) as (k & c & Hk & Hu & Hd & Hused & Hl & Hcheck).
  unfold consume_recovery_code, atomic. rewrite Hl. cbn [negb Z.eqb Pos.eqb]. run.
  destruct (List.find _ _) as [o|] eqn:Ef.
  - apply find_elem in Ef as [[Hrow _]%elem_of_usable_codes _].
    run. rewrite (run_save _ _ (val o)) by done. by eexists.
  - exfalso. pose proof (find_none_elem _ _ (Obj k c) Ef) as Hn. simpl in Hn.
    rewrite Hcheck in Hn. discriminate Hn. apply elem_of_usable_codes. simpl.
    split_and!; try done. exists m. by rewrite Hd, Hdev.
Qed.
End recovery_round_trip.

(** ** Concrete runs *)

Section witnesses.
#[local] Existing Instance demo_platform.

Definition demo_device : mfa_device :=
  MFADevice 7 TOTP_LOCAL TOTP "enc:GEZDGNBVGY3TQOJQGEZDGNBVGY3TQOJQ" active_key_id true None None
    (Stamps 0 0).

Definition demo_mfa_db : db := empty_db <| mfa_devices := {[60%N := demo_device]} |>.

(** The clock passes a minute between two readings. *)
Definition demo_mfa_world : world := World demo_mfa_db demo_now (replicate 20 minute) 0 ∅.

Definition demo_code (t : Z) : string :=
  match totp_value "GEZDGNBVGY3TQOJQGEZDGNBVGY3TQOJQ" (epoch t / 30) with Ok c => c | Raise _ => "" end.

Definition demo_first : world := Eval vm_compute in
  (verify_user_totp 7 (demo_code demo_now) demo_mfa_world).2.

Definition demo_second : world := Eval vm_compute in
  (verify_user_totp 7 (demo_code (w_clock demo_first)) demo_first).2.

Lemma totp_codes_are_not_replayed_witness :
  ∃ c1 c2, last_counter (w_db demo_first) 7 = Some c1 ∧ last_counter (w_db demo_second) 7 = Some c2 ∧ c1 < c2.
Proof.
  apply (totp_codes_are_not_replayed 7 (demo_code demo_now) (demo_code (w_clock demo_first))
           demo_mfa_world demo_first demo_first demo_second).
  - vm_compute. reflexivity.
  - apply rtc_refl.
  - vm_compute. reflexivity.
Defined.

#[local] Instance demo_hasher : PasswordHasher.
Proof.
  split.
  - intros n p. simpl. by rewrite bool_decide_true.
  - intros n. split; [done|]. simpl. repeat constructor; by left.
Qed.

Definition demo_codes_world : world := Eval vm_compute in
  (replace_recovery_codes 7 60 2 demo_mfa_world).2.

Lemma recovery_codes_round_trip_witness :
  2%nat = 2%nat ∧ ("01234-56789" ∈ ["01234-56789"; "01234-56789"] →
    ∃ w2, consume_recovery_code 7 "01234-56789" demo_codes_world = (Ok true, w2)).
Proof.
  apply (recovery_codes_round_trip 7 60 2 demo_mfa_world ["01234-56789"; "01234-56789"] demo_codes_world
           demo_device "01234-56789"); vm_compute; reflexivity.
Defined.

Lemma matching_totp_counter_exact_witness :
  ∃ r, matching_totp_counter "GEZDGNBVGY3TQOJQGEZDGNBVGY3TQOJQ" "287082" 1 None demo_mfa_world
       = (Ok r, advance demo_mfa_world) ∧
    match r with
    | Some c => Z.abs (c - 58908960) <= 1 ∧
        totp_value "GEZDGNBVGY3TQOJQGEZDGNBVGY3TQOJQ" c = Ok "287082" ∧
        ∀ c', c < c' → Z.abs (c' - 58908960) <= 1 →
          totp_value "GEZDGNBVGY3TQOJQGEZDGNBVGY3TQOJQ" c' ≠ Ok "287082"
    | None => ∀ c, Z.abs (c - 58908960) <= 1 →
        totp_value "GEZDGNBVGY3TQOJQGEZDGNBVGY3TQOJQ" c ≠ Ok "287082"
    end.
Proof.
  apply (matching_totp_counter_exact "GEZDGNBVGY3TQOJQGEZDGNBVGY3TQOJQ" "287082" 1 demo_mfa_world "755224").
  - vm_compute. reflexivity.
  - reflexivity.
  - reflexivity.
  - reflexivity.
Defined.

(** The superscript two, U+00B2. *)
Definition superscript_two : string := of_chars [chr 178].

Lemma matching_totp_counter_non_ascii_digit_witness :
  ∃ m, (matching_totp_counter "GEZDGNBVGY3TQOJQGEZDGNBVGY3TQOJQ" superscript_two 1 None demo_mfa_world).1
       = Raise (TypeError m).
Proof.
  apply (matching_totp_counter_non_ascii_digit _ superscript_two 1 demo_mfa_world "755224");
    vm_compute; reflexivity.
Defined.
End witnesses.
