(* ===== verification/Accounts.v ===== *)
(** * Browser sessions and step-up authentication ([pamolive/accounts])

    The platform security policy, the session-expiry middleware, the MFA enrolment
    middleware, the fresh-MFA guard of sensitive actions and the configuration
    step-up middleware.  A middleware takes the request and the rest of the stack
    and yields a response together with the request as later stages see it, whose
    session is what is stored for the browser. *)

From S2P Require Import Prelude PyStr Json Crypto PyTime Models World AuditTrail Ip Policies Vault Mfa.

Local Open Scope Z_scope.

(** ** Requests and responses *)

Record http_request := HttpRequest {
  rq_method : string;
  rq_path : string;
  rq_query : string;
  rq_hx : bool;
  rq_user : principal;
  rq_session : gmap string json;
  rq_policy : option platform_security_policy;
  rq_meta : request_meta;
}.
#[global] Instance http_request_settable : Settable http_request := λ r,
  HttpRequest (rq_method r) (rq_path r) (rq_query r) (rq_hx r) (rq_user r) (rq_session r)
    (rq_policy r) (rq_meta r).

(** [RedirectTo view query] and [JsonResponse detail status]; [Rendered] is a
    template with its status and context, [FileBody] a body of code points, [Page] a
    page whose context is not modelled. *)
Inductive response :=
  | RedirectTo (view : string) (query : list (string * string))
  | JsonDetail (status : Z) (detail : string) (mfa_required : bool)
  | JsonBody (status : Z) (body : list (string * json))
  | Rendered (template : string) (status : Z) (context : list (string * json))
  | RedirectUrl (url : string)
  | FileBody (status : Z) (content_type : string) (content : list Z)
  | NotAllowed (permitted : list string)
  | Page (name : string).

#[global] Instance response_eq_dec : EqDecision response.
Proof. solve_decision. Defined.

(** The rest of the middleware stack, down to the view. *)
Definition handler : Type := http_request → M (response * http_request).

Definition PAM_SESSION_STARTED_AT : string := "pam_session_started_at".
Definition PAM_LAST_ACTIVITY_AT : string := "pam_last_activity_at".
Definition MFA_SESSION_KEY : string := "pam_mfa_verified_at".
Definition SESSION_EXPIRY : string := "_session_expiry".

Definition set_session (k : string) (v : json) (r : http_request) : http_request :=
  r <| rq_session ::= <[k := v]> |>.

(** ** The platform security policy *)

Section accounts.
Context {PF : Platform}.

(** Validators and [clean], both run by [save]. *)
Definition valid_security_policy (p : platform_security_policy) : bool :=
  between 1 (idle_timeout_minutes p) 1440 && between 5 (absolute_session_minutes p) 10080 &&
  bool_decide (sensitive_action_mfa_window_minutes p ∈ [2; 5; 10; 15]) &&
  (idle_timeout_minutes p <=? absolute_session_minutes p).

Definition save_security_policy (p : platform_security_policy) : M unit :=
  raise_if (negb (valid_security_policy p)) (ValidationError "platform security policy") ;;
  now ;;
  modify (λ d, d <| security_policy := Some p |>).

(** [PlatformSecurityPolicy.objects.get_or_create(pk=1)] *)
Definition get_security_policy : M platform_security_policy :=
  found ← asks security_policy;
  match found with
  | Some p => mret p
  | None => save_security_policy default_security_policy ;; mret default_security_policy
  end.

(** ** Session expiry *)

Definition user_resource (u : obj user) : resource := Resource "accounts.user" (str_user_pk (pk u)).

(** [int(request.session.get(key, default))] *)
Definition session_int (r : http_request) (key : string) (default_ : Z) : outcome Z :=
  match rq_session r !! key with
  | Some j => int_of_json j
  | None => Ok default_
  end.

Definition passive_paths : list string := ["/admin/status/"].

(** Why the session is over, if it is. *)
Definition expiry_reason (p : platform_security_policy) (now started_at last_activity_at : Z)
    : option string :=
  if absolute_session_minutes p * 60 <=? now - started_at then Some "absolute"
  else if idle_timeout_minutes p * 60 <=? now - last_activity_at then Some "idle"
  else None.

(** [logout(request)]: the session is flushed, the user anonymous. *)
Definition logout (r : http_request) : http_request :=
  r <| rq_session := ∅ |> <| rq_user := AnonymousUser |>.

(** [_apply_policy]: the response that ends an expired session, and the request. *)
Definition _apply_policy (u : obj user) (r : http_request) : M (option response * http_request) :=
  policy ← get_security_policy;
  let r1 := r <| rq_policy := Some policy |> in
  now ← time_time;
  started_at ← of_outcome (session_int r1 PAM_SESSION_STARTED_AT now);
  last_activity_at ← of_outcome (session_int r1 PAM_LAST_ACTIVITY_AT now);
  match expiry_reason policy now started_at last_activity_at with
  | Some reason =>
      try_except (record_event (Some (pk u)) "authentication.session.expired" (user_resource u)
                    [("reason", JStr reason)] None ;; mret tt) (λ _, Some (mret tt)) ;;
      mret (Some (if startswith "/api/" (rq_path r1) || rq_hx r1
                  then JsonDetail 401 "Session expired." false
                  else RedirectTo "login" [("expired", reason)]), logout r1)
  | None =>
      let r2 := match rq_session r1 !! PAM_SESSION_STARTED_AT with
                | Some _ => r1
                | None => set_session PAM_SESSION_STARTED_AT (JInt now) r1
                end in
      let r3 := if decide (rq_path r2 ∈ passive_paths) then r2
                else set_session PAM_LAST_ACTIVITY_AT (JInt now) r2 in
      mret (None, set_session SESSION_EXPIRY (JInt (idle_timeout_minutes policy * 60)) r3)
  end.

Definition SessionSecurityMiddleware (get_response : handler) : handler := λ r,
  match rq_user r with
  | AnonymousUser => get_response r
  | Authenticated u =>
      x ← _apply_policy u r;
      match x with
      | (Some resp, r') => mret (resp, r')
      | (None, r') => get_response r'
      end
  end.

(** ** Mandatory enrolment *)

Definition MFAEnrollmentMiddleware_allowed : list string :=
  ["/mfa/setup/"; "/account/mfa/"; "/accounts/logout/"].

(** [path.startswith(tuple)] *)
Definition startswith_any (prefixes : list string) (s : string) : bool :=
  existsb (λ p, startswith p s) prefixes.

(** [getattr(request, "platform_security_policy", None)], or the stored one. *)
Definition request_policy (r : http_request) : M platform_security_policy :=
  match rq_policy r with Some p => mret p | None => get_security_policy end.

Definition MFAEnrollmentMiddleware (get_response : handler) : handler := λ r,
  match rq_user r with
  | AnonymousUser => get_response r
  | Authenticated u =>
      enrolled ← asks (λ d, mfa_enrolled d (pk u));
      if startswith "/django-admin/" (rq_path r) && u_is_superuser (val u) && negb enrolled
      then mret (RedirectTo "mfa_setup_required" [], r)
      else if PAMOLIVE_TEST_BYPASS_GLOBAL_MFA conf then get_response r
      else if negb (u_is_service_account (val u)) then
        policy ← request_policy r;
        if require_mfa_for_all_users policy && negb enrolled
           && negb (startswith_any MFAEnrollmentMiddleware_allowed (rq_path r))
        then mret (RedirectTo "mfa_setup_required" [], r)
        else get_response r
      else get_response r
  end.

(** ** Fresh MFA *)

Definition mark_mfa_verified (r : http_request) (timestamp : option Z) : M http_request :=
  t ← match timestamp with
      | Some t => if t =? 0 then time_time else mret t
      | None => time_time
      end;
  mret (set_session MFA_SESSION_KEY (JInt t) r).

Definition sensitive_mfa_window_seconds (p : platform_security_policy) : Z :=
  sensitive_action_mfa_window_minutes p * 60.

(** [mfa_timestamp_is_recent(verified_at, policy=policy)] *)
Definition mfa_timestamp_is_recent (verified_at : option json) (policy : platform_security_policy)
    : M bool :=
  match verified_at with
  | None | Some JNull => mret false
  | Some j =>
      match int_of_json j with
      | Raise _ => mret false
      | Ok v => now ← time_time; mret (now - v <=? sensitive_mfa_window_seconds policy)
      end
  end.

Definition user_has_recent_mfa (r : http_request) (policy : option platform_security_policy) : M bool :=
  match rq_user r with
  | AnonymousUser => mret false
  | Authenticated u =>
      if u_is_service_account (val u) then mret false
      else
        enrolled ← asks (λ d, mfa_enrolled d (pk u));
        if negb enrolled then mret false
        else
          p ← match policy with Some p => mret p | None => request_policy r end;
          mfa_timestamp_is_recent (rq_session r !! MFA_SESSION_KEY) p
  end.

(** [request.get_full_path()] *)
Definition get_full_path (r : http_request) : string :=
  if decide (rq_query r = "") then rq_path r else rq_path r +:+ "?" +:+ rq_query r.

(** The response that asks for a fresh MFA, or [None] when the action may go on.
    Only reached for signed-in users. *)
Definition sensitive_mfa_required (u : obj user) (r : http_request) (action_label : string)
    : M (option response) :=
  if PAMOLIVE_TEST_BYPASS_GLOBAL_MFA conf then mret None
  else
    enrolled ← asks (λ d, mfa_enrolled d (pk u));
    if negb enrolled then mret (Some (RedirectTo "mfa_setup_required" []))
    else
      policy ← request_policy r;
      ok ← user_has_recent_mfa r (Some policy);
      if ok : bool then mret None
      else if rq_hx r || startswith "/api/" (rq_path r)
      then mret (Some (JsonDetail 403
             ("Une vérification MFA récente est requise avant " +:+ action_label +:+ ".") true))
      else mret (Some (RedirectTo "mfa_verify" [("next", get_full_path r); ("action", action_label)])).

(** [@require_recent_mfa(label)] under [@login_required]. *)
Definition require_recent_mfa (action_label : string) (view : obj user → handler) : handler := λ r,
  match rq_user r with
  | AnonymousUser => mret (RedirectTo "login" [("next", get_full_path r)], r)
  | Authenticated u =>
      resp ← sensitive_mfa_required u r action_label;
      match resp with
      | Some x => mret (x, r)
      | None => view u r
      end
  end.

Definition require_recent_mfa_or_raise (r : http_request) (action_label : string) : M unit :=
  ok ← user_has_recent_mfa r None;
  raise_if (negb ok) (PermissionDenied ("Une MFA récente est requise avant " +:+ action_label +:+ ".")).

Definition configuration_prefixes : list string :=
  ["/admin/system/"; "/admin/users/"; "/admin/user-groups/"; "/admin/roles/";
   "/admin/identity-sources/"; "/admin/ldap-sources/"; "/admin/oidc-sources/";
   "/admin/directory-mappings/"; "/admin/domains/"; "/admin/targets/"; "/admin/host-keys/";
   "/admin/target-groups/"; "/admin/credentials/"; "/admin/policies/"; "/admin/time-frames/";
   "/admin/rotation-policies/"].

Definition passive_suffixes : list string := ["/test/"].

Definition changes_configuration (r : http_request) : bool :=
  bool_decide (rq_method r = "POST") && startswith_any configuration_prefixes (rq_path r)
  && negb (existsb (λ s, endswith s (rq_path r)) passive_suffixes).

Definition ConsoleConfigurationStepUpMiddleware (get_response : handler) : handler := λ r,
  match rq_user r with
  | Authenticated u =>
      if changes_configuration r then
        resp ← sensitive_mfa_required u r "modifier la configuration";
        match resp with
        | Some x => mret (x, r)
        | None => get_response r
        end
      else get_response r
  | AnonymousUser => get_response r
  end.

(** The PAM-olive part of [MIDDLEWARE], in the order of the settings.  The
    language middleware only selects the translation of messages; the
    configuration step-up middleware is not in the list. *)
Definition middleware_stack (view : handler) : handler :=
  SessionSecurityMiddleware (MFAEnrollmentMiddleware view).
End accounts.

(** ** Session lifetime *)

Section expiry_facts.
Context {PF : Platform}.

Lemma get_security_policy_stored w p :
  security_policy (w_db w) = Some p → get_security_policy w = (Ok p, w).
Proof. intros H. unfold get_security_policy. run. by rewrite H. Qed.

(** The session after a request that is let through at second [n]. *)
Definition touched (p : platform_security_policy) (r : http_request) (n : Z) : http_request :=
  let r1 := r <| rq_policy := Some p |> in
  let r2 := match rq_session r1 !! PAM_SESSION_STARTED_AT with
            | Some _ => r1
            | None => set_session PAM_SESSION_STARTED_AT (JInt n) r1
            end in
  let r3 := if decide (rq_path r2 ∈ passive_paths) then r2
            else set_session PAM_LAST_ACTIVITY_AT (JInt n) r2 in
  set_session SESSION_EXPIRY (JInt (idle_timeout_minutes p * 60)) r3.

Lemma touched_user p r n : rq_user (touched p r n) = rq_user r.
Proof. unfold touched. by repeat (case_match || case_decide). Qed.
Lemma touched_path p r n : rq_path (touched p r n) = rq_path r.
Proof. unfold touched. by repeat (case_match || case_decide). Qed.

Lemma touched_started p r n :
  rq_session (touched p r n) !! PAM_SESSION_STARTED_AT
  = Some (default (JInt n) (rq_session r !! PAM_SESSION_STARTED_AT)).
Proof.
  unfold touched, set_session. cbn [rq_session set_field].
  destruct (rq_session r !! PAM_SESSION_STARTED_AT) eqn:E; case_decide; simpl;
    rewrite (lookup_insert_ne _ SESSION_EXPIRY) by done;
    rewrite ?(lookup_insert_ne _ PAM_LAST_ACTIVITY_AT PAM_SESSION_STARTED_AT) by done;
    by rewrite ?lookup_insert_eq.
Qed.

Lemma touched_last p r n :
  rq_session (touched p r n) !! PAM_LAST_ACTIVITY_AT
  = if decide (rq_path r ∈ passive_paths) then rq_session r !! PAM_LAST_ACTIVITY_AT else Some (JInt n).
Proof.
  unfold touched, set_session. cbn [rq_session set_field].
  destruct (rq_session r !! PAM_SESSION_STARTED_AT) eqn:E; cbn [rq_path]; case_decide; simpl;
    rewrite (lookup_insert_ne _ SESSION_EXPIRY) by done; rewrite ?lookup_insert_eq;
    by rewrite ?(lookup_insert_ne _ PAM_SESSION_STARTED_AT PAM_LAST_ACTIVITY_AT) by done.
Qed.

(** [_apply_policy] on a readable session: expire exactly by the limits. *)
Lemma apply_policy_run u r w p s l :
  let n := epoch (w_clock w) in
  security_policy (w_db w) = Some p →
  session_int r PAM_SESSION_STARTED_AT n = Ok s → session_int r PAM_LAST_ACTIVITY_AT n = Ok l →
  if (absolute_session_minutes p * 60 <=? n - s) || (idle_timeout_minutes p * 60 <=? n - l) then
    ∃ resp w', _apply_policy u r w = (Ok (Some resp, logout (r <| rq_policy := Some p |>)), w') ∧
               audit_frame (w_db w) (w_db w')
  else _apply_policy u r w = (Ok (None, touched p r n), advance w).
Proof.
  intros n Hp Hs Hl. unfold _apply_policy.
  rewrite (bind_ok _ _ _ _ _ (get_security_policy_stored _ _ Hp)). unfold time_time. run.
  fold n. rewrite (run_of_ok _ s), (run_of_ok _ l) by done. unfold expiry_reason.
  assert (∀ reason resp r', ∃ w', (try_except (record_event (Some (pk u)) "authentication.session.expired"
      (user_resource u) [("reason", JStr reason)] None ;; mret tt) (λ _, Some (mret tt)) ;;
      mret (Some resp : option response, r' : http_request)) (advance w) = (Ok (Some resp, r'), w') ∧
      audit_frame (w_db w) (w_db w')) as Hexp.
  { intros reason resp r'. unfold mbind, M_bind, try_except.
    match goal with |- context [record_event ?a ?b ?c ?d ?e ?w] =>
      pose proof (record_event_any a b c d e w) as Hr;
      destruct (record_event a b c d e w) as [[x|x] w1] end; simpl in *; by eexists. }
  destruct (absolute_session_minutes p * 60 <=? n - s); [simpl; eauto|].
  destruct (idle_timeout_minutes p * 60 <=? n - l); [simpl; eauto|]. done.
Qed.

(** Session expiry is enforced exactly.  For a signed-in user with a readable
    session, the middleware lets the request through when both the time since
    sign-in is below the absolute limit and the time since the last activity is
    below the idle limit; it then runs the rest of the stack on the same request
    with the start of the session kept and the last activity refreshed (except on
    the polling page).  Otherwise the rest of the stack is not run: the session is
    flushed, the user is anonymous and the database changes at most by the audit
    record, even if that record cannot be written. *)
Theorem session_expiry_exact (get_response : handler) u r w p s l :
  let n := epoch (w_clock w) in
  rq_user r = Authenticated u → security_policy (w_db w) = Some p →
  session_int r PAM_SESSION_STARTED_AT n = Ok s → session_int r PAM_LAST_ACTIVITY_AT n = Ok l →
  (n - s < absolute_session_minutes p * 60 ∧ n - l < idle_timeout_minutes p * 60 →
     ∃ r', SessionSecurityMiddleware get_response r w = get_response r' (advance w) ∧
       rq_user r' = rq_user r ∧ rq_path r' = rq_path r ∧
       session_int r' PAM_SESSION_STARTED_AT n = Ok s ∧
       session_int r' PAM_LAST_ACTIVITY_AT n = Ok (if decide (rq_path r ∈ passive_paths) then l else n)) ∧
  (¬ (n - s < absolute_session_minutes p * 60 ∧ n - l < idle_timeout_minutes p * 60) →
     ∃ resp r' w', SessionSecurityMiddleware get_response r w = (Ok (resp, r'), w') ∧
       rq_user r' = AnonymousUser ∧ rq_session r' = ∅ ∧ audit_frame (w_db w) (w_db w')).
Proof.
  intros n Hu Hp Hs Hl. pose proof (apply_policy_run u r w p s l Hp Hs Hl) as H. fold n in H.
  unfold SessionSecurityMiddleware. rewrite Hu. split.
  - intros [H1 H2]. rewrite (proj2 (Z.leb_gt _ _)), (proj2 (Z.leb_gt _ _)) in H by lia. simpl in H.
    rewrite (bind_ok _ _ _ _ _ H). exists (touched p r n). split; [done|].
    rewrite touched_user, touched_path. unfold session_int in *.
    rewrite touched_started, touched_last.
    do 2 (split; [done|]). split; [by destruct (_ !! PAM_SESSION_STARTED_AT)|]. by case_decide.
  - intros Hn.
    assert ((absolute_session_minutes p * 60 <=? n - s) || (idle_timeout_minutes p * 60 <=? n - l) = true)
      as E by (apply orb_true_iff; rewrite !Z.leb_le; lia).
    rewrite E in H. destruct H as (resp & w' & H & Hf). rewrite (bind_ok _ _ _ _ _ H).
    do 3 eexists. done.
Qed.

(** A browser session under a fixed policy: [s] is the second of the first request the
    middleware saw of it, [l] that of the last request to anything but the polling
    page, if there was one; views may change other keys of the session in between. *)
Inductive browsing (p : platform_security_policy) : gmap string json → Z → option Z → Prop :=
  | browsing_start u r w r' w' :
      rq_session r !! PAM_SESSION_STARTED_AT = None → rq_session r !! PAM_LAST_ACTIVITY_AT = None →
      security_policy (w_db w) = Some p →
      _apply_policy u r w = (Ok (None, r'), w') →
      browsing p (rq_session r') (epoch (w_clock w))
        (if decide (rq_path r ∈ passive_paths) then None else Some (epoch (w_clock w)))
  | browsing_next sess s l u r w r' w' :
      browsing p sess s l →
      rq_session r !! PAM_SESSION_STARTED_AT = sess !! PAM_SESSION_STARTED_AT →
      rq_session r !! PAM_LAST_ACTIVITY_AT = sess !! PAM_LAST_ACTIVITY_AT →
      security_policy (w_db w) = Some p → _apply_policy u r w = (Ok (None, r'), w') →
      browsing p (rq_session r') s
        (if decide (rq_path r ∈ passive_paths) then l else Some (epoch (w_clock w))).

(** What the session holds of its first and of its last request. *)
Definition remembers (sess : gmap string json) (s : Z) (l : option Z) : Prop :=
  sess !! PAM_SESSION_STARTED_AT = Some (JInt s) ∧ sess !! PAM_LAST_ACTIVITY_AT = JInt <$> l.

Lemma touched_remembers p r n s l :
  rq_session r !! PAM_SESSION_STARTED_AT = None ∧ s = n ∨ rq_session r !! PAM_SESSION_STARTED_AT = Some (JInt s) →
  rq_session r !! PAM_LAST_ACTIVITY_AT = JInt <$> l →
  remembers (rq_session (touched p r n)) s (if decide (rq_path r ∈ passive_paths) then l else Some n).
Proof.
  intros Hs Hl. unfold remembers. rewrite touched_started, touched_last, Hl.
  split; [|by case_decide]. by destruct Hs as [[-> ->] | ->].
Qed.

(** A request that is let through leaves the session as [touched] has it. *)
Lemma apply_policy_touched u r w p s l r' w' :
  security_policy (w_db w) = Some p →
  session_int r PAM_SESSION_STARTED_AT (epoch (w_clock w)) = Ok s →
  session_int r PAM_LAST_ACTIVITY_AT (epoch (w_clock w)) = Ok l →
  _apply_policy u r w = (Ok (None, r'), w') → r' = touched p r (epoch (w_clock w)).
Proof.
  intros Hp Es El Hrun. pose proof (apply_policy_run u r w p s l Hp Es El) as H. case_match.
  - destruct H as (? & ? & H & _). congruence.
  - rewrite H in Hrun. congruence.
Qed.

Lemma browsing_session p sess s l : browsing p sess s l → remembers sess s l.
Proof.
  induction 1 as [u r w r' w' Hs Hl Hp Hrun|sess s l u r w r' w' _ [IHs IHl] Hs Hl Hp Hrun].
  - apply (apply_policy_touched u r w p (epoch (w_clock w)) (epoch (w_clock w))) in Hrun as ->;
      [|done|unfold session_int; by rewrite ?Hs, ?Hl..].
    apply touched_remembers; [by left|by rewrite Hl].
  - rewrite IHs in Hs. rewrite IHl in Hl.
    apply (apply_policy_touched u r w p s (default (epoch (w_clock w)) l)) in Hrun as ->;
      [|done|unfold session_int; rewrite ?Hs, ?Hl; by destruct l..].
    apply touched_remembers; [by right|done].
Qed.

(** C16: Activity cannot keep a session alive.  Take a browser session under one policy,
    whose views leave the two entries of the middleware alone.  However the user
    browses, a request that arrives [absolute_session_minutes] after the first request
    of the session, or [idle_timeout_minutes] after the last one to anything but the
    polling page, is answered with the end of the session, never by a view.  The
    absolute limit counts from the first request the middleware sees after the sign-in,
    whichever page it is for. *)
Theorem session_lifetime_bounded p sess s l u r w (get_response : handler) :
  browsing p sess s l →
  rq_user r = Authenticated u → security_policy (w_db w) = Some p →
  rq_session r !! PAM_SESSION_STARTED_AT = sess !! PAM_SESSION_STARTED_AT →
  rq_session r !! PAM_LAST_ACTIVITY_AT = sess !! PAM_LAST_ACTIVITY_AT →
  absolute_session_minutes p * 60 <= epoch (w_clock w) - s ∨
  (∃ last, l = Some last ∧ idle_timeout_minutes p * 60 <= epoch (w_clock w) - last) →
  ∃ resp r' w', SessionSecurityMiddleware get_response r w = (Ok (resp, r'), w') ∧
    rq_user r' = AnonymousUser ∧ rq_session r' = ∅.
Proof.
  intros [Hs Hl]%browsing_session Hu Hp E1 E2 Hlate. rewrite Hs in E1. rewrite Hl in E2.
  set (n := epoch (w_clock w)) in *.
  pose proof (apply_policy_run u r w p s (default n l) Hp) as H. unfold session_int in H. rewrite E1, E2 in H.
  specialize (H eq_refl ltac:(by destruct l)).
  assert ((absolute_session_minutes p * 60 <=? n - s)
          || (idle_timeout_minutes p * 60 <=? n - default n l) = true) as E.
  { apply orb_true_iff. rewrite !Z.leb_le. destruct Hlate as [|(last & -> & ?)]; [by left|by right]. }
  cbv zeta in H. fold n in H. rewrite E in H. destruct H as (resp & w' & H & _).
  unfold SessionSecurityMiddleware. rewrite Hu, (bind_ok _ _ _ _ _ H). by do 3 eexists.
Qed.
End expiry_facts.

(** ** Fresh MFA *)

Section fresh_facts.
Context {PF : Platform}.

(** The session proves an MFA verification no older than the window at second [n]. *)
Definition fresh_at (sess : gmap string json) (p : platform_security_policy) (n : Z) : Prop :=
  ∃ j v, sess !! MFA_SESSION_KEY = Some j ∧ int_of_json j = Ok v ∧
         n - v <= sensitive_action_mfa_window_minutes p * 60.

Lemma mfa_timestamp_run j p w :
  ∃ b w', mfa_timestamp_is_recent j p w = (Ok b, w') ∧ reads w w' ∧
    (b = true ↔ ∃ x v, j = Some x ∧ int_of_json x = Ok v ∧
       epoch (w_clock w) - v <= sensitive_action_mfa_window_minutes p * 60).
Proof.
  unfold mfa_timestamp_is_recent, sensitive_mfa_window_seconds.
  destruct j as [x|]; [|do 2 eexists; split; [done|]; split; [auto with pam|]; naive_solver].
  assert (match x with JNull => mret false | _ => match int_of_json x with
    | Ok v => now ← time_time; mret (now - v <=? sensitive_action_mfa_window_minutes p * 60)
    | Raise _ => mret false end end = match int_of_json x with
    | Ok v => now ← time_time; mret (now - v <=? sensitive_action_mfa_window_minutes p * 60)
    | Raise _ => mret false end) as -> by by destruct x.
  destruct (int_of_json x) as [v|e] eqn:E.
  - unfold time_time. run. do 2 eexists. split; [reflexivity|]. split; [auto with pam|].
    rewrite Z.leb_le. split; [intros; by exists x, v|]. intros (y & v' & [= <-] & E' & ?). congruence.
  - do 2 eexists. split; [reflexivity|]. split; [auto with pam|].
    split; [done|]. intros (y & v' & [= <-] & E' & ?). congruence.
Qed.

Lemma request_policy_run r w p :
  rq_policy r = Some p ∨ (rq_policy r = None ∧ security_policy (w_db w) = Some p) →
  request_policy r w = (Ok p, w).
Proof.
  unfold request_policy. intros [->|[-> H]]; [done|]. by apply get_security_policy_stored.
Qed.

(** The guard on a signed-in user: passes exactly on fresh evidence. *)
Lemma sensitive_mfa_run u r w p label :
  PAMOLIVE_TEST_BYPASS_GLOBAL_MFA conf = false → rq_user r = Authenticated u →
  rq_policy r = Some p ∨ (rq_policy r = None ∧ security_policy (w_db w) = Some p) →
  ∃ x w', sensitive_mfa_required u r label w = (Ok x, w') ∧ reads w w' ∧
    (x = None ↔ mfa_enrolled (w_db w) (pk u) = true ∧ u_is_service_account (val u) = false ∧
                fresh_at (rq_session r) p (epoch (w_clock w))).
Proof.
  intros Hb Hu Hp. unfold sensitive_mfa_required. rewrite Hb. run.
  destruct (mfa_enrolled (w_db w) (pk u)) eqn:Een; cbn [negb].
  2:{ do 2 eexists. split; [reflexivity|]. split; [auto with pam|]. naive_solver. }
  rewrite (bind_ok _ _ _ _ _ (request_policy_run r w p Hp)).
  assert (∃ b w', user_has_recent_mfa r (Some p) w = (Ok b, w') ∧ reads w w' ∧
    (b = true ↔ u_is_service_account (val u) = false ∧ fresh_at (rq_session r) p (epoch (w_clock w))))
    as (b & w' & E & Hr & Hb').
  { unfold user_has_recent_mfa. rewrite Hu. destruct (u_is_service_account (val u)).
    - do 2 eexists. split; [reflexivity|]. split; [auto with pam|]. naive_solver.
    - run. rewrite Een. cbn [negb]. run.
      destruct (mfa_timestamp_run (rq_session r !! MFA_SESSION_KEY) p w) as (b & w' & E & Hr & Hb').
      exists b, w'. split_and!; try done; [apply Hr..|]. rewrite Hb'. unfold fresh_at. naive_solver. }
  rewrite (bind_ok _ _ _ _ _ E). destruct b.
  - do 2 eexists. split; [reflexivity|]. split; [done|]. naive_solver.
  - case_match; do 2 eexists; (split; [reflexivity|]); (split; [done|]); naive_solver.
Qed.

(** The fresh-MFA guard is exact.  With the test bypass off, a view behind
    [require_recent_mfa] runs for a signed-in user exactly when the user is
    enrolled, is not a service account and the session holds an MFA verification
    no older than the configured window; otherwise the guard answers itself, the
    view is not run and nothing is written. *)
Theorem fresh_mfa_guard_exact label (view : obj user → handler) u r w p :
  PAMOLIVE_TEST_BYPASS_GLOBAL_MFA conf = false → rq_user r = Authenticated u →
  rq_policy r = Some p ∨ (rq_policy r = None ∧ security_policy (w_db w) = Some p) →
  ∃ w', reads w w' ∧
    let ok := mfa_enrolled (w_db w) (pk u) = true ∧ u_is_service_account (val u) = false ∧
              fresh_at (rq_session r) p (epoch (w_clock w)) in
    (ok → require_recent_mfa label view r w = view u r w') ∧
    (¬ ok → ∃ resp, require_recent_mfa label view r w = (Ok (resp, r), w')).
Proof.
  intros Hb Hu Hp. destruct (sensitive_mfa_run u r w p label Hb Hu Hp) as (x & w' & E & Hr & Hx).
  exists w'. split; [done|]. unfold require_recent_mfa. rewrite Hu, (bind_ok _ _ _ _ _ E).
  destruct x as [resp|]; split; intros Hok.
  - exfalso. by apply Hx in Hok.
  - by exists resp.
  - done.
  - exfalso. apply Hok. by apply Hx.
Qed.

(** Enrolment is enforced.  Under a policy that requires MFA of everybody, and
    with the test bypass off, an interactive user without a confirmed device
    reaches no view outside the enrolment and sign-out pages: the middleware
    redirects to enrolment and writes nothing. *)
Theorem enrolment_is_enforced (get_response : handler) u r w p :
  PAMOLIVE_TEST_BYPASS_GLOBAL_MFA conf = false → rq_user r = Authenticated u →
  u_is_service_account (val u) = false → mfa_enrolled (w_db w) (pk u) = false →
  rq_policy r = Some p ∨ (rq_policy r = None ∧ security_policy (w_db w) = Some p) →
  require_mfa_for_all_users p = true →
  startswith_any MFAEnrollmentMiddleware_allowed (rq_path r) = false →
  MFAEnrollmentMiddleware get_response r w = (Ok (RedirectTo "mfa_setup_required" [], r), w).
Proof.
  intros Hb Hu Hs He Hp Hreq Hpath. unfold MFAEnrollmentMiddleware. rewrite Hu. run.
  rewrite He, Hb, Hs. cbn [negb]. rewrite andb_true_r. case_match; [done|].
  rewrite (bind_ok _ _ _ _ _ (request_policy_run r w p Hp)).
  by rewrite Hreq, Hpath.
Qed.

(** Configuration changes are not behind fresh MFA.  The documented step-up
    for configuration forms is implemented by
    [ConsoleConfigurationStepUpMiddleware], which refuses a configuration POST
    without a fresh verification; but the installed stack does not contain it and
    hands the same POST of the same enrolled user to the view. *)
Theorem configuration_post_skips_step_up (view : handler) u r w p :
  PAMOLIVE_TEST_BYPASS_GLOBAL_MFA conf = false → rq_user r = Authenticated u →
  security_policy (w_db w) = Some p → rq_policy r = None →
  rq_session r = ∅ → 0 < idle_timeout_minutes p → 0 < absolute_session_minutes p →
  mfa_enrolled (w_db w) (pk u) = true → changes_configuration r = true →
  (∃ resp w', ConsoleConfigurationStepUpMiddleware view r w = (Ok (resp, r), w') ∧ w_db w' = w_db w) ∧
  (startswith "/django-admin/" (rq_path r) = false → ∃ r', rq_user r' = rq_user r ∧ rq_path r' = rq_path r ∧
     middleware_stack view r w = view r' (advance w)).
Proof.
  intros Hb Hu Hp Hnone Hsess Hidle Habs He Hc. split.
  - destruct (sensitive_mfa_run u r w p "modifier la configuration" Hb Hu) as (x & w' & E & [Hd _] & Hx);
      [by right|].
    unfold ConsoleConfigurationStepUpMiddleware. rewrite Hu, Hc, (bind_ok _ _ _ _ _ E).
    destruct x as [resp|]; [by exists resp, w'|]. exfalso.
    destruct (proj1 Hx eq_refl) as (_ & _ & j & v & Hj & _). by rewrite Hsess, lookup_empty in Hj.
  - intros Hadmin. exists (touched p r (epoch (w_clock w))).
    rewrite touched_user, touched_path. do 2 (split; [done|]).
    unfold middleware_stack, SessionSecurityMiddleware. rewrite Hu.
    pose proof (apply_policy_run u r w p (epoch (w_clock w)) (epoch (w_clock w)) Hp) as H.
    unfold session_int in H. rewrite Hsess, !lookup_empty in H. specialize (H eq_refl eq_refl).
    cbv zeta in H. rewrite Z.sub_diag, (proj2 (Z.leb_gt _ _)), (proj2 (Z.leb_gt _ _)) in H by lia. simpl in H.
    rewrite (bind_ok _ _ _ _ _ H). unfold MFAEnrollmentMiddleware.
    rewrite touched_user, Hu, touched_path. run. change (w_db (advance w)) with (w_db w). rewrite He, Hadmin, Hb. simpl.
    destruct (u_is_service_account (val u)); [done|]. simpl.
    assert (rq_policy (touched p r (epoch (w_clock w))) = Some p) as Hpol
      by (unfold touched; by repeat (case_match || case_decide)).
    rewrite (bind_ok _ _ _ _ _ (request_policy_run _ _ p (or_introl Hpol))). by rewrite andb_false_r.
Qed.
End fresh_facts.

(** ** Concrete instances *)

Section witnesses.
#[local] Existing Instance demo_platform.

Definition demo_accounts_db : db :=
  demo_mfa_db <| security_policy := Some default_security_policy |>.
Definition demo_enrolled : obj user := demo_alice.

Definition demo_http (path : string) (sess : gmap string json) : http_request :=
  HttpRequest "POST" path "" false (Authenticated demo_enrolled) sess None
    (RequestMeta None (Some "192.0.2.9")).

Definition demo_view : handler := λ r, mret (Page "view", r).

Lemma session_expiry_exact_witness :
  let n := epoch demo_now in
  let w := demo_world demo_accounts_db in
  let r := demo_http "/" {["pam_last_activity_at" := JInt (n - 899)]} in
  (n - n < 480 * 60 ∧ n - (n - 899) < 15 * 60 →
     ∃ r', SessionSecurityMiddleware demo_view r w = demo_view r' (advance w) ∧
       rq_user r' = rq_user r ∧ rq_path r' = rq_path r ∧
       session_int r' PAM_SESSION_STARTED_AT n = Ok n ∧
       session_int r' PAM_LAST_ACTIVITY_AT n = Ok (if decide (rq_path r ∈ passive_paths) then n - 899 else n)) ∧
  (¬ (n - n < 480 * 60 ∧ n - (n - 899) < 15 * 60) →
     ∃ resp r' w', SessionSecurityMiddleware demo_view r w = (Ok (resp, r'), w') ∧
       rq_user r' = AnonymousUser ∧ rq_session r' = ∅ ∧ audit_frame (w_db w) (w_db w')).
Proof.
  intros n w r.
  apply (session_expiry_exact demo_view demo_enrolled r w default_security_policy n (n - 899));
    reflexivity.
Defined.

Definition demo_signed_in : gmap string json :=
  rq_session (touched default_security_policy (demo_http "/" ∅) (epoch demo_now)).

Lemma demo_browsing :
  browsing default_security_policy demo_signed_in (epoch demo_now) (Some (epoch demo_now)).
Proof.
  eapply (browsing_start _ demo_enrolled (demo_http "/" ∅) (demo_world demo_accounts_db)
    (touched default_security_policy (demo_http "/" ∅) (epoch demo_now))).
  - reflexivity.
  - reflexivity.
  - reflexivity.
  - vm_compute. reflexivity.
Qed.

Lemma session_lifetime_bounded_witness :
  ∃ resp r' w', SessionSecurityMiddleware demo_view (demo_http "/" demo_signed_in)
      (World demo_accounts_db (demo_now + minutes 15) [] 0 ∅) = (Ok (resp, r'), w') ∧
    rq_user r' = AnonymousUser ∧ rq_session r' = ∅.
Proof.
  apply (session_lifetime_bounded default_security_policy demo_signed_in (epoch demo_now) (Some (epoch demo_now))
           demo_enrolled (demo_http "/" demo_signed_in)).
  - apply demo_browsing.
  - reflexivity.
  - reflexivity.
  - reflexivity.
  - reflexivity.
  - right. eexists. split; [reflexivity|]. vm_compute. congruence.
Defined.

Lemma fresh_mfa_guard_exact_witness :
  let w := demo_world demo_accounts_db in
  let r := demo_http "/api/reveal" {["pam_mfa_verified_at" := JInt (epoch demo_now - 301)]} in
  ∃ w', reads w w' ∧
    let ok := mfa_enrolled (w_db w) (pk demo_enrolled) = true ∧
              u_is_service_account (val demo_enrolled) = false ∧
              fresh_at (rq_session r) default_security_policy (epoch (w_clock w)) in
    (ok → require_recent_mfa "x" (λ _, demo_view) r w = demo_view r w') ∧
    (¬ ok → ∃ resp, require_recent_mfa "x" (λ _, demo_view) r w = (Ok (resp, r), w')).
Proof.
  intros w r. apply (fresh_mfa_guard_exact "x" (λ _, demo_view) demo_enrolled r w default_security_policy).
  - reflexivity.
  - reflexivity.
  - right. split; reflexivity.
Defined.

Lemma enrolment_is_enforced_witness :
  let w := demo_world (empty_db <| security_policy := Some default_security_policy |>) in
  MFAEnrollmentMiddleware demo_view (demo_http "/targets/" ∅) w
  = (Ok (RedirectTo "mfa_setup_required" [], demo_http "/targets/" ∅), w).
Proof.
  intros w.
  apply (enrolment_is_enforced demo_view demo_enrolled (demo_http "/targets/" ∅) w default_security_policy);
    try reflexivity. right. split; reflexivity.
Defined.

Lemma configuration_post_skips_step_up_witness :
  let w := demo_world demo_accounts_db in
  let r := demo_http "/admin/policies/" ∅ in
  (∃ resp w', ConsoleConfigurationStepUpMiddleware demo_view r w = (Ok (resp, r), w') ∧ w_db w' = w_db w) ∧
  (startswith "/django-admin/" (rq_path r) = false → ∃ r', rq_user r' = rq_user r ∧ rq_path r' = rq_path r ∧
     middleware_stack demo_view r w = demo_view r' (advance w)).
Proof.
  intros w r.
  apply (configuration_post_skips_step_up demo_view demo_enrolled r w default_security_policy);
    reflexivity.
Defined.
End witnesses.
