(* ===== verification/Leases.v ===== *)
(** * Secret leases ([pamolive/vault/leases.py], [pamolive/common/justification.py])

    A lease is a bearer token for one disclosure of one secret: issued under a
    policy (with its approval and MFA conditions), stored only as a hash, valid for
    a short time and a bounded number of uses. *)

From S2P Require Import Prelude PyStr Json Crypto PyTime Models World AuditTrail Rbac Ip Policies Approvals Vault Mfa Accounts.

Local Open Scope Z_scope.

(** ** Justifications *)

Definition MIN_JUSTIFICATION_LENGTH : Z := 10.
Definition MAX_JUSTIFICATION_LENGTH : Z := 1000.

Definition normalize_justification (value : string) : outcome string :=
  let justification := strip (of_chars (collapse_ws false (chars value))) in
  if len justification <? MIN_JUSTIFICATION_LENGTH then
    Raise (ValidationError "A business justification of at least 10 characters is required.")
  else if MAX_JUSTIFICATION_LENGTH <? len justification then
    Raise (ValidationError "The business justification cannot exceed 1000 characters.")
  else Ok justification.

Section leases.
Context {PF : Platform}.

Definition _token_hash (token : string) : string := sha256_hex token.

Definition lease_resource (k : id) : resource := Resource "vault.secretlease" (str_uuid k).

(** ** Authorisation *)

(** [approved_at + requested duration > now] *)
Definition approval_active (r : access_request) (t : Z) : bool :=
  t <? default (updated_at (ar_stamps r)) (ar_decided_at r) + minutes (ar_requested_duration_minutes r).

(** [order_by("-decided_at", "-updated_at")]: descending, rows without a decision
    date first (PostgreSQL sorts nulls as largest). *)
Definition by_decision (l : list (obj access_request)) : list (obj access_request) :=
  let decided o := ar_decided_at (val o) in
  List.filter (λ o, bool_decide (decided o = None))
    (sort_by (λ o, - updated_at (ar_stamps (val o))) l) ++
  sort_by (λ o, - default 0 (decided o))
    (List.filter (λ o, bool_decide (decided o ≠ None))
       (sort_by (λ o, - updated_at (ar_stamps (val o))) l)).

Definition _active_approval (user : id) (cred : credential) (policy : id)
    : M (option (obj access_request)) :=
  requests ← asks (λ d, by_decision (objects_filter (λ o,
    bool_decide (ar_requester (val o) = user) && bool_decide (ar_target (val o) = c_target cred)
    && bool_decide (ar_policy (val o) = policy)
    && bool_decide (ar_status (val o) = RequestStatus.APPROVED)) (access_requests d)));
  t ← now;
  mret (List.find (λ o, approval_active (val o) t) requests).

(** [MFADevice.objects.filter(user=user, confirmed=True).exists()] *)
Definition has_confirmed_device (d : db) (user : id) : bool :=
  exists_row (λ o, bool_decide (m_user (val o) = user) && m_confirmed (val o)) (mfa_devices d).

(** The tests of one candidate policy: the approval it rests on when it passes. *)
Definition try_policy (user : obj user) (cred : obj credential) (mfa_verified_at : option json)
    (platform_policy : platform_security_policy) (p : obj access_policy)
    : M (option (option (obj access_request))) :=
  d ← asks (λ d, d);
  if negb (policy_allows_credential d (val p) cred) then mret None
  else
    access_request ← _active_approval (pk user) (val cred) (pk p);
    if p_requires_approval (val p) && bool_decide (access_request = None) then mret None
    else
      d ← asks (λ d, d);
      if p_requires_mfa (val p) && negb (has_confirmed_device d (pk user)) then mret None
      else if p_requires_mfa (val p) then
        recent ← mfa_timestamp_is_recent mfa_verified_at platform_policy;
        if negb recent then mret None else mret (Some access_request)
      else mret (Some access_request).

(** The loop over the candidates: the first that passes. *)
Fixpoint first_policy (user : obj user) (cred : obj credential) (mfa_verified_at : option json)
    (platform_policy : platform_security_policy) (l : list (obj access_policy))
    : M (obj access_policy * option (obj access_request)) :=
  match l with
  | [] => raise (PermissionDenied "Aucune autorisation active ne permet cette opération.")
  | p :: l' =>
      r ← try_policy user cred mfa_verified_at platform_policy p;
      match r with
      | Some access_request => mret (p, access_request)
      | None => first_policy user cred mfa_verified_at platform_policy l'
      end
  end.

Definition authorizing_policy_for (user : obj user) (cred : obj credential) (action : string)
    (source_ip : option string) (mfa_verified_at : option json)
    : M (obj access_policy * option (obj access_request)) :=
  platform_policy ← get_security_policy;
  allowing ← policies_allowing (Authenticated user) action source_ip None;
  candidates ← asks (λ d, List.filter (λ p, target_covered d (val p) (c_target (val cred))) allowing);
  first_policy user cred mfa_verified_at platform_policy candidates.

(** ** Issue *)

Definition purpose_action (purpose : lease_purpose) : string :=
  if decide (purpose = SESSION) then START_SESSION else VIEW_SECRET.

(** [credential.target.enabled] *)
Definition target_enabled (d : db) (cred : credential) : bool :=
  match targets d !! c_target cred with Some t => t_enabled t | None => false end.

(** [INSERT]: the token hash is a unique column. *)
Definition insert_lease (k : id) (lease : secret_lease) : M unit :=
  duplicate ← asks (λ d, exists_row (λ o, bool_decide (l_token_hash (val o) = l_token_hash lease)) (leases d));
  raise_if duplicate (IntegrityError "token_hash") ;;
  insert_row leases k lease.

Definition issue_secret_lease (user : obj user) (cred : obj credential) (justification : string)
    (purpose : lease_purpose) (lifetime_seconds : Z) (source_ip : option string)
    (mfa_verified_at : option json) : M (obj secret_lease * string) :=
  justification ← of_outcome (normalize_justification justification);
  enabled ← asks (λ d, target_enabled d (val cred));
  raise_if (negb (c_checkout_enabled (val cred)) || negb enabled)
    (PermissionDenied "Cet identifiant n’est pas disponible à la consultation.") ;;
  raise_if ((lifetime_seconds <? 15) || (300 <? lifetime_seconds))
    (ValidationError "La durée d’un bail doit être comprise entre 15 et 300 secondes.") ;;
  auth ← authorizing_policy_for user cred (purpose_action purpose) source_ip mfa_verified_at;
  token ← token_urlsafe 32;
  t ← now;
  k ← uuid4;
  st ← new_stamps;
  let lease := SecretLease (pk cred) (pk user) (pk auth.1) (pk <$> auth.2) purpose (_token_hash token)
                 (t + seconds lifetime_seconds) 1 0 None None source_ip justification st in
  insert_lease k lease ;;
  record_event (Some (pk user)) "credential.secret_lease.issued" (lease_resource k)
    [("credential_id", JStr (str_uuid (pk cred))); ("purpose", JStr (lease_purpose_str purpose));
     ("justification", JStr justification)] source_ip ;;
  mret (Obj k lease, token).

(** ** Consumption *)

(** [SecretLease.objects.get(token_hash=...)]; the column is unique. *)
Definition lease_by_hash (d : db) (h : string) : option (obj secret_lease) :=
  List.find (λ o, bool_decide (l_token_hash (val o) = h)) (rows (leases d)).

Definition lease_unusable (l : secret_lease) (t : Z) : bool :=
  bool_decide (is_Some (l_revoked_at l)) || (l_expires_at l <=? t) || (l_max_uses l <=? l_use_count l).

Definition use_lease (t stamp : Z) (l : secret_lease) : secret_lease :=
  l <| l_use_count := l_use_count l + 1 |> <| l_consumed_at := Some t |> <| l_stamps ::= touch stamp |>.

Definition consume_secret_lease (token : string) (expected_user : option id)
    (expected_purpose : option lease_purpose) : M (obj secret_lease * string) :=
  atomic (
    found ← asks (λ d, lease_by_hash d (_token_hash token));
    match found with
    | None => raise (PermissionDenied "Bail de secret invalide.")
    | Some lease =>
        cred ← get_row credentials "Credential" (l_credential (val lease));
        t ← now;
        raise_if (lease_unusable (val lease) t)
          (PermissionDenied "Ce bail de secret a expiré ou a déjà été consommé.") ;;
        raise_if (match expected_user with Some u => bool_decide (l_user (val lease) ≠ u) | None => false end)
          (PermissionDenied "Ce bail appartient à un autre utilisateur.") ;;
        raise_if (match expected_purpose with Some p => bool_decide (l_purpose (val lease) ≠ p) | None => false end)
          (PermissionDenied "Ce bail ne permet pas cette opération.") ;;
        stamp ← now;
        save_fields leases (pk lease) (use_lease t stamp) ;;
        stamp2 ← now;
        save_fields credentials (pk cred) (λ c,
          c <| c_last_checked_out_at := Some t |> <| c_stamps ::= touch stamp2 |>) ;;
        record_event (Some (l_user (val lease))) "credential.secret_lease.consumed"
          (lease_resource (pk lease))
          [("credential_id", JStr (str_uuid (pk cred))); ("purpose", JStr (lease_purpose_str (l_purpose (val lease))));
           ("justification", JStr (l_justification (val lease)))] (l_source_ip (val lease)) ;;
        secret ← decrypt (c_encrypted_secret (val cred)) (c_secret_key_id (val cred));
        mret (Obj (pk lease) (use_lease t stamp (val lease)), secret)
    end).

(** [lease] is the caller's instance. *)
Definition revoke_secret_lease (lease : obj secret_lease) (actor : option id) : M (obj secret_lease) :=
  if decide (is_Some (l_revoked_at (val lease))) then mret lease
  else
    t ← now;
    stamp ← now;
    save_fields leases (pk lease) (λ l, l <| l_revoked_at := Some t |> <| l_stamps ::= touch stamp |>) ;;
    record_event actor "credential.secret_lease.revoked" (lease_resource (pk lease)) [] None ;;
    mret (lease <| val ::= λ l, l <| l_revoked_at := Some t |> |>).
End leases.

(** ** Facts about authorisation *)

Section authorisation_facts.
Context {PF : Platform}.

(** The request [r] approves the user's access to the account's target under the
    policy, and its approved duration is not over at instant [t]. *)
Definition approval_for (d : db) (user : id) (cred : credential) (policy : id)
    (r : obj access_request) (t : Z) : Prop :=
  access_requests d !! pk r = Some (val r) ∧ ar_requester (val r) = user ∧
  ar_target (val r) = c_target cred ∧ ar_policy (val r) = policy ∧
  ar_status (val r) = RequestStatus.APPROVED ∧
  t < default (updated_at (ar_stamps (val r))) (ar_decided_at (val r))
      + minutes (ar_requested_duration_minutes (val r)).

Lemma elem_of_by_decision l o : o ∈ by_decision l → o ∈ l.
Proof.
  unfold by_decision. rewrite elem_of_app, elem_of_sort_by, !list_elem_of_In, !filter_In, <- !list_elem_of_In.
  rewrite !elem_of_sort_by. tauto.
Qed.

Lemma active_approval_run user cred policy w :
  ∃ x, _active_approval user cred policy w = (Ok x, advance w) ∧
    ∀ r, x = Some r → approval_for (w_db w) user cred policy r (w_clock w).
Proof.
  unfold _active_approval. run. eexists. split; [reflexivity|]. intros r Hr.
  apply find_elem in Hr as [Hin Ht]. apply elem_of_by_decision, elem_of_objects_filter in Hin as [Hin Hc].
  breflect. unfold approval_active in Ht. apply Z.ltb_lt in Ht. done.
Qed.

(** The conditions one candidate passed, at instants between [w] and [w']. *)
Definition conditions_met (d : db) (user : id) (cred : obj credential) (mfa : option json)
    (pp : platform_security_policy) (p : obj access_policy) (ar : option (obj access_request))
    (w w' : world) : Prop :=
  policy_allows_credential d (val p) cred = true ∧
  (∀ r, ar = Some r → ∃ t, instant w w' None t ∧ approval_for d user (val cred) (pk p) r t) ∧
  (p_requires_approval (val p) = true → is_Some ar) ∧
  (p_requires_mfa (val p) = true → has_confirmed_device d user = true ∧
     ∃ j v t, instant w w' None t ∧ mfa = Some j ∧ int_of_json j = Ok v ∧
       epoch t - v <= sensitive_action_mfa_window_minutes pp * 60).

Lemma conditions_met_weaken d user cred mfa pp p ar w0 w w' w1 :
  later w0 w → later w w' → later w' w1 →
  conditions_met d user cred mfa pp p ar w w' → conditions_met d user cred mfa pp p ar w0 w1.
Proof.
  intros H0 H H1 (Hc & Ha & Hra & Hm). split_and!; try done.
  - intros r Hr. destruct (Ha r Hr) as (t & Ht & ?). exists t. split; [|done].
    by eapply instant_weaken.
  - intros Hreq. destruct (Hm Hreq) as (? & j & v & t & Ht & ?). split; [done|]. exists j, v, t.
    split; [|done]. by eapply instant_weaken.
Qed.

Lemma instant_here w w' : later w w' → instant w w' None (w_clock w).
Proof. intros H Hf. destruct (H Hf). lia. Qed.

Lemma active_approval_quiet user cred policy : quiet (_active_approval user cred policy).
Proof. unfold _active_approval. solve_quiet. Qed.

Lemma mfa_timestamp_quiet j p : quiet (mfa_timestamp_is_recent j p).
Proof. intros w. destruct (mfa_timestamp_run j p w) as (b & w' & -> & Hr & _). done. Qed.
#[local] Hint Resolve active_approval_quiet mfa_timestamp_quiet : pam.

Lemma try_policy_quiet user cred mfa pp p : quiet (try_policy user cred mfa pp p).
Proof. unfold try_policy. solve_quiet. Qed.

(** The fresh-MFA part of a successful test. *)
Lemma try_policy_mfa user mfa pp (p : obj access_policy) (x ar : option (obj access_request)) w w' :
  (if p_requires_mfa (val p) && negb (has_confirmed_device (w_db w) user) then mret None
   else if p_requires_mfa (val p) then
     recent ← mfa_timestamp_is_recent mfa pp;
     if negb recent then mret None else mret (Some x)
   else mret (Some x)) w = (Ok (Some ar), w') →
  ar = x ∧ later w w' ∧
  (p_requires_mfa (val p) = true → has_confirmed_device (w_db w) user = true ∧
     ∃ j v t, instant w w' None t ∧ mfa = Some j ∧ int_of_json j = Ok v ∧
       epoch t - v <= sensitive_action_mfa_window_minutes pp * 60).
Proof.
  destruct (p_requires_mfa (val p)); cbn [andb].
  - destruct (has_confirmed_device (w_db w) user); cbn [negb]; [|done].
    destruct (mfa_timestamp_run mfa pp w) as (b & w2 & E2 & [Hd2 Hl2] & Hb).
    rewrite (bind_ok _ _ _ _ _ E2). destruct b; cbn [negb]; [|done]. intros [= <- <-].
    split_and!; try done. intros _. split; [done|].
    destruct (proj1 Hb eq_refl) as (j & v & ? & ? & ?). exists j, v, (w_clock w).
    split; [by apply instant_here|done].
  - intros [= <- <-]. by split_and!.
Qed.

Lemma try_policy_ok user cred mfa pp p w ar w' :
  try_policy user cred mfa pp p w = (Ok (Some ar), w') →
  conditions_met (w_db w) (pk user) cred mfa pp p ar w w'.
Proof.
  unfold try_policy. run.
  destruct (policy_allows_credential (w_db w) (val p) cred) eqn:Hc; cbn [negb]; [|done].
  destruct (active_approval_run (pk user) (val cred) (pk p) w) as (x & E & Hx).
  rewrite (bind_ok _ _ _ _ _ E).
  destruct (p_requires_approval (val p) && bool_decide (x = None)) eqn:Hra; [done|]. run.
  intros (-> & Hl & Hm)%try_policy_mfa. change (w_db (advance w)) with (w_db w) in Hm.
  split; [done|]. split; [|split].
  - intros r Hr. exists (w_clock w). split; [|by apply Hx].
    apply instant_here. by etrans; [apply later_advance|].
  - intros Hreq. rewrite Hreq in Hra. simpl in Hra. breflect. by destruct x; [eexists|].
  - intros Hreq. destruct (Hm Hreq) as (? & j & v & t & Ht & ?). split; [done|]. exists j, v, t.
    split; [|done]. eapply (instant_weaken w (advance w) w' w'); [apply later_advance|reflexivity|done|done].
Qed.

Lemma first_policy_quiet user cred mfa pp l : quiet (first_policy user cred mfa pp l).
Proof.
  induction l as [|p l IH]; simpl; [auto with pam|]. apply quiet_bind; [apply try_policy_quiet|].
  intros [ar|]; auto with pam.
Qed.

Lemma first_policy_ok user cred mfa pp l w p ar w' :
  first_policy user cred mfa pp l w = (Ok (p, ar), w') →
  p ∈ l ∧ conditions_met (w_db w) (pk user) cred mfa pp p ar w w'.
Proof.
  revert w. induction l as [|q l IH]; intros w H; simpl in H; [done|].
  apply bind_ok_inv in H as (r & w1 & E & H).
  pose proof (quiet_run _ _ _ _ (try_policy_quiet _ _ _ _ _) E) as [Hd Hl].
  destruct r as [ar'|].
  - injection H as <- <- <-. split; [left|]. by apply try_policy_ok.
  - pose proof (quiet_run _ _ _ _ (first_policy_quiet _ _ _ _ _) H) as [_ Hl2].
    apply IH in H as [Hin Hc]. split; [by right|]. rewrite Hd in Hc.
    eapply conditions_met_weaken; [exact Hl|exact Hl2|reflexivity|done].
Qed.

Lemma get_security_policy_inv w p w' :
  get_security_policy w = (Ok p, w') →
  later w w' ∧ (∃ sp, w_db w' = w_db w <| security_policy := sp |>) ∧
  p = default default_security_policy (security_policy (w_db w)).
Proof.
  unfold get_security_policy. intros H. run_inv H.
  destruct (security_policy (w_db w)) as [q|] eqn:E.
  - prim_inv H. split; [reflexivity|]. split; [|done]. exists (security_policy (w_db w)). by destruct (w_db w).
  - unfold save_security_policy in H. run_inv H. run_inv R. split; [apply later_advance|]. split; [|done].
    by eexists.
Qed.

(** Whenever an operation is authorised, a policy grants it and its approval and
    MFA conditions hold. *)
Lemma authorizing_policy_ok user cred action ip mfa w p ar w' :
  authorizing_policy_for user cred action ip mfa w = (Ok (p, ar), w') →
  later w w' ∧ (∃ sp, w_db w' = w_db w <| security_policy := sp |>) ∧
  (∃ t, instant w w' None t ∧ grants (w_db w) (pk user) p action t ip) ∧
  covers (w_db w) (val p) cred ∧
  conditions_met (w_db w) (pk user) cred mfa
    (default default_security_policy (security_policy (w_db w))) p ar w w'.
Proof.
  unfold authorizing_policy_for. intros H. run_inv H.
  apply get_security_policy_inv in R as (Hl1 & (sp & Hd1) & ->).
  apply policies_allowing_sound in R0 as [[Hd2 Hl2] Hall].
  pose proof (quiet_run _ _ _ _ (first_policy_quiet _ _ _ _ _) H) as [Hd3 Hl3].
  apply first_policy_ok in H as [Hin Hc].
  apply list_elem_of_In, filter_In in Hin as [Hin Hcov]. apply list_elem_of_In in Hin.
  apply Hall in Hin as (uo & t & [= <-] & Ht & Hg). rewrite Hd2, Hd1 in *.
  split; [by do 2 (etrans; [eassumption|])|]. split; [by exists sp|]. split.
  { exists t. split; [|exact Hg]. eapply instant_weaken; [exact Hl1|exact Hl3|exact Hl2|done]. }
  split; [apply covers_spec; split; [exact Hcov|apply Hc]|].
  eapply (conditions_met_weaken _ _ _ _ _ _ _ w w1 w' w'); [by etrans|done|reflexivity|exact Hc].
Qed.
End authorisation_facts.

Section lease_theorems.
Context {PF : Platform}.

Lemma issue_ok_inv user cred just purpose life ip mfa w lease token w' :
  issue_secret_lease user cred just purpose life ip mfa w = (Ok (lease, token), w') →
  ∃ j p ar w1 t st sp,
    normalize_justification just = Ok j ∧
    c_checkout_enabled (val cred) = true ∧ target_enabled (w_db w) (val cred) = true ∧
    15 <= life <= 300 ∧
    authorizing_policy_for user cred (purpose_action purpose) ip mfa w = (Ok (p, ar), w1) ∧
    later w1 w' ∧ instant w w' None t ∧
    val lease = SecretLease (pk cred) (pk user) (pk p) (pk <$> ar) purpose (sha256_hex token)
                  (t + seconds life) 1 0 None None ip j st ∧
    leases (w_db w) !! pk lease = None ∧
    (∀ o, leases (w_db w) !! pk o = Some (val o) → l_token_hash (val o) ≠ sha256_hex token) ∧
    audit_frame (w_db w <| security_policy := sp |> <| leases ::= <[pk lease := val lease]> |>) (w_db w').
Proof.
  unfold issue_secret_lease. intros H. run_inv H. destruct a2 as [p ar].
  pose proof (authorizing_policy_ok _ _ _ _ _ _ _ _ _ R2) as (Hl & (sp & Hd) & _).
  unfold insert_lease in R3. run_inv R3.
  breflect. simpl in Enew. rewrite Hd in Enew.
  rewrite exists_row_false in R5. simpl in R5. rewrite Hd in R5.
  pose proof (flows_run _ _ _ _ (record_event_flows _ _ _ _ _) R4) as Hl2. simpl in Hl2.
  apply record_event_frame in R4. simpl in R4. rewrite Hd in R4.
  assert (later (advance w0) w2) as Hl3.
  { etrans; [apply later_advance|]. etrans; [apply later_advance|]. exact Hl2. }
  exists a, p, ar, w0, (w_clock w0). do 2 eexists.
  split_and!; try done; try lia.
  - etrans; [apply later_advance|]. exact Hl3.
  - eapply (instant_weaken w w0 (advance w0) w2 None); [exact Hl|exact Hl3|apply later_advance|].
    apply instant_here, later_advance.
  - intros o Ho. apply R5 in Ho. by apply bool_decide_eq_false in Ho.
Qed.

(** A secret lease is only issued under authority.  When [issue_secret_lease]
    succeeds, the account may be checked out and its target is enabled, the
    lifetime is 15 to 300 seconds, and some policy granted the matching action to
    the user from that address while the call ran and covers the account; if the
    policy wants an approval the lease names an approved request of that user for
    that target whose duration is not over, and if it wants MFA the user has a
    confirmed device and a fresh verification.  Exactly one lease is stored, for
    one use, under the SHA-256 of a token hash no other lease has. *)
Theorem secret_lease_is_authorised user cred just purpose life ip mfa w lease token w' :
  issue_secret_lease user cred just purpose life ip mfa w = (Ok (lease, token), w') →
  c_checkout_enabled (val cred) = true ∧ target_enabled (w_db w) (val cred) = true ∧
  ∃ p ar, (∃ t, instant w w' None t ∧ grants (w_db w) (pk user) p (purpose_action purpose) t ip) ∧
    covers (w_db w) (val p) cred ∧
    conditions_met (w_db w) (pk user) cred mfa
      (default default_security_policy (security_policy (w_db w))) p ar w w' ∧
    leases (w_db w) !! pk lease = None ∧
    leases (w_db w') = <[pk lease := val lease]> (leases (w_db w)) ∧
    l_user (val lease) = pk user ∧ l_credential (val lease) = pk cred ∧
    l_policy (val lease) = pk p ∧ l_access_request (val lease) = pk <$> ar ∧
    l_token_hash (val lease) = sha256_hex token ∧ l_max_uses (val lease) = 1 ∧
    l_use_count (val lease) = 0 ∧ l_revoked_at (val lease) = None ∧
    (time_flows w → w_clock w + seconds 15 <= l_expires_at (val lease) <= w_clock w' + seconds 300) ∧
    ∀ o, leases (w_db w) !! pk o = Some (val o) → l_token_hash (val o) ≠ sha256_hex token.
Proof.
  intros (j & p & ar & w1 & t & st & sp & _ & Hco & Hten & Hlife & Hauth & Hl & Ht & Hlease & Hnew & Huniq
    & (?&?&?&Hd))%issue_ok_inv.
  apply authorizing_policy_ok in Hauth as (Hl1 & _ & (t' & Ht' & Hg) & Hcov & Hcond).
  split; [done|]. split; [done|]. exists p, ar. rewrite Hlease.
  split; [exists t'; split; [|done]; by eapply instant_weaken; [reflexivity|exact Hl|exact Hl1|]|].
  split; [done|].
  split; [by eapply conditions_met_weaken; [reflexivity|exact Hl1|exact Hl|]|].
  split; [done|]. split; [by rewrite Hd, Hlease|]. split_and!; try done.
  all: intros Hf; specialize (Ht Hf); simpl; unfold seconds, second; lia.
Qed.

(** *** One use *)

Definition distinct_hashes (d : db) : Prop :=
  ∀ a b, leases d !! pk a = Some (val a) → leases d !! pk b = Some (val b) →
    l_token_hash (val a) = l_token_hash (val b) → pk a = pk b.

(** The lease behind the hash [h] can no longer be used. *)
Definition spent (d : db) (h : string) : Prop :=
  ∃ k l, leases d !! k = Some l ∧ l_token_hash l = h ∧ l_max_uses l <= l_use_count l.

Lemma lease_by_hash_spec d h o :
  lease_by_hash d h = Some o → leases d !! pk o = Some (val o) ∧ l_token_hash (val o) = h.
Proof.
  intros [Hin Hh]%find_elem. rewrite elem_of_rows in Hin. by apply bool_decide_eq_true in Hh.
Qed.

Lemma consume_ok_inv token eu ep w lease secret w' :
  consume_secret_lease token eu ep w = (Ok (lease, secret), w') →
  ∃ l c stamp c',
    leases (w_db w) !! pk lease = Some l ∧ l_token_hash l = sha256_hex token ∧
    lease_unusable l (w_clock w) = false ∧
    (∀ u, eu = Some u → l_user l = u) ∧ (∀ p, ep = Some p → l_purpose l = p) ∧
    val lease = use_lease (w_clock w) stamp l ∧
    credentials (w_db w) !! l_credential l = Some c ∧
    (decrypt (c_encrypted_secret c) (c_secret_key_id c) w).1 = Ok secret ∧
    audit_frame (w_db w <| leases ::= <[pk lease := val lease]> |>
                   <| credentials ::= <[l_credential l := c']> |>) (w_db w').
Proof.
  unfold consume_secret_lease. intros H. run_inv H.
  destruct (lease_by_hash _ _) as [o|] eqn:Eo; [|done].
  apply lease_by_hash_spec in Eo as [Eo Hh]. run_inv H.
  simpl in *. rewrite Eo in Erow. injection Erow as <-.
  pose proof (decrypt_run (c_encrypted_secret (val a)) (c_secret_key_id (val a)) w0) as Hw.
  rewrite R4 in Hw. simpl in Hw. subst w1.
  apply record_event_frame in R3. simpl in R3. rewrite Epk, R in Erow0. injection Erow0 as <-.
  exists (val o), (val a). do 2 eexists. split_and!; try done.
  - intros u ->. by destruct (decide (l_user (val o) = u)) as [|Hne]; [|rewrite bool_decide_true in R1].
  - intros p ->. by destruct (decide (l_purpose (val o) = p)) as [|Hne]; [|rewrite bool_decide_true in R2].
  - by rewrite (decrypt_indep _ _ w w0), R4.
  - rewrite <- Epk. exact R3.
Qed.
End lease_theorems.

#[export] Hint Resolve decrypt_quiet policies_allowing_quiet try_policy_quiet first_policy_quiet : pam.

Section single_use.
Context {PF : Platform}.

(** The lease behind the hash is used up, and it is the only one with that hash. *)
Definition used_up (h : string) (d : db) : Prop := distinct_hashes d ∧ spent d h.

#[global] Instance used_up_stable h : AuditStable (used_up h).
Proof. intros d d' (?&?&?&->). done. Qed.

(** Changing a lease without touching its hash and limit, its uses not decreasing. *)
Lemma used_up_update h k f d l :
  leases d !! k = Some l → l_token_hash (f l) = l_token_hash l →
  l_max_uses (f l) = l_max_uses l → l_use_count l <= l_use_count (f l) →
  used_up h d → used_up h (set_field leases <[k := f l]> d).
Proof.
  intros Hk Hh Hm Hu [Hdist (j & lj & Hj & Hhj & Hsp)]. split.
  - intros a b. simpl. rewrite !lookup_insert_Some. intros Ha Hb Eh.
    destruct Ha as [[Ea Va]|[? Ha]], Hb as [[Eb Vb]|[? Hb]]; [congruence| | |by apply Hdist].
    + apply (Hdist (Obj (pk a) l) b); simpl; congruence.
    + apply (Hdist a (Obj (pk b) l)); simpl; congruence.
  - unfold spent. simpl. destruct (decide (j = k)) as [->|Hne].
    + rewrite Hk in Hj. injection Hj as <-. exists k, (f l). rewrite lookup_insert_eq.
      split_and!; [done|congruence|lia].
    + exists j, lj. by rewrite lookup_insert_ne.
Qed.

Lemma insert_lease_used_up h k l : preserves (used_up h) (insert_lease k l).
Proof.
  intros w [Hdist Hsp]. unfold insert_lease. run.
  destruct (exists_row _ _) eqn:E; [by split|]. rewrite run_raise_if_false by done.
  rewrite exists_row_false in E. unfold insert_row.
  destruct (leases (w_db w) !! k) eqn:Ek; [by split|]. simpl. split.
  - intros a b. simpl. rewrite !lookup_insert_Some. intros Ha Hb Eh.
    destruct Ha as [[Ea Va]|[? Ha]], Hb as [[Eb Vb]|[? Hb]]; [congruence| | |by apply Hdist].
    + apply E in Hb. apply bool_decide_eq_false in Hb. congruence.
    + apply E in Ha. apply bool_decide_eq_false in Ha. congruence.
  - destruct Hsp as (j & lj & Hj & ?). exists j, lj. simpl. by rewrite lookup_insert_ne by congruence.
Qed.

Lemma get_security_policy_used_up h : preserves (used_up h) get_security_policy.
Proof.
  unfold get_security_policy, save_security_policy. solve_preserves.
  all: apply preserves_modify; done.
Qed.

Lemma issue_keeps_used_up h user cred just purpose life ip mfa :
  preserves (used_up h) (issue_secret_lease user cred just purpose life ip mfa).
Proof.
  pose proof (get_security_policy_used_up h). pose proof (insert_lease_used_up h).
  unfold issue_secret_lease, authorizing_policy_for, new_stamps, token_urlsafe. solve_preserves.
Qed.

Lemma revoke_keeps_used_up h lease actor : preserves (used_up h) (revoke_secret_lease lease actor).
Proof.
  unfold revoke_secret_lease. solve_preserves. apply preserves_save. intros d v Hv.
  by apply (used_up_update h _ (λ l, l <| l_revoked_at := Some a |> <| l_stamps ::= touch a0 |>)).
Qed.

Lemma consume_keeps_used_up h token eu ep : preserves (used_up h) (consume_secret_lease token eu ep).
Proof.
  unfold consume_secret_lease. solve_preserves.
  - apply preserves_save. intros d v Hv. apply used_up_update; [done..|simpl; lia].
  - by apply preserves_save.
Qed.

(** Any operation on leases, by anyone, with any outcome. *)
Inductive lease_step : world → world → Prop :=
  | step_issue user cred just purpose life ip mfa w :
      lease_step w (issue_secret_lease user cred just purpose life ip mfa w).2
  | step_consume token eu ep w : lease_step w (consume_secret_lease token eu ep w).2
  | step_revoke lease actor w : lease_step w (revoke_secret_lease lease actor w).2
  | step_lease_quiet w w' : reads w w' → lease_step w w'.

Lemma lease_steps_keep_used_up h w w' :
  rtc lease_step w w' → used_up h (w_db w) → used_up h (w_db w').
Proof.
  induction 1 as [|w w1 w' Hstep _ IH]; [done|]. intros H. apply IH. destruct Hstep as [| | |? ? [E _]].
  - by apply issue_keeps_used_up.
  - by apply consume_keeps_used_up.
  - by apply revoke_keeps_used_up.
  - by rewrite E.
Qed.

Lemma used_up_refused token eu ep w :
  used_up (sha256_hex token) (w_db w) →
  (∀ k l, leases (w_db w) !! k = Some l → is_Some (credentials (w_db w) !! l_credential l)) →
  (consume_secret_lease token eu ep w).1
  = Raise (PermissionDenied "Ce bail de secret a expiré ou a déjà été consommé.").
Proof.
  intros [Hdist (k & l & Hk & Hh & Hsp)] Hfk. unfold consume_secret_lease, atomic. run.
  destruct (lease_by_hash _ _) as [o|] eqn:Eo.
  - apply lease_by_hash_spec in Eo as [Eo Ho].
    assert (pk o = k) as Epk by (apply (Hdist o (Obj k l)); simpl; unfold _token_hash in Ho; congruence).
    rewrite Epk, Hk in Eo. injection Eo as Ev. destruct (Hfk _ _ Hk) as [c Hc].
    rewrite <- Ev, (run_get _ _ _ _ _ _ Hc). run. rewrite run_raise_if_true; [done|].
    unfold lease_unusable. apply orb_true_iff. right. by apply Z.leb_le.
  - exfalso. assert (Obj k l ∈ rows (leases (w_db w))) as Hin by by apply elem_of_rows.
    apply (find_none_elem _ _ _ Eo) in Hin. simpl in Hin. by apply bool_decide_eq_false in Hin.
Qed.

(** C7: A lease token discloses a secret at most once.  After a successful
    consumption of a single-use lease, whatever leases are issued, consumed or
    revoked afterwards, presenting the same token again is refused as already
    consumed (token hashes being distinct, which the unique column keeps true,
    and foreign keys valid). *)
Theorem secret_lease_used_once token eu ep w lease secret w1 w2 eu' ep' :
  distinct_hashes (w_db w) →
  (∀ l, leases (w_db w) !! pk lease = Some l → l_max_uses l = 1 ∧ l_use_count l = 0) →
  consume_secret_lease token eu ep w = (Ok (lease, secret), w1) →
  rtc lease_step w1 w2 →
  (∀ k l, leases (w_db w2) !! k = Some l → is_Some (credentials (w_db w2) !! l_credential l)) →
  (consume_secret_lease token eu' ep' w2).1
  = Raise (PermissionDenied "Ce bail de secret a expiré ou a déjà été consommé.").
Proof.
  intros Hdist Hfresh (l & c & stamp & c' & Hl & Hh & _ & _ & _ & Hv & _ & _ & (?&?&?&Hd))%consume_ok_inv Hsteps Hfk.
  apply used_up_refused; [|done]. eapply lease_steps_keep_used_up; [done|].
  destruct (Hfresh _ Hl) as [Hmax Hcount]. rewrite Hd. split.
  - intros a b. simpl. rewrite !lookup_insert_Some. intros Ha Hb Eh. rewrite Hv in *.
    destruct Ha as [[Ea Va]|[? Ha]], Hb as [[Eb Vb]|[? Hb]]; [congruence| | |by apply Hdist].
    + apply (Hdist (Obj (pk a) l) b); simpl in *; [congruence|done|]. by rewrite <- Va in Eh.
    + apply (Hdist a (Obj (pk b) l)); simpl in *; [done|congruence|]. by rewrite <- Vb in Eh.
  - exists (pk lease), (val lease). simpl. rewrite lookup_insert_eq, Hv. simpl. split_and!; [done..|lia].
Qed.

(** Expired, revoked and exhausted leases disclose nothing: consuming one raises
    [PermissionDenied] and leaves the database as it was; so does presenting a
    lease of another user or for another purpose. *)
Theorem unusable_lease_refused token eu ep w o :
  distinct_hashes (w_db w) →
  leases (w_db w) !! pk o = Some (val o) → l_token_hash (val o) = sha256_hex token →
  is_Some (credentials (w_db w) !! l_credential (val o)) →
  is_Some (l_revoked_at (val o)) ∨ l_expires_at (val o) <= w_clock w ∨
  l_max_uses (val o) <= l_use_count (val o) ∨ (∃ u, eu = Some u ∧ l_user (val o) ≠ u) ∨
  (∃ p, ep = Some p ∧ l_purpose (val o) ≠ p) →
  ∃ m w', consume_secret_lease token eu ep w = (Raise (PermissionDenied m), w') ∧ w_db w' = w_db w.
Proof.
  intros Hdist Ho Hh [c Hc] Hbad.
  destruct (consume_secret_lease token eu ep w) as [r w'] eqn:E.
  enough (∃ m, r = Raise (PermissionDenied m)) as [m ->].
  { exists m, w'. split; [done|]. by eapply atomic_raise_db. }
  revert E. unfold consume_secret_lease, atomic. run.
  destruct (lease_by_hash _ _) as [o'|] eqn:Eo.
  2:{ intros [= <- _]. by eexists. }
  apply lease_by_hash_spec in Eo as [Eo Ho'].
  assert (o' = o) as ->.
  { assert (pk o' = pk o) as Epk by (apply (Hdist o' o); unfold _token_hash in Ho'; congruence).
    destruct o, o'; simpl in *; congruence. }
  rewrite (run_get _ _ _ _ _ _ Hc). run. cbn [val].
  destruct (lease_unusable (val o) (w_clock w)) eqn:Eu; [intros [= <- _]; by eexists|].
  rewrite run_raise_if_false by done. unfold lease_unusable in Eu. breflect.
  destruct Hbad as [?|[?|[?|[(u & -> & Hne)|(p & -> & Hne)]]]]; [done|lia|lia| |].
  - rewrite run_raise_if_true by (by apply bool_decide_eq_true). intros [= <- _]. by eexists.
  - destruct (match eu with Some u => bool_decide (l_user (val o) ≠ u) | None => false end) eqn:Eeu;
      [rewrite run_raise_if_true by done; intros [= <- _]; by eexists|].
    rewrite run_raise_if_false by done.
    rewrite run_raise_if_true by (by apply bool_decide_eq_true). intros [= <- _]. by eexists.
Qed.
End single_use.

(** ** Concrete runs *)

Section witnesses.
#[local] Existing Instance demo_platform.

Definition demo_cred : obj credential := Obj 30%N demo_credential.

Definition demo_issue : M (obj secret_lease * string) :=
  issue_secret_lease demo_alice demo_cred "planned maintenance" REVEAL 60 (Some "192.0.2.9") None.

Definition demo_leased : world := Eval vm_compute in (demo_issue (demo_world demo_policy_db)).2.

Definition demo_lease : obj secret_lease := Eval vm_compute in
  match demo_issue (demo_world demo_policy_db) with
  | (Ok (l, _), _) => l
  | _ => Obj 0%N (SecretLease 0 0 0 None REVEAL "" 0 0 0 None None None "" (Stamps 0 0))
  end.

Lemma secret_lease_is_authorised_witness :
  c_checkout_enabled demo_credential = true ∧ target_enabled demo_policy_db demo_credential = true.
Proof.
  destruct (secret_lease_is_authorised demo_alice demo_cred "planned maintenance" REVEAL 60
    (Some "192.0.2.9") None (demo_world demo_policy_db) demo_lease "token-0" demo_leased) as (H1 & H2 & _).
  - vm_compute. reflexivity.
  - split; [exact H1|exact H2].
Defined.

Definition demo_consumed : world := Eval vm_compute in
  (consume_secret_lease "token-0" (Some 7%N) None demo_leased).2.

Definition demo_used_lease : obj secret_lease := Eval vm_compute in
  match consume_secret_lease "token-0" (Some 7%N) None demo_leased with
  | (Ok (l, _), _) => l
  | _ => demo_lease
  end.

Lemma demo_leases_distinct : distinct_hashes (w_db demo_leased).
Proof.
  assert (leases (w_db demo_leased) = {[pk demo_lease := val demo_lease]}) as E by (vm_compute; reflexivity).
  intros a b. rewrite E. intros [Ha _]%lookup_singleton_Some [Hb _]%lookup_singleton_Some _. congruence.
Qed.

Lemma secret_lease_used_once_witness :
  (consume_secret_lease "token-0" None None demo_consumed).1
  = Raise (PermissionDenied "Ce bail de secret a expiré ou a déjà été consommé.").
Proof.
  apply (secret_lease_used_once "token-0" (Some 7%N) None demo_leased demo_used_lease "secret"
           demo_consumed demo_consumed).
  - apply demo_leases_distinct.
  - assert (leases (w_db demo_leased) !! pk demo_used_lease = Some (val demo_lease)) as -> by (vm_compute; reflexivity).
    intros l [= <-]. split; reflexivity.
  - vm_compute. reflexivity.
  - apply rtc_refl.
  - assert (leases (w_db demo_consumed) = {[pk demo_used_lease := val demo_used_lease]}) as -> by (vm_compute; reflexivity).
    intros k l [_ <-]%lookup_singleton_Some. eexists. vm_compute. reflexivity.
Defined.

Lemma unusable_lease_refused_witness :
  ∃ m w', consume_secret_lease "token-0" (Some 8%N) None demo_leased = (Raise (PermissionDenied m), w') ∧
          w_db w' = w_db demo_leased.
Proof.
  apply (unusable_lease_refused "token-0" (Some 8%N) None demo_leased demo_lease).
  - apply demo_leases_distinct.
  - vm_compute. reflexivity.
  - vm_compute. reflexivity.
  - eexists. vm_compute. reflexivity.
  - do 3 right. left. exists 8%N. split; [reflexivity|discriminate].
Defined.
End witnesses.
