(* ===== verification/Sessions.v ===== *)
(** * Privileged sessions ([pamolive/sessions/services.py])

    A session is opened in two steps for the brokered protocols: a one-time ticket
    reserves capacity under a policy ([issue_session_ticket]), the gateway presents
    it ([consume_session_ticket]).  Web sessions open at once.  Sessions end by
    [close_session], or by an administrator's [request_session_termination]. *)

From S2P Require Import Prelude PyStr Json Crypto PyTime Models World AuditTrail Rbac Ip Policies Approvals Vault Mfa Accounts Leases.

Local Open Scope Z_scope.

Import SessionStatus.

Section sessions.
Context {PF : Platform}.

(** [status__in=(ACTIVE, TERMINATING)] *)
Definition live_status (s : SessionStatus.t) : bool :=
  bool_decide (s = ACTIVE) || bool_decide (s = TERMINATING).

(** [status in {CLOSED, FAILED}] *)
Definition ended_status (s : SessionStatus.t) : bool :=
  bool_decide (s = CLOSED) || bool_decide (s = FAILED).

(** The filter [user=user, target=target, policy=policy]. *)
Definition of_triple (user target policy : id) (s : privileged_session) : bool :=
  bool_decide (s_user s = user) && bool_decide (s_target s = target)
  && bool_decide (s_policy s = Some policy).

(** A ticket that still reserves capacity at instant [t]. *)
Definition ticket_pending (k : session_ticket) (t : Z) : bool :=
  (t <? k_expires_at k) && bool_decide (k_consumed_at k = None) && bool_decide (k_revoked_at k = None).

Definition counted (d : db) (user target policy : id) (t : Z) (o : obj privileged_session) : bool :=
  of_triple user target policy (val o)
  && (live_status (s_status (val o))
      || (bool_decide (s_status (val o) = CREATED)
          && exists_row (λ k, bool_decide (k_session (val k) = pk o) && ticket_pending (val k) t)
               (tickets d))).

Definition _active_session_count (d : db) (user target policy : id) (now : Z) : Z :=
  count_rows (counted d user target policy now) (sessions d).

(** [INSERT]: the token hash and the session of a ticket are unique columns. *)
Definition insert_ticket (k : id) (ticket : session_ticket) : M unit :=
  duplicate ← asks (λ d, exists_row (λ o,
    bool_decide (k_token_hash (val o) = k_token_hash ticket)
    || bool_decide (k_session (val o) = k_session ticket)) (tickets d));
  raise_if duplicate (IntegrityError "sessionticket unique") ;;
  insert_row tickets k ticket.

(** [credential.target.host_keys.filter(revoked_at__isnull=True).exists()] *)
Definition has_host_key (d : db) (target : id) : bool :=
  exists_row (λ o, bool_decide (hk_target (val o) = target) && bool_decide (hk_revoked_at (val o) = None))
    (host_keys d).

(** [min(duration, access_request.requested_duration_minutes)] when there is one. *)
Definition session_duration (policy : access_policy) (ar : option (obj access_request)) : Z :=
  match ar with
  | Some r => Z.min (p_max_duration_minutes policy) (ar_requested_duration_minutes (val r))
  | None => p_max_duration_minutes policy
  end.

Definition opening_metadata (cred policy : id) (p : protocol) (justification : string)
    : list (string * json) :=
  [("credential_id", JStr (str_uuid cred)); ("policy_id", JStr (str_uuid policy));
   ("protocol", JStr (protocol_str p)); ("justification", JStr justification)].

Definition issue_session_ticket (user : obj user) (cred : obj credential) (justification : string)
    (lifetime_seconds : Z) (source_ip : option string) (mfa_verified_at : option json)
    : M (obj privileged_session * obj session_ticket * string) :=
  atomic (
    justification ← of_outcome (normalize_justification justification);
    target ← get_row targets "Target" (c_target (val cred));
    let protocol := t_protocol (val target) in
    raise_if (negb (bool_decide (protocol = SSH) || bool_decide (protocol = RDP)))
      (PermissionDenied "Cette cible ne prend pas en charge les sessions interactives.") ;;
    raise_if (bool_decide (protocol = RDP) && negb (PAMOLIVE_RDP_ENABLED conf))
      (PermissionDenied "Le courtage RDP n'est pas activé sur cette installation.") ;;
    trusted ← asks (λ d, has_host_key d (pk target));
    raise_if (bool_decide (protocol = SSH) && bool_decide (t_host_key_policy (val target) = STRICT)
              && negb trusted)
      (PermissionDenied "Aucune clé d’hôte SSH approuvée n’est disponible pour cette cible.") ;;
    raise_if ((lifetime_seconds <? 15) || (120 <? lifetime_seconds))
      (ValidationError "La durée du ticket doit être comprise entre 15 et 120 secondes.") ;;
    auth ← authorizing_policy_for user cred START_SESSION source_ip mfa_verified_at;
    policy ← get_row policies "AccessPolicy" (pk auth.1);
    t ← now;
    concurrent ← asks (λ d, _active_session_count d (pk user) (pk target) (pk policy) t);
    raise_if (p_max_concurrent_sessions (val policy) <=? concurrent)
      (PermissionDenied "Le nombre maximal de sessions simultanées est atteint.") ;;
    k ← uuid4;
    st ← new_stamps;
    let session := PrivilegedSession (pk user) (pk target) (Some (pk cred)) (Some (pk policy))
      (pk <$> auth.2) CREATED (Some (t + minutes (session_duration (val policy) auth.2)))
      None None None source_ip justification "" "" None None st in
    insert_row sessions k session ;;
    raw_token ← token_urlsafe 32;
    kt ← uuid4;
    stt ← new_stamps;
    let ticket := SessionTicket k (_token_hash raw_token) (t + seconds lifetime_seconds) None None
      source_ip stt in
    insert_ticket kt ticket ;;
    record_event (Some (pk user)) "session.ticket_issued" (session_resource k)
      (opening_metadata (pk cred) (pk policy) protocol justification) source_ip ;;
    mret (Obj k session, Obj kt ticket, raw_token)).

Definition start_web_session (user : obj user) (cred : obj credential) (justification : string)
    (source_ip : option string) (mfa_verified_at : option json) : M (obj privileged_session) :=
  atomic (
    justification ← of_outcome (normalize_justification justification);
    target ← get_row targets "Target" (c_target (val cred));
    raise_if (bool_decide (t_protocol (val target) ≠ WEB))
      (PermissionDenied "Cette cible n'est pas une application web.") ;;
    auth ← authorizing_policy_for user cred START_SESSION source_ip mfa_verified_at;
    policy ← get_row policies "AccessPolicy" (pk auth.1);
    t ← now;
    concurrent ← asks (λ d, _active_session_count d (pk user) (pk target) (pk policy) t);
    raise_if (p_max_concurrent_sessions (val policy) <=? concurrent)
      (PermissionDenied "Le nombre maximal de sessions simultanÃ©es est atteint.") ;;
    k ← uuid4;
    st ← new_stamps;
    let session := PrivilegedSession (pk user) (pk target) (Some (pk cred)) (Some (pk policy))
      (pk <$> auth.2) ACTIVE (Some (t + minutes (session_duration (val policy) auth.2)))
      (Some t) None (Some t) source_ip justification "" "" None None st in
    insert_row sessions k session ;;
    record_event (Some (pk user)) "session.web_opened" (session_resource k)
      (opening_metadata (pk cred) (pk policy) (t_protocol (val target)) justification) source_ip ;;
    mret (Obj k session)).

(** ** Opening with a ticket *)

(** [SessionTicket.objects.get(session_id=..., token_hash=...)] *)
Definition ticket_for (d : db) (session : id) (h : string) : option (obj session_ticket) :=
  List.find (λ o, bool_decide (k_session (val o) = session) && bool_decide (k_token_hash (val o) = h))
    (rows (tickets d)).

Definition ticket_unusable (k : session_ticket) (t : Z) : bool :=
  bool_decide (is_Some (k_revoked_at k)) || bool_decide (is_Some (k_consumed_at k))
  || (k_expires_at k <=? t).

(** [ticket.source_ip and source_ip and ticket.source_ip != source_ip] *)
Definition source_changed (bound presented : option string) : bool :=
  match bound, presented with
  | Some a, Some b => bool_decide (a ≠ "") && bool_decide (b ≠ "") && bool_decide (a ≠ b)
  | _, _ => false
  end.

(** The live sessions of a triple, [.exclude(pk=session.pk)]. *)
Definition other_live (user target policy session : id) (o : obj privileged_session) : bool :=
  of_triple user target policy (val o) && live_status (s_status (val o)) && bool_decide (pk o ≠ session).

Definition open_row (t stamp : Z) (s : privileged_session) : privileged_session :=
  s <| s_status := ACTIVE |> <| s_started_at := Some t |> <| s_last_activity_at := Some t |>
    <| s_stamps ::= touch stamp |>.

Definition consume_session_ticket (session_id : id) (token : string) (user : id)
    (source_ip : option string) : M (obj privileged_session) :=
  atomic (
    found ← asks (λ d, ticket_for d session_id (_token_hash token));
    match found with
    | None => raise (PermissionDenied "Ticket de session invalide.")
    | Some ticket =>
        session ← get_row sessions "PrivilegedSession" (k_session (val ticket));
        target ← get_row targets "Target" (s_target (val session));
        t ← now;
        raise_if (ticket_unusable (val ticket) t)
          (PermissionDenied "Ce ticket de session a expiré ou a déjà été consommé.") ;;
        raise_if (bool_decide (s_user (val session) ≠ user))
          (PermissionDenied "Ce ticket appartient à un autre utilisateur.") ;;
        raise_if (bool_decide (s_status (val session) ≠ CREATED))
          (PermissionDenied "Cette session ne peut plus être ouverte.") ;;
        raise_if (match s_expires_at (val session) with Some e => e <=? t | None => false end)
          (PermissionDenied "L’autorisation de session a expiré.") ;;
        raise_if (source_changed (k_source_ip (val ticket)) source_ip)
          (PermissionDenied "L’adresse d’origine de la session a changé.") ;;
        match s_policy (val session) with
        | None => raise (DoesNotExist "AccessPolicy")
        | Some policy_id =>
            policy ← get_row policies "AccessPolicy" policy_id;
            concurrent ← asks (λ d, count_rows
              (other_live (s_user (val session)) (s_target (val session)) (pk policy) (pk session))
              (sessions d));
            raise_if (p_max_concurrent_sessions (val policy) <=? concurrent)
              (PermissionDenied "Le nombre maximal de sessions simultanées est atteint.") ;;
            stamp ← now;
            save_fields tickets (pk ticket) (λ k,
              k <| k_consumed_at := Some t |> <| k_stamps ::= touch stamp |>) ;;
            stamp2 ← now;
            save_fields sessions (pk session) (open_row t stamp2) ;;
            record_event (Some user) "session.opened" (session_resource (pk session))
              [("protocol", JStr (protocol_str (t_protocol (val target))))] source_ip ;;
            mret (Obj (pk session) (open_row t stamp2 (val session)))
        end
    end).

(** ** Ending *)

Definition close_row (t stamp : Z) (reason : string) (failed : bool) (s : privileged_session)
    : privileged_session :=
  s <| s_status := if failed then FAILED else CLOSED |> <| s_ended_at := Some t |>
    <| s_last_activity_at := Some t |> <| s_termination_reason := slice_to 255 reason |>
    <| s_stamps ::= touch stamp |>.

(** [session] is the primary key of the caller's instance. *)
Definition close_session (session : id) (actor : option id) (reason : string) (failed : bool)
    : M (obj privileged_session) :=
  atomic (
    locked ← get_row sessions "PrivilegedSession" session;
    if ended_status (s_status (val locked)) then mret locked
    else
      t ← now;
      stamp ← now;
      save_fields sessions (pk locked) (close_row t stamp reason failed) ;;
      record_event actor (if failed then "session.failed" else "session.closed")
        (session_resource (pk locked)) [("reason", JStr (slice_to 255 reason))] None ;;
      mret (Obj (pk locked) (close_row t stamp reason failed (val locked)))).

(** What the closing report of the broker writes beside the end of the session, whatever
    its status: [session.save(update_fields=("recording_reference", "updated_at"))]. *)
Definition recorded_row (reference : string) (stamp : Z) (s : privileged_session) : privileged_session :=
  s <| s_recording_reference := reference |> <| s_stamps ::= touch stamp |>.

Definition save_recording_reference (session : id) (reference : string) : M unit :=
  stamp ← now;
  save_fields sessions session (recorded_row reference stamp).

Definition terminate_row (t : Z) (actor : id) (s : privileged_session) : privileged_session :=
  let s := s <| s_termination_requested_at := Some t |> <| s_termination_requested_by := Some actor |> in
  if decide (s_status s = CREATED) then
    s <| s_status := CLOSED |> <| s_ended_at := Some t |>
      <| s_termination_reason := "admin_terminated_before_start" |>
  else
    s <| s_status := TERMINATING |> <| s_termination_reason := "admin_termination_requested" |>.

(** [session] is the caller's instance; its loaded status goes to the audit trail. *)
Definition request_session_termination (session : obj privileged_session) (actor : id)
    : M (obj privileged_session * bool) :=
  atomic (
    locked ← get_row sessions "PrivilegedSession" (pk session);
    if ended_status (s_status (val locked)) then mret (locked, false)
    else
      t ← now;
      let created := bool_decide (s_status (val locked) = CREATED) in
      (if created then
         update_where tickets (λ o, bool_decide (k_session (val o) = pk locked)
             && bool_decide (k_consumed_at (val o) = None) && bool_decide (k_revoked_at (val o) = None))
           (λ k, k <| k_revoked_at := Some t |>)
       else mret tt) ;;
      stamp ← now;
      save_fields sessions (pk locked) (λ s, terminate_row t actor s <| s_stamps ::= touch stamp |>) ;;
      record_event (Some actor) "session.termination_requested" (session_resource (pk locked))
        [("previous_status", JStr (SessionStatus.str (s_status (val session))))] None ;;
      mret (Obj (pk locked) (terminate_row t actor (val locked) <| s_stamps ::= touch stamp |>),
            negb created)).
End sessions.

(** ** What each operation does to the tables *)

Section session_facts.
Context {PF : Platform}.

(** How a successful [issue_session_ticket] got there. *)
Lemma issue_ticket_inv user cred just life ip mfa w session ticket token w' :
  issue_session_ticket user cred just life ip mfa w = (Ok (session, ticket, token), w') →
  ∃ tg j p ar pol w1 sp st st',
    normalize_justification just = Ok j ∧
    targets (w_db w) !! c_target (val cred) = Some tg ∧
    (t_protocol tg = SSH ∨ t_protocol tg = RDP ∧ PAMOLIVE_RDP_ENABLED conf = true) ∧
    (t_protocol tg = SSH → t_host_key_policy tg = STRICT → has_host_key (w_db w) (c_target (val cred)) = true) ∧
    15 <= life <= 120 ∧
    authorizing_policy_for user cred START_SESSION ip mfa w = (Ok (p, ar), w1) ∧
    policies (w_db w) !! pk p = Some pol ∧ later w w1 ∧ later w1 w' ∧
    _active_session_count (w_db w) (pk user) (c_target (val cred)) (pk p) (w_clock w1)
      < p_max_concurrent_sessions pol ∧
    sessions (w_db w) !! pk session = None ∧ tickets (w_db w) !! pk ticket = None ∧
    (∀ o, tickets (w_db w) !! pk o = Some (val o) →
       k_token_hash (val o) ≠ sha256_hex token ∧ k_session (val o) ≠ pk session) ∧
    val session = PrivilegedSession (pk user) (c_target (val cred)) (Some (pk cred)) (Some (pk p))
      (pk <$> ar) CREATED (Some (w_clock w1 + minutes (session_duration pol ar))) None None None
      ip j "" "" None None st ∧
    val ticket = SessionTicket (pk session) (sha256_hex token) (w_clock w1 + seconds life) None None ip st' ∧
    audit_frame (w_db w <| security_policy := sp |> <| sessions ::= <[pk session := val session]> |>
                   <| tickets ::= <[pk ticket := val ticket]> |>) (w_db w').
Proof.
  unfold issue_session_ticket. intros H. run_inv H. destruct a5 as [p ar]. simpl fst in *; simpl snd in *.
  pose proof (authorizing_policy_ok _ _ _ _ _ _ _ _ _ R5) as (Hl & (sp & Hd) & _).
  unfold insert_ticket in R8. run_inv R8.
  pose proof (flows_run _ _ _ _ (record_event_flows _ _ _ _ _) R9) as Hl2.
  apply record_event_frame in R9. simpl in R9, Enew, Enew0. rewrite Hd in R9, Enew, Enew0.
  rewrite exists_row_false in R10. simpl in R10. rewrite Hd in R6, R7, R10.
  rewrite Epk0, Epk in *.
  exists (val a0), a, p, ar, (val a6), w0, sp. do 2 eexists.
  split; [done|]. split; [done|]. split.
  { breflect. destruct (decide (t_protocol (val a0) = SSH)); [by left|right].
    destruct R1 as [?|R1]; breflect; [done|]. split; [done|].
    destruct R2; breflect; [done|]. by destruct (PAMOLIVE_RDP_ENABLED conf). }
  split.
  { intros E1 E2. rewrite E1, E2, !bool_decide_true in R3 by done. cbn [andb] in R3. by apply negb_false_iff. }
  split; [breflect; lia|]. split; [done|]. split; [exact R6|]. split; [done|].
  split; [etrans; [|exact Hl2]; solve_later|].
  split; [by apply Z.leb_gt in R7|]. split; [done|]. split; [done|]. split.
  { intros o Ho. apply R10 in Ho. by breflect. }
  split; [reflexivity|]. split; [reflexivity|]. exact R9.
Qed.

(** How a successful [start_web_session] got there. *)
Lemma web_session_inv user cred just ip mfa w session w' :
  start_web_session user cred just ip mfa w = (Ok session, w') →
  ∃ tg j p ar pol w1 sp st,
    normalize_justification just = Ok j ∧
    targets (w_db w) !! c_target (val cred) = Some tg ∧ t_protocol tg = WEB ∧
    authorizing_policy_for user cred START_SESSION ip mfa w = (Ok (p, ar), w1) ∧
    policies (w_db w) !! pk p = Some pol ∧ later w w1 ∧ later w1 w' ∧
    _active_session_count (w_db w) (pk user) (c_target (val cred)) (pk p) (w_clock w1)
      < p_max_concurrent_sessions pol ∧
    sessions (w_db w) !! pk session = None ∧
    val session = PrivilegedSession (pk user) (c_target (val cred)) (Some (pk cred)) (Some (pk p))
      (pk <$> ar) ACTIVE (Some (w_clock w1 + minutes (session_duration pol ar))) (Some (w_clock w1))
      None (Some (w_clock w1)) ip j "" "" None None st ∧
    audit_frame (w_db w <| security_policy := sp |> <| sessions ::= <[pk session := val session]> |>) (w_db w').
Proof.
  unfold start_web_session. intros H. run_inv H. destruct a2 as [p ar]. simpl fst in *; simpl snd in *.
  pose proof (authorizing_policy_ok _ _ _ _ _ _ _ _ _ R2) as (Hl & (sp & Hd) & _).
  pose proof (flows_run _ _ _ _ (record_event_flows _ _ _ _ _) R5) as Hl2.
  apply record_event_frame in R5. simpl in R5, Enew. rewrite Hd in R3, R4, R5, Enew.
  rewrite Epk0, Epk in *. breflect.
  exists (val a0), a, p, ar, (val a3), w0, sp. eexists.
  split_and!; try done; [by apply dec_stable|]. etrans; [|exact Hl2]. solve_later.
Qed.

Lemma ticket_for_spec d session h o :
  ticket_for d session h = Some o →
  tickets d !! pk o = Some (val o) ∧ k_session (val o) = session ∧ k_token_hash (val o) = h.
Proof. intros [Hin Hh]%find_elem. rewrite elem_of_rows in Hin. by breflect. Qed.

(** How a successful [consume_session_ticket] got there. *)
Lemma consume_ticket_inv sid token user ip w session w' :
  consume_session_ticket sid token user ip w = (Ok session, w') →
  ∃ kt k s p pol stamp stamp2,
    tickets (w_db w) !! kt = Some k ∧ k_session k = sid ∧ k_token_hash k = sha256_hex token ∧
    ticket_unusable k (w_clock w) = false ∧ source_changed (k_source_ip k) ip = false ∧
    sessions (w_db w) !! sid = Some s ∧ s_user s = user ∧ s_status s = CREATED ∧
    (∀ e, s_expires_at s = Some e → w_clock w < e) ∧
    s_policy s = Some p ∧ policies (w_db w) !! p = Some pol ∧
    count_rows (other_live (s_user s) (s_target s) p sid) (sessions (w_db w)) < p_max_concurrent_sessions pol ∧
    session = Obj sid (open_row (w_clock w) stamp s) ∧ later w w' ∧
    audit_frame (w_db w <| tickets ::= <[kt := k <| k_consumed_at := Some (w_clock w) |> <| k_stamps ::= touch stamp2 |>]> |>
                   <| sessions ::= <[sid := val session]> |>) (w_db w').
Proof.
  unfold consume_session_ticket. intros H. run_inv H.
  destruct (ticket_for _ _ _) as [o|] eqn:Eo; [|done].
  apply ticket_for_spec in Eo as (Eo & Es & Eh). run_inv H.
  destruct (s_policy (val a)) as [p|] eqn:Ep; [|done]. run_inv H.
  pose proof (flows_run _ _ _ _ (record_event_flows _ _ _ _ _) R8) as Hl2.
  apply record_event_frame in R8. simpl in Erow, Erow0, R8. rewrite Eo in Erow. injection Erow as <-.
  subst sid. rewrite Epk, Epk1 in *. rewrite R in Erow0. injection Erow0 as <-.
  exists (pk o), (val o), (val a), p, (val a6), (w_clock (advance (advance w))), (w_clock (advance w)).
  split; [done|]. split; [done|]. split; [done|]. split; [done|]. split; [done|]. split; [done|].
  split; [by apply bool_decide_eq_false, dec_stable in R2|].
  split; [by apply bool_decide_eq_false, dec_stable in R3|].
  split; [intros e He; rewrite He in R4; by apply Z.leb_gt in R4|].
  split; [done|]. split; [done|]. split; [by apply Z.leb_gt in R7|]. split; [done|].
  split; [etrans; [|exact Hl2]; solve_later|]. exact R8.
Qed.

(** [close_session] leaves an ended session alone and ends any other. *)
Lemma close_inv sid actor reason failed w r w' :
  close_session sid actor reason failed w = (Ok r, w') →
  ∃ s, sessions (w_db w) !! sid = Some s ∧
    ((ended_status (s_status s) = true ∧ w' = w ∧ r = Obj sid s) ∨
     (ended_status (s_status s) = false ∧ later w w' ∧ ∃ stamp,
        r = Obj sid (close_row (w_clock w) stamp reason failed s) ∧
        audit_frame (w_db w <| sessions ::= <[sid := val r]> |>) (w_db w'))).
Proof.
  unfold close_session. intros H. run_inv H. exists (val a). split; [done|].
  destruct (ended_status (s_status (val a))).
  - prim_inv H. left. by destruct a; simpl in *; subst.
  - run_inv H. rewrite Epk in *.
    pose proof (flows_run _ _ _ _ (record_event_flows _ _ _ _ _) R0) as Hl2.
    apply record_event_frame in R0. simpl in Erow, R0. rewrite R in Erow. injection Erow as <-.
    right. split; [done|]. split; [etrans; [|exact Hl2]; solve_later|]. eexists. split; [done|]. exact R0.
Qed.

Lemma save_reference_inv sid reference w u w' :
  save_recording_reference sid reference w = (Ok u, w') →
  ∃ s, sessions (w_db w) !! sid = Some s ∧ later w w' ∧
    w_db w' = w_db w <| sessions ::= <[sid := recorded_row reference (w_clock w) s]> |>.
Proof.
  unfold save_recording_reference. intros H. run_inv H. simpl in *. eexists. split; [done|].
  split; [solve_later|]. by simplify_eq.
Qed.

Lemma save_reference_raise sid reference w e w' :
  save_recording_reference sid reference w = (Raise e, w') → later w w' ∧ w_db w' = w_db w.
Proof.
  unfold save_recording_reference, save_fields. run. case_match; [done|]. intros [= _ <-].
  split; [solve_later|done].
Qed.

(** The tickets that a termination request revokes. *)
Definition revoke_tickets (sid : id) (t : Z) : gmap id session_ticket → gmap id session_ticket :=
  map_imap (λ k v, Some (if bool_decide (k_session v = sid) && bool_decide (k_consumed_at v = None)
                            && bool_decide (k_revoked_at v = None)
                         then v <| k_revoked_at := Some t |> else v)).

Lemma terminate_inv session actor w r notify w' :
  request_session_termination session actor w = (Ok (r, notify), w') →
  ∃ s, sessions (w_db w) !! pk session = Some s ∧
    ((ended_status (s_status s) = true ∧ w' = w ∧ notify = false ∧ r = Obj (pk session) s) ∨
     (ended_status (s_status s) = false ∧ later w w' ∧ notify = negb (bool_decide (s_status s = CREATED)) ∧
      ∃ stamp, r = Obj (pk session) (terminate_row (w_clock w) actor s <| s_stamps ::= touch stamp |>) ∧
        audit_frame (w_db w <| tickets ::= (if decide (s_status s = CREATED)
                                            then revoke_tickets (pk session) (w_clock w) else λ m, m) |>
                       <| sessions ::= <[pk session := val r]> |>) (w_db w'))).
Proof.
  unfold request_session_termination. intros H. run_inv H. exists (val a). split; [done|].
  destruct (ended_status (s_status (val a))).
  - prim_inv H. left. by destruct a; simpl in *; subst.
  - run_inv H. rewrite Epk in *.
    pose proof (flows_run _ _ _ _ (record_event_flows _ _ _ _ _) R1) as Hl2.
    apply record_event_frame in R1. right. split; [done|].
    destruct (decide (s_status (val a) = CREATED)) as [Ec|Ec].
    + rewrite bool_decide_true in R0 by done. unfold update_where in R0. prim_inv R0.
      simpl in Erow, R1. rewrite R in Erow. injection Erow as <-.
      split; [etrans; [|exact Hl2]; solve_later|]. split; [done|]. eexists. split; [done|]. exact R1.
    + rewrite bool_decide_false in R0 by done. prim_inv R0.
      simpl in Erow, R1. rewrite R in Erow. injection Erow as <-.
      split; [etrans; [|exact Hl2]; solve_later|]. split; [done|]. eexists. split; [done|]. exact R1.
Qed.
End session_facts.

(** ** The life of a session *)

(** Statuses are ordered; the two ends are not interchangeable. *)
Definition phase (s : SessionStatus.t) : Z :=
  match s with CREATED => 0 | ACTIVE => 1 | TERMINATING => 2 | CLOSED | FAILED => 3 end.

Definition progress (a b : SessionStatus.t) : Prop := a = b ∨ phase a < phase b.

(** The dates agree with the status: started exactly when it was ever opened,
    ended exactly when it is over. *)
Definition dated (s : privileged_session) : Prop :=
  (s_status s = CREATED → s_started_at s = None) ∧
  (live_status (s_status s) = true → is_Some (s_started_at s)) ∧
  (is_Some (s_ended_at s) ↔ ended_status (s_status s) = true).

(** The row may only have been given another recording reference and date of change. *)
Definition same_but_reference (s s' : privileged_session) : Prop :=
  ∃ reference stamp, s' = recorded_row reference stamp s ∨ s' = s.

(** What a row may become. *)
Definition row_evolves (s s' : privileged_session) : Prop :=
  progress (s_status s) (s_status s') ∧
  (ended_status (s_status s) = true → same_but_reference s s') ∧
  (s_user s', s_target s', s_credential s', s_policy s', s_access_request s', s_expires_at s',
   s_justification s', s_client_ip s')
  = (s_user s, s_target s, s_credential s, s_policy s, s_access_request s, s_expires_at s,
     s_justification s, s_client_ip s) ∧
  (dated s → dated s').

Definition evolves (d d' : db) : Prop :=
  (∀ k s, sessions d !! k = Some s → ∃ s', sessions d' !! k = Some s' ∧ row_evolves s s') ∧
  (∀ k s', sessions d' !! k = Some s' → sessions d !! k = None → dated s').

#[global] Instance row_evolves_refl : Reflexive row_evolves.
Proof. intros s. split; [by left|]. split_and!; [|done..]. intros _. exists "", 0. by right. Qed.

#[global] Instance row_evolves_trans : Transitive row_evolves.
Proof.
  intros s1 s2 s3 (Hp1 & He1 & Hi1 & Hd1) (Hp2 & He2 & Hi2 & Hd2). split; [|split; [|split]].
  - destruct Hp1 as [->|?]; [done|]. right. destruct Hp2 as [<-|?]; [done|lia].
  - intros E. destruct (He1 E) as (r1 & t1 & H1).
    assert (ended_status (s_status s2) = true) as E2 by (by destruct H1 as [-> | ->]).
    destruct (He2 E2) as (r2 & t2 & [-> | ->]).
    + exists r2, t2. left. by destruct H1 as [-> | ->].
    + by exists r1, t1.
  - by rewrite Hi2.
  - auto.
Qed.

#[global] Instance evolves_refl : Reflexive evolves.
Proof. intros d. split; [intros k s H; by exists s|]. intros k s' H1 H2. congruence. Qed.

#[global] Instance evolves_trans : Transitive evolves.
Proof.
  intros d1 d2 d3 [H1 N1] [H2 N2]. split.
  - intros k s Hs. destruct (H1 _ _ Hs) as (s2 & Hs2 & E1). destruct (H2 _ _ Hs2) as (s3 & Hs3 & E2).
    exists s3. split; [done|]. by etrans.
  - intros k s' Hs' Hnone. destruct (sessions d2 !! k) as [s2|] eqn:Es2; [|by eapply N2].
    destruct (H2 _ _ Es2) as (s3 & Hs3 & (_ & _ & _ & Hd)). rewrite Hs3 in Hs'. injection Hs' as <-.
    by eapply Hd, N1.
Qed.

Lemma evolves_same d d' : sessions d' = sessions d → evolves d d'.
Proof. intros E. unfold evolves. rewrite E. apply evolves_refl. Qed.

Lemma evolves_fresh d d' k s :
  sessions d !! k = None → sessions d' = <[k := s]> (sessions d) → dated s → evolves d d'.
Proof.
  intros Hk E Hd. split.
  - intros k' s' Hs'. exists s'. rewrite E, lookup_insert_ne by congruence. done.
  - intros k' s'. rewrite E, lookup_insert_Some. intros [[<- <-]|[? ?]]; congruence.
Qed.

Lemma evolves_update d d' k s s' :
  sessions d !! k = Some s → sessions d' = <[k := s']> (sessions d) → row_evolves s s' → evolves d d'.
Proof.
  intros Hk E Hr. split.
  - intros k1 s1 Hs1. rewrite E. destruct (decide (k1 = k)) as [->|].
    + rewrite Hk in Hs1. injection Hs1 as <-. exists s'. by rewrite lookup_insert_eq.
    + exists s1. by rewrite lookup_insert_ne.
  - intros k1 s1. rewrite E, lookup_insert_Some. intros [[<- <-]|[? ?]]; congruence.
Qed.

(** Each change of a row is an evolution. *)
Lemma open_row_evolves t stamp s : s_status s = CREATED → row_evolves s (open_row t stamp s).
Proof.
  intros E. split; [right; by rewrite E|]. split; [by rewrite E|]. split; [done|].
  unfold dated, live_status, ended_status. rewrite E. simpl. naive_solver.
Qed.

Lemma close_row_evolves t stamp reason failed s :
  ended_status (s_status s) = false → row_evolves s (close_row t stamp reason failed s).
Proof.
  intros E. split; [right; destruct (s_status s), failed; done|].
  split; [congruence|]. split; [done|]. intros (H1 & H2 & H3).
  unfold dated. simpl. destruct failed; simpl; naive_solver.
Qed.

Lemma recorded_row_evolves reference stamp s : row_evolves s (recorded_row reference stamp s).
Proof. split; [by left|]. split_and!; [|done..]. intros _. exists reference, stamp. by left. Qed.

Lemma terminate_row_evolves t actor stamp s :
  ended_status (s_status s) = false →
  row_evolves s (terminate_row t actor s <| s_stamps ::= touch stamp |>).
Proof.
  intros E. unfold terminate_row. cbn [s_status]. simpl decide.
  destruct (decide (s_status s = CREATED)) as [Ec|Ec].
  - split; [right; by rewrite Ec|]. split; [by rewrite E|]. split; [done|].
    unfold dated. simpl. naive_solver.
  - assert (s_status s = ACTIVE ∨ s_status s = TERMINATING) as Hs by (destruct (s_status s); naive_solver).
    split; [destruct Hs as [->| ->]; [by right|by left]|]. split; [by rewrite E|]. split; [done|].
    unfold dated. simpl. intros (H1 & H2 & H3). rewrite E in H3.
    split_and!; [done| |done]. intros _. apply H2. by destruct Hs as [->| ->].
Qed.

Section session_theorems.
Context {PF : Platform}.

(** Any operation on sessions, by anyone, with any outcome, and anything the other
    components do in between: they write neither sessions, tickets nor policies.  (The
    closing report of the broker is two of these steps, with its events.) *)
Inductive session_step : world → world → Prop :=
  | step_ticket user cred just life ip mfa w :
      session_step w (issue_session_ticket user cred just life ip mfa w).2
  | step_web user cred just ip mfa w : session_step w (start_web_session user cred just ip mfa w).2
  | step_open sid token user ip w : session_step w (consume_session_ticket sid token user ip w).2
  | step_close sid actor reason failed w : session_step w (close_session sid actor reason failed w).2
  | step_terminate session actor w : session_step w (request_session_termination session actor w).2
  | step_recording sid reference w : session_step w (save_recording_reference sid reference w).2
  | step_elsewhere w w' :
      later w w' → sessions (w_db w') = sessions (w_db w) → tickets (w_db w') = tickets (w_db w) →
      policies (w_db w') = policies (w_db w) → session_step w w'.

(** A relation that holds when nothing is written, and over each successful
    operation, holds over every step. *)
Lemma session_step_cases (R : world → world → Prop) :
  (∀ w w', later w w' → sessions (w_db w') = sessions (w_db w) → tickets (w_db w') = tickets (w_db w) →
     policies (w_db w') = policies (w_db w) → R w w') →
  (∀ user cred just life ip mfa w s k token w',
     issue_session_ticket user cred just life ip mfa w = (Ok (s, k, token), w') → R w w') →
  (∀ user cred just ip mfa w s w', start_web_session user cred just ip mfa w = (Ok s, w') → R w w') →
  (∀ sid token user ip w s w', consume_session_ticket sid token user ip w = (Ok s, w') → R w w') →
  (∀ sid actor reason failed w s w', close_session sid actor reason failed w = (Ok s, w') → R w w') →
  (∀ session actor w s n w', request_session_termination session actor w = (Ok (s, n), w') → R w w') →
  (∀ sid reference w u w', save_recording_reference sid reference w = (Ok u, w') → R w w') →
  ∀ w w', session_step w w' → R w w'.
Proof.
  intros H0 H1 H2 H3 H4 H5 H6 w w'.
  assert (∀ A (m : M A), flows m → ∀ e w1, atomic m w = (Raise e, w1) → R w w1) as Hraise.
  { intros A m Hm e w1 E. pose proof (atomic_raise_db _ _ _ _ E) as Hd.
    pose proof (flows_run _ _ _ _ (flows_atomic _ Hm) E). apply H0; [done|by rewrite Hd..]. }
  assert (∀ user cred action ip mfa, flows (authorizing_policy_for user cred action ip mfa)) as Hauth.
  { intros. unfold authorizing_policy_for, get_security_policy, save_security_policy. solve_flows. }
  destruct 1 as [user cred just life ip mfa w|user cred just ip mfa w|sid token user ip w
                |sid actor reason failed w|session actor w|sid reference w|w w' ???]; [..|by apply H0].
  - destruct (issue_session_ticket _ _ _ _ _ _ w) as [[[[? ?] ?]|e] w1] eqn:E; [by eapply H1|].
    eapply Hraise, E. unfold insert_ticket, new_stamps, token_urlsafe. solve_flows.
  - destruct (start_web_session _ _ _ _ _ w) as [[?|e] w1] eqn:E; [by eapply H2|].
    eapply Hraise, E. unfold new_stamps. solve_flows.
  - destruct (consume_session_ticket _ _ _ _ w) as [[?|e] w1] eqn:E; [by eapply H3|].
    eapply Hraise, E. solve_flows.
  - destruct (close_session _ _ _ _ w) as [[?|e] w1] eqn:E; [by eapply H4|].
    eapply Hraise, E. solve_flows.
  - destruct (request_session_termination _ _ w) as [[[? ?]|e] w1] eqn:E; [by eapply H5|].
    eapply Hraise, E. solve_flows.
  - destruct (save_recording_reference _ _ w) as [[?|e] w1] eqn:E; [by eapply H6|].
    apply save_reference_raise in E as [? Hd]. apply H0; simpl; [done|by rewrite Hd..].
Qed.

Lemma session_step_evolves w w' : session_step w w' → evolves (w_db w) (w_db w').
Proof.
  revert w w'. apply session_step_cases.
  - intros. by apply evolves_same.
  - intros user cred just life ip mfa w s k token w'
      (tg & j & p & ar & pol & w1 & sp & st & st' & H)%issue_ticket_inv.
    destruct H as (_&_&_&_&_&_&_&_&_&_&Hnew&_&_&Hs&_&(?&?&?&->)).
    eapply evolves_fresh; [exact Hnew|reflexivity|]. rewrite Hs. unfold dated. simpl.
    by split_and!; [|intros|rewrite is_Some_alt].
  - intros user cred just ip mfa w s w' (tg & j & p & ar & pol & w1 & sp & st & H)%web_session_inv.
    destruct H as (_&_&_&_&_&_&_&_&Hnew&Hs&(?&?&?&->)).
    eapply evolves_fresh; [exact Hnew|reflexivity|]. rewrite Hs. unfold dated. simpl.
    by split_and!; [|intros|rewrite is_Some_alt].
  - intros sid token user ip w s w' (kt & k & s0 & p & pol & stamp & stamp2 & H)%consume_ticket_inv.
    destruct H as (_&_&_&_&_&Hs&_&Hst&_&_&_&_&->&_&(?&?&?&->)).
    eapply evolves_update; [exact Hs|reflexivity|]. by apply open_row_evolves.
  - intros sid actor reason failed w s w' (s0 & Hs & [(_ & -> & _)|(He & _ & stamp & -> & (?&?&?&->))])%close_inv;
      [reflexivity|]. eapply evolves_update; [exact Hs|reflexivity|]. by apply close_row_evolves.
  - intros session actor w s n w' (s0 & Hs & [(_ & -> & _)|(He & _ & _ & stamp & -> & (?&?&?&->))])%terminate_inv;
      [reflexivity|]. eapply evolves_update; [exact Hs|reflexivity|]. by apply terminate_row_evolves.
  - intros sid reference w u w' (s0 & Hs & _ & Hd)%save_reference_inv.
    eapply evolves_update; [exact Hs|by rewrite Hd|]. apply recorded_row_evolves.
Qed.

Lemma session_steps_evolve w w' : rtc session_step w w' → evolves (w_db w) (w_db w').
Proof.
  induction 1 as [|w w1 w' Hs _ IH]; [reflexivity|]. etrans; [by apply session_step_evolves|done].
Qed.

(** For one row after the other, other work may write every other table, the policies
    and the tickets included. *)
Inductive session_change : world → world → Prop :=
  | change_session w w' : session_step w w' → session_change w w'
  | change_elsewhere w w' : sessions (w_db w') = sessions (w_db w) → session_change w w'.

(** C18: Sessions only move forward.  Take any sequence of ticket issues, web sessions,
    openings, closings, termination requests and recording references saved by closing
    reports, successful or not, and of other work that does not write the sessions.
    Every session row stays in the table; its status stays or moves to a later phase
    (created, active, terminating, ended); its owner, target, account, policy,
    approval, justification, address and expiry never change; once closed or failed
    it changes at most by the recording reference of a late report and the date of
    that change; and start and end dates stay consistent with the status. *)
Theorem session_lifecycle w w' k s :
  rtc session_change w w' → sessions (w_db w) !! k = Some s →
  ∃ s', sessions (w_db w') !! k = Some s' ∧
    (s_status s' = s_status s ∨ phase (s_status s) < phase (s_status s')) ∧
    (ended_status (s_status s) = true → ∃ reference stamp,
       s' = s <| s_recording_reference := reference |> <| s_stamps ::= touch stamp |> ∨ s' = s) ∧
    (s_user s', s_target s', s_credential s', s_policy s', s_access_request s', s_expires_at s',
     s_justification s', s_client_ip s')
    = (s_user s, s_target s, s_credential s, s_policy s, s_access_request s, s_expires_at s,
       s_justification s, s_client_ip s) ∧
    (dated s → dated s').
Proof.
  intros Hsteps Hs. assert (evolves (w_db w) (w_db w')) as [He _].
  { clear Hs. induction Hsteps as [|w w1 w' [? ? Hs|? ? Hs] _ IH]; [reflexivity|..]; (etrans; [|exact IH]).
    - by apply session_step_evolves.
    - by apply evolves_same. }
  destruct (He _ _ Hs) as (s' & Hs' & Hp & Hend & Hi & Hd).
  exists s'. split_and!; try done. destruct Hp as [->|?]; [by left|by right].
Qed.

(** A session is opened at most once.  After a ticket opened a session, whatever
    happens next, no ticket opens it again: presenting any token for that session
    raises, and leaves the database as it was. *)
Theorem session_opened_once sid token user ip w s w1 w2 token' user' ip' :
  consume_session_ticket sid token user ip w = (Ok s, w1) → rtc session_step w1 w2 →
  ∃ e w', consume_session_ticket sid token' user' ip' w2 = (Raise e, w') ∧ w_db w' = w_db w2.
Proof.
  intros (kt & k & s0 & p & pol & stamp & stamp2 & H)%consume_ticket_inv Hsteps.
  destruct H as (_&_&_&_&_&Hs&_&Hst&_&_&_&_&->&_&(?&?&?&Hd)).
  destruct (proj1 (session_steps_evolve _ _ Hsteps) sid (open_row (w_clock w) stamp s0)) as (s' & Hs' & Hp & _).
  { rewrite Hd. apply lookup_insert_eq. }
  destruct (consume_session_ticket sid token' user' ip' w2) as [[s2|e] w'] eqn:E.
  - apply consume_ticket_inv in E as (?&?&s3&?&?&?&?&?&?&?&?&?&Hs3&_&Hcreated&_).
    rewrite Hs' in Hs3. injection Hs3 as ->. rewrite Hcreated in Hp. by destruct Hp.
  - exists e, w'. split; [done|]. by eapply atomic_raise_db.
Qed.
End session_theorems.

(** ** Capacity *)

Section capacity.
Context {PF : Platform}.

(** For every user, target and policy, the open sessions and the pending tickets
    fit within the policy's limit. *)
Definition within_quota (d : db) (t : Z) : Prop :=
  ∀ user target p pol, policies d !! p = Some pol →
    _active_session_count d user target p t <= p_max_concurrent_sessions pol.

Lemma ticket_pending_mono k t t' : t <= t' → ticket_pending k t' = true → ticket_pending k t = true.
Proof. unfold ticket_pending. intros Ht H. breflect. rewrite !andb_true_iff, !bool_decide_eq_true, Z.ltb_lt. auto with lia. Qed.

(** When a row counts. *)
Lemma counted_spec d user target p t k s :
  counted d user target p t (Obj k s) = true ↔
  of_triple user target p s = true ∧
  (live_status (s_status s) = true ∨
   s_status s = CREATED ∧ ∃ o, tickets d !! pk o = Some (val o) ∧ k_session (val o) = k ∧
     ticket_pending (val o) t = true).
Proof.
  unfold counted. simpl. rewrite andb_true_iff, orb_true_iff, andb_true_iff, exists_row_true, bool_decide_eq_true.
  apply and_iff_compat_l, or_iff_compat_l, and_iff_compat_l.
  split; intros (o & Ho & H); exists o; rewrite andb_true_iff, bool_decide_eq_true in *; tauto.
Qed.

(** What counts later counted before, except possibly the key [new]. *)
Definition counts_less (d d' : db) (t t' : Z) (new : id → Prop) : Prop :=
  ∀ user target p k s', sessions d' !! k = Some s' → counted d' user target p t' (Obj k s') = true →
    ¬ new k → ∃ s, sessions d !! k = Some s ∧ counted d user target p t (Obj k s) = true.

Lemma within_quota_less d d' t t' :
  policies d' = policies d → counts_less d d' t t' (λ _, False) → within_quota d t → within_quota d' t'.
Proof.
  intros Hp Hle Hq user target p pol Hpol. rewrite Hp in Hpol. etrans; [|by apply Hq].
  apply count_rows_le_keys. intros k s Hs Hc. eapply Hle; [exact Hs|exact Hc|tauto].
Qed.

(** A new session fits when there was room for it. *)
Lemma within_quota_new d d' t t' k s p pol :
  policies d' = policies d → sessions d !! k = None → sessions d' = <[k := s]> (sessions d) →
  s_policy s = Some p → policies d !! p = Some pol →
  _active_session_count d (s_user s) (s_target s) p t < p_max_concurrent_sessions pol →
  counts_less d d' t t' (λ x, x = k) → within_quota d t → within_quota d' t'.
Proof.
  intros Hpol Hk Hs Hsp Hp Hroom Hle Hq user target p' pol' Hp'. rewrite Hpol in Hp'.
  unfold _active_session_count. rewrite Hs, count_rows_insert by done.
  assert (count_rows (counted d' user target p' t') (sessions d)
          <= _active_session_count d user target p' t) as Hold.
  { apply count_rows_le_keys. intros k1 s1 Hs1 Hc. assert (k1 ≠ k) by congruence.
    eapply Hle; [|exact Hc|done]. by rewrite Hs, lookup_insert_ne. }
  pose proof (Hq user target p' pol' Hp').
  destruct (counted d' user target p' t' (Obj k s)) eqn:Ec; [|lia].
  apply counted_spec in Ec as [Ht _]. unfold of_triple in Ht. breflect. subst.
  rewrite Hsp in *. simplify_eq. lia.
Qed.

Lemma counts_less_later d t t' : t <= t' → counts_less d d t t' (λ _, False).
Proof.
  intros Ht user target p k s Hs Hc _. exists s. split; [done|]. rewrite counted_spec in *.
  destruct Hc as [Htr [Hl|(Hcr & o & Ho & Hk & Hpend)]]; split; auto. right. split; [done|].
  exists o. split_and!; try done. by eapply ticket_pending_mono.
Qed.

(** The rows of other sessions do not notice a change of one session and its tickets. *)
Lemma counts_less_local d d' t t' k (new : id → Prop) :
  t <= t' → (∀ x, x ≠ k → sessions d' !! x = sessions d !! x) →
  (∀ o, tickets d' !! pk o = Some (val o) → k_session (val o) ≠ k → tickets d !! pk o = Some (val o)) →
  (∀ user target p s', sessions d' !! k = Some s' → counted d' user target p t' (Obj k s') = true →
     ¬ new k → ∃ s, sessions d !! k = Some s ∧ counted d user target p t (Obj k s) = true) →
  counts_less d d' t t' new.
Proof.
  intros Ht Hs Hk Hself user target p x s' Hx Hc Hnew. destruct (decide (x = k)) as [->|Hne]; [by eapply Hself|].
  rewrite Hs in Hx by done. exists s'. split; [done|]. rewrite counted_spec in *.
  destruct Hc as [Htr [Hl|(Hcr & o & Ho & Hko & Hpend)]]; split; auto. right. split; [done|].
  exists o. split_and!; [apply Hk; [done|congruence]|done|]. by eapply ticket_pending_mono.
Qed.

Lemma time_step w w' : later w w' → time_flows w → w_clock w <= w_clock w' ∧ time_flows w'.
Proof. auto. Qed.

Definition quota_invariant (w : world) : Prop :=
  time_flows w ∧ within_quota (w_db w) (w_clock w).

(** At a later instant the same tables hold less. *)
Lemma quota_wait w t : quota_invariant w → w_clock w <= t → within_quota (w_db w) t.
Proof. intros [_ Hq] Ht. eapply within_quota_less; [done|by apply counts_less_later|done]. Qed.

Lemma issue_keeps_quota user cred just life ip mfa w s k token w' :
  issue_session_ticket user cred just life ip mfa w = (Ok (s, k, token), w') →
  quota_invariant w → quota_invariant w'.
Proof.
  intros (tg & j & p & ar & pol & w1 & sp & st & st' & H)%issue_ticket_inv Hinv.
  destruct H as (_&_&_&_&_&_&Hpol&Hl1&Hl2&Hroom&Hnew&Hnewk&_&Hs&Hk&(?&?&?&Hd)).
  destruct (Hl1 (proj1 Hinv)) as [Ht1 Hf1]. destruct (Hl2 Hf1) as [Ht2 Hf2]. split; [done|].
  eapply (within_quota_new (w_db w) _ (w_clock w1) (w_clock w') (pk s) (val s) (pk p) pol);
    [by rewrite Hd|done|by rewrite Hd|by rewrite Hs|done|by rewrite Hs| |by apply quota_wait].
  eapply counts_less_local with (k := pk s); [done|..].
  - intros y Hy. rewrite Hd. by apply lookup_insert_ne.
  - intros o. rewrite Hd. simpl. rewrite lookup_insert_Some. intros [[_ Hv]|[_ ?]] Hne; [|done].
    by rewrite <- Hv, Hk in Hne.
  - intros ???????. done.
Qed.

Lemma web_keeps_quota user cred just ip mfa w s w' :
  start_web_session user cred just ip mfa w = (Ok s, w') → quota_invariant w → quota_invariant w'.
Proof.
  intros (tg & j & p & ar & pol & w1 & sp & st & H)%web_session_inv Hinv.
  destruct H as (_&_&_&_&Hpol&Hl1&Hl2&Hroom&Hnew&Hs&(?&?&?&Hd)).
  destruct (Hl1 (proj1 Hinv)) as [Ht1 Hf1]. destruct (Hl2 Hf1) as [Ht2 Hf2]. split; [done|].
  eapply (within_quota_new (w_db w) _ (w_clock w1) (w_clock w') (pk s) (val s) (pk p) pol);
    [by rewrite Hd|done|by rewrite Hd|by rewrite Hs|done|by rewrite Hs| |by apply quota_wait].
  eapply counts_less_local with (k := pk s); [done|..].
  - intros y Hy. rewrite Hd. by apply lookup_insert_ne.
  - intros o. by rewrite Hd.
  - intros ???????. done.
Qed.

Lemma usable_pending k t : ticket_unusable k t = false → ticket_pending k t = true.
Proof.
  unfold ticket_unusable, ticket_pending. intros H. breflect.
  rewrite !andb_true_iff, !bool_decide_eq_true, Z.ltb_lt, !eq_None_not_Some. done.
Qed.

Lemma open_keeps_quota sid token user ip w s w' :
  consume_session_ticket sid token user ip w = (Ok s, w') → quota_invariant w → quota_invariant w'.
Proof.
  intros (kt & k & s0 & p & pol & stamp & stamp2 & H)%consume_ticket_inv Hinv.
  destruct H as (Hkt&Hks&_&Hus&_&Hs&_&Hst&_&_&_&_&->&Hl&(?&?&?&Hd)).
  destruct (Hl (proj1 Hinv)) as [Ht Hf]. split; [done|].
  apply (within_quota_less (w_db w) _ (w_clock w)); [by rewrite Hd| |apply Hinv].
  eapply counts_less_local with (k := sid); [done|..].
  - intros y Hy. rewrite Hd. by apply lookup_insert_ne.
  - intros o. rewrite Hd. simpl. rewrite lookup_insert_Some. intros [[_ Hv]|[_ ?]] Hne; [|done].
    by rewrite <- Hv in Hne.
  - intros u tg p' s'. rewrite Hd. simpl. rewrite lookup_insert_eq. intros [= <-] [Htr _]%counted_spec _.
    exists s0. split; [done|]. apply counted_spec. split; [done|]. right. split; [done|].
    exists (Obj kt k). split_and!; [done..|]. by apply usable_pending.
Qed.

Lemma close_keeps_quota sid actor reason failed w s w' :
  close_session sid actor reason failed w = (Ok s, w') → quota_invariant w → quota_invariant w'.
Proof.
  intros (s0 & Hs & [(_ & -> & _)|(He & Hl & stamp & -> & (?&?&?&Hd))])%close_inv Hinv; [done|].
  destruct (Hl (proj1 Hinv)) as [Ht Hf]. split; [done|].
  apply (within_quota_less (w_db w) _ (w_clock w)); [by rewrite Hd| |apply Hinv].
  eapply counts_less_local with (k := sid); [done|..].
  - intros y Hy. rewrite Hd. by apply lookup_insert_ne.
  - intros o. by rewrite Hd.
  - intros u tg p' s'. rewrite Hd. simpl. rewrite lookup_insert_eq. intros [= <-] [_ Hc]%counted_spec _.
    simpl in Hc. destruct failed; naive_solver.
Qed.

Lemma revoke_tickets_others sid t m (o : obj session_ticket) :
  revoke_tickets sid t m !! pk o = Some (val o) → k_session (val o) ≠ sid → m !! pk o = Some (val o).
Proof.
  unfold revoke_tickets. rewrite map_lookup_imap. destruct (m !! pk o) as [v|]; [|done]. simpl.
  destruct (bool_decide (k_session v = sid)) eqn:E; simpl; [|by intros [= <-]].
  breflect. destruct (_ && _); intros [= <-]; simpl; done.
Qed.

Lemma terminate_keeps_quota session actor w s n w' :
  request_session_termination session actor w = (Ok (s, n), w') → quota_invariant w → quota_invariant w'.
Proof.
  intros (s0 & Hs & [(_ & -> & _)|(He & Hl & _ & stamp & -> & (?&?&?&Hd))])%terminate_inv Hinv; [done|].
  destruct (Hl (proj1 Hinv)) as [Ht Hf]. split; [done|].
  apply (within_quota_less (w_db w) _ (w_clock w)); [by rewrite Hd| |apply Hinv].
  eapply counts_less_local with (k := pk session); [done|..].
  - intros y Hy. rewrite Hd. by apply lookup_insert_ne.
  - intros o. rewrite Hd. simpl. case_decide; [apply revoke_tickets_others|done].
  - intros u tg p' s'. rewrite Hd. simpl. rewrite lookup_insert_eq. intros [= <-] [Htr Hc]%counted_spec _.
    exists s0. split; [done|]. apply counted_spec. unfold terminate_row in Htr, Hc. simpl in Htr, Hc.
    destruct (decide (s_status s0 = CREATED)); simpl in Htr, Hc; [naive_solver|].
    split; [done|]. left. destruct (s_status s0); naive_solver.
Qed.

Lemma recording_keeps_quota sid reference w u w' :
  save_recording_reference sid reference w = (Ok u, w') → quota_invariant w → quota_invariant w'.
Proof.
  intros (s0 & Hs & Hl & Hd)%save_reference_inv Hinv.
  destruct (Hl (proj1 Hinv)) as [Ht Hf]. split; [done|].
  apply (within_quota_less (w_db w) _ (w_clock w)); [by rewrite Hd| |apply Hinv].
  eapply counts_less_local with (k := sid); [done|..].
  - intros y Hy. rewrite Hd. by apply lookup_insert_ne.
  - intros o. by rewrite Hd.
  - intros us tg p' s'. rewrite Hd. simpl. rewrite lookup_insert_eq. intros [= <-] Hc _.
    exists s0. split; [done|]. rewrite counted_spec in *. destruct Hc as [Htr Hc]. split; [done|].
    destruct Hc as [Hc|(Hc & o & Ho & Hk & Hp)]; [by left|right]. split; [done|].
    exists o. split_and!; [done..|]. by eapply ticket_pending_mono.
Qed.

Lemma session_step_quota w w' : session_step w w' → quota_invariant w → quota_invariant w'.
Proof.
  revert w w'. apply (session_step_cases (λ w w', quota_invariant w → quota_invariant w')).
  - intros w w' Hl Hs Hk Hp Hinv. destruct (Hl (proj1 Hinv)) as [Ht Hf]. split; [done|].
    apply (within_quota_less (w_db w) _ (w_clock w)); [done| |apply Hinv].
    intros u tg p k s'. rewrite Hs. intros Hs' Hc Hn.
    apply (counts_less_later (w_db w) (w_clock w) (w_clock w') Ht u tg p k s' Hs'); [|done].
    unfold counted in *. by rewrite Hk in Hc.
  - apply issue_keeps_quota.
  - apply web_keeps_quota.
  - apply open_keeps_quota.
  - apply close_keeps_quota.
  - apply terminate_keeps_quota.
  - apply recording_keeps_quota.
Qed.

(** C5: Concurrent sessions stay within the policy's limit.  If at some point, for
    every user, target and policy, the open sessions plus the outstanding tickets
    are at most [max_concurrent_sessions], they are so after any sequence of
    ticket issues, web sessions, openings, closings, termination requests and late
    reports, successful or refused, with any other work (that leaves policies alone) and
    any delays in between. *)
Theorem session_quota_invariant w w' :
  time_flows w → within_quota (w_db w) (w_clock w) → rtc session_step w w' →
  within_quota (w_db w') (w_clock w').
Proof.
  intros Hf Hq Hsteps. enough (quota_invariant w') as [_ ?] by done.
  assert (quota_invariant w) as Hinv by done. clear Hf Hq. revert Hinv.
  induction Hsteps as [|w w1 w' Hs _ IH]; [done|]. intros Hinv. by apply IH, (session_step_quota w).
Qed.

(** The session that holds a usable ticket is itself counted. *)
Lemma other_live_room d t sid s kt k p pol :
  within_quota d t → sessions d !! sid = Some s → s_status s = CREATED → s_policy s = Some p →
  policies d !! p = Some pol → tickets d !! kt = Some k → k_session k = sid →
  ticket_unusable k t = false →
  count_rows (other_live (s_user s) (s_target s) p sid) (sessions d) < p_max_concurrent_sessions pol.
Proof.
  intros Hq Hs Hst Hp Hpol Hk Hks Hus. specialize (Hq (s_user s) (s_target s) _ _ Hpol).
  unfold _active_session_count in Hq. rewrite (count_rows_delete _ _ _ _ Hs). rewrite (count_rows_delete _ _ _ _ Hs) in Hq.
  assert (counted d (s_user s) (s_target s) p t (Obj sid s) = true) as Hc.
  { apply counted_spec. split; [unfold of_triple; by rewrite Hp, !bool_decide_true|].
    right. split; [done|]. exists (Obj kt k). split_and!; [done..|]. by apply usable_pending. }
  rewrite Hc in Hq. replace (other_live (s_user s) (s_target s) p sid (Obj sid s)) with false.
  2:{ unfold other_live. simpl. rewrite (bool_decide_false (sid ≠ sid)) by tauto. by rewrite andb_false_r. }
  pose proof (count_rows_mono (other_live (s_user s) (s_target s) p sid)
    (counted d (s_user s) (s_target s) p t) (delete sid (sessions d))) as Hmono.
  enough (∀ o, delete sid (sessions d) !! pk o = Some (val o) →
    other_live (s_user s) (s_target s) p sid o = true → counted d (s_user s) (s_target s) p t o = true) as H
    by (specialize (Hmono H); lia).
  intros [x sx] _ Ho. unfold other_live in Ho. breflect. apply counted_spec. auto.
Qed.

(** A ticket is a reservation.  While the limit is respected, a usable ticket
    presented by its user, from its address, for a session that is neither started
    nor expired, opens the session: capacity is never the reason for a refusal, and
    the only way to fail is that the audit trail cannot be written. *)
Theorem ticket_is_a_reservation sid token user ip w kt k s tg p pol :
  within_quota (w_db w) (w_clock w) →
  ticket_for (w_db w) sid (sha256_hex token) = Some (Obj kt k) →
  sessions (w_db w) !! sid = Some s → targets (w_db w) !! s_target s = Some tg →
  ticket_unusable k (w_clock w) = false → source_changed (k_source_ip k) ip = false →
  s_user s = user → s_status s = CREATED → (∀ e, s_expires_at s = Some e → w_clock w < e) →
  s_policy s = Some p → policies (w_db w) !! p = Some pol →
  ∃ wr s', (consume_session_ticket sid token user ip w).1
    = match (record_event (Some user) "session.opened" (session_resource sid)
               [("protocol", JStr (protocol_str (t_protocol tg)))] ip wr).1 with
      | Ok _ => Ok (Obj sid s')
      | Raise e => Raise e
      end ∧ s_status s' = ACTIVE ∧ s_started_at s' = Some (w_clock w).
Proof.
  intros Hq Hk Hs Htg Hus Hip Hu Hst Hexp Hp Hpol.
  pose proof (ticket_for_spec _ _ _ _ Hk) as (Hkt & Hks & _). simpl in Hkt, Hks.
  pose proof (other_live_room _ _ _ _ _ _ _ _ Hq Hs Hst Hp Hpol Hkt Hks Hus) as Hroom.
  unfold consume_session_ticket, atomic. run. unfold _token_hash. rewrite Hk. cbn [val pk].
  rewrite Hks, (run_get _ _ _ _ _ _ Hs). cbn [val pk]. rewrite (run_get _ _ _ _ _ _ Htg). run. cbn [val pk].
  rewrite run_raise_if_false by done.
  rewrite run_raise_if_false by (by apply bool_decide_eq_false; rewrite Hu; tauto).
  rewrite run_raise_if_false by (by apply bool_decide_eq_false; rewrite Hst; tauto).
  rewrite run_raise_if_false.
  2:{ destruct (s_expires_at s) as [e|]; [|done]. apply Z.leb_gt. auto. }
  rewrite run_raise_if_false by done. rewrite Hp, (run_get policies _ _ pol) by exact Hpol. run. cbn [val pk].
  rewrite run_raise_if_false by (apply Z.leb_gt; exact Hroom). run.
  rewrite (run_save tickets kt k) by exact Hkt. run. rewrite (run_save sessions sid s) by exact Hs.
  eexists _, (open_row (w_clock w) _ s). split; [|split; reflexivity].
  unfold mbind at 1, M_bind at 1. by match goal with |- context [record_event ?a ?b ?c ?d ?e ?w] =>
    destruct (record_event a b c d e w) as [[?|?] ?] eqn:E end; rewrite ?E.
Qed.

(** Brokered sessions are only prepared under authority.  When
    [issue_session_ticket] succeeds, the target speaks SSH, or RDP where RDP is
    enabled, and under the strict policy has a trusted host key; some policy granted
    [start_session] to the user from that address while the call ran, covers the
    account, and has its approval and MFA conditions met.  One session is stored,
    to expire within the policy's maximum duration and, if it rests on an approved
    request, within the approved one; one ticket is stored, for that session and
    address, valid 15 to 120 seconds under the hash of the returned token. *)
Theorem session_is_authorised user cred just life ip mfa w session ticket token w' :
  issue_session_ticket user cred just life ip mfa w = (Ok (session, ticket, token), w') →
  ∃ tg p ar pol,
    targets (w_db w) !! c_target (val cred) = Some tg ∧
    (t_protocol tg = SSH ∨ t_protocol tg = RDP ∧ PAMOLIVE_RDP_ENABLED conf = true) ∧
    (t_protocol tg = SSH → t_host_key_policy tg = STRICT → has_host_key (w_db w) (c_target (val cred)) = true) ∧
    (∃ t, instant w w' None t ∧ grants (w_db w) (pk user) p START_SESSION t ip) ∧
    covers (w_db w) (val p) cred ∧
    conditions_met (w_db w) (pk user) cred mfa
      (default default_security_policy (security_policy (w_db w))) p ar w w' ∧
    policies (w_db w) !! pk p = Some pol ∧
    sessions (w_db w) !! pk session = None ∧
    sessions (w_db w') = <[pk session := val session]> (sessions (w_db w)) ∧
    tickets (w_db w') = <[pk ticket := val ticket]> (tickets (w_db w)) ∧
    s_user (val session) = pk user ∧ s_status (val session) = CREATED ∧
    s_policy (val session) = Some (pk p) ∧ s_credential (val session) = Some (pk cred) ∧
    (∃ e, s_expires_at (val session) = Some e ∧
       (time_flows w → e <= w_clock w' + minutes (p_max_duration_minutes pol) ∧
          ∀ r, ar = Some r → e <= w_clock w' + minutes (ar_requested_duration_minutes (val r)))) ∧
    k_session (val ticket) = pk session ∧ k_token_hash (val ticket) = sha256_hex token ∧
    k_source_ip (val ticket) = ip ∧
    (time_flows w → w_clock w + seconds 15 <= k_expires_at (val ticket) <= w_clock w' + seconds 120).
Proof.
  intros (tg & j & p & ar & pol & w1 & sp & st & st' & H)%issue_ticket_inv.
  destruct H as (_&Htg&Hproto&Hstrict&Hlife&Hauth&Hpol&Hl1&Hl2&_&Hnew&_&_&Hs&Hk&(?&?&?&Hd)).
  apply authorizing_policy_ok in Hauth as (_ & _ & (t & Ht & Hg) & Hcov & Hcond).
  exists tg, p, ar, pol. split; [done|]. split; [done|]. split; [done|].
  split; [exists t; split; [|done]; by eapply instant_weaken; [reflexivity|exact Hl2|exact Hl1|]|].
  split; [done|]. split; [by eapply conditions_met_weaken; [reflexivity|exact Hl1|exact Hl2|]|].
  split; [done|]. split; [done|]. rewrite Hd, Hs, Hk. simpl. split_and!; try done.
  - eexists. split; [done|]. intros Hf. destruct (Hl1 Hf) as [? Hf1]. destruct (Hl2 Hf1) as [? _].
    unfold session_duration, minutes, minute, second. split; [destruct ar; lia|]. intros r ->. lia.
  - intros Hf. destruct (Hl1 Hf) as [? Hf1]. destruct (Hl2 Hf1) as [? _]. unfold seconds, second. lia.
Qed.
End capacity.

(** ** Concrete runs *)

Section witnesses.
#[local] Existing Instance demo_platform.

Definition demo_issue_ticket : M (obj privileged_session * obj session_ticket * string) :=
  issue_session_ticket demo_alice demo_cred "planned maintenance" 60 (Some "192.0.2.9") None.

Definition demo_ticketed : world := Eval vm_compute in (demo_issue_ticket (demo_world demo_policy_db)).2.

Definition demo_session : obj privileged_session := Eval vm_compute in
  match demo_issue_ticket (demo_world demo_policy_db) with
  | (Ok (s, _, _), _) => s
  | _ => Obj 0%N (PrivilegedSession 0 0 None None None FAILED None None None None None "" "" "" None None (Stamps 0 0))
  end.

Definition demo_ticket : obj session_ticket := Eval vm_compute in
  match demo_issue_ticket (demo_world demo_policy_db) with
  | (Ok (_, k, _), _) => k
  | _ => Obj 0%N (SessionTicket 0 "" 0 None None None (Stamps 0 0))
  end.

Definition demo_open : M (obj privileged_session) :=
  consume_session_ticket (pk demo_session) "token-1" 7 (Some "192.0.2.9").

Definition demo_opened : world := Eval vm_compute in (demo_open demo_ticketed).2.

Definition demo_live : obj privileged_session :=
  Obj (pk demo_session) (open_row demo_now demo_now (val demo_session)).

(** The limit of one session is reached: a second ticket is refused. *)
Example second_ticket_refused :
  (demo_issue_ticket demo_ticketed).1
  = Raise (PermissionDenied "Le nombre maximal de sessions simultanées est atteint.").
Proof. vm_compute. reflexivity. Qed.

Lemma session_is_authorised_witness :
  ∃ tg p pol, targets demo_policy_db !! 20%N = Some tg ∧ covers demo_policy_db (val p) demo_cred ∧
    policies demo_policy_db !! pk p = Some pol.
Proof.
  destruct (session_is_authorised demo_alice demo_cred "planned maintenance" 60 (Some "192.0.2.9") None
    (demo_world demo_policy_db) demo_session demo_ticket "token-1" demo_ticketed)
    as (tg & p & ar & pol & H1 & _ & _ & _ & H2 & H3 & H4 & _).
  - vm_compute. reflexivity.
  - exists tg, p, pol. split; [exact H1|]. split; [exact H2|exact H4].
Defined.

Lemma session_lifecycle_witness :
  ∃ s', sessions (w_db demo_opened) !! pk demo_session = Some s' ∧ s_user s' = 7%N.
Proof.
  destruct (session_lifecycle demo_ticketed demo_opened (pk demo_session) (val demo_session))
    as (s' & Hs' & _ & _ & Hid & _).
  - eapply rtc_l; [|apply rtc_refl]. apply change_session.
    assert (demo_opened = (demo_open demo_ticketed).2) as -> by (vm_compute; reflexivity).
    apply step_open.
  - vm_compute. reflexivity.
  - exists s'. split; [exact Hs'|]. injection Hid as -> _. reflexivity.
Defined.

Lemma session_opened_once_witness :
  ∃ e w', consume_session_ticket (pk demo_session) "token-1" 7 None demo_opened = (Raise e, w') ∧
          w_db w' = w_db demo_opened.
Proof.
  apply (session_opened_once (pk demo_session) "token-1" 7 (Some "192.0.2.9") demo_ticketed demo_live demo_opened).
  - vm_compute. reflexivity.
  - apply rtc_refl.
Defined.

Lemma demo_empty_quota : within_quota demo_policy_db demo_now.
Proof.
  intros user target p pol Hp.
  assert (policies demo_policy_db = {[40%N := demo_policy]}) as E by reflexivity.
  rewrite E in Hp. apply lookup_singleton_Some in Hp as [_ <-]. vm_compute. discriminate.
Qed.

Lemma session_quota_invariant_witness : within_quota (w_db demo_ticketed) (w_clock demo_ticketed).
Proof.
  apply (session_quota_invariant (demo_world demo_policy_db)).
  - constructor.
  - exact demo_empty_quota.
  - eapply rtc_l; [|apply rtc_refl].
    assert (demo_ticketed = (demo_issue_ticket (demo_world demo_policy_db)).2) as -> by (vm_compute; reflexivity).
    apply step_ticket.
Defined.

Lemma demo_ticketed_quota : within_quota (w_db demo_ticketed) (w_clock demo_ticketed).
Proof.
  eapply (issue_keeps_quota demo_alice demo_cred "planned maintenance" 60 (Some "192.0.2.9") None
    (demo_world demo_policy_db) demo_session demo_ticket "token-1" demo_ticketed).
  - vm_compute. reflexivity.
  - split; [constructor|exact demo_empty_quota].
Qed.

Lemma ticket_is_a_reservation_witness :
  ∃ wr s', (consume_session_ticket (pk demo_session) "token-1" 7 (Some "192.0.2.9") demo_ticketed).1
    = match (record_event (Some 7%N) "session.opened" (session_resource (pk demo_session))
               [("protocol", JStr (protocol_str (t_protocol demo_target)))] (Some "192.0.2.9") wr).1 with
      | Ok _ => Ok (Obj (pk demo_session) s')
      | Raise e => Raise e
      end ∧ s_status s' = ACTIVE ∧ s_started_at s' = Some (w_clock demo_ticketed).
Proof.
  apply (ticket_is_a_reservation (pk demo_session) "token-1" 7 (Some "192.0.2.9") demo_ticketed
    (pk demo_ticket) (val demo_ticket) (val demo_session) demo_target 40%N demo_policy).
  - exact demo_ticketed_quota.
  - vm_compute. reflexivity.
  - vm_compute. reflexivity.
  - vm_compute. reflexivity.
  - vm_compute. reflexivity.
  - vm_compute. reflexivity.
  - reflexivity.
  - reflexivity.
  - intros e [= <-]. vm_compute. reflexivity.
  - reflexivity.
  - vm_compute. reflexivity.
Defined.
End witnesses.
