(* ===== verification/Broker.v ===== *)
(** * The session broker ([pamolive/gateway], [pamolive/sessions/control.py])

    The gateway process: signed service-to-service requests, credential envelopes, the
    control endpoint that cancels a session, and the terminal input loop with its
    command filter.  Fernet encryption and the regular-expression engine are
    parameters; the network transport is not modelled. *)

From S2P Require Import Prelude PyStr PyFloat Json Loads Crypto PyTime Models World Text Ip Policies.

Local Open Scope Z_scope.

(** ** Signatures ([gateway/crypto.py]) *)

Definition newline : Z := 10.

(** [b"\n".join(parts)] *)
Fixpoint join_lines (parts : list bytes) : bytes :=
  match parts with
  | [] => []
  | [p] => p
  | p :: ps => p ++ newline :: join_lines ps
  end.

(** The signed text; [body] is the raw request body. *)
Definition signed_text (timestamp body method path request_id : string) : bytes :=
  if decide (request_id = "") then utf8 timestamp ++ [46] ++ bytes_of body
  else join_lines [utf8 "v2"; utf8 timestamp; utf8 request_id; utf8 (upper method); utf8 path; bytes_of body].

Definition request_signature (shared_key timestamp body method path request_id : string) : string :=
  hexdigest (hmac sha256 (utf8 shared_key) (signed_text timestamp body method path request_id)).

Definition max_age : Z := 30.

Definition verify_request_signature (shared_key timestamp body signature method path request_id : string)
    : M bool :=
  match py_int timestamp with
  | None => mret false
  | Some issued_at =>
      current ← time_time;
      if max_age <? Z.abs (current - issued_at) then mret false
      else if decide (signature = "") then mret false
      else match compare_digest (request_signature shared_key timestamp body method path request_id) signature with
           | Some b => mret b
           | None => raise (TypeError "comparing strings with non-ASCII characters is not supported")
           end
  end.

(** ** Envelopes *)

(** [fernet_from_key(shared_key)]: authenticated encryption under a key derived from
    the shared one.  A token carries its creation time in seconds; decryption is
    asked to reject tokens older than 60 seconds. *)
Class Fernet := {
  fernet_encrypt : string → nat → Z → string → string;
  fernet_decrypt : string → Z → string → option string;
}.

(** What the [cryptography] package documents: a token decrypts under its key while
    it is not older than the requested lifetime. *)
Class FernetLaws `{Fernet} :=
  fernet_round_trip key n t t' m :
    t <= t' <= t + 60 → fernet_decrypt key t' (fernet_encrypt key n t m) = Some m.

Section envelopes.
Context {FN : Fernet}.

Definition require_key (shared_key : string) : M unit :=
  raise_if (len shared_key <? 32)
    (GatewayProtocolError "La clé partagée du broker doit contenir au moins 32 caractères.").

Definition encrypt_envelope (payload : json) (shared_key : string) : M string :=
  require_key shared_key ;;
  n ← draw (λ n, n);
  t ← time_time;
  mret (fernet_encrypt shared_key n t (encode (dumps payload))).

Definition decrypt_envelope (token shared_key : string) : M json :=
  require_key shared_key ;;
  t ← time_time;
  match fernet_decrypt shared_key t token ≫= json_loads with
  | Some j => mret j
  | None => raise (GatewayProtocolError "L’enveloppe du broker est invalide ou expirée.")
  end.
End envelopes.

(** ** Signed requests ([gateway/client.py], [sessions/control.py]) *)

Record signed_request := SignedRequest {
  sr_method : string;
  sr_path : string;
  sr_headers : list (string * string);
  sr_body : string;
}.

(** [headers.get(name, "")]; names are lower case. *)
Definition header (r : signed_request) (name : string) : string :=
  default "" (snd <$> List.find (λ kv, bool_decide (kv.1 = name)) (sr_headers r)).

Definition pam_headers (timestamp request_id version signature : string) : list (string * string) :=
  [("content-type", "application/json"); ("x-pam-timestamp", timestamp);
   ("x-pam-request-id", request_id); ("x-pam-signature-version", version); ("x-pam-signature", signature)].

Section client.
Context {PF : Platform}.

(** The request [InternalAPIClient._post] sends. *)
Definition _post (shared_key path : string) (payload : json) : M signed_request :=
  let body := encode (dumps payload) in
  t ← time_time;
  let timestamp := str_int t in
  k ← uuid4;
  let request_id := str_uuid k in
  mret (SignedRequest "POST" path
    (pam_headers timestamp request_id "2"
       (request_signature shared_key timestamp body "POST" path request_id)) body).

(** The request [notify_gateway_termination] sends. *)
Definition terminate_path : string := "/internal/control/terminate/".

Definition notify_gateway_termination (session_id : id) : M signed_request :=
  _post (PAMOLIVE_GATEWAY_SHARED_KEY conf) terminate_path
    (JObj [("session_id", JStr (str_uuid session_id))]).
End client.

(** ** The control endpoint ([gateway/asgi.py]) *)

Record gateway_config := GatewayConfig {
  gc_internal_base_url : string;
  gc_shared_key : string;
  gc_recording_key : string;
  gc_recording_dir : string;
  gc_connect_timeout : pyfloat;
  gc_accept_legacy_signatures : bool;
  gc_replay_cache_url : string;
  gc_replay_cache_ca_path : string;
}.

(** [float(os.environ.get("PAMOLIVE_GATEWAY_CONNECT_TIMEOUT", "10"))] *)
Definition connect_timeout (environ : gmap string string) : outcome pyfloat :=
  match py_float (default "10" (environ !! "PAMOLIVE_GATEWAY_CONNECT_TIMEOUT")) with
  | Some x => Ok x
  | None => Raise (ValueError "could not convert string to float")
  end.

(** [GatewayConfig.from_env] *)
Definition from_env (environ : gmap string string) : outcome gateway_config :=
  let get k d := default d (environ !! k) in
  let shared_key := get "PAMOLIVE_GATEWAY_SHARED_KEY" "" in
  let recording_key := get "PAMOLIVE_RECORDING_KEY" "" in
  if len shared_key <? 32 then
    Raise (GatewayProtocolError "PAMOLIVE_GATEWAY_SHARED_KEY est absente ou trop courte.")
  else if len recording_key <? 32 then
    Raise (GatewayProtocolError "PAMOLIVE_RECORDING_KEY est absente ou trop courte.")
  else match connect_timeout environ with
       | Raise e => Raise e
       | Ok timeout =>
           Ok (GatewayConfig (rstrip_char "/" (get "PAMOLIVE_INTERNAL_URL" "http://web:8000")) shared_key recording_key
                 (get "PAMOLIVE_RECORDING_DIR" "/recordings") timeout
                 (bool_decide (lower (get "PAMOLIVE_GATEWAY_ACCEPT_LEGACY_SIGNATURES" "false")
                               ∈ ["1"; "true"; "yes"; "on"]))
                 (get "PAMOLIVE_GATEWAY_REPLAY_CACHE_URL" "") (get "PAMOLIVE_GATEWAY_REPLAY_CACHE_CA_PATH" ""))
       end.

(** The process state: the cancellation event of each connected session and the
    identifiers of recent control requests with their arrival times. *)
Record gateway_state := GatewayState {
  cancellations : gmap string bool;
  control_request_ids : gmap string Z;
}.
#[global] Instance gateway_state_settable : Settable gateway_state := λ r,
  GatewayState (cancellations r) (control_request_ids r).

Section control.
(** [Redis.set(key, "1", ex=60, nx=True)]: the answer of the shared replay cache at
    an instant, [None] for a [RedisError]. *)
Context (redis_set_nx : string → Z → option bool).

Definition _claim_control_request_id (config : gateway_config) (request_id : string) (now : Z)
    (s : gateway_state) : bool * gateway_state :=
  if decide (gc_replay_cache_url config ≠ "") then
    (default false (redis_set_nx ("pamolive:gateway-control:" +:+ request_id) now), s)
  else
    let kept := base.filter (λ kv, now - kv.2 <= seconds 60) (control_request_ids s) in
    if decide (is_Some (kept !! request_id)) then (false, s <| control_request_ids := kept |>)
    else (true, s <| control_request_ids := <[request_id := now]> kept |>).

(** [str(json.loads(body).get("session_id", ""))] *)
Definition control_session_id (body : string) : outcome string :=
  match json_loads body with
  | None => Ok ""
  | Some (JObj l) => Ok (py_str (default (JStr "") (dict_get "session_id" l)))
  | Some _ => Raise (OtherError "AttributeError")
  end.

(** Version and replay checks after the signature check. *)
Definition settle (config : gateway_config) (legacy_accepted valid : bool)
    (signature_version request_id : string) (now : Z) (s : gateway_state) : bool * gateway_state :=
  if negb legacy_accepted && (bool_decide (signature_version ≠ "2") || bool_decide (request_id = ""))
  then (false, s)
  else if valid && negb legacy_accepted then _claim_control_request_id config request_id now s
  else (valid, s).

Definition _control (config : gateway_config) (r : signed_request) (s : gateway_state)
    : M (Z * gateway_state) :=
  if bool_decide (sr_path r = "/health/live/") && bool_decide (sr_method r = "GET") then mret (200, s)
  else if negb (bool_decide (sr_path r = terminate_path) && bool_decide (sr_method r = "POST"))
  then mret (404, s)
  else
    let signature_version := header r "x-pam-signature-version" in
    let request_id := default "" (str_uuid <$> uuid_of_str (header r "x-pam-request-id")) in
    let timestamp := header r "x-pam-timestamp" in
    let signature := header r "x-pam-signature" in
    let legacy_accepted := bool_decide (signature_version ∈ [""; "1"]) && gc_accept_legacy_signatures config in
    valid ← (if legacy_accepted
             then verify_request_signature (gc_shared_key config) timestamp (sr_body r) signature "" "" ""
             else verify_request_signature (gc_shared_key config) timestamp (sr_body r) signature
                    "POST" terminate_path request_id);
    t ← now;
    let '(valid, s) := settle config legacy_accepted valid signature_version request_id t s in
    session_id ← of_outcome (control_session_id (sr_body r));
    if valid && bool_decide (is_Some (cancellations s !! session_id))
    then mret (202, s <| cancellations ::= <[session_id := true]> |>)
    else mret (if valid then 404 else 403, s).
End control.

(** ** Terminal input ([gateway/ssh.py]) *)

Inductive ws_message :=
  | WsDisconnect
  | WsReceive (text : option string)
  | WsOther.

(** What the loop does to the outside: recorder, browser, policy callback, remote
    process. *)
Inductive gw_effect :=
  | Recorded (direction : string) (data : string)
  | Sent (kind : string)
  | Reported (command disposition pattern : string)
  | Stdin (data : string)
  | Resized (cols rows : Z).

(** [re.split(r"[\r\n]+", s)] *)
Definition is_eol (c : ascii) : bool := (code c =? 10) || (code c =? 13).

Fixpoint split_lines (in_sep : bool) (l : list ascii) : list (list ascii) :=
  match l with
  | [] => [[]]
  | c :: l' =>
      if is_eol c then if in_sep then split_lines true l' else [] :: split_lines true l'
      else match split_lines false l' with
           | [] => [[c]]
           | w :: ws => (c :: w) :: ws
           end
  end.

Definition has_eol (s : string) : bool := existsb is_eol (chars s).

(** [[item.strip() for item in re.split(...) if item.strip()]] *)
Definition completed_commands (candidate : string) : list string :=
  filter (λ s, s ≠ "") ((λ l, strip (of_chars l)) <$> split_lines false (chars candidate)).

Section terminal.
(** [re.search(pattern, command)]: whether it matches, [None] for [re.error]. *)
Context (re_search : string → string → option bool).

Fixpoint _first_matching_pattern (command : string) (patterns : list string) : string :=
  match patterns with
  | [] => ""
  | p :: ps => if decide (re_search p command = Some true) then p else _first_matching_pattern command ps
  end.

(** The inspection loop: the deny match that stops it, the first alert match, and
    the command inspected. *)
Fixpoint inspect (deny alert : list string) (alert_match inspected : string) (commands : list string)
    : string * string * string :=
  match commands with
  | [] => ("", alert_match, inspected)
  | command :: rest =>
      let deny_match := _first_matching_pattern command deny in
      if decide (deny_match ≠ "") then (deny_match, alert_match, command)
      else if decide (alert_match = "") then
        let alert_match := _first_matching_pattern command alert in
        inspect deny alert alert_match (if decide (alert_match ≠ "") then command else inspected) rest
      else inspect deny alert alert_match inspected rest
  end.

(** One [terminal.input] message: the new pending text and what is done. *)
Definition terminal_input (deny alert : list string) (pending text : string) : string * list gw_effect :=
  let candidate := pending +:+ text in
  if has_eol text then
    let '(deny_match, alert_match, inspected) := inspect deny alert "" "" (completed_commands candidate) in
    if decide (deny_match ≠ "") then
      ("", [Recorded "command_denied" (encode inspected); Sent "command.denied";
            Reported inspected "denied" deny_match])
    else
      ("", (if decide (alert_match ≠ "") then [Reported inspected "alerted" alert_match] else [])
           ++ [Recorded "input" (encode text); Stdin (encode text)])
  else (slice_last 4000 candidate, [Recorded "input" (encode text); Stdin (encode text)]).

(** How one message ends: the loop goes on with a pending text, returns, or dies. *)
Inductive loop_state := Running (pending : string) | Returned (reason : string) | Died (e : exn).

Definition clamp (lo hi z : Z) : Z := Z.min (Z.max z lo) hi.

Definition int_field (l : list (string * json)) (k : string) (d : Z) : outcome Z :=
  match dict_get k l with Some j => int_of_json j | None => Ok d end.

Definition on_message (deny alert : list string) (pending : string) (m : ws_message)
    : loop_state * list gw_effect :=
  match m with
  | WsDisconnect => (Returned "client_disconnect", [])
  | WsOther | WsReceive None => (Running pending, [])
  | WsReceive (Some text) =>
      if decide (text = "") then (Running pending, [])
      else match loads text with
           | None => (Running pending, [])
           | Some (JObj l) =>
               let kind := dict_get "type" l in
               if decide (kind = Some (JStr "terminal.input")) then
                 let text := slice_to (Z.to_nat 65536) (py_str (default (JStr "") (dict_get "data" l))) in
                 let '(pending, effects) := terminal_input deny alert pending text in
                 (Running pending, effects)
               else if decide (kind = Some (JStr "terminal.resize")) then
                 match int_field l "cols" 80, int_field l "rows" 24 with
                 | Ok cols, Ok rows => (Running pending, [Resized (clamp 20 400 cols) (clamp 5 200 rows)])
                 | Raise e, _ => (Died e, [])
                 | Ok _, Raise e => (Died e, [])
                 end
               else (Running pending, [])
           | Some _ => (Died (OtherError "AttributeError"), [])
           end
  end.

(** The loop over the messages received so far. *)
Fixpoint _forward_input (deny alert : list string) (pending : string) (messages : list ws_message)
    : loop_state * list gw_effect :=
  match messages with
  | [] => (Running pending, [])
  | m :: rest =>
      match on_message deny alert pending m with
      | (Running pending', effects) =>
          let '(s, effects') := _forward_input deny alert pending' rest in (s, effects ++ effects')
      | (s, effects) => (s, effects)
      end
  end.
End terminal.

(** ** What a signature commits to *)

Lemma hmac_bytes key m : Forall is_byte (hmac sha256 key m).
Proof. apply sha256_bytes. Qed.

(** No line feed in the encoded text. *)
Definition one_line (s : string) : Prop := newline ∉ utf8 s.

Lemma join_lines_split (p q a b : list Z) :
  newline ∉ p → newline ∉ q → p ++ newline :: a = q ++ newline :: b → p = q ∧ a = b.
Proof.
  revert q. induction p as [|x p IH]; intros [|y q] Hp Hq E; simpl in E.
  - by injection E.
  - exfalso. injection E as <- _. apply Hq. left.
  - exfalso. injection E as -> _. apply Hp. left.
  - injection E as -> E. rewrite not_elem_of_cons in Hp, Hq.
    destruct (IH q) as [-> ->]; [tauto|tauto|done|done].
Qed.

Lemma utf8_inj s t : utf8 s = utf8 t → s = t.
Proof. intros H. by apply encode_inj, bytes_of_inj. Qed.

Lemma drop_while_head {A} (f : A → bool) c l : f c = false → drop_while f (c :: l) = c :: l.
Proof. simpl. by intros ->. Qed.

Lemma strip_chars_head f c l : f c = false → ∃ r, strip_chars f (c :: l) = c :: r.
Proof.
  intros Hc. unfold strip_chars. rewrite drop_while_head by done. simpl rev.
  assert (∀ x, ∃ r, drop_while f (x ++ [c]) = r ++ [c]) as Hd.
  { induction x as [|y x [r IH]]; simpl; [rewrite Hc; by exists []|].
    destruct (f y); [by exists r|by exists (y :: x)]. }
  destruct (Hd (rev l)) as [r ->]. exists (rev r). by rewrite rev_app_distr.
Qed.

(** A timestamp that [int] accepts does not start with a letter. *)
Lemma py_int_not_v s : py_int (String "v" s) = None.
Proof.
  unfold py_int. change (chars (String "v" s)) with ("v"%char :: chars s).
  by destruct (strip_chars_head isspace_char "v"%char (chars s)) as [r ->].
Qed.

(** A version-2 signature commits to the whole request.  Under one key, two
    requests with the same signature have the same timestamp, request identifier,
    method, path and body, or else HMAC-SHA-256 collides on the two signed texts (the
    first four being one-line texts, as headers and paths are); and no version-1 signature over
    a timestamp the verifier accepts can be presented as a version-2 one. *)
Theorem request_signature_binds key ts1 b1 m1 p1 r1 ts2 b2 m2 p2 r2 :
  one_line ts1 → one_line r1 → one_line (upper m1) → one_line p1 → r1 ≠ "" →
  request_signature key ts1 b1 m1 p1 r1 = request_signature key ts2 b2 m2 p2 r2 →
  hmac_collides (utf8 key) (signed_text ts1 b1 m1 p1 r1) (signed_text ts2 b2 m2 p2 r2) ∨
  (r2 ≠ "" ∧ (one_line ts2 → one_line r2 → one_line (upper m2) → one_line p2 →
     ts1 = ts2 ∧ r1 = r2 ∧ upper m1 = upper m2 ∧ p1 = p2 ∧ b1 = b2)) ∨
  (r2 = "" ∧ py_int ts2 = None).
Proof.
  intros Ht Hr Hm Hp Hne E. unfold request_signature in E.
  apply hexdigest_inj in E; [|apply hmac_bytes..].
  apply hmac_sha256_inj in E as [E|?]; [|by left]. right.
  unfold signed_text in E. rewrite decide_False in E by done.
  destruct (decide (r2 = "")) as [->|Hne2].
  - right. split; [done|]. destruct ts2 as [|c ts2]; [done|].
    assert (c = "v"%char) as ->; [|apply py_int_not_v].
    assert (head (utf8 (String c ts2)) = Some 118) as Hh.
    { destruct (utf8 (String c ts2)) as [|x l] eqn:Eu; [|by injection E as <- _].
      exfalso. assert (utf8 (String c ts2) = utf8 "") as E2 by (by rewrite Eu).
      by apply utf8_inj in E2. }
    revert Hh. clear. unfold utf8, bytes_of, encode. rewrite chars_of_chars.
    change (chars (String c ts2)) with (c :: chars ts2).
    change (mbind encode_char (c :: chars ts2)) with (encode_char c ++ mbind encode_char (chars ts2)).
    unfold encode_char. pose proof (code_range c). destruct (Z.ltb_spec (code c) 128); simpl; intros [= Hc].
    + apply code_inj. by rewrite Hc.
    + rewrite code_chr in Hc by (pose proof (Z.div_pos (code c) 64); pose proof (Z.div_lt_upper_bound (code c) 64 4); lia).
      pose proof (Z.div_pos (code c) 64). lia.
  - left. split; [done|]. intros Ht2 Hr2 Hm2 Hp2. cbn [join_lines] in E.
    apply join_lines_split in E as [_ E]; [|by apply not_elem_of_nil || (vm_compute; set_solver)..].
    apply join_lines_split in E as [E1 E]; [|done..]. apply join_lines_split in E as [E2 E]; [|done..].
    apply join_lines_split in E as [E3 E]; [|done..]. apply join_lines_split in E as [E4 E]; [|done..].
    apply utf8_inj in E1, E2, E3, E4. apply bytes_of_inj in E. done.
Qed.

(** What a verified signature means. *)
Lemma verify_inv key ts body sig m p rid w w' :
  verify_request_signature key ts body sig m p rid w = (Ok true, w') →
  ∃ issued, py_int ts = Some issued ∧ Z.abs (epoch (w_clock w) - issued) <= max_age ∧
    sig = request_signature key ts body m p rid ∧ w' = advance w.
Proof.
  unfold verify_request_signature. destruct (py_int ts) as [issued|]; [|done]. intros H.
  apply bind_ok_inv in H as (t & w1 & Ht & H). prim_inv Ht. exists issued. split; [done|].
  destruct (max_age <? _) eqn:Eage; [done|]. breflect. split; [done|].
  destruct (decide (sig = "")); [done|]. unfold compare_digest in H.
  destruct (is_ascii _ && is_ascii _); [|done]. unfold mret, M_ret in H. simplify_eq. by breflect.
Qed.

Lemma verify_quiet key ts body sig m p rid : quiet (verify_request_signature key ts body sig m p rid).
Proof. unfold verify_request_signature, time_time. solve_quiet. Qed.
#[export] Hint Resolve verify_quiet : pam.

Section envelope_facts.
Context {FN : Fernet} {FL : FernetLaws}.

Lemma encrypt_envelope_inv payload key w token w' :
  encrypt_envelope payload key w = (Ok token, w') →
  32 <= len key ∧ ∃ n, token = fernet_encrypt key n (epoch (w_clock w)) (encode (dumps payload)) ∧
    reads w w'.
Proof.
  unfold encrypt_envelope, require_key. intros H. run_inv H. breflect. split; [done|].
  eexists. split; [reflexivity|]. etrans; [apply (quiet_draw (λ n, n) w)|apply reads_advance].
Qed.

(** What the server seals is what the broker opens.  An envelope encrypted for a
    dictionary payload decrypts, under the same key and within 60 seconds, to the
    same dictionary with its keys sorted. *)
Theorem envelope_round_trip payload key w token w' w2 :
  well_keyed payload → encrypt_envelope payload key w = (Ok token, w') →
  epoch (w_clock w) <= epoch (w_clock w2) <= epoch (w_clock w) + 60 →
  decrypt_envelope token key w2 = (Ok (sort_keys payload), advance w2).
Proof.
  intros Hk (Hlen & n & -> & _)%encrypt_envelope_inv Ht. unfold decrypt_envelope, require_key.
  rewrite run_raise_if_false by (by apply Z.ltb_ge). unfold time_time. run.
  rewrite fernet_round_trip by done. cbn [mbind option_bind]. by rewrite json_loads_dumps.
Qed.
End envelope_facts.

(** ** The control endpoint *)

Section control_facts.
Context (redis_set_nx : string → Z → option bool) (config : gateway_config).

Definition legacy (r : signed_request) : bool :=
  bool_decide (header r "x-pam-signature-version" ∈ [""; "1"]) && gc_accept_legacy_signatures config.

Definition control_request_id (r : signed_request) : string :=
  default "" (str_uuid <$> uuid_of_str (header r "x-pam-request-id")).

(** The request carries a valid, fresh signature made with the shared key. *)
Definition signed_for_control (r : signed_request) (t : Z) : Prop :=
  ∃ issued, py_int (header r "x-pam-timestamp") = Some issued ∧ Z.abs (epoch t - issued) <= max_age ∧
    if legacy r then
      header r "x-pam-signature"
      = request_signature (gc_shared_key config) (header r "x-pam-timestamp") (sr_body r) "" "" ""
    else header r "x-pam-signature-version" = "2" ∧ control_request_id r ≠ "" ∧
      header r "x-pam-signature"
      = request_signature (gc_shared_key config) (header r "x-pam-timestamp") (sr_body r) "POST"
          terminate_path (control_request_id r).

Lemma settle_cancellations leg valid version rid t s ok s' :
  settle redis_set_nx config leg valid version rid t s = (ok, s') → cancellations s' = cancellations s.
Proof.
  unfold settle, _claim_control_request_id. intros H.
  repeat (case_match; simplify_eq; try done).
Qed.

Lemma settle_true leg valid version rid t s s' :
  settle redis_set_nx config leg valid version rid t s = (true, s') →
  valid = true ∧ (leg = false → version = "2" ∧ rid ≠ "") ∧
  (leg = false → _claim_control_request_id redis_set_nx config rid t s = (true, s')).
Proof.
  unfold settle. destruct leg; cbn [negb andb]; intros H.
  - rewrite andb_false_r in H. simplify_eq. done.
  - destruct (_ || _) eqn:E; [done|]. breflect. destruct valid; [|done].
    split_and!; [done| |done]. intros _. split; [by apply dec_stable|done].
Qed.

(** How a control request ended on the terminate path. *)
Lemma control_inv r s w status s' w' :
  sr_path r = terminate_path → _control redis_set_nx config r s w = (Ok (status, s'), w') →
  status = 403 ∧ cancellations s' = cancellations s ∨
  status = 404 ∧ cancellations s' = cancellations s ∨
  ∃ sid, control_session_id (sr_body r) = Ok sid ∧ sr_method r = "POST" ∧
    signed_for_control r (w_clock w) ∧ is_Some (cancellations s !! sid) ∧ status = 202 ∧
    cancellations s' = <[sid := true]> (cancellations s) ∧
    (legacy r = false →
     _claim_control_request_id redis_set_nx config (control_request_id r) (w_clock (advance w)) s
     = (true, s' <| cancellations := cancellations s |>)).
Proof.
  intros Hp. unfold _control. rewrite Hp. cbn [andb].
  change (bool_decide (terminate_path = "/health/live/")) with false. cbn [andb].
  rewrite (bool_decide_true (terminate_path = terminate_path)) by done. cbn [andb].
  destruct (bool_decide (sr_method r = "POST")) eqn:Em; cbn [negb]; [|intros [= <- <- <-]; auto].
  fold (legacy r). fold (control_request_id r). breflect. intros H.
  apply bind_ok_inv in H as (valid & w1 & Hv & H). apply bind_ok_inv in H as (t & w2 & Ht & H). prim_inv Ht.
  destruct (settle _ _ _ _ _ _ _ _) as [ok s1] eqn:Es.
  pose proof (settle_cancellations _ _ _ _ _ _ _ _ Es) as Hcan. run_inv H. rewrite Hcan in H.
  destruct ok; cbn [andb] in H; [|prim_inv H; auto].
  destruct (bool_decide (is_Some (cancellations s !! a))) eqn:Ec; prim_inv H; [|auto].
  right. right. breflect. apply settle_true in Es as (-> & Hver & Hcl).
  assert (w1 = advance w ∧ signed_for_control r (w_clock w)) as [-> Hsigned].
  { unfold signed_for_control.
    destruct (legacy r); apply verify_inv in Hv as (issued & Hi & Hage & Hsig & ->);
      (split; [done|]); exists issued; naive_solver. }
  exists a. split_and!; try done.
  - simpl. by rewrite Hcan.
  - intros El. rewrite (Hcl El). simpl. by destruct s1; simpl in *; subst.
Qed.

(** C20: Only a signed request cancels a session.  If a control request changes any
    cancellation event, it was a [POST] to the terminate path carrying a signature
    made with the shared key over this very body, dated at most 30 seconds away from
    the broker's clock; the only event set is the one of the session it names; and
    unless legacy signatures are accepted or a shared cache keeps the identifiers,
    its identifier was not claimed during the last 60 seconds and is now recorded,
    so that a replay within that time is refused. *)
Theorem control_cancels_only_signed r s w status s' w' :
  _control redis_set_nx config r s w = (Ok (status, s'), w') → cancellations s' ≠ cancellations s →
  sr_path r = terminate_path ∧ sr_method r = "POST" ∧ signed_for_control r (w_clock w) ∧ status = 202 ∧
  (∃ sid, control_session_id (sr_body r) = Ok sid ∧ is_Some (cancellations s !! sid) ∧
          cancellations s' = <[sid := true]> (cancellations s)) ∧
  (legacy r = false → gc_replay_cache_url config = "" →
   (∀ seen, control_request_ids s !! control_request_id r = Some seen →
            seconds 60 < w_clock (advance w) - seen) ∧
   control_request_ids s' !! control_request_id r = Some (w_clock (advance w))).
Proof.
  intros H Hne. destruct (decide (sr_path r = terminate_path)) as [Hp|Hp].
  - destruct (control_inv r s w status s' w' Hp H)
      as [[_ E]|[[_ E]|(sid & Hsid & Hm & Hsig & Hcan & Hst & Hset & Hclaim)]]; [done|done|].
    split_and!; try done; [by exists sid|]. intros El Eurl. specialize (Hclaim El).
    unfold _claim_control_request_id in Hclaim. rewrite decide_False in Hclaim by (rewrite Eurl; tauto).
    destruct (decide (is_Some _)) as [|Hfresh]; [done|]. injection Hclaim as Es. split.
    + intros seen Hseen. apply Z.nle_gt. intros Hle. apply Hfresh. exists seen.
      by rewrite map_lookup_filter_Some.
    + rewrite <- Es. apply lookup_insert_eq.
  - exfalso. revert H. unfold _control. rewrite (bool_decide_false (sr_path r = terminate_path)) by done.
    cbn [andb negb]. destruct (_ && _); intros [= <- <- <-]; done.
Qed.
End control_facts.

(** Decimal texts are read back by [int]. *)
Lemma int_digits_prefix acc l :
  forallb is_ascii_digit l = true → int_digits acc l = Some (digits_prefix acc l).1.
Proof.
  revert acc. induction l as [|c l IH]; intros acc H; [done|]. simpl in H. breflect. simpl.
  match goal with Hc : is_ascii_digit c = true |- _ => rewrite Hc end. by apply IH.
Qed.

Lemma digit_not_space c : is_ascii_digit c = true → isspace_char c = false.
Proof.
  unfold is_ascii_digit, isspace_char, between. rewrite andb_true_iff, !Z.leb_le. intros ?.
  rewrite !orb_false_iff, !andb_false_iff, !Z.leb_gt, !Z.eqb_neq. lia.
Qed.

Lemma pretty_digits (n : N) : forallb is_ascii_digit (chars (pretty n)) = true.
Proof.
  unfold pretty, pretty_N. case_decide; [done|].
  enough (∀ x s, forallb is_ascii_digit (chars s) = true →
                 forallb is_ascii_digit (chars (pretty_N_go x s)) = true) as Hgo by (apply Hgo; reflexivity).
  intros x. induction (N.lt_wf_0 x) as [x _ IH]; intros s Hs.
  destruct (decide (x = 0)%N) as [->|Hx]; [done|]. rewrite pretty_N_go_step by lia.
  apply IH; [apply N.div_lt; lia|]. simpl.
  destruct (pretty_char_digit (x mod 10)) as [-> _]; [by apply N.mod_lt|done].
Qed.

Lemma read_nat_nonzero c l :
  is_ascii_digit c = true → c ≠ "0"%char → read_nat (c :: l) = Some (digits_prefix 0 (c :: l)).
Proof.
  intros Hc H0. destruct c as [[] [] [] [] [] [] [] []]; try discriminate Hc; try reflexivity. by destruct H0.
Qed.

Lemma py_int_str_int z : 0 <= z → py_int (str_int z) = Some z.
Proof.
  intros Hz. assert (∃ n : N, str_int z = pretty n ∧ Z.of_N n = z) as (n & -> & <-).
  { exists (Z.to_N z). destruct z as [|p|p]; try lia; done. }
  pose proof (pretty_digits n) as Hd. unfold py_int.
  rewrite strip_chars_none.
  2:{ apply Forall_forall. intros c Hc. apply digit_not_space. by apply (proj1 (forallb_elem _ _) Hd). }
  pose proof (read_nat_pretty n [] I) as Hr. rewrite app_nil_r in Hr.
  destruct (chars (pretty n)) as [|c l] eqn:E; [by apply pretty_N_ne_empty in E|].
  assert (is_ascii_digit c = true) as Hc by (simpl in Hd; by breflect).
  assert ((if is_ascii_digit c then int_digits 0 (c :: l) else None) = Some (Z.of_N n)) as Hu.
  { rewrite Hc, int_digits_prefix by done. f_equal. destruct (decide (c = "0"%char)) as [->|H0].
    - by injection Hr as <- ->.
    - rewrite read_nat_nonzero in Hr by done.
      assert (digits_prefix 0 (c :: l) = (Z.of_N n, [])) as -> by congruence. done. }
  destruct c as [[] [] [] [] [] [] [] []]; try discriminate Hc; exact Hu.
Qed.

Lemma signature_ascii key ts b m p r :
  is_ascii (request_signature key ts b m p r) = true ∧ request_signature key ts b m p r ≠ "".
Proof.
  unfold request_signature. pose proof (hmac_bytes (utf8 key) (signed_text ts b m p r)) as Hb.
  assert (length (hmac sha256 (utf8 key) (signed_text ts b m p r)) = 32%nat) as Hl by apply sha256_length.
  revert Hb Hl. generalize (hmac sha256 (utf8 key) (signed_text ts b m p r)). intros d Hd Hl. split.
  - unfold is_ascii, hexdigest. rewrite chars_of_chars. apply forallb_elem. intros c Hc.
    pose proof (hex_of_chars d Hd) as Hh. rewrite Forall_forall in Hh. specialize (Hh c Hc).
    unfold is_hex_char, between in Hh. apply Z.ltb_lt. rewrite !orb_true_iff, !andb_true_iff, !Z.leb_le in Hh. lia.
  - intros E. apply (f_equal String.length) in E. rewrite hexdigest_length, Hl in E. done.
Qed.

Lemma compare_same s : is_ascii s = true → compare_digest s s = Some true.
Proof. intros H. unfold compare_digest. rewrite H. simpl. by rewrite bool_decide_true. Qed.

(** A correct signature within the time window is accepted. *)
Lemma verify_accepts key ts issued body m p rid w :
  py_int ts = Some issued → Z.abs (epoch (w_clock w) - issued) <= max_age →
  verify_request_signature key ts body (request_signature key ts body m p rid) m p rid w
  = (Ok true, advance w).
Proof.
  intros Hi Hage. unfold verify_request_signature. rewrite Hi. unfold time_time. run.
  rewrite (proj2 (Z.ltb_ge _ _)) by done. destruct (signature_ascii key ts body m p rid) as [Ha Hne].
  rewrite decide_False by done. by rewrite compare_same.
Qed.

Lemma epoch_nonneg t : 0 <= t → 0 <= epoch t.
Proof. intros H. unfold epoch. apply Z.div_pos; [done|reflexivity]. Qed.

(** A correctly signed, fresh version-2 request for a connected session succeeds. *)
Lemma control_accepts redis config r s w issued rid sid b :
  sr_path r = terminate_path → sr_method r = "POST" → header r "x-pam-signature-version" = "2" →
  control_request_id r = rid → rid ≠ "" → py_int (header r "x-pam-timestamp") = Some issued →
  Z.abs (epoch (w_clock w) - issued) <= max_age →
  header r "x-pam-signature" = request_signature (gc_shared_key config) (header r "x-pam-timestamp")
    (sr_body r) "POST" terminate_path rid →
  control_session_id (sr_body r) = Ok sid → cancellations s !! sid = Some b →
  gc_replay_cache_url config = "" →
  (∀ seen, control_request_ids s !! rid = Some seen → seconds 60 < w_clock (advance w) - seen) →
  ∃ s' w', _control redis config r s w = (Ok (202, s'), w') ∧
    cancellations s' = <[sid := true]> (cancellations s).
Proof.
  intros Hp Hm Hv Hrid Hne Hts Hage Hsig Hsid Hcan Hurl Hseen.
  unfold _control. fold (control_request_id r). rewrite Hp, Hm, Hv, Hrid, Hsig.
  change (bool_decide (terminate_path = "/health/live/")) with false.
  change (bool_decide (terminate_path = terminate_path) && bool_decide ("POST" = "POST")) with true.
  change (bool_decide ("2" ∈ [""; "1"])) with false. cbn [andb negb].
  rewrite (bind_ok _ _ _ _ _ (verify_accepts _ _ _ _ _ _ _ _ Hts Hage)). run.
  assert (settle redis config false true "2" rid (w_clock (advance w)) s
    = (true, s <| control_request_ids := <[rid := w_clock (advance w)]>
        (base.filter (λ kv, w_clock (advance w) - kv.2 <= seconds 60) (control_request_ids s)) |>)) as ->.
  { unfold settle. change (bool_decide ("2" ≠ "2")) with false.
    rewrite bool_decide_false by done. cbn [negb orb andb]. unfold _claim_control_request_id.
    rewrite decide_False by (rewrite Hurl; tauto). rewrite decide_False; [done|].
    intros [seen [Hs1 Hs2]%map_lookup_filter_Some]. apply Hseen in Hs1. simpl in Hs2. simpl in Hs1. lia. }
  rewrite Hsid. unfold of_outcome, mbind, M_bind. cbn [cancellations set_field andb].
  simpl. rewrite bool_decide_true by (by rewrite Hcan). do 2 eexists. split; reflexivity.
Qed.

Section notification.
Context {PF : Platform}.

(** A termination request reaches the broker.  The request that
    [notify_gateway_termination] builds is accepted by the control endpoint of a
    broker with the same key, whose clock is within 30 seconds and which has not seen
    the identifier in the last minute, and sets the cancellation event of the
    connected session. *)
Theorem termination_reaches_session redis config sid w r w1 s w2 b :
  notify_gateway_termination sid w = (Ok r, w1) →
  gc_shared_key config = PAMOLIVE_GATEWAY_SHARED_KEY conf → gc_replay_cache_url config = "" →
  (draw_uuid4 (w_draws w) < 2 ^ 128)%N → 0 <= w_clock w →
  Z.abs (epoch (w_clock w2) - epoch (w_clock w)) <= max_age →
  cancellations s !! str_uuid sid = Some b →
  (∀ seen, control_request_ids s !! str_uuid (draw_uuid4 (w_draws w)) = Some seen →
           seconds 60 < w_clock (advance w2) - seen) →
  ∃ s' w3, _control redis config r s w2 = (Ok (202, s'), w3) ∧
    cancellations s' = <[str_uuid sid := true]> (cancellations s).
Proof.
  intros Hr Hkey Hurl Hid Hclk Hskew Hcan Hseen. unfold notify_gateway_termination, _post, time_time in Hr.
  revert Hr. run. intros [= <- _].
  set (rid := str_uuid (draw_uuid4 (w_draws w))).
  eapply (control_accepts redis config _ s w2 (epoch (w_clock w)) rid); try done.
  - unfold control_request_id. change (header _ "x-pam-request-id") with rid.
    unfold rid. by rewrite uuid_of_str_uuid.
  - change (header _ "x-pam-timestamp") with (str_int (epoch (w_clock w))).
    by apply py_int_str_int, epoch_nonneg.
  - rewrite Hkey. reflexivity.
  - cbn [sr_body]. unfold control_session_id. rewrite json_loads_dumps; [reflexivity|].
    constructor; repeat constructor. apply not_elem_of_nil.
Qed.
End notification.

(** ** The command filter *)

Section filter.
Context (re_search : string → string → option bool).

Definition matches (patterns : list string) (command : string) : Prop :=
  ∃ p, p ∈ patterns ∧ re_search p command = Some true.

Lemma first_match_spec command patterns :
  "" ∉ patterns →
  let p := _first_matching_pattern re_search command patterns in
  (p ≠ "" → p ∈ patterns ∧ re_search p command = Some true) ∧ (p = "" → ¬ matches patterns command).
Proof.
  intros Hne p. subst p. induction patterns as [|q ps IH]; simpl.
  { split; [done|]. intros _ (p & Hp & _). by apply elem_of_nil in Hp. }
  rewrite not_elem_of_cons in Hne. destruct Hne as [Hq Hne]. destruct (IH Hne) as [IH1 IH2].
  destruct (decide (re_search q command = Some true)) as [Hm|Hm].
  - split; [|by intros ->]. intros _. split; [left|done].
  - split; [intros Hp; split; [right|]; by apply IH1|].
    intros Hp (p & [->|Hin]%elem_of_cons & Hpm); [done|]. apply (IH2 Hp). by exists p.
Qed.

(** The inspection stops at the first command that a deny pattern matches. *)
Lemma inspect_spec deny alert am ins commands :
  "" ∉ deny →
  let r := inspect re_search deny alert am ins commands in
  (r.1.1 ≠ "" → r.2 ∈ commands ∧ r.1.1 ∈ deny ∧ re_search r.1.1 r.2 = Some true) ∧
  (r.1.1 = "" → ∀ c, c ∈ commands → ¬ matches deny c).
Proof.
  intros Hne r. subst r. revert am ins. induction commands as [|c cs IH]; intros am ins.
  { simpl. split; [done|]. intros _ c Hc. by apply elem_of_nil in Hc. }
  cbn [inspect]. destruct (first_match_spec c deny Hne) as [Hf1 Hf2].
  destruct (decide (_first_matching_pattern re_search c deny ≠ "")) as [Hd|Hd].
  - cbn. split; [|done]. intros _. destruct (Hf1 Hd). split; [left|done].
  - assert (_first_matching_pattern re_search c deny = "") as Hd' by (by apply dec_stable).
    specialize (Hf2 Hd'). cbv zeta.
    assert (∀ am' ins',
      let r := inspect re_search deny alert am' ins' cs in
      (r.1.1 ≠ "" → r.2 ∈ c :: cs ∧ r.1.1 ∈ deny ∧ re_search r.1.1 r.2 = Some true) ∧
      (r.1.1 = "" → ∀ c', c' ∈ c :: cs → ¬ matches deny c')) as Hgo.
    { intros am' ins'. destruct (IH am' ins') as [H1 H2]. split.
      - intros Hr. destruct (H1 Hr) as (? & ? & ?). split_and!; [by right|done..].
      - intros Hr c' [->|Hin]%elem_of_cons; [done|by apply H2]. }
    destruct (decide (am = "")); apply Hgo.
Qed.

Definition stdin_of (l : list gw_effect) : list string :=
  omap (λ e, match e with Stdin d => Some d | _ => None end) l.

(** The command filter decides each submitted line.  When a chunk with an end of
    line arrives, it is kept from the remote process exactly when one of the
    completed commands (the pending text and the chunk, split at line ends and
    stripped) matches a deny pattern; then the refusal is recorded, shown and
    reported with such a command and pattern.  Otherwise the whole chunk is recorded
    and forwarded. *)
Theorem command_filter_exact deny alert pending text :
  "" ∉ deny → has_eol text = true →
  let r := terminal_input re_search deny alert pending text in
  let commands := completed_commands (pending +:+ text) in
  r.1 = "" ∧
  ((∃ c, c ∈ commands ∧ matches deny c) →
     ∃ c p, c ∈ commands ∧ p ∈ deny ∧ re_search p c = Some true ∧
       r.2 = [Recorded "command_denied" (encode c); Sent "command.denied"; Reported c "denied" p]) ∧
  ((∀ c, c ∈ commands → ¬ matches deny c) → stdin_of r.2 = [encode text]).
Proof.
  intros Hne He r commands. subst r. unfold terminal_input. rewrite He. fold commands.
  destruct (inspect_spec deny alert "" "" commands Hne) as [H1 H2].
  destruct (inspect re_search deny alert "" "" commands) as [[dm am] ins]. cbn in H1, H2.
  destruct (decide (dm ≠ "")) as [Hd|Hd]; cbn [fst snd].
  - destruct (H1 Hd) as (Hin & Hdeny & Hm). split; [done|]. split; [by exists ins, dm|].
    intros Hno. exfalso. apply (Hno ins Hin). by exists dm.
  - apply dec_stable in Hd. split; [done|]. split.
    + intros (c & Hc & Hmc). by apply (H2 Hd) in Hmc.
    + intros _. by case_decide.
Qed.

(** Every chunk that reaches the remote process was just recorded. *)
Definition recorded_first (l : list gw_effect) : Prop :=
  ∀ l1 d l2, l = l1 ++ Stdin d :: l2 → ∃ l1', l1 = l1' ++ [Recorded "input" d].

Lemma recorded_first_none l : stdin_of l = [] → recorded_first l.
Proof.
  intros H l1 d l2 ->. unfold stdin_of in H. rewrite omap_app in H. simpl in H.
  by apply app_eq_nil in H as [_ H].
Qed.

Lemma recorded_first_app a b : recorded_first a → recorded_first b → recorded_first (a ++ b).
Proof.
  intros Ha Hb l1 d l2 E. apply app_eq_app in E as (l & [[-> E]|[-> E]]).
  - destruct l as [|e l]; simpl in E.
    + destruct (Hb [] d l2 (eq_sym E)) as ([|] & E2); discriminate E2.
    + injection E as <- ->. by apply (Ha l1 d l).
  - destruct (Hb l d l2 E) as (l' & ->). exists (a ++ l'). by rewrite app_assoc.
Qed.

Lemma recorded_first_pair pre d :
  stdin_of pre = [] → recorded_first (pre ++ [Recorded "input" d; Stdin d]).
Proof.
  intros Hpre l1 x l2 E. change [Recorded "input" d; Stdin d] with ([Recorded "input" d] ++ [Stdin d]) in E.
  rewrite app_assoc in E. destruct l2 as [|y l2] using rev_ind.
  - apply app_inj_tail in E as [<- [= ->]]. by exists pre.
  - exfalso. rewrite app_comm_cons, app_assoc in E. apply app_inj_tail in E as [E _].
    apply (f_equal stdin_of) in E. unfold stdin_of in E. rewrite !omap_app in E.
    unfold stdin_of in Hpre. rewrite Hpre in E. simpl in E. symmetry in E. by apply app_eq_nil in E as [_ E].
Qed.

Lemma on_message_recorded deny alert pending m :
  recorded_first (on_message re_search deny alert pending m).2.
Proof.
  unfold on_message. repeat first [case_decide | case_match]; simplify_eq/=; try (by apply recorded_first_none).
  match goal with H : terminal_input _ _ _ _ _ = (_, ?l) |- recorded_first ?l => revert H end.
  unfold terminal_input. destruct (has_eol _).
  - destruct (inspect _ _ _ _ _ _) as [[dm am] ins]. case_decide; intros [= _ <-].
    + by apply recorded_first_none.
    + apply recorded_first_pair. by case_decide.
  - intros [= _ <-]. by apply (recorded_first_pair []).
Qed.

(** Nothing reaches the remote shell unrecorded.  Whatever messages the browser
    sends, each chunk written to the remote process is immediately preceded by its
    own record in the session recording. *)
Theorem input_is_recorded_first deny alert pending messages l1 d l2 :
  (_forward_input re_search deny alert pending messages).2 = l1 ++ Stdin d :: l2 →
  ∃ l1', l1 = l1' ++ [Recorded "input" d].
Proof.
  enough (recorded_first (_forward_input re_search deny alert pending messages).2) as H by apply H.
  revert pending. induction messages as [|m ms IH]; intros pending; simpl; [by apply recorded_first_none|].
  pose proof (on_message_recorded deny alert pending m) as Hm.
  destruct (on_message re_search deny alert pending m) as [[p|r|e] eff]; [|done..].
  specialize (IH p). destruct (_forward_input _ _ _ _ _) as [s eff']. by apply recorded_first_app.
Qed.
End filter.

Section bypass.
Context (re_search : string → string → option bool).

(** The browser's message for typed text. *)
Definition input_message (text : string) : ws_message :=
  WsReceive (Some (dumps (JObj [("type", JStr "terminal.input"); ("data", JStr text)]))).

Definition carriage_return : string := of_chars [chr 13].

Lemma on_input_message deny alert pending text :
  len text <= 65536 →
  on_message re_search deny alert pending (input_message text)
  = (Running (terminal_input re_search deny alert pending text).1,
     (terminal_input re_search deny alert pending text).2).
Proof.
  intros Hlen. unfold on_message, input_message. rewrite decide_False by discriminate.
  rewrite loads_dumps.
  2:{ constructor; [|repeat constructor]. apply NoDup_ListNoDup. repeat constructor; simpl; naive_solver. }
  change (sort_keys _) with (JObj [("data", JStr text); ("type", JStr "terminal.input")]).
  cbv iota. rewrite decide_True by reflexivity.
  change (py_str _) with text.
  assert (slice_to (Z.to_nat 65536) text = text) as ->.
  { unfold slice_to. rewrite take_ge, of_chars_chars; [done|]. rewrite length_chars. unfold len in Hlen. lia. }
  by destruct (terminal_input re_search deny alert pending text).
Qed.

Lemma split_lines_none l : existsb is_eol l = false → split_lines false l = [l].
Proof.
  induction l as [|c l IH]; simpl; intros H; [done|]. breflect. rewrite H. by rewrite IH.
Qed.

Lemma split_lines_one l :
  existsb is_eol l = false → split_lines false (l ++ [chr 13]) = [l; []].
Proof.
  induction l as [|c l IH]; simpl; intros H; [done|]. breflect. rewrite H. by rewrite IH.
Qed.

Lemma completed_line cmd :
  has_eol cmd = false → strip cmd ≠ "" → completed_commands (cmd +:+ carriage_return) = [strip cmd].
Proof.
  intros He Hs. unfold completed_commands, carriage_return. rewrite chars_app, chars_of_chars, split_lines_one by done.
  simpl fmap. rewrite of_chars_chars. rewrite filter_cons_True by done. by rewrite filter_cons_False by (vm_compute; tauto).
Qed.

(** A refused command can still be submitted.  Typed text is forwarded to the
    remote shell before its line is complete, and the refusal only drops the chunk
    with the end of line.  So for any deny pattern and any matching one-line command,
    typing the command, pressing return (refused) and pressing return again leaves
    the remote process with exactly the command followed by a carriage return. *)
Theorem denied_command_reaches_shell deny alert cmd :
  "" ∉ deny → matches re_search deny (strip cmd) → has_eol cmd = false → strip cmd ≠ "" →
  len cmd <= 4000 →
  let typed := [input_message cmd; input_message carriage_return; input_message carriage_return] in
  stdin_of (_forward_input re_search deny alert "" typed).2 = [encode cmd; carriage_return] ∧
  ∃ p, p ∈ deny ∧ Reported (strip cmd) "denied" p ∈ (_forward_input re_search deny alert "" typed).2.
Proof.
  intros Hne Hm He Hs Hlen typed. subst typed. cbn [_forward_input].
  assert (terminal_input re_search deny alert "" cmd
          = (cmd, [Recorded "input" (encode cmd); Stdin (encode cmd)])) as E1.
  { unfold terminal_input. rewrite He. change ("" +:+ cmd) with cmd. f_equal. unfold slice_last.
    rewrite length_chars. replace (String.length cmd - 4000)%nat with 0%nat by (unfold len in Hlen; lia). apply of_chars_chars. }
  rewrite on_input_message, E1 by lia. cbn [fst snd].
  destruct (command_filter_exact re_search deny alert cmd carriage_return Hne eq_refl) as (Hp & Hdeny & _).
  rewrite completed_line in Hdeny by done.
  destruct Hdeny as (c & p & Hc & Hin & _ & Heff); [exists (strip cmd); split; [left|done]|].
  apply list_elem_of_singleton in Hc as ->.
  rewrite on_input_message by (vm_compute; discriminate). rewrite Hp, Heff.
  rewrite on_input_message by (vm_compute; discriminate).
  change (terminal_input re_search deny alert "" carriage_return)
    with ("", [Recorded "input" carriage_return; Stdin carriage_return]).
  cbn [fst snd app]. split; [reflexivity|]. exists p. split; [done|].
  do 4 right. left.
Qed.
End bypass.

(** ** Concrete runs *)

Section witnesses.
#[local] Existing Instance demo_platform.

#[local] Instance demo_fernet : Fernet := {|
  fernet_encrypt key n t m := "tok" +:+ m;
  fernet_decrypt key t tok := strip_prefix "tok" tok;
|}.

#[local] Instance demo_fernet_laws : FernetLaws.
Proof.
  intros key n t t' m _. cbn. unfold strip_prefix.
  assert (startswith "tok" ("tok" +:+ m) = true) as -> by (destruct m; reflexivity).
  rewrite chars_app. change (drop (String.length "tok") (chars "tok" ++ chars m)) with (chars m).
  by rewrite of_chars_chars.
Qed.

Definition demo_search (pattern command : string) : option bool := Some (contains pattern command).

Lemma request_signature_binds_witness :
  hmac_collides (utf8 "key") (signed_text "100" "{}" "post" "/a/" "r1") (signed_text "100" "{}" "post" "/a/" "r1") ∨
  ("r1" ≠ "" ∧ (one_line "100" → one_line "r1" → one_line (upper "post") → one_line "/a/" →
     "100" = "100" ∧ "r1" = "r1" ∧ upper "post" = upper "post" ∧ "/a/" = "/a/" ∧ "{}" = "{}")) ∨
  ("r1" = "" ∧ py_int "100" = None).
Proof.
  apply (request_signature_binds "key" "100" "{}" "post" "/a/" "r1" "100" "{}" "post" "/a/" "r1").
  - unfold one_line. apply (bool_decide_unpack _). vm_compute. exact I.
  - unfold one_line. apply (bool_decide_unpack _). vm_compute. exact I.
  - unfold one_line. apply (bool_decide_unpack _). vm_compute. exact I.
  - unfold one_line. apply (bool_decide_unpack _). vm_compute. exact I.
  - discriminate.
  - reflexivity.
Defined.

Definition demo_payload : json := JObj [("session_id", JStr "s"); ("port", JInt 22)].
Definition demo_shared_key : string := "0123456789abcdef0123456789abcdef".

Lemma envelope_round_trip_witness :
  decrypt_envelope ("tok" +:+ encode (dumps demo_payload)) demo_shared_key (demo_world empty_db)
  = (Ok (JObj [("port", JInt 22); ("session_id", JStr "s")]), advance (demo_world empty_db)).
Proof.
  apply (envelope_round_trip demo_payload demo_shared_key (demo_world empty_db) _
           (advance (drawn (demo_world empty_db)))).
  - constructor; [|repeat constructor]. apply (bool_decide_unpack _). vm_compute. exact I.
  - vm_compute. reflexivity.
  - vm_compute. split; discriminate.
Defined.

Definition demo_gateway : gateway_config := Eval vm_compute in
  match from_env {[ "PAMOLIVE_GATEWAY_SHARED_KEY" := demo_shared_key; "PAMOLIVE_RECORDING_KEY" := demo_shared_key ]} with
  | Ok config => config
  | Raise _ => GatewayConfig "" "" "" "" nan false "" ""
  end.
Definition demo_sid : id := 77.
Definition demo_connected : gateway_state := GatewayState {[str_uuid demo_sid := false]} ∅.

Definition demo_terminate : signed_request := Eval vm_compute in
  match notify_gateway_termination demo_sid (demo_world empty_db) with
  | (Ok r, _) => r
  | _ => SignedRequest "" "" [] ""
  end.

Definition no_redis (key : string) (t : Z) : option bool := None.

Lemma termination_reaches_session_witness :
  ∃ s' w3, _control no_redis demo_gateway demo_terminate demo_connected (demo_world empty_db) = (Ok (202, s'), w3) ∧
    cancellations s' = <[str_uuid demo_sid := true]> (cancellations demo_connected).
Proof.
  apply (termination_reaches_session no_redis demo_gateway demo_sid (demo_world empty_db) demo_terminate
           (drawn (advance (demo_world empty_db))) demo_connected (demo_world empty_db) false).
  - vm_compute. reflexivity.
  - reflexivity.
  - reflexivity.
  - vm_compute. reflexivity.
  - vm_compute. discriminate.
  - vm_compute. discriminate.
  - vm_compute. reflexivity.
  - intros seen Hs. change (control_request_ids demo_connected) with (∅ : gmap string Z) in Hs. rewrite lookup_empty in Hs. discriminate Hs.
Defined.

Definition demo_after_control : gateway_state := Eval vm_compute in
  match _control no_redis demo_gateway demo_terminate demo_connected (demo_world empty_db) with
  | (Ok (_, s), _) => s
  | _ => demo_connected
  end.

Lemma control_cancels_only_signed_witness :
  sr_method demo_terminate = "POST" ∧ signed_for_control demo_gateway demo_terminate demo_now.
Proof.
  destruct (control_cancels_only_signed no_redis demo_gateway demo_terminate demo_connected (demo_world empty_db)
    202 demo_after_control (advance (advance (demo_world empty_db)))) as (_ & H1 & H2 & _).
  - vm_compute. reflexivity.
  - intros E. apply (f_equal (λ m, m !! str_uuid demo_sid)) in E. vm_compute in E. discriminate E.
  - split; [exact H1|exact H2].
Defined.

Lemma command_filter_exact_witness :
  stdin_of (terminal_input demo_search ["rm -rf"] [] "ls" carriage_return).2 = [encode carriage_return].
Proof.
  destruct (command_filter_exact demo_search ["rm -rf"] [] "ls" carriage_return) as (_ & _ & H).
  - apply (bool_decide_unpack _). vm_compute. exact I.
  - reflexivity.
  - apply H. intros c Hc (p & Hp & Hm). apply list_elem_of_singleton in Hp as ->.
    apply list_elem_of_singleton in Hc as ->. vm_compute in Hm. discriminate Hm.
Defined.

Lemma input_is_recorded_first_witness :
  ∃ l, [Recorded "input" "l"] = l ++ [Recorded "input" "l"].
Proof.
  apply (input_is_recorded_first demo_search [] [] "" [input_message "l"] [Recorded "input" "l"] "l" []).
  vm_compute. reflexivity.
Defined.

Lemma denied_command_reaches_shell_witness :
  stdin_of (_forward_input demo_search ["rm -rf"] [] ""
    [input_message "rm -rf /"; input_message carriage_return; input_message carriage_return]).2
  = [encode "rm -rf /"; carriage_return].
Proof.
  apply (denied_command_reaches_shell demo_search ["rm -rf"] [] "rm -rf /").
  - apply (bool_decide_unpack _). vm_compute. exact I.
  - exists "rm -rf". split; [left|vm_compute; reflexivity].
  - reflexivity.
  - vm_compute. discriminate.
  - vm_compute. discriminate.
Defined.
End witnesses.
