(* ===== verification/GatewayApi.v ===== *)
(** * The internal API of the broker ([pamolive/api/gateway.py], [pamolive/targets/services.py])

    Four signed endpoints: [gateway_authorize] trades a session ticket for an
    encrypted credential envelope, [gateway_trust_host_key] records a first-seen SSH
    host key, [gateway_command_event] audits a filtered command, [gateway_close] ends
    the session.  An exception that a handler does not catch is a [Raise]: the server
    answers 404 or 500. *)

From S2P Require Import Prelude PyStr Json Loads Crypto PyTime Models World Text AuditTrail Rbac Ip Policies Approvals Vault Mfa Accounts Leases Sessions Broker.

Local Open Scope Z_scope.

Import SessionStatus.

Record gw_request := GwRequest { gq_http : signed_request; gq_meta : request_meta }.

Inductive gw_response :=
  | Envelope (token : string)
  | Refused403 (detail : string)
  | HostKeyStatus (status fingerprint : string)
  | EventRecorded.

(** [except (PermissionDenied, ValidationError, ValueError)] *)
Definition refused (e : exn) : bool :=
  match e with
  | PermissionDenied _ | ValidationError _ | ValueError _ | GatewayProtocolError _ => true
  | _ => false
  end.

Definition or_refuse (detail : string) (m : M gw_response) : M gw_response :=
  try_except m (λ e, if refused e then Some (mret (Refused403 detail)) else None).

(** [UUIDField.to_python] *)
Definition uuid_of_json (j : json) : outcome (option id) :=
  match j with
  | JNull => Ok None
  | JBool b => Ok (Some (if b then 1%N else 0%N))
  | JInt z => if (0 <=? z) && (z <? 2 ^ 128) then Ok (Some (Z.to_N z)) else Raise (ValidationError "uuid")
  | JStr s => match uuid_of_str s with Some k => Ok (Some k) | None => Raise (ValidationError "uuid") end
  | _ => Raise (ValidationError "uuid")
  end.

(** ** SSH host keys ([targets/services.py]) *)

Definition ALLOWED_SSH_HOST_KEY_TYPES : list string :=
  ["ecdsa-sha2-nistp256"; "ecdsa-sha2-nistp384"; "ecdsa-sha2-nistp521"; "ssh-ed25519"; "ssh-rsa"].

(** [blob.decode("ascii")] *)
Definition decode_ascii (b : bytes) : option string :=
  if forallb (λ z, z <? 128) b then Some (string_of_bytes b) else None.

Definition parse_ssh_public_key (value : string) : outcome (string * string * string) :=
  match split_ws (strip value) with
  | key_type :: encoded :: _ =>
      if negb (bool_decide (key_type ∈ ALLOWED_SSH_HOST_KEY_TYPES)) then
        Raise (ValidationError "Ce type de clé d’hôte SSH n’est pas autorisé.")
      else match b64decode (chars encoded) with
      | None => Raise (ValidationError "La clé publique SSH n’est pas encodée correctement.")
      | Some blob =>
          if (length blob <? 5)%nat then Raise (ValidationError "La clé publique SSH est incomplète.")
          else
            let algorithm_length := be_value (take 4 blob) in
            match decode_ascii (take (Z.to_nat algorithm_length) (drop 4 blob)) with
            | None => Raise (ValidationError "Le format interne de la clé SSH est invalide.")
            | Some embedded_type =>
                if bool_decide (embedded_type ≠ key_type) then
                  Raise (ValidationError "Le type déclaré ne correspond pas au contenu de la clé SSH.")
                else
                  let fingerprint := rstrip_char "=" (of_chars (b64encode (sha256 blob))) in
                  Ok (key_type, key_type +:+ " " +:+ encoded, "SHA256:" +:+ fingerprint)
            end
      end
  | _ => Raise (ValidationError "Une clé publique OpenSSH complète est requise.")
  end.

Section api.
Context {PF : Platform} {FN : Fernet}.

(** ** Authentication of the broker *)

Definition request_cache_key (request_id : string) : string := "pamolive:gateway-request:" +:+ request_id.

Definition authenticate (r : signed_request) : M unit :=
  let timestamp := header r "x-pam-timestamp" in
  let signature := header r "x-pam-signature" in
  let signature_version := header r "x-pam-signature-version" in
  let key := PAMOLIVE_GATEWAY_SHARED_KEY conf in
  if bool_decide (signature_version ∈ [""; "1"]) then
    raise_if (negb (PAMOLIVE_GATEWAY_ACCEPT_LEGACY_SIGNATURES conf))
      (PermissionDenied "Version de signature interne refusée.") ;;
    valid ← verify_request_signature key timestamp (sr_body r) signature "" "" "";
    raise_if (negb valid) (PermissionDenied "Authentification interne refusée.")
  else if bool_decide (signature_version ≠ "2") then
    raise (PermissionDenied "Version de signature interne refusée.")
  else match uuid_of_str (header r "x-pam-request-id") with
  | None => raise (PermissionDenied "Identifiant de requête interne invalide.")
  | Some k =>
      let request_id := str_uuid k in
      valid ← verify_request_signature key timestamp (sr_body r) signature (sr_method r) (sr_path r) request_id;
      raise_if (negb valid) (PermissionDenied "Authentification interne refusée.") ;;
      fresh ← cache_add (request_cache_key request_id) 60;
      raise_if (negb fresh) (PermissionDenied "Rejeu de requête interne refusé.")
  end.

Definition _authenticated_payload (r : signed_request) : M (list (string * json)) :=
  authenticate r ;;
  match json_loads (sr_body r) with
  | Some (JObj l) => mret l
  | _ => raise (ValidationError "Corps JSON invalide.")
  end.

(** [str(payload.get(key, default))] *)
Definition text_field (l : list (string * json)) (key default_ : string) : string :=
  py_str (default (JStr default_) (dict_get key l)).

(** [get_object_or_404(PrivilegedSession, pk=payload.get("session_id"))] *)
Definition session_or_404 (l : list (string * json)) : M (obj privileged_session) :=
  k ← of_outcome (uuid_of_json (default JNull (dict_get "session_id" l)));
  match k with
  | None => raise Http404
  | Some k =>
      found ← asks (λ d, sessions d !! k);
      match found with Some s => mret (Obj k s) | None => raise Http404 end
  end.

(** [payload.get("source_ip") or request_client_ip(request)]; the broker sends a
    string or nothing, other types are not modelled. *)
Definition source_ip_of (l : list (string * json)) (m : request_meta) : M (option string) :=
  match dict_get "source_ip" l with
  | Some (JStr s) => mret (if decide (s = "") then request_client_ip m else Some s)
  | Some j => if json_truthy j then raise (OtherError "source_ip type") else mret (request_client_ip m)
  | None => mret (request_client_ip m)
  end.

(** The [ticket] field; hashing anything but a string is an [AttributeError]. *)
Definition ticket_of (l : list (string * json)) : M string :=
  match dict_get "ticket" l with
  | Some (JStr s) => mret s
  | Some _ => raise (OtherError "AttributeError")
  | None => mret ""
  end.

(** ** Authorisation *)

Definition known_hosts (d : db) (target : obj target) : string :=
  let t := val target in
  let host_pattern := if t_port t =? 22 then t_hostname t
                      else "[" +:+ t_hostname t +:+ "]:" +:+ str_int (t_port t) in
  let keys := objects_filter (λ o, bool_decide (hk_target (val o) = pk target)
                                   && bool_decide (hk_revoked_at (val o) = None)) (host_keys d) in
  join "" ((λ o, host_pattern +:+ " " +:+ hk_public_key (val o) +:+ of_chars [chr 10]) <$> keys).

Definition strings (l : list string) : json := JArr (JStr <$> l).

(** [(domain.dns_name or domain.name) if domain else ""] *)
Definition domain_name (d : db) (c : credential) : string :=
  match c_domain c ≫= (λ k, domains d !! k) with
  | Some dom => if decide (do_dns_name dom = "") then do_name dom else do_dns_name dom
  | None => ""
  end.

Definition protocol_fields (session : obj privileged_session) (target : obj target) (cred : obj credential)
    : M (list (string * json)) :=
  let t := val target in
  d ← asks (λ d, d);
  match t_protocol t with
  | SSH =>
      let hosts := known_hosts d target in
      raise_if (bool_decide (hosts = "") && bool_decide (t_host_key_policy t = STRICT))
        (PermissionDenied "Aucune clé d’hôte active n’est disponible.") ;;
      policy ← get_row policies "AccessPolicy" (default 0%N (s_policy (val session)));
      mret [("known_hosts", JStr hosts); ("host_key_policy", JStr (host_key_policy_str (t_host_key_policy t)));
            ("command_deny_patterns", strings (p_command_deny_patterns (val policy)));
            ("command_alert_patterns", strings (p_command_alert_patterns (val policy)))]
  | RDP =>
      raise_if (bool_decide (c_kind (val cred) ≠ PASSWORD))
        (PermissionDenied "RDP requiert un identifiant de type mot de passe.") ;;
      policy ← get_row policies "AccessPolicy" (default 0%N (s_policy (val session)));
      mret [("domain", JStr (domain_name d (val cred))); ("rdp_security", JStr (t_rdp_security t));
            ("rdp_certificate_fingerprints", JStr (t_rdp_certificate_fingerprints t));
            ("rdp_server_layout", JStr (t_rdp_server_layout t));
            ("rdp_resize_method", JStr (t_rdp_resize_method t));
            ("allow_clipboard_copy", JBool (p_allow_clipboard_copy (val policy)));
            ("allow_clipboard_paste", JBool (p_allow_clipboard_paste (val policy)))]
  | _ => raise (PermissionDenied "Le protocole de session n'est pas pris en charge.")
  end.

Definition envelope_fields (session : obj privileged_session) (target : target) (cred : credential)
    (secret : string) (lease : id) : list (string * json) :=
  [("session_id", JStr (str_uuid (pk session))); ("pam_user_id", JStr (str_user_pk (s_user (val session))));
   ("protocol", JStr (protocol_str (t_protocol target))); ("host", JStr (t_hostname target));
   ("port", JInt (t_port target)); ("username", JStr (c_username cred));
   ("credential_kind", JStr (credential_kind_str (c_kind cred))); ("secret", JStr secret);
   ("expires_at", match s_expires_at (val session) with Some e => JStr (isoformat e) | None => JNull end);
   ("lease_id", JStr (str_uuid lease))].

(** What happens between the opening of the session and the envelope. *)
Definition credential_envelope (session : obj privileged_session) (source_ip : option string) : M string :=
  match s_credential (val session) with
  | None => raise (PermissionDenied "Aucun identifiant n’est lié à cette session.")
  | Some c =>
      cred ← get_row credentials "Credential" c;
      user ← get_row users "User" (s_user (val session));
      issued ← issue_secret_lease user cred (s_justification (val session)) SESSION 30 source_ip None;
      used ← consume_secret_lease issued.2 (Some (pk user)) (Some SESSION);
      target ← get_row targets "Target" (s_target (val session));
      extra ← protocol_fields session target cred;
      encrypt_envelope
        (JObj (envelope_fields session (val target) (val cred) used.2 (pk issued.1) ++ extra))
        (PAMOLIVE_GATEWAY_SHARED_KEY conf)
  end.

(** Everything up to [consume_session_ticket]. *)
Definition open_session (r : gw_request) : M (obj privileged_session * option string) :=
  payload ← _authenticated_payload (gq_http r);
  source_ip ← source_ip_of payload (gq_meta r);
  session ← session_or_404 payload;
  token ← ticket_of payload;
  opened ← consume_session_ticket (pk session) token (s_user (val session)) source_ip;
  mret (opened, source_ip).

Definition authorization_refused : gw_response := Refused403 "Autorisation du broker refusée.".

Definition gateway_authorize (r : gw_request) : M gw_response :=
  opened ← try_except (x ← open_session r; mret (Some x)) (λ e, if refused e then Some (mret None) else None);
  match opened with
  | None => mret authorization_refused
  | Some (session, source_ip) =>
      try_except (token ← credential_envelope session source_ip; mret (Envelope token))
        (λ e, if refused e
              then Some (close_session (pk session) None "gateway_authorization_failed" true ;;
                         mret authorization_refused)
              else None)
  end.

(** ** First-use host keys *)

Definition active_host_keys (d : db) (target : id) : list (obj target_host_key) :=
  objects_filter (λ o, bool_decide (hk_target (val o) = target) && bool_decide (hk_revoked_at (val o) = None))
    (host_keys d).

Definition host_key_resource (k : id) : resource := Resource "targets.targethostkey" (str_uuid k).

(** [TargetHostKey.objects.create(...)]: [save] parses the key; the fingerprint is
    unique per target, revoked keys included. *)
Definition create_host_key (target : id) (public_key comment : string) : M id :=
  parsed ← of_outcome (parse_ssh_public_key public_key);
  t ← now;
  k ← uuid4;
  let '(key_type, normalized, fingerprint) := parsed in
  duplicate ← asks (λ d, exists_row (λ o, bool_decide (hk_target (val o) = target)
    && bool_decide (hk_fingerprint_sha256 (val o) = fingerprint)) (host_keys d));
  raise_if duplicate (IntegrityError "unique_target_host_key_fingerprint") ;;
  insert_row host_keys k (TargetHostKey target key_type normalized fingerprint comment t None None None) ;;
  mret k.

Definition gateway_trust_host_key (r : gw_request) : M gw_response :=
  or_refuse "Host key registration denied." (
    payload ← _authenticated_payload (gq_http r);
    session ← session_or_404 payload;
    target ← get_row targets "Target" (s_target (val session));
    raise_if (bool_decide (t_protocol (val target) ≠ SSH)
              || bool_decide (t_host_key_policy (val target) ≠ TRUST_ON_FIRST_USE))
      (PermissionDenied "L’enregistrement automatique n’est pas autorisé.") ;;
    parsed ← of_outcome (parse_ssh_public_key (text_field payload "public_key" ""));
    let '(_, normalized, fingerprint) := parsed in
    atomic (
      locked_target ← get_row targets "Target" (pk target);
      active ← asks (λ d, active_host_keys d (pk locked_target));
      if existsb (λ o, bool_decide (hk_fingerprint_sha256 (val o) = fingerprint)) active
      then mret (HostKeyStatus "known" fingerprint)
      else
        raise_if (negb (bool_decide (active = [])))
          (PermissionDenied "La clé d’hôte observée diffère de la clé enregistrée.") ;;
        k ← create_host_key (pk locked_target) normalized
              "Automatically recorded on first successful connection";
        record_event (Some (s_user (val session))) "target.host_key_trusted_on_first_use" (host_key_resource k)
          [("target_id", JStr (str_uuid (pk target))); ("fingerprint", JStr fingerprint)]
          (s_client_ip (val session)) ;;
        mret (HostKeyStatus "trusted" fingerprint))).

(** ** Command reports *)

Definition gateway_command_event (r : gw_request) : M gw_response :=
  or_refuse "Rapport de commande refusé." (
    payload ← _authenticated_payload (gq_http r);
    session ← session_or_404 payload;
    let command := slice_to 2000 (text_field payload "command" "") in
    let disposition := slice_to 30 (text_field payload "disposition" "alerted") in
    let pattern := slice_to 500 (text_field payload "pattern" "") in
    raise_if (negb (bool_decide (disposition ∈ ["alerted"; "denied"])))
      (ValidationError "Disposition de commande invalide.") ;;
    target ← get_row targets "Target" (s_target (val session));
    record_event (Some (s_user (val session)))
      (if decide (disposition = "denied") then "session.command_denied" else "session.command_alerted")
      (session_resource (pk session))
      [("command_preview", JStr (slice_to 200 command)); ("command_sha256", JStr (sha256_hex command));
       ("pattern", JStr pattern); ("protocol", JStr (protocol_str (t_protocol (val target))))]
      (match s_client_ip (val session) with
       | Some ip => if decide (ip = "") then request_client_ip (gq_meta r) else Some ip
       | None => request_client_ip (gq_meta r)
       end) ;;
    mret EventRecorded).

(** ** Closing *)

(** [re.fullmatch(r"[0-9a-fA-F-]{36}\.pamrec", s)] *)
Definition is_recording_reference (s : string) : bool :=
  let l := chars s in
  (length l =? 43)%nat
  && forallb (λ c, between 48 (code c) 57 || between 97 (code c) 102 || between 65 (code c) 70
                   || (code c =? 45)) (take 36 l)
  && bool_decide (drop 36 l = chars ".pamrec").

(** [re.fullmatch(r"[0-9a-f]{64}", s)] *)
Definition is_sha256_text (s : string) : bool :=
  (String.length s =? 64)%nat && forallb is_hex_char (chars s).

Definition counter_field (l : list (string * json)) (key : string) : outcome Z :=
  match int_field l key 0 with Ok z => Ok (Z.max 0 z) | Raise e => Raise e end.

Definition seal_recording (r : gw_request) (payload : list (string * json)) (session : obj privileged_session)
    : M unit :=
  let recording_reference := slice_to 500 (text_field payload "recording_reference" "") in
  if decide (recording_reference = "") then mret tt
  else
    raise_if (negb (is_recording_reference recording_reference))
      (ValidationError "Référence d’enregistrement invalide.") ;;
    save_recording_reference (pk session) recording_reference ;;
    let recording_sha256 := text_field payload "recording_sha256" "" in
    raise_if (negb (is_sha256_text recording_sha256))
      (ValidationError "Empreinte d’enregistrement invalide.") ;;
    bytes_in ← of_outcome (counter_field payload "bytes_in");
    bytes_out ← of_outcome (counter_field payload "bytes_out");
    record_event None "session.recording_sealed" (session_resource (pk session))
      [("sha256", JStr recording_sha256); ("bytes_in", JInt bytes_in); ("bytes_out", JInt bytes_out)]
      (request_client_ip (gq_meta r)) ;;
    mret tt.

Definition gateway_close (r : gw_request) : M gw_response :=
  or_refuse "Rapport du broker refusé." (
    payload ← _authenticated_payload (gq_http r);
    session ← session_or_404 payload;
    seal_recording r payload session ;;
    close_session (pk session) None (slice_to 255 (text_field payload "reason" "gateway_closed"))
      (bool_decide (dict_get "outcome" payload = Some (JStr "failed"))) ;;
    mret EventRecorded).
End api.

(** ** What authentication establishes *)

Section authentication.
Context {PF : Platform}.

(** A signature made with the shared key, dated within 30 seconds of [t]. *)
Definition broker_signed (r : signed_request) (t : Z) : Prop :=
  ∃ issued, py_int (header r "x-pam-timestamp") = Some issued ∧ Z.abs (epoch t - issued) <= max_age ∧
    ((PAMOLIVE_GATEWAY_ACCEPT_LEGACY_SIGNATURES conf = true ∧
      header r "x-pam-signature" = request_signature (PAMOLIVE_GATEWAY_SHARED_KEY conf)
        (header r "x-pam-timestamp") (sr_body r) "" "" "") ∨
     (header r "x-pam-signature-version" = "2" ∧
      ∃ k, uuid_of_str (header r "x-pam-request-id") = Some k ∧
        header r "x-pam-signature" = request_signature (PAMOLIVE_GATEWAY_SHARED_KEY conf)
          (header r "x-pam-timestamp") (sr_body r) (sr_method r) (sr_path r) (str_uuid k))).

Lemma cache_add_inv key n w w' :
  cache_add key n w = (Ok true, w') →
  (∀ e, w_cache w !! key = Some e → e <= w_clock w) ∧ w_cache w' !! key = Some (w_clock w + seconds n).
Proof.
  unfold cache_add. destruct (w_cache w !! key) as [e|] eqn:E.
  - destruct (w_clock w <? e) eqn:Elt; intros H; simplify_eq/=. breflect. split; [intros ? [= <-]; done|].
    apply lookup_insert_eq.
  - intros H. simplify_eq/=. split; [done|]. apply lookup_insert_eq.
Qed.

Lemma authenticate_inv r w u w' :
  authenticate r w = (Ok u, w') →
  broker_signed r (w_clock w) ∧
  (header r "x-pam-signature-version" = "2" → ∃ k, uuid_of_str (header r "x-pam-request-id") = Some k ∧
     cache_add (request_cache_key (str_uuid k)) 60 (advance w) = (Ok true, w')).
Proof.
  unfold authenticate. destruct (bool_decide (header r "x-pam-signature-version" ∈ _)) eqn:Ev.
  - intros H. run_inv H. breflect. subst.
    apply verify_inv in R0 as (issued & Hi & Hage & Hsig & ->). split.
    + exists issued. split_and!; try done. left. by destruct (PAMOLIVE_GATEWAY_ACCEPT_LEGACY_SIGNATURES conf).
    + intros E2. rewrite E2 in Ev. by apply (bool_decide_unpack _) in Ev || (exfalso; set_solver).
  - destruct (bool_decide (header r "x-pam-signature-version" ≠ "2")) eqn:E2; [done|].
    apply bool_decide_eq_false, dec_stable in E2.
    destruct (uuid_of_str (header r "x-pam-request-id")) as [k|] eqn:Ek; [|done]. intros H. run_inv H.
    breflect. subst. apply verify_inv in R as (issued & Hi & Hage & Hsig & ->). split.
    + exists issued. split_and!; try done. right. split; [done|]. by exists k.
    + intros _. by exists k.
Qed.

Lemma authenticate_quiet r : quiet (authenticate r).
Proof. unfold authenticate. solve_quiet. Qed.

(** C19: A broker request cannot be replayed.  If a version-2 request passes
    authentication twice, and the cache entry of its identifier was neither evicted nor
    rewritten in between, whatever other requests did to the rest of the cache, the second
    check came at least 60 seconds after the first; and if the request was not dated in
    the future, that needs a stall of more than 29 seconds between the server's signature
    check and its replay check. *)
Theorem broker_request_not_replayed r w u w1 w2 u' w3 :
  header r "x-pam-signature-version" = "2" → authenticate r w = (Ok u, w1) →
  (∀ k, uuid_of_str (header r "x-pam-request-id") = Some k →
     w_cache w2 !! request_cache_key (str_uuid k) = w_cache w1 !! request_cache_key (str_uuid k)) →
  authenticate r w2 = (Ok u', w3) →
  seconds 60 <= w_clock (advance w2) - w_clock (advance w) ∧
  (∀ issued, time_flows w → py_int (header r "x-pam-timestamp") = Some issued → issued <= epoch (w_clock w) →
     seconds 29 < w_clock (advance w2) - w_clock w2).
Proof.
  intros Hv H1 Hcache H2. apply authenticate_inv in H1 as [S1 C1], H2 as [S2 C2].
  destruct (C1 Hv) as (k & Hk & A1), (C2 Hv) as (k' & Hk' & A2). rewrite Hk in Hk'. injection Hk' as <-.
  apply cache_add_inv in A1 as [_ A1], A2 as [A2 _].
  change (w_cache (advance w2)) with (w_cache w2) in A2. rewrite (Hcache k Hk), A1 in A2.
  specialize (A2 _ eq_refl). split; [lia|]. intros issued Hf Hi Hle.
  destruct S2 as (i2 & Hi2 & Hage & _). rewrite Hi in Hi2. injection Hi2 as <-.
  destruct (later_advance w Hf) as [Hadv _]. unfold epoch, max_age in *.
  pose proof (Z.div_mod (w_clock w) second). pose proof (Z.mod_pos_bound (w_clock w) second).
  pose proof (Z.div_mod (w_clock w2) second). pose proof (Z.mod_pos_bound (w_clock w2) second).
  unfold seconds, second in *. lia.
Qed.
End authentication.

(** ** Authorisation *)

Section authorisation.
Context {PF : Platform} {FN : Fernet}.

Lemma payload_quiet r : quiet (_authenticated_payload r).
Proof. pose proof authenticate_quiet. unfold _authenticated_payload. solve_quiet. Qed.
Lemma session_or_404_quiet l : quiet (session_or_404 l).
Proof. unfold session_or_404. solve_quiet. Qed.
Lemma source_ip_quiet l m : quiet (source_ip_of l m).
Proof. unfold source_ip_of. solve_quiet. Qed.
Lemma ticket_quiet l : quiet (ticket_of l).
Proof. unfold ticket_of. solve_quiet. Qed.
Lemma protocol_fields_quiet s t c : quiet (protocol_fields s t c).
Proof. unfold protocol_fields. solve_quiet. Qed.
Lemma encrypt_envelope_quiet j k : quiet (encrypt_envelope j k).
Proof. unfold encrypt_envelope, require_key, time_time. solve_quiet. Qed.
#[local] Hint Resolve payload_quiet session_or_404_quiet source_ip_quiet ticket_quiet
  protocol_fields_quiet encrypt_envelope_quiet : pam.

Lemma payload_inv r w l w' :
  _authenticated_payload r w = (Ok l, w') → broker_signed r (w_clock w) ∧ json_loads (sr_body r) = Some (JObj l).
Proof.
  unfold _authenticated_payload. intros H. run_inv H. apply authenticate_inv in R as [? _].
  split; [done|]. destruct (json_loads (sr_body r)) as [[]|]; try done. by prim_inv H.
Qed.

(** How a session gets opened for the broker. *)
Lemma open_session_inv r w session ip w' :
  open_session r w = (Ok (session, ip), w') →
  broker_signed (gq_http r) (w_clock w) ∧
  ∃ w1 token user, reads w w1 ∧ consume_session_ticket (pk session) token user ip w1 = (Ok session, w').
Proof.
  unfold open_session. intros H. run_inv H. pose proof (proj1 (payload_inv _ _ _ _ R)) as Hsig.
  split; [done|]. exists w3, a2, (s_user (val a1)). split.
  - repeat match goal with
      | E : ?m ?x = (Ok _, ?y) |- reads _ ?y => etrans; [|eapply (quiet_run m); [|exact E]; auto with pam]; clear E
      end. reflexivity.
  - pose proof R3 as Hc. apply consume_ticket_inv in Hc as (?&?&?&?&?&?&?&_&_&_&_&_&_&_&_&_&_&_&_&->&_). exact R3.
Qed.

Lemma open_session_undone r : undone (open_session r).
Proof.
  unfold open_session. do 4 (apply undone_bind; [auto with pam|intros]). apply undone_ret, undone_atomic.
Qed.

Lemma sessions_stable (m : gmap id privileged_session) : AuditStable (λ d, sessions d = m).
Proof. intros d d' (?&?&?&->). done. Qed.
#[local] Existing Instance sessions_stable.

Lemma get_security_policy_sessions m : preserves (λ d, sessions d = m) get_security_policy.
Proof.
  unfold get_security_policy, save_security_policy. solve_preserves. all: by apply preserves_modify.
Qed.

(** Preparing the envelope does not touch sessions, whatever its outcome. *)
Lemma envelope_keeps_sessions m session ip :
  preserves (λ d, sessions d = m) (credential_envelope session ip).
Proof.
  pose proof (get_security_policy_sessions m).
  unfold credential_envelope, issue_secret_lease, authorizing_policy_for, insert_lease, consume_secret_lease,
    new_stamps, token_urlsafe. solve_preserves.
  all: first [by apply preserves_insert | by apply preserves_save].
Qed.

(** A refused authorisation leaves no session open.  If [gateway_authorize]
    answers 403, every session that is active or terminating afterwards was already
    in the table exactly so: a session opened on the way was marked failed. *)
Theorem refused_authorisation_closes r w detail w' k s :
  gateway_authorize r w = (Ok (Refused403 detail), w') →
  sessions (w_db w') !! k = Some s → live_status (s_status s) = true →
  sessions (w_db w) !! k = Some s.
Proof.
  unfold gateway_authorize. intros H Hs Hlive. apply bind_ok_inv in H as (opened & w1 & Ho & H).
  unfold try_except in Ho. destruct ((x ← open_session r; mret (Some x)) w) as [[o|e] w0] eqn:Eo.
  - injection Ho as <- <-. apply bind_ok_inv in Eo as ([session ip] & w2 & Eo & Em). injection Em as <- <-.
    apply open_session_inv in Eo as (_ & w3 & token & user & [Hd3 _] & Hc).
    apply consume_ticket_inv in Hc as (kt&tk&s0&p&pol&st&st2&Hcons).
    destruct Hcons as (_&_&_&_&_&Hs0&_&_&_&_&_&_&Eses&_&(?&?&?&Hd)). rewrite Hd3 in Hs0, Hd.
    assert (sessions (w_db w2) = <[pk session := val session]> (sessions (w_db w))) as Hs2 by by rewrite Hd.
    unfold try_except in H.
    pose proof (envelope_keeps_sessions _ session ip w2 Hs2) as Hkeep.
    pose proof (λ t w', @bind_ok_inv _ _ (credential_envelope session ip) (λ t, mret (Envelope t)) w2 t w') as Hinv.
    destruct ((token ← credential_envelope session ip; mret (Envelope token)) w2) as [[res|e] w4] eqn:Ee.
    { destruct (Hinv _ _ eq_refl) as (? & ? & _ & Eres). injection Eres as <- <-. injection H as H. discriminate H. }
    assert (sessions (w_db w4) = <[pk session := val session]> (sessions (w_db w))) as Hs4.
    { revert Ee. unfold mbind, M_bind. destruct (credential_envelope session ip w2) as [[?|?] ?]; intros [= _ <-]; done. }
    destruct (refused e); [|done]. apply bind_ok_inv in H as (closed & w5 & Hclose & H). injection H as _ <-.
    apply close_inv in Hclose as (s5 & Hs5 & Hcase). rewrite Hs4, lookup_insert_eq in Hs5. injection Hs5 as <-.
    destruct Hcase as [(Hend & _)|(_ & _ & stamp & -> & (?&?&?&Hd5))].
    { rewrite Eses in Hend. discriminate Hend. }
    rewrite Hd5 in Hs. simpl in Hs. rewrite Hs4, insert_insert_eq in Hs.
    apply lookup_insert_Some in Hs as [[<- <-]|[_ Hs]]; [by vm_compute in Hlive|done].
  - destruct (refused e); [|done]. injection Ho as <- <-. injection H as _ <-.
    by rewrite (undone_ret _ Some (open_session_undone r) _ _ _ Eo) in Hs.
Qed.

(** An envelope is the answer of the second half of the handler. *)
Lemma authorize_envelope_inv r w token w' :
  gateway_authorize r w = (Ok (Envelope token), w') →
  ∃ w2 session ip, open_session r w = (Ok (session, ip), w2) ∧
    credential_envelope session ip w2 = (Ok token, w').
Proof.
  unfold gateway_authorize. intros H. apply bind_ok_inv in H as (opened & w1 & Ho & H).
  destruct opened as [[session ip]|]; [|done]. exists w1, session, ip. split.
  - revert Ho. unfold try_except, mbind, M_bind.
    destruct (open_session r w) as [[x|e] w0]; [by intros [= -> ->]|]. by destruct (refused e).
  - revert H. unfold try_except, mbind at 1, M_bind at 1.
    destruct (credential_envelope session ip w1) as [[x|e] w0]; [by intros [= -> ->]|].
    destruct (refused e); [|done]. intros H. apply bind_ok_inv in H as (? & ? & _ & H). discriminate H.
Qed.

Lemma credential_envelope_later session ip w token w' :
  credential_envelope session ip w = (Ok token, w') → later w w'.
Proof.
  intros H. eapply flows_run; [|exact H]. unfold credential_envelope, issue_secret_lease, authorizing_policy_for,
    get_security_policy, save_security_policy, insert_lease, consume_secret_lease, new_stamps, token_urlsafe.
  solve_flows.
Qed.

(** How an envelope came about: the authority, the secret and the sealed text. *)
Lemma credential_envelope_inv session ip w token w' :
  credential_envelope session ip w = (Ok token, w') →
  ∃ c cred p t secret fields n t',
    s_credential (val session) = Some c ∧ credentials (w_db w) !! c = Some cred ∧
    grants (w_db w) (s_user (val session)) p START_SESSION t ip ∧ covers (w_db w) (val p) (Obj c cred) ∧
    instant w w' None t ∧ p_requires_mfa (val p) = false ∧
    (decrypt (c_encrypted_secret cred) (c_secret_key_id cred) w).1 = Ok secret ∧
    ("secret", JStr secret) ∈ fields ∧ ("session_id", JStr (str_uuid (pk session))) ∈ fields ∧
    token = fernet_encrypt (PAMOLIVE_GATEWAY_SHARED_KEY conf) n t' (encode (dumps (JObj fields))).
Proof.
  unfold credential_envelope. destruct (s_credential (val session)) as [c|]; [|done]. intros H. run_inv H.
  destruct a1 as [lease tok], a2 as [lease' secret]. cbn [fst snd] in *.
  apply encrypt_envelope_inv in H as (_ & n & -> & [_ Hl6]).
  pose proof (quiet_run _ _ _ _ (protocol_fields_quiet _ _ _) R4) as [_ Hl5].
  assert (flows (consume_secret_lease tok (Some (pk a0)) (Some SESSION))) as Hfl
    by (unfold consume_secret_lease; solve_flows).
  pose proof (flows_run _ _ _ _ Hfl R2) as Hl4.
  apply issue_ok_inv in R1 as (j & p & ar & w1' & ti & st & sp & _ & _ & _ & _ & Hauth & Hl3 & _ & Hlease & _ & Huniq & (?&?&?&Hd)).
  apply consume_ok_inv in R2 as (l & c0 & stamp & c' & Hlk & Hh & _ & _ & _ & _ & Hcred & Hdec & _).
  apply authorizing_policy_ok in Hauth as (Hl2 & _ & (t & Ht & Hg) & Hcov & Hcond).
  assert (l = val lease) as ->.
  { rewrite Hd in Hlk. simpl in Hlk. apply lookup_insert_Some in Hlk as [[_ <-]|[_ Hlk]]; [done|].
    exfalso. by apply (Huniq (Obj (pk lease') l) Hlk). }
  rewrite Hd, Hlease in Hcred. simpl in Hcred. rewrite Epk, R in Hcred. injection Hcred as <-.
  exists c, (val a), p, t, secret. do 3 eexists. rewrite Epk0 in *.
  split; [done|]. split; [done|]. split; [exact Hg|].
  split; [by destruct a; simpl in *; subst|].
  split; [eapply instant_weaken; [reflexivity| |exact Hl2|exact Ht]; by do 3 (etrans; [eassumption|])|].
  split.
  { destruct (p_requires_mfa (val p)) eqn:Em; [|done]. destruct Hcond as (_ & _ & _ & Hmfa).
    by destruct (Hmfa Em) as (_ & j0 & v & t0 & _ & Hnone & _). }
  split; [by rewrite (decrypt_indep _ _ w w0)|].
  split; [|split; [|reflexivity]]; apply elem_of_app; left.
  - do 7 right. left.
  - left.
Qed.

(** C1: A credential leaves the vault only under authority.  If [gateway_authorize]
    answers with an envelope, the request was signed with the shared key, the named
    session was waiting to be opened and is now active, and some policy that does not
    ask for MFA granted [start_session] on the session's account to the session's
    user; the envelope is the encryption of a payload that names that session and
    carries that account's secret. *)
Theorem envelope_released_under_authority r w token w' :
  gateway_authorize r w = (Ok (Envelope token), w') →
  broker_signed (gq_http r) (w_clock w) ∧
  ∃ sid s s' c cred p t ip secret fields n t',
    sessions (w_db w) !! sid = Some s ∧ s_status s = CREATED ∧
    sessions (w_db w') !! sid = Some s' ∧ s_status s' = ACTIVE ∧
    s_credential s = Some c ∧ credentials (w_db w) !! c = Some cred ∧
    grants (w_db w) (s_user s) p START_SESSION t ip ∧ covers (w_db w) (val p) (Obj c cred) ∧
    instant w w' None t ∧ p_requires_mfa (val p) = false ∧
    (decrypt (c_encrypted_secret cred) (c_secret_key_id cred) w).1 = Ok secret ∧
    ("secret", JStr secret) ∈ fields ∧ ("session_id", JStr (str_uuid sid)) ∈ fields ∧
    token = fernet_encrypt (PAMOLIVE_GATEWAY_SHARED_KEY conf) n t' (encode (dumps (JObj fields))).
Proof.
  intros (w2 & session & ip & Hopen & Henv)%authorize_envelope_inv.
  pose proof (envelope_keeps_sessions _ session ip w2 eq_refl) as Hkeep. rewrite Henv in Hkeep. simpl in Hkeep.
  assert (later w2 w') as Hl2 by (apply credential_envelope_later in Henv; exact Henv).
  apply credential_envelope_inv in Henv as (c & cred & p & t & secret & fields & n & t' & Hc & Hcred & Hg & Hcov
    & Ht & Hmfa & Hdec & Hsec & Hsid & ->).
  apply open_session_inv in Hopen as (Hsig & w3 & tok & user & [Hd3 Hl3] & Hcons). split; [done|].
  apply consume_ticket_inv in Hcons as (kt & tk & s0 & pp & pol & st & st2 & Hcons).
  destruct Hcons as (_&_&_&_&_&Hs0&_&Hst&_&_&_&_&Eses&Hl4&(?&?&?&Hd)). rewrite Hd3 in Hs0, Hd.
  exists (pk session), s0, (val session), c, cred, p, t, ip, secret, fields, n, t'.
  assert (sessions (w_db w2) !! pk session = Some (val session)) as Hs2 by (rewrite Hd; apply lookup_insert_eq).
  rewrite Hkeep. rewrite Hd in Hcred, Hg, Hcov. rewrite Eses in Hc, Hg |- *.
  split; [done|]. split; [done|]. split; [by rewrite <- Eses|]. split; [done|]. split; [exact Hc|].
  split; [exact Hcred|]. split; [exact Hg|]. split; [exact Hcov|].
  split; [eapply instant_weaken; [|reflexivity|exact Hl2|exact Ht]; by etrans|].
  split; [done|]. split; [by rewrite (decrypt_indep _ _ w w2)|]. done.
Qed.

(** Policies that ask for MFA never release a brokered credential.  The broker
    endpoint has no MFA evidence to present, so when every policy with
    [start_session] requires MFA, [gateway_authorize] never answers with an
    envelope, even for a ticket that was issued after a fresh verification. *)
Theorem mfa_policies_block_broker r w :
  (∀ k p, policies (w_db w) !! k = Some p → START_SESSION ∈ p_actions p → p_requires_mfa p = true) →
  ∀ token, (gateway_authorize r w).1 ≠ Ok (Envelope token).
Proof.
  intros Hall token E. destruct (gateway_authorize r w) as [res w'] eqn:Erun. simpl in E. subst res.
  apply authorize_envelope_inv in Erun as (w2 & session & ip & Hopen & Henv).
  apply credential_envelope_inv in Henv as (c & cred & p & t & secret & fields & n & t' & _ & _ & Hg & _ & _ & Hmfa & _).
  apply open_session_inv in Hopen as (_ & w3 & tok & user & [Hd3 _] & Hcons).
  apply consume_ticket_inv in Hcons as (kt & tk & s0 & pp & pol & st & st2 & Hcons).
  destruct Hcons as (_&_&_&_&_&_&_&_&_&_&_&_&_&_&(?&?&?&Hd)). rewrite Hd3 in Hd. rewrite Hd in Hg.
  destruct Hg as ((Hp & _) & Hact & _). rewrite (Hall _ _ Hp Hact) in Hmfa. discriminate Hmfa.
Qed.
End authorisation.

(** ** Host keys *)

Section host_keys.

Definition blank_free (l : list ascii) : Prop := Forall (λ c, isspace_char c = false) l.

Lemma split_char_pieces c l w : w ∈ split_char c l → (c ∉ w) ∧ (∀ x, x ∈ w → x ∈ l).
Proof. intros (a & b & -> & Hc & _)%split_char_piece. split; [done|]. intros x Hx. set_solver. Qed.

(** The words of a text are not empty and hold no blank. *)
Lemma split_ws_words s w : w ∈ split_ws s → w ≠ "" ∧ blank_free (chars w).
Proof.
  unfold split_ws. intros (l & -> & Hl)%list_elem_of_fmap. apply list_elem_of_filter in Hl as [Hne Hl].
  apply split_char_pieces in Hl as [Hsep Hin]. rewrite chars_of_chars. split.
  - intros E. apply Hne. by destruct l.
  - apply Forall_forall. intros c Hc. destruct (isspace_char c) eqn:Es; [|done]. exfalso.
    pose proof (Hin _ Hc) as (d & Hd & _)%list_elem_of_fmap.
    destruct (isspace_char d) eqn:Ed; [|congruence]. by rewrite Hd in Hc.
Qed.

Lemma split_char_two c a b : c ∉ a → c ∉ b → split_char c (a ++ c :: b) = [a; b].
Proof.
  intros Ha Hb. induction a as [|x a IH]; simpl.
  - rewrite bool_decide_true by done. by rewrite split_char_free.
  - rewrite not_elem_of_cons in Ha. rewrite bool_decide_false by (destruct Ha; congruence).
    by rewrite IH by tauto.
Qed.

Lemma strip_chars_ends (f : ascii → bool) x m y :
  f x = false → f y = false → strip_chars f (x :: m ++ [y]) = x :: m ++ [y].
Proof.
  intros Hx Hy. unfold strip_chars. rewrite drop_while_head by done.
  change (x :: m ++ [y]) with ((x :: m) ++ [y]). rewrite rev_app_distr.
  change (rev [y] ++ rev (x :: m)) with (y :: rev (x :: m)). rewrite drop_while_head by done.
  change (rev (y :: rev (x :: m))) with (rev (rev (x :: m)) ++ [y]). by rewrite rev_involutive.
Qed.

(** Two words joined by one blank split back into the two words. *)
Lemma split_ws_two a b :
  a ≠ "" → b ≠ "" → blank_free (chars a) → blank_free (chars b) →
  split_ws (strip (a +:+ " " +:+ b)) = [a; b].
Proof.
  intros Ha Hb Fa Fb.
  assert (strip (a +:+ " " +:+ b) = a +:+ " " +:+ b) as ->.
  { unfold strip. rewrite !chars_app. destruct (chars a) as [|x la] eqn:Ea; [by destruct a|].
    inversion Fa as [|? ? Hx Fa']; subst.
    destruct (chars b) as [|y lb _] eqn:Eb using rev_ind; [by destruct b|].
    apply Forall_app in Fb as [_ Fb]. inversion Fb as [|? ? Hy _]; subst.
    rewrite <- (of_chars_chars (a +:+ " " +:+ b)), !chars_app, Ea, Eb. f_equal.
    change ((x :: la) ++ chars " " ++ lb ++ [y]) with (x :: (la ++ chars " " ++ lb ++ [y])).
    rewrite !app_assoc. by apply strip_chars_ends. }
  unfold split_ws. rewrite !chars_app.
  assert (∀ l, blank_free l → ((λ c, if isspace_char c then " "%char else c) <$> l) = l) as Hid.
  { intros l. induction 1 as [|c l Hc Hl IH]; [done|]. rewrite fmap_cons, Hc. by rewrite IH. }
  rewrite !fmap_app, (Hid _ Fa), (Hid _ Fb). change ((λ c, if isspace_char c then " "%char else c) <$> chars " ") with [" "%char].
  assert (∀ l, blank_free l → " "%char ∉ l) as Hsp.
  { intros l Hl Hin. unfold blank_free in Hl. rewrite Forall_forall in Hl. by apply Hl in Hin. }
  cbn [app]. rewrite split_char_two by auto.
  rewrite filter_cons_True by (intros E; by apply Ha, chars_inj).
  rewrite filter_cons_True by (intros E; by apply Hb, chars_inj). cbn. by rewrite !of_chars_chars.
Qed.

Lemma parse_normalized value key_type normalized fingerprint :
  parse_ssh_public_key value = Ok (key_type, normalized, fingerprint) →
  parse_ssh_public_key normalized = Ok (key_type, normalized, fingerprint).
Proof.
  unfold parse_ssh_public_key at 1. intros H.
  destruct (split_ws (strip value)) as [|kt [|enc rest]] eqn:Es; [done..|].
  assert (kt ≠ "" ∧ blank_free (chars kt)) as [Hkt Fkt] by (apply (split_ws_words (strip value)); rewrite Es; left).
  assert (enc ≠ "" ∧ blank_free (chars enc)) as [Henc Fenc] by (apply (split_ws_words (strip value)); rewrite Es; right; left).
  assert (normalized = kt +:+ " " +:+ enc) as -> by (repeat (case_match; try done); by simplify_eq).
  unfold parse_ssh_public_key. rewrite split_ws_two by done. exact H.
Qed.

(** Normalising a host key is stable.  Parsing the normalised form of an accepted
    public key gives the same type, text and fingerprint, so that saving an already
    normalised key changes nothing. *)
Theorem parse_ssh_public_key_idempotent value key_type normalized fingerprint :
  parse_ssh_public_key value = Ok (key_type, normalized, fingerprint) →
  parse_ssh_public_key normalized = Ok (key_type, normalized, fingerprint).
Proof. apply parse_normalized. Qed.
End host_keys.

Section first_use.
Context {PF : Platform}.

(** A created host key carries what its text parses to. *)
Lemma create_host_key_inv target text comment w k w' :
  create_host_key target text comment w = (Ok k, w') →
  ∃ hk, host_keys (w_db w) !! k = None ∧ hk_target hk = target ∧ hk_revoked_at hk = None ∧
    parse_ssh_public_key text = Ok (hk_key_type hk, hk_public_key hk, hk_fingerprint_sha256 hk) ∧
    w_db w' = w_db w <| host_keys ::= <[k := hk]> |>.
Proof.
  unfold create_host_key. intros H. apply bind_ok_inv in H as ([[kt n] f] & w1 & Hp & H). prim_inv Hp.
  run_inv H. exists (TargetHostKey target kt n f comment (w_clock w) None None None). split; [exact Enew|]. split; [reflexivity|]. split; [reflexivity|]. split; [exact Hp|]. reflexivity.
Qed.

(** Trust on first use happens once.  When [gateway_trust_host_key] answers, the
    request was signed; the stored keys are unchanged unless the answer is "trusted",
    and then exactly one key was added, for an SSH target under the first-use policy
    that had no active key, and it is active under the answered fingerprint.  An
    observed key that differs from an active one is never recorded. *)
Theorem host_key_trusted_once r w resp w' :
  gateway_trust_host_key r w = (Ok resp, w') →
  (host_keys (w_db w') = host_keys (w_db w) ∧ ∀ f, resp ≠ HostKeyStatus "trusted" f) ∨
  (broker_signed (gq_http r) (w_clock w) ∧ ∃ k hk t,
     host_keys (w_db w) !! k = None ∧ host_keys (w_db w') = <[k := hk]> (host_keys (w_db w)) ∧
     targets (w_db w) !! hk_target hk = Some t ∧ t_protocol t = SSH ∧ t_host_key_policy t = TRUST_ON_FIRST_USE ∧
     active_host_keys (w_db w) (hk_target hk) = [] ∧ hk_revoked_at hk = None ∧
     resp = HostKeyStatus "trusted" (hk_fingerprint_sha256 hk)).
Proof.
  unfold gateway_trust_host_key, or_refuse, try_except.
  set (body := _ ≫= _). intros H. destruct (body w) as [[x|e] w0] eqn:E.
  2:{ destruct (refused e); [|done]. injection H as <- <-. left. split; [|done].
      enough (undone body) as Hu by (by rewrite (Hu _ _ _ E)).
      pose proof payload_quiet. pose proof session_or_404_quiet. unfold body.
      do 5 (apply undone_bind; [auto with pam|intros]). destruct a3 as [[? ?] ?]. apply undone_atomic. }
  injection H as -> ->. subst body.
  apply bind_ok_inv in E as (payload & w1 & Hpay & E).
  pose proof (quiet_run _ _ _ _ (payload_quiet _) Hpay) as [Hd1 _]. apply payload_inv in Hpay as [Hsig _].
  apply bind_ok_inv in E as (session & w2 & Hses & E).
  pose proof (quiet_run _ _ _ _ (session_or_404_quiet _) Hses) as [Hd2 _].
  apply bind_ok_inv in E as (target & w3 & Htg & E). prim_inv Htg.
  apply bind_ok_inv in E as (? & w4 & Hpol & E). prim_inv Hpol.
  apply bind_ok_inv in E as ([[kt normalized] fingerprint] & w5 & Hparse & E). prim_inv Hparse.
  run_inv E. rewrite Hd2, Hd1, Epk in *.
  destruct (existsb _ _) eqn:Eknown.
  { prim_inv E. left. by split; [congruence|]. }
  run_inv E. breflect. right. split; [done|].
  apply create_host_key_inv in R1 as (hk & Hnew & Htgt & Hrev & Hfp & Hd6).
  apply record_event_frame in R2 as (?&?&?&Hd7). rewrite Hd6, Hd2 in Hd7. rewrite Hd2 in Hnew.
  rewrite (parse_normalized _ _ _ _ Hparse) in Hfp. injection Hfp as _ _ Efp.
  exists a1, hk, (val target). rewrite Htgt, Hd7, Epk0, <- Efp. rewrite Epk0 in R0.
  split_and!; try done; by apply dec_stable.
Qed.
End first_use.

(** ** Concrete runs *)

Section witnesses.
#[local] Existing Instances demo_platform demo_fernet.

Definition demo_meta_local : request_meta := RequestMeta None (Some "203.0.113.1").

Definition demo_gateway_request (path : string) (payload : json) (w : world) : gw_request :=
  match _post (PAMOLIVE_GATEWAY_SHARED_KEY conf) path payload w with
  | (Ok r, _) => GwRequest r demo_meta_local
  | _ => GwRequest (SignedRequest "" "" [] "") demo_meta_local
  end.

Definition demo_authorize : gw_request := Eval vm_compute in
  demo_gateway_request "/api/internal/gateway/authorize/"
    (JObj [("session_id", JStr (str_uuid (pk demo_session))); ("ticket", JStr "token-1");
           ("source_ip", JStr "192.0.2.9")]) demo_ticketed.

Definition demo_wrong_ticket : gw_request := Eval vm_compute in
  demo_gateway_request "/api/internal/gateway/authorize/"
    (JObj [("session_id", JStr (str_uuid (pk demo_session))); ("ticket", JStr "guess");
           ("source_ip", JStr "192.0.2.9")]) demo_ticketed.

Definition demo_authorized : world := Eval vm_compute in (gateway_authorize demo_authorize demo_ticketed).2.
Definition demo_envelope : string := Eval vm_compute in
  match (gateway_authorize demo_authorize demo_ticketed).1 with Ok (Envelope t) => t | _ => "" end.

Lemma envelope_released_under_authority_witness :
  broker_signed (gq_http demo_authorize) (w_clock demo_ticketed).
Proof.
  destruct (envelope_released_under_authority demo_authorize demo_ticketed demo_envelope demo_authorized) as [H _].
  - vm_compute. reflexivity.
  - exact H.
Defined.

Definition demo_refused : world := Eval vm_compute in (gateway_authorize demo_wrong_ticket demo_authorized).2.

Lemma refused_authorisation_closes_witness :
  sessions (w_db demo_authorized) !! pk demo_session = Some (val demo_live).
Proof.
  apply (refused_authorisation_closes demo_wrong_ticket demo_authorized
           "Autorisation du broker refusée." demo_refused (pk demo_session) (val demo_live)).
  - vm_compute. reflexivity.
  - vm_compute. reflexivity.
  - reflexivity.
Defined.

Definition demo_mfa_everywhere : world := Eval vm_compute in
  with_db (w_db demo_ticketed <| policies := {[40%N := demo_policy <| p_requires_mfa := true |>]} |>) demo_ticketed.

Lemma mfa_policies_block_broker_witness :
  (gateway_authorize demo_authorize demo_mfa_everywhere).1 ≠ Ok (Envelope demo_envelope).
Proof.
  apply (mfa_policies_block_broker demo_authorize demo_mfa_everywhere).
  assert (policies (w_db demo_mfa_everywhere) = {[40%N := demo_policy <| p_requires_mfa := true |>]})
    as -> by (vm_compute; reflexivity).
  intros k p [_ <-]%lookup_singleton_Some _. reflexivity.
Defined.

(** A request dated 30 seconds ahead of the server, first seen now. *)
Definition demo_future : signed_request := Eval vm_compute in
  gq_http (demo_gateway_request "/api/internal/gateway/close/" (JObj [])
             (World empty_db (demo_now + seconds 30) [] 0 ∅)).

Definition demo_first_seen : world := Eval vm_compute in (authenticate demo_future (demo_world empty_db)).2.
Definition demo_second_seen : world := Eval vm_compute in
  World empty_db (demo_now + seconds 60) [] 0 (w_cache demo_first_seen).

Lemma broker_request_not_replayed_witness :
  seconds 60 <= w_clock (advance demo_second_seen) - w_clock (advance (demo_world empty_db)).
Proof.
  destruct (broker_request_not_replayed demo_future (demo_world empty_db) tt demo_first_seen demo_second_seen tt
    (authenticate demo_future demo_second_seen).2) as [H _].
  - reflexivity.
  - vm_compute. reflexivity.
  - intros k _. reflexivity.
  - vm_compute. reflexivity.
  - exact H.
Defined.

Definition demo_host_key : string :=
  "ssh-ed25519 AAAAC3NzaC1lZDI1NTE5AAAAIAABAgMEBQYHCAkKCwwNDg8QERITFBUWFxgZGhscHR4f".

Lemma parse_ssh_public_key_idempotent_witness :
  ∃ f, parse_ssh_public_key demo_host_key = Ok ("ssh-ed25519", demo_host_key, f).
Proof.
  eexists. apply (parse_ssh_public_key_idempotent (" " +:+ demo_host_key +:+ "  root@srv")).
  vm_compute. reflexivity.
Defined.

Definition demo_trust : gw_request := Eval vm_compute in
  demo_gateway_request "/api/internal/gateway/trust-host-key/"
    (JObj [("session_id", JStr (str_uuid (pk demo_session))); ("public_key", JStr demo_host_key)]) demo_authorized.
Definition demo_trusted : world := Eval vm_compute in (gateway_trust_host_key demo_trust demo_authorized).2.
Definition demo_trust_answer : gw_response := Eval vm_compute in
  match (gateway_trust_host_key demo_trust demo_authorized).1 with Ok a => a | _ => EventRecorded end.

Lemma host_key_trusted_once_witness :
  (host_keys (w_db demo_trusted) = host_keys (w_db demo_authorized) ∧
     ∀ f, demo_trust_answer ≠ HostKeyStatus "trusted" f) ∨
  (broker_signed (gq_http demo_trust) (w_clock demo_authorized) ∧ ∃ k hk t,
     host_keys (w_db demo_authorized) !! k = None ∧
     host_keys (w_db demo_trusted) = <[k := hk]> (host_keys (w_db demo_authorized)) ∧
     targets (w_db demo_authorized) !! hk_target hk = Some t ∧ t_protocol t = SSH ∧
     t_host_key_policy t = TRUST_ON_FIRST_USE ∧
     active_host_keys (w_db demo_authorized) (hk_target hk) = [] ∧ hk_revoked_at hk = None ∧
     demo_trust_answer = HostKeyStatus "trusted" (hk_fingerprint_sha256 hk)).
Proof.
  apply (host_key_trusted_once demo_trust demo_authorized demo_trust_answer demo_trusted).
  vm_compute. reflexivity.
Defined.

(** The reference of a recording is stored even when the report is refused for its
    missing digest. *)
Definition demo_bad_close : gw_request := Eval vm_compute in
  demo_gateway_request "/api/internal/gateway/close/"
    (JObj [("session_id", JStr (str_uuid (pk demo_session)));
           ("recording_reference", JStr (str_uuid (pk demo_session) +:+ ".pamrec"))]) demo_authorized.

Example refused_close_keeps_reference :
  let run := gateway_close demo_bad_close demo_authorized in
  run.1 = Ok (Refused403 "Rapport du broker refusé.") ∧
  s_recording_reference <$> sessions (w_db run.2) !! pk demo_session
  = Some (str_uuid (pk demo_session) +:+ ".pamrec").
Proof. vm_compute. split; reflexivity. Qed.
End witnesses.
