(* ===== verification/Rotation.v ===== *)
(** * Secret rotation ([pamolive/operations/services.py], [tasks.py])

    A rotation replaces the secret of an account on its target and in the vault.
    [queue_rotation] creates a job, at most one active job per account;
    [execute_rotation] runs it in three parts: a transaction that stores the
    encrypted candidate, the call of the rotation backend (outside any
    transaction), and a transaction that installs the candidate or records the
    failure.  [schedule_due_rotations] queues the accounts whose rotation is due.

    The backends are provided by deployments: they are parameters.  A backend's
    [rotate] is an arbitrary computation on the world, so that everything other
    processes do to the database while the backend works is covered. *)

From S2P Require Import Prelude PyStr Json Crypto PyTime Models World AuditTrail Vault.

Local Open Scope Z_scope.

Import JobStatus.

Section rotation.
Context {PF : Platform}.

(** ** Backends *)

(** An instance of a backend class.  [generate_secret] is optional; it draws from
    the random source and may return something that is not a string ([None]). *)
Record rotation_backend := RotationBackend {
  has_rotate : bool;
  generate_secret : option (nat → obj credential → outcome (option string));
  rotate : obj credential → string → string → M unit;
}.

(** [_backend_instances], [settings.PAMOLIVE_ROTATION_BACKENDS] and what
    [import_string(path)()] yields ([None]: it raises one of the caught errors). *)
Record backend_registry := BackendRegistry {
  _backend_instances : gmap string rotation_backend;
  PAMOLIVE_ROTATION_BACKENDS : gmap string string;
  import_backend : string → option rotation_backend;
}.
#[global] Instance backend_registry_settable : Settable backend_registry := λ r,
  BackendRegistry (_backend_instances r) (PAMOLIVE_ROTATION_BACKENDS r) (import_backend r).

Definition register_rotation_backend (reg : backend_registry) (name : string) (b : rotation_backend)
    : outcome backend_registry :=
  if bool_decide (name = "") || negb (has_rotate b)
  then Raise (ValueError "A rotation backend needs a name and a rotate method")
  else Ok (reg <| _backend_instances ::= <[name := b]> |>).

Definition clear_rotation_backends (reg : backend_registry) : backend_registry :=
  reg <| _backend_instances := ∅ |>.

(** The backend, and the registry with the new instance cached. *)
Definition get_rotation_backend (reg : backend_registry) (name : string)
    : outcome rotation_backend * backend_registry :=
  match _backend_instances reg !! name with
  | Some b => (Ok b, reg)
  | None =>
      match PAMOLIVE_ROTATION_BACKENDS reg !! name with
      | None | Some "" =>
          (Raise (RotationBackendError "backend_not_configured"
             "Aucun fournisseur de rotation n’est configuré pour cet identifiant."), reg)
      | Some dotted_path =>
          match import_backend reg dotted_path with
          | None => (Raise (RotationBackendError "backend_invalid"
                       "Le fournisseur de rotation configuré est indisponible."), reg)
          | Some b =>
              if negb (has_rotate b)
              then (Raise (RotationBackendError "backend_invalid"
                      "Le fournisseur de rotation ne respecte pas le contrat requis."), reg)
              else (Ok b, reg <| _backend_instances ::= <[name := b]> |>)
          end
      end
  end.

Definition candidate_invalid (candidate : option string) : bool :=
  match candidate with
  | None => true
  | Some s => bool_decide (s = "") || (65536 <? len (encode s))
  end.

Definition _candidate_secret (b : rotation_backend) (cred : obj credential) : M string :=
  candidate ← match generate_secret b with
              | Some generator => n ← draw (λ i, i); of_outcome (generator n cred)
              | None =>
                  if decide (c_kind (val cred) = PASSWORD)
                  then token ← token_urlsafe 32; mret (Some token)
                  else raise (RotationBackendError "secret_generation_unsupported"
                    "Ce type de secret exige un générateur fourni par le connecteur de rotation.")
              end;
  raise_if (candidate_invalid candidate)
    (RotationBackendError "candidate_secret_invalid" "Le fournisseur a produit un secret invalide.") ;;
  mret (default "" candidate).

(** ** The account's rotation settings ([vault/models.py]) *)

Definition enabled_rotation_policy (d : db) (c : credential) : option secret_rotation_policy :=
  p ← c_rotation_policy c;
  pol ← rotation_policies d !! p;
  if srp_enabled pol then Some pol else None.

Definition effective_rotation_interval_days (d : db) (c : credential) : option Z :=
  match enabled_rotation_policy d c with
  | Some pol => Some (srp_interval_days pol)
  | None => c_rotation_interval_days c
  end.

Definition effective_rotation_backend (d : db) (c : credential) : string :=
  match enabled_rotation_policy d c with
  | Some pol => srp_connector_key pol
  | None => c_rotation_backend c
  end.

Definition automatic_rotation_enabled (d : db) (c : credential) : bool :=
  bool_decide (is_Some (enabled_rotation_policy d c)) || c_rotation_enabled c.

(** A number of days that is neither missing nor zero. *)
Definition truthy_days (days : option Z) : bool :=
  match days with Some n => negb (n =? 0) | None => false end.

(** ** Queueing *)

(** [status__in=(PENDING, RUNNING)] *)
Definition active_job (s : JobStatus.t) : bool := bool_decide (s = PENDING) || bool_decide (s = RUNNING).

Definition active_for (cred : id) (o : obj rotation_job) : bool :=
  bool_decide (j_credential (val o) = cred) && active_job (j_status (val o)).

(** [INSERT] under the constraint [unique_active_rotation_per_credential]. *)
Definition insert_job (k : id) (job : rotation_job) : M unit :=
  duplicate ← asks (λ d, active_job (j_status job) && exists_row (active_for (j_credential job)) (rotation_jobs d));
  raise_if duplicate (IntegrityError "unique_active_rotation_per_credential") ;;
  insert_row rotation_jobs k job.

Definition job_resource (k : id) : resource := Resource "operations.rotationjob" (str_uuid k).

Definition queue_rotation (cred : id) (requested_by : option id) (reason : string)
    (scheduled_for : option Z) : M (obj rotation_job * bool) :=
  atomic (
    locked ← get_row credentials "Credential" cred;
    existing ← asks (λ d, List.find (active_for (pk locked)) (rows (rotation_jobs d)));
    match existing with
    | Some job => mret (job, false)
    | None =>
        d ← asks (λ d, d);
        let backend := effective_rotation_backend d (val locked) in
        scheduled ← match scheduled_for with Some t => mret t | None => now end;
        k ← uuid4;
        st ← new_stamps;
        let job := RotationJob (pk locked) requested_by (slice_to 250 reason) backend PENDING scheduled
                     None None (c_key_version (val locked)) None "" active_key_id "" "" st in
        insert_job k job ;;
        record_event requested_by "credential.rotation_queued" (job_resource k)
          [("credential_id", JStr (str_uuid (pk locked)));
           ("backend", JStr (if decide (backend = "") then "unconfigured" else backend));
           ("scheduled_for", JStr (isoformat scheduled))] None ;;
        mret (Obj k job, true)
    end).

(** ** Failure *)

(** [min(24, 2 ** min(failures, 5))] *)
Definition retry_hours (failures : Z) : Z := Z.min 24 (2 ^ Z.min failures 5).

Definition finish_job (status : JobStatus.t) (code message : string) (t stamp : Z) (j : rotation_job)
    : rotation_job :=
  j <| j_status := status |> <| j_completed_at := Some t |> <| j_error_code := slice_to 80 code |>
    <| j_error_message := slice_to 250 message |> <| j_stamps ::= touch stamp |>.

Definition failed_credential (status : JobStatus.t) (t : Z) (c : credential) : credential :=
  if decide (status = FAILED) then
    let failures := c_rotation_failure_count c + 1 in
    c <| c_last_rotation_status := RotationStatus.FAILED |> <| c_rotation_failure_count := failures |>
      <| c_next_rotation_at := Some (t + hours (retry_hours failures)) |>
  else
    c <| c_last_rotation_status := RotationStatus.BLOCKED |> <| c_next_rotation_at := Some (t + hours 24) |>.

Definition _finish_without_rotation (job_id : id) (status : JobStatus.t) (code message : string)
    : M (obj rotation_job) :=
  atomic (
    job ← get_row rotation_jobs "RotationJob" job_id;
    cred ← get_row credentials "Credential" (j_credential (val job));
    if negb (active_job (j_status (val job))) then mret job
    else
      t ← now;
      stamp ← now;
      save_fields rotation_jobs (pk job) (finish_job status code message t stamp) ;;
      stamp2 ← now;
      save_fields credentials (pk cred) (λ c, failed_credential status t c <| c_stamps ::= touch stamp2 |>) ;;
      record_event (j_requested_by (val job))
        (if decide (status = FAILED) then "credential.rotation_failed" else "credential.rotation_action_required")
        (job_resource (pk job))
        [("credential_id", JStr (str_uuid (pk cred))); ("error_code", JStr code)] None ;;
      mret (Obj (pk job) (finish_job status code message t stamp (val job)))).

(** ** Execution *)

(** [try: m except ...]: the outcome as a value. *)
Definition attempt {A} (m : M A) : M (outcome A) := λ w, let '(r, w') := m w in (Ok r, w').

(** The codes that need an administrator rather than a retry. *)
Definition action_required (code : string) : bool :=
  bool_decide (code ∈ ["backend_not_configured"; "backend_invalid"; "secret_generation_unsupported"]).

(** The body of the [try] of the first transaction. *)
Definition prepare_secrets (reg : backend_registry) (job : rotation_job) (cred : obj credential)
    : M (rotation_backend * string * string) :=
  backend ← of_outcome (get_rotation_backend reg (j_backend job)).1;
  current_secret ← decrypt (c_encrypted_secret (val cred)) (c_secret_key_id (val cred));
  candidate ← _candidate_secret backend cred;
  match compare_digest candidate current_secret with
  | None => raise (TypeError "comparing strings with non-ASCII characters is not supported")
  | Some true => raise (RotationBackendError "secret_unchanged"
                   "Le nouveau secret doit être différent du secret actuel.")
  | Some false => mret (backend, current_secret, candidate)
  end.

Definition start_job (t : Z) (ciphertext : string) (stamp : Z) (j : rotation_job) : rotation_job :=
  j <| j_status := RUNNING |> <| j_started_at := Some t |> <| j_encrypted_candidate_secret := ciphertext |>
    <| j_candidate_key_id := active_key_id |> <| j_stamps ::= touch stamp |>.

(** What the first transaction leaves to do. *)
Inductive prepared :=
  | Finished (job : obj rotation_job)
  | Started (job : obj rotation_job) (cred : obj credential) (backend : rotation_backend)
      (current_secret candidate : string).

Definition prepare_rotation (reg : backend_registry) (job_id : id) : M prepared :=
  atomic (
    job ← get_row rotation_jobs "RotationJob" job_id;
    cred ← get_row credentials "Credential" (j_credential (val job));
    waiting ← (if decide (j_status (val job) ≠ PENDING) then mret true
               else t ← now; mret (t <? j_scheduled_for (val job)));
    if waiting : bool then mret (Finished job)
    else
      r ← attempt (prepare_secrets reg (val job) cred);
      match r with
      | Raise (RotationBackendError code safe_message) =>
          finished ← _finish_without_rotation (pk job)
            (if action_required code then ACTION_REQUIRED else FAILED) code safe_message;
          mret (Finished finished)
      | Raise _ =>
          finished ← _finish_without_rotation (pk job) FAILED "vault_preparation_failed"
            "La préparation sécurisée de la rotation a échoué.";
          mret (Finished finished)
      | Ok (backend, current_secret, candidate) =>
          t ← now;
          ciphertext ← encrypt candidate;
          stamp ← now;
          save_fields rotation_jobs (pk job) (start_job t ciphertext stamp) ;;
          mret (Started (Obj (pk job) (start_job t ciphertext stamp (val job))) cred backend
                  current_secret candidate)
      end).

Definition rotated_credential (d : db) (job : rotation_job) (t stamp : Z) (c : credential) : credential :=
  c <| c_encrypted_secret := j_encrypted_candidate_secret job |>
    <| c_secret_key_id := j_candidate_key_id job |>
    <| c_key_version := c_key_version c + 1 |>
    <| c_last_rotated_at := Some t |>
    <| c_last_rotation_status := RotationStatus.SUCCEEDED |>
    <| c_rotation_failure_count := 0 |>
    <| c_next_rotation_at :=
         if automatic_rotation_enabled d c && truthy_days (effective_rotation_interval_days d c)
         then Some (t + days (default 0 (effective_rotation_interval_days d c))) else None |>
    <| c_stamps ::= touch stamp |>.

Definition succeeded_job (version t stamp : Z) (j : rotation_job) : rotation_job :=
  j <| j_status := SUCCEEDED |> <| j_completed_at := Some t |> <| j_new_key_version := Some version |>
    <| j_encrypted_candidate_secret := "" |> <| j_error_code := "" |> <| j_error_message := "" |>
    <| j_stamps ::= touch stamp |>.

(** The last transaction: install the stored candidate. *)
Definition complete_rotation (job_id credential_id : id) : M (obj rotation_job) :=
  atomic (
    job ← get_row rotation_jobs "RotationJob" job_id;
    cred ← get_row credentials "Credential" credential_id;
    raise_if (bool_decide (j_status (val job) ≠ RUNNING)) (ValidationError "Rotation job is no longer running") ;;
    t ← now;
    d ← asks (λ d, d);
    stamp ← now;
    save_fields credentials (pk cred) (rotated_credential d (val job) t stamp) ;;
    let version := c_key_version (val cred) + 1 in
    stamp2 ← now;
    save_fields rotation_jobs (pk job) (succeeded_job version t stamp2) ;;
    record_event (j_requested_by (val job)) "credential.rotation_succeeded" (job_resource (pk job))
      [("credential_id", JStr (str_uuid (pk cred)));
       ("previous_key_version", JInt (j_previous_key_version (val job)));
       ("new_key_version", JInt version);
       ("backend", JStr (j_backend (val job)))] None ;;
    mret (Obj (pk job) (succeeded_job version t stamp2 (val job)))).

Definition execute_rotation (reg : backend_registry) (job_id : id) : M (obj rotation_job) :=
  r ← prepare_rotation reg job_id;
  match r with
  | Finished job => mret job
  | Started job cred backend current_secret candidate =>
      rotated ← attempt (rotate backend cred current_secret candidate);
      match rotated with
      | Raise (RotationBackendError code safe_message) =>
          _finish_without_rotation (pk job) FAILED code safe_message
      | Raise _ =>
          _finish_without_rotation (pk job) FAILED "backend_unexpected_failure"
            "Le fournisseur de rotation a échoué sans détail publiable."
      | Ok _ => complete_rotation (pk job) (j_credential (val job))
      end
  end.

(** ** Scheduling *)

(** [order_by("next_rotation_at", "created_at")]: PostgreSQL puts nulls last. *)
Definition by_next_rotation (l : list (obj credential)) : list (obj credential) :=
  let sorted := sort_by (λ o, created_at (c_stamps (val o))) l in
  let next o := c_next_rotation_at (val o) in
  sort_by (λ o, default 0 (next o)) (List.filter (λ o, bool_decide (next o ≠ None)) sorted) ++
  List.filter (λ o, bool_decide (next o = None)) sorted.

(** [Q(rotation_enabled=True) | Q(rotation_policy__enabled=True)] *)
Definition rotation_candidates (d : db) (limit : nat) : list (obj credential) :=
  take limit (by_next_rotation (objects_filter (λ o,
    c_rotation_enabled (val o) || bool_decide (is_Some (enabled_rotation_policy d (val o)))) (credentials d))).

(** The due date computed from the last rotation, when none is stored. *)
Definition computed_due (d : db) (c : credential) : option Z :=
  match c_next_rotation_at c, c_last_rotated_at c with
  | None, Some last =>
      if truthy_days (effective_rotation_interval_days d c)
      then Some (last + days (default 0 (effective_rotation_interval_days d c))) else None
  | _, _ => None
  end.

Definition schedule_one (now : Z) (queued : list (obj rotation_job)) (o : obj credential)
    : M (list (obj rotation_job)) :=
  computed ← asks (λ d, computed_due d (val o));
  match computed with
  | Some due => update_where credentials (λ x, bool_decide (pk x = pk o)) (λ c, c <| c_next_rotation_at := Some due |>)
  | None => mret tt
  end ;;
  let due_at := match c_next_rotation_at (val o) with Some t => Some t | None => computed end in
  if (match due_at with None => true | Some t => t <=? now end) then
    r ← queue_rotation (pk o) None "Rotation périodique planifiée" (Some now);
    mret (if (r.2 : bool) then queued ++ [r.1] else queued)
  else mret queued.

Definition schedule_due_rotations (at_time : option Z) (limit : nat) : M (list (obj rotation_job)) :=
  t ← match at_time with Some t => mret t | None => now end;
  candidates ← asks (λ d, rotation_candidates d limit);
  fold_m candidates [] (schedule_one t).

(** ** Tasks *)

Definition execute_rotation_job (reg : backend_registry) (job_id : id) : M JobStatus.t :=
  job ← execute_rotation reg job_id; mret (j_status (val job)).

(** The number of jobs and the task messages sent ([execute_rotation_job.delay]). *)
Definition dispatch_due_rotation_jobs : M (Z * list string) :=
  jobs ← schedule_due_rotations None 100;
  mret (Z.of_nat (length jobs), str_uuid ∘ pk <$> jobs).
End rotation.

(** ** What the operations do *)

Section rotation_facts.
Context {PF : Platform}.

(** The plaintext a stored ciphertext stands for. *)
Definition reading (token key_id : string) : outcome string :=
  (decrypt token key_id (World empty_db 0 [] 0 ∅)).1.

Lemma decrypt_reading token key_id w : decrypt token key_id w = (reading token key_id, w).
Proof.
  rewrite (surjective_pairing (decrypt token key_id w)), decrypt_run.
  unfold reading. by rewrite (decrypt_indep _ _ w (World empty_db 0 [] 0 ∅)).
Qed.

Lemma reading_encrypted {EK : EncryptingKeyring} n s c :
  kr_encrypt keyring n s = Ok c → reading c active_key_id = Ok s.
Proof.
  intros H. unfold reading, decrypt. rewrite (bool_decide_false (active_key_id ≠ active_key_id)) by tauto.
  rewrite andb_false_r. cbn. by rewrite (decrypt_encrypt _ _ _ H).
Qed.

Lemma attempt_ok_inv {A} (m : M A) w r w' : attempt m w = (Ok r, w') → m w = (r, w').
Proof. unfold attempt. destruct (m w). intros H. by simplify_eq. Qed.

Lemma queue_inv cred by_ reason at_ w job created w' :
  queue_rotation cred by_ reason at_ w = (Ok (job, created), w') →
  ∃ cr, credentials (w_db w) !! cred = Some cr ∧
    ((created = false ∧ w' = w ∧ active_for cred job = true ∧ rotation_jobs (w_db w) !! pk job = Some (val job)) ∨
     (created = true ∧ exists_row (active_for cred) (rotation_jobs (w_db w)) = false ∧
      rotation_jobs (w_db w) !! pk job = None ∧ j_credential (val job) = cred ∧
      j_status (val job) = PENDING ∧ j_previous_key_version (val job) = c_key_version cr ∧
      j_backend (val job) = effective_rotation_backend (w_db w) cr ∧
      j_scheduled_for (val job) = default (w_clock w) at_ ∧ len (j_reason (val job)) <= 250 ∧
      audit_frame (w_db w <| rotation_jobs ::= <[pk job := val job]> |>) (w_db w'))).
Proof.
  unfold queue_rotation. intros H. apply atomic_ok_inv in H.
  apply bind_ok_inv in H as (locked & w0 & R & H). prim_inv R. exists (val locked). split; [done|].
  apply bind_ok_inv in H as (existing & w1 & R1 & H). unfold asks in R1. injection R1 as <- <-.
  destruct (List.find _ _) as [o|] eqn:Ef.
  - unfold mret, M_ret in H. injection H as <- <- <-. left. apply find_elem in Ef as [Ho Ha].
    apply elem_of_rows in Ho. by rewrite Epk in *.
  - right. run_inv H.
    assert (a = default (w_clock w) at_ ∧ w_db w0 = w_db w) as [-> Hd].
    { destruct at_; prim_inv R0; done. }
    unfold insert_job in R1. run_inv R1. rewrite Epk in *.
    apply record_event_frame in R2. simpl in *. rewrite Hd in *.
    split; [done|]. split; [done|]. split; [done|]. split; [done|]. split; [done|]. split; [done|].
    split; [done|]. split; [done|]. split; [rewrite slice_to_len; lia|]. done.
Qed.
Lemma finish_inv job_id status code msg w r w' :
  _finish_without_rotation job_id status code msg w = (Ok r, w') →
  ∃ j cr, rotation_jobs (w_db w) !! job_id = Some j ∧ credentials (w_db w) !! j_credential j = Some cr ∧
    ((active_job (j_status j) = false ∧ w' = w ∧ r = Obj job_id j) ∨
     (active_job (j_status j) = true ∧ ∃ stamp stamp2,
        r = Obj job_id (finish_job status code msg (w_clock w) stamp j) ∧
        audit_frame (w_db w <| rotation_jobs ::= <[job_id := val r]> |>
          <| credentials ::= <[j_credential j :=
               failed_credential status (w_clock w) cr <| c_stamps ::= touch stamp2 |>]> |>) (w_db w'))).
Proof.
  unfold _finish_without_rotation. intros H. run_inv H. rewrite Epk, Epk0 in *.
  exists (val a), (val a0). split; [done|]. split; [done|].
  destruct (active_job (j_status (val a))); cbn [negb] in H.
  - run_inv H. apply record_event_frame in R1. simpl in Erow, Erow0. rewrite R in Erow. injection Erow as <-.
    rewrite R0 in Erow0. injection Erow0 as <-. right. split; [done|]. do 2 eexists. split; [done|]. exact R1.
  - prim_inv H. left. by destruct a; simpl in *; subst.
Qed.

Lemma complete_inv job_id cred w r w' :
  complete_rotation job_id cred w = (Ok r, w') →
  ∃ j cr, rotation_jobs (w_db w) !! job_id = Some j ∧ credentials (w_db w) !! cred = Some cr ∧
    j_status j = RUNNING ∧ ∃ stamp stamp2,
      r = Obj job_id (succeeded_job (c_key_version cr + 1) (w_clock w) stamp2 j) ∧
      audit_frame (w_db w <| credentials ::= <[cred := rotated_credential (w_db w) j (w_clock w) stamp cr]> |>
        <| rotation_jobs ::= <[job_id := val r]> |>) (w_db w').
Proof.
  unfold complete_rotation. intros H. run_inv H. rewrite Epk, Epk0 in *.
  exists (val a), (val a0). split; [done|]. split; [done|].
  apply bool_decide_eq_false, dec_stable in R1. split; [done|].
  apply record_event_frame in R2. simpl in Erow, Erow0. rewrite R0 in Erow. injection Erow as <-.
  rewrite R in Erow0. injection Erow0 as <-. do 2 eexists. split; [done|]. exact R2.
Qed.

(** The outcome of the first [try]: what it found, without any write. *)
Lemma prepare_secrets_inv reg job cred w b cur cand w' :
  prepare_secrets reg job cred w = (Ok (b, cur, cand), w') →
  (get_rotation_backend reg (j_backend job)).1 = Ok b ∧
  reading (c_encrypted_secret (val cred)) (c_secret_key_id (val cred)) = Ok cur ∧
  cand ≠ cur ∧ cand ≠ "" ∧ is_ascii cur = true ∧ is_ascii cand = true.
Proof.
  unfold prepare_secrets. intros H. apply bind_ok_inv in H as (b' & w1 & R & H). prim_inv R.
  apply bind_ok_inv in H as (cur' & w2 & R1 & H). rewrite decrypt_reading in R1. injection R1 as R1 <-.
  apply bind_ok_inv in H as (cand' & w3 & R2 & H). unfold compare_digest in H.
  destruct (is_ascii cand' && is_ascii cur') eqn:Ea; [|done]. apply andb_true_iff in Ea as [? ?].
  case_bool_decide as Hne; [done|]. unfold mret, M_ret in H. injection H as -> <- <- <-.
  split; [done|]. split; [done|]. split; [done|]. split; [|done].
  unfold _candidate_secret in R2. apply bind_ok_inv in R2 as (x & w4 & _ & R2).
  apply bind_ok_inv in R2 as (u & w5 & R3 & R2). apply raise_if_ok_inv in R3 as [Hinv ->].
  unfold mret, M_ret in R2. injection R2 as <- _. destruct x as [s|]; [|done]. simpl in *.
  apply orb_false_iff in Hinv as [Hs _]. by apply bool_decide_eq_false in Hs.
Qed.

Lemma prepare_secrets_quiet reg job cred : quiet (prepare_secrets reg job cred).
Proof.
  pose proof decrypt_quiet. unfold prepare_secrets, _candidate_secret, token_urlsafe. solve_quiet.
Qed.

Lemma attempt_quiet {A} (m : M A) : quiet m → quiet (attempt m).
Proof. intros H w. specialize (H w). unfold attempt. by destruct (m w). Qed.

(** The statuses a job can end with short of success. *)
Definition failure_status (s : JobStatus.t) : Prop := s = FAILED ∨ s = ACTION_REQUIRED.

Lemma prepare_inv reg job_id w r w' :
  prepare_rotation reg job_id w = (Ok r, w') →
  ∃ j cr, rotation_jobs (w_db w) !! job_id = Some j ∧ credentials (w_db w) !! j_credential j = Some cr ∧
    match r with
    | Finished o =>
        (w_db w' = w_db w ∧ o = Obj job_id j) ∨
        (j_status j = PENDING ∧ ∃ w1 status code msg, reads w w1 ∧ failure_status status ∧
           _finish_without_rotation job_id status code msg w1 = (Ok o, w'))
    | Started o cred b cur cand =>
        j_status j = PENDING ∧ cred = Obj (j_credential j) cr ∧
        reading (c_encrypted_secret cr) (c_secret_key_id cr) = Ok cur ∧ cand ≠ cur ∧ cand ≠ "" ∧
        is_ascii cur = true ∧ (get_rotation_backend reg (j_backend j)).1 = Ok b ∧
        ∃ n t ct stamp, kr_encrypt keyring n cand = Ok ct ∧ o = Obj job_id (start_job t ct stamp j) ∧
          w_db w' = w_db w <| rotation_jobs ::= <[job_id := val o]> |>
    end.
Proof.
  unfold prepare_rotation. intros H. apply atomic_ok_inv in H.
  apply bind_ok_inv in H as (job & w0 & R & H). prim_inv R.
  apply bind_ok_inv in H as (cred & w0 & R0 & H). prim_inv R0. rewrite Epk in *.
  exists (val job), (val cred). split; [done|]. split; [done|].
  apply bind_ok_inv in H as (waiting & w0 & R1 & H).
  assert (reads w w0 ∧ (waiting = false → j_status (val job) = PENDING)) as [Hr Hp].
  { destruct (decide _) as [Hs|Hs]; [prim_inv R1; by split|]. run_inv R1.
    split; [apply reads_advance|]. intros _. by apply dec_stable in Hs. }
  clear R1. destruct waiting.
  { prim_inv H. left. split; [apply Hr|by destruct job; simpl in *; subst]. }
  specialize (Hp eq_refl). apply bind_ok_inv in H as (r0 & w1 & R1 & H). apply attempt_ok_inv in R1.
  assert (Hr1 : reads w w1) by (etrans; [exact Hr|]; eapply quiet_run; [apply prepare_secrets_quiet|exact R1]).
  destruct r0 as [[[b cur] cand]|e].
  - apply prepare_secrets_inv in R1 as (Hb & Hcur & Hne & Hne' & Hasc & _). run_inv H.
    apply encrypt_ok_inv in R1 as [-> Hct]. simpl in Erow. rewrite (proj1 Hr1), R in Erow. injection Erow as <-.
    split; [done|]. split; [by destruct cred; simpl in *; subst|]. do 5 (split; [done|]).
    do 4 eexists. split; [exact Hct|]. split; [done|]. simpl. by rewrite (proj1 Hr1).
  - destruct e; apply bind_ok_inv in H as (fin & w2 & R2 & H); prim_inv H; right; (split; [done|]);
      do 4 eexists; (split; [exact Hr1|]); (split; [|exact R2]); unfold failure_status; auto.
    destruct (action_required code); auto.
Qed.

End rotation_facts.

(** ** The contract: one secret, one version, one rotation at a time

    Seen from outside, an account is a slot: its secret, the version of the
    secret and the rotation under way.  The transactions of the service implement
    the steps of this small machine. *)

Inductive slot_phase :=
  | Idle
  | Queued (job : id)
  | Running (job : id) (candidate : outcome string).

Record slot := Slot { sl_secret : outcome string; sl_version : Z; sl_phase : slot_phase }.

Inductive slot_step : slot → slot → Prop :=
  | slot_stutter s : slot_step s s
  | slot_queue s v job : slot_step (Slot s v Idle) (Slot s v (Queued job))
  | slot_start cur v job cand :
      cand ≠ cur → cand ≠ "" → slot_step (Slot (Ok cur) v (Queued job)) (Slot (Ok cur) v (Running job (Ok cand)))
  | slot_commit s v job cand : slot_step (Slot s v (Running job cand)) (Slot cand (v + 1) Idle)
  | slot_abandon s v ph : ph ≠ Idle → slot_step (Slot s v ph) (Slot s v Idle).

Section refinement.
Context {PF : Platform}.

(** The active job of an account. *)
Definition active_of (d : db) (c : id) : option (obj rotation_job) :=
  List.find (active_for c) (rows (rotation_jobs d)).

Definition phase_of (d : db) (c : id) : slot_phase :=
  match active_of d c with
  | None => Idle
  | Some o =>
      if decide (j_status (val o) = PENDING) then Queued (pk o)
      else Running (pk o) (reading (j_encrypted_candidate_secret (val o)) (j_candidate_key_id (val o)))
  end.

(** The slot an account implements. *)
Definition slot_of (d : db) (c : id) : option slot :=
  (λ cr, Slot (reading (c_encrypted_secret cr) (c_secret_key_id cr)) (c_key_version cr) (phase_of d c))
    <$> credentials d !! c.

(** At most one active job per account. *)
Definition unique_active (d : db) : Prop :=
  ∀ c k1 j1 k2 j2, rotation_jobs d !! k1 = Some j1 → rotation_jobs d !! k2 = Some j2 →
    active_for c (Obj k1 j1) = true → active_for c (Obj k2 j2) = true → k1 = k2.

Lemma active_of_some d c k j :
  unique_active d → rotation_jobs d !! k = Some j → active_for c (Obj k j) = true →
  active_of d c = Some (Obj k j).
Proof.
  intros Hu Hj Ha. unfold active_of. destruct (List.find _ _) as [[k' j']|] eqn:Ef.
  - apply find_elem in Ef as [Ho Ha']. apply elem_of_rows in Ho. simpl in Ho.
    pose proof (Hu _ _ _ _ _ Ho Hj Ha' Ha) as ->. congruence.
  - pose proof (find_none_elem _ _ (Obj k j) Ef). rewrite elem_of_rows in H. naive_solver congruence.
Qed.

Lemma active_of_inv d c o :
  active_of d c = Some o → rotation_jobs d !! pk o = Some (val o) ∧ active_for c o = true.
Proof. intros H. apply find_elem in H as [Ho Ha]. by apply elem_of_rows in Ho. Qed.

Lemma active_of_none d c :
  (∀ k j, rotation_jobs d !! k = Some j → active_for c (Obj k j) = false) → active_of d c = None.
Proof.
  intros H. destruct (active_of d c) as [[k j]|] eqn:E; [|done].
  apply active_of_inv in E as [E1 E2]. simpl in *. by rewrite (H _ _ E1) in E2.
Qed.

(** Accounts with the same active jobs before and after are in the same phase. *)
Lemma active_of_agree d d' c :
  unique_active d' →
  (∀ k j, active_for c (Obj k j) = true → rotation_jobs d !! k = Some j ↔ rotation_jobs d' !! k = Some j) →
  active_of d' c = active_of d c.
Proof.
  intros Hu Hag. destruct (active_of d c) as [[k j]|] eqn:E.
  - apply active_of_inv in E as [E1 E2]. simpl in *. apply active_of_some; [done| |done]. by apply Hag.
  - apply active_of_none. intros k j Hj. destruct (active_for c (Obj k j)) eqn:Ea; [|done].
    apply Hag in Hj; [|done]. pose proof (find_none_elem _ _ (Obj k j) E) as Hn.
    rewrite elem_of_rows in Hn. by rewrite (Hn Hj) in Ea.
Qed.

Lemma active_for_cred c k j : active_for c (Obj k j) = true → j_credential j = c.
Proof. unfold active_for. simpl. intros H. apply andb_true_iff in H as [H _]. by apply bool_decide_eq_true in H. Qed.

Lemma active_for_own k j : active_for (j_credential j) (Obj k j) = active_job (j_status j).
Proof. unfold active_for. simpl. by rewrite bool_decide_true. Qed.

(** Replacing an active job changes the phase of its own account only. *)
Lemma update_job d d' k j j' :
  unique_active d → rotation_jobs d !! k = Some j → active_job (j_status j) = true →
  rotation_jobs d' = <[k := j']> (rotation_jobs d) → j_credential j' = j_credential j →
  unique_active d' ∧ (∀ c, c ≠ j_credential j → active_of d' c = active_of d c) ∧
  active_of d (j_credential j) = Some (Obj k j) ∧
  active_of d' (j_credential j) = if active_job (j_status j') then Some (Obj k j') else None.
Proof.
  intros Hu Hj Ha Hd Hc.
  assert (Hown : active_for (j_credential j) (Obj k j) = true) by by rewrite active_for_own.
  assert (Hu' : unique_active d').
  { intros c k1 j1 k2 j2. rewrite Hd, !lookup_insert_Some.
    intros [[<- <-]|[N1 H1]] [[<- <-]|[N2 H2]] A1 A2; [done| | |by eapply Hu].
    - apply active_for_cred in A1 as <-. rewrite Hc in A2. by eapply Hu.
    - apply active_for_cred in A2 as <-. rewrite Hc in A1. by eapply Hu. }
  split; [done|]. split; [|split].
  - intros c Hne. apply active_of_agree; [done|]. intros k' j0 A. rewrite Hd, lookup_insert_Some.
    split; [|by intros [[<- <-]|[_ ?]]; [apply active_for_cred in A; congruence|]].
    intros H. right. split; [|done]. intros <-. apply active_for_cred in A. congruence.
  - by apply active_of_some.
  - destruct (active_job (j_status j')) eqn:E'.
    + apply active_of_some; [done|by rewrite Hd, lookup_insert_eq|]. rewrite <- Hc. by rewrite active_for_own.
    + apply active_of_none. intros k' j0. rewrite Hd, lookup_insert_Some. intros [[<- <-]|[N H]].
      * rewrite <- Hc. by rewrite active_for_own.
      * destruct (active_for _ (Obj k' j0)) eqn:A; [|done]. by pose proof (Hu _ _ _ _ _ H Hj A Hown).
Qed.
Lemma insert_active d d' k j :
  unique_active d → rotation_jobs d !! k = None →
  exists_row (active_for (j_credential j)) (rotation_jobs d) = false →
  rotation_jobs d' = <[k := j]> (rotation_jobs d) → j_status j = PENDING →
  unique_active d' ∧ (∀ c, c ≠ j_credential j → active_of d' c = active_of d c) ∧
  active_of d (j_credential j) = None ∧ active_of d' (j_credential j) = Some (Obj k j).
Proof.
  intros Hu Hk Hno Hd Hs. rewrite exists_row_false in Hno.
  assert (Hu' : unique_active d').
  { intros c k1 j1 k2 j2. rewrite Hd, !lookup_insert_Some.
    intros [[<- <-]|[N1 H1]] [[<- <-]|[N2 H2]] A1 A2; [done| | |by eapply Hu].
    - apply active_for_cred in A1 as <-. by rewrite (Hno (Obj k2 j2) H2) in A2.
    - apply active_for_cred in A2 as <-. by rewrite (Hno (Obj k1 j1) H1) in A1. }
  split; [done|]. split; [|split].
  - intros c Hne. apply active_of_agree; [done|]. intros k' j0 A. rewrite Hd, lookup_insert_Some.
    split; [|by intros [[<- <-]|[_ ?]]; [apply active_for_cred in A; congruence|]].
    intros H. right. split; [|done]. intros <-. congruence.
  - apply active_of_none. intros k' j' H. apply (Hno (Obj k' j') H).
  - apply active_of_some; [done|by rewrite Hd, lookup_insert_eq|]. by rewrite active_for_own, Hs.
Qed.

(** *** The transactions of the service *)

(** What other code may do between them: jobs, secrets and versions are left
    alone. *)
Definition rotation_frame (d d' : db) : Prop :=
  rotation_jobs d' = rotation_jobs d ∧
  ∀ c cr, credentials d !! c = Some cr → ∃ cr', credentials d' !! c = Some cr' ∧
    (c_encrypted_secret cr', c_secret_key_id cr', c_key_version cr')
    = (c_encrypted_secret cr, c_secret_key_id cr, c_key_version cr).

Inductive rotation_step : world → world → Prop :=
  | step_queue cred by_ reason at_ w : rotation_step w (queue_rotation cred by_ reason at_ w).2
  | step_prepare reg job w : rotation_step w (prepare_rotation reg job w).2
  | step_finish job status code msg w :
      failure_status status → rotation_step w (_finish_without_rotation job status code msg w).2
  | step_complete job j w :
      rotation_jobs (w_db w) !! job = Some j →
      rotation_step w (complete_rotation job (j_credential j) w).2
  | step_elsewhere w w' : rotation_frame (w_db w) (w_db w') → rotation_step w w'.

(** The obligation of one transaction. *)
Definition refines (d d' : db) : Prop :=
  unique_active d' ∧ ∀ c s, slot_of d c = Some s → ∃ s', slot_of d' c = Some s' ∧ slot_step s s'.

Lemma slot_of_inv d c s : slot_of d c = Some s → ∃ cr, credentials d !! c = Some cr ∧
  s = Slot (reading (c_encrypted_secret cr) (c_secret_key_id cr)) (c_key_version cr) (phase_of d c).
Proof. unfold slot_of. rewrite fmap_Some. intros (cr & H & ->). eauto. Qed.

Lemma slot_of_some d c cr : credentials d !! c = Some cr → slot_of d c =
  Some (Slot (reading (c_encrypted_secret cr) (c_secret_key_id cr)) (c_key_version cr) (phase_of d c)).
Proof. intros H. unfold slot_of. by rewrite H. Qed.

Lemma refines_frame d d' : unique_active d → rotation_frame d d' → refines d d'.
Proof.
  intros Hu [Hj Hc]. split; [unfold unique_active; by rewrite Hj|]. intros c s Hs.
  apply slot_of_inv in Hs as (cr & Hcr & ->). destruct (Hc _ _ Hcr) as (cr' & Hcr' & [= E1 E2 E3]).
  rewrite (slot_of_some _ _ _ Hcr'), E1, E2, E3. eexists. split; [done|].
  unfold phase_of, active_of. rewrite Hj. constructor.
Qed.

Lemma audit_rotation_frame d d' : audit_frame d d' → rotation_jobs d' = rotation_jobs d ∧ credentials d' = credentials d.
Proof. by intros (?&?&?&->). Qed.

(** A transaction that changes only the account [c0] refines its step and
    leaves the other slots alone. *)
Lemma refines_local d d' c0 cr cr' :
  unique_active d' → credentials d !! c0 = Some cr → credentials d' = <[c0 := cr']> (credentials d) →
  (∀ c, c ≠ c0 → active_of d' c = active_of d c) →
  slot_step (Slot (reading (c_encrypted_secret cr) (c_secret_key_id cr)) (c_key_version cr) (phase_of d c0))
            (Slot (reading (c_encrypted_secret cr') (c_secret_key_id cr')) (c_key_version cr') (phase_of d' c0)) →
  refines d d'.
Proof.
  intros Hu Hcr Hd Hact Hstep. split; [done|]. intros c s Hs. apply slot_of_inv in Hs as (cr0 & Hcr0 & ->).
  destruct (decide (c = c0)) as [->|Hne].
  - rewrite Hcr in Hcr0. injection Hcr0 as <-. eexists. split; [|exact Hstep].
    apply slot_of_some. by rewrite Hd, lookup_insert_eq.
  - eexists. split; [apply slot_of_some; by rewrite Hd, lookup_insert_ne|].
    unfold phase_of. rewrite (Hact _ Hne). constructor.
Qed.

Lemma phase_of_idle d c : active_of d c = None → phase_of d c = Idle.
Proof. unfold phase_of. by intros ->. Qed.
Lemma phase_of_queued d c k j : active_of d c = Some (Obj k j) → j_status j = PENDING → phase_of d c = Queued k.
Proof. unfold phase_of. intros -> Hs. simpl. by rewrite decide_True. Qed.
Lemma phase_of_running d c k j :
  active_of d c = Some (Obj k j) → j_status j = RUNNING →
  phase_of d c = Running k (reading (j_encrypted_candidate_secret j) (j_candidate_key_id j)).
Proof. unfold phase_of. intros -> Hs. simpl. rewrite decide_False by congruence. done. Qed.

Lemma phase_of_active d c o : active_of d c = Some o → phase_of d c ≠ Idle.
Proof. unfold phase_of. intros ->. by destruct (decide _). Qed.

Lemma queue_refines cred by_ reason at_ w r w' :
  unique_active (w_db w) → queue_rotation cred by_ reason at_ w = (Ok r, w') → refines (w_db w) (w_db w').
Proof.
  destruct r as [[k j] created]. intros Hu H.
  apply queue_inv in H as (cr & Hcr & [(_ & -> & _)|(_ & Hno & Hk & Hc & Hs & _ & _ & _ & _ & Hf)]).
  - apply refines_frame; [done|]. split; [done|eauto].
  - apply audit_rotation_frame in Hf as [Hj Hcs]. simpl in *. subst cred.
    destruct (insert_active _ _ _ _ Hu Hk Hno Hj Hs) as (Hu' & Ho & A0 & A1).
    eapply (refines_local _ _ _ cr cr); [done|done|by rewrite Hcs, insert_id|done|].
    rewrite (phase_of_idle _ _ A0), (phase_of_queued _ _ _ _ A1 Hs). constructor.
Qed.

Lemma finish_refines job status code msg w r w' :
  failure_status status → unique_active (w_db w) →
  _finish_without_rotation job status code msg w = (Ok r, w') → refines (w_db w) (w_db w').
Proof.
  intros Hst Hu H. apply finish_inv in H as (j & cr & Hj & Hcr & [(_ & -> & _)|(Ha & stamp & stamp2 & -> & Hf)]).
  - apply refines_frame; [done|]. split; [done|eauto].
  - apply audit_rotation_frame in Hf as [Hjs Hcs]. simpl in *.
    destruct (update_job _ _ _ _ _ Hu Hj Ha Hjs) as (Hu' & Ho & A0 & A1); [done|].
    eapply refines_local; [done|done|exact Hcs|done|].
    assert (E : active_job status = false) by by destruct Hst as [-> | ->].
    simpl in A1. rewrite E in A1. rewrite (phase_of_idle _ _ A1).
    unfold failed_credential. destruct (decide _); simpl; apply slot_abandon, (phase_of_active _ _ _ A0).
Qed.

Lemma complete_refines job j w r w' :
  unique_active (w_db w) → rotation_jobs (w_db w) !! job = Some j →
  complete_rotation job (j_credential j) w = (Ok r, w') → refines (w_db w) (w_db w').
Proof.
  intros Hu Hj H. apply complete_inv in H as (j' & cr & Hj' & Hcr & Hs & stamp & stamp2 & -> & Hf).
  rewrite Hj in Hj'. injection Hj' as <-. apply audit_rotation_frame in Hf as [Hjs Hcs]. simpl in *.
  assert (Ha : active_job (j_status j) = true) by by rewrite Hs.
  destruct (update_job _ _ _ _ _ Hu Hj Ha Hjs eq_refl) as (Hu' & Ho & A0 & A1).
  eapply refines_local; [done|done|exact Hcs|done|].
  rewrite (phase_of_idle _ _ A1), (phase_of_running _ _ _ _ A0 Hs). apply slot_commit.
Qed.

Lemma prepare_refines {EK : EncryptingKeyring} reg job w r w' :
  unique_active (w_db w) → prepare_rotation reg job w = (Ok r, w') → refines (w_db w) (w_db w').
Proof.
  intros Hu H. apply prepare_inv in H as (j & cr & Hj & Hcr & H). destruct r as [o|o cred b cur cand].
  - destruct H as [[Hd _]|(_ & w1 & status & code & msg & [Hd _] & Hst & H)].
    + rewrite Hd. apply refines_frame; [done|]. split; [done|eauto].
    + rewrite <- Hd. eapply finish_refines; [done|by rewrite Hd|exact H].
  - destruct H as (Hs & -> & Hcur & Hne & Hne' & _ & _ & n & t & ct & stamp & Hct & -> & Hd). simpl in Hd.
    assert (Hjs : rotation_jobs (w_db w') = <[job := start_job t ct stamp j]> (rotation_jobs (w_db w)))
      by by rewrite Hd.
    assert (Ha : active_job (j_status j) = true) by by rewrite Hs.
  destruct (update_job _ _ _ _ _ Hu Hj Ha Hjs eq_refl) as (Hu' & Ho & A0 & A1).
    eapply (refines_local _ _ _ cr cr); [done|done|rewrite Hd; symmetry; exact (insert_id _ _ _ Hcr)|done|].
    rewrite (phase_of_queued _ _ _ _ A0 Hs), (phase_of_running _ _ _ _ A1 eq_refl), Hcur. simpl.
    rewrite (reading_encrypted _ _ _ Hct). by apply slot_start.
Qed.

Lemma step_refines {EK : EncryptingKeyring} w w' :
  unique_active (w_db w) → rotation_step w w' → refines (w_db w) (w_db w').
Proof.
  intros Hu Hs.
  assert (Hid : refines (w_db w) (w_db w)) by (apply refines_frame; [done|]; split; [done|eauto]).
  destruct Hs as [cred by_ reason at_ w|reg job w|job status code msg w Hst|job j w Hj|w w' Hf];
    [| | | |by apply refines_frame];
    match goal with |- refines _ (w_db (?m w).2) => destruct (m w) as [[r|e] w'] eqn:E; simpl;
      [|by rewrite (undone_atomic _ _ _ _ E)] end.
  - by eapply queue_refines.
  - by eapply prepare_refines.
  - by eapply finish_refines.
  - by eapply complete_refines.
Qed.

(** C13: The rotation service implements the slot machine: along every
    interleaving of its transactions (queueing, preparing, failing and completing
    jobs, and anything else that leaves jobs and secrets alone), each account goes
    through steps of the machine.  Its secret changes only by committing the
    candidate of its running job, which raises the version by one; a candidate
    differs from the secret it replaces; at most one job is active at a time. *)
Theorem rotation_refines_slot {EK : EncryptingKeyring} w w' :
  unique_active (w_db w) → rtc rotation_step w w' →
  unique_active (w_db w') ∧
  ∀ c s, slot_of (w_db w) c = Some s → ∃ s', slot_of (w_db w') c = Some s' ∧ rtc slot_step s s'.
Proof.
  intros Hu Hsteps. induction Hsteps as [|w w1 w' Hs _ IH].
  - split; [done|]. intros c s Hs. by exists s.
  - destruct (step_refines _ _ Hu Hs) as [Hu1 H1]. destruct (IH Hu1) as [Hu' H2]. split; [done|].
    intros c s Hs0. destruct (H1 _ _ Hs0) as (s1 & Hs1 & St). destruct (H2 _ _ Hs1) as (s2 & Hs2 & Sts).
    exists s2. split; [done|]. by eapply rtc_l.
Qed.

End refinement.

(** ** Whole runs *)

Section executions.
Context {PF : Platform}.

(** The secret and its version, as the vault reads them back. *)
Definition holds (d : db) (c : id) (secret : string) (version : Z) : Prop :=
  ∃ cr, credentials d !! c = Some cr ∧
    reading (c_encrypted_secret cr) (c_secret_key_id cr) = Ok secret ∧ c_key_version cr = version.

(** The job keeps the candidate. *)
Definition keeps (d : db) (job : id) (candidate : string) : Prop :=
  ∃ j, rotation_jobs d !! job = Some j ∧
    reading (j_encrypted_candidate_secret j) (j_candidate_key_id j) = Ok candidate.

Lemma failed_credential_same status t c :
  (c_encrypted_secret (failed_credential status t c), c_secret_key_id (failed_credential status t c),
   c_key_version (failed_credential status t c)) = (c_encrypted_secret c, c_secret_key_id c, c_key_version c).
Proof. unfold failed_credential. by destruct (decide _). Qed.

(** A recorded failure keeps the secret, the version and the candidate. *)
Lemma finish_keeps job status code msg w c secret v cand :
  holds (w_db w) c secret v → keeps (w_db w) job cand →
  let w' := (_finish_without_rotation job status code msg w).2 in
  holds (w_db w') c secret v ∧ keeps (w_db w') job cand.
Proof.
  intros Hh Hk. destruct (_finish_without_rotation job status code msg w) as [[r|e] w'] eqn:E; simpl.
  2: by rewrite (undone_atomic _ _ _ _ E).
  apply finish_inv in E as (j & cr & Hj & Hcr & [(_ & -> & _)|(Ha & stamp & stamp2 & -> & Hf)]); [done|].
  apply audit_rotation_frame in Hf as [Hjs Hcs]. simpl in *. split.
  - destruct Hh as (cr0 & Hcr0 & Hr & Hv). unfold holds. rewrite Hcs.
    destruct (decide (c = j_credential j)) as [->|Hne]; [|exists cr0; by rewrite lookup_insert_ne].
    rewrite lookup_insert_eq. rewrite Hcr in Hcr0. injection Hcr0 as <-. eexists. split; [done|]. simpl.
    pose proof (failed_credential_same status (w_clock w) cr) as [= -> -> ->]. done.
  - destruct Hk as (j0 & Hj0 & Hc). unfold keeps. rewrite Hjs, lookup_insert_eq.
    rewrite Hj in Hj0. injection Hj0 as <-. eexists. split; [done|]. done.
Qed.

(** C11: A rotation never loses a secret.  The backend is called with the secret the
    account holds and a candidate the job row keeps.  Assume that nobody else writes the
    row of the running job before it returns; the account may be edited meanwhile, and
    then holds some secret, the one the backend was given if nobody did.  Whatever the
    backend does (succeed, report a failure, raise anything) and however the run ends
    (also when recording the outcome fails), the vault can still read the candidate:
    either it has been installed, with the next version, or the account still holds
    the secret it held when the backend returned and the job row keeps the candidate. *)
Theorem rotation_never_loses_secret {EK : EncryptingKeyring} reg job w o cred b cur cand w1 r w2 secret v :
  prepare_rotation reg job w = (Ok (Started o cred b cur cand), w1) →
  rotate b cred cur cand w1 = (r, w2) →
  rotation_jobs (w_db w2) !! job = rotation_jobs (w_db w1) !! job →
  holds (w_db w2) (pk cred) secret v →
  let w' := (execute_rotation reg job w).2 in
  holds (w_db w1) (pk cred) cur (c_key_version (val cred)) ∧ keeps (w_db w1) job cand ∧
  (holds (w_db w') (pk cred) cand (v + 1) ∨
   (holds (w_db w') (pk cred) secret v ∧ keeps (w_db w') job cand)).
Proof.
  intros Hp Hrot Hfj Hh. unfold execute_rotation. rewrite (bind_ok _ _ _ _ _ Hp).
  rewrite (bind_ok _ _ _ r w2) by (unfold attempt; by rewrite Hrot).
  apply prepare_inv in Hp as (j & cr & Hj & Hcr & Hs & -> & Hcur & _ & _ & _ & _ & n & t & ct & stamp & Hct & -> & Hd).
  simpl in *. set (j1 := start_job t ct stamp j).
  assert (Hj1 : rotation_jobs (w_db w1) !! job = Some j1) by by rewrite Hd; simpl; rewrite lookup_insert_eq.
  rewrite Hj1 in Hfj.
  assert (keeps (w_db w1) job cand ∧ keeps (w_db w2) job cand) as [Hk1 Hk].
  { split; exists j1; (split; [done|]); simpl; by eapply reading_encrypted. }
  split; [exists cr; by rewrite Hd|]. split; [done|].
  destruct r as [u|e]; [|right; destruct e; by apply finish_keeps].
  destruct (complete_rotation job (j_credential j) w2) as [[r|e] w'] eqn:E; simpl.
  2: { right. by rewrite (undone_atomic _ _ _ _ E). }
  left. apply complete_inv in E as (j' & cr' & Hj' & Hcr' & _ & stamp1 & stamp2 & -> & Hf).
  rewrite Hfj in Hj'. injection Hj' as <-. destruct Hh as (cr2 & Hcr2 & _ & E3). rewrite Hcr2 in Hcr'. injection Hcr' as <-.
  apply audit_rotation_frame in Hf as [_ Hcs]. eexists. rewrite Hcs. simpl. rewrite lookup_insert_eq.
  split; [done|]. simpl. rewrite E3. split; [by eapply reading_encrypted|done].
Qed.

Lemma retry_hours_bounds n : 1 <= n → 2 <= retry_hours n <= 24.
Proof.
  intros Hn. unfold retry_hours. pose proof (Z.pow_le_mono_r 2 1 (Z.min n 5) ltac:(lia) ltac:(lia)). lia.
Qed.

(** A failed or blocked rotation is retried within a day, and not before two
    hours: when the failure of an active job is recorded, the account's next
    rotation is between 2 and 24 hours away, exactly 24 when an administrator
    must act, and the delay never shrinks as failures accumulate. *)
Theorem retry_delay_bounds job status code msg w r w' j cr :
  _finish_without_rotation job status code msg w = (Ok r, w') → rotation_jobs (w_db w) !! job = Some j →
  active_job (j_status j) = true → credentials (w_db w) !! j_credential j = Some cr →
  0 <= c_rotation_failure_count cr →
  ∃ cr' delay, credentials (w_db w') !! j_credential j = Some cr' ∧
    c_next_rotation_at cr' = Some (w_clock w + hours delay) ∧ 2 <= delay <= 24 ∧
    (status ≠ FAILED → delay = 24 ∧ c_rotation_failure_count cr' = c_rotation_failure_count cr) ∧
    (status = FAILED → c_rotation_failure_count cr' = c_rotation_failure_count cr + 1 ∧
       delay = retry_hours (c_rotation_failure_count cr') ∧
       ∀ n, 0 <= n <= c_rotation_failure_count cr' → retry_hours n <= delay).
Proof.
  intros H Hj Ha Hcr Hn.
  apply finish_inv in H as (j' & cr0 & Hj' & Hcr0 & [(Ha' & _)|(_ & stamp & stamp2 & -> & Hf)]); [congruence|].
  rewrite Hj in Hj'. injection Hj' as <-. rewrite Hcr in Hcr0. injection Hcr0 as <-.
  apply audit_rotation_frame in Hf as [_ Hcs]. rewrite Hcs. simpl. rewrite lookup_insert_eq.
  unfold failed_credential. destruct (decide (status = FAILED)) as [->|Hne].
  - eexists _, _. split; [done|]. split; [done|]. split; [apply retry_hours_bounds; lia|].
    split; [done|]. intros _. split; [done|]. split; [done|]. intros n Hle. unfold retry_hours. simpl in *.
    apply Z.min_le_compat_l, Z.pow_le_mono_r; lia.
  - eexists _, 24. split; [done|]. split; [done|]. split; [lia|]. split; [done|]. done.
Qed.

(** An account whose secret contains a character outside ASCII is never
    rotated: the comparison with the candidate raises before the backend is
    called, so every run of its job ends in failure and leaves the secret and its
    version as they were, whatever backend is configured. *)
Theorem non_ascii_secret_never_rotated reg job w j cr cur :
  rotation_jobs (w_db w) !! job = Some j → j_status j = PENDING →
  credentials (w_db w) !! j_credential j = Some cr →
  reading (c_encrypted_secret cr) (c_secret_key_id cr) = Ok cur → is_ascii cur = false →
  let '(r, w') := execute_rotation reg job w in
  holds (w_db w') (j_credential j) cur (c_key_version cr) ∧
  match r with
  | Ok o => o = Obj job j ∨ failure_status (j_status (val o))
  | Raise _ => w_db w' = w_db w
  end.
Proof.
  intros Hj Hs Hcr Hcur Hasc.
  assert (Hh : holds (w_db w) (j_credential j) cur (c_key_version cr)) by by exists cr.
  unfold execute_rotation, mbind, M_bind. destruct (prepare_rotation reg job w) as [[p|e] w1] eqn:E.
  2: { rewrite (undone_atomic _ _ _ _ E). done. }
  apply prepare_inv in E as (j' & cr' & Hj' & Hcr' & H). rewrite Hj in Hj'. injection Hj' as <-.
  rewrite Hcr in Hcr'. injection Hcr' as <-. destruct p as [o|o cred b cur' cand]; simpl.
  - destruct H as [[Hd ->]|(_ & w2 & status & code & msg & [Hd _] & Hst & H)].
    + rewrite Hd. auto.
    + apply finish_inv in H as (j' & cr' & Hj' & Hcr' & [(_ & -> & ->)|(_ & st & st2 & -> & Hfr)]).
      * rewrite Hd in *. rewrite Hj in Hj'. injection Hj' as <-. auto.
      * apply audit_rotation_frame in Hfr as [_ Hcs]. rewrite Hd in *. rewrite Hj in Hj'. injection Hj' as <-.
        rewrite Hcr in Hcr'. injection Hcr' as <-. split; [|by right].
        eexists. rewrite Hcs. simpl. rewrite lookup_insert_eq. split; [done|]. simpl.
        by pose proof (failed_credential_same status (w_clock w2) cr) as [= -> -> ->].
  - destruct H as (_ & _ & Hcur' & _ & _ & Hasc' & _). congruence.
Qed.

(** A job left running (its worker died, or recording its success failed)
    blocks its account: queueing returns it without creating another, executing
    it again does nothing. *)
Theorem running_job_blocks_account reg k j cr by_ reason at_ w :
  unique_active (w_db w) → rotation_jobs (w_db w) !! k = Some j → j_status j = RUNNING →
  credentials (w_db w) !! j_credential j = Some cr →
  queue_rotation (j_credential j) by_ reason at_ w = (Ok (Obj k j, false), w) ∧
  execute_rotation reg k w = (Ok (Obj k j), w).
Proof.
  intros Hu Hj Hs Hcr. split.
  - unfold queue_rotation, atomic. rewrite (run_get _ _ _ _ _ _ Hcr). run. simpl.
    pose proof (active_of_some _ (j_credential j) _ _ Hu Hj) as Ha. unfold active_of in Ha.
    rewrite Ha by (by rewrite active_for_own, Hs). done.
  - unfold execute_rotation. rewrite (bind_ok _ _ _ (Finished (Obj k j)) w); [reflexivity|].
    unfold prepare_rotation, atomic.
    rewrite (run_get _ _ _ _ _ _ Hj). simpl val. rewrite (run_get _ _ _ _ _ _ Hcr).
    rewrite decide_True by by rewrite Hs. done.
Qed.

(** *** Scheduling *)

(** The account is due at instant [t]: its due date is passed or unknown. *)
Definition due (d : db) (c : credential) (t : Z) : bool :=
  match (match c_next_rotation_at c with Some x => Some x | None => computed_due d c end) with
  | None => true
  | Some x => x <=? t
  end.

Lemma computed_due_policies d d' c :
  rotation_policies d' = rotation_policies d → computed_due d' c = computed_due d c.
Proof.
  intros E. unfold computed_due, effective_rotation_interval_days, enabled_rotation_policy. by rewrite E.
Qed.

(** What scheduling keeps: policies of rotation, and the active jobs. *)
Definition schedule_frame (d d' : db) : Prop :=
  rotation_policies d' = rotation_policies d ∧
  ∀ k j, rotation_jobs d !! k = Some j → rotation_jobs d' !! k = Some j.

#[local] Instance schedule_frame_refl : Reflexive schedule_frame.
Proof. by intros d. Qed.
#[local] Instance schedule_frame_trans : Transitive schedule_frame.
Proof. intros d1 d2 d3 [E1 H1] [E2 H2]. split; [congruence|eauto]. Qed.

Lemma queue_schedule_frame cred by_ reason at_ w job created w' :
  queue_rotation cred by_ reason at_ w = (Ok (job, created), w') →
  schedule_frame (w_db w) (w_db w') ∧ exists_row (active_for cred) (rotation_jobs (w_db w')) = true ∧
  j_credential (val job) = cred ∧ rotation_jobs (w_db w') !! pk job = Some (val job).
Proof.
  intros H. apply queue_inv in H as (cr & Hcr & [(_ & -> & Ha & Hj)|(_ & Hno & Hk & Hc & Hs & _ & _ & _ & _ & Hf)]).
  - split; [done|]. split; [apply exists_row_true; by exists job|]. split; [|done].
    destruct job. by eapply active_for_cred.
  - pose proof Hf as (?&?&?&Hd). apply audit_rotation_frame in Hf as [Hj _]. simpl in Hj.
    split; [|split; [|split; [done|]]].
    + split; [by rewrite Hd|]. intros k j Hkj. rewrite Hj, lookup_insert_ne; [done|]. congruence.
    + apply exists_row_true. exists job. rewrite Hj, lookup_insert_eq. split; [done|].
      unfold active_for. rewrite bool_decide_true by done. by rewrite Hs.
    + by rewrite Hj, lookup_insert_eq.
Qed.

Lemma schedule_one_inv t queued o w queued' w' :
  schedule_one t queued o w = (Ok queued', w') →
  schedule_frame (w_db w) (w_db w') ∧
  ((due (w_db w) (val o) t = false ∧ queued' = queued) ∨
   (due (w_db w) (val o) t = true ∧ exists_row (active_for (pk o)) (rotation_jobs (w_db w')) = true ∧
    (queued' = queued ∨ ∃ job, queued' = queued ++ [job] ∧ j_credential (val job) = pk o))).
Proof.
  unfold schedule_one, due. intros H. apply bind_ok_inv in H as (computed & w1 & R & H). prim_inv R.
  apply bind_ok_inv in H as (u & w2 & R1 & H).
  assert (Hf : schedule_frame (w_db w) (w_db w2)).
  { destruct (computed_due _ _); [|by prim_inv R1]. unfold update_where in R1. by prim_inv R1. }
  clear R1. set (due_at := match c_next_rotation_at (val o) with Some x => Some x | None => _ end) in *.
  destruct (match due_at with Some x => x <=? t | None => true end) eqn:Edue.
  - apply bind_ok_inv in H as ([job created] & w3 & R2 & H). prim_inv H.
    apply queue_schedule_frame in R2 as (Hf2 & Hact & Hc & _). split; [by etrans|]. right.
    split; [done|]. split; [done|]. destruct created; [right; by exists job|by left].
  - prim_inv H. split; [done|]. by left.
Qed.

Lemma schedule_fold_inv t l queued w jobs w' :
  fold_m l queued (schedule_one t) w = (Ok jobs, w') →
  schedule_frame (w_db w) (w_db w') ∧
  (∀ o, o ∈ l → due (w_db w) (val o) t = true →
     exists_row (active_for (pk o)) (rotation_jobs (w_db w')) = true) ∧
  (∀ job, job ∈ jobs → job ∈ queued ∨
     ∃ o, o ∈ l ∧ due (w_db w) (val o) t = true ∧ j_credential (val job) = pk o).
Proof.
  revert queued w. induction l as [|o l IH]; intros queued w H; simpl in H.
  { prim_inv H. split; [done|]. split; [by intros o ?%not_elem_of_nil|auto]. }
  apply bind_ok_inv in H as (queued1 & w1 & R & H). apply schedule_one_inv in R as [Hf1 Hone].
  apply IH in H as (Hf2 & Hall & Hjobs).
  assert (Hdue : ∀ x, due (w_db w1) (val x) t = due (w_db w) (val x) t).
  { intros x. unfold due. by rewrite (computed_due_policies _ _ _ (proj1 Hf1)). }
  split; [by etrans|]. split.
  - intros x [->|Hx]%elem_of_cons Hd; [|apply Hall; [done|by rewrite Hdue]].
    destruct Hone as [[Hno _]|(_ & Hact & _)]; [congruence|].
    apply exists_row_true in Hact as (y & Hy & Ha). apply exists_row_true. exists y. split; [|done].
    by apply Hf2.
  - intros job Hj. destruct (Hjobs _ Hj) as [Hq|(x & Hx & Hd & Hc)].
    + destruct Hone as [[_ ->]|(Hd & _ & [->|(j1 & -> & Hc)])]; [by left|by left|].
      apply elem_of_app in Hq as [?|Hq]; [by left|]. apply list_elem_of_singleton in Hq as ->.
      right. exists o. split; [constructor|done].
    + right. exists x. rewrite <- Hdue. split; [by constructor|done].
Qed.

(** The accounts with automatic rotation, by the query of the scheduler. *)
Definition automatic (d : db) (o : obj credential) : bool :=
  c_rotation_enabled (val o) || bool_decide (is_Some (enabled_rotation_policy d (val o))).

Lemma by_next_rotation_perm l : by_next_rotation l ≡ₚ l.
Proof.
  unfold by_next_rotation. rewrite sort_by_Permutation.
  transitivity (sort_by (λ o, created_at (c_stamps (val o))) l); [|apply sort_by_Permutation].
  induction (sort_by _ l) as [|o l' IH]; [done|]. simpl.
  destruct (decide (c_next_rotation_at (val o) = None)) as [E|E].
  - rewrite bool_decide_false by tauto. rewrite bool_decide_true by done.
    rewrite <- Permutation_middle. by constructor.
  - rewrite bool_decide_true by done. rewrite bool_decide_false by done. simpl. by constructor.
Qed.

Lemma candidates_all d limit :
  count_rows (automatic d) (credentials d) <= Z.of_nat limit →
  ∀ o, o ∈ rotation_candidates d limit ↔ credentials d !! pk o = Some (val o) ∧ automatic d o = true.
Proof.
  intros Hle o. unfold rotation_candidates. rewrite take_ge.
  - rewrite by_next_rotation_perm. by rewrite elem_of_objects_filter.
  - rewrite (Permutation_length (by_next_rotation_perm _)). unfold count_rows, automatic in Hle. lia.
Qed.

(** Periodic scheduling is exact while the accounts under automatic rotation
    fit the batch: afterwards every such account that was due has an active job,
    and a job is created only for an account that was due (its due date passed, or
    unknown). *)
Theorem schedule_due_rotations_exact at_ limit w jobs w' :
  schedule_due_rotations at_ limit w = (Ok jobs, w') →
  count_rows (automatic (w_db w)) (credentials (w_db w)) <= Z.of_nat limit →
  let t := default (w_clock w) at_ in
  (∀ o, credentials (w_db w) !! pk o = Some (val o) → automatic (w_db w) o = true →
     due (w_db w) (val o) t = true → exists_row (active_for (pk o)) (rotation_jobs (w_db w')) = true) ∧
  (∀ job, job ∈ jobs → ∃ o, credentials (w_db w) !! pk o = Some (val o) ∧ automatic (w_db w) o = true ∧
     due (w_db w) (val o) t = true ∧ j_credential (val job) = pk o).
Proof.
  unfold schedule_due_rotations. intros H Hle. apply bind_ok_inv in H as (t & w1 & R & H).
  assert (t = default (w_clock w) at_ ∧ w_db w1 = w_db w) as [-> Hd] by (destruct at_; by prim_inv R).
  apply bind_ok_inv in H as (l & w2 & R1 & H). prim_inv R1. rewrite Hd in *.
  apply schedule_fold_inv in H as (_ & Hall & Hjobs). rewrite Hd in *. split.
  - intros o Ho Ha. apply Hall. by apply candidates_all.
  - intros job Hj. destruct (Hjobs _ Hj) as [?%not_elem_of_nil|(o & Ho & Hdue & Hc)]; [done|].
    apply candidates_all in Ho as [? ?]; [|done]. by exists o.
Qed.

Lemma filter_filter_and {A} (f g : A → bool) l :
  List.filter f (List.filter g l) = List.filter (λ x, g x && f x) l.
Proof. induction l as [|x l IH]; [done|]. simpl. destruct (g x); simpl; by rewrite IH. Qed.

Lemma In_firstn {A} n (l : list A) x : In x (take n l) → In x l.
Proof. rewrite <- (firstn_skipn n l) at 2. intros H. apply in_or_app. by left. Qed.

(** Accounts that were never rotated starve behind a full batch: PostgreSQL
    sorts missing due dates last, and the query takes the first [limit] accounts
    whether they are due or not.  When [limit] accounts have a due date, even one
    far away, no account without one gets a job, although it is due. *)
Theorem undated_accounts_starve at_ limit w jobs w' :
  schedule_due_rotations at_ limit w = (Ok jobs, w') →
  Z.of_nat limit <= count_rows (λ o, automatic (w_db w) o && bool_decide (c_next_rotation_at (val o) ≠ None))
                      (credentials (w_db w)) →
  ∀ job, job ∈ jobs → ∃ cr, credentials (w_db w) !! j_credential (val job) = Some cr ∧ c_next_rotation_at cr ≠ None.
Proof.
  unfold schedule_due_rotations. intros H Hle. apply bind_ok_inv in H as (t & w1 & R & H).
  assert (w_db w1 = w_db w) as Hd by (destruct at_; by prim_inv R).
  apply bind_ok_inv in H as (l & w2 & R1 & H). prim_inv R1. rewrite Hd in *.
  apply schedule_fold_inv in H as (_ & _ & Hjobs). intros job Hj.
  destruct (Hjobs _ Hj) as [?%not_elem_of_nil|(o & Ho & _ & Hc)]; [done|]. rewrite Hc. exists (val o).
  unfold rotation_candidates, by_next_rotation in Ho.
  rewrite take_app_le in Ho.
  - apply list_elem_of_In, In_firstn, list_elem_of_In, elem_of_sort_by, list_elem_of_In, filter_In in Ho as [Ho Hn].
    apply list_elem_of_In, elem_of_sort_by, elem_of_objects_filter in Ho as [Ho _].
    apply bool_decide_eq_true in Hn. done.
  - rewrite (Permutation_length (sort_by_Permutation _ _)),
      (Permutation_length (filter_perm _ _ _ (sort_by_Permutation _ _))).
    unfold count_rows, objects_filter in *. rewrite filter_filter_and. unfold automatic in Hle. lia.
Qed.

End executions.

(** ** Examples *)

#[local] Existing Instance demo_platform.

#[local] Existing Instance demo_encrypting.

(** An SSH account, its secret, and a backend that accepts every change. *)
Definition demo_account (secret : string) (next : option Z) : credential :=
  Credential "root" 20 None "root" PASSWORD ("enc:" +:+ secret) active_key_id "" active_key_id 1 true true
    (Some 30) "demo" None None next RotationStatus.NEVER 0 None (Stamps 0 0) "local".

Definition demo_backend : rotation_backend := RotationBackend true None (λ _ _ _, mret tt).
Definition demo_registry : backend_registry := BackendRegistry {[ "demo" := demo_backend ]} ∅ (λ _, None).

Definition rotation_db (secret : string) : db :=
  empty_db <| credentials := {[ 30%N := demo_account secret None; 31%N := demo_account secret (Some (demo_now + day)) ]} |>.

Definition queue_demo : M (obj rotation_job * bool) := queue_rotation 30 None "" None.

Definition demo_queued : world := Eval vm_compute in (queue_demo (demo_world (rotation_db "old"))).2.
Definition demo_job : obj rotation_job := Eval vm_compute in
  match queue_demo (demo_world (rotation_db "old")) with
  | (Ok (o, _), _) => o
  | _ => Obj 0%N (RotationJob 0 None "" "" CANCELLED 0 None None 0 None "" "" "" "" (Stamps 0 0))
  end.

Definition demo_prepared : outcome prepared * world := prepare_rotation demo_registry (pk demo_job) demo_queued.
Definition demo_running : world := Eval vm_compute in demo_prepared.2.
Definition demo_running_job : obj rotation_job := Eval vm_compute in
  match demo_prepared.1 with Ok (Started o _ _ _ _) => o | _ => demo_job end.

Example rotation_success :
  (λ o, (j_status (val o), j_new_key_version (val o)))
    <$> match (execute_rotation demo_registry (pk demo_job) demo_queued).1 with Ok o => Some o | _ => None end
  = Some (SUCCEEDED, Some 2).
Proof. vm_compute. reflexivity. Qed.

Example rotation_unconfigured :
  (λ o, (j_status (val o), j_error_code (val o)))
    <$> match (execute_rotation (clear_rotation_backends demo_registry) (pk demo_job) demo_queued).1 with
        Ok o => Some o | _ => None end
  = Some (ACTION_REQUIRED, "backend_not_configured").
Proof. vm_compute. reflexivity. Qed.

Lemma demo_unique : unique_active (rotation_db "old").
Proof. intros c k1 j1 k2 j2 H. done. Qed.

Definition demo_rotated : world := Eval vm_compute in (complete_rotation (pk demo_job) 30 demo_running).2.

Lemma rotation_refines_slot_witness :
  unique_active (w_db demo_rotated) ∧
  ∃ s', slot_of (w_db demo_rotated) 30 = Some s' ∧ rtc slot_step (Slot (Ok "old") 1 Idle) s'.
Proof.
  destruct (rotation_refines_slot (demo_world (rotation_db "old")) demo_rotated) as [Hu H].
  - exact demo_unique.
  - eapply rtc_l; [apply (step_queue 30 None "" None)|].
    eapply rtc_l; [apply (step_prepare demo_registry (pk demo_job))|].
    eapply rtc_l; [|apply rtc_refl].
    assert (demo_rotated = (complete_rotation (pk demo_job) (j_credential (val demo_running_job)) demo_running).2)
      as -> by (vm_compute; reflexivity).
    assert ((prepare_rotation demo_registry (pk demo_job)
               (queue_rotation 30 None "" None (demo_world (rotation_db "old"))).2).2 = demo_running)
      as -> by (vm_compute; reflexivity).
    apply step_complete. vm_compute. reflexivity.
  - split; [exact Hu|]. apply H. vm_compute. reflexivity.
Defined.

Lemma rotation_never_loses_secret_witness :
  let w' := (execute_rotation demo_registry (pk demo_job) demo_queued).2 in
  holds (w_db w') 30 "token-2" 2 ∨ (holds (w_db w') 30 "old" 1 ∧ keeps (w_db w') (pk demo_job) "token-2").
Proof.
  apply (rotation_never_loses_secret demo_registry (pk demo_job) demo_queued demo_running_job
    (Obj 30%N (demo_account "old" None)) demo_backend "old" "token-2" demo_running (Ok tt) demo_running "old" 1).
  - vm_compute. reflexivity.
  - reflexivity.
  - reflexivity.
  - exists (demo_account "old" None). split; [vm_compute; reflexivity|split; vm_compute; reflexivity].
Defined.

Definition demo_failure : outcome (obj rotation_job) * world :=
  _finish_without_rotation (pk demo_job) FAILED "timeout" "" demo_running.
Definition demo_failed : world := Eval vm_compute in demo_failure.2.
Definition demo_failed_outcome : outcome (obj rotation_job) := Eval vm_compute in demo_failure.1.
Definition demo_failed_job : obj rotation_job := Eval vm_compute in
  match demo_failed_outcome with Ok o => o | _ => demo_job end.

Lemma retry_delay_bounds_witness :
  ∃ cr' delay, credentials (w_db demo_failed) !! 30%N = Some cr' ∧
    c_next_rotation_at cr' = Some (w_clock demo_running + hours delay) ∧ 2 <= delay <= 24.
Proof.
  pose proof (retry_delay_bounds (pk demo_job) FAILED "timeout" "" demo_running
    demo_failed_job demo_failed (val demo_running_job) (demo_account "old" None)) as H.
  destruct H as (cr' & delay & H1 & H2 & H3 & _); [vm_compute; reflexivity|vm_compute; reflexivity
    |reflexivity|vm_compute; reflexivity|vm_compute; discriminate|].
  exists cr', delay. split; [exact H1|]. split; [exact H2|exact H3].
Defined.

(** The job of an account whose secret is the one-character string of code 233. *)
Definition accented : string := of_chars [chr 233].
Definition demo_accented : world := Eval vm_compute in (queue_demo (demo_world (rotation_db accented))).2.

Lemma non_ascii_secret_never_rotated_witness :
  holds (w_db (execute_rotation demo_registry (pk demo_job) demo_accented).2) 30 accented 1.
Proof.
  pose proof (non_ascii_secret_never_rotated demo_registry (pk demo_job) demo_accented (val demo_job)
    (demo_account accented None) accented) as H.
  destruct (execute_rotation demo_registry (pk demo_job) demo_accented) as [r w'].
  apply H; vm_compute; reflexivity.
Defined.

Lemma running_job_blocks_account_witness :
  queue_rotation 30 None "" None demo_running = (Ok (demo_running_job, false), demo_running) ∧
  execute_rotation demo_registry (pk demo_job) demo_running = (Ok demo_running_job, demo_running).
Proof.
  apply (running_job_blocks_account demo_registry (pk demo_job) (val demo_running_job) (demo_account "old" None)
    None "" None demo_running).
  - assert (demo_running = (prepare_rotation demo_registry (pk demo_job)
               (queue_rotation 30 None "" None (demo_world (rotation_db "old"))).2).2) as ->
      by (vm_compute; reflexivity).
    eapply step_refines; [eapply (step_refines (demo_world (rotation_db "old"))); [exact demo_unique|apply step_queue]|apply step_prepare].
  - vm_compute. reflexivity.
  - reflexivity.
  - vm_compute. reflexivity.
Defined.

Definition demo_schedule (limit : nat) : outcome (list (obj rotation_job)) * world :=
  schedule_due_rotations (Some demo_now) limit (demo_world (rotation_db "old")).

Definition jobs_of (r : outcome (list (obj rotation_job))) : list (obj rotation_job) :=
  match r with Ok l => l | Raise _ => [] end.

(** With room for both accounts, the one without a due date is queued... *)
Lemma schedule_due_rotations_exact_witness :
  exists_row (active_for 30) (rotation_jobs (w_db (demo_schedule 2).2)) = true.
Proof.
  apply (schedule_due_rotations_exact (Some demo_now) 2 (demo_world (rotation_db "old"))
           (jobs_of (demo_schedule 2).1) (demo_schedule 2).2)
    with (o := Obj 30%N (demo_account "old" None)); vm_compute; first [reflexivity | discriminate].
Defined.

(** ... with a batch of one it is not. *)
Lemma undated_accounts_starve_witness :
  Forall (λ job, j_credential (val job) ≠ 30%N) (jobs_of (demo_schedule 1).1).
Proof.
  apply Forall_forall. intros job Hj.
  destruct (undated_accounts_starve (Some demo_now) 1 (demo_world (rotation_db "old"))
           (jobs_of (demo_schedule 1).1) (demo_schedule 1).2) with (job := job) as (cr & Hcr & Hn).
  - vm_compute. reflexivity.
  - vm_compute. discriminate.
  - exact Hj.
  - intros E. rewrite E in Hcr. vm_compute in Hcr. injection Hcr as <-. by apply Hn.
Defined.
