(* ===== verification/Governance.v ===== *)
(** * Governance ([pamolive/operations/governance.py])

    Risk scores of access policies, recertification campaigns (one item per
    policy, each kept or revoked), the list of security findings and the
    compliance report. *)

From S2P Require Import Prelude PyStr Json Crypto PyTime Models World AuditTrail Rbac Ip Policies.

Local Open Scope Z_scope.

(** ** Risk *)

Record risk_result := RiskResult { score : Z; level : string; reasons : list string }.

Definition sum_list (l : list Z) : Z := foldr Z.add 0 l.

Record policy_size := PolicySize { size_users : Z; size_targets : Z; size_credentials : Z }.

(** Members are counted once per group. *)
Definition _policy_size (d : db) (p : access_policy) : policy_size :=
  PolicySize
    (sum_list ((λ g, Z.of_nat (size (ug_users (val g))))
       <$> objects_filter (λ g, bool_decide (pk g ∈ p_user_groups p)) (user_groups d)))
    (sum_list ((λ g, Z.of_nat (size (tg_targets (val g))))
       <$> objects_filter (λ g, bool_decide (pk g ∈ p_target_groups p)) (target_groups d)))
    (Z.of_nat (size (p_credentials p))).

(** [if b: score += points; reasons.append(reason)] *)
Definition rule (b : bool) (points : Z) (reason : string) : list (Z * string) :=
  if b then [(points, reason)] else [].

(** [if big: ... elif some: ...] on a measured quantity. *)
Definition threshold (n high low : Z) (on_high on_low : Z * string) : list (Z * string) :=
  if high <? n then [on_high] else if low <? n then [on_low] else [].

(** The rules in the order of the source. *)
Definition risk_findings (p : access_policy) (sz : policy_size) : list (Z * string) :=
  rule (negb (p_requires_approval p)) 25 "Accès sans approbation" ++
  rule (negb (p_requires_mfa p)) 25 "MFA non obligatoire" ++
  rule ((p_approval_quorum p <? 2) && p_requires_approval p) 8 "Quorum d'approbation inférieur à 2" ++
  rule (bool_decide (VIEW_SECRET ∈ p_actions p)) 15 "Révélation de secret autorisée" ++
  rule (bool_decide (REVEAL_TOTP ∈ p_actions p)) 20 "Révélation TOTP autorisée" ++
  rule (bool_decide (START_SESSION ∈ p_actions p)) 12 "Ouverture de session privilégiée autorisée" ++
  threshold (p_max_duration_minutes p) 480 120
    (12, "Durée de session supérieure à 8h") (6, "Durée de session supérieure à 2h") ++
  threshold (p_max_concurrent_sessions p) 3 1
    (10, "Concurrence de sessions élevée") (5, "Plusieurs sessions simultanées autorisées") ++
  rule (bool_decide (p_time_frames p = ∅)) 8 "Aucune plage horaire" ++
  rule (bool_decide (p_source_cidrs p = [])) 8 "Aucune restriction réseau source" ++
  rule (p_allow_clipboard_copy p) 5 "Copie presse-papiers autorisée" ++
  rule (p_allow_clipboard_paste p) 5 "Collage presse-papiers autorisé" ++
  rule ((bool_decide ("ssh" ∈ p_protocols p) || bool_decide (p_protocols p = []))
        && bool_decide (p_command_deny_patterns p = [])) 5 "Pas de commandes SSH bloquées" ++
  threshold (size_users sz) 20 5
    (12, "Large population d'utilisateurs") (6, "Population d'utilisateurs significative") ++
  threshold (size_targets sz) 20 5
    (12, "Large périmètre de cibles") (6, "Périmètre de cibles significatif").

Definition risk_level (score : Z) : string :=
  if 70 <=? score then "critical" else if 45 <=? score then "high"
  else if 20 <=? score then "medium" else "low".

Definition score_access_policy (d : db) (p : access_policy) : risk_result :=
  if negb (p_enabled p) then RiskResult 0 "inactive" ["Politique inactive"]
  else
    let found := risk_findings p (_policy_size d p) in
    let score := Z.min (sum_list (fst <$> found)) 100 in
    RiskResult score (risk_level score)
      (if decide (found = []) then ["Contrôles principaux en place"] else snd <$> found).

Definition json_strings (l : list string) : json := JArr (JStr <$> l).

Definition policy_entitlement_snapshot (d : db) (p : obj access_policy) : list (string * json) :=
  let risk := score_access_policy d (val p) in
  [("policy_id", JStr (str_uuid (pk p))); ("name", JStr (p_name (val p))); ("enabled", JBool (p_enabled (val p)));
   ("actions", json_strings (p_actions (val p))); ("protocols", json_strings (p_protocols (val p)));
   ("requires_approval", JBool (p_requires_approval (val p)));
   ("approval_quorum", JInt (p_approval_quorum (val p)));
   ("requires_mfa", JBool (p_requires_mfa (val p)));
   ("max_duration_minutes", JInt (p_max_duration_minutes (val p)));
   ("max_concurrent_sessions", JInt (p_max_concurrent_sessions (val p)));
   ("user_groups", json_strings ((λ g, ug_name (val g))
      <$> objects_filter (λ g, bool_decide (pk g ∈ p_user_groups (val p))) (user_groups d)));
   ("target_groups", json_strings ((λ g, tg_name (val g))
      <$> objects_filter (λ g, bool_decide (pk g ∈ p_target_groups (val p))) (target_groups d)));
   ("risk_score", JInt (score risk)); ("risk_level", JStr (level risk)); ("risk_reasons", json_strings (reasons risk))].

(** [AccessPolicy.objects.order_by("name")] *)
Definition name_le (a b : obj access_policy) : Prop := String.leb (p_name (val a)) (p_name (val b)) = true.
#[global] Instance name_le_dec a b : Decision (name_le a b).
Proof. unfold name_le. apply _. Defined.

Definition policies_by_name (d : db) : list (obj access_policy) := merge_sort name_le (rows (policies d)).

(** [sorted(..., key=score, reverse=True)[:limit]]: stable, highest first. *)
Definition ranked_policy_risks (d : db) (limit : nat) : list (obj access_policy * risk_result) :=
  take limit (sort_by (λ x, - score x.2)
    ((λ p, (p, score_access_policy d (val p))) <$> policies_by_name d)).

(** ** Campaigns *)

Section governance.
Context {PF : Platform}.

Definition campaign_resource (k : id) : resource := Resource "operations.accessreviewcampaign" (str_uuid k).
Definition item_resource (k : id) : resource := Resource "operations.accessreviewitem" (str_uuid k).

(** [AccessReviewItem(...)] for each policy: the keys are drawn as they are built. *)
Definition review_item_of (campaign : id) (items : list (id * (stamps → access_review_item))) (p : obj access_policy)
    : M (list (id * (stamps → access_review_item))) :=
  k ← uuid4;
  d ← asks (λ d, d);
  mret (items ++ [(k, AccessReviewItem campaign (pk p) (policy_entitlement_snapshot d p)
                        (score (score_access_policy d (val p))) "pending" None None "")]).

Definition create_access_review_campaign (name : string) (created_by : option id) (due_at : option Z)
    : M (obj access_review_campaign) :=
  atomic (
    k ← uuid4;
    st ← new_stamps;
    let campaign := AccessReviewCampaign name OPEN due_at created_by None None st in
    insert_row campaigns k campaign ;;
    all ← asks policies_by_name;
    items ← fold_m all [] (review_item_of k);
    for_each items (λ '(i, item), st ← new_stamps; insert_row review_items i (item st)) ;;
    record_event created_by "governance.access_review.created" (campaign_resource k)
      [("items", JInt (Z.of_nat (length items)));
       ("due_at", JStr (match due_at with Some t => isoformat t | None => "" end))] None ;;
    mret (Obj k campaign)).

Definition decide_item (decision : string) (actor : id) (comment : string) (t stamp : Z) (i : access_review_item)
    : access_review_item :=
  i <| ri_decision := decision |> <| ri_decided_by := Some actor |> <| ri_decided_at := Some t |>
    <| ri_comment := slice_to 2000 comment |> <| ri_stamps ::= touch stamp |>.

Definition decide_access_review_item (item : id) (decision : string) (actor : id) (comment : string)
    : M (obj access_review_item) :=
  atomic (
    locked ← get_row review_items "AccessReviewItem" item;
    policy ← get_row policies "AccessPolicy" (ri_policy (val locked));
    campaign ← get_row campaigns "AccessReviewCampaign" (ri_campaign (val locked));
    raise_if (bool_decide (rv_status (val campaign) ≠ OPEN)) (ValueError "La campagne de revue est clôturée.") ;;
    raise_if (negb (bool_decide (decision ∈ ["keep"; "revoke"]))) (ValueError "Décision de revue invalide.") ;;
    t ← now;
    stamp ← now;
    save_fields review_items (pk locked) (decide_item decision actor comment t stamp) ;;
    (if bool_decide (decision = "revoke") && p_enabled (val policy)
     then _ ← now; save_fields policies (pk policy) (λ p, p <| p_enabled := false |>) else mret tt) ;;
    record_event (Some actor) ("governance.access_review." +:+ decision) (item_resource (pk locked))
      [("campaign_id", JStr (str_uuid (ri_campaign (val locked))));
       ("policy_id", JStr (str_uuid (ri_policy (val locked))));
       ("risk_score", JInt (ri_risk_score (val locked)));
       ("comment", JStr (slice_to 2000 comment))] None ;;
    mret (Obj (pk locked) (decide_item decision actor comment t stamp (val locked)))).

(** ** Findings *)

Record finding := Finding { severity : string; title : string; detail : string }.

(** [if n: findings.append(...)] *)
Definition counted_finding (n : Z) (severity title rest : string) : list finding :=
  if n =? 0 then [] else [Finding severity title (str_int n +:+ rest)].

Definition stale_session (t : Z) (o : obj privileged_session) : bool :=
  (bool_decide (s_status (val o) = SessionStatus.ACTIVE) || bool_decide (s_status (val o) = SessionStatus.TERMINATING))
  && match s_expires_at (val o) with Some e => e <? t | None => false end.

Definition rotation_issue (o : obj rotation_job) : bool :=
  bool_decide (j_status (val o) = JobStatus.FAILED) || bool_decide (j_status (val o) = JobStatus.ACTION_REQUIRED).

Definition recent_denial (t : Z) (o : obj audit_event) : bool :=
  bool_decide (e_action (val o) = "session.command_denied") && (t - hours 24 <=? e_occurred_at (val o)).

Definition overdue_item (d : db) (t : Z) (o : obj access_review_item) : bool :=
  bool_decide (ri_decision (val o) = "pending") &&
  match campaigns d !! ri_campaign (val o) with
  | Some c => match rv_due_at c with Some e => e <? t | None => false end && bool_decide (rv_status c = OPEN)
  | None => false
  end.

Definition risk_finding (x : obj access_policy * risk_result) : finding :=
  Finding "critical" ("Politique à risque critique : " +:+ p_name (val x.1)) (join ", " (take 3 (reasons x.2))).

Definition findings_at (d : db) (t : Z) : list finding :=
  counted_finding (count_rows (λ o, bool_decide (sd_status (val o) = DELIVERY_FAILED)) (siem_deliveries d))
    "high" "Livraisons SIEM en échec" " livraison(s) SIEM ont échoué." ++
  counted_finding (count_rows (stale_session t) (sessions d))
    "critical" "Sessions expirées encore ouvertes" " session(s) dépassent leur expiration." ++
  counted_finding (count_rows rotation_issue (rotation_jobs d))
    "high" "Rotations de secrets à traiter" " rotation(s) sont en échec ou requièrent une action." ++
  counted_finding (count_rows (recent_denial t) (audit_events d))
    "high" "Commandes SSH bloquées" " commande(s) bloquées sur les dernières 24h." ++
  (risk_finding <$> List.filter (λ x, 70 <=? score x.2) (ranked_policy_risks d 10)) ++
  counted_finding (count_rows (overdue_item d t) (review_items d))
    "medium" "Recertifications en retard" " habilitation(s) attendent une décision.".

Definition security_findings (limit : nat) : M (list finding) :=
  t ← now;
  d ← asks (λ d, d);
  mret (take limit (findings_at d t)).

(** ** The compliance report *)

Definition finding_json (f : finding) : json :=
  JObj [("severity", JStr (severity f)); ("title", JStr (title f)); ("detail", JStr (detail f))].

Definition risk_json (x : obj access_policy * risk_result) : json :=
  JObj [("policy", JStr (p_name (val x.1))); ("score", JInt (score x.2)); ("level", JStr (level x.2));
        ("reasons", json_strings (reasons x.2))].

Definition campaign_json (d : db) (c : obj access_review_campaign) : json :=
  JObj [("name", JStr (rv_name (val c)));
        ("status", JStr (if decide (rv_status (val c) = OPEN) then "open" else "closed"));
        ("due_at", JStr (match rv_due_at (val c) with Some t => isoformat t | None => "" end));
        ("items", JInt (count_rows (λ i, bool_decide (ri_campaign (val i) = pk c)) (review_items d)))].

(** [order_by("-created_at")[:10]] *)
Definition recent_campaigns (d : db) : list (obj access_review_campaign) :=
  take 10 (sort_by (λ c, - created_at (rv_stamps (val c))) (rows (campaigns d))).

Definition controls_json (d : db) : json :=
  let enabled_and (f : access_policy → bool) := JInt (count_rows (λ p, p_enabled (val p) && f (val p)) (policies d)) in
  JObj [("mfa_enforced_policies", enabled_and p_requires_mfa);
        ("approval_enforced_policies", enabled_and p_requires_approval);
        ("direct_access_policies", enabled_and (negb ∘ p_requires_approval));
        ("active_credentials", JInt (count_rows (λ c,
           match targets d !! c_target (val c) with Some t => t_enabled t | None => false end) (credentials d)));
        ("active_sessions", JInt (count_rows (λ s, bool_decide (s_status (val s) = SessionStatus.ACTIVE)) (sessions d)));
        ("open_access_reviews", JInt (count_rows (λ c, bool_decide (rv_status (val c) = OPEN)) (campaigns d)))].

Definition compliance_report : M json :=
  d ← asks (λ d, d);
  t ← now;
  found ← security_findings 50;
  mret (JObj [("generated_at", JStr (isoformat t)); ("controls", controls_json d);
              ("top_policy_risks", JArr (risk_json <$> take 20 (ranked_policy_risks d 1000)));
              ("recent_access_reviews", JArr (campaign_json d <$> recent_campaigns d));
              ("findings", JArr (finding_json <$> found))]).
End governance.

(** ** Facts about risk *)

Lemma sum_list_app l1 l2 : sum_list (l1 ++ l2) = sum_list l1 + sum_list l2.
Proof. induction l1 as [|x l1 IH]; simpl; [done|]. rewrite IH. lia. Qed.

Definition points (l : list (Z * string)) : Z := sum_list (fst <$> l).

Lemma points_app l1 l2 : points (l1 ++ l2) = points l1 + points l2.
Proof. unfold points. by rewrite fmap_app, sum_list_app. Qed.

Lemma points_rule b n r : points (rule b n r) = if b then n else 0.
Proof. destruct b; unfold points; simpl; lia. Qed.

Lemma points_threshold n h l x y :
  points (threshold n h l x y) = if h <? n then x.1 else if l <? n then y.1 else 0.
Proof. unfold threshold, points. repeat case_match; simpl; lia. Qed.

(** [p'] is at least as strict as [p], control by control. *)
Record stricter (d : db) (p' p : access_policy) : Prop := {
  st_enabled : p_enabled p' = p_enabled p;
  st_approval : p_requires_approval p = true → p_requires_approval p' = true;
  st_quorum : p_approval_quorum p <= p_approval_quorum p';
  st_mfa : p_requires_mfa p = true → p_requires_mfa p' = true;
  st_actions : ∀ a, a ∈ p_actions p' → a ∈ p_actions p;
  st_duration : p_max_duration_minutes p' <= p_max_duration_minutes p;
  st_sessions : p_max_concurrent_sessions p' <= p_max_concurrent_sessions p;
  st_frames : p_time_frames p ≠ ∅ → p_time_frames p' ≠ ∅;
  st_cidrs : p_source_cidrs p ≠ [] → p_source_cidrs p' ≠ [];
  st_copy : p_allow_clipboard_copy p' = true → p_allow_clipboard_copy p = true;
  st_paste : p_allow_clipboard_paste p' = true → p_allow_clipboard_paste p = true;
  st_ssh : "ssh" ∈ p_protocols p' ∨ p_protocols p' = [] → "ssh" ∈ p_protocols p ∨ p_protocols p = [];
  st_deny : p_command_deny_patterns p ≠ [] → p_command_deny_patterns p' ≠ [];
  st_users : size_users (_policy_size d p') <= size_users (_policy_size d p);
  st_targets : size_targets (_policy_size d p') <= size_targets (_policy_size d p);
}.

Lemma points_rule_le (b' b : bool) n r : 0 <= n → (b' = true → b = true) → points (rule b' n r) <= points (rule b n r).
Proof. rewrite !points_rule. destruct b', b; naive_solver lia. Qed.

Lemma points_threshold_le n' n h l x y :
  n' <= n → l <= h → 0 <= y.1 <= x.1 → points (threshold n' h l x y) <= points (threshold n h l x y).
Proof. rewrite !points_threshold. intros. repeat case_match; breflect; lia. Qed.

(** Approval without quorum costs less than no approval. *)
Lemma points_approval_le (a' a : bool) q' q r1 r2 :
  (a = true → a' = true) → q <= q' →
  points (rule (negb a') 25 r1) + points (rule ((q' <? 2) && a') 8 r2)
  <= points (rule (negb a) 25 r1) + points (rule ((q <? 2) && a) 8 r2).
Proof.
  intros Ha Hq. rewrite !points_rule.
  destruct a, a'; rewrite ?andb_true_r, ?andb_false_r; cbn [negb]; [|by specialize (Ha eq_refl)|case_match; lia|lia].
  destruct (q' <? 2) eqn:E', (q <? 2) eqn:E; lia.
Qed.

Lemma risk_findings_stricter d p' p :
  stricter d p' p →
  points (risk_findings p' (_policy_size d p')) <= points (risk_findings p (_policy_size d p)).
Proof.
  intros []. unfold risk_findings. rewrite !points_app.
  pose proof (points_approval_le _ _ _ _ "Accès sans approbation" "Quorum d'approbation inférieur à 2"
    st_approval0 st_quorum0).
  assert (∀ a, bool_decide (a ∈ p_actions p') = true → bool_decide (a ∈ p_actions p) = true)
    by (intros a; rewrite !bool_decide_eq_true; auto).
  enough (∀ m1 m1' m2 m2' q q' rest rest' : Z,
    m1' + q' <= m1 + q → m2' <= m2 → rest' <= rest → m1' + (m2' + (q' + rest')) <= m1 + (m2 + (q + rest))) as Hsum.
  { apply Hsum; [done| |].
    - apply points_rule_le; [lia|]. destruct (p_requires_mfa p), (p_requires_mfa p'); naive_solver.
    - repeat apply Z.add_le_mono;
        first [apply points_threshold_le; cbn [fst]; first [assumption | lia] | apply points_rule_le; [lia|]]; try done; auto.
      + rewrite !bool_decide_eq_true. intros E. destruct (decide (p_time_frames p = ∅)); [done|]. by apply st_frames0 in E.
      + rewrite !bool_decide_eq_true. intros E. destruct (decide (p_source_cidrs p = [])); [done|]. by apply st_cidrs0 in E.
      + rewrite !andb_true_iff, !orb_true_iff, !bool_decide_eq_true. intros [Hp E]. split; [by apply st_ssh0|].
        destruct (decide (p_command_deny_patterns p = [])); [done|]. by apply st_deny0 in E. }
  lia.
Qed.

Lemma points_nonneg_findings p sz : 0 <= points (risk_findings p sz).
Proof.
  unfold risk_findings. rewrite !points_app, !points_rule, !points_threshold. simpl.
  repeat apply Z.add_nonneg_nonneg; repeat case_match; lia.
Qed.

(** Risk scores are between 0 and 100 and fall into the four levels at 20, 45
    and 70; a disabled policy scores 0.  Tightening a policy never raises its
    score: if every control of [p'] is at least as strict as that of [p], then
    [p'] does not score higher. *)
Theorem risk_score_monotone d p' p :
  stricter d p' p →
  score (score_access_policy d p') <= score (score_access_policy d p) ∧
  0 <= score (score_access_policy d p) <= 100 ∧
  (p_enabled p = false → score (score_access_policy d p) = 0) ∧
  (p_enabled p = true → level (score_access_policy d p) = risk_level (score (score_access_policy d p))) ∧
  reasons (score_access_policy d p) ≠ [].
Proof.
  intros Hst. pose proof (risk_findings_stricter _ _ _ Hst) as Hle. unfold points in Hle.
  pose proof (points_nonneg_findings p (_policy_size d p)) as Hpos. unfold points in Hpos.
  unfold score_access_policy. rewrite (st_enabled _ _ _ Hst). destruct (p_enabled p); simpl; [|by split_and!].
  split; [lia|]. split; [lia|]. split; [done|]. split; [done|].
  destruct (decide _) as [|Hne]; [done|]. intros E%fmap_nil_inv. done.
Qed.

(** ** Ranking *)

Lemma name_sort_perm d : policies_by_name d ≡ₚ rows (policies d).
Proof. apply merge_sort_Permutation. Qed.

(** The ranking is the top of the policies: it is in descending order of
    score, holds [limit] policies (all of them when there are fewer), each once and
    with its own score, and no policy left out scores higher than one listed. *)
Theorem ranked_policy_risks_top d limit :
  let ranked := ranked_policy_risks d limit in
  StronglySorted (λ x y, score y.2 <= score x.2) ranked ∧
  length ranked = Nat.min limit (size (policies d)) ∧ NoDup (fst <$> ranked) ∧
  (∀ x, x ∈ ranked → policies d !! pk x.1 = Some (val x.1) ∧ x.2 = score_access_policy d (val x.1)) ∧
  (∀ x k p, x ∈ ranked → policies d !! k = Some p → Obj k p ∉ fst <$> ranked →
     score (score_access_policy d p) <= score x.2).
Proof.
  unfold ranked_policy_risks.
  set (all := (λ p, (p, score_access_policy d (val p))) <$> policies_by_name d).
  set (key := λ x : obj access_policy * risk_result, - score x.2).
  pose proof (sort_by_Permutation key all) as Hperm. pose proof (sort_by_sorted key all) as Hsort.
  assert (Hall : ∀ x, x ∈ sort_by key all ↔ policies d !! pk x.1 = Some (val x.1) ∧ x.2 = score_access_policy d (val x.1)).
  { intros x. rewrite Hperm. unfold all. rewrite list_elem_of_fmap.
    setoid_rewrite name_sort_perm. setoid_rewrite elem_of_rows. destruct x as [o r]. naive_solver. }
  assert (Hnd : NoDup (fst <$> sort_by key all)).
  { rewrite Hperm. unfold all. rewrite <- list_fmap_compose. setoid_rewrite list_fmap_id.
    rewrite name_sort_perm. pose proof (objects_filter_NoDup (λ _, true) (policies d)) as H.
    unfold objects_filter in H. by rewrite List.filter_true in H. }
  assert (Hlen : length (sort_by key all) = size (policies d)).
  { rewrite Hperm. unfold all. rewrite length_fmap, name_sort_perm. unfold rows.
    by rewrite length_fmap, length_map_to_list. }
  rewrite <- (take_drop limit (sort_by key all)) in Hsort, Hnd. rewrite fmap_app in Hnd.
  apply StronglySorted_app in Hsort as (Hcross & Hs & _). apply NoDup_app in Hnd as (Hnd & _).
  assert (Hin : ∀ x, x ∈ take limit (sort_by key all) → x ∈ sort_by key all).
  { intros x Hx. rewrite <- (take_drop limit (sort_by key all)). apply elem_of_app. by left. }
  split; [|split; [|split; [done|split]]].
  - clear -Hs. induction Hs as [|x l Hl IH Hx]; constructor; [done|].
    eapply Forall_impl; [exact Hx|]. unfold key. intros y Hy. lia.
  - by rewrite length_take, Hlen.
  - intros x Hx. by apply Hall, Hin.
  - intros x k p Hx Hp Hout.
    assert (Hy : (Obj k p, score_access_policy d p) ∈ sort_by key all) by by apply Hall.
    rewrite <- (take_drop limit (sort_by key all)) in Hy. apply elem_of_app in Hy as [Hy|Hy].
    + exfalso. apply Hout. by apply (list_elem_of_fmap_2 fst) in Hy.
    + specialize (Hcross _ _ Hx Hy). unfold key in Hcross. simpl in Hcross. lia.
Qed.

(** ** Campaigns *)

Section campaign_facts.
Context {PF : Platform}.

(** What [bulk_create] leaves: the rows, at keys that were free. *)
Lemma insert_items_inv (items : list (id * (stamps → access_review_item))) w u w' :
  for_each items (λ '(i, item), st ← new_stamps; insert_row review_items i (item st)) w = (Ok u, w') →
  ∃ new, w_db w' = w_db w <| review_items := new |> ∧ review_items (w_db w) ⊆ new ∧ NoDup (items.*1) ∧
    (∀ i item, (i, item) ∈ items → review_items (w_db w) !! i = None ∧ ∃ st, new !! i = Some (item st)) ∧
    (∀ i x, new !! i = Some x → review_items (w_db w) !! i = None → i ∈ items.*1).
Proof.
  revert w. induction items as [|[i item] items IH]; intros w H; simpl in H.
  - injection H as <- <-. exists (review_items (w_db w)). split; [by destruct (w_db w)|]. split; [done|]. split; [constructor|].
    split; [by intros ? ? ?%not_elem_of_nil|]. intros; congruence.
  - apply bind_ok_inv in H as ([] & w1 & R & H). run_inv R. simpl in Enew.
    apply IH in H as (new & Hd & Hsub & Hnd & Hin & Hout). simpl in *.
    exists new. split; [by rewrite Hd|]. split.
    { etrans; [|exact Hsub]. by apply insert_subseteq. }
    split; [|split].
    + constructor; [|done]. intros ([k f] & -> & Hk)%list_elem_of_fmap. apply Hin in Hk as [Hk _].
      simpl in Hk. by rewrite lookup_insert_eq in Hk.
    + intros i' item'. rewrite elem_of_cons. intros [[= -> ->]|Hi].
      * split; [done|]. eexists. eapply lookup_weaken; [apply lookup_insert_eq|exact Hsub].
      * apply Hin in Hi as [Hi ?]. split; [|done]. by apply lookup_insert_None in Hi as [? _].
    + intros i' x Hx Hn. destruct (decide (i' = i)) as [->|Hne]; [constructor|]. right. eapply Hout; [done|].
      by rewrite lookup_insert_ne.
Qed.

(** The items built: one per policy, in order. *)
Lemma review_items_of_inv k l acc w items w' :
  fold_m l acc (review_item_of k) w = (Ok items, w') →
  w_db w' = w_db w ∧ ∃ built, items = acc ++ built ∧
    Forall2 (λ x p, x.2 = AccessReviewItem k (pk p) (policy_entitlement_snapshot (w_db w) p)
                            (score (score_access_policy (w_db w) (val p))) "pending" None None "") built l.
Proof.
  revert acc w. induction l as [|p l IH]; intros acc w H; simpl in H.
  - prim_inv H. split; [done|]. exists []. by rewrite app_nil_r.
  - apply bind_ok_inv in H as (acc1 & w1 & R & H). unfold review_item_of in R. run_inv R.
    apply IH in H as (Hd & built & -> & HF). split; [done|]. eexists (_ :: built).
    rewrite <- app_assoc. split; [done|]. constructor; [|done]. done.
Qed.

(** Lists related pointwise, where the right one determines the left element. *)
Lemma Forall2_match {A B} (f : B → A → Prop) (l1 : list A) (l2 : list B) :
  Forall2 (λ x p, f p x) l1 l2 → NoDup l2 →
  (∀ p, p ∈ l2 → ∃ x, x ∈ l1 ∧ f p x) ∧ (∀ x, x ∈ l1 → ∃ p, p ∈ l2 ∧ f p x) ∧
  ((∀ p p' x, p ∈ l2 → p' ∈ l2 → f p x → f p' x → p = p') →
   ∀ x y p, x ∈ l1 → y ∈ l1 → p ∈ l2 → f p x → f p y → x = y).
Proof.
  induction 1 as [|x p l1 l2 Hxp HF IH]; intros Hnd.
  { split; [by intros ? ?%not_elem_of_nil|]. split; [by intros ? ?%not_elem_of_nil|].
    by intros _ ? ? ? ?%not_elem_of_nil. }
  apply NoDup_cons in Hnd as [Hp Hnd]. destruct (IH Hnd) as (Ha & Hb & Hc). split; [|split].
  - intros q [->|Hq]%elem_of_cons; [exists x; split; [constructor|done]|].
    destruct (Ha _ Hq) as (y & ? & ?). exists y. split; [by constructor|done].
  - intros y [->|Hy]%elem_of_cons; [exists p; split; [constructor|done]|].
    destruct (Hb _ Hy) as (q & ? & ?). exists q. split; [by constructor|done].
  - intros Hdet y z q Hy Hz Hq Hqy Hqz.
    assert (Hhead : ∀ t, t ∈ l1 → f q t → f q x → False).
    { intros t Ht Hqt Hqx. destruct (Hb _ Ht) as (r & Hr & Hrt). apply Hp.
      rewrite (Hdet p q x ltac:(constructor) Hq Hxp Hqx).
      by rewrite (Hdet q r t Hq ltac:(by constructor) Hqt Hrt). }
    apply elem_of_cons in Hy as [->|Hy], Hz as [->|Hz]; [done|by exfalso; eapply Hhead..|].
    destruct (Hb _ Hy) as (r & Hr & Hry). assert (q = r) as -> by (apply (Hdet q r y); auto; by constructor).
    apply (Hc ltac:(intros; eapply Hdet; eauto; by constructor) _ _ r); auto.
Qed.

(** A new campaign reviews every policy exactly once: each policy of the
    database gets one new pending item, which records its entitlements and its
    risk score as they are at that moment; every new item is of this kind, and
    the items of other campaigns and the policies are untouched. *)
Theorem campaign_reviews_every_policy name by_ due w c w' :
  create_access_review_campaign name by_ due w = (Ok c, w') →
  let new i := review_items (w_db w) !! i = None in
  rv_status (val c) = OPEN ∧ campaigns (w_db w') !! pk c = Some (val c) ∧ policies (w_db w') = policies (w_db w) ∧
  review_items (w_db w) ⊆ review_items (w_db w') ∧
  (∀ k p, policies (w_db w) !! k = Some p → exists! i, new i ∧ ∃ x, review_items (w_db w') !! i = Some x ∧ ri_policy x = k) ∧
  (∀ i x, new i → review_items (w_db w') !! i = Some x →
     ri_campaign x = pk c ∧ ri_decision x = "pending" ∧
     ∃ p, policies (w_db w) !! ri_policy x = Some p ∧
       ri_risk_score x = score (score_access_policy (w_db w) p) ∧
       ri_snapshot x = policy_entitlement_snapshot (w_db w) (Obj (ri_policy x) p)).
Proof.
  unfold create_access_review_campaign. intros H. run_inv H.
  match type of R with fold_m _ _ _ ?w1 = _ => set (w1' := w1) in * end.
  assert (Hd1 : w_db w1' = w_db w <| campaigns := campaigns (w_db w1') |>) by done.
  apply review_items_of_inv in R as (Hd & built & -> & HF).
  apply insert_items_inv in R0 as (new & Hd2 & Hsub & Hnd & Hin & Hout).
  apply record_event_frame in R1 as (st1 & ev1 & oc1 & Hd3). rewrite Hd in *. simpl app in *.
  assert (Hrev : review_items (w_db w2) = new) by by rewrite Hd3, Hd2.
  assert (Hrow : ∀ p, p ∈ policies_by_name (w_db w1') ↔ policies (w_db w) !! pk p = Some (val p)).
  { intros p. rewrite name_sort_perm. apply elem_of_rows. }
  assert (Hlnd : NoDup (policies_by_name (w_db w1'))).
  { rewrite name_sort_perm. pose proof (objects_filter_NoDup (λ _, true) (policies (w_db w1'))) as Hf.
    unfold objects_filter in Hf. by rewrite List.filter_true in Hf. }
  destruct (Forall2_match _ _ _ HF Hlnd) as (Hevery & Honly & Huniq).
  split; [done|]. split; [rewrite Hd3, Hd2; simpl; apply lookup_insert_eq|]. split; [by rewrite Hd3, Hd2|].
  rewrite Hrev. split; [done|]. split.
  - intros k p Hp. destruct (Hevery (Obj k p)) as ([i f] & Hi & Hf); [by apply Hrow|]. simpl in Hf.
    exists i. split.
    + destruct (Hin _ _ Hi) as [Hn (st & Hst)]. split; [exact Hn|]. eexists. split; [exact Hst|]. by rewrite Hf.
    + intros i' [Hn' (x & Hx & Hk)]. pose proof (Hout _ _ Hx Hn') as ([i2 f2] & -> & Hi2)%list_elem_of_fmap.
      destruct (Honly _ Hi2) as (q & Hq & Hf2). simpl in Hf2.
      destruct (Hin _ _ Hi2) as [_ (st & Hst)]. simpl in Hx. rewrite Hst in Hx. injection Hx as <-.
      rewrite Hf2 in Hk. simpl in Hk.
      assert (Hsame : ∀ p1 p2, p1 ∈ policies_by_name (w_db w1') → p2 ∈ policies_by_name (w_db w1') →
                pk p1 = pk p2 → p1 = p2).
      { intros [k1 v1] [k2 v2] H1%Hrow H2%Hrow E. simpl in *. congruence. }
      assert (q = Obj k p) as -> by (apply Hsame; [done|by apply Hrow|done]).
      assert ((i, f) = (i2, f2)) as E; [|by injection E].
      apply (Huniq) with (p := Obj k p); try done; [].
      intros p1 p2 y H1 H2 E1 E2. apply Hsame; [done..|]. rewrite E1 in E2.
      by apply (f_equal (λ g, ri_policy (g st))) in E2.
  - intros i x Hn Hx. pose proof (Hout _ _ Hx Hn) as ([i2 f2] & -> & Hi2)%list_elem_of_fmap.
    destruct (Honly _ Hi2) as (q & Hq & Hf2). simpl in Hf2.
    destruct (Hin _ _ Hi2) as [_ (st & Hst)]. simpl in Hx. rewrite Hst in Hx. injection Hx as <-.
    rewrite Hf2. simpl. split; [done|]. split; [done|]. apply Hrow in Hq. exists (val q). split; [done|].
    split; [done|]. by destruct q.
Qed.

Lemma decide_item_inv item decision actor comment w r w' :
  decide_access_review_item item decision actor comment w = (Ok r, w') →
  ∃ i p c stamp, review_items (w_db w) !! item = Some i ∧ policies (w_db w) !! ri_policy i = Some p ∧
    campaigns (w_db w) !! ri_campaign i = Some c ∧ rv_status c = OPEN ∧ (decision = "keep" ∨ decision = "revoke") ∧
    r = Obj item (decide_item decision actor comment (w_clock w) stamp i) ∧
    audit_frame (w_db w <| review_items ::= <[item := val r]> |>
      <| policies ::= if decide (decision = "revoke" ∧ p_enabled p = true)
                      then <[ri_policy i := p <| p_enabled := false |>]> else λ m, m |>) (w_db w').
Proof.
  unfold decide_access_review_item. intros H. run_inv H. rewrite Epk, Epk0 in *.
  exists (val a), (val a0), (val a1), (w_clock (advance w)). do 3 (split; [done|]).
  split; [by apply bool_decide_eq_false, dec_stable in R2|].
  apply negb_false_iff, bool_decide_eq_true in R3.
  split; [set_unfold in R3; naive_solver|].
  apply record_event_frame in R5. simpl in Erow. rewrite R in Erow. injection Erow as <-. split; [done|].
  destruct (bool_decide (decision = "revoke") && p_enabled (val a0)) eqn:E.
  - apply andb_true_iff in E as [?%bool_decide_eq_true ?]. rewrite decide_True by done. run_inv R4.
    simpl in Erow. rewrite R0 in Erow. injection Erow as <-. exact R5.
  - rewrite decide_False by (intros [-> E2]; rewrite E2 in E; done). prim_inv R4. exact R5.
Qed.

(** C40: Recertification decides access.  A decision is accepted only while the
    campaign is open and only as keep or revoke; it is recorded on its item, under the
    name of who decided, and changes no other item.  Keeping leaves every policy as it
    is.  Revoking disables the reviewed policy, changes nothing else of it and no other
    policy; and as long as that policy is not enabled again, whatever else happens to it
    and to the others, it authorises nobody for any action, from any address, at any
    time.  A refused decision changes nothing. *)
Theorem review_decision_enforced item decision actor comment w :
  match decide_access_review_item item decision actor comment w with
  | (Raise _, w') => w_db w' = w_db w
  | (Ok r, w') => ∃ i c p, review_items (w_db w) !! item = Some i ∧ campaigns (w_db w) !! ri_campaign i = Some c ∧
      policies (w_db w) !! ri_policy i = Some p ∧
      rv_status c = OPEN ∧ review_items (w_db w') = <[item := val r]> (review_items (w_db w)) ∧
      ri_decision (val r) = decision ∧ ri_decided_by (val r) = Some actor ∧
      (decision = "keep" ∧ policies (w_db w') = policies (w_db w) ∨
       decision = "revoke" ∧ policies (w_db w') = <[ri_policy i := p <| p_enabled := false |>]> (policies (w_db w)) ∧
       ∀ w'' u action ip at_ l w3,
         (∀ q, policies (w_db w'') !! ri_policy i = Some q → p_enabled q = false) →
         policies_allowing u action ip at_ w'' = (Ok l, w3) → ∀ q, q ∈ l → pk q ≠ ri_policy i)
  end.
Proof.
  destruct (decide_access_review_item item decision actor comment w) as [[r|e] w'] eqn:E;
    [|by eapply atomic_raise_db].
  apply decide_item_inv in E as (i & p & c & stamp & Hi & Hp & Hc & Ho & Hdec & -> & (st & ev & oc & Hd)).
  exists i, c, p. do 4 (split; [done|]). split; [by rewrite Hd|]. do 2 (split; [done|]).
  assert (Hpol : policies (w_db w') = (if decide (decision = "revoke" ∧ p_enabled p = true)
            then <[ri_policy i := p <| p_enabled := false |>]> else λ m, m) (policies (w_db w))) by by rewrite Hd.
  destruct Hdec as [-> | ->]; [left; split; [done|]; rewrite Hpol; by rewrite decide_False by naive_solver|].
  right. split; [done|]. split.
  - rewrite Hpol. destruct (decide _) as [_|Hn]; [done|]. symmetry. apply insert_id. rewrite Hp. f_equal.
    destruct (p_enabled p) eqn:Ep; [naive_solver|]. destruct p. simpl in Ep. by subst.
  - intros w'' u action ip at_ l w3 Hoff Hall q Hq Eq.
    apply policies_allowing_sound in Hall as [_ Hs]. destruct (Hs _ Hq) as (uo & t & _ & _ & Hg).
    destruct Hg as [(Hrow & Hen & _) _]. rewrite Eq in Hrow. by rewrite (Hoff _ Hrow) in Hen.
Qed.

(** ** Findings *)

Lemma counted_finding_length n a b c : (length (counted_finding n a b c) <= 1)%nat.
Proof. unfold counted_finding. case_match; simpl; lia. Qed.

Lemma findings_length d t : (length (findings_at d t) <= 15)%nat.
Proof.
  unfold findings_at. rewrite !length_app, length_fmap.
  pose proof (List.filter_length_le (λ x, 70 <=? score x.2) (ranked_policy_risks d 10)) as Hf.
  assert (length (ranked_policy_risks d 10) <= 10)%nat by (unfold ranked_policy_risks; rewrite length_take; lia).
  pose proof (λ n a b c, counted_finding_length n a b c) as Hc.
  repeat match goal with |- context [length (counted_finding ?n ?a ?b ?c)] =>
    let H := fresh in pose proof (Hc n a b c) as H; revert H;
    generalize (length (counted_finding n a b c)); intros ? ? end. lia.
Qed.

Lemma counted_finding_in {A} (f : obj A → bool) (m : gmap id A) sev ttl rest o :
  m !! pk o = Some (val o) → f o = true →
  Finding sev ttl (str_int (count_rows f m) +:+ rest) ∈ counted_finding (count_rows f m) sev ttl rest.
Proof.
  intros Ho Hf. unfold counted_finding. rewrite (proj2 (Z.eqb_neq _ _)); [by apply list_elem_of_singleton|].
  unfold count_rows. assert (Hin : o ∈ objects_filter f m) by by apply elem_of_objects_filter.
  destruct (objects_filter f m); [by apply not_elem_of_nil in Hin|]. simpl. lia.
Qed.

(** The title is reported with the severity. *)
Definition reported (l : list finding) (sev ttl : string) : Prop :=
  ∃ f, f ∈ l ∧ severity f = sev ∧ title f = ttl.

(** The findings page hides nothing: there are at most 15 findings, so the
    default limit of 50 never cuts the list, and each class of incident is
    reported as soon as one instance exists: a failed SIEM delivery, a live session
    past its expiry, a failed or blocked rotation, a command denied in the last 24
    hours, an overdue item of an open campaign; and every policy among the ten
    riskiest whose score is critical, by name. *)
Theorem security_findings_complete w :
  ∃ l, security_findings 50 w = (Ok l, advance w) ∧ (length l <= 15)%nat ∧
    (∀ o, siem_deliveries (w_db w) !! pk o = Some (val o) → sd_status (val o) = DELIVERY_FAILED →
       reported l "high" "Livraisons SIEM en échec") ∧
    (∀ o, sessions (w_db w) !! pk o = Some (val o) → stale_session (w_clock w) o = true →
       reported l "critical" "Sessions expirées encore ouvertes") ∧
    (∀ o, rotation_jobs (w_db w) !! pk o = Some (val o) → rotation_issue o = true →
       reported l "high" "Rotations de secrets à traiter") ∧
    (∀ o, audit_events (w_db w) !! pk o = Some (val o) → recent_denial (w_clock w) o = true →
       reported l "high" "Commandes SSH bloquées") ∧
    (∀ x, x ∈ ranked_policy_risks (w_db w) 10 → 70 <= score x.2 →
       reported l "critical" ("Politique à risque critique : " +:+ p_name (val x.1))) ∧
    (∀ o, review_items (w_db w) !! pk o = Some (val o) → overdue_item (w_db w) (w_clock w) o = true →
       reported l "medium" "Recertifications en retard").
Proof.
  exists (findings_at (w_db w) (w_clock w)). pose proof (findings_length (w_db w) (w_clock w)) as Hlen.
  split. { unfold security_findings. run. simpl w_db. rewrite take_ge by lia. done. }
  split; [done|]. unfold findings_at, reported. setoid_rewrite elem_of_app.
  split; [|split; [|split; [|split; [|split]]]].
  - intros o Ho Hs. eexists. split; [left; eapply (counted_finding_in _ _ _ _ _ o Ho); by apply bool_decide_eq_true|done].
  - intros o Ho Hs. setoid_rewrite elem_of_app. eexists. split; [right; left; by eapply counted_finding_in|done].
  - intros o Ho Hs. do 2 setoid_rewrite elem_of_app. eexists. split; [do 2 right; left; by eapply counted_finding_in|done].
  - intros o Ho Hs. do 3 setoid_rewrite elem_of_app. eexists. split; [do 3 right; left; by eapply counted_finding_in|done].
  - intros x Hx Hs. do 4 setoid_rewrite elem_of_app. exists (risk_finding x). split; [do 4 right; left|done].
    apply list_elem_of_fmap_2, list_elem_of_In, filter_In. split; [by apply list_elem_of_In|]. by apply Z.leb_le.
  - intros o Ho Hs. do 4 setoid_rewrite elem_of_app. eexists. split; [do 5 right; by eapply counted_finding_in|done].
Qed.
End campaign_facts.

(** ** Examples *)

Section witnesses.
#[local] Existing Instance demo_platform.

(** A direct-access policy without MFA, and its hardened version. *)
Definition demo_hardened : access_policy :=
  demo_policy <| p_requires_mfa := true |> <| p_requires_approval := true |> <| p_actions := [START_SESSION] |>.

Example demo_scores :
  score_access_policy demo_policy_db demo_policy
  = RiskResult 90 "critical" ["Accès sans approbation"; "MFA non obligatoire"; "Révélation de secret autorisée";
      "Ouverture de session privilégiée autorisée"; "Aucune plage horaire"; "Pas de commandes SSH bloquées"] ∧
  score_access_policy demo_policy_db demo_hardened
  = RiskResult 33 "medium" ["Quorum d'approbation inférieur à 2"; "Ouverture de session privilégiée autorisée";
      "Aucune plage horaire"; "Pas de commandes SSH bloquées"].
Proof. vm_compute. repeat split. Qed.

Lemma risk_score_monotone_witness :
  score (score_access_policy demo_policy_db demo_hardened) <= score (score_access_policy demo_policy_db demo_policy).
Proof.
  apply (risk_score_monotone demo_policy_db demo_hardened demo_policy).
  split; first [reflexivity | discriminate | idtac].
  - intros a Ha. simpl in Ha. apply list_elem_of_singleton in Ha as ->. vm_compute. right. left.
  - intros H. by destruct (H eq_refl).
  - vm_compute. intros H. exact H.
  - intros H. exact H.
Defined.

Definition demo_campaign_run : outcome (obj access_review_campaign) * world :=
  create_access_review_campaign "Q1" (Some 7%N) None (demo_world demo_policy_db).
Definition demo_campaign_outcome : outcome (obj access_review_campaign) := Eval vm_compute in demo_campaign_run.1.
Definition demo_campaign : obj access_review_campaign := Eval vm_compute in
  match demo_campaign_outcome with Ok c => c | _ => Obj 0%N (AccessReviewCampaign "" OPEN None None None None (Stamps 0 0)) end.
Definition demo_campaigned : world := Eval vm_compute in demo_campaign_run.2.

Lemma campaign_reviews_every_policy_witness :
  exists! i, review_items demo_policy_db !! i = None ∧
    ∃ x, review_items (w_db demo_campaigned) !! i = Some x ∧ ri_policy x = 40%N.
Proof.
  apply (campaign_reviews_every_policy "Q1" (Some 7%N) None (demo_world demo_policy_db) demo_campaign demo_campaigned)
    with (p := demo_policy); vm_compute; reflexivity.
Defined.
End witnesses.
