(* ===== verification/Licensing.v ===== *)
(** * Editions and licences ([pamolive/licensing/])

    Which edition runs, whether its licence is valid, and the limits it puts on
    active users and targets.  Commercial licences are JSON documents signed with
    Ed25519; the signature scheme, the key loader, the file system and the
    interpreter's date parser are parameters. *)

From S2P Require Import Prelude PyStr PyFloat Json Loads Crypto PyTime Models World Text.

Local Open Scope Z_scope.

(** ** The environment *)

Record license_settings := LicenseSettings {
  PAMOLIVE_EDITION : string;
  PAMOLIVE_CLUSTER_ENABLED : bool;
  PAMOLIVE_NODE_ID : string;
  PAMOLIVE_LICENSE : string;
  PAMOLIVE_LICENSE_FILE : string;
  PAMOLIVE_LICENSE_PUBLIC_KEY : string;
  PAMOLIVE_LICENSE_PUBLIC_KEY_FILE : string;
}.

(** [read_bytes] of a path: the contents, or the text of the [OSError].
    [load_pem]: an Ed25519 key, another kind of key ([None]), or an exception.
    [fromisoformat]: the instant a date string denotes, read as UTC when it names
    no zone. *)
Class LicenseEnv := {
  license_conf : license_settings;
  read_bytes : string → string + string;
  json_error : string → string;
  public_key : Type;
  load_pem_public_key : string → outcome (option public_key);
  ed25519_verify : public_key → bytes → string → bool;
  fromisoformat : string → option Z;
}.

(** ** Editions *)

Definition COMMUNITY : string := "community".
Definition LAB : string := "lab".
Definition BUSINESS : string := "business".
Definition ENTERPRISE : string := "enterprise".
Definition edition_choices : list string := [COMMUNITY; LAB; BUSINESS; ENTERPRISE].

(** Limits come from the licence document: any JSON value, [JNull] for none. *)
Record license_status := LicenseStatus {
  ls_edition : string;
  ls_valid : bool;
  ls_source : string;
  ls_reason : string;
  ls_customer : string;
  ls_features : list string;
  ls_max_users : json;
  ls_max_targets : json;
  ls_max_nodes : json;
  ls_expires_at : string;
}.

Definition cluster_allowed (s : license_status) : bool := bool_decide ("cluster" ∈ ls_features s).
Definition production_allowed (s : license_status) : bool := bool_decide (ls_edition s ≠ LAB).

Definition as_dict (s : license_status) : json :=
  JObj [("edition", JStr (ls_edition s)); ("valid", JBool (ls_valid s)); ("source", JStr (ls_source s));
        ("reason", JStr (ls_reason s)); ("customer", JStr (ls_customer s));
        ("features", JArr (JStr <$> ls_features s)); ("cluster_allowed", JBool (cluster_allowed s));
        ("production_allowed", JBool (production_allowed s));
        ("limits", JObj [("max_users", ls_max_users s); ("max_targets", ls_max_targets s); ("max_nodes", ls_max_nodes s)]);
        ("expires_at", JStr (ls_expires_at s))].

(** [LicenseStatus(edition=..., valid=False, source=..., reason=...)] *)
Definition invalid_status (edition source reason : string) : license_status :=
  LicenseStatus edition false source reason "" [] JNull JNull (JInt 1) "".

(** ** Encodings *)

(** [binascii.a2b_base64] in its lenient mode: characters outside the alphabet are
    skipped, a complete padding ends the input.  [q]: the sextets of the current
    group. *)
Fixpoint a2b_base64 (q : list Z) (pads : Z) (l : list ascii) : option bytes :=
  match l with
  | [] => if decide (q = []) then Some [] else None
  | c :: l' =>
      if decide (c = "="%char) then
        match q with
        | [a; b] => if 1 <=? pads then Some [a * 4 + b / 16] else a2b_base64 q (pads + 1) l'
        | [a; b; d] => Some [a * 4 + b / 16; b mod 16 * 16 + d / 4]
        | _ => a2b_base64 q pads l'
        end
      else
        match b64_value c with
        | None => a2b_base64 q pads l'
        | Some v =>
            match q with
            | [a; b; d] => r ← a2b_base64 [] 0 l';
                Some (a * 4 + b / 16 :: b mod 16 * 16 + d / 4 :: d mod 4 * 64 + v :: r)
            | _ => a2b_base64 (q ++ [v]) 0 l'
            end
        end
  end.

(** The characters ["-"] and ["_"] of the URL-safe alphabet. *)
Definition from_urlsafe (c : ascii) : ascii :=
  if decide (c = "-"%char) then "+"%char else if decide (c = "_"%char) then "/"%char else c.

(** [base64.urlsafe_b64decode] refuses text outside ASCII. *)
Definition _b64decode (value : string) : option bytes :=
  let padding := replicate (Z.to_nat ((- len value) mod 4)) "="%char in
  if is_ascii value then a2b_base64 [] 0 (from_urlsafe <$> (chars value ++ padding)) else None.

(** [json.dumps] with its default [ensure_ascii=True]: what is not printable ASCII is
    escaped (the control characters below U+0020 already are). *)
Definition ascii_only (c : ascii) : list ascii :=
  if code c <? 127 then [c] else chars "\u00" ++ [hex_digit (code c / 16); hex_digit (code c mod 16)].

Definition _canonical_payload (payload : list (string * json)) : string :=
  of_chars (mbind ascii_only (chars (dumps (JObj payload)))).

Section licensing.
Context {LE : LicenseEnv}.

Definition configured_edition : string :=
  let edition := strip (lower (PAMOLIVE_EDITION license_conf)) in
  if decide (edition ∈ edition_choices) then edition else COMMUNITY.

Definition cluster_enabled : bool := PAMOLIVE_CLUSTER_ENABLED license_conf.

Definition node_id : string :=
  let n := strip (PAMOLIVE_NODE_ID license_conf) in if decide (n = "") then "node-1" else n.

(** ** The licence document *)

(** The document and where it came from; [inr]: the [str(exc)] of a caught error.
    A file that is not UTF-8 raises [UnicodeDecodeError], which is not caught. *)
Definition _load_license_document : outcome ((option json * string) + string) :=
  let inline := strip (PAMOLIVE_LICENSE license_conf) in
  if decide (inline ≠ "") then
    Ok (match loads inline with Some j => inl (Some j, "inline") | None => inr (json_error inline) end)
  else
    let license_file := strip (PAMOLIVE_LICENSE_FILE license_conf) in
    if decide (license_file ≠ "") then
      match read_bytes license_file with
      | inr e => Ok (inr e)
      | inl data =>
          match decode data with
          | None => Raise (ValueError "UnicodeDecodeError")
          | Some text =>
              Ok (match loads text with Some j => inl (Some j, license_file) | None => inr (json_error text) end)
          end
      end
    else Ok (inl (None, "none")).

(** The key data, empty when none is configured; a missing file is an [OSError]. *)
Definition _load_public_key : string + string :=
  let inline := strip (PAMOLIVE_LICENSE_PUBLIC_KEY license_conf) in
  if decide (inline ≠ "") then inl (encode inline)
  else
    let public_key_file := strip (PAMOLIVE_LICENSE_PUBLIC_KEY_FILE license_conf) in
    if decide (public_key_file ≠ "") then read_bytes public_key_file else inl "".

(** [str(payload.get(key, "") or "")] *)
Definition text_of (payload : list (string * json)) (key : string) : string :=
  match dict_get key payload with
  | Some j => if json_truthy j then py_str j else ""
  | None => ""
  end.

(** [_verify_signed_license]: the payload, or the reason of the refusal ([inr]).
    The exceptions that [get_license_status] turns into a reason are refusals
    too; other exceptions are raised. *)
Definition signature_valid (key : public_key) (signature : string) (payload : list (string * json)) : bool :=
  match _b64decode signature with
  | Some s => ed25519_verify key s (_canonical_payload payload)
  | None => false
  end.

(** [s.replace("Z", "+00:00")] *)
Definition replace_z (s : string) : string :=
  of_chars (mbind (λ c, if decide (c = "Z"%char) then chars "+00:00" else [c]) (chars s)).

Definition check_expiry (payload : list (string * json)) : M (list (string * json) + string) :=
  let expires_at := text_of payload "expires_at" in
  if decide (expires_at = "") then mret (inl payload)
  else match fromisoformat (replace_z expires_at) with
       | None => mret (inr "License expiration date is invalid.")
       | Some expires =>
           t ← now;
           mret (if expires <? t then inr "License has expired." else inl payload)
       end.

Definition _verify_signed_license (document : json) : M (list (string * json) + string) :=
  match document with
  | JObj members =>
      match dict_get "payload" members, dict_get "signature" members with
      | Some (JObj payload), Some (JStr signature) =>
          match _load_public_key with
          | inr e => mret (inr e)
          | inl data =>
              if decide (data = "") then mret (inr "No license public key configured.")
              else match load_pem_public_key data with
                   | Raise (ValueError e) | Raise (TypeError e) => mret (inr e)
                   | Raise e => raise e
                   | Ok None => mret (inr "License public key must be Ed25519.")
                   | Ok (Some key) =>
                       if negb (signature_valid key signature payload)
                       then mret (inr "License signature is invalid.")
                       else check_expiry payload
                   end
          end
      | _, _ => mret (inr "License must contain a payload object and a signature.")
      end
  | _ => raise (OtherError "AttributeError")
  end.

(** [tuple(str(feature) for feature in payload.get("features", []))]: arrays,
    strings (by character) and objects (their keys) can be iterated. *)
Definition features_of (payload : list (string * json)) : outcome (list string) :=
  match dict_get "features" payload with
  | None => Ok []
  | Some (JArr l) => Ok (py_str <$> l)
  | Some (JStr s) => Ok ((λ c, of_chars [c]) <$> chars s)
  | Some (JObj l) => Ok (fst <$> l)
  | Some _ => Raise (TypeError "object is not iterable")
  end.

Definition field_of (payload : list (string * json)) (key : string) : json := default JNull (dict_get key payload).

(** [str(payload.get("edition", "")).lower()] *)
Definition edition_of (payload : list (string * json)) : string :=
  lower (match dict_get "edition" payload with Some j => py_str j | None => "" end).

Definition get_license_status : M license_status :=
  let edition := configured_edition in
  if decide (edition = COMMUNITY) then
    mret (LicenseStatus COMMUNITY true "built-in" "" "" [] JNull JNull (JInt 1) "")
  else if decide (edition = LAB) then
    mret (LicenseStatus LAB true "built-in" "Lab edition is limited to evaluation use." "" ["cluster"]
            (JInt 5) (JInt 2) JNull "")
  else
    loaded ← of_outcome _load_license_document;
    match loaded with
    | inr e => mret (invalid_status edition "invalid" e)
    | inl (document, source) =>
        match document with
        | Some document =>
            if negb (json_truthy document)
            then mret (invalid_status edition source
                         "A signed license is required for Business and Enterprise editions.")
            else
              r ← _verify_signed_license document;
              match r with
              | inr reason => mret (invalid_status edition source reason)
              | inl payload =>
                  if decide (edition_of payload ≠ edition)
                  then mret (invalid_status edition source ("License edition " +:+ repr_str (edition_of payload)
                               +:+ " does not match configured edition."))
                  else
                    features ← of_outcome (features_of payload);
                    mret (LicenseStatus edition true source "" (text_of payload "customer") features
                            (field_of payload "max_users") (field_of payload "max_targets")
                            (field_of payload "max_nodes") (text_of payload "expires_at"))
              end
        | None => mret (invalid_status edition source
                          "A signed license is required for Business and Enterprise editions.")
        end
    end.

(** ** Limits ([limits.py]) *)

Definition LicenseError (msg : string) : exn := OtherError ("LicenseError: " +:+ msg).
Definition is_license_error (e : exn) : bool :=
  match e with OtherError m => startswith "LicenseError: " m | _ => false end.

Definition assert_cluster_allowed : M unit :=
  status ← get_license_status;
  raise_if (cluster_enabled && negb (cluster_allowed status))
    (LicenseError "Le cluster est réservé aux éditions Lab, Business et Enterprise.") ;;
  raise_if (cluster_enabled && negb (ls_valid status))
    (LicenseError (if decide (ls_reason status = "") then "La licence active n'est pas valide." else ls_reason status)).

(** [count >= limit]: booleans are integers, other values cannot be compared. *)
Definition reaches (count : Z) (limit : json) : outcome bool :=
  match limit with
  | JInt n => Ok (n <=? count)
  | JBool b => Ok ((if b then 1 else 0) <=? count)
  | JFloat f => Ok (float_le (float_value f) count)
  | _ => Raise (TypeError "'>=' not supported between instances")
  end.

Definition is_none (j : json) : bool := match j with JNull => true | _ => false end.

(** [pre_save] of a user; [pk]: the row being saved, if it exists already. *)
Definition enforce_active_user_limit (pk_ : option id) (u : user) : M unit :=
  status ← get_license_status;
  if negb (ls_valid status) || is_none (ls_max_users status) || negb (u_is_active u) then mret tt
  else
    active ← asks (λ d, count_rows (λ o, u_is_active (val o) && bool_decide (Some (pk o) ≠ pk_)) (users d));
    over ← of_outcome (reaches active (ls_max_users status));
    raise_if over (ValidationError ("L'édition " +:+ ls_edition status +:+ " limite l'instance à "
      +:+ py_str (ls_max_users status) +:+ " utilisateurs actifs.")).

Definition enforce_target_limit (pk_ : option id) : M unit :=
  status ← get_license_status;
  if negb (ls_valid status) || is_none (ls_max_targets status) then mret tt
  else
    count ← asks (λ d, count_rows (λ o, bool_decide (Some (pk o) ≠ pk_)) (targets d));
    over ← of_outcome (reaches count (ls_max_targets status));
    raise_if over (ValidationError ("L'édition " +:+ ls_edition status +:+ " limite l'instance à "
      +:+ py_str (ls_max_targets status) +:+ " targets.")).

(** ** Saving ([signals.py]): the limit is tested before the row is written *)

Definition save_user (k : id) (u : user) : M unit :=
  enforce_active_user_limit (Some k) u ;;
  modify (λ d, d <| users ::= <[k := u]> |>).

Definition save_target (k : id) (t : target) : M unit :=
  enforce_target_limit (Some k) ;;
  modify (λ d, d <| targets ::= <[k := t]> |>).

(** ** System checks ([checks.py]): the identifiers of the messages *)

Definition cluster_messages : M (list string) :=
  try_except (assert_cluster_allowed ;; mret []) (λ e,
    if is_license_error e then Some (mret ["pamolive.E003"]) else None).

Definition licensing_checks : M (list string) :=
  status ← get_license_status;
  cluster ← cluster_messages;
  mret ((if decide (configured_edition ∉ edition_choices) then ["pamolive.E001"] else []) ++
        (if decide (node_id = "") then ["pamolive.E002"] else []) ++ cluster ++
        (if decide ((configured_edition = BUSINESS ∨ configured_edition = ENTERPRISE) ∧ ls_valid status = false)
         then ["pamolive.E004"] else []) ++
        (if decide (configured_edition = LAB ∧ cluster_enabled = true) then ["pamolive.W001"] else [])).
End licensing.

(** ** What a valid licence means *)

Section license_facts.
Context {LE : LicenseEnv}.

(** The payload of the configured document carries a signature that the configured
    Ed25519 key accepts, and has not expired at instant [t]. *)
Definition signed_and_current (payload : list (string * json)) (t : Z) : Prop :=
  ∃ document members source signature data key,
    _load_license_document = Ok (inl (Some document, source)) ∧ document = JObj members ∧
    dict_get "payload" members = Some (JObj payload) ∧ dict_get "signature" members = Some (JStr signature) ∧
    _load_public_key = inl data ∧ load_pem_public_key data = Ok (Some key) ∧
    signature_valid key signature payload = true ∧
    (text_of payload "expires_at" ≠ "" →
       ∃ expires, fromisoformat (replace_z (text_of payload "expires_at")) = Some expires ∧ t <= expires).

Lemma check_expiry_inv payload w r w' :
  check_expiry payload w = (Ok r, w') → reads w w' ∧
  ∀ p, r = inl p → p = payload ∧ (text_of payload "expires_at" ≠ "" →
    ∃ expires, fromisoformat (replace_z (text_of payload "expires_at")) = Some expires ∧ w_clock w <= expires).
Proof.
  unfold check_expiry. intros H. destruct (decide _) as [E|E].
  - prim_inv H. split; [done|]. intros p [= <-]. done.
  - destruct (fromisoformat _) as [e|] eqn:Ee; [|prim_inv H; split; [done|]; by intros p [=]].
    run_inv H. split; [apply reads_advance|]. intros p. destruct (e <? w_clock w) eqn:El; [by intros [=]|].
    intros [= <-]. split; [done|]. intros _. exists e. split; [done|]. by apply Z.ltb_ge in El.
Qed.

(** A branch that refuses the licence. *)
Ltac refused H := prim_inv H; split; [done|]; by intros ? [=].

Lemma verify_license_inv document w r w' :
  _verify_signed_license document w = (Ok r, w') → reads w w' ∧
  ∀ payload, r = inl payload → ∃ members signature data key, document = JObj members ∧
    dict_get "payload" members = Some (JObj payload) ∧ dict_get "signature" members = Some (JStr signature) ∧
    _load_public_key = inl data ∧ load_pem_public_key data = Ok (Some key) ∧
    signature_valid key signature payload = true ∧
    (text_of payload "expires_at" ≠ "" →
       ∃ expires, fromisoformat (replace_z (text_of payload "expires_at")) = Some expires ∧ w_clock w <= expires).
Proof.
  unfold _verify_signed_license. intros H.
  destruct document as [| | | | |members|]; try done.
  destruct (dict_get "payload" members) as [[| | | | |payload|]|] eqn:Ep;
    try (refused H).
  destruct (dict_get "signature" members) as [[| | |signature| | |]|] eqn:Es;
    try (refused H).
  destruct _load_public_key as [data|e] eqn:Ek;
    [|refused H].
  destruct (decide _) as [|Hdata];
    [refused H|].
  destruct (load_pem_public_key data) as [[key|]|e] eqn:El; [| |destruct e; try done];
    try (refused H).
  destruct (signature_valid key signature payload) eqn:Ev; cbn [negb] in H;
    [|refused H].
  apply check_expiry_inv in H as [Hr He]. split; [done|]. intros p E. destruct (He _ E) as [-> Hx].
  by exists members, signature, data, key.
Qed.

Lemma license_status_quiet : quiet get_license_status.
Proof.
  unfold get_license_status, _verify_signed_license, check_expiry. solve_quiet.
Qed.
Lemma active_limit_quiet k u : quiet (enforce_active_user_limit k u).
Proof. pose proof license_status_quiet. unfold enforce_active_user_limit. solve_quiet. Qed.

(** C38: A commercial edition is valid only under a signed licence.  When
    [get_license_status] reports a valid Business or Enterprise edition, the
    configured document has a payload whose canonical form carries a signature that
    the configured Ed25519 key accepts, it names that edition, it has not expired
    when it is read, and the limits reported are the payload's. *)
Theorem commercial_license_is_signed w s w' :
  get_license_status w = (Ok s, w') → ls_valid s = true → ls_edition s ∉ [COMMUNITY; LAB] →
  ∃ payload, signed_and_current payload (w_clock w) ∧ edition_of payload = ls_edition s ∧
    ls_edition s = configured_edition ∧ features_of payload = Ok (ls_features s) ∧
    ls_max_users s = field_of payload "max_users" ∧ ls_max_targets s = field_of payload "max_targets" ∧
    ls_max_nodes s = field_of payload "max_nodes".
Proof.
  unfold get_license_status. intros H Hv He. destruct (decide (configured_edition = COMMUNITY)) as [|Hc].
  { prim_inv H. simpl in He. set_solver. }
  destruct (decide (configured_edition = LAB)) as [|Hl]. { prim_inv H. simpl in He. set_solver. }
  apply bind_ok_inv in H as (loaded & w1 & R & H). unfold of_outcome in R. injection R as R <-.
  destruct loaded as [[[document|] source]|e]; [|prim_inv H; done..].
  destruct (negb (json_truthy document)); [prim_inv H; done|].
  apply bind_ok_inv in H as (r & w2 & R1 & H). apply verify_license_inv in R1 as [_ Hp].
  destruct r as [payload|reason]; [|prim_inv H; done].
  destruct (Hp _ eq_refl) as (members & signature & data & key & Hdoc & Hpay & Hsig & Hkey & Hpem & Hval & Hexp).
  destruct (decide (edition_of payload ≠ configured_edition)) as [|Hed]; [prim_inv H; done|].
  apply dec_stable in Hed. apply bind_ok_inv in H as (fs & w3 & R2 & H). unfold of_outcome in R2. injection R2 as R2 <-.
  prim_inv H. simpl. exists payload. split; [|done].
  by exists document, members, source, signature, data, key.
Qed.

(** *** Limits *)

Definition active_users (d : db) : Z := count_rows (λ o, u_is_active (val o)) (users d).

(** Saves of users and targets, and anything that touches neither table. *)
Inductive save_step : world → world → Prop :=
  | step_user k u w : save_step w (save_user k u w).2
  | step_target k t w : save_step w (save_target k t w).2
  | step_other w w' :
      users (w_db w') = users (w_db w) → targets (w_db w') = targets (w_db w) → save_step w w'.

Lemma count_except {A} (f : obj A → bool) (t : gmap id A) k v :
  count_rows f (<[k := v]> t)
  = (if f (Obj k v) then 1 else 0) + count_rows (λ o, f o && bool_decide (Some (pk o) ≠ Some k)) t.
Proof.
  set (g := λ o, f o && bool_decide (Some (pk o) ≠ Some k)).
  assert (Hext : count_rows f (delete k t) = count_rows g (delete k t)).
  { apply count_rows_ext. intros o Ho. unfold g. apply lookup_delete_Some in Ho as [Hne _].
    rewrite bool_decide_true by congruence. by rewrite andb_true_r. }
  rewrite <- insert_delete_eq, count_rows_insert, Hext by apply lookup_delete_eq. f_equal.
  destruct (t !! k) as [v0|] eqn:E; [|by rewrite delete_id].
  rewrite (count_rows_delete g t k v0 E). unfold g. simpl. rewrite (bool_decide_false (Some k ≠ Some k)) by tauto.
  by rewrite andb_false_r.
Qed.

Lemma lab_status w : configured_edition = LAB →
  get_license_status w = (Ok (LicenseStatus LAB true "built-in" "Lab edition is limited to evaluation use." ""
                                ["cluster"] (JInt 5) (JInt 2) JNull ""), w).
Proof. intros E. unfold get_license_status. rewrite E. done. Qed.

(** What a successful save of a user under a numeric limit implies. *)
Lemma save_user_inv k u w r w' s n w1 :
  get_license_status w = (Ok s, w1) → ls_valid s = true → ls_max_users s = JInt n →
  save_user k u w = (r, w') →
  w_db w' = w_db w ∨
  (w_db w' = w_db w <| users ::= <[k := u]> |> ∧
   (u_is_active u = true →
      count_rows (λ o, u_is_active (val o) && bool_decide (Some (pk o) ≠ Some k)) (users (w_db w)) < n)).
Proof.
  intros Hs Hv Hn H. pose proof (quiet_run _ _ _ _ license_status_quiet Hs) as [Hd _].
  unfold save_user, enforce_active_user_limit in H. rewrite run_assoc, (bind_ok _ _ _ _ _ Hs) in H.
  rewrite Hv, Hn in H. simpl is_none in H. cbn [negb orb] in H.
  destruct (u_is_active u) eqn:Eu; cbn [negb] in H.
  - unfold reaches, raise_if, mbind, M_bind, asks, of_outcome in H. rewrite Hd in H.
    destruct (n <=? _) eqn:Ele; [left; injection H as _ <-; done|].
    unfold mret, M_ret, modify in H. injection H as _ <-. right. simpl. rewrite Hd. split; [done|].
    intros _. by apply Z.leb_gt in Ele.
  - rewrite run_ret in H. unfold modify in H. injection H as _ <-. right. simpl. rewrite Hd. done.
Qed.

Lemma save_target_inv k t w r w' s n w1 :
  get_license_status w = (Ok s, w1) → ls_valid s = true → ls_max_targets s = JInt n →
  save_target k t w = (r, w') →
  w_db w' = w_db w ∨
  (w_db w' = w_db w <| targets ::= <[k := t]> |> ∧
   count_rows (λ o, bool_decide (Some (pk o) ≠ Some k)) (targets (w_db w)) < n).
Proof.
  intros Hs Hv Hn H. pose proof (quiet_run _ _ _ _ license_status_quiet Hs) as [Hd _].
  unfold save_target, enforce_target_limit in H. rewrite run_assoc, (bind_ok _ _ _ _ _ Hs) in H.
  rewrite Hv, Hn in H. simpl is_none in H. cbn [negb orb] in H.
  unfold reaches, raise_if, mbind, M_bind, asks, of_outcome in H. rewrite Hd in H.
  destruct (n <=? _) eqn:Ele; [left; injection H as _ <-; done|].
  unfold mret, M_ret, modify in H. injection H as _ <-. right. simpl. rewrite Hd. split; [done|].
  by apply Z.leb_gt in Ele.
Qed.

(** The Lab edition stays within its limits: starting within them, no sequence
    of saves of users and targets (creating, activating or changing them) brings
    the instance beyond 5 active users or 2 targets. *)
Theorem lab_limits_hold w w' :
  configured_edition = LAB → active_users (w_db w) <= 5 → count_rows (λ _, true) (targets (w_db w)) <= 2 →
  rtc save_step w w' → active_users (w_db w') <= 5 ∧ count_rows (λ _, true) (targets (w_db w')) <= 2.
Proof.
  intros Hlab Hu Ht Hsteps. induction Hsteps as [|w w1 w' Hs _ IH]; [done|].
  assert (active_users (w_db w1) <= 5 ∧ count_rows (λ _, true) (targets (w_db w1)) <= 2) as [? ?]; [|by apply IH].
  clear IH. destruct Hs as [k u w|k t w|w w2 Eu Et].
  - destruct (save_user k u w) as [r w2] eqn:E. cbn [snd].
    eapply save_user_inv in E as [Hd|[Hd Hc]]; [by rewrite Hd| |by apply lab_status|done|done].
    rewrite Hd. split; [|done]. unfold active_users in *. simpl. rewrite count_except. simpl.
    destruct (u_is_active u); [specialize (Hc eq_refl); lia|].
    etrans; [|exact Hu]. simpl. apply count_rows_mono. intros o _. by intros [? _]%andb_true_iff.
  - destruct (save_target k t w) as [r w2] eqn:E. cbn [snd].
    eapply save_target_inv in E as [Hd|[Hd Hc]]; [by rewrite Hd| |by apply lab_status|done|done].
    rewrite Hd. split; [done|]. simpl. rewrite count_except. simpl. lia.
  - unfold active_users in *. by rewrite Eu, Et.
Qed.

(** An invalid licence lifts every limit: while the licence of a commercial
    edition is missing, expired or wrongly signed, saving a user or a target is
    never refused, however many there are. *)
Theorem invalid_license_lifts_limits w s w1 k u t :
  get_license_status w = (Ok s, w1) → ls_valid s = false →
  save_user k u w = (Ok tt, with_db (w_db w1 <| users ::= <[k := u]> |>) w1) ∧
  save_target k t w = (Ok tt, with_db (w_db w1 <| targets ::= <[k := t]> |>) w1).
Proof.
  intros Hs Hv. unfold save_user, save_target, enforce_active_user_limit, enforce_target_limit.
  rewrite !run_assoc, !(bind_ok _ _ _ _ _ Hs), Hv. done.
Qed.
End license_facts.

(** ** Examples *)

Section witnesses.

(** Environments: a fixed edition and document; a key whose signature of a message
    is the bytes of the message. *)
Definition demo_env (edition license : string) : LicenseEnv := {|
  license_conf := LicenseSettings edition false "vm-1" license "" "pem" "";
  read_bytes _ := inr "no such file";
  json_error _ := "Expecting value";
  public_key := unit;
  load_pem_public_key _ := Ok (Some tt);
  ed25519_verify _ s m := bool_decide (string_of_bytes s = m);
  fromisoformat s := if decide (s = "2027") then Some (demo_now + day)
                     else if decide (s = "2020") then Some (demo_now - day) else None;
|}.

Definition demo_payload (expires : string) : list (string * json) :=
  [("edition", JStr "business"); ("expires_at", JStr expires); ("max_users", JInt 1)].

(** The document a signer would issue. *)
Definition demo_license (expires : string) : string :=
  dumps (JObj [("payload", JObj (demo_payload expires));
               ("signature", JStr (of_chars (b64encode (bytes_of (_canonical_payload (demo_payload expires))))))]).

Definition demo_status (env : LicenseEnv) : outcome license_status * world := @get_license_status env (demo_world empty_db).

Definition demo_valid : LicenseEnv := Eval vm_compute in demo_env "Business" (demo_license "2027").
Definition demo_valid_status : license_status :=
  LicenseStatus BUSINESS true "inline" "" "" [] (JInt 1) JNull JNull "2027".

Lemma commercial_license_is_signed_witness :
  ∃ payload, @signed_and_current demo_valid payload demo_now ∧ edition_of payload = BUSINESS.
Proof.
  destruct (@commercial_license_is_signed demo_valid (demo_world empty_db) demo_valid_status (advance (demo_world empty_db)))
    as (payload & H1 & H2 & _).
  - vm_compute. reflexivity.
  - reflexivity.
  - vm_compute. intros H. repeat (apply elem_of_cons in H as [H|H]; [discriminate|]). by apply not_elem_of_nil in H.
  - exists payload. split; [exact H1|exact H2].
Defined.

Definition demo_user : user := User "u" "u@example.org" "U" true false false "dark" "fr" "!".

Definition demo_user_db : db := empty_db <| users := {[ 8%N := demo_user ]} |>.

Lemma lab_limits_hold_witness :
  active_users (w_db (@save_user (demo_env "lab" "") 9 demo_user (demo_world demo_user_db)).2) <= 5.
Proof.
  apply (@lab_limits_hold (demo_env "lab" "") (demo_world demo_user_db)
           (@save_user (demo_env "lab" "") 9 demo_user (demo_world demo_user_db)).2).
  - vm_compute. reflexivity.
  - vm_compute. discriminate.
  - vm_compute. discriminate.
  - eapply rtc_l; [apply step_user|apply rtc_refl].
Defined.

(** An expired licence for one user does not stop the second. *)
Definition demo_expired : LicenseEnv := Eval vm_compute in demo_env "business" (demo_license "2020").

Lemma invalid_license_lifts_limits_witness :
  (@save_user demo_expired 9 demo_user (demo_world demo_user_db)).1 = Ok tt.
Proof.
  destruct (@invalid_license_lifts_limits demo_expired (demo_world demo_user_db)
    (invalid_status BUSINESS "inline" "License has expired.") (advance (demo_world demo_user_db)) 9 demo_user
    (Target "srv" "srv.example.org" 22 SSH TRUST_ON_FIRST_USE true "any" "" "" "" "device" None "" "")) as [H _].
  - vm_compute. reflexivity.
  - reflexivity.
  - rewrite H. reflexivity.
Defined.
End witnesses.
