(* ===== verification/Directory.v ===== *)
(** * External identities ([pamolive/connectors/sync.py], [oidc.py])

    Users of an LDAP directory or of an OpenID Connect provider become accounts
    here; groups of the provider are mapped to user groups.  Each mapping that
    applies to an identity is a managed membership, which remembers whether the
    user already was a member ([preserve_membership_on_unlink]). *)

From S2P Require Import Prelude PyStr Json Loads Crypto PyTime Models World Text AuditTrail Vault Licensing.

Local Open Scope Z_scope.

(** [DirectoryUser] ([adapters.py]) *)
Record directory_user := DirectoryUser {
  du_subject : string;
  du_username : string;
  du_email : string;
  du_display_name : string;
  du_groups : list string;
  du_claims : list (string * json);
}.

Definition _normalized (value : string) : string := casefold (strip value).

Section directory.
Context {PF : Platform} {LE : LicenseEnv}.

(** ** Accounts *)

(** The next value of the key sequence of users: one that is not in use. *)
Definition next_user_pk (d : db) : id := fresh (dom (users d)).

(** [User(...).save()]: the licence limit, then [INSERT] under the unique columns
    [username] and [email]. *)
Definition create_user (u : user) : M (obj user) :=
  enforce_active_user_limit None u ;;
  duplicate ← asks (λ d, exists_row (λ o, bool_decide (u_username (val o) = u_username u)
                                          || bool_decide (u_email (val o) = u_email u)) (users d));
  raise_if duplicate (IntegrityError "accounts_user unique") ;;
  k ← asks next_user_pk;
  insert_row users k u ;;
  mret (Obj k u).

(** [INSERT] under [unique_external_identity_subject] and [..._user]. *)
Definition insert_identity (k : id) (x : external_identity) : M unit :=
  duplicate ← asks (λ d, exists_row (λ o, bool_decide (xi_source (val o) = xi_source x)
    && (bool_decide (xi_subject (val o) = xi_subject x) || bool_decide (xi_user (val o) = xi_user x)))
    (external_identities d));
  raise_if duplicate (IntegrityError "unique_external_identity") ;;
  insert_row external_identities k x.

Definition username_taken (d : db) (name : string) : bool :=
  exists_row (λ o, bool_decide (u_username (val o) = name)) (users d).
Definition email_taken (d : db) (email : string) : bool :=
  bool_decide (email ≠ "") && exists_row (λ o, bool_decide (u_email (val o) = email)) (users d).

(** The account and the identity of a new external user. *)
Definition new_external_user (source : id) (du : directory_user) : M (obj external_identity) :=
  u ← create_user (User (du_username du) (du_email du) (du_display_name du) true false false "dark" "fr" "!");
  seen ← now;
  k ← uuid4;
  st ← new_stamps;
  let x := ExternalIdentity source (pk u) (du_subject du) (du_username du) (du_email du) (du_claims du) true
             (Some seen) st in
  insert_identity k x ;;
  mret (Obj k x).

Definition _create_external_user (source : id) (du : directory_user) : M (obj external_identity) :=
  taken ← asks (λ d, username_taken d (du_username du));
  raise_if taken (DirectorySynchronizationError ("L’identifiant local " +:+ repr_str (du_username du)
    +:+ " existe déjà et ne peut pas être lié automatiquement.")) ;;
  taken ← asks (λ d, email_taken d (du_email du));
  raise_if taken (DirectorySynchronizationError ("L’adresse " +:+ repr_str (du_email du)
    +:+ " existe déjà et ne peut pas être liée automatiquement.")) ;;
  new_external_user source du.

(** ** Memberships *)

Definition is_member (d : db) (group user : id) : bool :=
  match user_groups d !! group with Some g => bool_decide (user ∈ ug_users g) | None => false end.

Definition add_member (group user : id) : M unit :=
  modify (λ d, d <| user_groups ::= alter (λ g, g <| ug_users ::= ({[user]} ∪.) |>) group |>).
Definition remove_member (group user : id) : M unit :=
  modify (λ d, d <| user_groups ::= alter (λ g, g <| ug_users ::= (.∖ {[user]}) |>) group |>).

(** [INSERT] under [unique_external_group_membership]. *)
Definition insert_membership (identity mapping : id) (preserve : bool) : M unit :=
  k ← uuid4;
  st ← new_stamps;
  duplicate ← asks (λ d, exists_row (λ o, bool_decide (xm_identity (val o) = identity)
    && bool_decide (xm_mapping (val o) = mapping)) (managed_memberships d));
  raise_if duplicate (IntegrityError "unique_external_group_membership") ;;
  insert_row managed_memberships k (ExternalGroupMembership identity mapping preserve).

(** [identity.managed_group_memberships], each with the group of its mapping. *)
Definition linked (d : db) (identity : id) : list (obj external_group_membership) :=
  objects_filter (λ o, bool_decide (xm_identity (val o) = identity)) (managed_memberships d).

Definition group_of (d : db) (mapping : id) : option id := gm_user_group <$> group_mappings d !! mapping.

(** Another managed membership gives the user this group. *)
Definition has_other_managed_source (d : db) (user group : id) : bool :=
  exists_row (λ o,
    bool_decide (xi_user <$> external_identities d !! xm_identity (val o) = Some user)
    && bool_decide (group_of d (xm_mapping (val o)) = Some group)) (managed_memberships d).

Definition link_mapping (identity : obj external_identity) (existing : list id) (added : Z)
    (m : obj directory_group_mapping) : M Z :=
  if decide (pk m ∈ existing) then mret added
  else
    was_member ← asks (λ d, is_member d (gm_user_group (val m)) (xi_user (val identity)));
    insert_membership (pk identity) (pk m) was_member ;;
    if negb was_member then add_member (gm_user_group (val m)) (xi_user (val identity)) ;; mret (added + 1)
    else mret added.

(** [existing] rows carry the group their mapping had when they were read. *)
Definition unlink_mapping (identity : obj external_identity) (matched : list id) (removed : Z)
    (e : obj external_group_membership * option id) : M Z :=
  let '(m, group) := e in
  if decide (xm_mapping (val m) ∈ matched) then mret removed
  else
    modify (λ d, d <| managed_memberships ::= delete (pk m) |>) ;;
    match group with
    | None => mret removed
    | Some g =>
        other ← asks (λ d, has_other_managed_source d (xi_user (val identity)) g);
        if negb (xm_preserve (val m)) && negb other
        then remove_member g (xi_user (val identity)) ;; mret (removed + 1)
        else mret removed
    end.

Definition reconcile_external_memberships (identity : obj external_identity)
    (matched : list (obj directory_group_mapping)) : M (Z * Z) :=
  existing ← asks (λ d, (λ m, (m, group_of d (xm_mapping (val m)))) <$> linked d (pk identity));
  added ← fold_m matched 0 (link_mapping identity ((λ e, xm_mapping (val e.1)) <$> existing));
  removed ← fold_m existing 0 (unlink_mapping identity (pk <$> matched));
  mret (added, removed).

(** [identity.oidc_default_group_membership]: one to one. *)
Definition oidc_default_of (d : db) (identity : id) : option (obj oidc_default_membership) :=
  List.find (λ o, bool_decide (om_identity (val o) = identity)) (rows (oidc_memberships d)).

Definition has_other_oidc_fallback (d : db) (user group : id) : bool :=
  exists_row (λ o,
    bool_decide (xi_user <$> external_identities d !! om_identity (val o) = Some user)
    && bool_decide (om_user_group (val o) = group)) (oidc_memberships d).

Definition reconcile_oidc_default_membership (identity : obj external_identity) (user_group : option id) : M unit :=
  existing ← asks (λ d, oidc_default_of d (pk identity));
  let user := xi_user (val identity) in
  if (match existing with Some e => bool_decide (Some (om_user_group (val e)) = user_group) | None => false end)
  then mret tt
  else
    match existing with
    | None => mret tt
    | Some e =>
        let previous := om_user_group (val e) in
        modify (λ d, d <| oidc_memberships ::= delete (pk e) |>) ;;
        managed ← asks (λ d, has_other_managed_source d user previous);
        fallback ← asks (λ d, has_other_oidc_fallback d user previous);
        if negb (om_preserve (val e)) && negb managed && negb fallback then remove_member previous user else mret tt
    end ;;
    match user_group with
    | None => mret tt
    | Some g =>
        was_member ← asks (λ d, is_member d g user);
        k ← uuid4;
        st ← new_stamps;
        insert_row oidc_memberships k (OIDCDefaultGroupMembership (pk identity) g was_member) ;;
        if negb was_member then add_member g user else mret tt
    end.

(** ** Directory synchronisation *)

Definition source_mappings (d : db) (source : id) : list (obj directory_group_mapping) :=
  objects_filter (λ m, bool_decide (gm_source (val m) = source) && gm_enabled (val m)) (group_mappings d).

(** The dictionary by normalised name: the last mapping wins. *)
Definition mapping_for (mappings : list (obj directory_group_mapping)) (name : string)
    : option (obj directory_group_mapping) :=
  List.find (λ m, bool_decide (_normalized (gm_external_group (val m)) = _normalized name)) (reverse mappings).

Definition matched_mappings (mappings : list (obj directory_group_mapping)) (groups : list string)
    : list (obj directory_group_mapping) := omap (mapping_for mappings) groups.

Record sync_result := SyncResult {
  created : Z; updated : Z; skipped : Z; memberships_added : Z; memberships_removed : Z }.
#[global] Instance sync_result_settable : Settable sync_result := λ r,
  SyncResult (created r) (updated r) (skipped r) (memberships_added r) (memberships_removed r).

Definition identity_for (d : db) (source : id) (subject : string) : option (obj external_identity) :=
  List.find (λ o, bool_decide (xi_source (val o) = source) && bool_decide (xi_subject (val o) = subject))
    (rows (external_identities d)).

Definition refresh_identity (du : directory_user) (seen stamp : Z) (x : external_identity) : external_identity :=
  x <| xi_username := du_username du |> <| xi_email := du_email du |> <| xi_claims := du_claims du |>
    <| xi_enabled := true |> <| xi_last_seen_at := Some seen |> <| xi_stamps ::= touch stamp |>.

Definition apply_user (source : id) (mappings : list (obj directory_group_mapping)) (acc : sync_result)
    (du : directory_user) : M sync_result :=
  let matched := matched_mappings mappings (du_groups du) in
  found ← asks (λ d, identity_for d source (du_subject du));
  match found with
  | None =>
      if negb (existsb (λ m, gm_auto_create_users (val m)) matched)
      then mret (acc <| skipped ::= Z.succ |>)
      else
        identity ← _create_external_user source du;
        r ← reconcile_external_memberships identity matched;
        mret (acc <| created ::= Z.succ |> <| memberships_added ::= Z.add r.1 |> <| memberships_removed ::= Z.add r.2 |>)
  | Some identity =>
      seen ← now;
      stamp ← now;
      save_fields external_identities (pk identity) (refresh_identity du seen stamp) ;;
      r ← reconcile_external_memberships (identity <| val ::= refresh_identity du seen stamp |>) matched;
      mret (acc <| updated ::= Z.succ |> <| memberships_added ::= Z.add r.1 |> <| memberships_removed ::= Z.add r.2 |>)
  end.

Definition _apply_directory_users (source : id) (directory_users : list directory_user) : M sync_result :=
  atomic (
    mappings ← asks (λ d, source_mappings d source);
    fold_m directory_users (SyncResult 0 0 0 0 0) (apply_user source mappings)).

(** [error.__class__.__name__] and [str(error)] *)
Definition class_name (e : exn) : string :=
  match e with
  | PermissionDenied _ => "PermissionDenied" | ValidationError _ => "ValidationError"
  | DoesNotExist _ => "DoesNotExist" | Http404 => "Http404" | IntegrityError _ => "IntegrityError"
  | DatabaseError => "DatabaseError" | RuntimeError _ => "RuntimeError" | ValueError _ => "ValueError"
  | TypeError _ => "TypeError" | KeyringError _ => "KeyringError" | VaultError _ => "VaultError"
  | RotationBackendError _ _ => "RotationBackendError"
  | DirectorySynchronizationError _ => "DirectorySynchronizationError"
  | DirectoryConnectionError _ => "DirectoryConnectionError"
  | GatewayProtocolError _ => "GatewayProtocolError" | OtherError c => c
  end.

Definition source_resource (k : id) : resource := Resource "connectors.identitysource" (str_uuid k).

Definition result_metadata (r : sync_result) : list (string * json) :=
  [("created", JInt (created r)); ("updated", JInt (updated r)); ("skipped", JInt (skipped r));
   ("memberships_added", JInt (memberships_added r)); ("memberships_removed", JInt (memberships_removed r))].

Definition set_sync (status : sync_status) (at_ : option Z) (err : string) (stamp : Z) (s : identity_source)
    : identity_source :=
  s <| is_last_sync_status := status |> <| is_last_sync_at := match at_ with Some t => Some t | None => is_last_sync_at s end |>
    <| is_last_error := err |> <| is_stamps ::= touch stamp |>.

(** The [except] branch: record the failure, then re-raise. *)
Definition sync_failed (source : id) (text : string) (error : exn) : M sync_result :=
  t ← now;
  stamp ← now;
  save_fields identity_sources source (set_sync SYNC_FAILED (Some t) (slice_to 2000 text) stamp) ;;
  record_event None "identity_source.sync.failed" (source_resource source)
    [("error_type", JStr (class_name error))] None ;;
  raise error.

(** [fetch_users]: what the adapter reads from the directory, or raises;
    [error_text]: [str(error)]. *)
Definition synchronize_identity_source (source : obj identity_source)
    (fetch_users : outcome (list directory_user)) (error_text : exn → string) : M sync_result :=
  raise_if (negb (is_enabled (val source)))
    (DirectorySynchronizationError "La source d’identité est désactivée.") ;;
  stamp ← now;
  save_fields identity_sources (pk source) (set_sync SYNC_RUNNING None "" stamp) ;;
  result ← try_except (directory_users ← of_outcome fetch_users; _apply_directory_users (pk source) directory_users)
    (λ error, Some (sync_failed (pk source) (error_text error) error));
  t ← now;
  stamp ← now;
  save_fields identity_sources (pk source) (set_sync SYNC_SUCCESS (Some t) "" stamp) ;;
  record_event None "identity_source.sync.completed" (source_resource (pk source)) (result_metadata result) None ;;
  mret result.
(** ** OpenID Connect *)

Definition OIDCProvisioningError (msg : string) : exn := PermissionDenied msg.

(** [claims.get(configuration.get(name, default))]: only text keys are present. *)
Definition _claim (configuration claims : list (string * json)) (name default_ : string) : outcome (option json) :=
  match dict_get name configuration with
  | None => Ok (dict_get default_ claims)
  | Some (JStr key) => Ok (dict_get key claims)
  | Some (JArr _) | Some (JObj _) => Raise (TypeError "unhashable type")
  | Some _ => Ok None
  end.

(** Iterating over a decoded value. *)
Definition iter_json (j : json) : outcome (list json) :=
  match j with
  | JArr l => Ok l
  | JStr s => Ok ((λ c, JStr (of_chars [c])) <$> chars s)
  | JObj l => Ok ((λ kv, JStr kv.1) <$> l)
  | _ => Raise (TypeError "object is not iterable")
  end.

Definition nonempty (s : string) : bool := bool_decide (s ≠ "").

Definition _normalized_csv (value : json) : outcome (list string) :=
  if negb (json_truthy value) then Ok []
  else
    let keep l := (λ i, casefold (strip i)) <$> List.filter (λ i, nonempty (strip i)) l in
    match value with
    | JStr s => Ok (keep (of_chars <$> split_char "," ((λ c, if decide (c = chr 10) then ","%char else c) <$> chars s)))
    | j => match iter_json j with Ok l => Ok (keep (py_str <$> l)) | Raise e => Raise e end
    end.

(** [s.rsplit("@", 1)[1]] *)
Definition after_last_at (s : string) : string := of_chars (default [] (last (split_char "@" (chars s)))).

Definition lstrip_at (s : string) : string := of_chars (drop_while (λ c, bool_decide (c = "@"%char)) (chars s)).

Definition config_get (configuration : list (string * json)) (key : string) : json :=
  default (JStr "") (dict_get key configuration).

Definition _email_allowed_by_configuration (configuration : list (string * json)) (email : json) : outcome bool :=
  match (if json_truthy email then email else JStr "") with
  | JStr e =>
      let email := casefold (strip e) in
      if negb (nonempty email) || negb (bool_decide ("@"%char ∈ chars email)) then Ok false
      else
        match _normalized_csv (config_get configuration "allowed_emails") with
        | Raise x => Raise x
        | Ok allowed_emails =>
            match _normalized_csv (config_get configuration "allowed_email_domains") with
            | Raise x => Raise x
            | Ok domains =>
                Ok (bool_decide (email ∈ allowed_emails)
                    || bool_decide (after_last_at email ∈ (lstrip_at <$> domains)))
            end
        end
  | _ => Raise (OtherError "AttributeError")
  end.

(** [UserGroup.objects.filter(pk=group_id, enabled=True).first()]: a key that is
    not a UUID is a [ValidationError]. *)
Definition uuid_of_json (j : json) : option id :=
  match j with
  | JBool b => Some (if b then 1%N else 0%N)
  | JStr s => uuid_of_str s
  | JInt z => if (0 <=? z) && (z <? 2 ^ 128) then Some (Z.to_N z) else None
  | _ => None
  end.

Definition _default_group (configuration : list (string * json)) : M (option id) :=
  let group_id := default JNull (dict_get "default_user_group" configuration) in
  if negb (json_truthy group_id) then mret None
  else
    match uuid_of_json group_id with
    | None => raise (ValidationError "is not a valid UUID")
    | Some k => asks (λ d, match user_groups d !! k with
                           | Some g => if ug_enabled g then Some k else None
                           | None => None
                           end)
    end.

(** [get_identity_source_configuration]: a JSON object. *)
Definition get_identity_source_configuration (source : identity_source) : M (list (string * json)) :=
  text ← decrypt (is_encrypted_configuration source) (is_key_id source);
  match loads text with
  | Some (JObj l) => mret l
  | Some _ => raise (OtherError "AttributeError")
  | None => raise (ValueError "JSONDecodeError")
  end.

(** The provider's data after reading the claims. *)
Record oidc_profile := OidcProfile {
  op_subject : string; op_username : string; op_email : string; op_display_name : string;
  op_matched : list (obj directory_group_mapping); op_default_group : option id; op_fallback : bool }.

(** [value or ""] stored in a text column. *)
Definition text_or_empty (j : option json) : string :=
  match j with Some v => if json_truthy v then py_str v else "" | None => "" end.

Definition truthy_opt (j : option json) : bool := match j with Some v => json_truthy v | None => false end.

Definition group_names (groups : option json) : outcome (list string) :=
  match groups with
  | Some v =>
      if negb (json_truthy v) then Ok []
      else match v with
           | JStr s => Ok [casefold (strip s)]
           | j => match iter_json j with Ok l => Ok ((λ g, casefold (strip (py_str g))) <$> l) | Raise e => Raise e end
           end
  | None => Ok []
  end.

Definition read_profile (source : obj identity_source) (claims : list (string * json)) : M oidc_profile :=
  raise_if (bool_decide (is_kind (val source) ≠ "oidc") || negb (is_enabled (val source)))
    (OIDCProvisioningError "Le fournisseur OIDC n’est pas disponible.") ;;
  let subject := dict_get "sub" claims in
  raise_if (negb (truthy_opt subject)) (OIDCProvisioningError "Le jeton OIDC ne contient pas de sujet.") ;;
  configuration ← get_identity_source_configuration (val source);
  username ← of_outcome (_claim configuration claims "username_claim" "preferred_username");
  email ← of_outcome (_claim configuration claims "email_claim" "email");
  display_name ← of_outcome (_claim configuration claims "display_name_claim" "name");
  groups ← of_outcome (_claim configuration claims "groups_claim" "groups");
  raise_if (negb (truthy_opt username))
    (OIDCProvisioningError "Le fournisseur OIDC n’a pas fourni d’identifiant utilisateur.") ;;
  mappings ← asks (λ d, source_mappings d (pk source));
  names ← of_outcome (group_names groups);
  let matched := List.filter (λ m, bool_decide (_normalized (gm_external_group (val m)) ∈ names)) mappings in
  default_group ← _default_group configuration;
  fallback ← (if bool_decide (dict_get "email_verified" claims = Some (JBool true))
                && bool_decide (default_group ≠ None)
              then of_outcome (_email_allowed_by_configuration configuration (default (JStr "") email))
              else mret false);
  mret (OidcProfile (text_or_empty subject) (text_or_empty username) (text_or_empty email)
          (text_or_empty display_name) matched default_group fallback).

Definition refresh_oidc (p : oidc_profile) (claims : list (string * json)) (seen stamp : Z) (x : external_identity)
    : external_identity :=
  x <| xi_username := op_username p |> <| xi_email := op_email p |> <| xi_claims := claims |>
    <| xi_last_seen_at := Some seen |> <| xi_stamps ::= touch stamp |>.

Definition oidc_identity (source : id) (p : oidc_profile) (claims : list (string * json)) : M (obj external_identity) :=
  found ← asks (λ d, identity_for d source (op_subject p));
  match found with
  | None =>
      raise_if (negb (existsb (λ m, gm_auto_create_users (val m)) (op_matched p)) && negb (op_fallback p))
        (OIDCProvisioningError "Aucun groupe, e-mail ou domaine OIDC n’autorise la création de ce compte.") ;;
      taken ← asks (λ d, username_taken d (op_username p));
      raise_if taken (OIDCProvisioningError
        "Un compte local porte déjà cet identifiant ; une liaison manuelle est requise.") ;;
      taken ← asks (λ d, email_taken d (op_email p));
      raise_if taken (OIDCProvisioningError
        "Un compte local utilise déjà cette adresse ; une liaison manuelle est requise.") ;;
      new_external_user source
        (DirectoryUser (op_subject p) (op_username p) (op_email p) (op_display_name p) [] claims)
  | Some identity =>
      u ← get_row users "User" (xi_user (val identity));
      raise_if (negb (xi_enabled (val identity)) || negb (u_is_active (val u)))
        (OIDCProvisioningError "Ce compte externe est désactivé.") ;;
      seen ← now;
      stamp ← now;
      save_fields external_identities (pk identity) (refresh_oidc p claims seen stamp) ;;
      mret (identity <| val ::= refresh_oidc p claims seen stamp |>)
  end.

Definition _provision_oidc_identity (source : obj identity_source) (claims : list (string * json)) : M (id * bool) :=
  atomic (
    p ← read_profile source claims;
    identity ← oidc_identity (pk source) p claims;
    reconcile_external_memberships identity (op_matched p) ;;
    reconcile_oidc_default_membership identity (if op_fallback p then op_default_group p else None) ;;
    mret (xi_user (val identity), bool_decide (op_matched p ≠ []) || op_fallback p)).

Definition provision_oidc_identity (source : obj identity_source) (claims : list (string * json)) : M id :=
  r ← _provision_oidc_identity source claims;
  raise_if (negb r.2) (OIDCProvisioningError "Aucun groupe OIDC n’autorise actuellement ce compte.") ;;
  mret r.1.
End directory.

(** ** What reconciliation does *)

Section membership_facts.
Context {PF : Platform} {LE : LicenseEnv}.

(** The tables that reconciliation only reads. *)
Definition identity_frame (d d' : db) : Prop :=
  users d' = users d ∧ external_identities d' = external_identities d ∧ group_mappings d' = group_mappings d ∧
  identity_sources d' = identity_sources d ∧ oidc_memberships d' = oidc_memberships d.

#[global] Instance identity_frame_refl : Reflexive identity_frame.
Proof. by intros d. Qed.
#[global] Instance identity_frame_trans : Transitive identity_frame.
Proof. intros d1 d2 d3 (?&?&?&?&?) (?&?&?&?&?). split_and!; congruence. Qed.

Lemma is_member_alter d d' g f g' u :
  user_groups d' = alter f g (user_groups d) →
  is_member d' g' u = if decide (g = g')
                      then match user_groups d !! g with Some x => bool_decide (u ∈ ug_users (f x)) | None => false end
                      else is_member d g' u.
Proof.
  intros E. unfold is_member. rewrite E. destruct (decide (g = g')) as [->|Hne].
  - rewrite lookup_alter_eq. by destruct (user_groups d !! g').
  - by rewrite lookup_alter_ne.
Qed.

Lemma add_member_spec d d' g u :
  user_groups d' = alter (λ x, x <| ug_users ::= ({[u]} ∪.) |>) g (user_groups d) →
  (∀ g' u', is_member d g' u' = true → is_member d' g' u' = true) ∧
  (∀ g' u', is_member d' g' u' = true → is_member d g' u' = true ∨ (g' = g ∧ u' = u)) ∧
  (is_Some (user_groups d !! g) → is_member d' g u = true).
Proof.
  intros E. pose proof (λ g' u', is_member_alter d d' g _ g' u' E) as H. clear E. split; [|split].
  - intros g' u' Hm. rewrite H. destruct (decide _) as [->|]; [|done]. unfold is_member in Hm.
    destruct (user_groups d !! g'); [|done]. apply bool_decide_eq_true in Hm. apply bool_decide_eq_true. simpl. set_solver.
  - intros g' u'. rewrite H. destruct (decide _) as [->|]; [|by left]. unfold is_member.
    destruct (user_groups d !! g'); [|done]. rewrite !bool_decide_eq_true. simpl. set_solver.
  - intros [x Hx]. rewrite H, decide_True, Hx by done. apply bool_decide_eq_true. simpl. set_solver.
Qed.

Lemma remove_member_spec d d' g u :
  user_groups d' = alter (λ x, x <| ug_users ::= (.∖ {[u]}) |>) g (user_groups d) →
  (∀ g' u', is_member d' g' u' = true → is_member d g' u' = true) ∧
  (∀ g' u', is_member d g' u' = true → is_member d' g' u' = true ∨ (g' = g ∧ u' = u)).
Proof.
  intros E. pose proof (λ g' u', is_member_alter d d' g _ g' u' E) as H. clear E. split.
  - intros g' u'. rewrite H. destruct (decide _) as [->|]; [|done]. unfold is_member.
    destruct (user_groups d !! g'); [|done]. rewrite !bool_decide_eq_true. simpl. set_solver.
  - intros g' u' Hm. rewrite H. destruct (decide _) as [->|]; [|by left]. unfold is_member in Hm.
    destruct (user_groups d !! g'); [|done]. rewrite bool_decide_eq_true in Hm |- *. simpl.
    destruct (decide (u' = u)) as [->|]; set_solver.
Qed.

Lemma insert_membership_inv identity mapping preserve w r w' :
  insert_membership identity mapping preserve w = (Ok r, w') →
  ∃ k, managed_memberships (w_db w) !! k = None ∧
    w_db w' = w_db w <| managed_memberships ::= <[k := ExternalGroupMembership identity mapping preserve]> |> ∧
    ∀ o, managed_memberships (w_db w) !! pk o = Some (val o) → xm_identity (val o) = identity → xm_mapping (val o) ≠ mapping.
Proof.
  unfold insert_membership. intros H. run_inv H. eexists. split; [exact Enew|]. split; [done|].
  intros o Ho Hi Hm. rewrite exists_row_false in R. specialize (R o Ho).
  by rewrite Hi, Hm, !bool_decide_true in R.
Qed.
(** *** Linking *)

Record links (x : obj external_identity) (ex : list id) (l : list (obj directory_group_mapping)) (d d' : db) : Prop := {
  ln_frame : identity_frame d d';
  ln_old : managed_memberships d ⊆ managed_memberships d';
  ln_new k m : managed_memberships d' !! k = Some m → managed_memberships d !! k = None →
    xm_identity m = pk x ∧ ∃ o, o ∈ l ∧ xm_mapping m = pk o ∧ pk o ∉ ex;
  ln_all o : o ∈ l → pk o ∉ ex → ∃ k m, managed_memberships d' !! k = Some m ∧ managed_memberships d !! k = None ∧
    xm_identity m = pk x ∧ xm_mapping m = pk o;
  ln_member o : o ∈ l → pk o ∉ ex → is_Some (user_groups d !! gm_user_group (val o)) →
    is_member d' (gm_user_group (val o)) (xi_user (val x)) = true;
  ln_keep g u : is_member d g u = true → is_member d' g u = true;
  ln_add g u : is_member d' g u = true → is_member d g u = true ∨
    (u = xi_user (val x) ∧ ∃ o, o ∈ l ∧ gm_user_group (val o) = g);
  ln_groups g : is_Some (user_groups d !! g) → is_Some (user_groups d' !! g);
}.

Lemma links_nil x ex d : links x ex [] d d.
Proof.
  split; try done; try (by intros ? ?%not_elem_of_nil); intros; [congruence|by left].
Qed.

Lemma links_step x ex added o w a w' :
  link_mapping x ex added o w = (Ok a, w') → links x ex [o] (w_db w) (w_db w').
Proof.
  unfold link_mapping. destruct (decide (pk o ∈ ex)) as [Hex|Hex].
  { intros H. prim_inv H. split; try done; try (intros o' ->%list_elem_of_singleton; done); intros; [congruence|by left]. }
  intros H. apply bind_ok_inv in H as (was & w1 & R & H). prim_inv R.
  apply bind_ok_inv in H as (u & w2 & R1 & H). apply insert_membership_inv in R1 as (k & Hk & Hd & _).
  set (d2 := w_db w2) in *.
  assert (Hg2 : user_groups d2 = user_groups (w_db w)) by by rewrite Hd.
  assert (Hm2 : managed_memberships d2 = <[k := ExternalGroupMembership (pk x) (pk o)
      (is_member (w_db w) (gm_user_group (val o)) (xi_user (val x)))]> (managed_memberships (w_db w))) by by rewrite Hd.
  assert (Hmem2 : ∀ g u, is_member d2 g u = is_member (w_db w) g u) by (intros; unfold is_member; by rewrite Hg2).
  assert (Hfr : identity_frame (w_db w) d2) by by rewrite Hd.
  destruct (is_member (w_db w) (gm_user_group (val o)) (xi_user (val x))) eqn:Ewas; cbn [negb] in H.
  - prim_inv H. fold d2. split; try done.
    + rewrite Hm2. by apply insert_subseteq.
    + rewrite Hm2. intros k' m [[<- <-]|[? ?]]%lookup_insert_Some Hn; [|congruence]. simpl.
      split; [done|]. exists o. split; [constructor|done].
    + intros o' ->%list_elem_of_singleton _. exists k. rewrite Hm2, lookup_insert_eq. by eexists.
    + intros o' ->%list_elem_of_singleton _ _. by rewrite Hmem2.
    + intros g v. by rewrite Hmem2.
    + intros g v. rewrite Hmem2. by left.
    + by rewrite Hg2.
  - run_inv H. unfold add_member in R. prim_inv R. set (d3 := w_db (with_db _ w2)).
    assert (Hu3 : user_groups d3 = alter (λ y, y <| ug_users ::= ({[xi_user (val x)]} ∪.) |>) (gm_user_group (val o)) (user_groups d2)) by done.
    destruct (add_member_spec d2 d3 _ _ Hu3) as (A1 & A2 & A3).
    assert (Hm3 : managed_memberships d3 = managed_memberships d2) by done.
    split; rewrite ?Hm3, ?Hm2.
    + etrans; [exact Hfr|done].
    + by apply insert_subseteq.
    + intros k' m [[<- <-]|[? ?]]%lookup_insert_Some Hn; [|congruence]. simpl.
      split; [done|]. exists o. split; [constructor|done].
    + intros o' ->%list_elem_of_singleton _. exists k. rewrite lookup_insert_eq. by eexists.
    + intros o' ->%list_elem_of_singleton _ Hs. apply A3. by rewrite Hg2.
    + intros g v Hv. apply A1. by rewrite Hmem2.
    + intros g v Hv. apply A2 in Hv as [Hv|[-> ->]]; [left; by rewrite <- Hmem2|].
      right. split; [done|]. exists o. split; [constructor|done].
    + intros g Hs. rewrite Hu3. apply lookup_alter_is_Some. by rewrite Hg2.
Qed.

Lemma links_cons x ex o l d1 d2 d3 :
  links x ex [o] d1 d2 → links x ex l d2 d3 → links x ex (o :: l) d1 d3.
Proof.
  intros [F1 O1 N1 A1 M1 K1 P1 G1] [F2 O2 N2 A2 M2 K2 P2 G2]. split.
  - by etrans.
  - by etrans.
  - intros k m Hm Hn. destruct (managed_memberships d2 !! k) as [m2|] eqn:E2.
    + pose proof (lookup_weaken _ _ _ _ E2 O2) as E3. rewrite Hm in E3. injection E3 as <-.
      destruct (N1 _ _ E2 Hn) as (? & o' & ->%list_elem_of_singleton & ?). split; [done|]. exists o. split; [constructor|done].
    + destruct (N2 _ _ Hm E2) as (? & o' & ? & ?). split; [done|]. exists o'. split; [by constructor|done].
  - intros o' [->|Ho]%elem_of_cons Hex.
    + destruct (A1 o) as (k & m & Hm & Hn & ?); [constructor|done|]. exists k, m.
      split; [by eapply lookup_weaken|done].
    + destruct (A2 _ Ho Hex) as (k & m & Hm & Hn & ?). exists k, m. split; [done|]. split; [|done].
      destruct (managed_memberships d1 !! k) eqn:E1; [|done]. apply (lookup_weaken _ _ _ _ E1) in O1. congruence.
  - intros o' [->|Ho]%elem_of_cons Hex Hs; [apply K2, M1; [constructor|done..]|]. apply M2; [done..|by apply G1].
  - auto.
  - intros g u Hu. apply P2 in Hu as [Hu|[-> (o' & Ho & Hg)]].
    + apply P1 in Hu as [Hu|[-> (o' & ->%list_elem_of_singleton & Hg)]]; [by left|].
      right. split; [done|]. exists o. split; [constructor|done].
    + right. split; [done|]. exists o'. split; [by constructor|done].
  - auto.
Qed.

Lemma links_fold x ex l added w a w' :
  fold_m l added (link_mapping x ex) w = (Ok a, w') → links x ex l (w_db w) (w_db w').
Proof.
  revert added w. induction l as [|o l IH]; intros added w H; simpl in H; [prim_inv H; apply links_nil|].
  apply bind_ok_inv in H as (a1 & w1 & R & H). eapply links_cons; [by eapply links_step|by eapply IH].
Qed.

(** *** Unlinking *)

(** The entries that go: their mapping no longer applies. *)
Definition dropped (matched : list id) (l : list (obj external_group_membership * option id)) (k : id) : Prop :=
  ∃ e, e ∈ l ∧ pk e.1 = k ∧ xm_mapping (val e.1) ∉ matched.

Record unlinks (x : obj external_identity) (matched : list id)
    (l : list (obj external_group_membership * option id)) (d d' : db) : Prop := {
  ul_frame : identity_frame d d';
  ul_gone k : dropped matched l k → managed_memberships d' !! k = None;
  ul_rest k : (¬ dropped matched l k) → managed_memberships d' !! k = managed_memberships d !! k;
  ul_keep g u : is_member d' g u = true → is_member d g u = true;
  ul_remove g u : is_member d g u = true → is_member d' g u = true ∨
    (u = xi_user (val x) ∧ has_other_managed_source d' u g = false ∧
     ∃ e, e ∈ l ∧ e.2 = Some g ∧ (xm_mapping (val e.1) ∉ matched) ∧ xm_preserve (val e.1) = false);
}.

Lemma has_other_mono d d' u g :
  identity_frame d d' → (∀ k m, managed_memberships d' !! k = Some m → managed_memberships d !! k = Some m) →
  has_other_managed_source d u g = false → has_other_managed_source d' u g = false.
Proof.
  intros (_ & Ei & Em & _) Hsub H. unfold has_other_managed_source, group_of in *. rewrite Ei, Em.
  rewrite exists_row_false in *. intros o Ho. apply H. by apply Hsub.
Qed.

Lemma unlinks_sub x matched l d d' k m :
  unlinks x matched l d d' → managed_memberships d' !! k = Some m → managed_memberships d !! k = Some m.
Proof.
  intros [_ Hg Hr _ _] H. rewrite <- Hr; [done|]. intros Hd%Hg. congruence.
Qed.

Lemma unlinks_step x matched removed e w a w' :
  unlink_mapping x matched removed e w = (Ok a, w') → unlinks x matched [e] (w_db w) (w_db w').
Proof.
  destruct e as [m group]. unfold unlink_mapping. intros H.
  destruct (decide (xm_mapping (val m) ∈ matched)) as [Hin|Hout].
  { prim_inv H. split; try done; [|by left]. intros k (e & ->%list_elem_of_singleton & _ & Hn). done. }
  apply bind_ok_inv in H as (u & w1 & R & H). prim_inv R. set (w1 := with_db _ w) in *.
  assert (Hm1 : managed_memberships (w_db w1) = delete (pk m) (managed_memberships (w_db w))) by done.
  assert (Hfr : identity_frame (w_db w) (w_db w1)) by done.
  assert (Hdrop : ∀ k, dropped matched [(m, group)] k ↔ k = pk m).
  { intros k. split; [by intros (e & ->%list_elem_of_singleton & <- & _)|]. intros ->. exists (m, group).
    split; [constructor|done]. }
  assert (Hstop : unlinks x matched [(m, group)] (w_db w) (w_db w1)).
  { split; [done| | |done|by left].
    - intros k ->%Hdrop. rewrite Hm1. apply lookup_delete_eq.
    - intros k Hk. rewrite Hdrop in Hk. rewrite Hm1. by apply lookup_delete_ne. }
  destruct group as [g|]; [|by prim_inv H]. rewrite run_asks in H. cbv beta in H.
  destruct (negb (xm_preserve (val m)) && negb (has_other_managed_source (w_db w1) (xi_user (val x)) g)) eqn:E;
    [|by prim_inv H].
  apply andb_true_iff in E as [Hp%negb_true_iff Ho%negb_true_iff].
  apply bind_ok_inv in H as (u2 & w2 & R & H). unfold remove_member in R. prim_inv R. prim_inv H.
  set (w2 := with_db _ w1).
  assert (Hu : user_groups (w_db w2) = alter (λ y, y <| ug_users ::= (.∖ {[xi_user (val x)]}) |>) g (user_groups (w_db w1))) by done.
  destruct (remove_member_spec _ _ _ _ Hu) as [R1 R2]. destruct Hstop as [F1 G1 S1 K1 _].
  split; [done|exact G1|exact S1| |].
  - intros g' v Hv. by apply K1, R1.
  - intros g' v Hv. destruct (R2 g' v) as [?|[-> ->]]; [done|by left|]. right. split; [done|]. split; [done|].
    exists (m, Some g). split; [constructor|done].
Qed.

Lemma unlinks_cons x matched e l d1 d2 d3 :
  unlinks x matched [e] d1 d2 → unlinks x matched l d2 d3 → unlinks x matched (e :: l) d1 d3.
Proof.
  intros U1 U2. pose proof (λ k m, unlinks_sub _ _ _ _ _ k m U2) as Hsub.
  destruct U1 as [F1 G1 S1 K1 R1], U2 as [F2 G2 S2 K2 R2]. split.
  - by etrans.
  - intros k (e' & [->|He]%elem_of_cons & Hk & Hm); [|apply G2; by exists e'].
    destruct (managed_memberships d3 !! k) as [m|] eqn:E3; [|done]. apply Hsub in E3.
    rewrite G1 in E3; [done|]. exists e. split; [constructor|done].
  - intros k Hk. rewrite S2 by (intros (e' & ? & ?); apply Hk; exists e'; split; [by constructor|done]).
    apply S1. intros (e' & ->%list_elem_of_singleton & ?). apply Hk. exists e. split; [constructor|done].
  - auto.
  - intros g u Hu. destruct (R1 _ _ Hu) as [H2|(-> & Ho & e' & ->%list_elem_of_singleton & Hx)].
    + destruct (R2 _ _ H2) as [?|(-> & Ho & e' & ? & Hx)]; [by left|]. right. split; [done|]. split; [done|].
      exists e'. split; [by constructor|done].
    + right. split; [done|]. split; [by eapply has_other_mono|]. exists e. split; [constructor|done].
Qed.

Lemma unlinks_fold x matched l removed w a w' :
  fold_m l removed (unlink_mapping x matched) w = (Ok a, w') → unlinks x matched l (w_db w) (w_db w').
Proof.
  revert removed w. induction l as [|e l IH]; intros removed w H; simpl in H.
  - prim_inv H. split; try done; [by intros k (e & ?%not_elem_of_nil & _)|by left].
  - apply bind_ok_inv in H as (a1 & w1 & R & H). eapply unlinks_cons; [by eapply unlinks_step|by eapply IH].
Qed.

(** The mappings linked to an identity. *)
Definition linked_to (d : db) (identity mapping : id) : Prop :=
  ∃ k m, managed_memberships d !! k = Some m ∧ xm_identity m = identity ∧ xm_mapping m = mapping.

Lemma elem_of_linked d i o :
  o ∈ linked d i ↔ managed_memberships d !! pk o = Some (val o) ∧ xm_identity (val o) = i.
Proof. unfold linked. rewrite elem_of_objects_filter. by rewrite bool_decide_eq_true. Qed.

(** A reconciliation is a linking followed by an unlinking. *)
Lemma reconcile_inv x matched w r w' :
  reconcile_external_memberships x matched w = (Ok r, w') →
  ∃ d1, let existing := (λ m, (m, group_of (w_db w) (xm_mapping (val m)))) <$> linked (w_db w) (pk x) in
    links x ((λ e, xm_mapping (val e.1)) <$> existing) matched (w_db w) d1 ∧
    unlinks x (pk <$> matched) existing d1 (w_db w').
Proof.
  unfold reconcile_external_memberships. intros H. rewrite run_asks in H. cbv beta in H.
  apply bind_ok_inv in H as (added & w1 & R & H). apply bind_ok_inv in H as (removed & w2 & R1 & H). prim_inv H.
  exists (w_db w1). split; [by eapply links_fold|by eapply unlinks_fold].
Qed.

(** The rows of the identity whose mapping no longer applies are the dropped ones. *)
Lemma dropped_existing d (x : obj external_identity) matched k :
  dropped matched ((λ m, (m, group_of d (xm_mapping (val m)))) <$> linked d (pk x)) k ↔
  ∃ m, managed_memberships d !! k = Some m ∧ xm_identity m = pk x ∧ xm_mapping m ∉ matched.
Proof.
  unfold dropped. setoid_rewrite list_elem_of_fmap. setoid_rewrite elem_of_linked. split.
  - intros (e & (o & -> & Ho & Hi) & <- & Hm). by exists (val o).
  - intros (m & Hm & Hi & Hn). exists (Obj k m, group_of d (xm_mapping m)). split; [|done]. by exists (Obj k m).
Qed.

Lemma existing_mappings d (x : obj external_identity) mp :
  mp ∈ (λ e, xm_mapping (val e.1)) <$> ((λ m, (m, group_of d (xm_mapping (val m)))) <$> linked d (pk x))
  ↔ linked_to d (pk x) mp.
Proof.
  rewrite <- list_fmap_compose. rewrite list_elem_of_fmap. setoid_rewrite elem_of_linked. unfold linked_to. split.
  - intros (o & -> & Ho & Hi). by exists (pk o), (val o).
  - intros (k & m & Hm & Hi & <-). by exists (Obj k m).
Qed.

Lemma reconcile_links_exactly x matched w r w' mp :
  reconcile_external_memberships x matched w = (Ok r, w') →
  linked_to (w_db w') (pk x) mp ↔ mp ∈ pk <$> matched.
Proof.
  intros H. apply reconcile_inv in H as (d1 & L & U). set (existing := _ <$> linked _ _) in *. split.
  - intros (k & m & Hm & Hi & <-). pose proof (unlinks_sub _ _ _ _ _ _ _ U Hm) as Hm1.
    destruct (managed_memberships (w_db w) !! k) as [m0|] eqn:E0.
    + pose proof (lookup_weaken _ _ _ _ E0 (ln_old _ _ _ _ _ L)) as E1. rewrite Hm1 in E1. injection E1 as <-.
      destruct (decide (xm_mapping m ∈ pk <$> matched)) as [|Hn]; [done|].
      rewrite (ul_gone _ _ _ _ _ U) in Hm; [done|]. apply dropped_existing. by exists m.
    + destruct (ln_new _ _ _ _ _ L _ _ Hm1 E0) as (_ & o & Ho & -> & _). by apply list_elem_of_fmap_2.
  - intros Hmp. assert (∃ k m, managed_memberships d1 !! k = Some m ∧ xm_identity m = pk x ∧ xm_mapping m = mp)
      as (k & m & Hm & Hi & Hmm).
    { pose proof Hmp as (o & -> & Ho)%list_elem_of_fmap.
      destruct (decide (pk o ∈ (λ e, xm_mapping (val e.1)) <$> existing)) as [Hex|Hex].
      - apply existing_mappings in Hex as (k & m & Hm & ? & ?). exists k, m. split; [|done].
        by eapply lookup_weaken, (ln_old _ _ _ _ _ L).
      - destruct (ln_all _ _ _ _ _ L _ Ho Hex) as (k & m & Hm & _ & ? & ?). by exists k, m. }
    exists k, m. split; [|done]. rewrite (ul_rest _ _ _ _ _ U); [done|].
    intros (m' & Hm' & _ & Hn)%dropped_existing.
    pose proof (lookup_weaken _ _ _ _ Hm' (ln_old _ _ _ _ _ L)) as E. rewrite Hm in E. injection E as <-.
    by rewrite Hmm in Hn.
Qed.

(** Reconciliation is exact and leaves manual grants alone.  After a
    successful run the mappings linked to the identity are exactly those that
    apply; only the identity's own user changes groups; the user is in the group of
    every newly linked mapping; the user joins a group only through a mapping that
    applies, and leaves one only when a link that is not marked as preserving is
    dropped and no managed membership of the user gives that group any more. *)
Theorem reconciliation_exact x matched w r w' :
  reconcile_external_memberships x matched w = (Ok r, w') →
  let user := xi_user (val x) in
  (∀ mp, linked_to (w_db w') (pk x) mp ↔ mp ∈ pk <$> matched) ∧
  (∀ g u, u ≠ user → is_member (w_db w') g u = is_member (w_db w) g u) ∧
  (∀ m, m ∈ matched → ¬ linked_to (w_db w) (pk x) (pk m) → group_mappings (w_db w) !! pk m = Some (val m) →
     xi_user <$> external_identities (w_db w) !! pk x = Some user →
     is_Some (user_groups (w_db w) !! gm_user_group (val m)) → is_member (w_db w') (gm_user_group (val m)) user = true) ∧
  (∀ g, is_member (w_db w) g user = false → is_member (w_db w') g user = true →
     ∃ m, m ∈ matched ∧ gm_user_group (val m) = g) ∧
  (∀ g, is_member (w_db w) g user = true → is_member (w_db w') g user = false →
     has_other_managed_source (w_db w') user g = false ∧
     ∃ o, managed_memberships (w_db w) !! pk o = Some (val o) ∧ xm_identity (val o) = pk x ∧
       xm_preserve (val o) = false ∧ group_of (w_db w) (xm_mapping (val o)) = Some g ∧
       xm_mapping (val o) ∉ pk <$> matched).
Proof.
  intros H user. pose proof (λ mp, reconcile_links_exactly _ _ _ _ _ mp H) as Hex.
  apply reconcile_inv in H as (d1 & L & U). set (existing := _ <$> linked _ _) in *.
  split; [done|]. split; [|split; [|split]].
  - intros g u Hne. apply Bool.eq_iff_eq_true. split.
    + intros Hu. apply (ul_keep _ _ _ _ _ U) in Hu. by apply (ln_add _ _ _ _ _ L) in Hu as [?|[? _]].
    + intros Hu. apply (ln_keep _ _ _ _ _ L) in Hu. by apply (ul_remove _ _ _ _ _ U) in Hu as [?|[? _]].
  - intros m Hm Hnew Hrow Hid Hg.
    assert (Hex' : pk m ∉ (λ e, xm_mapping (val e.1)) <$> existing) by (unfold existing; by rewrite existing_mappings).
    pose proof (ln_member _ _ _ _ _ L _ Hm Hex' Hg) as Hmem.
    destruct (ul_remove _ _ _ _ _ U _ _ Hmem) as [?|(_ & Hother & _)]; [done|]. exfalso.
    destruct (proj2 (Hex (pk m)) (list_elem_of_fmap_2 pk _ _ Hm)) as (k & y & Hy & Hyi & Hym).
    unfold has_other_managed_source in Hother. rewrite exists_row_false in Hother.
    specialize (Hother (Obj k y) Hy). simpl in Hother. rewrite Hyi, Hym in Hother.
    destruct (ln_frame _ _ _ _ _ L) as (_ & Ei1 & Em1 & _), (ul_frame _ _ _ _ _ U) as (_ & Ei2 & Em2 & _).
    unfold group_of in Hother. rewrite Ei2, Ei1, Em2, Em1, Hrow, Hid in Hother. simpl in Hother.
    by rewrite !bool_decide_true in Hother.
  - intros g Hno Hyes. apply (ul_keep _ _ _ _ _ U), (ln_add _ _ _ _ _ L) in Hyes as [?|[_ ?]]; [congruence|done].
  - intros g Hyes Hno. apply (ln_keep _ _ _ _ _ L), (ul_remove _ _ _ _ _ U) in Hyes as [?|(_ & Ho & e & He & Hg & Hm & Hp)];
      [congruence|]. split; [done|]. apply list_elem_of_fmap in He as (o & -> & Hl). apply elem_of_linked in Hl as [? ?].
    by exists o.
Qed.

End membership_facts.

(** ** Synchronisation and sign-in *)

Section runs.
Context {PF : Platform} {LE : LicenseEnv}.

(** The tables a synchronisation writes. *)
Definition accounts_same (d d' : db) : Prop :=
  users d' = users d ∧ user_groups d' = user_groups d ∧ external_identities d' = external_identities d ∧
  managed_memberships d' = managed_memberships d ∧ oidc_memberships d' = oidc_memberships d.

#[local] Instance accounts_same_trans : Transitive accounts_same.
Proof. intros d1 d2 d3 (?&?&?&?&?) (?&?&?&?&?). split_and!; congruence. Qed.

Lemma accounts_same_audit d d' : audit_frame d d' → accounts_same d d'.
Proof. by intros (?&?&?&->). Qed.

(** A run whose reading or applying fails. *)
Lemma failed_sync_run source fetch text row w e w2 :
  is_enabled (val source) = true → identity_sources (w_db w) !! pk source = Some row →
  (directory_users ← of_outcome fetch; _apply_directory_users (pk source) directory_users)
    (with_db (w_db w <| identity_sources ::= <[pk source := set_sync SYNC_RUNNING None "" (w_clock w) row]> |>) (advance w))
    = (Raise e, w2) →
  ∃ e' w', synchronize_identity_source source fetch text w = (Raise e', w') ∧
    accounts_same (w_db w) (w_db w') ∧
    ∃ row', identity_sources (w_db w') !! pk source = Some row' ∧ is_last_sync_status row' = SYNC_FAILED ∧
      is_last_error row' = slice_to 2000 (text e) ∧
      (e' = e ∨ audit_events (w_db w') = audit_events (w_db w)).
Proof.
  intros Hen Hrow Hfail. set (w1 := with_db _ (advance w)) in *.
  assert (Hd2 : w_db w2 = w_db w1).
  { unfold mbind at 1, M_bind, of_outcome in Hfail. destruct fetch; [by eapply atomic_raise_db|by injection Hfail as _ <-]. }
  unfold synchronize_identity_source. rewrite run_raise_if_false by by rewrite Hen.
  rewrite run_now, (run_save identity_sources (pk source) row _ _ (advance w) Hrow).
  change (with_db _ (advance w)) with w1.
  set (row1 := set_sync SYNC_RUNNING None "" (w_clock w) row) in *.
  assert (Hrow1 : identity_sources (w_db w2) !! pk source = Some row1) by (rewrite Hd2; apply lookup_insert_eq).
  assert (Hf : ∃ e' w', sync_failed (pk source) (text e) e w2 = (Raise e', w') ∧
     audit_frame (w_db w2 <| identity_sources ::= <[pk source := set_sync SYNC_FAILED (Some (w_clock w2))
       (slice_to 2000 (text e)) (w_clock (advance w2)) row1]> |>) (w_db w') ∧
     (e' = e ∨ audit_events (w_db w') = audit_events (w_db w2))).
  { unfold sync_failed. rewrite !run_now.
    rewrite (run_save identity_sources (pk source) row1 _ _ (advance (advance w2)) Hrow1).
    set (w3 := with_db _ (advance (advance w2))). unfold mbind, M_bind.
    destruct (record_event _ _ _ _ _ w3) as [[o|e'] w4] eqn:E.
    - exists e, w4. split; [done|]. split; [by apply record_event_frame in E|by left].
    - exists e', w4. split; [done|]. rewrite (record_event_raise_db _ _ _ _ _ _ _ _ E). split; [reflexivity|by right]. }
  destruct Hf as (e' & w' & Ef & Hfr & Hev). exists e', w'. split.
  { erewrite bind_raise; [reflexivity|]. unfold try_except. rewrite Hfail. exact Ef. }
  pose proof (accounts_same_audit _ _ Hfr) as Hacc. split.
  - etrans; [|exact Hacc]. rewrite Hd2. done.
  - destruct Hfr as (st & ev & oc & Hd). eexists. rewrite Hd. simpl. rewrite lookup_insert_eq.
    split; [done|]. split; [done|]. split; [done|]. destruct Hev as [?|Hev]; [by left|right].
    rewrite Hd in Hev. simpl in Hev. rewrite Hev, Hd2. done.
Qed.

(** A synchronisation that fails changes no account.  If reading the directory
    or applying any of its users raises, the whole run raises, and every account,
    group membership and external identity is as before, whatever users were
    processed first; if the failure could be recorded, it is the original exception
    that is raised and the source is marked as failed with its text. *)
Theorem failed_sync_changes_no_account source fetch text row w e w2 :
  is_enabled (val source) = true → identity_sources (w_db w) !! pk source = Some row →
  (directory_users ← of_outcome fetch; _apply_directory_users (pk source) directory_users)
    (with_db (w_db w <| identity_sources ::= <[pk source := set_sync SYNC_RUNNING None "" (w_clock w) row]> |>) (advance w))
    = (Raise e, w2) →
  ∃ e' w', synchronize_identity_source source fetch text w = (Raise e', w') ∧
    accounts_same (w_db w) (w_db w') ∧
    ∃ row', identity_sources (w_db w') !! pk source = Some row' ∧ is_last_sync_status row' = SYNC_FAILED ∧
      is_last_error row' = slice_to 2000 (text e) ∧
      (e' = e ∨ audit_events (w_db w') = audit_events (w_db w)).
Proof. apply failed_sync_run. Qed.

(** *** What the claims and the configuration say *)

(** The text [item] is a piece of [s] between commas or line feeds. *)
Definition separator (c : ascii) : Prop := c = ","%char ∨ c = chr 10.
Definition piece_of (item s : string) : Prop :=
  ∃ before after, chars s = before ++ chars item ++ after ∧ (∀ c, c ∈ chars item → ¬ separator c) ∧
    (before = [] ∨ ∃ l c, before = l ++ [c] ∧ separator c) ∧ (after = [] ∨ ∃ c l, after = c :: l ∧ separator c).

(** A configured list of names has the item: a text with separators, an array or an
    object, whose keys count; blank items do not. *)
Definition listed (value : json) (item : string) : Prop :=
  strip item ≠ "" ∧
  match value with
  | JStr s => piece_of item s
  | JArr l => ∃ j, j ∈ l ∧ item = py_str j
  | JObj l => ∃ kv, kv ∈ l ∧ item = kv.1
  | _ => False
  end.

(** The groups claim of the token has the name. *)
Definition sent_group (groups : option json) (name : string) : Prop :=
  match groups with
  | Some (JStr s) => name = s
  | Some (JArr l) => ∃ j, j ∈ l ∧ name = py_str j
  | Some (JObj l) => ∃ kv, kv ∈ l ∧ name = kv.1
  | _ => False
  end.

(** An enabled mapping of the source whose group the token has, up to case and
    surrounding blanks. *)
Definition mapping_applies (d : db) (source : id) (groups : option json) (m : obj directory_group_mapping) : Prop :=
  group_mappings d !! pk m = Some (val m) ∧ gm_source (val m) = source ∧ gm_enabled (val m) = true ∧
  ∃ name, sent_group groups name ∧ casefold (strip name) = casefold (strip (gm_external_group (val m))).

(** The address is one of the allowed ones, or its domain is one of the allowed domains,
    which may be written after at signs. *)
Definition address_allowed (configuration : list (string * json)) (email : option json) : Prop :=
  ∃ e user domain, email = Some (JStr e) ∧ chars (casefold (strip e)) = user ++ ["@"%char] ++ domain ∧ ("@"%char ∉ domain) ∧
    ((∃ item, listed (config_get configuration "allowed_emails") item ∧ casefold (strip item) = casefold (strip e)) ∨
     (∃ item n, listed (config_get configuration "allowed_email_domains") item ∧
        chars (casefold (strip item)) = replicate n "@"%char ++ domain)).

(** The fallback: a verified address that is allowed, and an enabled default group. *)
Definition fallback_applies (d : db) (configuration claims : list (string * json)) (email : option json) : Prop :=
  dict_get "email_verified" claims = Some (JBool true) ∧ address_allowed configuration email ∧
  ∃ v k g, dict_get "default_user_group" configuration = Some v ∧ uuid_of_json v = Some k ∧
    user_groups d !! k = Some g ∧ ug_enabled g = true.

Lemma listed_pieces str value item :
  item ∈ of_chars <$> split_char "," ((λ c, if decide (c = chr 10) then ","%char else c) <$> chars str) →
  value = JStr str → strip item ≠ "" → listed value item.
Proof.
  intros (l & -> & (a & b & E & Hc & Ha & Hb)%split_char_piece)%list_elem_of_fmap -> Hne. split; [done|].
  set (f := λ c, if decide (c = chr 10) then ","%char else c) in E.
  assert (∀ x, f x = ","%char → separator x) as Hsep.
  { intros x. unfold f, separator. case_decide; auto. }
  apply fmap_app_inv in E as (a0 & r0 & -> & E & Hs). symmetry in E. apply fmap_app_inv in E as (w0 & b0 & -> & -> & ->).
  assert (f <$> w0 = w0) as Hw.
  { clear -Hc. induction w0 as [|x w IH]; [done|]. rewrite fmap_cons, not_elem_of_cons in *. destruct Hc as [Hx Hc].
    rewrite (IH Hc). f_equal. unfold f in *. by case_decide. }
  rewrite Hw in *. exists a0, b0. rewrite chars_of_chars. split; [done|]. split; [|split].
  - intros c Hin [->| ->]; [done|]. apply Hc. rewrite <- Hw. apply list_elem_of_fmap. exists (chr 10).
    split; [unfold f; by rewrite decide_True|done].
  - destruct Ha as [Ha|(a' & Ha)]; [left; by destruct a0|right].
    apply fmap_app_inv in Ha as (l1 & l2 & -> & Hl & ->). symmetry in Hl. destruct l2 as [|x [|]]; try discriminate Hl.
    injection Hl as Hx. exists l1, x. split; [done|]. by apply Hsep.
  - destruct Hb as [Hb|(b' & Hb)]; [left; by destruct b0|right]. destruct b0 as [|x b0]; [discriminate Hb|].
    injection Hb as Hx _. exists x, b0. split; [done|]. by apply Hsep.
Qed.

Lemma normalized_listed value names x :
  _normalized_csv value = Ok names → x ∈ names → ∃ item, listed value item ∧ casefold (strip item) = x.
Proof.
  unfold _normalized_csv. destruct (json_truthy value) eqn:Et; cbn [negb]; [|by intros [= <-] ?%elem_of_nil].
  assert (∀ l, x ∈ (λ i, casefold (strip i)) <$> List.filter (λ i, nonempty (strip i)) l →
    ∃ item, item ∈ l ∧ strip item ≠ "" ∧ casefold (strip item) = x) as Hk.
  { intros l (item & -> & Hi)%list_elem_of_fmap. apply list_elem_of_In, filter_In in Hi as [Hi Hn].
    exists item. split; [by apply list_elem_of_In|]. split; [|done]. by apply bool_decide_eq_true in Hn. }
  intros H Hx. destruct value as [| | |str|l|l|]; try discriminate H; cbn in H.
  - injection H as <-. apply Hk in Hx as (item & Hi & Hne & He). exists item. split; [by eapply listed_pieces|done].
  - injection H as <-. apply Hk in Hx as (item & (j & -> & Hj)%list_elem_of_fmap & Hne & He). exists (py_str j).
    split; [split; [done|by exists j]|done].
  - injection H as <-. apply Hk in Hx as (item & (j & -> & (kv & -> & Hkv)%list_elem_of_fmap)%list_elem_of_fmap & Hne & He).
    exists kv.1. split; [split; [done|by exists kv]|done].
Qed.

Lemma group_names_sent groups names x :
  group_names groups = Ok names → x ∈ names → ∃ name, sent_group groups name ∧ casefold (strip name) = x.
Proof.
  unfold group_names. destruct groups as [v|]; [|by intros [= <-] ?%elem_of_nil].
  destruct (json_truthy v); cbn [negb]; [|by intros [= <-] ?%elem_of_nil].
  destruct v as [| | |str|l|l|]; try discriminate; cbn.
  - intros [= <-] ->%list_elem_of_singleton. by exists str.
  - intros [= <-] (j & -> & Hj)%list_elem_of_fmap. exists (py_str j). split; [by exists j|done].
  - intros [= <-] (j & -> & (kv & -> & Hkv)%list_elem_of_fmap)%list_elem_of_fmap. exists kv.1. split; [by exists kv|done].
Qed.

Lemma drop_while_at l : ∃ n, l = replicate n "@"%char ++ drop_while (λ c, bool_decide (c = "@"%char)) l.
Proof.
  induction l as [|c l (n & IH)]; [by exists 0%nat|]. simpl. case_bool_decide as Hc; [|by exists 0%nat].
  exists (S n). subst c. simpl. by f_equal.
Qed.

Lemma configured_address configuration email :
  _email_allowed_by_configuration configuration (default (JStr "") email) = Ok true → address_allowed configuration email.
Proof.
  unfold _email_allowed_by_configuration. intros H. destruct email as [v|]; [|discriminate H]. change (default (JStr "") (Some v)) with v in H.
  destruct (json_truthy v); [|discriminate H].
  destruct v as [| | |e| | |]; try discriminate H. cbv zeta in H.
  destruct (negb (nonempty _) || _) eqn:Eg; [discriminate H|].
  apply orb_false_iff in Eg as [_ Eg]. apply negb_false_iff, bool_decide_eq_true in Eg.
  destruct (_normalized_csv (config_get configuration "allowed_emails")) as [emails|] eqn:Ee; [|discriminate H].
  destruct (_normalized_csv (config_get configuration "allowed_email_domains")) as [domains|] eqn:Ed; [|discriminate H].
  injection H as H. destruct (split_char_last _ _ Eg) as (user & d & Hd & Hl & Hn).
  exists e, user, d. split; [done|]. split; [done|]. split; [done|].
  apply orb_true_iff in H as [H%bool_decide_eq_true|H%bool_decide_eq_true].
  - left. destruct (normalized_listed _ _ _ Ee H) as (item & ? & ?). by exists item.
  - right. unfold after_last_at in H. rewrite Hd in H. cbn [default] in H.
    apply list_elem_of_fmap in H as (x & Hx & Hin). destruct (normalized_listed _ _ _ Ed Hin) as (item & Hi & <-).
    destruct (drop_while_at (chars (casefold (strip item)))) as [n Hat]. exists item, n. split; [done|].
    rewrite Hat at 1. f_equal. unfold lstrip_at in Hx. by apply (f_equal chars) in Hx; rewrite !chars_of_chars in Hx.
Qed.

Lemma configuration_run source w c w' :
  get_identity_source_configuration source w = (Ok c, w') → w' = w ∧ (get_identity_source_configuration source w).1 = Ok c.
Proof.
  intros H. split; [|by rewrite H]. unfold get_identity_source_configuration in H. apply bind_ok_inv in H as (txt & w3 & R & H).
  pose proof (decrypt_run (is_encrypted_configuration source) (is_key_id source) w) as E.
  rewrite R in E. simpl in E. subst w3. destruct (loads txt) as [[]|]; try done. by prim_inv H.
Qed.

Lemma default_group_run configuration w dg w' :
  _default_group configuration w = (Ok dg, w') → w' = w ∧ ∀ k, dg = Some k →
  ∃ v g, dict_get "default_user_group" configuration = Some v ∧ uuid_of_json v = Some k ∧
    user_groups (w_db w) !! k = Some g ∧ ug_enabled g = true.
Proof.
  unfold _default_group. cbv zeta. destruct (dict_get "default_user_group" configuration) as [v|]; [|by intros [= <- <-]].
  change (default JNull (Some v)) with v. destruct (json_truthy v); cbn [negb]; [|by intros [= <- <-]].
  destruct (uuid_of_json v) as [k|] eqn:Ek; [|done]. intros H. prim_inv H. split; [done|]. intros k'.
  destruct (user_groups (w_db w) !! k) as [g|] eqn:Eg; [|done]. destruct (ug_enabled g) eqn:Een; [|done].
  intros [= <-]. by exists v, g.
Qed.

(** The claims a profile was read from: the configuration and three of them, under their
    configured names. *)
Record claims_read (source : obj identity_source) (claims : list (string * json)) (w : world) (configuration : list (string * json))
    (username email groups : option json) : Prop := ClaimsRead {
  cr_configuration : (get_identity_source_configuration (val source) w).1 = Ok configuration;
  cr_username : _claim configuration claims "username_claim" "preferred_username" = Ok username;
  cr_email : _claim configuration claims "email_claim" "email" = Ok email;
  cr_groups : _claim configuration claims "groups_claim" "groups" = Ok groups;
}.

Lemma read_profile_inv source claims w p w' :
  read_profile source claims w = (Ok p, w') →
  w' = w ∧ is_kind (val source) = "oidc" ∧ is_enabled (val source) = true ∧
  truthy_opt (dict_get "sub" claims) = true ∧ op_subject p = text_or_empty (dict_get "sub" claims) ∧
  ∃ configuration username email groups, claims_read source claims w configuration username email groups ∧
    op_username p = text_or_empty username ∧ op_email p = text_or_empty email ∧
    (∀ m, m ∈ op_matched p → mapping_applies (w_db w) (pk source) groups m) ∧
    (op_fallback p = true → fallback_applies (w_db w) configuration claims email).
Proof.
  unfold read_profile. intros H. apply bind_ok_inv in H as (u & w1 & R & H). prim_inv R.
  apply bind_ok_inv in H as (u2 & w1 & R1 & H). prim_inv R1.
  apply bind_ok_inv in H as (conf & w1 & R2 & H). apply configuration_run in R2 as [-> Hconf].
  apply bind_ok_inv in H as (username & w1 & Ru & H). unfold of_outcome in Ru. injection Ru as Hu <-.
  apply bind_ok_inv in H as (email & w1 & Re & H). unfold of_outcome in Re. injection Re as He <-.
  apply bind_ok_inv in H as (dn & w1 & R3 & H). unfold of_outcome in R3. injection R3 as _ <-.
  apply bind_ok_inv in H as (groups & w1 & Rg & H). unfold of_outcome in Rg. injection Rg as Hg <-.
  apply bind_ok_inv in H as (u3 & w1 & R4 & H). prim_inv R4.
  apply bind_ok_inv in H as (maps & w1 & R5 & H). prim_inv R5.
  apply bind_ok_inv in H as (names & w1 & Rn & H). unfold of_outcome in Rn. injection Rn as Hn <-.
  apply bind_ok_inv in H as (dg & w1 & R6 & H). apply default_group_run in R6 as [-> Hdg].
  apply bind_ok_inv in H as (fb & w1 & R7 & H).
  assert (w1 = w ∧ (fb = true → fallback_applies (w_db w) conf claims email)) as [-> Hfb].
  { destruct (bool_decide (dict_get "email_verified" claims = Some (JBool true)) && bool_decide (dg ≠ None)) eqn:E;
      [|by prim_inv R7]. unfold of_outcome in R7. injection R7 as Hf <-.
    apply andb_true_iff in E as [E1%bool_decide_eq_true E2%bool_decide_eq_true].
    split; [done|]. intros ->. split; [done|]. split; [by apply configured_address|].
    apply not_eq_None_Some in E2 as [k ->]. destruct (Hdg k eq_refl) as (v & g & ? & ? & ? & ?). by exists v, k, g. }
  prim_inv H. apply orb_false_iff in R as [Hk%bool_decide_eq_false Hen%negb_false_iff].
  apply dec_stable in Hk. apply negb_false_iff in R1. do 5 (split; [done|]).
  exists conf, username, email, groups. split; [done|]. do 2 (split; [done|]). split; [|done].
  intros m [Hm Ho%bool_decide_eq_true]%list_elem_of_In%filter_In. apply list_elem_of_In, elem_of_objects_filter in Hm as [Hm Hs].
  apply andb_true_iff in Hs as [Hs%bool_decide_eq_true ?]. do 3 (split; [done|]).
  destruct (group_names_sent _ _ _ Hn Ho) as (name & ? & ?). by exists name.
Qed.

(** The account an identity signs in to: an enabled identity of an active user, or
    a new account that no local one collides with. *)
Definition may_sign_in (d : db) (source : id) (p : oidc_profile) (user : id) : Prop :=
  match identity_for d source (op_subject p) with
  | Some x => user = xi_user (val x) ∧ xi_enabled (val x) = true ∧
              ∃ u, users d !! user = Some u ∧ u_is_active u = true
  | None => users d !! user = None ∧ username_taken d (op_username p) = false ∧ email_taken d (op_email p) = false ∧
            (existsb (λ m, gm_auto_create_users (val m)) (op_matched p) = true ∨ op_fallback p = true)
  end.

Lemma create_user_inv u w o w' :
  create_user u w = (Ok o, w') →
  users (w_db w) !! pk o = None ∧ val o = u ∧ w_db w' = w_db w <| users ::= <[pk o := u]> |>.
Proof.
  unfold create_user. intros H. apply bind_ok_inv in H as (t & w1 & R & H).
  destruct (quiet_run _ _ _ _ (active_limit_quiet _ _) R) as [Hd _]. run_inv H. simpl. rewrite Hd in *. done.
Qed.

Lemma new_external_user_inv source du w x w' :
  new_external_user source du w = (Ok x, w') →
  users (w_db w) !! xi_user (val x) = None ∧ xi_source (val x) = source ∧ xi_subject (val x) = du_subject du ∧
  managed_memberships (w_db w') = managed_memberships (w_db w).
Proof.
  unfold new_external_user. intros H. apply bind_ok_inv in H as (u & w1 & R & H).
  apply create_user_inv in R as (Hn & _ & Hd). run_inv H. unfold insert_identity in R. run_inv R. simpl.
  rewrite Hd. done.
Qed.

Lemma oidc_identity_inv source p claims w x w' :
  oidc_identity source p claims w = (Ok x, w') →
  may_sign_in (w_db w) source p (xi_user (val x)) ∧
  managed_memberships (w_db w') = managed_memberships (w_db w) ∧
  (∀ x0, identity_for (w_db w) source (op_subject p) = Some x0 → pk x = pk x0).
Proof.
  unfold oidc_identity, may_sign_in. intros H. rewrite run_asks in H. cbv beta in H.
  destruct (identity_for (w_db w) source (op_subject p)) as [x0|] eqn:Ef.
  - run_inv H. apply orb_false_iff in R0 as [He%negb_false_iff Ha%negb_false_iff]. simpl in *.
    split; [|by split; [|intros ? [= <-]]]. split; [done|]. split; [done|]. by exists (val a).
  - run_inv H. apply new_external_user_inv in H as (Hn & _ & _ & Hm). split; [|by split].
    split; [done|]. split; [done|]. split; [done|].
    apply andb_false_iff in R as [?%negb_false_iff|?%negb_false_iff]; auto.
Qed.

Lemma oidc_default_keeps_managed identity g m :
  preserves (λ d, managed_memberships d = m) (reconcile_oidc_default_membership identity g).
Proof.
  unfold reconcile_oidc_default_membership, remove_member, add_member, new_stamps. solve_preserves;
    try (by apply preserves_modify); try (by apply preserves_insert).
Qed.

(** The parts of a committed provisioning. *)
Lemma provision_inv source claims w user ok w' :
  _provision_oidc_identity source claims w = (Ok (user, ok), w') →
  ∃ p x w1 w2 r, read_profile source claims w = (Ok p, w) ∧ oidc_identity (pk source) p claims w = (Ok x, w1) ∧
    reconcile_external_memberships x (op_matched p) w1 = (Ok r, w2) ∧
    managed_memberships (w_db w') = managed_memberships (w_db w2) ∧ user = xi_user (val x) ∧
    ok = bool_decide (op_matched p ≠ []) || op_fallback p.
Proof.
  unfold _provision_oidc_identity. intros H. apply atomic_ok_inv in H.
  apply bind_ok_inv in H as (p & w1 & R & H). pose proof R as R'. apply read_profile_inv in R' as [-> _].
  apply bind_ok_inv in H as (x & w2 & R1 & H). apply bind_ok_inv in H as (r & w3 & R2 & H).
  apply bind_ok_inv in H as (u & w4 & R3 & H). unfold mret, M_ret in H. injection H as <- <- <-.
  exists p, x, w2, w3, r. do 3 (split; [done|]). split; [|done].
  pose proof (oidc_default_keeps_managed x (if op_fallback p then op_default_group p else None)
    (managed_memberships (w_db w3)) w3 eq_refl) as Hk. by rewrite R3 in Hk.
Qed.

(** C36: Signing in through OpenID Connect requires authority.  When
    [provision_oidc_identity] returns a user, the source is an enabled OIDC provider
    and the token names a subject.  At that moment an enabled mapping of that source
    applies: up to case and surrounding blanks, its group is one the token has in the
    configured groups claim; or else the fallback does: the token's address is verified,
    it is one of the configured addresses or in one of the configured domains, and the
    configured default group is enabled.  The account is the active account of an enabled
    identity of that subject, or a new one, which a mapping that applies and creates
    accounts or the fallback allows, and whose name and address no local account has. *)
Theorem oidc_sign_in_is_authorised source claims w user w' :
  provision_oidc_identity source claims w = (Ok user, w') →
  ∃ configuration username email groups, claims_read source claims w configuration username email groups ∧
    is_kind (val source) = "oidc" ∧ is_enabled (val source) = true ∧ truthy_opt (dict_get "sub" claims) = true ∧
    let applies := mapping_applies (w_db w) (pk source) groups in
    let fallback := fallback_applies (w_db w) configuration claims email in
    ((∃ m, applies m) ∨ fallback) ∧
    match identity_for (w_db w) (pk source) (text_or_empty (dict_get "sub" claims)) with
    | Some x => user = xi_user (val x) ∧ xi_enabled (val x) = true ∧
        ∃ u, users (w_db w) !! user = Some u ∧ u_is_active u = true
    | None => users (w_db w) !! user = None ∧ username_taken (w_db w) (text_or_empty username) = false ∧
        email_taken (w_db w) (text_or_empty email) = false ∧
        ((∃ m, applies m ∧ gm_auto_create_users (val m) = true) ∨ fallback)
    end.
Proof.
  unfold provision_oidc_identity. intros H. apply bind_ok_inv in H as ([u ok] & w1 & R & H).
  apply bind_ok_inv in H as (t & w2 & R1 & H). prim_inv R1. prim_inv H. simpl in *. apply negb_false_iff in R1 as ->.
  apply provision_inv in R as (p & x & w2 & w3 & r & Hp & Hx & _ & _ & -> & Hok).
  apply read_profile_inv in Hp as (_ & Hk & He & Ht & Hs & configuration & username & email & groups & Hr & Hu & Hm & Hap & Hf).
  exists configuration, username, email, groups. do 4 (split; [done|]). cbv zeta. split.
  - symmetry in Hok. apply orb_true_iff in Hok as [Hne%bool_decide_eq_true|Hfb]; [left|right; auto].
    destruct (op_matched p) as [|m l]; [done|]. exists m. apply Hap. constructor.
  - apply oidc_identity_inv in Hx as [Hx _]. unfold may_sign_in in Hx. rewrite <- Hs, <- Hu, <- Hm. case_match; [done|].
    destruct Hx as (? & ? & ? & Hc). do 3 (split; [done|]). destruct Hc as [Hc|Hc]; [left|right; auto].
    apply existsb_exists in Hc as (m & Hin & Hc). exists m. split; [|done]. by apply Hap, list_elem_of_In.
Qed.

(** A refused sign-in revokes.  When the provider no longer sends a mapped
    group, and no fallback applies, the sign-in of a known identity is refused, and
    the refusal is not rolled back: no managed membership of the identity is left. *)
Theorem refused_sign_in_unlinks source claims w user w' :
  _provision_oidc_identity source claims w = (Ok (user, false), w') →
  (∃ e, provision_oidc_identity source claims w = (Raise (PermissionDenied e), w')) ∧
  ∃ p x, read_profile source claims w = (Ok p, w) ∧ identity_for (w_db w) (pk source) (op_subject p) = Some x ∧
    ∀ mp, ¬ linked_to (w_db w') (pk x) mp.
Proof.
  intros H. split.
  { eexists. unfold provision_oidc_identity. rewrite (bind_ok _ _ _ _ _ H). simpl. reflexivity. }
  apply provision_inv in H as (p & x & w1 & w2 & r & Hp & Hx & Hr & Hm & _ & Hok).
  symmetry in Hok. apply orb_false_iff in Hok as [Hnil%bool_decide_eq_false Hfb]. apply dec_stable in Hnil.
  apply oidc_identity_inv in Hx as (Hs & _ & Hpk). unfold may_sign_in in Hs.
  destruct (identity_for (w_db w) (pk source) (op_subject p)) as [x0|] eqn:Ef.
  - exists p, x0. split; [done|]. split; [done|]. intros mp Hl. rewrite Hnil in Hr.
    assert (Hl2 : linked_to (w_db w2) (pk x) mp) by (unfold linked_to in *; by rewrite <- Hm, (Hpk _ eq_refl)).
    apply (reconcile_links_exactly _ _ _ _ _ mp Hr) in Hl2. by apply not_elem_of_nil in Hl2.
  - destruct Hs as (_ & _ & _ & [Ha|Ha]); [|congruence]. by rewrite Hnil in Ha.
Qed.
End runs.

(** ** Examples *)

Section witnesses.
#[local] Existing Instance demo_platform.
#[local] Instance demo_community : LicenseEnv := demo_env "community" "".

(** A provider with two groups of its own mapped to the same user group. *)
Definition demo_source : obj identity_source :=
  Obj 60%N (IdentitySource "sso" "oidc" true "enc:{}" active_key_id None SYNC_NEVER "" (Stamps 0 0) "sso" true false 60).
Definition demo_mapping (name : string) : directory_group_mapping := DirectoryGroupMapping 60 name 5 true true.
Definition demo_identity_db : db :=
  empty_db <| identity_sources := {[ 60%N := val demo_source ]} |>
    <| group_mappings := {[ 61%N := demo_mapping "Admins"; 62%N := demo_mapping "Operators" ]} |>
    <| user_groups := {[ 5%N := UserGroup "ops" ∅ ∅ true "" ]} |>.

Definition demo_claims (groups : list string) : list (string * json) :=
  [("sub", JStr "s-1"); ("preferred_username", JStr "bob"); ("groups", JArr (JStr <$> groups))].

Definition demo_sign_in (groups : list string) : M id := provision_oidc_identity demo_source (demo_claims groups).

Definition demo_signed_in : world := Eval vm_compute in (demo_sign_in [" ADMINS "] (demo_world demo_identity_db)).2.

Lemma oidc_sign_in_is_authorised_witness :
  ∃ configuration username email groups,
    claims_read demo_source (demo_claims [" ADMINS "]) (demo_world demo_identity_db) configuration username email groups ∧
    ((∃ m, mapping_applies demo_identity_db 60 groups m) ∨
     fallback_applies demo_identity_db configuration (demo_claims [" ADMINS "]) email).
Proof.
  destruct (oidc_sign_in_is_authorised demo_source (demo_claims [" ADMINS "]) (demo_world demo_identity_db) 0%N demo_signed_in)
    as (configuration & username & email & groups & H1 & _ & _ & _ & H2 & _).
  - vm_compute. reflexivity.
  - exists configuration, username, email, groups. split; [exact H1|exact H2].
Defined.

Definition demo_refused : world := Eval vm_compute in (demo_sign_in [] demo_signed_in).2.

Lemma refused_sign_in_unlinks_witness :
  ∃ e, provision_oidc_identity demo_source (demo_claims []) demo_signed_in = (Raise (PermissionDenied e), demo_refused).
Proof.
  apply (refused_sign_in_unlinks demo_source (demo_claims []) demo_signed_in 0%N demo_refused).
  vm_compute. reflexivity.
Defined.

(** Bob joins through the mapping and leaves with it. *)
Example membership_follows_group :
  is_member (w_db demo_signed_in) 5 0 = true ∧ is_member (w_db demo_refused) 5 0 = false.
Proof. vm_compute. split; reflexivity. Qed.

(** Through two mappings of the same group he stays a member after losing both
    (here the links are read back in the order they were created): the second link
    was marked as preserving, because the first had just added him. *)
Example shared_group_outlives_mappings :
  let w1 := (demo_sign_in ["admins"; "operators"] (World demo_identity_db demo_now [] 1 ∅)).2 in
  let w2 := (demo_sign_in [] w1).2 in
  is_member (w_db w2) 5 0 = true ∧ managed_memberships (w_db w2) = ∅.
Proof. vm_compute. split; reflexivity. Qed.

Definition demo_bob : obj external_identity :=
  Obj 70%N (ExternalIdentity 60 0 "s-1" "bob" "" [] true None (Stamps 0 0)).
Definition demo_linked_db : db :=
  demo_identity_db <| external_identities := {[ 70%N := val demo_bob ]} |>.
Definition demo_reconciled : outcome (Z * Z) * world :=
  reconcile_external_memberships demo_bob [Obj 61%N (demo_mapping "Admins")] (demo_world demo_linked_db).

Lemma reconciliation_exact_witness : linked_to (w_db demo_reconciled.2) 70 61.
Proof.
  apply (reconciliation_exact demo_bob [Obj 61%N (demo_mapping "Admins")] (demo_world demo_linked_db) (1, 0) demo_reconciled.2).
  - vm_compute. reflexivity.
  - left.
Defined.

(** The directory cannot be reached. *)
Definition demo_outage : exn := DirectoryConnectionError "Connexion à l’annuaire impossible.".

Lemma failed_sync_changes_no_account_witness :
  ∃ e' w', synchronize_identity_source demo_source (Raise demo_outage) (λ _, "timeout") (demo_world demo_linked_db)
    = (Raise e', w') ∧ accounts_same demo_linked_db (w_db w').
Proof.
  destruct (failed_sync_changes_no_account demo_source (Raise demo_outage) (λ _, "timeout") (val demo_source)
    (demo_world demo_linked_db) demo_outage
    (with_db (demo_linked_db <| identity_sources ::= <[60%N := set_sync SYNC_RUNNING None "" demo_now (val demo_source)]> |>)
       (advance (demo_world demo_linked_db)))) as (e' & w' & H1 & H2 & _).
  - reflexivity.
  - vm_compute. reflexivity.
  - reflexivity.
  - exists e', w'. split; [exact H1|exact H2].
Defined.
End witnesses.
