(* ===== verification/Keyring.v ===== *)
(** * The keyring service ([src/keyring/], [pamolive/common/keyring.py])

    A separate process that holds the master key: it encrypts, decrypts, signs and
    verifies for the application over authenticated HTTP, under a rate limit.  The
    keys are local (derived from a master key file) or in a Vault Transit engine;
    after a migration to Vault the local keys still read old material.  The
    application's client turns every failure into a [KeyringError].

    Fernet, HKDF and the Vault server are parameters. *)

From S2P Require Import Prelude PyStr Json Loads Crypto PyTime Models World Text AuditTrail Vault.

Local Open Scope Z_scope.

(** ** The rate limiter ([rate_limit.py]) *)

Record limiter := Limiter {
  limits : gmap string Z;
  default_limit : Z;
  window_seconds : Z;
  _events : gmap string (list Z);
}.
#[global] Instance limiter_settable : Settable limiter := λ r,
  Limiter (limits r) (default_limit r) (window_seconds r) (_events r).

Definition limit_of (r : limiter) (operation : string) : Z := default (default_limit r) (limits r !! operation).

(** [while events and events[0] <= cutoff: events.popleft()] *)
Definition expire (cutoff : Z) (events : list Z) : list Z := drop_while (λ t, t <=? cutoff) events.

(** [math.ceil] of a number of microseconds in seconds. *)
Definition ceil_seconds (us : Z) : Z := - ((- us) / second).

Definition acquire (r : limiter) (operation : string) (now : Z) : (bool * Z) * limiter :=
  let cutoff := now - seconds (window_seconds r) in
  let events := expire cutoff (default [] (_events r !! operation)) in
  if limit_of r operation <=? Z.of_nat (length events) then
    let retry_after := Z.max 1 (ceil_seconds (hd 0 events + seconds (window_seconds r) - now)) in
    ((false, retry_after), r <| _events ::= <[operation := events]> |>)
  else ((true, 0), r <| _events ::= <[operation := events ++ [now]]> |>).

(** ** Backends ([backends.py]) *)

Inductive transit_reply :=
  | Reply (data : json)         (** a JSON document *)
  | HttpError (status : Z)
  | Unreachable.                (** no connection, or not JSON *)

Class KeyringCrypto := {
  fernet_seal : bytes → nat → string → string;
  fernet_open : bytes → string → option string;
  hkdf : bytes → string → bytes;
  vault_post : nat → string → list (string * json) → transit_reply;
}.

Definition InvalidCiphertext : exn := OtherError "InvalidCiphertext".
Definition BackendUnavailable : exn := OtherError "BackendUnavailable".

Record local_keys := LocalKeys { cipher_key : bytes; signing_key : bytes }.

Inductive crypto_backend := LocalBackend (k : local_keys) | VaultTransitBackend.

Record routed_backend := RoutedBackend { active : crypto_backend; legacy_local : option local_keys }.

Section backends.
Context {KC : KeyringCrypto}.

(** [LocalBackend(data_dir, create=...)]: the backend and the contents of
    [master.key] afterwards. *)
Definition open_local (stored : option bytes) (create : bool) (urandom : bytes) : outcome (local_keys * bytes) :=
  match (match stored with Some k => Ok k | None => if create then Ok urandom else Raise (OtherError "FileNotFoundError") end) with
  | Raise e => Raise e
  | Ok master_key =>
      if negb (length master_key =? 32)%nat
      then Raise (RuntimeError "The keyring master key must contain exactly 32 bytes")
      else Ok (LocalKeys (hkdf master_key "encryption") (hkdf master_key "audit-signing"), master_key)
  end.

Definition local_encrypt (k : local_keys) (n : nat) (plaintext : string) : string :=
  fernet_seal (cipher_key k) n (encode plaintext).

Definition local_decrypt (k : local_keys) (ciphertext : string) : outcome string :=
  match fernet_open (cipher_key k) ciphertext with
  | None => Raise InvalidCiphertext
  | Some b => match decode b with Some s => Ok s | None => Raise InvalidCiphertext end
  end.

Definition local_sign (k : local_keys) (payload : string) : string :=
  hexdigest (hmac sha256 (signing_key k) (utf8 payload)).

Definition local_verify (k : local_keys) (payload signature : string) : outcome bool :=
  match compare_digest (local_sign k payload) signature with
  | Some b => Ok b
  | None => Raise (TypeError "comparing strings with non-ASCII characters is not supported")
  end.

(** [VaultTransitBackend._request]: the member ["data"] of the reply. *)
Definition _request (n : nat) (operation : string) (payload : list (string * json)) : outcome json :=
  match vault_post n operation payload with
  | Reply (JObj l) => match dict_get "data" l with Some d => Ok d | None => Raise BackendUnavailable end
  | Reply _ => Raise (TypeError "indices must be integers")
  | HttpError status =>
      if (status =? 400) && bool_decide (operation = "decrypt") then Raise InvalidCiphertext else Raise BackendUnavailable
  | Unreachable => Raise BackendUnavailable
  end.

(** [data[key]]; Vault documents a string there, any other type is an error here. *)
Definition text_member (d : json) (key : string) : outcome string :=
  match d with
  | JObj l => match dict_get key l with
              | Some (JStr s) => Ok s
              | Some _ => Raise (TypeError "string expected")
              | None => Raise (OtherError "KeyError")
              end
  | _ => Raise (TypeError "indices must be integers")
  end.

(** [base64.b64encode(s.encode()).decode()] *)
Definition b64_text (s : string) : string := of_chars (b64encode (utf8 s)).

Definition bind_outcome {A B} (r : outcome A) (f : A → outcome B) : outcome B :=
  match r with Ok a => f a | Raise e => Raise e end.

Definition vault_encrypt (n : nat) (plaintext : string) : outcome string :=
  bind_outcome (_request n "encrypt" [("plaintext", JStr (b64_text plaintext))]) (λ d, text_member d "ciphertext").

Definition vault_decrypt (ciphertext : string) : outcome string :=
  bind_outcome (_request 0 "decrypt" [("ciphertext", JStr ciphertext)]) (λ d,
  bind_outcome (text_member d "plaintext") (λ encoded,
    match b64decode (chars encoded) with
    | Some b => match decode (string_of_bytes b) with Some s => Ok s | None => Raise BackendUnavailable end
    | None => Raise BackendUnavailable
    end)).

(** [vault_hmac.split(":", 2)] into exactly three parts: the digest is the third. *)
Definition digest_part (s : string) : option string :=
  let '(_, sep1, rest) := partition_char ":" (chars s) in
  let '(_, sep2, digest) := partition_char ":" rest in
  if sep1 && sep2 then Some (of_chars digest) else None.

Definition vault_sign (payload : string) : outcome string :=
  bind_outcome (_request 0 "hmac" [("input", JStr (b64_text payload)); ("algorithm", JStr "sha2-256")]) (λ d,
  bind_outcome (text_member d "hmac") (λ vault_hmac,
    match digest_part vault_hmac ≫= b64decode ∘ chars with
    | None => Raise BackendUnavailable
    | Some raw_digest =>
        if negb (length raw_digest =? 32)%nat then Raise BackendUnavailable
        else if 64 <? len vault_hmac then Raise BackendUnavailable
        else Ok vault_hmac
    end)).

(** [result.get("valid") is True] *)
Definition vault_verify (payload signature : string) : outcome bool :=
  if negb (startswith "vault:" signature) then Ok false
  else bind_outcome (_request 0 "verify" [("input", JStr (b64_text payload)); ("hmac", JStr signature);
                                          ("algorithm", JStr "sha2-256")]) (λ d,
    match d with
    | JObj l => Ok (bool_decide (dict_get "valid" l = Some (JBool true)))
    | _ => Raise (OtherError "AttributeError")
    end).

(** [RoutedBackend(data_dir)], with the contents of the key file afterwards. *)
Definition open_routed (backend_name : string) (stored : option bytes) (urandom : bytes)
    : outcome (routed_backend * option bytes) :=
  if decide (backend_name = "local") then
    bind_outcome (open_local stored true urandom) (λ '(k, file), Ok (RoutedBackend (LocalBackend k) None, Some file))
  else if decide (backend_name = "vault-transit") then
    match open_local stored false urandom with
    | Ok (k, file) => Ok (RoutedBackend VaultTransitBackend (Some k), Some file)
    | Raise (OtherError "FileNotFoundError") => Ok (RoutedBackend VaultTransitBackend None, stored)
    | Raise e => Raise e
    end
  else Raise (RuntimeError ("Unsupported keyring crypto backend: " +:+ repr_str backend_name)).

Definition backend_decrypt (b : crypto_backend) (ciphertext : string) : outcome string :=
  match b with LocalBackend k => local_decrypt k ciphertext | VaultTransitBackend => vault_decrypt ciphertext end.

Definition backend_verify (b : crypto_backend) (payload signature : string) : outcome bool :=
  match b with LocalBackend k => local_verify k payload signature | VaultTransitBackend => vault_verify payload signature end.

Definition routed_encrypt (r : routed_backend) (n : nat) (plaintext : string) : outcome string :=
  match active r with
  | LocalBackend k => Ok (local_encrypt k n plaintext)
  | VaultTransitBackend => vault_encrypt n plaintext
  end.

Definition routed_decrypt (r : routed_backend) (ciphertext : string) : outcome string :=
  if startswith "vault:" ciphertext then
    match active r with VaultTransitBackend => vault_decrypt ciphertext | LocalBackend _ => Raise InvalidCiphertext end
  else
    match legacy_local r with
    | Some k => local_decrypt k ciphertext
    | None => backend_decrypt (active r) ciphertext
    end.

Definition routed_sign (r : routed_backend) (payload : string) : outcome string :=
  match active r with LocalBackend k => Ok (local_sign k payload) | VaultTransitBackend => vault_sign payload end.

Definition routed_verify (r : routed_backend) (payload signature : string) : outcome bool :=
  bind_outcome (backend_verify (active r) payload signature) (λ ok,
    if ok : bool then Ok true
    else match legacy_local r with Some k => local_verify k payload signature | None => Ok false end).
End backends.

(** ** The HTTP application ([app.py]) *)

Definition MAX_VALUE_LENGTH : Z := 1048576.

(** [_positive_integer_environment(name, default)] *)
Definition _positive_integer_environment (name : string) (value : option string) (default_ : Z) : outcome Z :=
  match (match value with Some v => py_int v | None => Some default_ end) with
  | Some n => if n <? 1 then Raise (RuntimeError (name +:+ " must be a positive integer")) else Ok n
  | None => Raise (RuntimeError (name +:+ " must be a positive integer"))
  end.

Inductive keyring_request :=
  | PlaintextRequest (plaintext : string)
  | CiphertextRequest (ciphertext : string)
  | PayloadRequest (payload : string)
  | VerifyRequest (payload signature : string).

Definition path_of (q : keyring_request) : string :=
  match q with
  | PlaintextRequest _ => "/encrypt" | CiphertextRequest _ => "/decrypt"
  | PayloadRequest _ => "/sign" | VerifyRequest _ _ => "/verify"
  end.

Fixpoint take_while {A} (f : A → bool) (l : list A) : list A :=
  match l with [] => [] | x :: l' => if f x then x :: take_while f l' else [] end.

Definition lower_hex (c : ascii) : bool := between 48 (code c) 57 || between 97 (code c) 102.
Definition b64_body (c : ascii) : bool := bool_decide (is_Some (b64_value c)).

(** The text after the version: ["[A-Za-z0-9+/]+={0,2}"]. *)
Definition b64_shape (l : list ascii) : bool :=
  let body := take_while b64_body l in
  bool_decide (body ≠ []) && bool_decide (drop (length body) l ∈ [[]; ["="%char]; ["="; "="]%char]).

(** ["^(?:[0-9a-f]{64}|vault:v[1-9][0-9]*:[A-Za-z0-9+/]+={0,2})$"] *)
Definition signature_pattern (s : string) : bool :=
  ((len s =? 64) && forallb lower_hex (chars s)) ||
  match strip_prefix "vault:v" s with
  | Some rest =>
      let digits := take_while is_ascii_digit (chars rest) in
      match digits, drop (length digits) (chars rest) with
      | d :: _, ":"%char :: tail => between 49 (code d) 57 && b64_shape tail
      | _, _ => false
      end
  | None => false
  end.

Definition valid_body (q : keyring_request) : bool :=
  match q with
  | PlaintextRequest p => len p <=? MAX_VALUE_LENGTH
  | CiphertextRequest c => len c <=? 2 * MAX_VALUE_LENGTH
  | PayloadRequest p => len p <=? MAX_VALUE_LENGTH
  | VerifyRequest p s => (len p <=? MAX_VALUE_LENGTH) && between 53 (len s) 64 && signature_pattern s
  end.

Record response := Response { status : Z; headers : list (string * string); body : list (string * json) }.

Record keyring_app := KeyringApp { AUTH_TOKEN : string; CRYPTO : routed_backend }.

(** [None]: the comparison of texts outside ASCII raises. *)
Definition require_authentication (app : keyring_app) (authorization : string) : option bool :=
  let '(scheme, separator, token) := partition_char " " (chars authorization) in
  if negb separator || bool_decide (lower (of_chars scheme) ≠ "bearer") then Some false
  else compare_digest (of_chars token) (AUTH_TOKEN app).

Section application.
Context {KC : KeyringCrypto}.

(** The answer of an endpoint: unavailable backends are 503, invalid ciphertexts
    422, anything else a server error. *)
Definition answer (r : outcome (list (string * json))) : response :=
  match r with
  | Ok b => Response 200 [] b
  | Raise (OtherError "BackendUnavailable") => Response 503 [] [("detail", JStr "Keyring backend is unavailable")]
  | Raise (OtherError "InvalidCiphertext") => Response 422 [] [("detail", JStr "Ciphertext is invalid")]
  | Raise _ => Response 500 [] []
  end.

Definition operate (r : routed_backend) (n : nat) (q : keyring_request) : outcome (list (string * json)) :=
  match q with
  | PlaintextRequest p => bind_outcome (routed_encrypt r n p) (λ c, Ok [("ciphertext", JStr c)])
  | CiphertextRequest c => bind_outcome (routed_decrypt r c) (λ p, Ok [("plaintext", JStr p)])
  | PayloadRequest p => bind_outcome (routed_sign r p) (λ s, Ok [("signature", JStr s)])
  | VerifyRequest p s => bind_outcome (routed_verify r p s) (λ b, Ok [("valid", JBool b)])
  end.

(** One request at instant [now] (authentication, rate limit, body, operation). *)
Definition handle (app : keyring_app) (lim : limiter) (now : Z) (n : nat) (authorization : string)
    (q : keyring_request) : response * limiter :=
  match require_authentication app authorization with
  | None => (Response 500 [] [], lim)
  | Some false => (Response 401 [] [("detail", JStr "Keyring authentication failed")], lim)
  | Some true =>
      let '((allowed, retry_after), lim') := acquire lim (path_of q) now in
      if negb allowed then (Response 429 [("Retry-After", pretty retry_after)] [("detail", JStr "Keyring operation rate limit exceeded")], lim')
      else if negb (valid_body q) then (Response 422 [] [], lim')
      else (answer (operate (CRYPTO app) n q), lim')
  end.

(** ** The client ([common/keyring.py]) *)

(** [_post]: [raise_for_status] and [response.json()]; then the member [key]. *)
Definition client_value (r : response) (key : string) : outcome json :=
  if status r <? 400
  then match dict_get key (body r) with Some j => Ok j | None => Raise (OtherError "KeyError") end
  else Raise (KeyringError "The keyring operation failed").

Definition client_text (r : response) (key : string) : outcome string :=
  bind_outcome (client_value r key) (λ j,
    match j with JStr s => Ok s | _ => Raise (TypeError "string expected") end).

(** The client of a service that is reachable and below its rate limits: each call
    as the application answers it when the request is admitted. *)
Definition admitted (app : keyring_app) (n : nat) (authorization : string) (q : keyring_request) : response :=
  match require_authentication app authorization with
  | None => Response 500 [] []
  | Some false => Response 401 [] []
  | Some true => if negb (valid_body q) then Response 422 [] [] else answer (operate (CRYPTO app) n q)
  end.

Definition served_keyring (app : keyring_app) : keyring_client :=
  let authorization := "Bearer " +:+ AUTH_TOKEN app in
  {| kr_encrypt n s := client_text (admitted app n authorization (PlaintextRequest s)) "ciphertext";
     kr_decrypt c := client_text (admitted app 0 authorization (CiphertextRequest c)) "plaintext";
     kr_sign p := client_text (admitted app 0 authorization (PayloadRequest p)) "signature";
     kr_verify p s := bind_outcome (client_value (admitted app 0 authorization (VerifyRequest p s)) "valid")
                        (λ j, Ok (json_truthy j)) |}.
End application.

(** ** The rate limit holds *)

(** The requests that were let through, in order, from a given state. *)
Fixpoint serve (r : limiter) (requests : list (string * Z)) : list (string * Z) * limiter :=
  match requests with
  | [] => ([], r)
  | (op, t) :: l =>
      let '((ok, _), r1) := acquire r op t in
      let '(granted, r2) := serve r1 l in
      (if ok then (op, t) :: granted else granted, r2)
  end.

(** The instants granted to one operation. *)
Definition granted_to (op : string) (l : list (string * Z)) : list Z :=
  snd <$> List.filter (λ x, bool_decide (x.1 = op)) l.

(** The instants in the window that ends at [t]. *)
Definition in_window (w t : Z) (l : list Z) : list Z := List.filter (λ s, (t - w <? s) && (s <=? t)) l.

(** What the limiter keeps about an operation: [hist] are all the instants granted
    so far, [events] those that may still count. *)
Record window_inv (w lim : Z) (hist events : list Z) (now : Z) : Prop := {
  wi_split : ∃ old, hist = old ++ events ∧ Forall (λ s, s <= now - w) old;
  wi_past : Forall (λ s, s <= now) hist;
  wi_sorted : StronglySorted Z.le events;
  wi_count : Z.of_nat (length events) <= lim;
  wi_bound : ∀ t, Z.of_nat (length (in_window w t hist)) <= lim;
}.

Lemma expire_filter c l : StronglySorted Z.le l → expire c l = List.filter (λ s, c <? s) l.
Proof.
  induction 1 as [|x l Hs IH Hx]; [done|]. simpl. unfold expire in *. simpl.
  destruct (x <=? c) eqn:E; breflect.
  - rewrite IH. by rewrite (proj2 (Z.ltb_ge _ _)) by lia.
  - rewrite (proj2 (Z.ltb_lt _ _)) by lia. f_equal. clear IH Hs.
    induction Hx as [|y l Hy _ IH2]; [done|]. simpl. rewrite (proj2 (Z.ltb_lt _ _)) by lia. by rewrite <- IH2.
Qed.

Lemma expire_split c l : ∃ old, l = old ++ expire c l ∧ Forall (λ s, s <= c) old.
Proof.
  induction l as [|x l (old & E & Ho)]; [by exists []|]. unfold expire in *. simpl.
  destruct (x <=? c) eqn:Ex; [|by exists []]. exists (x :: old). simpl. rewrite <- E. split; [done|].
  constructor; [by apply Z.leb_le|done].
Qed.

Lemma sorted_suffix (l1 l2 : list Z) : StronglySorted Z.le (l1 ++ l2) → StronglySorted Z.le l2.
Proof. induction l1 as [|x l1 IH]; [done|]. simpl. inversion 1; subst. by apply IH. Qed.

Lemma sorted_snoc (l : list Z) x : StronglySorted Z.le l → Forall (λ s, s <= x) l → StronglySorted Z.le (l ++ [x]).
Proof.
  induction 1 as [|y l Hs IH Hy]; intros Hx; simpl; [by repeat constructor|].
  inversion Hx; subst. constructor; [by apply IH|]. apply Forall_app. split; [done|]. by repeat constructor.
Qed.

(** Expiry at a later instant. *)
Lemma window_inv_expire w lim hist events now now' :
  0 <= w → now <= now' → window_inv w lim hist events now →
  window_inv w lim hist (expire (now' - w) events) now'.
Proof.
  intros Hw Hn [(old & -> & Ho) Hp Hs Hc Hb]. destruct (expire_split (now' - w) events) as (old2 & E & Ho2).
  set (events' := expire (now' - w) events) in *. split; [| | | |done].
  - exists (old ++ old2). rewrite E at 1. rewrite app_assoc. split; [done|]. apply Forall_app. split; [|done].
    eapply Forall_impl; [exact Ho|]. simpl. intros; lia.
  - eapply Forall_impl; [exact Hp|]. simpl. intros; lia.
  - eapply sorted_suffix. rewrite <- E. done.
  - rewrite E, length_app in Hc. lia.
Qed.

(** Granting one more request below the limit. *)
Lemma window_inv_grant w lim hist events now :
  0 < w → window_inv w lim hist events now → Z.of_nat (length events) < lim →
  window_inv w lim (hist ++ [now]) (events ++ [now]) now.
Proof.
  intros Hw [(old & -> & Ho) Hp Hs Hc Hb] Hlt. split.
  - exists old. by rewrite app_assoc.
  - apply Forall_app. split; [done|]. by repeat constructor.
  - apply sorted_snoc; [done|]. by apply Forall_app in Hp as [_ ?].
  - rewrite length_app. simpl. lia.
  - intros t. unfold in_window in *. destruct (Z_lt_dec t now) as [Hlt'|Hge].
    + rewrite List.filter_app. simpl. rewrite (proj2 (Z.leb_gt now t)) by lia. rewrite andb_false_r, app_nil_r. apply Hb.
    + rewrite !List.filter_app, !length_app.
      assert (Hold : List.filter (λ s, (t - w <? s) && (s <=? t)) old = []).
      { clear -Ho Hge. induction Ho as [|x l Hx _ IH]; [done|]. simpl. rewrite (proj2 (Z.ltb_ge _ _)) by lia. done. }
      rewrite Hold. pose proof (List.filter_length_le (λ s, (t - w <? s) && (s <=? t)) events).
      pose proof (List.filter_length_le (λ s, (t - w <? s) && (s <=? t)) [now]). simpl in *. lia.
Qed.

Definition limiter_same (r r' : limiter) : Prop :=
  limits r' = limits r ∧ default_limit r' = default_limit r ∧ window_seconds r' = window_seconds r.

(** One request, seen from operation [op]. *)
Lemma acquire_inv r op op' t ok retry r' hist now :
  acquire r op' t = ((ok, retry), r') → 0 < window_seconds r → now <= t →
  window_inv (seconds (window_seconds r)) (limit_of r op) hist (default [] (_events r !! op)) now →
  limiter_same r r' ∧ limit_of r' op = limit_of r op ∧
  window_inv (seconds (window_seconds r)) (limit_of r op)
    (if ok && bool_decide (op' = op) then hist ++ [t] else hist) (default [] (_events r' !! op)) t.
Proof.
  intros H Hw Hn Hinv. unfold acquire in H.
  assert (0 < seconds (window_seconds r)) by (unfold seconds, second; lia).
  assert (Hother : op' ≠ op → ∀ v, default [] (<[op' := v]> (_events r) !! op) = default [] (_events r !! op))
    by (intros; by rewrite lookup_insert_ne).
  assert (Hkeep : window_inv (seconds (window_seconds r)) (limit_of r op) hist (default [] (_events r !! op)) t).
  { destruct Hinv as [(old & E & Ho) Hp Hs Hc Hb]. split; try done.
    - exists old. split; [done|]. eapply Forall_impl; [exact Ho|]. simpl. intros; lia.
    - eapply Forall_impl; [exact Hp|]. simpl. intros; lia. }
  destruct (decide (op' = op)) as [->|Hne].
  - assert (Hw0 : 0 <= seconds (window_seconds r)) by lia.
    pose proof (window_inv_expire _ _ _ _ now t Hw0 Hn Hinv) as Hexp. set (ev := expire _ _) in *.
    destruct (limit_of r op <=? Z.of_nat (length ev)) eqn:E; injection H as <- <- <-; simpl;
      rewrite lookup_insert_eq; simpl; (split; [done|]); (split; [done|]).
    + done.
    + rewrite bool_decide_true by done. apply window_inv_grant; [done..|]. by apply Z.leb_gt in E.
  - rewrite bool_decide_false, andb_false_r by done.
    destruct (_ <=? _); injection H as <- <- <-; simpl; rewrite Hother by done; done.
Qed.

Lemma limit_of_same r r' op : limiter_same r r' → limit_of r' op = limit_of r op.
Proof. intros (E1 & E2 & _). unfold limit_of. by rewrite E1, E2. Qed.

(** Requests arrive in the order of the clock. *)
Definition in_order (now : Z) (requests : list (string * Z)) : Prop :=
  StronglySorted Z.le (now :: (snd <$> requests)).

Lemma in_order_cons now op t l : in_order now ((op, t) :: l) → now <= t ∧ in_order t l.
Proof. unfold in_order. simpl. intros H. inversion H as [|? ? H1 H2]; subst. by inversion H2. Qed.

Lemma serve_inv r requests granted r' op hist now :
  serve r requests = (granted, r') → 0 < window_seconds r → in_order now requests →
  window_inv (seconds (window_seconds r)) (limit_of r op) hist (default [] (_events r !! op)) now →
  limiter_same r r' ∧ ∃ now', now <= now' ∧
    window_inv (seconds (window_seconds r)) (limit_of r op) (hist ++ granted_to op granted)
      (default [] (_events r' !! op)) now'.
Proof.
  revert r granted hist now. induction requests as [|[op' t] l IH]; intros r granted hist now H Hw Ho Hinv; simpl in H.
  { injection H as <- <-. split; [done|]. exists now. unfold granted_to. simpl. by rewrite app_nil_r. }
  destruct (acquire r op' t) as [[ok retry] r1] eqn:Ea. destruct (serve r1 l) as [granted1 r2] eqn:Es.
  injection H as <- <-. apply in_order_cons in Ho as [Hn Ho].
  destruct (acquire_inv _ _ _ _ _ _ _ _ _ Ea Hw Hn Hinv) as (Hsame & Hlim & Hinv1).
  pose proof Hsame as (_ & _ & Hws). rewrite <- Hws, <- Hlim in Hinv1.
  destruct (IH _ _ _ _ Es ltac:(by rewrite Hws) Ho Hinv1) as (Hs2 & now' & Hn' & Hinv2).
  split. { destruct Hsame as (?&?&?), Hs2 as (?&?&?). split_and!; congruence. }
  exists now'. split; [lia|]. rewrite Hws, Hlim in Hinv2.
  assert (E : (if ok && bool_decide (op' = op) then hist ++ [t] else hist) ++ granted_to op granted1
            = hist ++ granted_to op (if ok then (op', t) :: granted1 else granted1)); [|by rewrite <- E].
  unfold granted_to. destruct ok; simpl; [|done]. by case_bool_decide; simpl; rewrite <- ?app_assoc.
Qed.

Definition fresh_limiter (r : limiter) : Prop := _events r = ∅.

Lemma window_inv_start w lim now : 0 <= lim → window_inv w lim [] [] now.
Proof.
  intros Hl. split; [by exists []|done|constructor|done|done].
Qed.

(** The rate limiter keeps its promise: whatever requests arrive, in the order
    of the clock, no window of [window_seconds] contains more grants for an
    operation than its limit. *)
Theorem rate_limit_respected r requests granted r' op t start :
  serve r requests = (granted, r') → fresh_limiter r → 0 < window_seconds r → 0 <= limit_of r op →
  in_order start requests →
  Z.of_nat (length (in_window (seconds (window_seconds r)) t (granted_to op granted))) <= limit_of r op.
Proof.
  intros H Hf Hw Hl Ho. destruct (serve_inv _ _ _ _ op [] start H Hw Ho) as (_ & now' & _ & Hinv).
  - rewrite Hf, lookup_empty. by apply window_inv_start.
  - apply (wi_bound _ _ _ _ _ Hinv).
Qed.

Lemma ceil_seconds_ge us : us <= ceil_seconds us * second.
Proof. unfold ceil_seconds, second. pose proof (Z.mul_div_le (- us) 1000000 ltac:(lia)). lia. Qed.

Lemma in_order_prefix now l1 l2 : in_order now (l1 ++ l2) → in_order now l1.
Proof. unfold in_order. rewrite fmap_app, app_comm_cons. intros H. by apply StronglySorted_app in H as (_ & ? & _). Qed.

(** C34: A refusal tells the truth: a client that is refused and waits the announced
    number of seconds, while nobody else calls, is let through, whenever it then
    retries. *)
Theorem retry_after_suffices r requests granted r1 op t retry r2 t' start :
  serve r requests = (granted, r1) → fresh_limiter r → 0 < window_seconds r → 1 <= limit_of r op →
  in_order start (requests ++ [(op, t)]) →
  acquire r1 op t = ((false, retry), r2) → t + seconds retry <= t' →
  ∃ r3, acquire r2 op t' = ((true, 0), r3).
Proof.
  intros H Hf Hw Hl Ho Ha Ht. apply in_order_prefix in Ho.
  destruct (serve_inv _ _ _ _ op [] start H Hw Ho) as (Hsame & now' & _ & [_ _ _ Hc _]).
  { rewrite Hf, lookup_empty. apply window_inv_start. lia. }
  pose proof (limit_of_same _ _ op Hsame) as Hlim. destruct Hsame as (_ & _ & Hws).
  unfold acquire in Ha. destruct (expire_split (t - seconds (window_seconds r1)) (default [] (_events r1 !! op))) as (old & E & _).
  set (ev := expire _ _) in *. rewrite E, length_app in Hc.
  destruct (limit_of r1 op <=? Z.of_nat (length ev)) eqn:Ele; [|done]. injection Ha as <- <-. apply Z.leb_le in Ele.
  unfold acquire. simpl. rewrite lookup_insert_eq. simpl. set (ev' := expire _ ev).
  assert (Hlt : Z.of_nat (length ev') < limit_of r1 op).
  { destruct ev as [|e0 rest] eqn:Eev; [simpl in Ele; lia|].
    pose proof (ceil_seconds_ge (e0 + seconds (window_seconds r1) - t)) as Hce. simpl in Ht.
    assert (He0 : e0 <= t' - seconds (window_seconds r1)) by (unfold seconds, second in *; lia).
    assert (ev' = expire (t' - seconds (window_seconds r1)) rest) as ->.
    { unfold ev', expire. simpl. by rewrite (proj2 (Z.leb_le _ _)). }
    pose proof (drop_while_length (λ s, s <=? t' - seconds (window_seconds r1)) rest). unfold expire. simpl in *. lia. }
  replace (limit_of _ op) with (limit_of r1 op) by done. rewrite (proj2 (Z.leb_gt _ _)) by done. by eexists.
Qed.

(** ** The service keeps the promises the application relies on *)

(** What the Fernet specification documents: a token opens under its key; it is the
    URL-safe base 64 of a version byte 0x80, a time stamp, an initialisation vector,
    the padded ciphertext and a tag. *)
Class FernetFormat `{KeyringCrypto} := {
  fernet_opens key n m : fernet_open key (fernet_seal key n m) = Some m;
  fernet_not_vault key n m : startswith "vault:" (fernet_seal key n m) = false;
  fernet_size key n m : len (fernet_seal key n m) = 4 * ((57 + 16 * (len m / 16 + 1) + 2) / 3);
}.

Section service.
Context {KC : KeyringCrypto} {FF : FernetFormat}.

Lemma local_round_trip k n s : local_decrypt k (local_encrypt k n s) = Ok s.
Proof. unfold local_decrypt, local_encrypt. by rewrite fernet_opens, decode_encode. Qed.

Lemma hexdigest_lower b : Forall is_byte b → forallb lower_hex (chars (hexdigest b)) = true.
Proof.
  intros Hb. change (hexdigest b) with (of_chars (hex_of b)). rewrite chars_of_chars.
  apply forallb_elem. intros c Hc. pose proof (hex_of_chars b Hb) as H. rewrite Forall_forall in H. by apply H.
Qed.

Lemma hmac_sha256_bytes key m : Forall is_byte (hmac sha256 key m) ∧ length (hmac sha256 key m) = 32%nat.
Proof. unfold hmac. split; [apply sha256_bytes|apply sha256_length]. Qed.

Lemma local_sign_shape k p :
  len (local_sign k p) = 64 ∧ forallb lower_hex (chars (local_sign k p)) = true ∧ is_ascii (local_sign k p) = true.
Proof.
  destruct (hmac_sha256_bytes (signing_key k) (utf8 p)) as [Hb Hl]. unfold local_sign.
  assert (Hlow := hexdigest_lower _ Hb). split; [|split; [done|]].
  - unfold len. by rewrite hexdigest_length, Hl.
  - unfold is_ascii. rewrite forallb_elem in *. intros c Hc. specialize (Hlow c Hc). unfold lower_hex, between in Hlow.
    apply Z.ltb_lt. apply orb_true_iff in Hlow as [H|H]; breflect; lia.
Qed.

Lemma local_verify_sign k p : local_verify k p (local_sign k p) = Ok true.
Proof.
  destruct (local_sign_shape k p) as (_ & _ & Ha). unfold local_verify, compare_digest. rewrite Ha. simpl.
  by rewrite bool_decide_true.
Qed.

Lemma bearer_accepted app : is_ascii (AUTH_TOKEN app) = true →
  require_authentication app ("Bearer " +:+ AUTH_TOKEN app) = Some true.
Proof.
  intros Ha. unfold require_authentication. rewrite chars_app. simpl. rewrite of_chars_chars.
  unfold compare_digest. rewrite Ha. simpl. by rewrite bool_decide_true.
Qed.
(** The UTF-8 size up to which a ciphertext fits the request of [/decrypt]. *)
Definition MAX_READABLE : Z := 1572799.

Lemma ciphertext_fits L : 0 <= L → (4 * ((57 + 16 * (L / 16 + 1) + 2) / 3) <=? 2 * MAX_VALUE_LENGTH) = (L <=? MAX_READABLE).
Proof.
  intros HL. unfold MAX_VALUE_LENGTH, MAX_READABLE. apply Bool.eq_iff_eq_true. rewrite !Z.leb_le.
  pose proof (Z.div_mod L 16 ltac:(lia)). pose proof (Z.mod_pos_bound L 16 ltac:(lia)).
  pose proof (Z.div_mod (57 + 16 * (L / 16 + 1) + 2) 3 ltac:(lia)).
  pose proof (Z.mod_pos_bound (57 + 16 * (L / 16 + 1) + 2) 3 ltac:(lia)). lia.
Qed.

(** What the service encrypts it decrypts, up to a size.  With local keys and a
    reachable service below its rate limits, a value the application encrypted
    comes back when its UTF-8 form has at most 1,572,799 bytes; beyond that the
    ciphertext no longer fits the decryption request and the value cannot be read
    back, although its encryption was accepted. *)
Theorem keyring_round_trip_boundary app k n s c :
  CRYPTO app = RoutedBackend (LocalBackend k) None → is_ascii (AUTH_TOKEN app) = true →
  kr_encrypt (served_keyring app) n s = Ok c →
  kr_decrypt (served_keyring app) c =
    if len (encode s) <=? MAX_READABLE then Ok s else Raise (KeyringError "The keyring operation failed").
Proof.
  intros Hc Ha. unfold served_keyring, admitted. simpl. rewrite (bearer_accepted _ Ha).
  unfold valid_body. destruct (len s <=? MAX_VALUE_LENGTH); [|done]. cbn [negb]. rewrite Hc. simpl.
  intros [= <-]. unfold local_encrypt at 1. rewrite fernet_size, ciphertext_fits by (unfold len; lia).
  destruct (len (encode s) <=? MAX_READABLE); [|done]. cbn [negb]. simpl. unfold routed_decrypt.
  unfold local_encrypt at 1. rewrite fernet_not_vault. simpl. by rewrite local_round_trip.
Qed.

(** C33: The service discharges the signing contract of the audit chain: with local
    keys, every signature it returns is not empty and verifies. *)
Theorem service_signs_verifiably {PF : Platform} app k :
  keyring = served_keyring app → CRYPTO app = RoutedBackend (LocalBackend k) None →
  is_ascii (AUTH_TOKEN app) = true → SigningKeyring.
Proof.
  intros Hk Hc Ha. constructor. rewrite Hk. intros h sig. unfold served_keyring, admitted. simpl.
  rewrite (bearer_accepted _ Ha). unfold valid_body. destruct (len h <=? MAX_VALUE_LENGTH) eqn:El; [|done].
  cbn [negb]. rewrite Hc. simpl. intros [= <-]. destruct (local_sign_shape k h) as (Hlen & Hlow & _). split.
  - intros E. by rewrite E in Hlen.
  - unfold signature_pattern. rewrite Hlen, Hlow. simpl. unfold routed_verify. simpl. by rewrite local_verify_sign.
Qed.

(** Moving to Vault Transit loses nothing.  After the service ran with local
    keys and is restarted on Vault Transit with the same key file, old ciphertexts
    still decrypt and old signatures still verify; the other way round, a Vault
    ciphertext is refused as invalid by a service on local keys. *)
Theorem migration_keeps_old_material stored u1 u2 r1 file1 r2 file2 n s c h sig vault_text :
  open_routed "local" stored u1 = Ok (r1, file1) → open_routed "vault-transit" file1 u2 = Ok (r2, file2) →
  routed_encrypt r1 n s = Ok c → routed_sign r1 h = Ok sig → startswith "vault:" vault_text = true →
  file2 = file1 ∧ routed_decrypt r2 c = Ok s ∧ routed_verify r2 h sig = Ok true ∧
  routed_decrypt r1 vault_text = Raise InvalidCiphertext.
Proof.
  unfold open_routed. simpl. intros H1 H2 Henc Hsign Hv.
  destruct (open_local stored true u1) as [[k file]|e] eqn:E1; [|done]. injection H1 as <- <-.
  assert (E2 : open_local (Some file) false u2 = Ok (k, file)).
  { unfold open_local in *. destruct stored as [m|]; destruct (negb _) eqn:El; try done; injection E1 as <- <-; by rewrite El. }
  rewrite E2 in H2. injection H2 as <- <-. simpl in Henc, Hsign. injection Henc as <-. injection Hsign as <-.
  split; [done|]. split; [|split].
  - unfold routed_decrypt. unfold local_encrypt at 1. rewrite fernet_not_vault. apply local_round_trip.
  - unfold routed_verify. simpl. unfold vault_verify.
    assert (startswith "vault:" (local_sign k h) = false) as ->; [|apply local_verify_sign].
    destruct (local_sign_shape k h) as (_ & Hlow & _). destruct (local_sign k h) as [|a t]; [done|].
    simpl in Hlow. apply andb_true_iff in Hlow as [Hlow _]. unfold startswith. cbn [String.prefix].
    destruct (ascii_dec "v" a) as [<-|]; [by vm_compute in Hlow|done].
  - unfold routed_decrypt. by rewrite Hv.
Qed.

(** Only callers with the token are served.  An answer other than a refusal of
    authentication or a server error was asked for with the configured token under
    the bearer scheme, and an answer 200 was within the rate limit and carried a
    body within the size limits; a refused caller does not use up the limit. *)
Theorem keyring_requires_token app lim t n authorization q r lim' :
  handle app lim t n authorization q = (r, lim') →
  (status r = 401 → lim' = lim) ∧
  (status r ≠ 401 → status r ≠ 500 →
     ∃ scheme, chars authorization = scheme ++ " "%char :: chars (AUTH_TOKEN app) ∧ lower (of_chars scheme) = "bearer") ∧
  (status r = 200 → valid_body q = true ∧ (acquire lim (path_of q) t).1.1 = true).
Proof.
  unfold handle. destruct (require_authentication app authorization) as [[]|] eqn:Eauth; intros H.
  - destruct (acquire lim (path_of q) t) as [[ok retry] lim1] eqn:Ea.
    assert (Htok : ∃ scheme, chars authorization = scheme ++ " "%char :: chars (AUTH_TOKEN app) ∧ lower (of_chars scheme) = "bearer").
    { unfold require_authentication in Eauth. destruct (partition_char " " (chars authorization)) as [[scheme sep] token] eqn:Ep.
      destruct sep; simpl in Eauth; [|done]. case_bool_decide as Hb; [done|].
      unfold compare_digest in Eauth. destruct (is_ascii _ && is_ascii _); [|done]. injection Eauth as Eauth%bool_decide_eq_true.
      exists scheme. split; [|done]. rewrite <- Eauth, chars_of_chars. by apply partition_char_true. }
    destruct ok; cbn [negb] in H; [destruct (valid_body q) eqn:Ev; cbn [negb] in H|]; injection H as <- <-;
      (split; [|split; [done|]]); simpl; try done.
    unfold answer. repeat case_match; simpl; done.
  - injection H as <- <-. simpl. split_and!; [done|by intros []|done].
  - injection H as <- <-. simpl. split_and!; [done|by intros ? []|done].
Qed.

End service.

(** ** Witnesses *)

(** A cipher of the documented format: the message is padded to the size of the token. *)
Definition token_size (m : string) : Z := 4 * ((57 + 16 * (len m / 16 + 1) + 2) / 3).

Definition demo_seal (key : bytes) (n : nat) (m : string) : string :=
  of_chars ("g"%char :: chars m ++ "A"%char :: replicate (Z.to_nat (token_size m - len m - 2)) "="%char).

Definition demo_open (key : bytes) (c : string) : option string :=
  match chars c with
  | "g"%char :: l => match drop_while (λ x, bool_decide (x = "="%char)) (rev l) with
                     | "A"%char :: m => Some (of_chars (rev m))
                     | _ => None
                     end
  | _ => None
  end.

#[local] Instance demo_crypto : KeyringCrypto := {|
  fernet_seal := demo_seal;
  fernet_open := demo_open;
  hkdf key info := key ++ utf8 info;
  vault_post _ _ _ := Unreachable;
|}.

Lemma drop_while_replicate {A} (f : A → bool) n x l : f x = true → drop_while f (replicate n x ++ l) = drop_while f l.
Proof. intros Hx. induction n as [|n IH]; [done|]. simpl. by rewrite Hx. Qed.

#[local] Instance demo_format : FernetFormat.
Proof.
  split; intros key n m; simpl; unfold demo_open, demo_seal.
  - rewrite chars_of_chars. rewrite rev_app_distr. simpl. rewrite <- app_assoc.
    assert (Hr : ∀ k, rev (replicate k "="%char) = replicate k "="%char).
    { intros k. induction k as [|k IH]; [done|]. simpl. rewrite IH. clear IH. induction k as [|k IH]; [done|]. simpl. by f_equal. }
    rewrite Hr, drop_while_replicate by done. simpl. by rewrite rev_involutive, of_chars_chars.
  - done.
  - unfold len at 1. rewrite <- (length_chars (of_chars _)), chars_of_chars. simpl. rewrite length_app. simpl.
    rewrite length_replicate, length_chars. fold (token_size m).
    assert (Z.of_nat (String.length m) + 2 <= token_size m); [|unfold len; lia].
    unfold token_size, len. set (L := Z.of_nat (String.length m)). assert (0 <= L) by lia.
    pose proof (Z.div_mod L 16 ltac:(lia)). pose proof (Z.mod_pos_bound L 16 ltac:(lia)).
    pose proof (Z.div_mod (57 + 16 * (L / 16 + 1) + 2) 3 ltac:(lia)).
    pose proof (Z.mod_pos_bound (57 + 16 * (L / 16 + 1) + 2) 3 ltac:(lia)). lia.
Qed.

Definition demo_keys : local_keys := LocalKeys (replicate 32 7) (replicate 32 9).
Definition demo_keyring_app : keyring_app := KeyringApp "s3cret-token-of-the-keyring-client" (RoutedBackend (LocalBackend demo_keys) None).
Definition demo_limiter : limiter := Limiter {["/decrypt" := 2]} 10 60 ∅.
Definition demo_requests : list (string * Z) := [("/decrypt", 0); ("/decrypt", second); ("/decrypt", 2 * second)].

Lemma in_order_demo l : bool_decide (StronglySorted Z.le (0 :: (snd <$> l))) = true → in_order 0 l.
Proof. by intros ?%bool_decide_eq_true. Qed.

Lemma rate_limit_respected_witness :
  Z.of_nat (length (in_window (seconds 60) (3 * second) (granted_to "/decrypt" (serve demo_limiter demo_requests).1))) <= 2.
Proof.
  exact (rate_limit_respected demo_limiter demo_requests _ _ "/decrypt" (3 * second) 0 (surjective_pairing _)
           eq_refl ltac:(vm_compute; done) ltac:(vm_compute; done) (in_order_demo demo_requests eq_refl)).
Defined.

Lemma retry_after_suffices_witness :
  ∃ r3, acquire (acquire (serve demo_limiter (take 2 demo_requests)).2 "/decrypt" (2 * second)).2 "/decrypt" (60 * second)
        = ((true, 0), r3).
Proof.
  eapply (retry_after_suffices demo_limiter (take 2 demo_requests) _ _ "/decrypt" (2 * second) 58 _ _ 0
            (surjective_pairing _) eq_refl).
  - vm_compute; done.
  - vm_compute; done.
  - exact (in_order_demo demo_requests eq_refl).
  - vm_compute; reflexivity.
  - vm_compute; done.
Defined.

Lemma keyring_round_trip_boundary_witness :
  ∃ c, kr_encrypt (served_keyring demo_keyring_app) 0 "hunter2" = Ok c ∧
       kr_decrypt (served_keyring demo_keyring_app) c = Ok "hunter2".
Proof.
  eexists. split; [vm_compute; reflexivity|].
  exact (keyring_round_trip_boundary demo_keyring_app demo_keys 0 "hunter2" _ eq_refl eq_refl ltac:(vm_compute; reflexivity)).
Defined.

Definition served_platform : Platform := {|
  draw_uuid4 := @draw_uuid4 demo_platform;
  draw_token_urlsafe := @draw_token_urlsafe demo_platform;
  draw_token_hex := @draw_token_hex demo_platform;
  draw_token_bytes := @draw_token_bytes demo_platform;
  keyring := served_keyring demo_keyring_app;
  utc_offset := @utc_offset demo_platform;
  make_password := @make_password demo_platform;
  check_password := @check_password demo_platform;
  conf := demo_conf;
|}.

Lemma service_signs_verifiably_witness : @SigningKeyring served_platform.
Proof. exact (@service_signs_verifiably demo_crypto served_platform demo_keyring_app demo_keys eq_refl eq_refl eq_refl). Defined.

Lemma migration_keeps_old_material_witness :
  match open_routed "local" None (replicate 32 5) with
  | Ok (r1, file1) =>
      match open_routed "vault-transit" file1 [], routed_encrypt r1 0 "hunter2", routed_sign r1 "payload" with
      | Ok (r2, file2), Ok c, Ok sig =>
          file2 = file1 ∧ routed_decrypt r2 c = Ok "hunter2" ∧ routed_verify r2 "payload" sig = Ok true ∧
          routed_decrypt r1 "vault:v1:AAAA" = Raise InvalidCiphertext
      | _, _, _ => False
      end
  | _ => False
  end.
Proof.
  exact (migration_keeps_old_material None (replicate 32 5) [] _ _ _ _ 0 "hunter2" _ "payload" _ "vault:v1:AAAA"
           eq_refl eq_refl eq_refl eq_refl eq_refl).
Defined.

Lemma keyring_requires_token_witness :
  ∃ scheme, chars "bearer s3cret-token-of-the-keyring-client" = scheme ++ " "%char :: chars "s3cret-token-of-the-keyring-client" ∧ lower (of_chars scheme) = "bearer".
Proof.
  destruct (keyring_requires_token demo_keyring_app demo_limiter 0 0 "bearer s3cret-token-of-the-keyring-client" (PayloadRequest "x") _ _
              (surjective_pairing _)) as (_ & H & _).
  apply H; vm_compute; done.
Defined.
