(* ===== verification/Portal.v ===== *)
(** * The user portal ([pamolive/api/views.py], [api/forms.py], [vault/forms.py])

    The views with which a signed-in user keeps a personal vault, reveals the secret
    of an account, refreshes one-time codes and starts a session.  They put together
    the fresh-MFA guard, the policies, the leases and the sessions of the other
    files.  A view is a [handler]; the form of a POST request is a map from field
    names to texts, and a rendered template keeps its context.

    Templates, cache headers and flash messages are left out. *)

From S2P Require Import Prelude PyStr Json Loads Crypto PyTime Models World Text AuditTrail Rbac Ip Policies Approvals Vault Mfa Accounts Leases Sessions.

Local Open Scope Z_scope.

(** Django's URL field and the absolute form of a path. *)
Class PortalEnv := {
  clean_url : string → option string;
  build_absolute_uri : string → string;
  PAMOLIVE_RDP_PUBLIC_ORIGIN : string;
}.

Definition form_data : Type := gmap string string.

Section decorators.
Context {PF : Platform}.

Definition require_POST (h : handler) : handler := λ r,
  if decide (rq_method r = "POST") then h r else mret (NotAllowed ["POST"], r).

Definition login_required (view : obj user → handler) : handler := λ r,
  match rq_user r with
  | AnonymousUser => mret (RedirectTo "login" [("next", get_full_path r)], r)
  | Authenticated u => view u r
  end.

Definition redirect (view : string) (r : http_request) : M (response * http_request) := mret (RedirectTo view [], r).

(** [get_object_or_404(Model, pk=k)] *)
Definition get_or_404 {A} (tbl : db → gmap id A) (k : id) : M (obj A) :=
  found ← asks (λ d, tbl d !! k);
  match found with Some v => mret (Obj k v) | None => raise Http404 end.

(** ** Payloads of the personal vault *)

Definition encrypt_payload (payload : list (string * json)) : M string :=
  encrypt (of_chars (ser (JObj payload))).

(** The views use the result as a dictionary. *)
Definition decrypt_payload (token key_id : string) : M (list (string * json)) :=
  text ← decrypt token key_id;
  match loads text with
  | Some (JObj l) => mret l
  | Some _ => raise (OtherError "AttributeError")
  | None => raise (ValueError "JSONDecodeError")
  end.
End decorators.

(** ** Forms *)

Section forms.
Context {PE : PortalEnv}.

(** [CharField.clean] without length limits: stripped, no NUL. *)
Definition clean_text (POST : form_data) (key : string) : option string :=
  let v := strip (default "" (POST !! key)) in
  if existsb (λ c, code c =? 0) (chars v) then None else Some v.

(** [CheckboxInput] and [BooleanField] *)
Definition clean_checkbox (POST : form_data) (key : string) : bool :=
  match POST !! key with
  | Some v => negb (bool_decide (lower v ∈ [""; "false"]))
  | None => false
  end.

Definition ItemType_values : list string := ["login"; "totp"; "card"; "note"].

(** The fields of the payload, in the order of the form. *)
Definition payload_fields : list string :=
  ["application"; "website_url"; "username"; "password"; "totp_secret"; "card_holder"; "card_number";
   "expiry"; "cvv"; "notes"].

Definition clean_payload_field (POST : form_data) (key : string) : option (string * string) :=
  v ← clean_text POST key;
  if decide (key = "website_url") then
    if decide (v = "") then Some (key, v) else u ← clean_url v; Some (key, u)
  else Some (key, v).

Record item_form := ItemForm {
  if_name : string; if_item_type : string; if_payload : list (string * string);
  if_favorite : bool; if_group : option id }.

(** What [clean] requires for each type. *)
Definition required_field (item_type : string) : string :=
  if decide (item_type = "login") then "password"
  else if decide (item_type = "totp") then "totp_secret"
  else if decide (item_type = "card") then "card_number"
  else "notes".

Definition field_value (l : list (string * string)) (key : string) : string :=
  default "" (snd <$> List.find (λ kv, bool_decide (kv.1 = key)) l).

(** The chosen group: empty for none, else one of the owner's. *)
Definition clean_group (d : db) (owner : id) (POST : form_data) : option (option id) :=
  let v := default "" (POST !! "group") in
  if decide (v = "") then Some None
  else
    k ← uuid_of_str v;
    g ← vault_groups d !! k;
    if decide (pg_owner g = owner) then Some (Some k) else None.

(** [PersonalVaultItemForm(POST, owner=owner)] when it is valid. *)
Definition personal_item_form (d : db) (owner : id) (POST : form_data) : option item_form :=
  name ← clean_text POST "name";
  payload ← mapM (clean_payload_field POST) payload_fields;
  group ← clean_group d owner POST;
  let item_type := default "" (POST !! "item_type") in
  if bool_decide (name = "") || negb (bool_decide (item_type ∈ ItemType_values))
     || bool_decide (field_value payload (required_field item_type) = "")
  then None
  else Some (ItemForm name item_type payload (clean_checkbox POST "favorite") group).

Definition encrypted_payload_data (f : item_form) : list (string * json) :=
  (λ kv, (kv.1, JStr kv.2)) <$> filter (λ kv : string * string, kv.2 ≠ "") (if_payload f).

(** [PersonalVaultGroupForm]: the name when the form is valid. *)
Definition personal_group_form (d : db) (owner : id) (POST : form_data) : option string :=
  v ← clean_text POST "name";
  let name := strip v in
  if bool_decide (v = "") || (120 <? len v)
     || exists_row (λ g, bool_decide (pg_owner (val g) = owner)
                         && bool_decide (upper (pg_name (val g)) = upper name)) (vault_groups d)
  then None else Some name.

(** [PrivilegedActionJustificationForm]: length limits on the stripped text, then
    [clean_justification]. *)
Definition justification_form (POST : form_data) : option string :=
  v ← clean_text POST "justification";
  if (len v <? MIN_JUSTIFICATION_LENGTH) || (MAX_JUSTIFICATION_LENGTH <? len v) then None
  else match normalize_justification v with Ok j => Some j | Raise _ => None end.
End forms.

Section views.
Context {PF : Platform} {PE : PortalEnv}.

Definition item_resource (k : id) : resource := Resource "vault.personalvaultitem" (str_uuid k).
Definition group_resource (k : id) : resource := Resource "vault.personalvaultgroup" (str_uuid k).

(** [get_object_or_404(PersonalVaultItem, pk=pk, owner=request.user)] *)
Definition owned_item (u : obj user) (k : id) : M (obj personal_vault_item) :=
  item ← get_or_404 vault_items k;
  raise_if (bool_decide (pv_owner (val item) ≠ pk u)) Http404 ;;
  mret item.

(** ** Personal vault *)

(** The column holds 180 characters; the form sets no limit. *)
Definition create_item (u : obj user) (f : item_form) : M id :=
  payload ← encrypt_payload (encrypted_payload_data f);
  k ← uuid4;
  st ← new_stamps;
  raise_if (180 <? len (if_name f)) (OtherError "DataError") ;;
  insert_row vault_items k (PersonalVaultItem (pk u) (if_group f) (if_name f) (if_item_type f) payload
                              active_key_id (if_favorite f) st) ;;
  record_event (Some (pk u)) "personal_vault.item_created" (item_resource k) [] None ;;
  mret k.

Definition create_group (u : obj user) (name : string) : M id :=
  k ← uuid4;
  st ← new_stamps;
  insert_row vault_groups k (PersonalVaultGroup (pk u) name st) ;;
  record_event (Some (pk u)) "personal_vault.group_created" (group_resource k) [] None ;;
  mret k.

(** The accounts of one target the user may read. *)
Definition readable_credentials (u : obj user) (source_ip : option string) (target : obj target) : M (list json) :=
  actions ← actions_for_target (Authenticated u) target source_ip None;
  creds ← asks (λ d, objects_filter (λ c, bool_decide (c_target (val c) = pk target)) (credentials d));
  fold_m creds [] (λ shown c,
    ok ← credential_allows_action (Authenticated u) c VIEW_SECRET source_ip None;
    mret (if ok : bool
          then shown ++ [JObj [("credential", JStr (str_uuid (pk c)));
                               ("actions", JArr (JStr <$> elements actions));
                               ("target", JStr (str_uuid (pk target)))]]
          else shown)).

Definition items_json (l : list (obj personal_vault_item)) : json := JArr ((λ o, JStr (str_uuid (pk o))) <$> l).

Definition passwords_listing (u : obj user) (r : http_request) : M (response * http_request) :=
  let source_ip := request_client_ip (rq_meta r) in
  allowing ← policies_allowing (Authenticated u) VIEW_SECRET source_ip None;
  allowed_targets ← asks (λ d, targets_for_policies d allowing);
  target_credentials ← fold_m allowed_targets [] (λ acc t,
    l ← readable_credentials u source_ip t; mret (acc ++ l));
  items ← asks (λ d, objects_filter (λ o, bool_decide (pv_owner (val o) = pk u)) (vault_items d));
  mret (Rendered "passwords.html" 200
          [("personal_items", items_json items);
           ("ungrouped_items", items_json (List.filter (λ o, bool_decide (pv_group (val o) = None)) items));
           ("target_credentials", JArr target_credentials)], r).

Definition passwords_page (POST : form_data) : handler := login_required (λ u r,
  let action := default "item" (POST !! "action") in
  d ← asks (λ d, d);
  if bool_decide (rq_method r = "POST") && bool_decide (action = "item") then
    match personal_item_form d (pk u) POST with
    | Some f => create_item u f ;; redirect "passwords" r
    | None => passwords_listing u r
    end
  else if bool_decide (rq_method r = "POST") && bool_decide (action = "group") then
    match personal_group_form d (pk u) POST with
    | Some name => create_group u name ;; redirect "passwords" r
    | None => passwords_listing u r
    end
  else passwords_listing u r).

Definition edited (f : item_form) (payload : string) (stamp : Z) (i : personal_vault_item) : personal_vault_item :=
  i <| pv_name := if_name f |> <| pv_item_type := if_item_type f |> <| pv_favorite := if_favorite f |>
    <| pv_group := if_group f |> <| pv_encrypted_payload := payload |> <| pv_key_id := active_key_id |>
    <| pv_stamps ::= touch stamp |>.

Definition edit_personal_item (k : id) (POST : form_data) : handler := login_required (λ u r,
  item ← owned_item u k;
  payload ← decrypt_payload (pv_encrypted_payload (val item)) (pv_key_id (val item));
  d ← asks (λ d, d);
  match (if bool_decide (rq_method r = "POST") then personal_item_form d (pk u) POST else None) with
  | Some f =>
      c ← encrypt_payload (encrypted_payload_data f);
      stamp ← now;
      raise_if (180 <? len (if_name f)) (OtherError "DataError") ;;
      save_fields vault_items k (edited f c stamp) ;;
      record_event (Some (pk u)) "personal_vault.item_updated" (item_resource k) [] None ;;
      redirect "passwords" r
  | None => mret (Rendered "vault/edit.html" 200 [("item", JStr (str_uuid k)); ("initial", JObj payload)], r)
  end).

(** [payload.get("totp_secret")] when it is a text that is not empty. *)
Definition totp_secret_of (payload : list (string * json)) : M (option string) :=
  match dict_get "totp_secret" payload with
  | Some (JStr s) => mret (if decide (s = "") then None else Some s)
  | Some j => if json_truthy j then raise (OtherError "AttributeError") else mret None
  | None => mret None
  end.

Definition reveal_personal_item (k : id) : handler :=
  require_POST (require_recent_mfa "révéler un élément du coffre personnel" (λ u r,
    item ← owned_item u k;
    payload ← decrypt_payload (pv_encrypted_payload (val item)) (pv_key_id (val item));
    secret ← totp_secret_of payload;
    shown ← match secret with
            | Some s => code ← totp_code s None; mret (dict_set "totp_code" (JStr code) payload)
            | None => mret payload
            end;
    record_event (Some (pk u)) "personal_vault.item_revealed" (item_resource k) [] None ;;
    mret (Rendered "vault/reveal.html" 200
            [("item", JStr (str_uuid k)); ("payload", JObj shown);
             ("totp_refresh_url", JStr (match secret with
                | Some _ => build_absolute_uri ("/passwords/personal/" +:+ str_uuid k +:+ "/totp/")
                | None => "" end))], r))).

(** [_totp_json(secret)] *)
Definition _totp_json (secret : string) (r : http_request) : M (response * http_request) :=
  t ← time_time;
  code ← totp_code secret (Some t);
  mret (JsonBody 200 [("code", JStr code); ("remaining", JInt (30 - t mod 30)); ("period", JInt 30)], r).

Definition personal_item_totp (k : id) : handler :=
  require_recent_mfa "rafraîchir un code TOTP du coffre personnel" (λ u r,
    item ← owned_item u k;
    payload ← decrypt_payload (pv_encrypted_payload (val item)) (pv_key_id (val item));
    secret ← totp_secret_of payload;
    match secret with
    | Some s => _totp_json s r
    | None => raise (PermissionDenied "")
    end).

(** ** Secrets of accounts *)

Definition grant_key (k : id) : string := "target_secret_grant:" +:+ str_uuid k.

(** The code shown with the secret, and the grant to refresh it for 120 seconds. *)
Definition reveal_totp (cred : obj credential) (actions : gset string) (r : http_request)
    : M (option string * http_request) :=
  if bool_decide (c_encrypted_totp_secret (val cred) ≠ "") && bool_decide (REVEAL_TOTP ∈ actions) then
    secret ← decrypt (c_encrypted_totp_secret (val cred)) (c_totp_key_id (val cred));
    code ← totp_code secret None;
    t ← time_time;
    mret (Some code, set_session (grant_key (pk cred)) (JInt (t + 120)) r)
  else mret (None, r).

Definition reveal_target_credential (k : id) (POST : form_data) : handler :=
  require_POST (require_recent_mfa "révéler un secret de cible" (λ u r,
    cred ← get_or_404 credentials k;
    let source_ip := request_client_ip (rq_meta r) in
    target ← get_row targets "Target" (c_target (val cred));
    actions ← actions_for_target (Authenticated u) target source_ip None;
    raise_if (negb (bool_decide (VIEW_SECRET ∈ actions))) (PermissionDenied "") ;;
    match justification_form POST with
    | None => mret (Rendered "vault/reveal_denied.html" 400
                      [("message", JStr "A valid business justification is required before revealing this secret.")], r)
    | Some justification =>
        lease ← issue_secret_lease u cred justification REVEAL 60 source_ip (rq_session r !! MFA_SESSION_KEY);
        consumed ← consume_secret_lease lease.2 (Some (pk u)) None;
        totp ← reveal_totp cred actions r;
        mret (Rendered "vault/reveal.html" 200
                [("item", JStr (str_uuid k));
                 ("payload", JObj ([("username", JStr (c_username (val cred))); ("password", JStr consumed.2)]
                                   ++ match totp.1 with Some code => [("totp_code", JStr code)] | None => [] end));
                 ("is_target_credential", JBool true);
                 ("totp_refresh_url", JStr (match totp.1 with
                    | Some code => if decide (code = "") then ""
                                   else build_absolute_uri ("/passwords/target/" +:+ str_uuid k +:+ "/totp/")
                    | None => "" end))], totp.2)
    end)).

(** The tests of [target_credential_totp], evaluated from left to right. *)
Definition totp_refresh_refused (u : obj user) (cred : obj credential) (grant_expires_at : Z)
    (source_ip : option string) : M bool :=
  t ← time_time;
  if grant_expires_at <? t then mret true
  else if bool_decide (c_encrypted_totp_secret (val cred) = "") then mret true
  else ok ← credential_allows_action (Authenticated u) cred REVEAL_TOTP source_ip None; mret (negb ok).

Definition target_credential_totp (k : id) : handler :=
  require_recent_mfa "rafraîchir un code TOTP de cible" (λ u r,
    cred ← get_or_404 credentials k;
    grant_expires_at ← of_outcome (session_int r (grant_key k) 0);
    refused ← totp_refresh_refused u cred grant_expires_at (request_client_ip (rq_meta r));
    raise_if refused (PermissionDenied "") ;;
    secret ← decrypt (c_encrypted_totp_secret (val cred)) (c_totp_key_id (val cred));
    _totp_json secret r).

(** ** Sessions *)

Definition _web_target_url (t : target) : string :=
  let hostname := strip (t_hostname t) in
  if startswith "http://" hostname || startswith "https://" hostname then hostname
  else
    let scheme := if t_port t =? 443 then "https" else "http" in
    let port := if bool_decide (t_port t ∈ [80; 443]) then "" else ":" +:+ str_int (t_port t) in
    scheme +:+ "://" +:+ hostname +:+ port +:+ "/".

Definition HOST_KEY_REFUSAL : string := "clé d’hôte SSH approuvée".

Definition target_resource (k : id) : resource := Resource "targets.target" (str_uuid k).

(** The session and the ticket, [""] for a web application. *)
Definition open_for_user (u : obj user) (cred : obj credential) (protocol : protocol) (justification : string)
    (source_ip : option string) (mfa_verified_at : option json) : M (id * string) :=
  if decide (protocol = WEB) then
    session ← start_web_session u cred justification source_ip mfa_verified_at; mret (pk session, "")
  else
    x ← issue_session_ticket u cred justification 60 source_ip mfa_verified_at; mret (pk x.1.1, x.2).

Definition launch_page (t : target) (session : id) (raw_ticket : string) : response :=
  match t_protocol t with
  | WEB => Rendered "sessions/web_launch.html" 200
             [("privileged_session", JStr (str_uuid session)); ("target_url", JStr (_web_target_url t))]
  | RDP => Rendered "sessions/rdp_launch.html" 200
             [("privileged_session", JStr (str_uuid session)); ("session_ticket", JStr raw_ticket);
              ("rdp_origin", JStr PAMOLIVE_RDP_PUBLIC_ORIGIN)]
  | _ => Rendered "sessions/terminal.html" 200
           [("privileged_session", JStr (str_uuid session)); ("session_ticket", JStr raw_ticket)]
  end.

Definition start_denied (target : id) (reason : string) (status : Z) : response :=
  Rendered "sessions/start_denied.html" status [("target", JStr (str_uuid target)); ("reason", JStr reason)].

Definition start_session (k : id) (POST : form_data) : handler :=
  require_POST (require_recent_mfa "démarrer une session privilégiée" (λ u r,
    cred ← get_or_404 credentials k;
    let source_ip := request_client_ip (rq_meta r) in
    ok ← credential_allows_action (Authenticated u) cred START_SESSION source_ip None;
    raise_if (negb ok) (PermissionDenied "") ;;
    target ← get_row targets "Target" (c_target (val cred));
    match justification_form POST with
    | None => mret (start_denied (pk target)
                      "A valid business justification is required for every privileged session." 400, r)
    | Some justification =>
        try_except
          (x ← open_for_user u cred (t_protocol (val target)) justification source_ip (rq_session r !! MFA_SESSION_KEY);
           mret (launch_page (val target) x.1 x.2, r))
          (λ e, match e with
                | PermissionDenied error =>
                    if contains HOST_KEY_REFUSAL error then
                      Some (record_event (Some (pk u)) "session.start_denied" (target_resource (pk target))
                              [("reason", JStr error); ("credential_id", JStr (str_uuid k))] None ;;
                            mret (start_denied (pk target) error 200, r))
                    else None
                | _ => None
                end)
    end)).
End views.

(** ** The guard, seen from a view that answered *)

Section guard.
Context {PF : Platform}.

(** Pages and data of a view; the guards only answer with redirects and refusals. *)
Definition discloses (x : response) : bool :=
  match x with JsonBody _ _ | Rendered _ _ _ | FileBody _ _ _ => true | _ => false end.

(** At most the missing security policy was created. *)
Definition settled (w w' : world) : Prop :=
  ∃ sp, w_db w' = w_db w <| security_policy := sp |> ∧
        default default_security_policy sp = default default_security_policy (security_policy (w_db w)).

Lemma settled_reads w w' : reads w w' → settled w w'.
Proof. unfold settled. intros [-> _]. exists (security_policy (w_db w)). split; [by destruct (w_db w)|done]. Qed.

(** The user is enrolled, is no service account and proved MFA in time. *)
Definition mfa_verified (d : db) (u : obj user) (r : http_request) (w w' : world) : Prop :=
  mfa_enrolled d (pk u) = true ∧ u_is_service_account (val u) = false ∧
  ∃ t, instant w w' None t ∧
    fresh_at (rq_session r) (default (default default_security_policy (security_policy d)) (rq_policy r)) (epoch t).

Lemma request_policy_inv r w p w' :
  request_policy r w = (Ok p, w') →
  later w w' ∧ settled w w' ∧ p = default (default default_security_policy (security_policy (w_db w))) (rq_policy r).
Proof.
  unfold request_policy. destruct (rq_policy r) as [q|].
  - intros [= <- <-]. split; [reflexivity|]. split; [by apply settled_reads|done].
  - unfold get_security_policy. intros H. run_inv H.
    destruct (security_policy (w_db w)) as [q|] eqn:E.
    + prim_inv H. split; [reflexivity|]. split; [by apply settled_reads|done].
    + unfold save_security_policy in H. run_inv H. run_inv R. split; [apply later_advance|]. split; [|done].
      exists (Some default_security_policy). by rewrite E.
Qed.

Lemma guard_inv u r label w x w1 :
  rq_user r = Authenticated u → sensitive_mfa_required u r label w = (Ok x, w1) →
  later w w1 ∧ settled w w1 ∧
  match x with
  | Some resp => discloses resp = false
  | None => PAMOLIVE_TEST_BYPASS_GLOBAL_MFA conf = false → mfa_verified (w_db w) u r w w1
  end.
Proof.
  intros Hu. unfold sensitive_mfa_required. destruct (PAMOLIVE_TEST_BYPASS_GLOBAL_MFA conf).
  { intros [= <- <-]. split; [reflexivity|]. split; [by apply settled_reads|done]. }
  run. destruct (mfa_enrolled (w_db w) (pk u)) eqn:Een; cbn [negb].
  2:{ intros [= <- <-]. split; [reflexivity|]. split; [by apply settled_reads|done]. }
  intros H. apply bind_ok_inv in H as (p & w2 & Hp & H). apply request_policy_inv in Hp as (Hl & Hs & ->).
  set (p := default _ _) in *.
  assert (Hm : ∀ b w3, user_has_recent_mfa r (Some p) w2 = (Ok b, w3) → reads w2 w3 ∧
    (b = true → u_is_service_account (val u) = false ∧ fresh_at (rq_session r) p (epoch (w_clock w2)))).
  { intros b w3. unfold user_has_recent_mfa. rewrite Hu. destruct (u_is_service_account (val u)).
    { intros [= <- <-]. split; [reflexivity|done]. }
    run. destruct (negb _); [intros [= <- <-]; split; [reflexivity|done]|]. run.
    destruct (mfa_timestamp_run (rq_session r !! MFA_SESSION_KEY) p w2) as (b' & w3' & E & Hr & Hb).
    rewrite E. intros [= <- <-]. split; [done|]. intros Hb'. split; [done|]. by apply Hb in Hb' as (j & v & ?); exists j, v. }
  apply bind_ok_inv in H as (b & w3 & E & H). apply Hm in E as [[Hd Hl3] Hb]. clear Hm.
  assert (Hs3 : settled w w3) by (destruct Hs as (sp & Es & ?); exists sp; split; [congruence|done]).
  assert (Hl4 : later w w3) by (by etrans).
  destruct b; [|by destruct (rq_hx r || startswith "/api/" (rq_path r)); injection H as <- <-].
  injection H as <- <-. split; [done|]. split; [done|]. intros _. destruct (Hb eq_refl) as [Hsv Hfr].
  split; [done|]. split; [done|]. exists (w_clock w2). split; [|done].
  eapply (instant_weaken w w2 w3 w3); [done|reflexivity|done|]. by apply instant_here.
Qed.

Lemma guarded_inv label view r w x w' :
  require_recent_mfa label view r w = (Ok x, w') → discloses x.1 = true →
  ∃ u w1, rq_user r = Authenticated u ∧ later w w1 ∧ settled w w1 ∧
    (PAMOLIVE_TEST_BYPASS_GLOBAL_MFA conf = false → mfa_verified (w_db w) u r w w1) ∧
    view u r w1 = (Ok x, w').
Proof.
  unfold require_recent_mfa. destruct (rq_user r) as [|u] eqn:Hu; [by intros [= <- <-]|].
  intros H Hx. apply bind_ok_inv in H as (y & w1 & E & H). apply guard_inv in E as (Hl & Hs & Hy); [|done].
  destruct y as [resp|]; [injection H as <- <-; simpl in Hx; congruence|]. by exists u, w1.
Qed.

Lemma require_POST_inv h r w x w' :
  require_POST h r w = (Ok x, w') → discloses x.1 = true → rq_method r = "POST" ∧ h r w = (Ok x, w').
Proof. unfold require_POST. case_decide; [done|]. by intros [= <- <-]. Qed.

Lemma get_or_404_inv {A} (tbl : db → gmap id A) k w o w' :
  get_or_404 tbl k w = (Ok o, w') → w' = w ∧ pk o = k ∧ tbl (w_db w) !! k = Some (val o).
Proof. unfold get_or_404. run. destruct (tbl (w_db w) !! k); [|done]. by intros [= <- <-]. Qed.
End guard.

(** ** Secrets are revealed under authority *)

Section revealed.
Context {PF : Platform} {PE : PortalEnv}.

(** A new event of the trail names the actor, the action and the resource. *)
Definition logged (d d' : db) (actor : id) (action : string) (res : resource) : Prop :=
  ∃ k e, audit_events d !! k = None ∧ audit_events d' !! k = Some e ∧ e_actor e = Some actor ∧
    e_action e = action ∧ e_resource_type e = label_lower res ∧ e_resource_id e = resource_pk res.

Lemma logged_weaken d0 d d' d1 actor action res :
  audit_events d0 ⊆ audit_events d → audit_events d' ⊆ audit_events d1 →
  logged d d' actor action res → logged d0 d1 actor action res.
Proof.
  intros H0 H1 (k & e & Hn & Hs & ?). exists k, e. split; [|split; [by eapply lookup_weaken|done]].
  destruct (audit_events d0 !! k) eqn:E; [|done]. by rewrite (lookup_weaken _ _ _ _ E H0) in Hn.
Qed.

Lemma record_event_logged actor action res md ip w o w' :
  record_event (Some actor) action res md ip w = (Ok o, w') →
  logged (w_db w) (w_db w') actor action res ∧ audit_events (w_db w) ⊆ audit_events (w_db w').
Proof.
  intros (st & sig & _ & Ho & _ & _ & Hn & _ & _ & He & _)%record_event_ok_inv. rewrite He. split.
  - exists (pk o), (val o). rewrite He, lookup_insert_eq, Ho. done.
  - by apply insert_subseteq.
Qed.

Lemma issue_logged u cred just purpose life ip mfa w lease token w' :
  issue_secret_lease u cred just purpose life ip mfa w = (Ok (lease, token), w') →
  logged (w_db w) (w_db w') (pk u) "credential.secret_lease.issued" (lease_resource (pk lease)) ∧
  audit_events (w_db w) ⊆ audit_events (w_db w').
Proof.
  unfold issue_secret_lease. intros H. run_inv H. destruct a2 as [p ar].
  pose proof (authorizing_policy_ok _ _ _ _ _ _ _ _ _ R2) as (_ & (sp & Hd) & _).
  unfold insert_lease in R3. run_inv R3. apply record_event_logged in R4 as [Hlog Hsub].
  assert (He : audit_events (w_db w) = audit_events (w_db w0)) by by rewrite Hd.
  split; [eapply logged_weaken; [|reflexivity|exact Hlog]|etrans; [|exact Hsub]]; rewrite He; reflexivity.
Qed.

Lemma consume_logged token u ep w lease secret w' :
  consume_secret_lease token (Some u) ep w = (Ok (lease, secret), w') →
  logged (w_db w) (w_db w') u "credential.secret_lease.consumed" (lease_resource (pk lease)) ∧
  audit_events (w_db w) ⊆ audit_events (w_db w').
Proof.
  unfold consume_secret_lease. intros H. run_inv H. destruct (lease_by_hash _ _) as [o|] eqn:Eo; [|done]. run_inv H.
  pose proof (decrypt_run (c_encrypted_secret (val a)) (c_secret_key_id (val a)) w0) as Hw.
  rewrite R4 in Hw. simpl in Hw. subst w1. apply bool_decide_eq_false, dec_stable in R1. rewrite R1 in R3.
  by apply record_event_logged in R3.
Qed.

Lemma decrypt_flows token key_id : flows (decrypt token key_id).
Proof. apply quiet_flows, decrypt_quiet. Qed.
#[local] Hint Resolve record_event_flows decrypt_flows : pam.

Lemma consume_flows token eu ep : flows (consume_secret_lease token eu ep).
Proof. unfold consume_secret_lease. solve_flows. Qed.

(** The policy grants the action and covers the account, and its conditions on
    approval and MFA are met. *)
Definition authorised_by (action : string) (p : obj access_policy) (u : obj user) (cred : obj credential)
    (ip : option string) (mfa : option json) (w w' : world) : Prop :=
  (∃ t, instant w w' None t ∧ grants (w_db w) (pk u) p action t ip) ∧ covers (w_db w) (val p) cred ∧
  ∃ ar, conditions_met (w_db w) (pk u) cred mfa (default default_security_policy (security_policy (w_db w))) p ar w w'.

Lemma authorised_weaken action p u cred ip mfa w w1 w2 w3 :
  later w w1 → settled w w1 → later w1 w2 → later w2 w3 →
  authorised_by action p u cred ip mfa w1 w2 → authorised_by action p u cred ip mfa w w3.
Proof.
  intros Hl (sp & Hd & Hsp) Hl2 Hl3 ((t & Ht & Hg) & Hcov & ar & Hcond).
  rewrite Hd in Hg, Hcov, Hcond. simpl in Hcond. rewrite Hsp in Hcond.
  split; [exists t; split; [|exact Hg]; by eapply instant_weaken; [exact Hl|exact Hl3|exact Hl2|]|].
  split; [exact Hcov|]. exists ar. eapply conditions_met_weaken; [exact Hl|exact Hl2|exact Hl3|exact Hcond].
Qed.

Lemma authorizing_authorised u cred action ip mfa w p ar w1 w2 :
  authorizing_policy_for u cred action ip mfa w = (Ok (p, ar), w1) → later w1 w2 →
  later w w1 ∧ authorised_by action p u cred ip mfa w w2.
Proof.
  intros (Hl & _ & (t & Ht & Hg) & Hcov & Hcond)%authorizing_policy_ok Hl2. split; [done|].
  split; [exists t; split; [|done]; by eapply instant_weaken; [reflexivity|exact Hl2|exact Hl|]|].
  split; [done|]. exists ar. by eapply conditions_met_weaken; [reflexivity|exact Hl|exact Hl2|].
Qed.

(** The account whose secret is shown, and the authority under which it is. *)
Definition disclosed_under (u : obj user) (cred : obj credential) (ip : option string) (mfa : option json)
    (secret : string) (w w' : world) : Prop :=
  (decrypt (c_encrypted_secret (val cred)) (c_secret_key_id (val cred)) w).1 = Ok secret ∧
  (∃ p, authorised_by VIEW_SECRET p u cred ip mfa w w') ∧
  ∃ lease, leases (w_db w) !! pk lease = None ∧ leases (w_db w') = <[pk lease := val lease]> (leases (w_db w)) ∧
    l_user (val lease) = pk u ∧ l_credential (val lease) = pk cred ∧
    l_max_uses (val lease) = 1 ∧ l_use_count (val lease) = 1 ∧
    logged (w_db w) (w_db w') (pk u) "credential.secret_lease.issued" (lease_resource (pk lease)) ∧
    logged (w_db w) (w_db w') (pk u) "credential.secret_lease.consumed" (lease_resource (pk lease)).

(** Issuing a lease and consuming it at once. *)
Lemma disclosure_inv u cred j ip mfa w lease token w1 lease2 secret w2 :
  credentials (w_db w) !! pk cred = Some (val cred) →
  issue_secret_lease u cred j REVEAL 60 ip mfa w = (Ok (lease, token), w1) →
  consume_secret_lease token (Some (pk u)) None w1 = (Ok (lease2, secret), w2) →
  later w w2 ∧ disclosed_under u cred ip mfa secret w w2.
Proof.
  intros Hcred Hi Hc. pose proof (issue_logged _ _ _ _ _ _ _ _ _ _ _ Hi) as [Hlog1 Hsub1].
  pose proof (consume_logged _ _ _ _ _ _ _ Hc) as [Hlog2 Hsub2].
  pose proof (flows_run _ _ _ _ (consume_flows _ _ _) Hc) as Hl2.
  apply issue_ok_inv in Hi as (j' & p & ar & wa & t & st & sp & _ & _ & _ & _ & Hauth & Hl & _ & Hlease & Hnew & Huniq & (?&?&?&Hd)).
  destruct (authorizing_authorised _ _ _ _ _ _ _ _ _ w2 Hauth) as [Hl1 Hby]; [by etrans|].
  apply consume_ok_inv in Hc as (l & c & stamp & c' & Hlk & Hh & Hus & Huser & _ & Hval & Hcr & Hdec & (?&?&?&Hd2)).
  rewrite Hd in Hlk, Hcr. simpl in Hlk, Hcr.
  assert (Hpk : pk lease2 = pk lease).
  { destruct (decide (pk lease2 = pk lease)) as [|Hne]; [done|]. rewrite lookup_insert_ne in Hlk by done.
    by destruct (Huniq (Obj (pk lease2) l) Hlk). }
  rewrite Hpk, lookup_insert_eq in Hlk. injection Hlk as <-.
  rewrite Hlease in Hcr, Hval. simpl in Hcr. rewrite Hcred in Hcr. injection Hcr as <-.
  assert (Hl4 : later wa w2) by by etrans.
  split; [by etrans|]. split; [by rewrite (decrypt_indep _ _ w w1)|]. split; [by exists p|].
  exists lease2. rewrite Hpk. split; [done|]. split.
  { rewrite Hd2, Hd. simpl. by rewrite Hpk, insert_insert_eq. }
  rewrite Hval. split_and!; try done.
  - eapply logged_weaken; [reflexivity|exact Hsub2|exact Hlog1].
  - rewrite <- Hpk. eapply logged_weaken; [exact Hsub1|reflexivity|exact Hlog2].
Qed.

(** The same, from before the guard until after the answer. *)
Lemma disclosed_weaken u cred ip mfa secret w w1 w2 w3 :
  later w w1 → settled w w1 → later w1 w2 → reads w2 w3 →
  disclosed_under u cred ip mfa secret w1 w2 → disclosed_under u cred ip mfa secret w w3.
Proof.
  intros Hl Hs Hl2 [Hd3 Hl3] (Hdec & (p & Hby) & lease & Hn & Hls & Hrest).
  split; [by rewrite (decrypt_indep _ _ w w1)|]. split; [exists p; by eapply authorised_weaken|].
  destruct Hs as (sp & Hd & _). rewrite Hd in Hn, Hls, Hrest. exists lease. split; [exact Hn|]. rewrite Hd3. split; [exact Hls|].
  exact Hrest.
Qed.

Lemma actions_for_target_quiet u t ip at_ : quiet (actions_for_target u t ip at_).
Proof.
  unfold actions_for_target, policy_is_current, at_or_now. solve_quiet.
Qed.

Lemma totp_code_quiet secret ts : quiet (totp_code secret ts).
Proof. unfold totp_code, time_time. solve_quiet. Qed.
#[local] Hint Resolve decrypt_quiet totp_code_quiet actions_for_target_quiet : pam.

Lemma reveal_totp_quiet cred actions r : quiet (reveal_totp cred actions r).
Proof. unfold reveal_totp, time_time. solve_quiet. Qed.

(** C2: A secret is shown only under authority, and the trail says so.  When the
    reveal view answers with the page that holds the secret, the request was a POST
    of a signed-in user with a fresh MFA verification (unless the test bypass is
    on), the form carried a valid justification, the account exists and the
    password shown is the decryption of its stored secret; a policy that covers the
    account granted [view_secret] from that address, with its approval and MFA
    conditions; exactly one lease was created, for one use, and it is used up; and
    the audit trail has new events of that user for its issue and consumption. *)
Theorem revealed_secret_is_authorised k POST r w ctx r' w' :
  reveal_target_credential k POST r w = (Ok (Rendered "vault/reveal.html" 200 ctx, r'), w') →
  ∃ u cred secret payload,
    rq_method r = "POST" ∧ rq_user r = Authenticated u ∧
    (PAMOLIVE_TEST_BYPASS_GLOBAL_MFA conf = false → ∃ w1, later w1 w' ∧ mfa_verified (w_db w) u r w w1) ∧
    is_Some (justification_form POST) ∧ credentials (w_db w) !! k = Some cred ∧
    dict_get "payload" ctx = Some (JObj payload) ∧ dict_get "password" payload = Some (JStr secret) ∧
    disclosed_under u (Obj k cred) (request_client_ip (rq_meta r)) (rq_session r !! MFA_SESSION_KEY) secret w w'.
Proof.
  unfold reveal_target_credential. intros (HP & H)%require_POST_inv; [|done].
  apply guarded_inv in H as (u & w1 & Hu & Hl & Hs & Hm & H); [|done].
  apply bind_ok_inv in H as (cred & ? & Hc & H). apply get_or_404_inv in Hc as (-> & Hpk & Hc). cbv zeta in H.
  apply bind_ok_inv in H as (target & ? & Ht & H). prim_inv Ht.
  apply bind_ok_inv in H as (actions & w2 & Ha & H).
  pose proof (quiet_run _ _ _ _ (actions_for_target_quiet _ _ _ _) Ha) as [Hd2 Hl2].
  apply bind_ok_inv in H as ([] & ? & Hv & H). prim_inv Hv.
  destruct (justification_form POST) as [j|]; [|by injection H].
  apply bind_ok_inv in H as ([lease token] & w3 & Hi & H). apply bind_ok_inv in H as ([lease2 secret] & w4 & Hcons & H).
  apply bind_ok_inv in H as ([totp r1] & w5 & Htotp & H).
  pose proof (quiet_run _ _ _ _ (reveal_totp_quiet _ _ _) Htotp) as Hr5. injection H as <- <- <-.
  assert (Hc2 : credentials (w_db w2) !! pk cred = Some (val cred)) by by rewrite Hd2, Hpk.
  destruct (disclosure_inv _ _ _ _ _ _ _ _ _ _ _ _ Hc2 Hi Hcons) as [Hl4 Hdis].
  assert (Hs2 : settled w w2) by (destruct Hs as (sp & Es & ?); exists sp; split; [congruence|done]).
  exists u, (val cred), secret. eexists.
  split; [done|]. split; [done|]. split.
  { intros Hb. exists w1. split; [|by apply Hm]. etrans; [exact Hl2|]. etrans; [exact Hl4|apply Hr5]. }
  split; [by eexists|]. split; [destruct Hs as (sp & Es & _); by rewrite Es in Hc|].
  split; [reflexivity|]. split; [reflexivity|].
  replace (Obj k (val cred)) with cred by (by destruct cred; simpl in *; subst).
  eapply disclosed_weaken; [|exact Hs2|exact Hl4|exact Hr5|exact Hdis]. by etrans.
Qed.
End revealed.

(** ** One-time codes of accounts *)

Section refresh.
Context {PF : Platform} {PE : PortalEnv}.

(** What a reveal does to the grant of the session. *)
Lemma reveal_totp_grant cred actions r w code r1 w1 :
  reveal_totp cred actions r w = (Ok (code, r1), w1) →
  r1 = r ∨ ∃ t, instant w w1 None t ∧ rq_session r1 !! grant_key (pk cred) = Some (JInt (epoch t + 120)).
Proof.
  unfold reveal_totp. destruct (_ && _); [|intros [= <- <- <-]; by left].
  intros H. apply bind_ok_inv in H as (s & w2 & Hs & H). apply bind_ok_inv in H as (c & w3 & Hc & H).
  pose proof (quiet_run _ _ _ _ (decrypt_quiet _ _) Hs) as [_ Hl2].
  pose proof (quiet_run _ _ _ _ (totp_code_quiet _ _) Hc) as [_ Hl3]. run_inv H.
  right. exists (w_clock w3). split; [|simpl; by rewrite lookup_insert_eq].
  eapply (instant_weaken w w3 (advance w3) (advance w3)); [by etrans|reflexivity|apply later_advance|].
  apply instant_here, later_advance.
Qed.

(** The whole view, whatever it answers. *)
Lemma reveal_grant k POST r w resp r1 w1 :
  reveal_target_credential k POST r w = (Ok (resp, r1), w1) →
  r1 = r ∨ ∃ t, instant w w1 None t ∧ rq_session r1 !! grant_key k = Some (JInt (epoch t + 120)).
Proof.
  unfold reveal_target_credential, require_POST. case_decide; [|intros [= <- <- <-]; by left].
  unfold require_recent_mfa. destruct (rq_user r) as [|u] eqn:Hu; [intros [= <- <- <-]; by left|].
  intros H1. apply bind_ok_inv in H1 as (y & w2 & E & H1). apply guard_inv in E as (Hl & _ & _); [|done].
  destruct y; [injection H1 as <- <- <-; by left|].
  apply bind_ok_inv in H1 as (cred & ? & Hc & H1). apply get_or_404_inv in Hc as (-> & Hpk & Hc). cbv zeta in H1.
  apply bind_ok_inv in H1 as (target & ? & Ht & H1). prim_inv Ht.
  apply bind_ok_inv in H1 as (actions & w3 & Ha & H1).
  pose proof (quiet_run _ _ _ _ (actions_for_target_quiet _ _ _ _) Ha) as [Hd2 Hl2].
  apply bind_ok_inv in H1 as ([] & ? & Hv & H1). prim_inv Hv.
  destruct (justification_form POST) as [j|]; [|injection H1 as <- <- <-; by left].
  apply bind_ok_inv in H1 as ([lease token] & w4 & Hi & H1). apply bind_ok_inv in H1 as ([lease2 secret] & w5 & Hcons & H1).
  apply bind_ok_inv in H1 as ([totp r2] & w6 & Htotp & H1). injection H1 as <- <- <-.
  pose proof (quiet_run _ _ _ _ (reveal_totp_quiet _ _ _) Htotp) as [_ Hl6].
  assert (Hc2 : credentials (w_db w3) !! pk cred = Some (val cred)) by by rewrite Hd2, Hpk.
  destruct (disclosure_inv _ _ _ _ _ _ _ _ _ _ _ _ Hc2 Hi Hcons) as [Hl4 _].
  apply reveal_totp_grant in Htotp as [->|(t & Hi' & Hg)]; [by left|]. right. exists t. rewrite Hpk in Hg. split; [|done].
  eapply (instant_weaken w w5 w6 w6); [by do 2 (etrans; [eassumption|])|reflexivity|exact Hl6|done].
Qed.

(** What a refreshed code needs. *)
Lemma refresh_inv k r w s b r' w' :
  target_credential_totp k r w = (Ok (JsonBody s b, r'), w') →
  ∃ u cred g t, rq_user r = Authenticated u ∧ credentials (w_db w) !! k = Some cred ∧
    session_int r (grant_key k) 0 = Ok g ∧ instant w w' None t ∧ epoch t <= g ∧
    ∃ p t', instant w w' None t' ∧ grants (w_db w) (pk u) p REVEAL_TOTP t' (request_client_ip (rq_meta r)) ∧
      covers (w_db w) (val p) (Obj k cred).
Proof.
  unfold target_credential_totp. intros H. apply guarded_inv in H as (u & w1 & Hu & Hl & (sp & Hd & _) & _ & H); [|done].
  apply bind_ok_inv in H as (cred & ? & Hc & H). apply get_or_404_inv in Hc as (-> & Hpk & Hc).
  apply bind_ok_inv in H as (g & ? & Hg & H). prim_inv Hg.
  apply bind_ok_inv in H as (refused & w2 & Hr & H). apply bind_ok_inv in H as ([] & ? & Hv & H). prim_inv Hv. subst refused.
  unfold totp_refresh_refused, time_time in Hr. autorewrite with run in Hr. cbv beta in Hr.
  destruct (g <? epoch (w_clock w1)) eqn:Eg; [done|]. destruct (bool_decide (_ = "")); [done|].
  apply bind_ok_inv in Hr as (ok & w3 & Hok & Hr). injection Hr as Hn <-. destruct ok; [|done].
  apply credential_allows_action_sound in Hok as [[Hd3 Hl3] (uo & p & t' & [= <-] & Ht' & Hg' & Hcov)].
  apply bind_ok_inv in H as (secret & w4 & Hs & H).
  pose proof (quiet_run _ _ _ _ (decrypt_quiet _ _) Hs) as [_ Hl4].
  assert (Hl5 : later w4 w').
  { eapply flows_run; [|exact H]. unfold _totp_json, time_time. solve_flows. }
  assert (Hla : later w1 w3) by (etrans; [apply later_advance|exact Hl3]).
  assert (Hlb : later w3 w') by by etrans.
  change (w_db (advance w1)) with (w_db w1) in Hg', Hcov. rewrite Hd in Hc, Hg', Hcov.
  replace cred with (Obj k (val cred)) in Hcov by (by destruct cred; simpl in *; subst).
  exists u, (val cred), g, (w_clock w1). split; [done|]. split; [exact Hc|]. split; [done|].
  split; [by eapply (instant_weaken w w1 w3 w'); [exact Hl|exact Hlb|exact Hla|apply instant_here]|].
  split; [by apply Z.ltb_ge in Eg|]. exists p, t'. split; [|by split].
  eapply (instant_weaken w (advance w1) w3 w'); [etrans; [exact Hl|apply later_advance]|exact Hlb|exact Hl3|done].
Qed.

Lemma epoch_mono a b : a <= b → epoch a <= epoch b.
Proof. intros H. unfold epoch. apply Z.div_le_mono; [done|lia]. Qed.

(** C27: The code of an account can be refreshed for two minutes.  A browser session
    without a grant that reveals an account's secret gets codes for that account
    only until 120 seconds after the answer, and only while a policy that covers
    the account grants [reveal_totp] to the user from the address of the refresh. *)
Theorem totp_refresh_window k POST r w resp r1 w1 r2 w2 s b r3 w3 :
  reveal_target_credential k POST r w = (Ok (resp, r1), w1) → rq_session r !! grant_key k = None →
  rq_session r2 !! grant_key k = rq_session r1 !! grant_key k →
  target_credential_totp k r2 w2 = (Ok (JsonBody s b, r3), w3) →
  time_flows w → time_flows w2 → 0 < epoch (w_clock w2) →
  epoch (w_clock w2) <= epoch (w_clock w1) + 120 ∧
  ∃ u cred p t, rq_user r2 = Authenticated u ∧ credentials (w_db w2) !! k = Some cred ∧
    instant w2 w3 None t ∧ grants (w_db w2) (pk u) p REVEAL_TOTP t (request_client_ip (rq_meta r2)) ∧
    covers (w_db w2) (val p) (Obj k cred).
Proof.
  intros H1 Hnone Hsame H2 Hf Hf2 Hpos.
  apply refresh_inv in H2 as (u & cred & g & t & Hu & Hc & Hg & Ht & Hle & p & t' & ? & ? & ?).
  split; [|by exists u, cred, p, t']. specialize (Ht Hf2).
  assert (epoch (w_clock w2) <= epoch t) by (apply epoch_mono; lia).
  unfold session_int in Hg. rewrite Hsame in Hg. apply reveal_grant in H1 as [->|(t0 & Ht0 & E)].
  - rewrite Hnone in Hg. injection Hg as <-. lia.
  - rewrite E in Hg. injection Hg as <-. specialize (Ht0 Hf).
    assert (epoch t0 <= epoch (w_clock w1)) by (apply epoch_mono; lia). lia.
Qed.
End refresh.

(** ** The personal vault belongs to its owner *)

Section personal.
Context {PF : Platform} {PE : PortalEnv}.

Lemma owned_item_inv u k w o w' :
  owned_item u k w = (Ok o, w') →
  w' = w ∧ pk o = k ∧ vault_items (w_db w) !! k = Some (val o) ∧ pv_owner (val o) = pk u.
Proof.
  unfold owned_item. intros H. apply bind_ok_inv in H as (i & ? & Hi & H). apply get_or_404_inv in Hi as (-> & ? & ?).
  run_inv H. by apply bool_decide_eq_false, dec_stable in R.
Qed.

Lemma owned_item_stranger u k i w :
  vault_items (w_db w) !! k = Some i → pv_owner i ≠ pk u → owned_item u k w = (Raise Http404, w).
Proof.
  intros Hi Hne. unfold owned_item, get_or_404. run. rewrite Hi. run. by rewrite run_raise_if_true by (by apply bool_decide_eq_true).
Qed.

(** The fresh-MFA guard touches neither the personal vault nor the trail. *)
Definition same_vault (d d' : db) : Prop :=
  vault_items d' = vault_items d ∧ vault_groups d' = vault_groups d ∧ audit_events d' = audit_events d.

#[global] Instance same_vault_refl : Reflexive same_vault.
Proof. done. Qed.

Lemma get_security_policy_vault d : preserves (same_vault d) get_security_policy.
Proof.
  unfold get_security_policy, save_security_policy. solve_preserves; apply preserves_modify; by intros ? (?&?&?).
Qed.

#[local] Hint Resolve get_security_policy_vault : pam.

Lemma guard_vault d u r label : preserves (same_vault d) (sensitive_mfa_required u r label).
Proof.
  unfold sensitive_mfa_required, request_policy, user_has_recent_mfa. solve_preserves; apply quiet_preserves, mfa_timestamp_quiet.
Qed.

(** A guarded view of an item the user does not own. *)
Lemma guarded_stranger label u r w (body : obj user → handler) :
  rq_user r = Authenticated u →
  (∀ w1, same_vault (w_db w) (w_db w1) → body u r w1 = (Raise Http404, w1)) →
  same_vault (w_db w) (w_db (require_recent_mfa label body r w).2) ∧
  ∀ x, (require_recent_mfa label body r w).1 = Ok x → discloses x.1 = false.
Proof.
  intros Hu Hbody. unfold require_recent_mfa. rewrite Hu. pose proof (guard_vault (w_db w) u r label w ltac:(reflexivity)) as Hv.
  unfold mbind, M_bind. destruct (sensitive_mfa_required u r label w) as [[x|e] w1] eqn:E; simpl in Hv; [|done].
  apply guard_inv in E as (_ & _ & Hx); [|done]. destruct x as [resp|]; [split; [done|]; by intros ? [= <-]|].
  by rewrite Hbody.
Qed.

(** C25: A personal vault is private.  Whoever asks to edit, reveal or refresh the
    code of an item somebody else owns gets no page and no code: the answer is not
    found, or the redirect or refusal of the MFA guard; the vault and the audit
    trail stay as they were.  This holds for every user, superusers included. *)
Theorem personal_vault_is_private u k i r w (h : handler) :
  rq_user r = Authenticated u → vault_items (w_db w) !! k = Some i → pv_owner i ≠ pk u →
  h = reveal_personal_item k ∨ h = personal_item_totp k ∨ (∃ POST, h = edit_personal_item k POST) →
  same_vault (w_db w) (w_db (h r w).2) ∧ ∀ x, (h r w).1 = Ok x → discloses x.1 = false.
Proof.
  intros Hu Hi Hne.
  assert (Hown : ∀ w1, same_vault (w_db w) (w_db w1) → owned_item u k w1 = (Raise Http404, w1)).
  { intros w1 (E & _). apply (owned_item_stranger u k i); [by rewrite E|done]. }
  intros [->|[->|[POST ->]]].
  - unfold reveal_personal_item, require_POST. case_decide; [|split; [done|]; by intros ? [= <-]].
    apply (guarded_stranger _ u); [done|]. intros w1 Hw. by rewrite (bind_raise _ _ _ _ _ (Hown w1 Hw)).
  - apply (guarded_stranger _ u); [done|]. intros w1 Hw. by rewrite (bind_raise _ _ _ _ _ (Hown w1 Hw)).
  - unfold edit_personal_item, login_required. rewrite Hu, (bind_raise _ _ _ _ _ (Hown w ltac:(reflexivity))). done.
Qed.
End personal.

(** ** What is stored is what is revealed *)

Section stored.
Context {PF : Platform} {PE : PortalEnv} {EK : EncryptingKeyring}.

Lemma clean_payload_keys POST l l' : mapM (clean_payload_field POST) l = Some l' → l'.*1 = l.
Proof.
  revert l'. induction l as [|key l IH]; intros l' H; simpl in H; [by injection H as <-|].
  apply bind_Some in H as ([k1 v] & Hk & H). apply bind_Some in H as (l1 & Hl & H). injection H as <-.
  rewrite fmap_cons, (IH _ Hl). f_equal. unfold clean_payload_field in Hk. apply bind_Some in Hk as (v1 & _ & Hk).
  repeat case_decide; [by injection Hk| |by injection Hk]. apply bind_Some in Hk as (? & _ & Hk). by injection Hk.
Qed.

Lemma item_form_keys d owner POST f : personal_item_form d owner POST = Some f → (if_payload f).*1 = payload_fields.
Proof.
  unfold personal_item_form. intros H. apply bind_Some in H as (name & _ & H). apply bind_Some in H as (pl & Hpl & H).
  apply bind_Some in H as (g & _ & H). destruct (_ || _); [done|]. injection H as <-. by eapply clean_payload_keys.
Qed.

Lemma payload_keys f : (encrypted_payload_data f).*1 = (filter (λ kv : string * string, kv.2 ≠ "") (if_payload f)).*1.
Proof. unfold encrypted_payload_data. by rewrite <- list_fmap_compose. Qed.

Lemma payload_distinct d owner POST f : personal_item_form d owner POST = Some f → NoDup (encrypted_payload_data f).*1.
Proof.
  intros H%item_form_keys. rewrite payload_keys. apply (sublist_NoDup _ (if_payload f).*1).
  - rewrite H. by apply (bool_decide_eq_true_1 (NoDup payload_fields)).
  - apply fmap_sublist, sublist_filter.
Qed.

Lemma payload_well_keyed d owner POST f : personal_item_form d owner POST = Some f → well_keyed (JObj (encrypted_payload_data f)).
Proof.
  intros H. constructor; [by eapply payload_distinct|]. unfold encrypted_payload_data. rewrite Forall_fmap.
  apply Forall_forall. intros kv _. constructor.
Qed.

Lemma payload_round_trip l c w w1 w2 :
  well_keyed (JObj l) → encrypt_payload l w = (Ok c, w1) → decrypt_payload c active_key_id w2 = (Ok l, w2).
Proof.
  intros Hw [_ H]%encrypt_ok_inv. unfold decrypt_payload, decrypt. cbn [andb bool_decide]. simpl.
  rewrite (decrypt_encrypt _ _ _ H). unfold of_outcome. unfold mbind, M_bind. by rewrite (loads_ser _ Hw).
Qed.

Lemma create_item_inv u f w k w1 :
  create_item u f w = (Ok k, w1) →
  ∃ c w2 st, encrypt_payload (encrypted_payload_data f) w = (Ok c, w2) ∧ vault_items (w_db w) !! k = None ∧
    vault_items (w_db w1) !! k = Some (PersonalVaultItem (pk u) (if_group f) (if_name f) (if_item_type f) c
                                         active_key_id (if_favorite f) st).
Proof.
  unfold create_item. intros H. apply bind_ok_inv in H as (c & w2 & Hc & H). pose proof (encrypt_ok_inv _ _ _ _ Hc) as [-> _].
  run_inv H. apply record_event_frame in R0 as (?&?&?&Hd). eexists c, _, _. split; [done|]. split; [exact Enew|].
  rewrite Hd. simpl. by rewrite lookup_insert_eq.
Qed.

(** The page of an item shows the payload, with a code added. *)
Lemma reveal_item_inv k i l r w ctx r' w' :
  vault_items (w_db w) !! k = Some i →
  (∀ w2, decrypt_payload (pv_encrypted_payload i) (pv_key_id i) w2 = (Ok l, w2)) →
  reveal_personal_item k r w = (Ok (Rendered "vault/reveal.html" 200 ctx, r'), w') →
  ∃ shown, dict_get "payload" ctx = Some (JObj shown) ∧ ∀ key, key ≠ "totp_code" → dict_get key shown = dict_get key l.
Proof.
  intros Hi Hdec. unfold reveal_personal_item. intros (_ & H)%require_POST_inv; [|done].
  apply guarded_inv in H as (u & w1 & _ & _ & (sp & Hd & _) & _ & H); [|done].
  apply bind_ok_inv in H as (o & ? & Ho & H). apply owned_item_inv in Ho as (-> & _ & Ho & _).
  rewrite Hd in Ho. simpl in Ho. rewrite Hi in Ho. injection Ho as Ho.
  rewrite <- Ho, (bind_ok _ _ _ _ _ (Hdec w1)) in H.
  apply bind_ok_inv in H as (secret & w2 & _ & H). apply bind_ok_inv in H as (shown & w3 & Hs & H).
  apply bind_ok_inv in H as (? & w4 & _ & H). injection H as <- <- <-. exists shown. split; [reflexivity|].
  intros key Hne. destruct secret as [s|]; [|by injection Hs as <-].
  apply bind_ok_inv in Hs as (code & ? & _ & Hs). injection Hs as <-. by apply dict_get_set_ne.
Qed.

(** What a user stores in the personal vault is what the vault reveals.  When the
    portal accepts a new item, one row owned by the user is added, its payload
    decrypts to the non-empty fields of the form whatever happens in between, and
    as long as the row is unchanged the page of the item shows each of these
    fields with the text that was entered. *)
Theorem personal_item_round_trip POST r w r' w1 :
  passwords_page POST r w = (Ok (RedirectTo "passwords" [], r'), w1) → default "item" (POST !! "action") = "item" →
  ∃ u f k i, rq_user r = Authenticated u ∧ personal_item_form (w_db w) (pk u) POST = Some f ∧
    vault_items (w_db w) !! k = None ∧ vault_items (w_db w1) !! k = Some i ∧ pv_owner i = pk u ∧
    (∀ w2, decrypt_payload (pv_encrypted_payload i) (pv_key_id i) w2 = (Ok (encrypted_payload_data f), w2)) ∧
    ∀ r2 w2 ctx r3 w3, vault_items (w_db w2) !! k = Some i →
      reveal_personal_item k r2 w2 = (Ok (Rendered "vault/reveal.html" 200 ctx, r3), w3) →
      ∃ shown, dict_get "payload" ctx = Some (JObj shown) ∧
        ∀ key v, (key, v) ∈ if_payload f → v ≠ "" → dict_get key shown = Some (JStr v).
Proof.
  intros H Hact. unfold passwords_page, login_required in H. destruct (rq_user r) as [|u]; [done|].
  rewrite run_asks in H. cbv beta in H. rewrite Hact in H.
  destruct (bool_decide (rq_method r = "POST")) eqn:HP; cbn [andb] in H; [rewrite bool_decide_true in H by done|].
  2:{ unfold passwords_listing in H. cbv zeta in H. by run_inv H. }
  destruct (personal_item_form (w_db w) (pk u) POST) as [f|] eqn:Ef.
  2:{ unfold passwords_listing in H. cbv zeta in H. by run_inv H. }
  apply bind_ok_inv in H as (k & w2 & Hk & H). injection H as <- <-.
  apply create_item_inv in Hk as (c & w3 & st & Hc & Hn & Hs).
  assert (Hdec : ∀ w2, decrypt_payload c active_key_id w2 = (Ok (encrypted_payload_data f), w2)).
  { intros w4. eapply payload_round_trip; [by eapply payload_well_keyed|exact Hc]. }
  eexists u, f, k, _. split; [done|]. split; [done|]. split; [done|]. split; [exact Hs|]. split; [done|]. split; [exact Hdec|].
  intros r2 w4 ctx r3 w5 Hi Hr. destruct (reveal_item_inv _ _ _ _ _ _ _ _ Hi Hdec Hr) as (shown & Hp & Hkeys).
  exists shown. split; [done|]. intros key v Hin Hv. rewrite Hkeys.
  - apply dict_get_elem; [by eapply payload_distinct|]. unfold encrypted_payload_data.
    apply list_elem_of_fmap. exists (key, v). split; [done|]. by apply list_elem_of_filter.
  - intros ->. assert ("totp_code" ∈ payload_fields) as Hbad; [|by pose proof (bool_decide_eq_true_2 _ Hbad)].
    rewrite <- (item_form_keys _ _ _ _ Ef). apply list_elem_of_fmap. by exists ("totp_code", v).
Qed.
End stored.

(** ** Sessions are started under authority *)

Section launched.
Context {PF : Platform} {PE : PortalEnv}.

Lemma try_except_inv {A} (m : M A) h w a w' :
  try_except m h w = (Ok a, w') →
  m w = (Ok a, w') ∨ ∃ e w1 k, m w = (Raise e, w1) ∧ h e = Some k ∧ k w1 = (Ok a, w').
Proof.
  unfold try_except. destruct (m w) as [[x|e] w1]; [by left|]. destruct (h e) as [k|] eqn:E; [|done].
  right. by exists e, w1, k.
Qed.

Lemma credential_allows_quiet u cred action ip at_ : quiet (credential_allows_action u cred action ip at_).
Proof. unfold credential_allows_action. solve_quiet. Qed.

(** A session of the user on the account, under the policy, is the only new one;
    outside web applications a ticket for it is stored under the hash of [raw]. *)
Definition session_opened (u : obj user) (cred : obj credential) (web : bool) (p sid : id) (raw : string) (d d' : db) : Prop :=
  ∃ s, sessions d !! sid = None ∧ sessions d' = <[sid := s]> (sessions d) ∧ s_user s = pk u ∧
    s_target s = c_target (val cred) ∧ s_credential s = Some (pk cred) ∧ s_policy s = Some p ∧
    if web then s_status s = SessionStatus.ACTIVE
    else s_status s = SessionStatus.CREATED ∧ ∃ kt k, tickets d' !! kt = Some k ∧ k_session k = sid ∧ k_token_hash k = sha256_hex raw.

Lemma open_inv u cred protocol just ip mfa w sid raw w' :
  open_for_user u cred protocol just ip mfa w = (Ok (sid, raw), w') →
  later w w' ∧ ∃ p, authorised_by START_SESSION p u cred ip mfa w w' ∧
    session_opened u cred (bool_decide (protocol = WEB)) (pk p) sid raw (w_db w) (w_db w').
Proof.
  unfold open_for_user. case_decide as Hp; intros H; apply bind_ok_inv in H as (x & w1 & Hx & H).
  - injection H as <- <- <-. rewrite bool_decide_true by done.
    apply web_session_inv in Hx as (tg & j & p & ar & pol & w2 & sp & st & _ & _ & _ & Ha & _ & Hl1 & Hl2 & _ & Hn & Hv & (?&?&?&Hd)).
    destruct (authorizing_authorised _ _ _ _ _ _ _ _ _ _ Ha Hl2) as [_ Hby].
    split; [by etrans|]. exists p. split; [done|]. exists (val x). rewrite Hd, Hv. by split_and!.
  - destruct x as [[session ticket] token]. injection H as <- <- <-. rewrite bool_decide_false by done.
    apply issue_ticket_inv in Hx as (tg & j & p & ar & pol & w2 & sp & st & st' & _ & _ & _ & _ & _ & Ha & _ & Hl1 & Hl2 & _ & Hn & _ & _ & Hv & Hk & (?&?&?&Hd)).
    destruct (authorizing_authorised _ _ _ _ _ _ _ _ _ _ Ha Hl2) as [_ Hby].
    split; [by etrans|]. exists p. split; [done|]. exists (val session). rewrite Hd, Hv, Hk. split_and!; try done.
    exists (pk ticket). eexists. simpl. rewrite lookup_insert_eq. by split_and!.
Qed.

(** A session is started only under authority.  When the portal answers a start
    request with a launch page, the request was a POST of a signed-in user with a
    fresh MFA verification (unless the test bypass is on) and a valid
    justification; a policy that covers the account granted [start_session] from
    that address, with its approval and MFA conditions; and the page names the one
    session that was stored, for that user, account and policy (active for a web
    application, created otherwise, with the ticket of the page stored as a hash). *)
Theorem launched_session_is_authorised k POST r w template ctx r' w' :
  start_session k POST r w = (Ok (Rendered template 200 ctx, r'), w') → template ≠ "sessions/start_denied.html" →
  ∃ u cred p sid raw web,
    rq_method r = "POST" ∧ rq_user r = Authenticated u ∧
    (PAMOLIVE_TEST_BYPASS_GLOBAL_MFA conf = false → ∃ w1, later w1 w' ∧ mfa_verified (w_db w) u r w w1) ∧
    is_Some (justification_form POST) ∧ credentials (w_db w) !! k = Some cred ∧
    authorised_by START_SESSION p u (Obj k cred) (request_client_ip (rq_meta r)) (rq_session r !! MFA_SESSION_KEY) w w' ∧
    dict_get "privileged_session" ctx = Some (JStr (str_uuid sid)) ∧
    dict_get "session_ticket" ctx = (if web : bool then None else Some (JStr raw)) ∧
    session_opened u (Obj k cred) web (pk p) sid raw (w_db w) (w_db w').
Proof.
  unfold start_session. intros H Hden. apply require_POST_inv in H as (HP & H); [|done].
  apply guarded_inv in H as (u & w1 & Hu & Hl & Hs & Hm & H); [|done].
  apply bind_ok_inv in H as (cred & ? & Hc & H). apply get_or_404_inv in Hc as (-> & Hpk & Hc). cbv zeta in H.
  apply bind_ok_inv in H as (ok & w2 & Ha & H). pose proof (quiet_run _ _ _ _ (credential_allows_quiet _ _ _ _ _) Ha) as [Hd2 Hl2].
  apply bind_ok_inv in H as ([] & ? & Hv & H). prim_inv Hv. apply bind_ok_inv in H as (target & ? & Ht & H). prim_inv Ht.
  destruct (justification_form POST) as [j|]; [|by injection H as <-].
  assert (Hs2 : settled w w2) by (destruct Hs as (sp & Es & ?); exists sp; split; [congruence|done]).
  apply try_except_inv in H as [H|(e & w3 & kk & _ & He & H)].
  2:{ destruct e; try done. destruct (contains _ _); [|done]. injection He as <-.
      apply bind_ok_inv in H as (? & ? & _ & H). by injection H as <-. }
  apply bind_ok_inv in H as ([sid raw] & w3 & Ho & H). injection H as Hpage <- <-.
  apply open_inv in Ho as (Hl3 & p & Hby & Hopen).
  replace cred with (Obj k (val cred)) in Hby, Hopen by (by destruct cred; simpl in *; subst).
  exists u, (val cred), p, sid, raw, (bool_decide (t_protocol (val target) = WEB)).
  split; [done|]. split; [done|]. split; [intros Hb; exists w1; split; [by etrans|by apply Hm]|].
  split; [by eexists|]. split; [destruct Hs as (sp & Es & _); by rewrite Es in Hc|].
  split; [eapply authorised_weaken; [|exact Hs2|exact Hl3|reflexivity|exact Hby]; by etrans|].
  destruct Hs2 as (sp & Es & _). rewrite Es in Hopen.
  unfold launch_page in Hpage. destruct (t_protocol (val target)); injection Hpage as _ <-; by split_and!.
Qed.
End launched.

(** ** Concrete runs *)

Section witnesses.
#[local] Existing Instance demo_platform.

#[local] Instance demo_portal : PortalEnv := {|
  clean_url s := if startswith "https://" s then Some s else None;
  build_absolute_uri p := "https://pam.example.org" +:+ p;
  PAMOLIVE_RDP_PUBLIC_ORIGIN := "https://rdp.example.org";
|}.

(** Two accounts of one target: the first has a one-time code.  The first policy
    covers the first account; the second grants the codes of [totp_accounts]. *)
Definition portal_db (totp_accounts : gset id) : db :=
  demo_policy_db <| mfa_devices := mfa_devices demo_mfa_db |>
    <| credentials := {[30%N := demo_credential <| c_encrypted_totp_secret := "enc:GEZDGNBVGY3TQOJQGEZDGNBVGY3TQOJQ" |>;
                        31%N := demo_credential]} |>
    <| policies := {[40%N := demo_policy <| p_credentials := {[30%N]} |>;
                     41%N := demo_policy <| p_credentials := totp_accounts |> <| p_actions := [REVEAL_TOTP] |>]} |>.

Definition portal_request : http_request :=
  demo_http "/portal/" {[MFA_SESSION_KEY := JInt (epoch demo_now)]}.

Definition portal_form : form_data := {["justification" := "planned maintenance of the server"]}.

(** The revealed page: its context, the request with the session, the world. *)
Definition page_of (x : outcome (response * http_request) * world) : list (string * json) * http_request * world :=
  match x with
  | (Ok (Rendered _ _ ctx, r), w) => (ctx, r, w)
  | (_, w) => ([], portal_request, w)
  end.

Definition demo_revealed : list (string * json) * http_request * world := Eval vm_compute in
  page_of (reveal_target_credential 30 portal_form portal_request (demo_world (portal_db {[30%N]}))).

Lemma demo_reveals :
  reveal_target_credential 30 portal_form portal_request (demo_world (portal_db {[30%N]}))
  = (Ok (Rendered "vault/reveal.html" 200 demo_revealed.1.1, demo_revealed.1.2), demo_revealed.2).
Proof. vm_compute. reflexivity. Qed.

Lemma revealed_secret_is_authorised_witness :
  ∃ u cred secret payload,
    rq_method portal_request = "POST" ∧ rq_user portal_request = Authenticated u ∧
    credentials (portal_db {[30%N]}) !! 30%N = Some cred ∧
    dict_get "payload" demo_revealed.1.1 = Some (JObj payload) ∧ dict_get "password" payload = Some (JStr secret) ∧
    disclosed_under u (Obj 30%N cred) (Some "192.0.2.9") (Some (JInt (epoch demo_now))) secret
      (demo_world (portal_db {[30%N]})) demo_revealed.2.
Proof.
  destruct (revealed_secret_is_authorised 30 portal_form portal_request (demo_world (portal_db {[30%N]}))
              demo_revealed.1.1 demo_revealed.1.2 demo_revealed.2 demo_reveals)
    as (u & cred & secret & payload & ? & ? & _ & _ & ? & ? & ? & ?).
  exists u, cred, secret, payload. split_and!; assumption.
Defined.

Definition demo_refreshed : list (string * json) := Eval vm_compute in
  match (target_credential_totp 30 demo_revealed.1.2 demo_revealed.2).1 with
  | Ok (JsonBody _ b, _) => b
  | _ => []
  end.

Lemma totp_refresh_window_witness :
  epoch (w_clock demo_revealed.2) <= epoch (w_clock demo_revealed.2) + 120.
Proof.
  eapply (totp_refresh_window 30 portal_form portal_request (demo_world (portal_db {[30%N]})) _ _ _
            demo_revealed.1.2 demo_revealed.2 200 demo_refreshed demo_revealed.1.2 _ demo_reveals).
  - vm_compute. reflexivity.
  - reflexivity.
  - vm_compute. reflexivity.
  - constructor.
  - constructor.
  - vm_compute. reflexivity.
Defined.

Definition demo_launched : list (string * json) * http_request * world := Eval vm_compute in
  page_of (start_session 30 portal_form portal_request (demo_world (portal_db ∅))).

Lemma launched_session_is_authorised_witness :
  ∃ u cred (p : obj access_policy) sid raw web, rq_user portal_request = Authenticated u ∧
    credentials (portal_db ∅) !! 30%N = Some cred ∧
    session_opened u (Obj 30%N cred) web (pk p) sid raw (portal_db ∅) (w_db demo_launched.2).
Proof.
  destruct (launched_session_is_authorised 30 portal_form portal_request (demo_world (portal_db ∅))
              "sessions/terminal.html" demo_launched.1.1 demo_launched.1.2 demo_launched.2)
    as (u & cred & p & sid & raw & web & _ & ? & _ & _ & ? & _ & _ & _ & ?).
  - vm_compute. reflexivity.
  - discriminate.
  - exists u, cred, p, sid, raw, web. split_and!; assumption.
Defined.

Definition item_post : form_data :=
  {["name" := "mail"; "item_type" := "login"; "username" := "alice"; "password" := " pass word "; "website_url" := ""]}.

Definition demo_stored : world := Eval vm_compute in (passwords_page item_post portal_request (demo_world (portal_db ∅))).2.

#[local] Existing Instance demo_encrypting.

Lemma personal_item_round_trip_witness :
  ∃ k i, vault_items (w_db demo_stored) !! k = Some i ∧ pv_owner i = 7%N ∧
    decrypt_payload (pv_encrypted_payload i) (pv_key_id i) demo_stored
    = (Ok [("username", JStr "alice"); ("password", JStr "pass word")], demo_stored).
Proof.
  destruct (personal_item_round_trip item_post portal_request (demo_world (portal_db ∅)) portal_request demo_stored)
    as (u & f & k & i & Hu & Hf & _ & Hi & Ho & Hdec & _).
  - vm_compute. reflexivity.
  - vm_compute. reflexivity.
  - injection Hu as <-. exists k, i. split; [exact Hi|]. split; [exact Ho|]. rewrite Hdec. vm_compute in Hf. injection Hf as <-.
    vm_compute. reflexivity.
Defined.

Definition eve : obj user := Obj 8%N (User "eve" "eve@example.org" "Eve" true true false "system" "fr" "hash:secret").

Lemma personal_vault_is_private_witness :
  same_vault (w_db demo_stored) (w_db (edit_personal_item 1001 item_post (portal_request <| rq_user := Authenticated eve |>) demo_stored).2).
Proof.
  destruct (vault_items (w_db demo_stored) !! 1001%N) as [i|] eqn:Hi; [|by vm_compute in Hi].
  apply (personal_vault_is_private eve 1001 i _ demo_stored (edit_personal_item 1001 item_post)).
  - reflexivity.
  - exact Hi.
  - vm_compute in Hi. injection Hi as <-. discriminate.
  - right; right. by exists item_post.
Defined.

(** The reveal page shows the one-time code of an account without the right to
    it.  Its check asks for the actions on the target and forgets the accounts a
    policy is restricted to: here the only policy that grants [reveal_totp] covers
    another account of the same target, the access check says no for this account,
    and the page shows its current code all the same. *)
Theorem totp_shown_beyond_policy :
  let w := demo_world (portal_db {[31%N]}) in
  ∃ cred ctx r' w' payload code,
    credentials (w_db w) !! 30%N = Some cred ∧
    (credential_allows_action (Authenticated demo_alice) (Obj 30%N cred) REVEAL_TOTP (Some "192.0.2.9") None w).1 = Ok false ∧
    reveal_target_credential 30 portal_form portal_request w = (Ok (Rendered "vault/reveal.html" 200 ctx, r'), w') ∧
    dict_get "payload" ctx = Some (JObj payload) ∧ dict_get "totp_code" payload = Some (JStr code) ∧
    totp_value "GEZDGNBVGY3TQOJQGEZDGNBVGY3TQOJQ" (epoch demo_now / 30) = Ok code.
Proof.
  simpl. do 6 eexists. split; [vm_compute; reflexivity|]. split; [vm_compute; reflexivity|].
  split; [vm_compute; reflexivity|]. split; [reflexivity|]. split; [reflexivity|]. vm_compute. reflexivity.
Qed.
End witnesses.
