(* ===== verification/PortalMfa.v ===== *)
(** * The security pages of the portal ([pamolive/api/views.py], [accounts/forms.py])

    Enrolment, step-up, reset of multi-factor authentication and renewal of the
    recovery codes as the browser drives them, and the user interface preferences.
    The QR code renderer and Django's test of a redirect target are parameters. *)

From S2P Require Import Prelude PyStr Json Loads Crypto PyTime Models World Text AuditTrail Rbac Ip Policies Approvals Vault Mfa Accounts Leases Sessions Licensing Portal.

Local Open Scope Z_scope.

Class SecurityPagesEnv := {
  render_qr : string → string;
  url_has_allowed_host_and_scheme : string → bool;
}.

(** ** The enrolment URI *)

(** [urllib.parse.quote]: the unreserved characters and ["/"] stay. *)
Definition unreserved (b : Z) : bool :=
  between 48 b 57 || between 65 b 90 || between 97 b 122 || bool_decide (b ∈ [95; 46; 45; 126; 47]).

Definition quote_byte (b : Z) : list ascii :=
  if unreserved b then [chr b] else "%"%char :: chars (upper (hexdigest [b])).

Definition quote (s : string) : string := of_chars (mbind quote_byte (utf8 s)).

Definition totp_uri (u : user) (secret : string) : string :=
  let account := quote (if decide (u_email u = "") then u_username u else u_email u) in
  "otpauth://totp/PAM-olive:" +:+ account +:+ "?secret=" +:+ secret +:+ "&issuer=PAM-olive&digits=6&period=30".

Example totp_uri_ex :
  totp_uri (val demo_alice) "GEZDGNBV"
  = "otpauth://totp/PAM-olive:alice%40example.org?secret=GEZDGNBV&issuer=PAM-olive&digits=6&period=30".
Proof. reflexivity. Qed.

Section pages.
Context {PF : Platform} {SE : SecurityPagesEnv}.

Definition device_resource (k : id) : resource := Resource "mfa.mfadevice" (str_uuid k).

(** ** Forms *)

(** [MFAConfirmForm]: six characters. *)
Definition confirm_form (POST : form_data) : option string :=
  v ← clean_text POST "token";
  if len v =? 6 then Some v else None.

(** [MFAVerificationForm.is_valid()]: a required text, then [clean_token]. *)
Definition verification_form (u : obj user) (POST : form_data) : M bool :=
  match clean_text POST "token" with
  | Some token => if decide (token = "") then mret false else verify_user_mfa (pk u) token
  | None => mret false
  end.

(** The field [password] of [MFASecurityForm] with its [clean_password]. *)
Definition password_field_valid (u : obj user) (POST : form_data) : bool :=
  match clean_text POST "password" with
  | Some password => bool_decide (password ≠ "") && check_password password (u_password (val u))
  | None => false
  end.

(** [MFASecurityForm.is_valid()]: every field is cleaned, also after an error. *)
Definition security_form (u : obj user) (POST : form_data) : M bool :=
  token_ok ← verification_form u POST;
  mret (password_field_valid u POST && token_ok).

(** ** Views *)

(** The first row of a user's devices with a property, by primary key. *)
Definition first_device (d : db) (p : mfa_device → bool) (user : id) : option (obj mfa_device) :=
  head (sort_by (λ o, Z.of_N (pk o)) (objects_filter (λ o, bool_decide (m_user (val o) = user) && p (val o)) (mfa_devices d))).

Definition is_totp (m : mfa_device) : bool := bool_decide (m_kind m = TOTP).

Definition setup_context (u : obj user) (device : id) (secret : string) : list (string * json) :=
  [("device", JStr (str_uuid device)); ("secret", JStr secret); ("qr_svg", JStr (render_qr (totp_uri (val u) secret)))].

Definition mfa_setup : handler := require_POST (login_required (λ u r,
  x ← begin_totp_enrollment (pk u);
  mret (Rendered "mfa/setup.html" 200 (setup_context u x.1 x.2), r))).

Definition mfa_enrollment_required : handler := login_required (λ u r,
  confirmed ← asks (λ d, first_device d (λ m, is_totp m && m_confirmed m) (pk u));
  match confirmed with
  | Some _ => redirect "dashboard" r
  | None =>
      device ← asks (λ d, first_device d (λ m, is_totp m && negb (m_confirmed m)) (pk u));
      x ← match device with
          | None => begin_totp_enrollment (pk u)
          | Some o => s ← device_secret (val o); mret (pk o, s)
          end;
      mret (Rendered "mfa/enrollment_required.html" 200 (setup_context u x.1 x.2), r)
  end).

(** [GET.get(key) or POST.get(key) or default_] *)
Definition get_or_post (GET POST : form_data) (key default_ : string) : string :=
  let g := default "" (GET !! key) in
  if decide (g ≠ "") then g
  else let p := default "" (POST !! key) in if decide (p ≠ "") then p else default_.

Definition mfa_verify (GET POST : form_data) : handler := login_required (λ u r,
  enrolled ← asks (λ d, mfa_enrolled d (pk u));
  if negb enrolled then redirect "mfa_setup_required" r
  else
    let next := get_or_post GET POST "next" "/" in
    let next_url := if url_has_allowed_host_and_scheme next then next else "/" in
    let action_label := get_or_post GET POST "action" "continuer" in
    valid ← (if bool_decide (rq_method r = "POST") then verification_form u POST else mret false);
    if valid : bool then
      r1 ← mark_mfa_verified r None;
      record_event (Some (pk u)) "authentication.mfa.step_up_succeeded" (user_resource u)
        [("action", JStr action_label)] (request_client_ip (rq_meta r)) ;;
      mret (RedirectUrl next_url, r1)
    else mret (Rendered "mfa/verify.html" 200 [("next", JStr next_url); ("action_label", JStr action_label)], r)).

Definition NEW_CODES : string := "new_mfa_recovery_codes".
Definition REGENERATED : string := "mfa_recovery_regenerated".

(** After a failed confirmation or a reset. *)
Definition back_to_account (r : http_request) : M (response * http_request) :=
  policy ← get_security_policy;
  redirect (if require_mfa_for_all_users policy then "mfa_setup_required" else "account") r.

Definition hand_out_codes (u : obj user) (device : id) (action : string) (regenerated : bool) (r : http_request)
    : M (response * http_request) :=
  r1 ← mark_mfa_verified r None;
  codes ← replace_recovery_codes (pk u) device 10;
  record_event (Some (pk u)) action (device_resource device) [] None ;;
  redirect "mfa_recovery_codes"
    (set_session REGENERATED (JBool regenerated) (set_session NEW_CODES (JArr (JStr <$> codes)) r1)).

Definition mfa_confirm (k : id) (POST : form_data) : handler := require_POST (login_required (λ u r,
  device ← get_or_404 mfa_devices k;
  raise_if (bool_decide (m_user (val device) ≠ pk u) || negb (is_totp (val device))) Http404 ;;
  if m_confirmed (val device) then
    redirect (match rq_session r !! NEW_CODES with
              | Some j => if json_truthy j then "mfa_recovery_codes" else "account"
              | None => "account" end) r
  else
    ok ← match confirm_form POST with
         | Some token => confirm_totp_device k token
         | None => mret false
         end;
    if ok : bool then hand_out_codes u k "account.mfa_enabled" false r
    else back_to_account r)).

(** [request.session.pop(key, None)] for both keys: the codes are shown once. *)
Definition mfa_recovery_codes : handler := login_required (λ u r,
  let codes := rq_session r !! NEW_CODES in
  let regenerated := default (JBool false) (rq_session r !! REGENERATED) in
  let r1 := r <| rq_session ::= delete NEW_CODES |> <| rq_session ::= delete REGENERATED |> in
  match codes with
  | Some j => if json_truthy j
              then mret (Rendered "mfa/recovery_codes.html" 200 [("recovery_codes", j); ("regenerated", regenerated)], r1)
              else redirect "account" r1
  | None => redirect "account" r1
  end).

Definition mfa_reset (POST : form_data) : handler := require_POST (login_required (λ u r,
  valid ← security_form u POST;
  if negb valid then redirect "account" r
  else
    r1 ← mark_mfa_verified r None;
    device ← asks (λ d, first_device d m_confirmed (pk u));
    reset_user_mfa (pk u) ;;
    match device with
    | None => raise (OtherError "AttributeError")
    | Some o => record_event (Some (pk u)) "account.mfa_reset" (device_resource (pk o)) [] None ;; mret tt
    end ;;
    back_to_account r1)).

(** [get_object_or_404(MFADevice, user=..., kind=TOTP, confirmed=True)] *)
Definition the_totp_device (u : id) : M (obj mfa_device) :=
  found ← asks (λ d, objects_filter (λ o, bool_decide (m_user (val o) = u) && is_totp (val o) && m_confirmed (val o)) (mfa_devices d));
  match found with
  | [] => raise Http404
  | [o] => mret o
  | _ => raise (OtherError "MultipleObjectsReturned")
  end.

Definition mfa_recovery_regenerate (POST : form_data) : handler := require_POST (login_required (λ u r,
  device ← the_totp_device (pk u);
  valid ← security_form u POST;
  if negb valid then redirect "account" r
  else hand_out_codes u (pk device) "account.mfa_recovery_regenerated" true r)).

(** ** Preferences *)

Definition Theme_values : list string := ["dark"; "light"; "system"].
Definition Language_values : list string := ["en"; "fr"; "es"].

(** The user, the session and the columns after the changes that are valid. *)
Definition apply_preferences (POST : form_data) (u : user) (r : http_request) : user * http_request * list string :=
  let theme := default "" (POST !! "preferred_theme") in
  let language := default "" (POST !! "preferred_language") in
  let '(u1, f1) := if bool_decide (theme ∈ Theme_values) then (u <| u_preferred_theme := theme |>, ["preferred_theme"]) else (u, []) in
  if bool_decide (language ∈ Language_values)
  then (u1 <| u_preferred_language := language |>, set_session "preferred_language" (JStr language) r, f1 ++ ["preferred_language"])
  else (u1, r, f1).

Definition update_ui_preferences {LE : LicenseEnv} (POST : form_data) : handler := require_POST (login_required (λ u r,
  let '(u1, r1, update_fields) := apply_preferences POST (val u) r in
  if decide (update_fields = []) then mret (JsonDetail 400 "Invalid preference." false, r1)
  else
    enforce_active_user_limit (Some (pk u)) u1 ;;
    save_fields users (pk u) (λ x, (apply_preferences POST x r).1.1) ;;
    record_event (Some (pk u)) "account.preferences_updated" (user_resource u)
      [("fields", JArr (JStr <$> update_fields))] None ;;
    let next_path := default "" (POST !! "next") in
    if bool_decide (next_path ≠ "") && url_has_allowed_host_and_scheme next_path
    then mret (RedirectUrl next_path, r1)
    else mret (JsonBody 200 [("theme", JStr (u_preferred_theme u1)); ("language", JStr (u_preferred_language u1))], r1))).
End pages.

(** ** Factors are removed only by their owner's password and a second factor *)

Section removal.
Context {PF : Platform} {SE : SecurityPagesEnv}.

Definition has_device (k : id) (d : db) : Prop := is_Some (mfa_devices d !! k).

#[global] Instance has_device_stable k : AuditStable (has_device k).
Proof. intros d d' (?&?&?&->). done. Qed.

Lemma save_device_keeps k k' f : preserves (has_device k) (save_fields mfa_devices k' f).
Proof.
  apply preserves_save. intros d v Hv Hk. unfold has_device. simpl. destruct (decide (k' = k)) as [->|].
  - rewrite lookup_insert_eq. by eexists.
  - by rewrite lookup_insert_ne.
Qed.
#[local] Hint Resolve save_device_keeps matching_quiet decrypt_quiet : pam.

Lemma verify_keeps k u token : preserves (has_device k) (verify_user_mfa u token).
Proof.
  unfold verify_user_mfa, verify_user_totp, consume_recovery_code, device_secret. solve_preserves.
  by apply preserves_save.
Qed.

#[local] Hint Resolve verify_keeps : pam.

Lemma form_keeps k u POST : preserves (has_device k) (security_form u POST).
Proof. unfold security_form, verification_form. solve_preserves. Qed.

Lemma security_form_inv u POST w w' :
  security_form u POST w = (Ok true, w') →
  ∃ password token, clean_text POST "password" = Some password ∧ check_password password (u_password (val u)) = true ∧
    clean_text POST "token" = Some token ∧ token ≠ "" ∧ verify_user_mfa (pk u) token w = (Ok true, w').
Proof.
  unfold security_form. intros H. apply bind_ok_inv in H as (b & w1 & Hb & H). injection H as H <-.
  apply andb_true_iff in H as [Hp ->]. unfold password_field_valid in Hp.
  destruct (clean_text POST "password") as [p|]; [|done]. apply andb_true_iff in Hp as [_ Hp].
  unfold verification_form in Hb. destruct (clean_text POST "token") as [t|]; [|done]. case_decide; [done|].
  by exists p, t.
Qed.

(** C28: A second factor is removed only with the password and a factor.  Whatever
    the reset page answers, if a device that was enrolled is gone afterwards then
    the request was a POST of a signed-in user who gave the password of the
    account and a code that was accepted as TOTP or recovery code. *)
Theorem mfa_removed_with_password_and_code POST r w k :
  has_device k (w_db w) → ¬ has_device k (w_db (mfa_reset POST r w).2) →
  rq_method r = "POST" ∧ ∃ u password token w1,
    rq_user r = Authenticated u ∧
    clean_text POST "password" = Some password ∧ check_password password (u_password (val u)) = true ∧
    clean_text POST "token" = Some token ∧ verify_user_mfa (pk u) token w = (Ok true, w1).
Proof.
  intros Hk Hgone. unfold mfa_reset, require_POST in Hgone. case_decide as HP; [|by destruct Hgone]. split; [done|].
  unfold login_required in Hgone. destruct (rq_user r) as [|u]; [by destruct Hgone|].
  pose proof (form_keeps k u POST w Hk) as Hform.
  destruct (security_form u POST w) as [[[]|e] w1] eqn:E.
  - apply security_form_inv in E as (p & t & ? & ? & ? & _ & ?). by exists u, p, t, w1.
  - rewrite (bind_ok _ _ _ _ _ E) in Hgone. by destruct Hgone.
  - rewrite (bind_raise _ _ _ _ _ E) in Hgone. by destruct Hgone.
Qed.
End removal.

(** ** Concrete runs *)

Section witnesses.
#[local] Existing Instance demo_platform.
#[local] Existing Instance demo_portal.

#[local] Instance demo_pages : SecurityPagesEnv := {|
  render_qr s := "<svg>" +:+ s +:+ "</svg>";
  url_has_allowed_host_and_scheme s := startswith "/" s;
|}.

Definition pages_world : world := demo_world (portal_db {[30%N]}).

(** Signed in, without an MFA verification in the session. *)
Definition unverified_request : http_request := portal_request <| rq_session := ∅ |>.

Definition reset_form : form_data := {["password" := "secret"; "token" := demo_code demo_now]}.

Lemma demo_reset_removes : ¬ has_device 60 (w_db (mfa_reset reset_form unverified_request pages_world).2).
Proof. intros [m Hm]. by vm_compute in Hm. Qed.

Lemma mfa_removed_with_password_and_code_witness :
  ∃ u password token w1, rq_user unverified_request = Authenticated u ∧
    clean_text reset_form "password" = Some password ∧ check_password password (u_password (val u)) = true ∧
    clean_text reset_form "token" = Some token ∧ verify_user_mfa (pk u) token pages_world = (Ok true, w1).
Proof.
  apply (mfa_removed_with_password_and_code reset_form unverified_request pages_world 60).
  - eexists. vm_compute. reflexivity.
  - exact demo_reset_removes.
Defined.

Definition setup_run : outcome (response * http_request) * world := Eval vm_compute in mfa_setup unverified_request pages_world.
Definition setup_page : list (string * json) * http_request * world := Eval vm_compute in page_of setup_run.
Definition shown_secret : string := Eval vm_compute in
  match dict_get "secret" setup_page.1.1 with Some (JStr s) => s | _ => "" end.
Definition attacker_code : string := Eval vm_compute in
  match totp_value shown_secret (epoch (w_clock setup_page.2) / 30) with Ok c => c | Raise _ => "" end.
Definition confirm_run : outcome (response * http_request) * world := Eval vm_compute in
  mfa_confirm 60 {["token" := attacker_code]} setup_page.1.2 setup_page.2.
Definition confirmed_request : http_request := Eval vm_compute in
  match confirm_run.1 with Ok (_, r) => r | Raise _ => unverified_request end.

(** Enrolment bypasses the step-up.  The setup page asks for neither the password
    nor a factor, and it replaces the secret of the confirmed device.  A session of
    an enrolled user without any MFA verification is sent to the MFA prompt when it
    wants a secret; after it opened the setup page and confirmed the code computed
    from the secret on that page, the same session is shown the secret. *)
Theorem enrolment_bypasses_step_up :
  mfa_enrolled (w_db pages_world) 7 = true ∧
  (reveal_target_credential 30 portal_form unverified_request pages_world).1
    = Ok (RedirectTo "mfa_verify" [("next", "/portal/"); ("action", "révéler un secret de cible")], unverified_request) ∧
  ∃ ctx r1 w1 secret code r2 w2 ctx' payload r3 w3,
    mfa_setup unverified_request pages_world = (Ok (Rendered "mfa/setup.html" 200 ctx, r1), w1) ∧
    dict_get "secret" ctx = Some (JStr secret) ∧ totp_value secret (epoch (w_clock w1) / 30) = Ok code ∧
    mfa_confirm 60 {["token" := code]} r1 w1 = (Ok (RedirectTo "mfa_recovery_codes" [], r2), w2) ∧
    reveal_target_credential 30 portal_form r2 w2 = (Ok (Rendered "vault/reveal.html" 200 ctx', r3), w3) ∧
    dict_get "payload" ctx' = Some (JObj payload) ∧ dict_get "password" payload = Some (JStr "secret").
Proof.
  split; [vm_compute; reflexivity|]. split; [vm_compute; reflexivity|].
  exists setup_page.1.1, setup_page.1.2, setup_page.2, shown_secret, attacker_code, confirmed_request, confirm_run.2.
  do 4 eexists. split; [vm_compute; reflexivity|]. split; [vm_compute; reflexivity|]. split; [vm_compute; reflexivity|].
  split; [vm_compute; reflexivity|]. split; [vm_compute; reflexivity|]. split; reflexivity.
Qed.

Definition wrong_password_form : form_data := {["password" := "guess"; "token" := "01234-56789"]}.

(** A wrong password still uses up the recovery code that came with it. *)
Example wrong_password_burns_code :
  let w := World (w_db demo_codes_world) demo_now [] 500 ∅ in
  let x := mfa_reset wrong_password_form unverified_request w in
  x.1 = Ok (RedirectTo "account" [], unverified_request) ∧
  length (usable_codes (w_db w) 7) = 2%nat ∧ length (usable_codes (w_db x.2) 7) = 1%nat.
Proof. vm_compute. repeat split. Qed.
End witnesses.
