(* ===== verification/Recordings.v ===== *)
(** * Encrypted session recordings ([pamolive/gateway/recording.py],
    [pamolive/sessions/recordings.py])

    The broker writes every chunk of a terminal session as one encrypted line of a
    [.pamrec] file; the web node reads the file back for replay and export.  A file
    system is a finite map from resolved paths to contents; what the volume answers to each
    request of the recorder, and how much of a line reached the file, is the class
    [Disk].  Fernet and the
    resolution of symbolic links are parameters; base 64, UTF-8 with replacement and
    JSON are written out. *)

From S2P Require Import Prelude PyStr Json Loads Crypto PyTime Models World Text Policies Broker.

Local Open Scope Z_scope.

(** ** [base64.b64decode(s)] without validation

    [binascii.a2b_base64]: characters outside the alphabet are skipped; a pad
    character ends the input once the quantum it closes is complete.  [pos] is the
    position in the quantum, [pads] the pad characters seen in a row, [left] the bits
    left of the last digit.  [None] is [binascii.Error]. *)
Fixpoint a2b_base64 (pos : nat) (pads : nat) (left : Z) (l : list ascii) : option bytes :=
  match l with
  | [] => if decide (pos = 0%nat) then Some [] else None
  | c :: l' =>
      if decide (c = "="%char) then
        if decide (2 <= pos)%nat
        then if decide (4 <= pos + S pads)%nat then Some [] else a2b_base64 pos (S pads) left l'
        else a2b_base64 pos pads left l'
      else match b64_value c with
           | None => a2b_base64 pos pads left l'
           | Some v =>
               match pos with
               | 0%nat => a2b_base64 1 0 v l'
               | 1%nat => r ← a2b_base64 2 0 (v mod 16) l'; Some (4 * left + v / 16 :: r)
               | 2%nat => r ← a2b_base64 3 0 (v mod 4) l'; Some (16 * left + v / 4 :: r)
               | _ => r ← a2b_base64 0 0 0 l'; Some (64 * left + v :: r)
               end
           end
  end.

(** [base64.b64decode(value)] of a decoded JSON value. *)
Definition b64decode_json (j : json) : outcome bytes :=
  match j with
  | JStr s =>
      if is_ascii s then
        match a2b_base64 0 0 0 (chars s) with
        | Some b => Ok b
        | None => Raise (ValueError "Incorrect padding")
        end
      else Raise (ValueError "string argument should contain only ASCII characters")
  | _ => Raise (TypeError "argument should be a bytes-like object or ASCII string")
  end.

(** ** [bytes.decode("utf-8", errors="replace")]

    Code points; every maximal prefix of an ill-formed sequence becomes one
    U+FFFD. *)
Definition replacement : Z := 0xFFFD.
Definition continuation (b : Z) : bool := between 128 b 191.

(** The second byte a three-byte or four-byte sequence admits after its first. *)
Definition second_of_three (b c : Z) : bool :=
  if b =? 224 then between 160 c 191 else if b =? 237 then between 128 c 159 else continuation c.
Definition second_of_four (b c : Z) : bool :=
  if b =? 240 then between 144 c 191 else if b =? 244 then between 128 c 143 else continuation c.

Fixpoint decode_replace (l : bytes) : list Z :=
  match l with
  | [] => []
  | b :: r =>
      if b <? 128 then b :: decode_replace r
      else if between 194 b 223 then
        match r with
        | c :: r1 => if continuation c then 64 * (b - 192) + (c - 128) :: decode_replace r1
                     else replacement :: decode_replace r
        | [] => [replacement]
        end
      else if between 224 b 239 then
        match r with
        | c :: r1 =>
            if second_of_three b c then
              match r1 with
              | d :: r2 =>
                  if continuation d
                  then 4096 * (b - 224) + 64 * (c - 128) + (d - 128) :: decode_replace r2
                  else replacement :: decode_replace r1
              | [] => [replacement]
              end
            else replacement :: decode_replace r
        | [] => [replacement]
        end
      else if between 240 b 244 then
        match r with
        | c :: r1 =>
            if second_of_four b c then
              match r1 with
              | d :: r2 =>
                  if continuation d then
                    match r2 with
                    | e :: r3 =>
                        if continuation e
                        then 262144 * (b - 240) + 4096 * (c - 128) + 64 * (d - 128) + (e - 128)
                             :: decode_replace r3
                        else replacement :: decode_replace r2
                    | [] => [replacement]
                    end
                  else replacement :: decode_replace r1
              | [] => [replacement]
              end
            else replacement :: decode_replace r
        | [] => [replacement]
        end
      else replacement :: decode_replace r
  end.

Example decode_replace_ex :
  decode_replace [72; 0xC3; 0xA9; 0xE2; 0x82; 0xAC; 0xF0; 0x9F; 0x98; 0x80] = [72; 0xE9; 0x20AC; 0x1F600] ∧
  decode_replace [0xE2; 0x82; 65; 0xFF; 0xED; 0xA0; 0x80; 0xF0; 0x9F] =
    [replacement; 65; replacement; replacement; replacement; replacement; replacement].
Proof. split; reflexivity. Qed.

Example b64decode_ex :
  b64decode_json (JStr "Zm9v YmE=ignored") = Ok (bytes_of "fooba") ∧
  b64decode_json (JStr "Zm9vY") = Raise (ValueError "Incorrect padding").
Proof. split; reflexivity. Qed.

(** ** Paths and files *)

(** A path is the list of its components; a resolved path has no symbolic link. *)
Definition path : Type := list string.
Definition volume : Type := gmap path string.

(** [p in q.parents]: a strict prefix. *)
Definition in_parents (p q : path) : bool :=
  bool_decide (take (length p) q = p) && (length p <? length q)%nat.

(** Decryption without a lifetime, [Fernet.decrypt(token)]: [None] for
    [InvalidToken]. *)
Class FernetReader := fernet_read : string → string → option string.

(** The alphabet of [base64.urlsafe_b64encode]. *)
Definition b64url_char (c : ascii) : bool :=
  let z := code c in
  between 48 z 57 || between 65 z 90 || between 97 z 122 || (z =? 45) || (z =? 95) || (z =? 61).

(** What the [cryptography] package documents: a token is URL-safe base 64 and
    decrypts, without a limit of time, under the key that made it. *)
Class FernetReaderLaws `{Fernet, !FernetReader} := {
  fernet_reads key n t m : fernet_read key (fernet_encrypt key n t m) = Some m;
  fernet_token_chars key n t m : forallb b64url_char (chars (fernet_encrypt key n t m)) = true;
}.

(** ** The recorder ([gateway/recording.py]) *)

Inductive direction := Input | CommandDenied | Stdout | Stderr.
#[global] Instance direction_eq_dec : EqDecision direction.
Proof. solve_decision. Defined.

Definition direction_str (d : direction) : string :=
  match d with
  | Input => "input" | CommandDenied => "command_denied" | Stdout => "stdout" | Stderr => "stderr"
  end.

(** The open recorder: [rec_digested] is what the running SHA-256 has absorbed,
    [rec_held] what the buffer of the file object still holds, [rec_requests] how often
    the volume was asked for something. *)
Record recorder := Recorder {
  rec_reference : string;
  rec_path : path;
  rec_key : string;
  rec_digested : string;
  rec_held : string;
  rec_requests : nat;
  rec_closed : bool;
  rec_bytes_in : Z;
  rec_bytes_out : Z;
}.
#[global] Instance recorder_settable : Settable recorder := λ r,
  Recorder (rec_reference r) (rec_path r) (rec_key r) (rec_digested r) (rec_held r) (rec_requests r) (rec_closed r)
    (rec_bytes_in r) (rec_bytes_out r).

(** What the operating system answers to the creation of the directory and of the file:
    success; an [OSError] before there is a file; a [FileExistsError] because the
    directory is a file; an [OSError] of [chmod], which leaves the empty file. *)
Inductive storage := Available | Unavailable | Occupied | Unprotected.
#[global] Instance storage_eq_dec : EqDecision storage.
Proof. solve_decision. Defined.

(** What the volume answers to a request (writing a buffer out, [fsync], closing): done,
    or an [OSError].  Of what a failed write had to store, the first [landed] bytes are
    in the file and the next [held] ones stay in the buffer of the file object. *)
Inductive disk_answer := Done | Failed (landed held : nat).

(** The answers to the requests of a recorder, in their order. *)
Class Disk := disk : nat → disk_answer.

Definition OSError : exn := OtherError "OSError".
Definition RecordingStorageError : exn := OtherError "RecordingStorageError".
Definition FileExistsError : exn := OtherError "FileExistsError".

(** [EncryptedSessionRecorder(...)]: the file is created exclusively, then the key is
    checked; a key that is too short leaves the empty file behind. *)
Definition open_recorder (st : storage) (directory : path) (session_id encryption_key : string)
    (v : volume) : outcome recorder * volume :=
  let reference := session_id +:+ ".pamrec" in
  let p := directory ++ [reference] in
  match st with
  | Unavailable => (Raise RecordingStorageError, v)
  | Occupied => (Raise FileExistsError, v)
  | Available | Unprotected =>
      if decide (is_Some (v !! p)) then (Raise FileExistsError, v)
      else
        let v := <[p := ""]> v in
        if decide (st = Unprotected) then (Raise RecordingStorageError, v)
        else if len encryption_key <? 32
        then (Raise (GatewayProtocolError "La clé partagée du broker doit contenir au moins 32 caractères."), v)
        else (Ok (Recorder reference p encryption_key "" "" 0 false 0 0), v)
  end.

Section recorder_ops.
Context {FN : Fernet} {DK : Disk}.

(** The line of a chunk: one token and its line end. *)
Definition event_json (t : Z) (d : direction) (data : string) : json :=
  JObj [("at", JStr (isoformat t)); ("direction", JStr (direction_str d));
        ("data", JStr (of_chars (b64encode (bytes_of data))))].

Definition line_feed : string := String (chr 10) "".

Definition event_line (key : string) (n : nat) (t created : Z) (d : direction) (data : string) : string :=
  fernet_encrypt key n created (encode (of_chars (ser (event_json t d data)))) +:+ line_feed.

(** A recorder after an operation, and the volume. *)
Definition tape : Type := recorder * volume.

(** [self._file.write(data)] and [flush()]: what the buffer holds goes first. *)
Definition store (data : string) (x : tape) : outcome unit * tape :=
  let '(r, v) := x in
  let pending := chars (rec_held r +:+ data) in
  let file := default "" (v !! rec_path r) in
  let r' := r <| rec_requests ::= S |> in
  match disk (rec_requests r) with
  | Done => (Ok tt, (r' <| rec_held := "" |>, <[rec_path r := file +:+ of_chars pending]> v))
  | Failed landed held =>
      (Raise OSError, (r' <| rec_held := of_chars (take held (drop landed pending)) |>,
                       <[rec_path r := file +:+ of_chars (take landed pending)]> v))
  end.

(** [EncryptedSessionRecorder.write]: the bytes are counted first, the digest absorbs the
    line last, once it is stored. *)
Definition write (d : direction) (data : string) (r : recorder) (v : volume) : M (outcome unit * tape) :=
  if decide (data = "") then mret (Ok tt, (r, v))
  else
    let r := if decide (d = Input) then r <| rec_bytes_in ::= Z.add (len data) |>
             else r <| rec_bytes_out ::= Z.add (len data) |> in
    t ← now;
    n ← draw (λ n, n);
    created ← time_time;
    let encrypted := event_line (rec_key r) n t created d data in
    let '(stored, (r, v)) := store encrypted (r, v) in
    match stored with
    | Ok _ => mret (Ok tt, (r <| rec_digested ::= λ h, h +:+ encrypted |>, v))
    | Raise e => mret (Raise e, (r, v))
    end.

Record close_report := CloseReport {
  cr_recording_reference : string;
  cr_recording_sha256 : string;
  cr_bytes_in : Z;
  cr_bytes_out : Z;
}.

(** [os.fsync] and [self._file.close()] *)
Definition request (r : recorder) : outcome unit * recorder :=
  (match disk (rec_requests r) with Done => Ok tt | Failed _ _ => Raise OSError end, r <| rec_requests ::= S |>).

(** The [if not self._file.closed:] part. *)
Definition seal (x : tape) : outcome unit * tape :=
  if rec_closed x.1 then (Ok tt, x)
  else
    let '(flushed, (r, v)) := if decide (rec_held x.1 = "") then (Ok tt, x) else store "" x in
    match flushed with
    | Raise e => (Raise e, (r, v))
    | Ok _ =>
        let '(synced, r) := request r in
        match synced with
        | Raise e => (Raise e, (r, v))
        | Ok _ => let '(closed, r) := request r in (closed, (r <| rec_closed := true |>, v))
        end
    end.

(** [EncryptedSessionRecorder.close] *)
Definition close (r : recorder) (v : volume) : outcome close_report * tape :=
  let '(sealed, (r, v)) := seal (r, v) in
  (match sealed with
   | Raise e => Raise e
   | Ok _ => Ok (CloseReport (rec_reference r) (hexdigest (sha256 (bytes_of (rec_digested r)))) (rec_bytes_in r)
                   (rec_bytes_out r))
   end, (r, v)).

(** The writes of a session, in order, up to the first that fails. *)
Fixpoint write_all (l : list (direction * string)) (r : recorder) (v : volume) : M (outcome unit * tape) :=
  match l with
  | [] => mret (Ok tt, (r, v))
  | (d, data) :: l' =>
      x ← write d data r v;
      match x.1 with
      | Raise e => mret (Raise e, x.2)
      | Ok _ => write_all l' x.2.1 x.2.2
      end
  end.
End recorder_ops.

(** ** Reading ([sessions/recordings.py]) *)

(** [REFERENCE_PATTERN.fullmatch]: 36 hexadecimal digits or dashes and the suffix. *)
Definition reference_char (c : ascii) : bool :=
  let z := code c in between 48 z 57 || between 97 z 102 || between 65 z 70 || (z =? 45).

Definition reference_ok (reference : string) : bool :=
  let l := chars reference in
  bool_decide (length l = 43%nat) && forallb reference_char (take 36 l)
  && bool_decide (of_chars (drop 36 l) = ".pamrec").

(** The settings of the web node and [Path.resolve]. *)
Class RecordingHost := {
  PAMOLIVE_RECORDING_KEY : string;
  PAMOLIVE_RECORDING_DIR : path;
  resolve : path → path;
}.

Record recording_event := RecordingEvent {
  ev_at : json;
  ev_direction : json;
  ev_text : list Z;
  ev_size : Z;
}.

Section reading.
Context {FR : FernetReader} {RH : RecordingHost}.

Definition recording_path (reference : string) : outcome path :=
  if negb (reference_ok reference) then Raise (ValidationError "Référence d'enregistrement invalide.")
  else
    let base := resolve PAMOLIVE_RECORDING_DIR in
    let candidate := resolve (base ++ [reference]) in
    if in_parents base candidate then Ok candidate
    else Raise (ValidationError "Référence d'enregistrement invalide.").

(** The lines of a binary file; a line is never empty at the end of the file. *)
Definition file_lines (content : string) : list (list ascii) :=
  let pieces := split_char (chr 10) (chars content) in
  match last pieces with Some [] => removelast pieces | _ => pieces end.

(** [bytes.strip()] *)
Definition ascii_space (c : ascii) : bool := between 9 (code c) 13 || (code c =? 32).

(** [payload[key]] *)
Definition member (j : json) (k : string) : outcome json :=
  match j with
  | JObj l => match dict_get k l with Some v => Ok v | None => Raise (OtherError "KeyError") end
  | _ => Raise (TypeError "indices must be integers or slices, not str")
  end.

(** One line of the file. *)
Definition read_event (key : string) (line : list ascii) : outcome recording_event :=
  match fernet_read key (of_chars (strip_chars ascii_space line)) with
  | None => Raise (OtherError "InvalidToken")
  | Some plain =>
      match json_loads plain with
      | None => Raise (OtherError "JSONDecodeError")
      | Some payload =>
          match member payload "data" with
          | Raise e => Raise e
          | Ok encoded =>
              match b64decode_json encoded with
              | Raise e => Raise e
              | Ok data =>
                  match member payload "at", member payload "direction" with
                  | Ok t, Ok d => Ok (RecordingEvent t d (decode_replace data) (Z.of_nat (length data)))
                  | Raise e, _ => Raise e
                  | Ok _, Raise e => Raise e
                  end
              end
          end
      end
  end.

Fixpoint read_lines (key : string) (lines : list (list ascii)) : outcome (list recording_event) :=
  match lines with
  | [] => Ok []
  | line :: rest =>
      match read_event key line with
      | Raise e => Raise e
      | Ok event =>
          match read_lines key rest with
          | Raise e => Raise e
          | Ok events => Ok (event :: events)
          end
      end
  end.

Definition read_limit : nat := 5000.

Definition read_recording_events (reference : string) (limit : nat) (v : volume)
    : outcome (list recording_event) :=
  if decide (PAMOLIVE_RECORDING_KEY = "") then
    Raise (PermissionDenied "La clé de lecture des enregistrements n'est pas configurée.")
  else
    match recording_path reference with
    | Raise e => Raise e
    | Ok p =>
        match v !! p with
        | None => Raise (OtherError "FileNotFoundError")
        | Some content =>
            if len PAMOLIVE_RECORDING_KEY <? 32
            then Raise (GatewayProtocolError "La clé partagée du broker doit contenir au moins 32 caractères.")
            else read_lines PAMOLIVE_RECORDING_KEY (take limit (file_lines content))
        end
    end.

(** The code points of a string of the program. *)
Definition points (s : string) : list Z := code <$> chars s.

Definition export_chunk (e : recording_event) : outcome (list Z) :=
  match ev_direction e with
  | JStr d =>
      let label := if decide (d = "input") then "INPUT" else upper d in
      Ok (points ("[" +:+ py_str (ev_at e) +:+ "] " +:+ label +:+ line_feed) ++ ev_text e
          ++ points line_feed)
  | _ => Raise (OtherError "AttributeError")
  end.

Fixpoint export_chunks (l : list recording_event) : outcome (list Z) :=
  match l with
  | [] => Ok []
  | e :: l' =>
      match export_chunk e with
      | Raise x => Raise x
      | Ok c => match export_chunks l' with Raise x => Raise x | Ok r => Ok (c ++ r) end
      end
  end.

Definition recording_text_export (reference : string) (v : volume) : outcome (list Z) :=
  match read_recording_events reference read_limit v with
  | Raise e => Raise e
  | Ok events => export_chunks events
  end.
End reading.

(** ** Base 64 *)

Lemma b64_char_value v : 0 <= v < 64 → b64_value (b64_char v) = Some v ∧ b64_char v ≠ "="%char.
Proof.
  intros H. assert (v ∈ seqZ 0 64) as Hv by (apply elem_of_seqZ; lia).
  assert (Forall (λ v, b64_value (b64_char v) = Some v ∧ b64_char v ≠ "="%char) (seqZ 0 64)) as F.
  { apply (bool_decide_unpack _). vm_compute. exact I. }
  rewrite Forall_forall in F. by apply F.
Qed.

Lemma a2b_digit pos pads left v l :
  0 <= v < 64 →
  a2b_base64 pos pads left (b64_char v :: l) =
    match pos with
    | 0%nat => a2b_base64 1 0 v l
    | 1%nat => r ← a2b_base64 2 0 (v mod 16) l; Some (4 * left + v / 16 :: r)
    | 2%nat => r ← a2b_base64 3 0 (v mod 4) l; Some (16 * left + v / 4 :: r)
    | _ => r ← a2b_base64 0 0 0 l; Some (64 * left + v :: r)
    end.
Proof.
  intros [E Hne]%b64_char_value. cbn [a2b_base64]. rewrite decide_False by done. by rewrite E.
Qed.

Lemma a2b_pads left : a2b_base64 2 0 left ["="; "="]%char = Some [] ∧ a2b_base64 3 0 left ["="]%char = Some [].
Proof. split; reflexivity. Qed.

Ltac digits := Z.to_euclidean_division_equations; lia.

Lemma a2b_b64encode b : Forall is_byte b → a2b_base64 0 0 0 (b64encode b) = Some b.
Proof.
  intros Hb. remember (length b) as n eqn:Hn. revert b Hn Hb.
  induction (lt_wf n) as [n _ IH]. intros b -> Hb. unfold is_byte in *.
  destruct b as [|x [|y [|z b]]]; [done|..]; rewrite ?Forall_cons in Hb; destruct_and?;
    cbn [b64encode]; cbv zeta; rewrite !a2b_digit by digits.
  - rewrite (proj1 (a2b_pads _)). cbn [mbind option_bind]. do 2 f_equal. digits.
  - rewrite (proj2 (a2b_pads _)). cbn [mbind option_bind]. do 2 f_equal; [digits|]. f_equal. digits.
  - rewrite (IH (length b)) by (simpl; auto with lia). cbn [mbind option_bind].
    do 2 f_equal; [digits|]. f_equal; [digits|]. f_equal. digits.
Qed.

Lemma b64encode_ascii b : forallb (λ c, code c <? 128) (b64encode b) = true.
Proof.
  assert (∀ v, (code (b64_char v) <? 128) = true) as Hc.
  { intros v. unfold b64_char. repeat case_match; try reflexivity.
    - destruct (decide (0 <= 65 + v)).
      + rewrite code_chr; lia.
      + unfold chr. replace (Z.to_N (65 + v)) with 0%N by lia. reflexivity.
    - rewrite code_chr; lia.
    - rewrite code_chr; lia. }
  remember (length b) as n eqn:Hn. revert b Hn. induction (lt_wf n) as [n _ IH]. intros b ->.
  destruct b as [|x [|y [|z b]]]; cbn [b64encode forallb]; cbv zeta; rewrite ?Hc; [done..|].
  apply (IH (length b)); simpl; lia.
Qed.

Lemma bytes_of_bytes s : Forall is_byte (bytes_of s).
Proof. apply Forall_fmap, Forall_forall. intros c _. apply code_range. Qed.

Lemma b64decode_encoded s : b64decode_json (JStr (of_chars (b64encode (bytes_of s)))) = Ok (bytes_of s).
Proof.
  unfold b64decode_json, is_ascii. rewrite chars_of_chars, b64encode_ascii.
  by rewrite a2b_b64encode by apply bytes_of_bytes.
Qed.

(** ** UTF-8 *)

(** The Unicode scalar values and their UTF-8 form. *)
Definition scalar (c : Z) : Prop := 0 <= c < 0xD800 ∨ 0xE000 <= c < 0x110000.

Definition encode_point (c : Z) : bytes :=
  if c <? 128 then [c]
  else if c <? 2048 then [192 + c / 64; 128 + c mod 64]
  else if c <? 65536 then [224 + c / 4096; 128 + c / 64 mod 64; 128 + c mod 64]
  else [240 + c / 262144; 128 + c / 4096 mod 64; 128 + c / 64 mod 64; 128 + c mod 64].

Lemma between_true lo c hi : lo <= c <= hi → between lo c hi = true.
Proof. intros. unfold between. apply andb_true_iff. lia. Qed.
Lemma between_false lo c hi : c < lo ∨ hi < c → between lo c hi = false.
Proof. intros. unfold between. apply andb_false_iff. lia. Qed.

Lemma decode_replace_point c r : scalar c → decode_replace (encode_point c ++ r) = c :: decode_replace r.
Proof.
  unfold scalar, encode_point. intros H.
  destruct (Z.ltb_spec c 128) as [H1|H1]; [|destruct (Z.ltb_spec c 2048) as [H2|H2];
    [|destruct (Z.ltb_spec c 65536) as [H3|H3]]]; cbn [app decode_replace].
  - by rewrite (proj2 (Z.ltb_lt _ _) H1).
  - rewrite (proj2 (Z.ltb_ge _ _)) by digits. unfold continuation. rewrite !between_true by digits.
    f_equal. digits.
  - rewrite (proj2 (Z.ltb_ge _ _)) by digits. rewrite (between_false 194) by digits.
    rewrite (between_true 224) by digits.
    assert (second_of_three (224 + c / 4096) (128 + c / 64 mod 64) = true) as ->.
    { unfold second_of_three, continuation. case_match; [|case_match]; apply between_true; digits. }
    unfold continuation. rewrite between_true by digits. f_equal. digits.
  - rewrite (proj2 (Z.ltb_ge _ _)) by digits. rewrite (between_false 194), (between_false 224) by digits.
    rewrite (between_true 240) by digits.
    assert (second_of_four (240 + c / 262144) (128 + c / 4096 mod 64) = true) as ->.
    { unfold second_of_four, continuation. case_match; [|case_match]; apply between_true; digits. }
    unfold continuation. rewrite !between_true by digits. f_equal. digits.
Qed.

(** Well-formed UTF-8 is shown as it was written. *)
Lemma decode_replace_encode l : Forall scalar l → decode_replace (mbind encode_point l) = l.
Proof.
  induction 1 as [|c l Hc Hl IH]; [done|].
  change (mbind encode_point (c :: l)) with (encode_point c ++ mbind encode_point l).
  by rewrite decode_replace_point, IH.
Qed.

(** ** What is written is read back *)

Section round_trip.
Context {FN : Fernet} {DK : Disk} {FR : FernetReader} {FL : FernetReaderLaws} {RH : RecordingHost}.

(** The chunks that leave a line; empty ones do not. *)
Definition kept (l : list (direction * string)) : list (direction * string) := filter (λ c, c.2 ≠ "") l.

Definition bytes_in (l : list (direction * string)) : Z :=
  foldr (λ c n, if decide (c.1 = Input) then len c.2 + n else n) 0 l.
Definition bytes_out (l : list (direction * string)) : Z :=
  foldr (λ c n, if decide (c.1 = Input) then n else len c.2 + n) 0 l.

(** The event a chunk written at [t] is read as. *)
Definition recorded_event (t : Z) (c : direction * string) : recording_event :=
  RecordingEvent (JStr (isoformat t)) (JStr (direction_str c.1)) (decode_replace (bytes_of c.2)) (len c.2).

(** The instant of a line, its nonce, and the instant of its token. *)
Definition stamp : Type := Z * nat * Z.
Definition stamped_line (key : string) (s : stamp) (c : direction * string) : string :=
  event_line key s.1.2 s.1.1 s.2 c.1 c.2.
Definition concat_lines (l : list string) : string := foldr String.app "" l.

Lemma string_app_assoc a b c : (a +:+ b) +:+ c = a +:+ (b +:+ c).
Proof. apply chars_inj. by rewrite !chars_app, (assoc_L (++)). Qed.
Lemma string_app_nil a : a +:+ "" = a.
Proof. apply chars_inj. rewrite chars_app. apply app_nil_r. Qed.

Lemma token_no_space key n t m : Forall (λ c, ascii_space c = false) (chars (fernet_encrypt key n t m)).
Proof.
  pose proof (fernet_token_chars key n t m) as H. rewrite forallb_forall in H. apply Forall_forall.
  intros c Hc%list_elem_of_In%H. unfold b64url_char, ascii_space, between in *. lia.
Qed.

Lemma token_no_newline key n t m : chr 10 ∉ chars (fernet_encrypt key n t m).
Proof.
  intros Hin%list_elem_of_In. pose proof (fernet_token_chars key n t m) as H.
  rewrite forallb_forall in H. by apply H in Hin.
Qed.

Lemma member_event t d data k x :
  (k, x) ∈ [("at", JStr (isoformat t)); ("direction", JStr (direction_str d));
            ("data", JStr (of_chars (b64encode (bytes_of data))))] →
  member (event_json t d data) k = Ok x.
Proof.
  intros H. unfold member, event_json. rewrite (dict_get_elem k x); [done| |done].
  apply (bool_decide_unpack _). exact I.
Qed.

Lemma event_well_keyed t d data : well_keyed (event_json t d data).
Proof.
  constructor.
  - apply (bool_decide_unpack _). exact I.
  - repeat constructor.
Qed.

Lemma read_event_written key n t created d data :
  read_event key (chars (fernet_encrypt key n created (encode (of_chars (ser (event_json t d data)))))) =
    Ok (recorded_event t (d, data)).
Proof.
  unfold read_event. rewrite strip_chars_none by apply token_no_space.
  rewrite of_chars_chars, fernet_reads. unfold json_loads. rewrite decode_encode. cbn [mbind option_bind].
  rewrite loads_ser by apply event_well_keyed.
  rewrite (member_event _ _ _ "data" (JStr (of_chars (b64encode (bytes_of data))))) by (apply list_elem_of_In; simpl; auto).
  rewrite b64decode_encoded.
  rewrite (member_event _ _ _ "at" (JStr (isoformat t))) by (apply list_elem_of_In; simpl; auto).
  rewrite (member_event _ _ _ "direction" (JStr (direction_str d))) by (apply list_elem_of_In; simpl; auto).
  unfold recorded_event, bytes_of, len. simpl. rewrite length_fmap. do 4 f_equal.
  induction data as [|c s IH]; [done|]. simpl. by rewrite IH.
Qed.

Lemma file_lines_cons a b : chr 10 ∉ chars a → file_lines (a +:+ line_feed +:+ b) = chars a :: file_lines b.
Proof.
  intros Ha. unfold file_lines. rewrite !chars_app. change (chars line_feed) with [chr 10]. cbn [app].
  rewrite split_char_line by done. destruct (split_char (chr 10) (chars b)) as [|x l] eqn:E; [|].
  - exfalso. destruct (chars b); simpl in E; [done|]. repeat case_match; done.
  - rewrite last_cons_cons. destruct (last (x :: l)) as [[|? ?]|]; reflexivity.
Qed.

Lemma stamped_lines_read key stamps chunks limit :
  length stamps = length chunks →
  read_lines key (take limit (file_lines (concat_lines (zip_with (stamped_line key) stamps chunks)))) =
    Ok (take limit (zip_with recorded_event (stamps.*1.*1) chunks)).
Proof.
  revert chunks limit. induction stamps as [|s stamps IH]; intros [|c chunks] limit; try done.
  { by destruct limit. }
  intros [= Hlen]. cbn [zip_with concat_lines foldr]. unfold stamped_line at 1, event_line.
  rewrite string_app_assoc, file_lines_cons by apply token_no_newline.
  destruct limit as [|limit]; [done|]. cbn [take read_lines]. rewrite read_event_written.
  fold (concat_lines (zip_with (stamped_line key) stamps chunks)). rewrite IH by done.
  by destruct c.
Qed.

(** *** What one operation does to the recorder, its file and the other files *)

(** A recorder whose file holds what its digest has absorbed, and whose buffer is empty. *)
Definition in_step (x : tape) : Prop := rec_held x.1 = "" ∧ x.2 !! rec_path x.1 = Some (rec_digested x.1).

(** The volume did what it was asked from one point to another. *)
Definition flawless (m n : nat) : Prop := ∀ i, (m <= i < n)%nat → disk i = Done.

(** The recorder and the volume go on from one point of a session to another: it is the
    same recording, no other file changes, and as long as the volume does what it is
    asked the file holds what the digest has absorbed. *)
Record continues (a b : tape) : Prop := {
  co_requests : (rec_requests a.1 <= rec_requests b.1)%nat;
  co_path : rec_path b.1 = rec_path a.1;
  co_reference : rec_reference b.1 = rec_reference a.1;
  co_frame : ∀ p, p ≠ rec_path a.1 → b.2 !! p = a.2 !! p;
  co_step : flawless (rec_requests a.1) (rec_requests b.1) → in_step a → in_step b;
}.

#[global] Instance continues_preorder : PreOrder continues.
Proof.
  split; [intros a; by split|]. intros a b c [N1 P1 R1 F1 S1] [N2 P2 R2 F2 S2]. split; [lia|congruence|congruence|..].
  - intros p Hp. rewrite F2 by congruence. by apply F1.
  - intros Hf Ha. apply S2; [intros i Hi; apply Hf; lia|]. apply S1; [intros i Hi; apply Hf; lia|done].
Qed.

(** A failed request names the volume. *)
Definition refused_at (m n : nat) : Prop := ∃ i, (m <= i < n)%nat ∧ disk i ≠ Done.

Lemma refused_weaken m m' n n' : refused_at m' n' → (m <= m')%nat → (n' <= n)%nat → refused_at m n.
Proof. intros (i & Hi & Hd) ??. exists i. split; [lia|done]. Qed.

Lemma store_spec data r v res x :
  store data (r, v) = (res, x) →
  rec_requests x.1 = S (rec_requests r) ∧ rec_path x.1 = rec_path r ∧ rec_reference x.1 = rec_reference r ∧
  rec_key x.1 = rec_key r ∧ rec_digested x.1 = rec_digested r ∧ rec_closed x.1 = rec_closed r ∧
  rec_bytes_in x.1 = rec_bytes_in r ∧ rec_bytes_out x.1 = rec_bytes_out r ∧
  (∀ p, p ≠ rec_path r → x.2 !! p = v !! p) ∧
  (res = Ok tt ∧ rec_held x.1 = "" ∧
     x.2 !! rec_path r = Some (default "" (v !! rec_path r) +:+ rec_held r +:+ data) ∨
   res = Raise OSError ∧ disk (rec_requests r) ≠ Done).
Proof.
  unfold store. destruct (disk (rec_requests r)) as [|landed held] eqn:E; intros [= <- <-]; cbn; split_and!; try done.
  1,3: intros p Hp; by apply lookup_insert_ne.
  - left. split_and!; [done..|]. etrans; [apply lookup_insert_eq|]. by rewrite of_chars_chars.
  - right. done.
Qed.

Lemma write_run d data r v w :
  data ≠ "" →
  ∃ s res x w', write d data r v w = (Ok (res, x), w') ∧ later w w' ∧ instant w w' None s.1.1 ∧
    continues (r, v) x ∧ rec_key x.1 = rec_key r ∧ rec_closed x.1 = rec_closed r ∧
    (res = Ok tt ∧ (in_step (r, v) → in_step x) ∧
       rec_digested x.1 = rec_digested r +:+ stamped_line (rec_key r) s (d, data) ∧
       rec_bytes_in x.1 = rec_bytes_in r + bytes_in [(d, data)] ∧
       rec_bytes_out x.1 = rec_bytes_out r + bytes_out [(d, data)] ∨
     res = Raise OSError ∧ refused_at (rec_requests r) (rec_requests x.1)).
Proof.
  intros Hd. unfold write. rewrite decide_False by done.
  set (r0 := if decide (d = Input) then _ else _).
  exists (w_clock w, w_draws (advance w), epoch (w_clock (drawn (advance w)))).
  unfold time_time. run.
  assert (later w (advance (drawn (advance w)))) as Hlater
    by (etrans; [apply later_advance|]; etrans; [apply later_drawn|apply later_advance]).
  assert (instant w (advance (drawn (advance w))) None (w_clock w)) as Hinst.
  { intros Hf. cbn. destruct (later_advance w Hf) as [? Hf1].
    destruct (later_advance (drawn (advance w)) Hf1) as [? _]. cbn in *. lia. }
  assert (rec_path r0 = rec_path r ∧ rec_key r0 = rec_key r ∧ rec_digested r0 = rec_digested r ∧ rec_closed r0 = rec_closed r ∧
          rec_reference r0 = rec_reference r ∧ rec_held r0 = rec_held r ∧ rec_requests r0 = rec_requests r ∧
          rec_bytes_in r0 = rec_bytes_in r + bytes_in [(d, data)] ∧ rec_bytes_out r0 = rec_bytes_out r + bytes_out [(d, data)])
    as (Ep & Ek & Eh & Ec & Er & El & En & Ei & Eo) by (subst r0; simpl; case_decide; cbn; split_and!; try done; lia).
  destruct (store _ (r0, v)) as [res [r1 v1]] eqn:Es. apply store_spec in Es as (N & P & R & K & H & C & I & O & F & Hres).
  cbn [fst snd] in *. clearbody r0.
  destruct Hres as [(-> & Hheld & Hfile)|[-> Hbad]]; do 3 eexists; (split; [reflexivity|]); (split; [exact Hlater|]);
    (split; [exact Hinst|]).
  - assert (in_step (r, v) → in_step (r1 <| rec_digested ::= λ h, h +:+
      event_line (rec_key r0) (w_draws (advance w)) (w_clock w) (epoch (w_clock (drawn (advance w)))) d data |>, v1)) as Hstep.
    { unfold in_step. cbn. intros [Hh Hv]. split; [done|]. rewrite P, Hfile, H, Ep, Eh, El, Hh, Hv. done. }
    split; [split; cbn; [lia|congruence|congruence|intros p Hp; apply F; congruence|by intros _]|].
    split; [cbn; congruence|]. split; [cbn; congruence|]. left. split; [done|]. split; [exact Hstep|].
    cbn -[bytes_in bytes_out]. split_and!; [|lia..]. rewrite H, Eh. unfold stamped_line. cbn. by rewrite Ek.
  - assert (refused_at (rec_requests r) (rec_requests r1)) as Hb.
    { exists (rec_requests r). split; [lia|]. by rewrite <- En. }
    split; [split; cbn; [lia|congruence|congruence|intros p Hp; apply F; congruence|]|].
    { intros Hf. destruct Hb as (i & Hi & Hi2). destruct Hi2. by apply Hf. }
    split; [cbn; congruence|]. split; [cbn; congruence|]. by right.
Qed.

Lemma bytes_in_cons c l : bytes_in (c :: l) = bytes_in [c] + bytes_in l.
Proof. unfold bytes_in. cbn. case_decide; lia. Qed.
Lemma bytes_out_cons c l : bytes_out (c :: l) = bytes_out [c] + bytes_out l.
Proof. unfold bytes_out. cbn. case_decide; lia. Qed.

Lemma write_all_run l : ∀ r v w, in_step (r, v) →
  ∃ res x w', write_all l r v w = (Ok (res, x), w') ∧ later w w' ∧ continues (r, v) x ∧ rec_closed x.1 = rec_closed r ∧
    (res = Raise OSError ∧ refused_at (rec_requests r) (rec_requests x.1) ∨
     ∃ stamps, res = Ok tt ∧ length stamps = length (kept l) ∧ Forall (λ s, instant w w' None s.1.1) stamps ∧
       in_step x ∧ rec_digested x.1 = rec_digested r +:+ concat_lines (zip_with (stamped_line (rec_key r)) stamps (kept l)) ∧
       rec_bytes_in x.1 = rec_bytes_in r + bytes_in l ∧ rec_bytes_out x.1 = rec_bytes_out r + bytes_out l).
Proof.
  induction l as [|[d data] l IH]; intros r v w Hs.
  { exists (Ok tt), (r, v), w. cbn [write_all]. split_and!; try done. right. exists []. cbn. rewrite string_app_nil. split_and!; try done; lia. }
  cbn [write_all]. destruct (decide (data = "")) as [->|Hd].
  - unfold write at 1. cbn -[write_all bytes_in bytes_out].
    replace (kept ((d, "") :: l)) with (kept l) by done.
    replace (bytes_in ((d, "") :: l)) with (bytes_in l) by (cbn; by case_decide).
    replace (bytes_out ((d, "") :: l)) with (bytes_out l) by (cbn; by case_decide). by apply IH.
  - destruct (write_run d data r v w Hd) as (s & res & [r1 v1] & w1 & E1 & L1 & I1 & C1 & K1 & Cl1 & Hres).
    rewrite (bind_ok _ _ _ _ _ E1). cbn [fst snd] in *.
    destruct Hres as [(-> & S1 & Eh1 & Ei1 & Eo1)|[-> Hbad]]; [|by do 3 eexists; split_and!; eauto].
    destruct (IH r1 v1 w1 (S1 Hs)) as (res & x & w' & E & L & C & Cl & Hres). exists res, x, w'.
    split; [exact E|]. split; [by etrans|]. split; [by etrans|]. split; [congruence|].
    destruct Hres as [[-> Hbad]|(stamps & -> & Hl & HI & S & Eh & Ei & Eo)].
    { left. split; [done|]. eapply refused_weaken; [exact Hbad|apply C1|done]. }
    right. exists (s :: stamps). split; [done|].
    replace (kept ((d, data) :: l)) with ((d, data) :: kept l) by (unfold kept; by rewrite filter_cons_True).
    split; [cbn; lia|]. split.
    { constructor; [by eapply (instant_weaken w w w1 w')|].
      eapply Forall_impl; [exact HI|]. intros y Hy. by eapply (instant_weaken w w1 w' w'). }
    split; [done|]. rewrite Eh, Eh1, K1, string_app_assoc, (bytes_in_cons _ l), (bytes_out_cons _ l).
    split_and!; [done|lia..].
Qed.

(** [close] reports what was absorbed, or fails because the volume refuses; it changes no
    file but the one of the recording, and that one only if the buffer held something. *)
Lemma close_run r v :
  ∃ res r' v', close r v = (res, (r', v')) ∧ (∀ p, p ≠ rec_path r → v' !! p = v !! p) ∧ (rec_held r = "" → v' = v) ∧
    (res = Ok (CloseReport (rec_reference r) (hexdigest (sha256 (bytes_of (rec_digested r)))) (rec_bytes_in r) (rec_bytes_out r)) ∨
     res = Raise OSError ∧ ∃ i, disk i ≠ Done).
Proof.
  unfold close, seal. cbn [fst snd]. destruct (rec_closed r); [do 3 eexists; split_and!; eauto|].
  destruct (if decide (rec_held r = "") then _ else _) as [flushed [r1 v1]] eqn:Ef.
  assert ((∀ p, p ≠ rec_path r → v1 !! p = v !! p) ∧ (rec_held r = "" → v1 = v) ∧
    rec_reference r1 = rec_reference r ∧ rec_digested r1 = rec_digested r ∧ rec_bytes_in r1 = rec_bytes_in r ∧
    rec_bytes_out r1 = rec_bytes_out r ∧ (flushed = Ok tt ∨ flushed = Raise OSError ∧ ∃ i, disk i ≠ Done))
    as (F & Hv & R & H & I & O & Hfl).
  { case_decide as Hh; [injection Ef as <- <- <-; split_and!; eauto|].
    apply store_spec in Ef as (_ & _ & R & _ & H & _ & I & O & F & Hres). cbn [fst snd] in *.
    split_and!; try done. destruct Hres as [(-> & _)|[-> ?]]; eauto. }
  destruct Hfl as [-> | [-> Hbad]]; [|do 3 eexists; split_and!; eauto].
  unfold request. destruct (disk (rec_requests r1)) eqn:E1;
    [|do 3 eexists; split_and!; eauto; right; split; [done|]; exists (rec_requests r1); by rewrite E1].
  cbn. destruct (disk (S (rec_requests r1))) eqn:E2; do 3 eexists; (split; [reflexivity|]); (split; [done|]);
    (split; [done|]).
  - left. cbn. by rewrite R, H, I, O.
  - right. split; [done|]. exists (S (rec_requests r1)). by rewrite E2.
Qed.

(** C32: A recording is read back as it was written.  Let a recorder open the file of a
    session and write chunks.  Either the volume refuses a request and a write raises
    its [OSError], or every write succeeds; then the web node with the same key and
    directory reads, up to its limit, exactly the non-empty chunks in their order, each
    with the instant it was written, its direction, its text and its size.  Closing the
    recorder leaves the file as it is, and reports the SHA-256 of the file and the
    number of bytes in each direction, or raises an [OSError] of the volume. *)
Theorem recording_round_trip session_id v w l r v1 :
  let reference := session_id +:+ ".pamrec" in
  let base := resolve PAMOLIVE_RECORDING_DIR in
  reference_ok reference = true →
  resolve (base ++ [reference]) = base ++ [reference] →
  open_recorder Available base session_id PAMOLIVE_RECORDING_KEY v = (Ok r, v1) →
  ∃ res r2 v2 w2, write_all l r v1 w = (Ok (res, (r2, v2)), w2) ∧
   (res = Raise OSError ∧ (∃ i, disk i ≠ Done) ∨
    res = Ok tt ∧ ∃ times content,
    length times = length (kept l) ∧ Forall (instant w w2 None) times ∧
    (∀ limit, read_recording_events reference limit v2 = Ok (take limit (zip_with recorded_event times (kept l)))) ∧
    v2 !! (base ++ [reference]) = Some content ∧ (close r2 v2).2.2 = v2 ∧
    ((close r2 v2).1 = Ok (CloseReport reference (hexdigest (sha256 (bytes_of content))) (bytes_in l) (bytes_out l)) ∨
     (close r2 v2).1 = Raise OSError ∧ ∃ i, disk i ≠ Done)).
Proof.
  intros reference base Href Hres Hopen. unfold open_recorder in Hopen. fold reference base in Hopen.
  case_decide as Hfree; [done|]. rewrite decide_False in Hopen by done.
  destruct (Z.ltb_spec (len PAMOLIVE_RECORDING_KEY) 32) as [|Hkey]; [done|]. injection Hopen as <- <-.
  destruct (write_all_run l (Recorder reference (base ++ [reference]) PAMOLIVE_RECORDING_KEY "" "" 0 false 0 0)
    (<[base ++ [reference] := ""]> v) w) as (res & [r2 v2] & w2 & E & _ & C & _ & Hwritten).
  { split; [done|]. apply lookup_insert_eq. }
  exists res, r2, v2, w2. split; [exact E|]. cbn [fst snd] in *.
  destruct Hwritten as [[-> (i & _ & Hi)]|(stamps & -> & Hlen & HI & [Hh Hv] & Eh & Ei & Eo)]; [left; eauto|].
  right. split; [done|]. pose proof (co_path _ _ C) as Ep. cbn in *. rewrite Ep in Hv.
  exists (stamps.*1.*1), (rec_digested r2). rewrite !length_fmap.
  split; [done|]. split; [by rewrite !Forall_fmap|]. split; [|split; [done|]].
  - intros limit. unfold read_recording_events, recording_path. fold base.
    rewrite decide_False by (intros Hk; by rewrite Hk in Hkey).
    rewrite Href, Hres. cbn [negb]. replace (in_parents base (base ++ [reference])) with true.
    2:{ symmetry. unfold in_parents. rewrite take_app_length, bool_decide_true by done.
        rewrite length_app. simpl. apply Nat.ltb_lt. lia. }
    rewrite Hv. rewrite (proj2 (Z.ltb_ge _ _)) by done. rewrite Eh. by apply stamped_lines_read.
  - destruct (close_run r2 v2) as (closed & r3 & v3 & -> & _ & Hv3 & Hclosed). cbn. split; [by apply Hv3|].
    destruct Hclosed as [-> |?]; [left|by right]. pose proof (co_reference _ _ C) as Er. cbn in Er. by rewrite Er, Ei, Eo.
Qed.

(** No text of a recording outside the directory is ever read: the path that is
    opened lies below the resolved directory, whatever the reference. *)
Lemma recording_path_confined reference p :
  recording_path reference = Ok p →
  ∃ name rest, p = resolve PAMOLIVE_RECORDING_DIR ++ name :: rest.
Proof.
  unfold recording_path, in_parents. set (base := resolve PAMOLIVE_RECORDING_DIR).
  set (q := resolve (base ++ [reference])). case_match; [done|].
  destruct (bool_decide_reflect (take (length base) q = base)) as [Ht|]; [|done].
  destruct (Nat.ltb_spec (length base) (length q)) as [Hl|]; [|done]. intros [= <-].
  destruct (drop (length base) q) as [|name rest] eqn:Ed.
  - apply (f_equal length) in Ed. rewrite length_drop in Ed. simpl in Ed. lia.
  - exists name, rest. by rewrite <- Ed, <- Ht at 1; rewrite take_drop.
Qed.

(** The digest of the report is not consulted on reading: a line taken out of a
    readable recording leaves a recording that is read without an error, one event
    shorter. *)
Lemma removed_line_unnoticed key before line after events :
  read_lines key (before ++ line :: after) = Ok events →
  ∃ e1 e e2, events = e1 ++ e :: e2 ∧ read_event key line = Ok e ∧
             read_lines key (before ++ after) = Ok (e1 ++ e2).
Proof.
  revert events. induction before as [|b before IH]; intros events; cbn [app read_lines].
  - destruct (read_event key line) as [e|] eqn:Ee; [|done].
    destruct (read_lines key after) as [e2|] eqn:Er; [|done]. intros [= <-].
    by exists [], e, e2.
  - destruct (read_event key b) as [e0|]; [|done].
    destruct (read_lines key (before ++ line :: after)) as [es|]; [|done]. intros [= <-].
    destruct (IH es eq_refl) as (e1 & e & e2 & -> & ? & ->). by exists (e0 :: e1), e, e2.
Qed.
End round_trip.

(** ** A concrete recording *)

Section witnesses.

(** A stand-in for Fernet with its token format: two letters per byte. *)
#[local] Instance letters_fernet : Fernet := {|
  fernet_encrypt key n t m :=
    of_chars (mbind (λ c, [chr (65 + code c / 16); chr (65 + code c mod 16)]) (chars m));
  fernet_decrypt key t token := None;
|}.

Fixpoint read_letters (l : list ascii) : option (list ascii) :=
  match l with
  | [] => Some []
  | a :: b :: l' => r ← read_letters l'; Some (chr (16 * (code a - 65) + (code b - 65)) :: r)
  | _ => None
  end.

#[local] Instance letters_reader : FernetReader := λ key token, of_chars <$> read_letters (chars token).

#[local] Instance letters_laws : FernetReaderLaws.
Proof.
  split; intros key n t m; cbn.
  - unfold fernet_read, letters_reader. rewrite chars_of_chars. rewrite <- (of_chars_chars m) at 2.
    induction (chars m) as [|c l IH]; [done|]. pose proof (code_range c).
    cbn [mbind list_bind app read_letters]. rewrite !code_chr by digits.
    replace (16 * (65 + code c / 16 - 65) + (65 + code c mod 16 - 65)) with (code c) by digits.
    rewrite chr_code. revert IH.
    destruct (read_letters _); [|done]. cbn. intros [= IH]. by rewrite IH.
  - rewrite chars_of_chars. induction (chars m) as [|c l IH]; [done|]. pose proof (code_range c).
    cbn [mbind list_bind app forallb]. rewrite IH. unfold b64url_char. rewrite !code_chr by digits.
    rewrite !(between_true 65) by digits. by rewrite !orb_true_r.
Qed.

#[local] Instance demo_recording_host : RecordingHost := {|
  PAMOLIVE_RECORDING_KEY := "0123456789abcdef0123456789abcdef";
  PAMOLIVE_RECORDING_DIR := ["recordings"];
  resolve p := p;
|}.

Definition demo_session : string := "00000000-0000-0000-0000-000000000001".
Definition demo_recording_world : world := World empty_db (seconds 1700000000) [seconds 1] 0 ∅.
Definition demo_chunks : list (direction * string) :=
  [(Input, "ls"); (Input, ""); (Stdout, encode (of_chars [chr 233]))].

#[local] Instance sound_disk : Disk := λ _, Done.

Definition demo_recorder : recorder :=
  Recorder (demo_session +:+ ".pamrec") ["recordings"; demo_session +:+ ".pamrec"] PAMOLIVE_RECORDING_KEY "" "" 0 false 0 0.
Definition demo_volume : volume := {[ ["recordings"; demo_session +:+ ".pamrec"] := "" ]}.

(** On a volume that takes every write. *)
Lemma recording_round_trip_witness :
  ∃ times r2 v2 w2 content,
    write_all demo_chunks demo_recorder demo_volume demo_recording_world = (Ok (Ok tt, (r2, v2)), w2) ∧
    length times = 2%nat ∧ Forall (instant demo_recording_world w2 None) times ∧
    (∀ limit, read_recording_events (demo_session +:+ ".pamrec") limit v2 =
       Ok (take limit (zip_with recorded_event times (kept demo_chunks)))) ∧
    v2 !! ["recordings"; demo_session +:+ ".pamrec"] = Some content ∧
    (close r2 v2).1 = Ok (CloseReport (demo_session +:+ ".pamrec") (hexdigest (sha256 (bytes_of content))) 2 2).
Proof.
  destruct (recording_round_trip demo_session ∅ demo_recording_world demo_chunks demo_recorder demo_volume)
    as (res & r2 & v2 & w2 & E & [[_ (i & Hi)]|(-> & times & content & H1 & H2 & H3 & H4 & _ & H5)]).
  - reflexivity.
  - reflexivity.
  - reflexivity.
  - by destruct Hi.
  - exists times, r2, v2, w2, content. split; [exact E|]. do 4 (split; [assumption|]).
    destruct H5 as [H5|[_ (i & Hi)]]; [exact H5|by destruct Hi].
Defined.

(** Replay shows the chunks; the empty one left no line. *)
Example demo_replay :
  match write_all demo_chunks demo_recorder demo_volume demo_recording_world with
  | (Ok (Ok _, (_, v)), _) => recording_text_export (demo_session +:+ ".pamrec") v
  | _ => Raise Http404
  end =
  Ok (points ("[2023-11-14T22:13:20+00:00] INPUT" +:+ line_feed +:+ "ls" +:+ line_feed +:+
              "[2023-11-14T22:13:21+00:00] STDOUT" +:+ line_feed) ++ [233; 10]).
Proof. vm_compute. reflexivity. Qed.
End witnesses.

(** A write that the volume refused once is still written later: the line waited in the
    buffer, the digest never absorbed it, and the report seals a file that it does not
    describe. *)
Section refused_write.
#[local] Existing Instance letters_fernet.
#[local] Existing Instance letters_reader.
#[local] Existing Instance demo_recording_host.
#[local] Instance full_once : Disk := λ n, if decide (n = 0%nat) then Failed 0 1000 else Done.

Definition sealed_after_refusal : outcome close_report * option string := Eval vm_compute in
  match write Stdout "secret" demo_recorder demo_volume demo_recording_world with
  | (Ok (_, (r, v)), _) => let '(report, (_, v)) := close r v in (report, v !! rec_path r)
  | _ => (Raise Http404, None)
  end.

Lemma refused_line_not_digested : ∃ report content,
  sealed_after_refusal = (Ok report, Some content) ∧ cr_recording_sha256 report = hexdigest (sha256 []) ∧
  cr_recording_sha256 report ≠ hexdigest (sha256 (bytes_of content)) ∧
  match read_recording_events (demo_session +:+ ".pamrec") 1 {[ ["recordings"; demo_session +:+ ".pamrec"] := content ]} with
  | Ok [e] => ev_text e = points "secret"
  | _ => False
  end.
Proof.
  do 2 eexists. split; [reflexivity|]. split; [vm_compute; reflexivity|]. split; [vm_compute; discriminate|].
  vm_compute. reflexivity.
Qed.
End refused_write.
