(* ===== verification/Outbound.v ===== *)
(** * Outbound destinations and SIEM forwarding ([pamolive/common/outbound.py],
    [pamolive/audit/siem.py], [pamolive/audit/tasks.py])

    The guard that keeps the server from calling private addresses, with the parts of
    [urllib.parse] and [ipaddress] it uses, and the delivery of audit events to the
    configured collectors.  Name resolution and the transports are parameters. *)

From S2P Require Import Prelude PyStr Json Loads Crypto PyTime Models World Text AuditTrail Ip Vault.

Local Open Scope Z_scope.

(** ** [urllib.parse.urlparse] *)

Record url := Url {
  url_scheme : string;
  url_hostname : option string;
  url_username : option string;
  url_password : option string;
  url_port_text : option string;
}.

Definition is_alpha (c : ascii) : bool := between 65 (code c) 90 || between 97 (code c) 122.
Definition scheme_char (c : ascii) : bool :=
  is_alpha c || is_ascii_digit c || bool_decide (c ∈ ["+"; "-"; "."]%char).

(** The scheme, in lower case, and the rest; no scheme leaves the text alone. *)
Definition split_scheme (l : list ascii) : list ascii * list ascii :=
  let '(scheme, sep, rest) := partition_char ":" l in
  match scheme with
  | c :: _ => if sep && is_alpha c && forallb scheme_char scheme then (lower_char <$> scheme, rest) else ([], l)
  | [] => ([], l)
  end.

(** [rpartition(c)]: before the last occurrence, whether there is one, after it. *)
Definition rpartition_char (c : ascii) (l : list ascii) : list ascii * bool * list ascii :=
  let '(h, sep, t) := partition_char c (rev l) in
  if sep then (rev t, true, rev h) else ([], false, l).

Definition take_while_not (stop : list ascii) (l : list ascii) : list ascii :=
  take (length l - length (drop_while (λ c, negb (bool_decide (c ∈ stop))) l)) l.

(** [_check_bracketed_host]: an IPv6 address or a future address literal. *)
Definition future_literal (r : list ascii) : bool :=
  let '(hex, sep, rest) := partition_char "." r in
  sep && bool_decide (hex ≠ []) && forallb (λ c, bool_decide (is_Some (hex_value c))) hex
  && bool_decide (rest ≠ []).

Definition bracketed_ok (l : list ascii) : bool :=
  match l with
  | "v"%char :: r => future_literal r
  | _ => match ip_address (of_chars l) with Some (IPv6 _ _) => true | _ => false end
  end.

(** [_check_bracketed_netloc] *)
Definition bracketed_netloc_ok (netloc : list ascii) : bool :=
  let hostinfo := (rpartition_char "@" netloc).2 in
  let '(before, sep, after) := partition_char "[" hostinfo in
  if sep then
    let '(host, _, port) := partition_char "]" after in
    bool_decide (before = []) && bool_decide (port = [] ∨ head port = Some ":"%char) && bracketed_ok host
  else bracketed_ok (partition_char ":" hostinfo).1.1.

Definition none_if_empty (l : list ascii) : option string := if decide (l = []) then None else Some (of_chars l).

(** The host, in lower case up to a zone, and the text of the port. *)
Definition host_and_port (hostinfo : list ascii) : option string * option string :=
  let '(_, bracket, bracketed) := partition_char "[" hostinfo in
  let '(host, port) :=
    if bracket then
      let '(host, _, port) := partition_char "]" bracketed in (host, (partition_char ":" port).2)
    else let '(host, _, port) := partition_char ":" hostinfo in (host, port) in
  let '(name, sep, zone) := partition_char "%" host in
  (none_if_empty ((lower_char <$> name) ++ (if sep then ["%"%char] else []) ++ zone), none_if_empty port).

(** [urlparse(s)]; [None] for the [ValueError]. *)
Definition urlparse (s : string) : option url :=
  let l := filter (λ c, c ∉ [chr 9; chr 10; chr 13]) (drop_while (λ c, code c <=? 32) (chars s)) in
  let '(scheme, rest) := split_scheme l in
  match rest with
  | "/"%char :: "/"%char :: r =>
      let netloc := take_while_not ["/"; "?"; "#"]%char r in
      let opens := existsb (λ c, bool_decide (c = "["%char)) netloc in
      let closes := existsb (λ c, bool_decide (c = "]"%char)) netloc in
      if xorb opens closes || (opens && closes && negb (bracketed_netloc_ok netloc)) then None
      else
        let '(userinfo, have_info, hostinfo) := rpartition_char "@" netloc in
        let '(host, port) := host_and_port hostinfo in
        let '(name, have_password, password) := partition_char ":" userinfo in
        Some (Url (of_chars scheme) host
                (if have_info then Some (of_chars name) else None)
                (if have_info && have_password then Some (of_chars password) else None) port)
  | _ => Some (Url (of_chars scheme) None None None None)
  end.

(** [parsed.port]: [None] when absent; a text that is not a port is a [ValueError]. *)
Definition url_port (u : url) : outcome (option Z) :=
  match url_port_text u with
  | None => Ok None
  | Some t =>
      if forallb is_ascii_digit (chars t) then
        match int_digits 0 (chars t) with
        | Some n => if n <=? 65535 then Ok (Some n) else Raise (ValueError "Port out of range 0-65535")
        | None => Raise (ValueError "Port could not be cast to integer value")
        end
      else Raise (ValueError "Port could not be cast to integer value")
  end.

Example urlparse_ex :
  urlparse "HTTPS://User:pw@Siem.Example.org:8443/in?x#y" =
    Some (Url "https" (Some "siem.example.org") (Some "User") (Some "pw") (Some "8443")) ∧
  urlparse "https://[2001:DB8::1]/" = Some (Url "https" (Some "2001:db8::1") None None None) ∧
  urlparse "https://[nope]/" = None ∧ urlparse "https:///x" = Some (Url "https" None None None None) ∧
  urlparse "mailto:a@b" = Some (Url "mailto" None None None None).
Proof. vm_compute. repeat split. Qed.

(** ** Global addresses ([ipaddress], Python 3.12) *)

Definition net4 (a b c d p : Z) : ip_network := IPNetwork 4 (((a * 256 + b) * 256 + c) * 256 + d) p.
(** An IPv6 network by the first four hextets of its address. *)
Definition net6 (a b c d p : Z) : ip_network :=
  IPNetwork 6 ((((a * 65536 + b) * 65536 + c) * 65536 + d) * 2 ^ 64) p.

Definition private_networks_4 : list ip_network :=
  [net4 0 0 0 0 8; net4 10 0 0 0 8; net4 127 0 0 0 8; net4 169 254 0 0 16; net4 172 16 0 0 12;
   net4 192 0 0 0 24; net4 192 0 0 170 31; net4 192 0 2 0 24; net4 192 168 0 0 16; net4 198 18 0 0 15;
   net4 198 51 100 0 24; net4 203 0 113 0 24; net4 240 0 0 0 4; net4 255 255 255 255 32].
Definition private_exceptions_4 : list ip_network := [net4 192 0 0 9 32; net4 192 0 0 10 32].
Definition shared_network : ip_network := net4 100 64 0 0 10.

Definition private_networks_6 : list ip_network :=
  [IPNetwork 6 1 128; IPNetwork 6 0 128; IPNetwork 6 (0xFFFF * 2 ^ 32) 96; net6 0x64 0xFF9B 1 0 48;
   net6 0x100 0 0 0 64; net6 0x2001 0 0 0 23; net6 0x2001 0xDB8 0 0 32; net6 0x2002 0 0 0 16;
   net6 0x3FFF 0 0 0 20; net6 0xFC00 0 0 0 7; net6 0xFE80 0 0 0 10].
Definition private_exceptions_6 : list ip_network :=
  [IPNetwork 6 (0x20010001 * 2 ^ 96 + 1) 128; IPNetwork 6 (0x20010001 * 2 ^ 96 + 2) 128;
   net6 0x2001 3 0 0 32; net6 0x2001 4 0x112 0 48; net6 0x2001 0x20 0 0 28; net6 0x2001 0x30 0 0 28].

Definition in_any (a : ip_addr) (l : list ip_network) : bool := existsb (ip_in_network a) l.

(** The IPv4 address an IPv4-mapped IPv6 address stands for. *)
Definition ipv4_mapped (a : ip_addr) : option ip_addr :=
  match a with
  | IPv6 v _ => if v / 2 ^ 32 =? 0xFFFF then Some (IPv4 (v mod 2 ^ 32)) else None
  | IPv4 _ => None
  end.

Definition is_private_4 (a : ip_addr) : bool :=
  in_any a private_networks_4 && negb (in_any a private_exceptions_4).

Definition is_private (a : ip_addr) : bool :=
  match a with
  | IPv4 _ => is_private_4 a
  | IPv6 _ _ =>
      match ipv4_mapped a with
      | Some b => is_private_4 b
      | None => in_any a private_networks_6 && negb (in_any a private_exceptions_6)
      end
  end.

Definition is_global (a : ip_addr) : bool :=
  match a with
  | IPv4 _ => negb (ip_in_network a shared_network) && negb (is_private a)
  | IPv6 _ _ => negb (is_private a)
  end.

Example is_global_ex :
  (λ s, is_global <$> ip_address s) <$>
    ["8.8.8.8"; "10.1.2.3"; "127.0.0.1"; "169.254.169.254"; "100.64.0.1"; "192.0.0.9"; "::1"; "fe80::1";
     "fd00::1"; "::ffff:10.0.0.1"; "2606:4700::1"] =
  [Some true; Some false; Some false; Some false; Some false; Some true; Some false; Some false;
   Some false; Some false; Some true].
Proof. vm_compute. reflexivity. Qed.

(** ** The guard ([outbound.py]) *)

(** Name resolution ([None] for [socket.gaierror]) and the settings. *)
Class OutboundEnv := {
  getaddrinfo : string → Z → option (list string);
  PAMOLIVE_OUTBOUND_ALLOWED_CIDRS : list string;
  PAMOLIVE_OUTBOUND_ALLOW_UNRESOLVED_HOSTS : bool;
}.

Section guard.
Context {OE : OutboundEnv}.

Fixpoint networks_of (l : list string) : outcome (list ip_network) :=
  match l with
  | [] => Ok []
  | value :: rest =>
      match ip_network_of value with
      | None => Raise (ValidationError ("CIDR sortant invalide : " +:+ value +:+ "."))
      | Some n => match networks_of rest with Ok ns => Ok (n :: ns) | Raise e => Raise e end
      end
  end.

Definition _allowed_networks : outcome (list ip_network) := networks_of PAMOLIVE_OUTBOUND_ALLOWED_CIDRS.

Fixpoint check_addresses (allowed : list ip_network) (addresses : list string) : outcome unit :=
  match addresses with
  | [] => Ok tt
  | value :: rest =>
      match ip_address value with
      | None => Raise (ValueError "does not appear to be an IPv4 or IPv6 address")
      | Some address =>
          if existsb (ip_in_network address) allowed then check_addresses allowed rest
          else if negb (is_global address)
          then Raise (ValidationError "La destination sortante utilise une adresse spéciale ou privée non autorisée.")
          else check_addresses allowed rest
      end
  end.

Definition validate_outbound_host (hostname : string) (port : Z) : outcome unit :=
  match getaddrinfo hostname port with
  | None =>
      if PAMOLIVE_OUTBOUND_ALLOW_UNRESOLVED_HOSTS then Ok tt
      else Raise (ValidationError "La destination sortante ne peut pas être résolue.")
  | Some addresses =>
      match _allowed_networks with
      | Raise e => Raise e
      | Ok allowed => check_addresses allowed addresses
      end
  end.

Definition text_truthy (s : option string) : bool := match s with Some t => bool_decide (t ≠ "") | None => false end.

Definition invalid_url : exn :=
  ValidationError "L’URL sortante est invalide ou utilise un protocole non autorisé.".

Definition validate_outbound_url (value : string) (schemes : list string) : outcome unit :=
  match urlparse value with
  | None => Raise (ValueError "Invalid IPv6 URL")
  | Some parsed =>
      match url_hostname parsed with
      | None => Raise invalid_url
      | Some host =>
          if negb (bool_decide (url_scheme parsed ∈ schemes)) || text_truthy (url_username parsed)
             || text_truthy (url_password parsed)
          then Raise invalid_url
          else
            match url_port parsed with
            | Raise e => Raise e
            | Ok port =>
                let default_port := if decide (url_scheme parsed = "https") then 443 else 80 in
                validate_outbound_host host
                  (match port with Some 0 | None => default_port | Some p => p end)
            end
      end
  end.
End guard.

(** ** SIEM delivery ([siem.py]) *)

(** The transports: an HTTPS request to a URL with its headers and body, and a framed
    message to a host over TLS.  They succeed or raise; [error_text] is
    [f"{type(exc).__name__}: {exc}"], and [is_retried] holds of [OSError] and
    [RequestException]. *)
Class SiemTransport := {
  https_post : string → list (string * string) → json → outcome unit;
  tls_send : string → Z → string → outcome unit;
  error_text : exn → string;
  is_retried : exn → bool;
}.

Section siem.
Context {PF : Platform} {OE : OutboundEnv} {ST : SiemTransport}.

Definition username_of (d : db) (actor : option id) : json :=
  match actor with
  | Some k => match users d !! k with Some u => JStr (u_username u) | None => JNull end
  | None => JNull
  end.

Definition opt_str (s : option string) : json := match s with Some t => JStr t | None => JNull end.

Definition event_payload (d : db) (event : obj audit_event) : json :=
  let e := val event in
  JObj [("schema", JStr "pam-olive.audit.v1");
        ("id", JStr (str_uuid (pk event)));
        ("sequence", JInt (e_sequence e));
        ("occurred_at", JStr (isoformat (e_occurred_at e)));
        ("actor", username_of d (e_actor e));
        ("action", JStr (e_action e));
        ("resource_type", JStr (e_resource_type e));
        ("resource_id", JStr (e_resource_id e));
        ("source_ip", opt_str (e_source_ip e));
        ("metadata", redact_metadata (JObj (e_metadata e)));
        ("previous_hash", JStr (e_previous_hash e));
        ("event_hash", JStr (e_event_hash e));
        ("signature", JStr (e_signature e))].

Definition _auth_token (i : siem_integration) : M string :=
  if decide (si_encrypted_auth_token i = "") then mret ""
  else decrypt (si_encrypted_auth_token i) (si_key_id i).

Definition _send_https (i : siem_integration) (payload : json) : M unit :=
  of_outcome (validate_outbound_url (si_endpoint i) ["https"]) ;;
  token ← _auth_token i;
  let headers := [("Content-Type", "application/json"); ("User-Agent", "PAM-olive-SIEM/1")]
                 ++ (if decide (token = "") then [] else [("Authorization", "Bearer " +:+ token)]) in
  of_outcome (https_post (si_endpoint i) headers payload).

(** The octet-counted syslog frame (RFC 6587). *)
Definition syslog_frame (payload : json) (occurred_at : string) : string :=
  let message := encode ("<134>1 " +:+ occurred_at +:+ " pam-olive audit - - - " +:+ dumps payload) in
  encode (str_int (len message)) +:+ " " +:+ message.

Definition _send_syslog_tls (i : siem_integration) (payload : json) (occurred_at : string) : M unit :=
  of_outcome (validate_outbound_host (si_host i) (si_port i)) ;;
  of_outcome (tls_send (si_host i) (si_port i) (syslog_frame payload occurred_at)).

(** [SIEMDelivery.objects.update_or_create(integration=..., event=..., defaults=...)] *)
Definition delivery_of (d : db) (integration event : id) : option (obj siem_delivery) :=
  List.find (λ o, bool_decide (sd_integration (val o) = integration) && bool_decide (sd_event (val o) = event))
    (rows (siem_deliveries d)).

Definition update_or_create_delivery (v : siem_delivery) : M unit :=
  found ← asks (λ d, delivery_of d (sd_integration v) (sd_event v));
  match found with
  | Some o => save_fields siem_deliveries (pk o) (λ _, v)
  | None => k ← uuid4; insert_row siem_deliveries k v
  end.

Definition note_delivery (integration : id) (at_ : Z) (status : delivery_status) (error : string) : M unit :=
  update_where siem_integrations (λ o, bool_decide (pk o = integration))
    (λ i, i <| si_last_delivery_at := Some at_ |> <| si_last_status := Some status |> <| si_last_error := error |>).

Definition send_payload (i : siem_integration) (event : obj audit_event) (payload : json) : M unit :=
  if decide (si_kind i = HTTPS_WEBHOOK) then _send_https i payload
  else _send_syslog_tls i payload (isoformat (e_occurred_at (val event))).

Definition deliver_event (integration : obj siem_integration) (event : obj audit_event) : M unit :=
  payload ← asks (λ d, event_payload d event);
  let payload_hash := sha256_hex (dumps payload) in
  at_ ← now;
  failure ← try_except (send_payload (val integration) event payload ;; mret None) (λ e, Some (mret (Some e)));
  match failure with
  | Some exc =>
      let error := slice_to 500 (error_text exc) in
      update_or_create_delivery
        (SIEMDelivery (pk integration) (pk event) at_ None DELIVERY_FAILED payload_hash error) ;;
      note_delivery (pk integration) at_ DELIVERY_FAILED error ;;
      raise exc
  | None =>
      update_or_create_delivery
        (SIEMDelivery (pk integration) (pk event) at_ (Some at_) DELIVERED payload_hash "") ;;
      note_delivery (pk integration) at_ DELIVERED ""
  end.

(** ** The task ([tasks.py]) *)

Definition name_order (a b : obj siem_integration) : Prop :=
  String.leb (si_name (val a)) (si_name (val b)) = true.
#[local] Instance name_order_dec a b : Decision (name_order a b).
Proof. unfold name_order. apply _. Defined.

Definition enabled_integrations (d : db) : list (obj siem_integration) :=
  merge_sort name_order (objects_filter (λ o, si_enabled (val o)) (siem_integrations d)).

Definition forward_audit_event (event_id : id) : M unit :=
  event ← get_row audit_events "AuditEvent" event_id;
  integrations ← asks enabled_integrations;
  for_each integrations (λ i, deliver_event i event).

(** The worker: a retried exception runs the task again, [retries] times at most. *)
Fixpoint run_forwarding (retries : nat) (event_id : id) : M unit := λ w,
  match forward_audit_event event_id w with
  | (Raise e, w') =>
      match retries with
      | S n => if is_retried e then run_forwarding n event_id w' else (Raise e, w')
      | O => (Raise e, w')
      end
  | r => r
  end.

Definition max_retries : nat := 5.
End siem.

(** ** What the guard lets through *)

Section guard_facts.
Context {OE : OutboundEnv}.

(** Every address the name resolves to is in a network of the allow list or is
    globally routable. *)
Definition destination_allowed (address : string) : Prop :=
  ∃ ip, ip_address address = Some ip ∧
    ((∃ cidr n, cidr ∈ PAMOLIVE_OUTBOUND_ALLOWED_CIDRS ∧ ip_network_of cidr = Some n ∧ ip_in_network ip n = true) ∨
     is_global ip = true).

Lemma networks_of_spec l ns : networks_of l = Ok ns → ∀ n, n ∈ ns → ∃ cidr, cidr ∈ l ∧ ip_network_of cidr = Some n.
Proof.
  revert ns. induction l as [|c l IH]; intros ns; simpl.
  - intros [= <-] n Hn. set_solver.
  - destruct (ip_network_of c) as [n0|] eqn:En; [|done]. destruct (networks_of l) as [ns0|]; [|done].
    intros [= <-] n [->|Hn]%elem_of_cons; [exists c; set_solver|].
    destruct (IH _ eq_refl n Hn) as (cidr & ? & ?). exists cidr. set_solver.
Qed.

Lemma check_addresses_spec allowed l :
  check_addresses allowed l = Ok tt →
  ∀ a, a ∈ l → ∃ ip, ip_address a = Some ip ∧ (existsb (ip_in_network ip) allowed = true ∨ is_global ip = true).
Proof.
  induction l as [|v l IH]; simpl; intros H a; [set_solver|].
  destruct (ip_address v) as [ip|] eqn:Ev; [|done]. intros [->|Ha]%elem_of_cons.
  - exists ip. split; [done|]. destruct (existsb _ _); [by left|]. destruct (is_global ip); [by right|done].
  - apply IH; [|done]. destruct (existsb _ _); [done|]. by destruct (is_global ip).
Qed.

Lemma validate_host_spec host port :
  validate_outbound_host host port = Ok tt →
  match getaddrinfo host port with
  | None => PAMOLIVE_OUTBOUND_ALLOW_UNRESOLVED_HOSTS = true
  | Some addresses => ∀ a, a ∈ addresses → destination_allowed a
  end.
Proof.
  unfold validate_outbound_host, _allowed_networks. destruct (getaddrinfo host port) as [addresses|].
  - destruct (networks_of _) as [allowed|] eqn:En; [|done]. intros H a Ha.
    destruct (check_addresses_spec _ _ H a Ha) as (ip & ? & [Hin|?]); exists ip; (split; [done|]); [left|by right].
    apply existsb_elem in Hin as (n & Hn & ?). destruct (networks_of_spec _ _ En n Hn) as (cidr & ? & ?). eauto.
  - by destruct PAMOLIVE_OUTBOUND_ALLOW_UNRESOLVED_HOSTS.
Qed.

(** A shorter mask absorbs a longer one. *)
Lemma netmask_land width p q : 0 <= p <= q → q <= width → Z.land (netmask width q) (netmask width p) = netmask width p.
Proof.
  intros Hp Hq. apply Z.bits_inj'. intros k Hk. unfold netmask. rewrite Z.land_spec, !Z.shiftl_spec by lia.
  destruct (decide (k < width - p)) as [Hlt|Hge].
  - rewrite (Z.testbit_neg_r (Z.ones p)) by lia. by rewrite andb_false_r.
  - destruct (decide (k < width)).
    + rewrite !Z.ones_spec_low by lia. done.
    + rewrite !Z.ones_spec_high by lia. done.
Qed.

(** Networks whose common prefix differs have no address in common. *)
Lemma networks_disjoint a n1 n2 p :
  let width := max_prefixlen (net_version n1) in
  net_version n1 = net_version n2 → 0 <= p <= net_prefixlen n1 → p <= net_prefixlen n2 →
  net_prefixlen n1 <= width → net_prefixlen n2 <= width →
  Z.land (net_address n1) (netmask width p) ≠ Z.land (net_address n2) (netmask width p) →
  ip_in_network a n1 = true → ip_in_network a n2 = false.
Proof.
  intros width Hv Hp1 Hp2 Hw1 Hw2 Hne H1. apply not_true_iff_false. intros H2.
  unfold ip_in_network in *. rewrite <- Hv in H2. fold width in H1, H2. breflect. apply Hne.
  repeat match goal with H : Z.land (ip_int a) _ = _ |- _ => rewrite <- H; clear H end.
  rewrite <- !Z.land_assoc, !netmask_land by lia. done.
Qed.

(** Loopback, link-local (which holds the metadata services of clouds), the private
    networks of RFC 1918 and RFC 4193. *)
Definition internal_networks : list ip_network :=
  [net4 10 0 0 0 8; net4 127 0 0 0 8; net4 169 254 0 0 16; net4 172 16 0 0 12; net4 192 168 0 0 16;
   IPNetwork 6 1 128; net6 0xFC00 0 0 0 7; net6 0xFE80 0 0 0 10].

(** What makes a network private: it is in the table, and no exception of the table
    meets it. *)
Definition same_network (n m : ip_network) : bool :=
  (net_version n =? net_version m) && (net_address n =? net_address m) && (net_prefixlen n =? net_prefixlen m).
Definition apart (n x : ip_network) : bool :=
  let width := max_prefixlen (net_version n) in
  let p := Z.min (net_prefixlen n) (net_prefixlen x) in
  (net_version n =? net_version x) && (0 <=? p) && (net_prefixlen n <=? width) && (net_prefixlen x <=? width) &&
  negb (Z.land (net_address n) (netmask width p) =? Z.land (net_address x) (netmask width p)).
Definition tabled (nets exceptions : list ip_network) (n : ip_network) : bool :=
  existsb (same_network n) nets && forallb (apart n) exceptions.

Lemma tabled_private nets exceptions n a :
  tabled nets exceptions n = true → ip_in_network a n = true →
  in_any a nets && negb (in_any a exceptions) = true.
Proof.
  intros [(m & Hm & Hs)%existsb_elem Hx]%andb_true_iff Ha. unfold same_network in Hs. breflect.
  apply andb_true_iff. split.
  - apply existsb_elem. exists m. split; [done|]. unfold ip_in_network in *. congruence.
  - apply negb_true_iff, existsb_false_elem. intros x Hx'. rewrite forallb_forall in Hx.
    specialize (Hx x). rewrite <- list_elem_of_In in Hx. specialize (Hx Hx'). unfold apart in Hx. breflect.
    eapply (networks_disjoint a n x (Z.min (net_prefixlen n) (net_prefixlen x))); try done; lia.
Qed.

Lemma internal_tabled :
  forallb (λ n, if net_version n =? 4 then tabled private_networks_4 private_exceptions_4 n
                else tabled private_networks_6 private_exceptions_6 n) internal_networks = true.
Proof. vm_compute. reflexivity. Qed.

(** The address packets go to. *)
Definition unmapped (a : ip_addr) : ip_addr := default a (ipv4_mapped a).

Lemma is_global_not_internal a : is_global a = true → in_any (unmapped a) internal_networks = false.
Proof.
  intros Hg. apply existsb_false_elem. intros n Hn. apply not_true_iff_false. intros Ha.
  pose proof internal_tabled as Ht. rewrite forallb_forall in Ht. apply list_elem_of_In, Ht in Hn.
  assert (net_version n = ip_version (unmapped a)) as Ev by (unfold ip_in_network in Ha; by breflect).
  rewrite Ev in Hn. unfold unmapped in *.
  assert (ip_version (default a (ipv4_mapped a)) = 4 ∧ is_private_4 (default a (ipv4_mapped a)) = false ∨
          ip_version (default a (ipv4_mapped a)) = 6 ∧
          in_any (default a (ipv4_mapped a)) private_networks_6
          && negb (in_any (default a (ipv4_mapped a)) private_exceptions_6) = false) as Hp.
  { destruct a as [v|v sc].
    - left. unfold is_global, is_private in Hg. apply andb_true_iff in Hg as [_ Hg%negb_true_iff]. by split.
    - cbn [is_global is_private] in Hg. destruct (ipv4_mapped (IPv6 v sc)) as [b|] eqn:Em.
      + left. apply negb_true_iff in Hg. split; [|done].
        unfold ipv4_mapped in Em. by destruct (_ =? _); simplify_eq.
      + right. apply negb_true_iff in Hg. by split. }
  destruct Hp as [[Ev4 Hp]|[Ev6 Hp]]; [rewrite Ev4 in Hn|rewrite Ev6 in Hn]; cbn in Hn;
    pose proof (tabled_private _ _ _ _ Hn Ha) as Hq; unfold is_private_4 in Hp; congruence.
Qed.

(** The server only calls destinations it may.  A URL that passes the guard has an
    allowed scheme, an explicit host and no credentials; every address the host
    resolved to is in a network the operator allowed, or else is outside loopback,
    link-local and private networks (also when it is written as an IPv4-mapped
    address).  A host that does not resolve passes only when the operator said so. *)
Theorem outbound_url_guarded value schemes :
  validate_outbound_url value schemes = Ok tt →
  ∃ u host port, urlparse value = Some u ∧ url_scheme u ∈ schemes ∧ url_hostname u = Some host ∧
    text_truthy (url_username u) = false ∧ text_truthy (url_password u) = false ∧
    match getaddrinfo host port with
    | None => PAMOLIVE_OUTBOUND_ALLOW_UNRESOLVED_HOSTS = true
    | Some addresses =>
        ∀ a, a ∈ addresses → ∃ ip, ip_address a = Some ip ∧
          ((∃ cidr n, cidr ∈ PAMOLIVE_OUTBOUND_ALLOWED_CIDRS ∧ ip_network_of cidr = Some n ∧
                      ip_in_network ip n = true) ∨
           in_any (unmapped ip) internal_networks = false)
    end.
Proof.
  unfold validate_outbound_url. destruct (urlparse value) as [u|] eqn:Eu; [|done].
  destruct (url_hostname u) as [host|] eqn:Eh; [|done]. case_match eqn:Hc; [done|].
  rewrite !orb_false_iff, negb_false_iff, bool_decide_eq_true in Hc. destruct Hc as [[Hs Hun] Hpw].
  destruct (url_port u) as [port|]; [|done]. intros Hv.
  match type of Hv with validate_outbound_host _ ?p = _ => exists u, host, p end.
  apply validate_host_spec in Hv. split_and!; try done. destruct (getaddrinfo host _) as [l|]; [|exact Hv].
  intros a (ip & ? & [?|?])%Hv; exists ip; (split; [done|]); [by left|right]. by apply is_global_not_internal.
Qed.
End guard_facts.

Ltac destruct_units := repeat match goal with x : unit |- _ => destruct x end.

Section siem_facts.
Context {PF : Platform} {OE : OutboundEnv} {ST : SiemTransport}.

(** The event reached the collector: the destination passed the guard and the
    transport accepted the payload. *)
Definition sent (d : db) (i : siem_integration) (event : obj audit_event) : Prop :=
  match si_kind i with
  | HTTPS_WEBHOOK =>
      validate_outbound_url (si_endpoint i) ["https"] = Ok tt ∧
      ∃ headers, https_post (si_endpoint i) headers (event_payload d event) = Ok tt
  | SYSLOG_TLS =>
      validate_outbound_host (si_host i) (si_port i) = Ok tt ∧
      tls_send (si_host i) (si_port i)
        (syslog_frame (event_payload d event) (isoformat (e_occurred_at (val event)))) = Ok tt
  end.

Lemma send_payload_inv i event d w u w' :
  send_payload i event (event_payload d event) w = (Ok u, w') → sent d i event.
Proof.
  unfold send_payload, sent, _send_https, _send_syslog_tls.
  destruct (si_kind i); [rewrite decide_True by done|rewrite decide_False by done];
    intros H; run_inv H; destruct_units; eauto.
Qed.

Lemma delivery_of_spec d i e o :
  delivery_of d i e = Some o →
  siem_deliveries d !! pk o = Some (val o) ∧ sd_integration (val o) = i ∧ sd_event (val o) = e.
Proof.
  unfold delivery_of. intros [Hin Hf]%List.find_some. apply list_elem_of_In, elem_of_rows in Hin. breflect. done.
Qed.

(** The key drawn for a new row is not in use. *)
Definition fresh_keys (d : db) : Prop := ∀ n, siem_deliveries d !! draw_uuid4 n = None.

Lemma update_or_create_run v w :
  fresh_keys (w_db w) →
  ∃ k w', update_or_create_delivery v w = (Ok tt, w') ∧
    siem_deliveries (w_db w') = <[k := v]> (siem_deliveries (w_db w)) ∧
    (∀ x, siem_deliveries (w_db w) !! k = Some x → sd_integration x = sd_integration v ∧ sd_event x = sd_event v).
Proof.
  intros Hf. unfold update_or_create_delivery. run.
  destruct (delivery_of (w_db w) (sd_integration v) (sd_event v)) as [o|] eqn:Ed.
  - apply delivery_of_spec in Ed as (Hk & ? & ?). exists (pk o). eexists. unfold save_fields. rewrite Hk.
    split; [reflexivity|]. split; [done|]. intros x Hx. naive_solver.
  - run. unfold insert_row. cbn [drawn w_db]. rewrite Hf. do 2 eexists. split; [reflexivity|].
    split; [done|]. intros x Hx. by rewrite Hf in Hx.
Qed.

Lemma note_delivery_run i t st e w :
  ∃ w', note_delivery i t st e w = (Ok tt, w') ∧ siem_deliveries (w_db w') = siem_deliveries (w_db w).
Proof. by eexists. Qed.

Lemma send_quiet i event payload : quiet (send_payload i event payload).
Proof.
  unfold send_payload, _send_https, _send_syslog_tls, _auth_token.
  pose proof decrypt_quiet. solve_quiet.
Qed.

(** The journal of deliveries tells the truth.  [deliver_event] always leaves one row
    for the collector and the event, with the hash of the payload computed from the
    stored event.  If it returns, the row says DELIVERED and the payload was sent to a
    destination the guard accepts; if it raises, the row says FAILED.  No row about
    another collector or another event is written. *)
Theorem delivery_journal_truthful integration event w r w' :
  fresh_keys (w_db w) →
  deliver_event integration event w = (r, w') →
  ∃ k row, siem_deliveries (w_db w') = <[k := row]> (siem_deliveries (w_db w)) ∧
    sd_integration row = pk integration ∧ sd_event row = pk event ∧
    sd_payload_hash row = sha256_hex (dumps (event_payload (w_db w) event)) ∧
    match r with
    | Ok _ => sd_status row = DELIVERED ∧ sent (w_db w) (val integration) event
    | Raise _ => sd_status row = DELIVERY_FAILED
    end ∧
    (∀ x, siem_deliveries (w_db w) !! k = Some x → sd_integration x = pk integration ∧ sd_event x = pk event).
Proof.
  intros Hf. unfold deliver_event. run. set (send := send_payload (val integration) event _ ;; mret None).
  assert (reads (advance w) (send (advance w)).2) as [Hd _].
  { apply quiet_bind; [apply send_quiet|intros; apply quiet_ret]. }
  destruct (send (advance w)) as [[f|exc] w2] eqn:Es; cbn in Hd.
  - rewrite (bind_ok _ _ (advance w) f w2) by (unfold try_except; by rewrite Es).
    apply bind_ok_inv in Es as (u & w3 & R & Es). injection Es as <- ->. apply send_payload_inv in R.
    set (row := SIEMDelivery _ _ _ _ _ _ _).
    destruct (update_or_create_run row w2) as (k & w3 & E & Hs & Hx); [by rewrite Hd|].
    rewrite (bind_ok _ _ _ _ _ E). destruct (note_delivery_run (pk integration) (w_clock w) DELIVERED "" w3)
      as (w4 & -> & Hn). intros [= <- <-]. exists k, row. rewrite Hn, Hs, Hd. rewrite Hd in Hx. by split_and!.
  - rewrite (bind_ok _ _ (advance w) (Some exc) w2) by (unfold try_except; by rewrite Es).
    set (row := SIEMDelivery _ _ _ _ _ _ _).
    destruct (update_or_create_run row w2) as (k & w3 & E & Hs & Hx); [by rewrite Hd|].
    rewrite (bind_ok _ _ _ _ _ E).
    destruct (note_delivery_run (pk integration) (w_clock w) DELIVERY_FAILED (slice_to 500 (error_text exc)) w3)
      as (w4 & E4 & Hn). rewrite (bind_ok _ _ _ _ _ E4). intros [= <- <-]. exists k, row.
    rewrite Hn, Hs, Hd. rewrite Hd in Hx. by split_and!.
Qed.
End siem_facts.

(** ** Concrete deliveries *)

Section witnesses.
#[local] Existing Instance demo_platform.

#[local] Instance demo_outbound : OutboundEnv := {|
  getaddrinfo host port :=
    if decide (host = "siem.example.org") then Some ["8.8.8.8"; "2606:4700::1"]
    else if decide (host = "intranet") then Some ["10.1.2.3"] else None;
  PAMOLIVE_OUTBOUND_ALLOWED_CIDRS := ["10.1.0.0/16"];
  PAMOLIVE_OUTBOUND_ALLOW_UNRESOLVED_HOSTS := false;
|}.

Definition ConnectionError : exn := OtherError "ConnectionError".

(** The collector at [intranet] is down. *)
#[local] Instance demo_transport : SiemTransport := {|
  https_post endpoint headers payload := if startswith "https://intranet" endpoint then Raise ConnectionError else Ok tt;
  tls_send host port frame := Ok tt;
  error_text e := "ConnectionError: refused";
  is_retried e := bool_decide (e = ConnectionError);
|}.

Lemma outbound_url_guarded_witness :
  ∃ u host port, urlparse "https://siem.example.org/in" = Some u ∧ url_scheme u ∈ ["https"] ∧
    url_hostname u = Some host ∧
    text_truthy (url_username u) = false ∧ text_truthy (url_password u) = false ∧
    match getaddrinfo host port with
    | None => PAMOLIVE_OUTBOUND_ALLOW_UNRESOLVED_HOSTS = true
    | Some addresses =>
        ∀ a, a ∈ addresses → ∃ ip, ip_address a = Some ip ∧
          ((∃ cidr n, cidr ∈ PAMOLIVE_OUTBOUND_ALLOWED_CIDRS ∧ ip_network_of cidr = Some n ∧
                      ip_in_network ip n = true) ∨
           in_any (unmapped ip) internal_networks = false)
    end.
Proof. apply (outbound_url_guarded "https://siem.example.org/in" ["https"]). vm_compute. reflexivity. Defined.

Definition demo_collector (name endpoint : string) : siem_integration :=
  SIEMIntegration name HTTPS_WEBHOOK endpoint "" 6514 true "" "" None None "" true.

Definition demo_audit_event : obj audit_event :=
  Obj 90%N (AuditEvent demo_now 1 2 (Some 7%N) "authentication.password.succeeded" "accounts.user" "7" None
              [("password", JStr "hunter2")] "" "hash" "signature").

Definition demo_siem_db : db :=
  empty_db <| audit_events := {[ 90%N := val demo_audit_event ]} |>
    <| siem_integrations := {[ 70%N := demo_collector "a" "https://intranet/in";
                               71%N := demo_collector "b" "https://siem.example.org/in" ]} |>.

Lemma demo_fresh_keys : fresh_keys demo_siem_db.
Proof. done. Qed.

Definition demo_delivered : outcome unit * world := Eval vm_compute in
  deliver_event (Obj 71%N (demo_collector "b" "https://siem.example.org/in")) demo_audit_event (demo_world demo_siem_db).

Lemma delivery_journal_truthful_witness :
  fresh_keys demo_siem_db ∧
  ∃ k row, siem_deliveries (w_db demo_delivered.2) = <[k := row]> (siem_deliveries demo_siem_db) ∧
    sd_integration row = 71%N ∧ sd_event row = 90%N ∧
    sd_payload_hash row = sha256_hex (dumps (event_payload demo_siem_db demo_audit_event)) ∧
    (sd_status row = DELIVERED ∧ sent demo_siem_db (demo_collector "b" "https://siem.example.org/in") demo_audit_event) ∧
    (∀ x, siem_deliveries demo_siem_db !! k = Some x → sd_integration x = 71%N ∧ sd_event x = 90%N).
Proof.
  split; [done|].
  apply (delivery_journal_truthful (Obj 71%N (demo_collector "b" "https://siem.example.org/in")) demo_audit_event
           (demo_world demo_siem_db) (Ok tt) demo_delivered.2).
  - done.
  - vm_compute. reflexivity.
Defined.

(** A collector that is down keeps the next ones from receiving the event: the task
    stops at the first failure, and every retry starts with the same collector.  Here
    the second collector answers, but after all the retries nothing was sent to it. *)
Theorem outage_starves_later_collectors :
  let r := run_forwarding max_retries 90 (demo_world demo_siem_db) in
  r.1 = Raise ConnectionError ∧
  deliver_event (Obj 71%N (demo_collector "b" "https://siem.example.org/in")) demo_audit_event
    (demo_world demo_siem_db) = demo_delivered ∧ demo_delivered.1 = Ok tt ∧
  is_Some (delivery_of (w_db r.2) 70 90) ∧ delivery_of (w_db r.2) 71 90 = None.
Proof.
  vm_compute. split_and!; [reflexivity..|eexists; reflexivity|reflexivity].
Qed.
End witnesses.
