(* ===== verification/Forms.v ===== *)
(** * Django form fields

    The part of [django.forms] the console relies on: the submitted [QueryDict], the
    fields that clean one key of it, and the rules of a [ModelForm] about omitted
    fields and unique columns.  A field that does not validate is [None].  What the
    framework parses with tables of its own (dates, e-mail addresses, URLs, user names,
    password strength, regular expressions) is the [DjangoForms] class. *)

From S2P Require Import Prelude PyStr Json Crypto PyTime Models World Text.

Local Open Scope Z_scope.

Class DjangoForms := {
  parse_datetime : string → option Z;
  parse_time : string → option Z;
  valid_email : string → bool;
  clean_url_field : string → option string;
  normalize_username : string → string;
  valid_username : string → bool;
  password_acceptable : string → user → bool;
  re_compiles : string → bool;
}.

(** ** [QueryDict] *)

Definition querydict : Type := gmap string (list string).

Definition getlist (q : querydict) (k : string) : list string := default [] (q !! k).

(** [q.get(k)]: the last value. *)
Definition qget (q : querydict) (k : string) : option string := last (getlist q k).

(** [k in q], and [widget.value_omitted_from_data] of a text widget. *)
Definition submitted (q : querydict) (k : string) : bool := bool_decide (is_Some (q !! k)).

(** ** Fields *)

Definition has_nul (s : string) : bool := existsb (λ c, code c =? 0) (chars s).

Definition within (max : option Z) (s : string) : bool :=
  match max with Some n => len s <=? n | None => true end.

(** [CharField] *)
Definition char_field (q : querydict) (k : string) (required : bool) (max : option Z) : option string :=
  let v := strip (default "" (qget q k)) in
  if (required && bool_decide (v = "")) || has_nul v || negb (within max v) then None else Some v.

(** [CharField(strip=False)] that is required *)
Definition raw_char_field (q : querydict) (k : string) : option string :=
  let v := default "" (qget q k) in
  if bool_decide (v = "") || has_nul v then None else Some v.

Definition email_field `{DjangoForms} (q : querydict) (k : string) : option string :=
  v ← char_field q k true (Some 254); if valid_email v then Some v else None.

Definition is_slug_char (c : ascii) : bool :=
  let z := code c in between 48 z 57 || between 65 z 90 || between 97 z 122 || (z =? 45) || (z =? 95).

(** [SlugField]; the empty text of an optional one becomes [None] in the column. *)
Definition slug_field (q : querydict) (k : string) (required : bool) (max : Z) : option string :=
  v ← char_field q k required (Some max); if forallb is_slug_char (chars v) then Some v else None.

(** [URLField] *)
Definition url_field `{DjangoForms} (q : querydict) (k : string) : option string :=
  v ← char_field q k false None; if decide (v = "") then Some "" else clean_url_field v.

(** [CheckboxInput] with [BooleanField(required=False)] *)
Definition checkbox (q : querydict) (k : string) : bool :=
  match qget q k with
  | Some v => negb (bool_decide (lower v ∈ [""; "false"]))
  | None => false
  end.

(** [ChoiceField] *)
Definition choice_field (q : querydict) (k : string) (required : bool) (choices : list string) : option string :=
  let v := default "" (qget q k) in
  if decide (v = "") then if required then None else Some ""
  else if decide (v ∈ choices) then Some v else None.

(** [MultipleChoiceField] *)
Definition multi_choice_field (q : querydict) (k : string) (required : bool) (choices : list string)
    : option (list string) :=
  let l := getlist q k in
  if (required && bool_decide (l = [])) || negb (forallb (λ v, bool_decide (v ∈ choices)) l) then None else Some l.

(** The text an [IntegerField] converts: without a trailing [.0]. *)
Definition drop_decimal (s : string) : string :=
  match drop_while (λ c, bool_decide (c = "0"%char)) (drop_while isspace_char (rev (chars s))) with
  | "."%char :: r => of_chars (rev r)
  | _ => s
  end.

(** [IntegerField] in a range; [Some None] is an empty optional field. *)
Definition int_field (q : querydict) (k : string) (required : bool) (lo hi : Z) : option (option Z) :=
  let v := default "" (qget q k) in
  if decide (v = "") then if required then None else Some None
  else z ← py_int (drop_decimal v); if between lo z hi then Some (Some z) else None.

Definition required_int (q : querydict) (k : string) (lo hi : Z) : option Z :=
  x ← int_field q k true lo hi; x.

(** [DateTimeField] and [TimeField], optional *)
Definition optional_parsed (parse : string → option Z) (q : querydict) (k : string) : option (option Z) :=
  let v := strip (default "" (qget q k)) in
  if decide (v = "") then Some None else z ← parse v; Some (Some z).

(** The key of a submitted row: a UUID, or a number for users. *)
Definition uuid_key : string → option id := uuid_of_str.
Definition int_key (s : string) : option id := z ← py_int s; if 0 <=? z then Some (Z.to_N z) else None.

(** [ModelChoiceField]: a row of the table. *)
Definition model_choice {A} (parse : string → option id) (t : gmap id A) (q : querydict) (k : string)
    (required : bool) : option (option id) :=
  let v := default "" (qget q k) in
  if decide (v = "") then if required then None else Some None
  else i ← parse v; if decide (is_Some (t !! i)) then Some (Some i) else None.

Definition required_model {A} (parse : string → option id) (t : gmap id A) (q : querydict) (k : string) : option id :=
  x ← model_choice parse t q k true; x.

(** [ModelMultipleChoiceField]: rows of the table. *)
Definition model_choices {A} (parse : string → option id) (t : gmap id A) (q : querydict) (k : string)
    (required : bool) : option (gset id) :=
  l ← mapM parse (getlist q k);
  if (required && bool_decide (l = [])) || negb (forallb (λ i, bool_decide (is_Some (t !! i))) l)
  then None else Some (list_to_set l).

(** ** Model forms *)

(** [validate_unique]: another row has the value. *)
Definition taken {A} (self : option id) (f : A → bool) (t : gmap id A) : bool :=
  exists_row (λ o, bool_decide (Some (pk o) ≠ self) && f (val o)) t.

(** [construct_instance]: a column with a default keeps its value when the field was
    not submitted and its cleaned value is empty. *)
Definition keep_omitted {A} (q : querydict) (k : string) (empty : bool) (old new : A) : A :=
  if negb (submitted q k) && empty then old else new.

(** A guard in a form. *)
Definition require (b : bool) : option unit := if b then Some tt else None.

(** [str.splitlines()] without the empty tail: line ends of text below U+0100. *)
Definition is_line_end (c : ascii) : bool :=
  let z := code c in between 10 z 13 || between 28 z 30 || (z =? 133).

Fixpoint splitlines (l : list ascii) : list (list ascii) :=
  match l with
  | [] => []
  | c :: l' =>
      if is_line_end c then
        match l' with
        | d :: l'' => if (code c =? 13) && (code d =? 10) then [] :: splitlines l'' else [] :: splitlines l'
        | [] => [[]]
        end
      else match splitlines l' with
           | [] => [[c]]
           | w :: ws => (c :: w) :: ws
           end
  end.

(** [[item.strip() for item in text.replace(",", "\n").splitlines() if item.strip()]] *)
Definition split_items (text : string) : list string :=
  List.filter (λ s, bool_decide (s ≠ ""))
    ((λ l, strip (of_chars l)) <$> splitlines ((λ c, if decide (c = ","%char) then chr 10 else c) <$> chars text)).

Example split_items_ex :
  split_items ("a, b" +:+ of_chars [chr 13; chr 10] +:+ " c ,,d") = ["a"; "b"; "c"; "d"].
Proof. reflexivity. Qed.

Example fields_ex :
  let q : querydict := {[ "n" := ["7"; " 12.00 "]; "s" := ["ab-C_9"]; "b" := ["0"]; "m" := ["x"; "y"] ]} in
  required_int q "n" 0 20 = Some 12 ∧ required_int q "n" 0 10 = None ∧ slug_field q "s" true 5 = None ∧
  slug_field q "s" true 6 = Some "ab-C_9" ∧ checkbox q "b" = true ∧ checkbox q "c" = false ∧
  multi_choice_field q "m" true ["x"; "y"; "z"] = Some ["x"; "y"] ∧ multi_choice_field q "m" true ["x"] = None ∧
  int_field q "absent" false 0 5 = Some None.
Proof. vm_compute. repeat split. Qed.
