(* ===== verification/ConsoleForms.v ===== *)
(** * The forms of the administration console ([pamolive/console/forms.py],
    [pamolive/connectors/services.py])

    One function per form: from the submitted data, the database and the instance
    being edited, the row the form writes, or [None] when the form is invalid and the
    page is shown again.  The cross-field checks are the [clean] methods of the source;
    the limits of single fields are those of the models.  Forms whose [save] encrypts a
    secret or asks for the time return the values [save] uses.

    Labels, help texts, widgets and sections are presentation and left out. *)

From S2P Require Import Prelude PyStr Json Loads Crypto PyTime Models World Text Ip Rbac Policies Vault.
From S2P Require Import Broker GatewayApi Directory Portal Outbound Forms.

Local Open Scope Z_scope.

Definition MAX_INT : Z := 2147483647.

Section forms.
Context {DF : DjangoForms}.

(** ** Users *)

Definition username_field (q : querydict) : option string :=
  v ← char_field q "username" true (Some 150);
  if valid_username v then Some v else None.

Definition UserUpdateForm (d : db) (self : obj user) (q : querydict) : option user :=
  username ← username_field q;
  display_name ← char_field q "display_name" false (Some 150);
  email ← email_field q "email";
  require (negb (taken (Some (pk self)) (λ u, bool_decide (u_username u = username)) (users d))) ;;
  require (negb (taken (Some (pk self)) (λ u, bool_decide (u_email u = email)) (users d))) ;;
  Some (val self <| u_username := username |> <| u_display_name := display_name |> <| u_email := email |>
          <| u_is_active := checkbox q "is_active" |>).

(** [UserCreationForm]: the name must differ from every other one also in case, and
    the two passwords must agree and be accepted by the validators.  The account and
    its password. *)
Definition UserCreateForm (d : db) (q : querydict) : option (user * string) :=
  username ← (v ← char_field q "username" true (Some 150);
              let n := normalize_username v in if valid_username n && (len n <=? 150) then Some n else None);
  display_name ← char_field q "display_name" false (Some 150);
  email ← email_field q "email";
  password1 ← raw_char_field q "password1";
  password2 ← raw_char_field q "password2";
  require (negb (taken None (λ u, bool_decide (upper (u_username u) = upper username)) (users d))) ;;
  require (negb (taken None (λ u, bool_decide (u_email u = email)) (users d))) ;;
  require (bool_decide (password1 = password2)) ;;
  let u := User username email display_name (checkbox q "is_active") false false "dark" "fr" "" in
  require (password_acceptable password2 u) ;;
  Some (u, password1).

(** ** Groups and roles *)

Definition UserGroupForm (d : db) (self : option (obj user_group)) (q : querydict) : option user_group :=
  name ← char_field q "name" true (Some 120);
  description ← char_field q "description" false None;
  members ← model_choices int_key (users d) q "users" false;
  granted ← model_choices uuid_key (roles d) q "roles" false;
  require (negb (taken (pk <$> self) (λ g, bool_decide (ug_name g = name)) (user_groups d))) ;;
  Some (UserGroup name members granted (checkbox q "enabled") description).

(** The permission-level fields added by [__init__], cleaned. *)
Definition clean_levels (q : querydict) : option (gmap string string) :=
  fold_left (λ acc area,
    m ← acc;
    v ← choice_field q (pa_field_name area) false (pl_value <$> pa_levels area);
    Some (<[pa_field_name area := v]> m)) PERMISSION_AREAS (Some ∅).

(** [MultipleChoiceField.has_changed] *)
Definition choices_changed (initial data : list string) : bool :=
  negb (length initial =? length data)%nat
  || negb (bool_decide ((list_to_set initial : gset string) = list_to_set data)).

(** [protected_fields.intersection(self.changed_data)] is not empty. *)
Definition protected_changed (self : role) (q : querydict) : bool :=
  bool_decide (strip (default "" (qget q "name")) ≠ ro_name self)
  || bool_decide (strip (default "" (qget q "slug")) ≠ default "" (ro_slug self))
  || choices_changed (ro_capabilities self) (getlist q "capabilities")
  || negb (eqb (checkbox q "enabled") (ro_enabled self)).

Definition some_if_text (s : string) : option string := if decide (s = "") then None else Some s.

Definition RoleForm (d : db) (self : option (obj role)) (q : querydict) : option role :=
  name ← char_field q "name" true (Some 100);
  slug ← slug_field q "slug" false 100;
  description ← char_field q "description" false None;
  capabilities ← multi_choice_field q "capabilities" false Capability.choices;
  levels ← clean_levels q;
  require (match self with Some o => negb (ro_is_system (val o) && protected_changed (val o) q) | None => true end) ;;
  require (negb (taken (pk <$> self) (λ r, bool_decide (ro_name r = name)) (roles d))) ;;
  require (bool_decide (slug = "") || negb (taken (pk <$> self) (λ r, bool_decide (ro_slug r = Some slug)) (roles d))) ;;
  let granted := if existsb (λ area, submitted q (pa_field_name area)) PERMISSION_AREAS
                 then capabilities_from_levels levels else normalize_capabilities capabilities in
  Some (Role name (some_if_text slug) granted (match self with Some o => ro_is_system (val o) | None => false end)
          (checkbox q "enabled") description).

(** ** Domains, groups of targets, mappings *)

Definition DomainForm (d : db) (self : option (obj domain)) (q : querydict) : option domain :=
  name ← char_field q "name" true (Some 150);
  kind ← choice_field q "kind" true ["local"; "active_directory"];
  dns_name ← char_field q "dns_name" false (Some 255);
  description ← char_field q "description" false None;
  require (negb (taken (pk <$> self) (λ x, bool_decide (do_name x = name)) (domains d))) ;;
  Some (Domain name kind dns_name description (checkbox q "enabled")).

Definition TargetGroupForm (d : db) (self : option (obj target_group)) (q : querydict) : option target_group :=
  name ← char_field q "name" true (Some 120);
  description ← char_field q "description" false None;
  members ← model_choices uuid_key (targets d) q "targets" false;
  require (negb (taken (pk <$> self) (λ g, bool_decide (tg_name g = name)) (target_groups d))) ;;
  Some (TargetGroup name members (checkbox q "enabled") description).

Definition DirectoryGroupMappingForm (d : db) (self : option (obj directory_group_mapping)) (q : querydict)
    : option directory_group_mapping :=
  source ← required_model uuid_key (identity_sources d) q "source";
  external_group ← char_field q "external_group" true (Some 512);
  group ← required_model uuid_key (user_groups d) q "user_group";
  require (negb (taken (pk <$> self) (λ m, bool_decide (gm_source m = source)
                                          && bool_decide (gm_external_group m = external_group)) (group_mappings d))) ;;
  Some (DirectoryGroupMapping source external_group group (checkbox q "auto_create_users") (checkbox q "enabled")).

(** ** Targets *)

Definition protocol_of (s : string) : option protocol :=
  List.find (λ p, bool_decide (protocol_str p = s)) [SSH; RDP; WEB].

(** What [TargetForm] collects for the first account. *)
Record initial_credential := InitialCredential {
  ic_name : string; ic_username : string; ic_password : string; ic_totp : string }.

(** A new target before the form fills it: the column defaults. *)
Definition blank_target : target :=
  Target "" "" 0 SSH TRUST_ON_FIRST_USE true "nla" "" "fr-be-azerty" "display-update" "device" None "" "".

Definition or_default (v d : string) : string := if decide (v = "") then d else v.

(** The columns of the RDP protocol: defaults and the normalised list of
    fingerprints for RDP targets, the submitted texts for the others. *)
Definition rdp_columns (q : querydict) (old : target) (p : protocol) (security fingerprints layout resize : string)
    (t : target) : target :=
  if decide (p = RDP) then
    t <| t_rdp_security := or_default security "nla" |>
      <| t_rdp_server_layout := or_default layout "fr-be-azerty" |>
      <| t_rdp_resize_method := or_default resize "display-update" |>
      <| t_rdp_certificate_fingerprints := join "," (split_items fingerprints) |>
  else
    t <| t_rdp_security := keep_omitted q "rdp_security" (bool_decide (security = "")) (t_rdp_security old) security |>
      <| t_rdp_server_layout :=
           keep_omitted q "rdp_server_layout" (bool_decide (layout = "")) (t_rdp_server_layout old) layout |>
      <| t_rdp_resize_method :=
           keep_omitted q "rdp_resize_method" (bool_decide (resize = "")) (t_rdp_resize_method old) resize |>
      <| t_rdp_certificate_fingerprints := fingerprints |>.

Definition first_account_fields (q : querydict) (creating : bool) : option initial_credential :=
  name ← char_field q "credential_name" creating None;
  username ← char_field q "credential_username" creating None;
  password ← char_field q "credential_password" creating None;
  totp ← char_field q "credential_totp" false None;
  Some (InitialCredential name username password totp).

Definition TargetForm (d : db) (self : option (obj target)) (q : querydict) : option (target * initial_credential) :=
  let old := match self with Some o => val o | None => blank_target end in
  name ← char_field q "name" true (Some 150);
  choice_field q "kind" false ["device"; "application"; "web_application"] ;;
  dom ← model_choice uuid_key (domains d) q "domain" false;
  hostname ← char_field q "hostname" true (Some 255);
  port ← required_int q "port" 1 65535;
  p ← (v ← choice_field q "protocol" true ["ssh"; "rdp"; "web"]; protocol_of v);
  policy ← choice_field q "ssh_host_key_policy" false ["tofu"; "strict"];
  platform ← char_field q "platform" false (Some 100);
  description ← char_field q "description" false None;
  security ← choice_field q "rdp_security" false ["nla"; "nla-ext"; "tls"];
  fingerprints ← char_field q "rdp_certificate_fingerprints" false None;
  layout ← char_field q "rdp_server_layout" false (Some 32);
  resize ← choice_field q "rdp_resize_method" false ["display-update"; "reconnect"];
  first ← first_account_fields q (match self with None => true | Some _ => false end);
  require (negb (taken (pk <$> self) (λ t, bool_decide (t_name t = name)) (targets d))) ;;
  let t := old <| t_name := name |> <| t_kind := if decide (p = WEB) then "web_application" else "device" |>
             <| t_domain := dom |> <| t_hostname := hostname |> <| t_port := port |> <| t_protocol := p |>
             <| t_host_key_policy := if decide (policy = "strict") then STRICT else TRUST_ON_FIRST_USE |>
             <| t_platform := platform |> <| t_description := description |>
             <| t_enabled := checkbox q "enabled" |> in
  Some (rdp_columns q old p security fingerprints layout resize t, first).

(** The target, the normalised key and the comment. *)
Definition TargetHostKeyForm (d : db) (q : querydict) : option (id * string * string) :=
  t ← required_model uuid_key (targets d) q "target";
  row ← targets d !! t;
  require (bool_decide (t_protocol row = SSH)) ;;
  key ← char_field q "public_key" true None;
  comment ← char_field q "comment" false (Some 255);
  match parse_ssh_public_key key with
  | Ok (_, normalized, _) => Some (t, normalized, comment)
  | Raise _ => None
  end.

(** ** Access policies *)

Definition blank_policy : access_policy :=
  AccessPolicy "" ∅ ∅ ∅ ∅ ∅ ∅ [] [] true 1 false true 60 1 false false [] [] None None [] None None [] true.

Definition policy_actions : list string := [REQUEST_ACCESS; START_SESSION; VIEW_SECRET; REVEAL_TOTP].

(** [cleaned.get(key) or 1] *)
Definition or_one (n : option Z) : Z := match n with Some 0 | None => 1 | Some z => z end.

Definition is_cidr (s : string) : bool := bool_decide (is_Some (ip_network_of s)).

(** [_clean_command_patterns]: the patterns, all of which must compile. *)
Definition command_patterns (q : querydict) (k : string) : option (list string) :=
  text ← char_field q k false None;
  let patterns := split_items text in
  if forallb re_compiles patterns then Some patterns else None.

Definition dates_in_order (from until : option Z) : bool :=
  match from, until with Some f, Some u => f <? u | _, _ => true end.

Definition empty_list {A} (l : list A) : bool := match l with [] => true | _ => false end.

Definition AccessPolicyForm (d : db) (self : option (obj access_policy)) (q : querydict) : option access_policy :=
  let old := match self with Some o => val o | None => blank_policy end in
  name ← char_field q "name" true (Some 150);
  user_groups_ ← model_choices uuid_key (user_groups d) q "user_groups" true;
  target_groups_ ← model_choices uuid_key (target_groups d) q "target_groups" true;
  credentials_ ← model_choices uuid_key (credentials d) q "credentials" false;
  approver_groups ← model_choices uuid_key (user_groups d) q "approver_groups" false;
  time_frames_ ← model_choices uuid_key (time_frames d) q "time_frames" false;
  actions ← multi_choice_field q "actions" true policy_actions;
  protocols ← multi_choice_field q "protocols" false ["ssh"; "rdp"; "web"];
  quorum ← int_field q "approval_quorum" false 0 10;
  max_duration ← required_int q "max_duration_minutes" 0 MAX_INT;
  max_concurrent ← int_field q "max_concurrent_sessions" false 0 50;
  deny ← command_patterns q "command_deny_patterns";
  alert ← command_patterns q "command_alert_patterns";
  valid_from ← optional_parsed parse_datetime q "valid_from";
  valid_until ← optional_parsed parse_datetime q "valid_until";
  cidr_text ← char_field q "source_cidrs" false None;
  let cidrs := split_items cidr_text in
  require (forallb is_cidr cidrs) ;;
  require (dates_in_order valid_from valid_until) ;;
  require (negb (taken (pk <$> self) (λ p, bool_decide (p_name p = name)) (policies d))) ;;
  Some (old <| p_name := name |> <| p_user_groups := user_groups_ |> <| p_target_groups := target_groups_ |>
          <| p_credentials := credentials_ |> <| p_approver_groups := approver_groups |>
          <| p_time_frames := time_frames_ |> <| p_actions := actions |> <| p_protocols := protocols |>
          <| p_requires_approval := checkbox q "requires_approval" |> <| p_approval_quorum := or_one quorum |>
          <| p_ticket_required := checkbox q "ticket_required" |> <| p_requires_mfa := checkbox q "requires_mfa" |>
          <| p_max_duration_minutes := max_duration |> <| p_max_concurrent_sessions := or_one max_concurrent |>
          <| p_allow_clipboard_copy := checkbox q "allow_clipboard_copy" |>
          <| p_allow_clipboard_paste := checkbox q "allow_clipboard_paste" |>
          <| p_command_deny_patterns :=
               keep_omitted q "command_deny_patterns" (empty_list deny) (p_command_deny_patterns old) deny |>
          <| p_command_alert_patterns :=
               keep_omitted q "command_alert_patterns" (empty_list alert) (p_command_alert_patterns old) alert |>
          <| p_valid_from := valid_from |> <| p_valid_until := valid_until |>
          <| p_source_cidrs := keep_omitted q "source_cidrs" (empty_list cidrs) (p_source_cidrs old) cidrs |>
          <| p_enabled := checkbox q "enabled" |>).

Definition weekday_choices : list string := ["0"; "1"; "2"; "3"; "4"; "5"; "6"].

Definition TimeFrameForm (d : db) (self : option (obj time_frame)) (q : querydict) : option time_frame :=
  name ← char_field q "name" true (Some 150);
  chosen ← multi_choice_field q "weekdays" false weekday_choices;
  weekdays ← mapM py_int chosen;
  start_time ← optional_parsed parse_time q "start_time";
  end_time ← optional_parsed parse_time q "end_time";
  valid_from ← optional_parsed parse_datetime q "valid_from";
  valid_until ← optional_parsed parse_datetime q "valid_until";
  require (dates_in_order valid_from valid_until) ;;
  require (negb (taken (pk <$> self) (λ f, bool_decide (tf_name f = name)) (time_frames d))) ;;
  Some (TimeFrame name (JInt <$> weekdays) start_time end_time valid_from valid_until (checkbox q "enabled")).

Definition SecretRotationPolicyForm (d : db) (self : option (obj secret_rotation_policy)) (q : querydict)
    : option secret_rotation_policy :=
  name ← char_field q "name" true (Some 150);
  groups ← model_choices uuid_key (target_groups d) q "target_groups" false;
  strategy ← choice_field q "strategy" true ["generated_password"];
  interval_days ← required_int q "interval_days" 1 3650;
  password_length ← required_int q "password_length" 16 128;
  connector_key ← char_field q "connector_key" false (Some 100);
  require (negb (taken (pk <$> self) (λ p, bool_decide (srp_name p = name)) (rotation_policies d))) ;;
  Some (SecretRotationPolicy name interval_days password_length connector_key (checkbox q "enabled") strategy groups).
End forms.

(** ** Platform policy *)

Definition PlatformSecurityPolicyForm (old : platform_security_policy) (q : querydict)
    : option platform_security_policy :=
  idle ← required_int q "idle_timeout_minutes" 1 1440;
  absolute ← required_int q "absolute_session_minutes" 5 10080;
  window ← (v ← choice_field q "sensitive_action_mfa_window_minutes" true ["2"; "5"; "10"; "15"]; py_int v);
  require (idle <=? absolute) ;;
  Some (old <| idle_timeout_minutes := idle |> <| absolute_session_minutes := absolute |>
          <| require_mfa_for_all_users := checkbox q "require_mfa_for_all_users" |>
          <| sensitive_action_mfa_window_minutes := window |>).

(** ** SIEM integrations *)

Section secrets.
Context {DF : DjangoForms} {PF : Platform}.

Definition siem_kind_of (s : string) : siem_kind := if decide (s = "https_webhook") then HTTPS_WEBHOOK else SYSLOG_TLS.

Definition blank_siem : siem_integration := SIEMIntegration "" HTTPS_WEBHOOK "" "" 6514 true "" "" None None "" true.

(** [SIEMIntegration.clean] *)
Definition siem_clean (i : siem_integration) : bool :=
  match si_kind i with
  | HTTPS_WEBHOOK => startswith "https://" (si_endpoint i)
  | SYSLOG_TLS => bool_decide (si_host i ≠ "")
  end.

(** The integration and the token that was typed. *)
Definition SIEMIntegrationForm (d : db) (self : option (obj siem_integration)) (q : querydict)
    : option (siem_integration * string) :=
  let old := match self with Some o => val o | None => blank_siem end in
  name ← char_field q "name" true (Some 120);
  kind ← choice_field q "kind" true ["https_webhook"; "syslog_tls"];
  endpoint ← url_field q "endpoint";
  require (len endpoint <=? 200) ;;
  host ← char_field q "host" false (Some 253);
  port ← required_int q "port" 0 MAX_INT;
  token ← char_field q "auth_token" false None;
  let i := old <| si_name := name |> <| si_kind := siem_kind_of kind |> <| si_endpoint := endpoint |>
             <| si_host := host |> <| si_port := port |> <| si_enabled := checkbox q "enabled" |> in
  require (siem_clean i) ;;
  require (negb (taken (pk <$> self) (λ x, bool_decide (si_name x = name)) (siem_integrations d))) ;;
  Some (i, token).

(** [form.save()] up to the write: an empty token preserves the stored one. *)
Definition seal_siem (i : siem_integration) (token : string) : M siem_integration :=
  let i := i <| si_verify_tls := true |> in
  if decide (token = "") then mret i
  else c ← encrypt token; mret (i <| si_encrypted_auth_token := c |> <| si_key_id := active_key_id |>).

(** ** Accounts *)

Definition credential_kind_of (s : string) : credential_kind := if decide (s = "password") then PASSWORD else SSH_KEY.

Definition blank_credential : credential :=
  Credential "" 0 None "" PASSWORD "" "keyring-v1" "" "keyring-v1" 1 true false None "" None None None
    RotationStatus.NEVER 0 None (Stamps 0 0) "local".

Record credential_form := CredentialForm {
  cf_row : credential; cf_secret : string; cf_totp : string; cf_policy_changed : bool }.

Definition TargetCredentialForm (d : db) (self : option (obj credential)) (q : querydict) : option credential_form :=
  let old := match self with Some o => val o | None => blank_credential end in
  name ← char_field q "name" true (Some 150);
  t ← required_model uuid_key (targets d) q "target";
  dom ← model_choice uuid_key (domains d) q "domain" false;
  username ← char_field q "username" true (Some 255);
  account_type ← choice_field q "account_type" false ["local"; "domain"; "service"];
  kind ← choice_field q "kind" true ["password"; "ssh_key"];
  policy ← model_choice uuid_key (rotation_policies d) q "rotation_policy" false;
  secret ← char_field q "secret" false None;
  totp ← char_field q "totp_secret" false None;
  require (match self with None => bool_decide (secret ≠ "") | Some _ => true end) ;;
  require (negb (bool_decide (account_type = "domain") && bool_decide (dom = None))) ;;
  let row := old <| c_name := name |> <| c_target := t |> <| c_domain := dom |> <| c_username := username |>
               <| c_account_type := keep_omitted q "account_type" (bool_decide (account_type = ""))
                                      (c_account_type old) account_type |>
               <| c_kind := credential_kind_of kind |> <| c_checkout_enabled := checkbox q "checkout_enabled" |>
               <| c_rotation_policy := policy |> in
  Some (CredentialForm row secret totp
          (bool_decide (default "" (str_uuid <$> c_rotation_policy old) ≠ default "" (qget q "rotation_policy")))).

(** The rotation columns [save] writes. *)
Definition plan_rotation (changed : bool) (c : credential) : M credential :=
  match c_rotation_policy c with
  | None => mret (c <| c_next_rotation_at := None |>)
  | Some p =>
      let c := c <| c_rotation_enabled := false |> <| c_rotation_interval_days := None |> <| c_rotation_backend := "" |> in
      match c_next_rotation_at c with
      | None => t ← now; mret (c <| c_next_rotation_at := Some t |>)
      | Some _ =>
          match changed, c_last_rotated_at c with
          | true, Some last =>
              policy ← get_row rotation_policies "SecretRotationPolicy" p;
              mret (c <| c_next_rotation_at := Some (last + days (srp_interval_days (val policy))) |>)
          | _, _ => mret c
          end
      end
  end.

(** [form.save()] up to the write: empty fields preserve the stored secrets. *)
Definition seal_credential (f : credential_form) : M credential :=
  c ← (if decide (cf_secret f = "") then mret (cf_row f)
       else e ← encrypt (cf_secret f);
            mret (cf_row f <| c_encrypted_secret := e |> <| c_secret_key_id := active_key_id |>));
  c ← (if decide (cf_totp f = "") then mret c
       else e ← encrypt (cf_totp f);
            mret (c <| c_encrypted_totp_secret := e |> <| c_totp_key_id := active_key_id |>));
  plan_rotation (cf_policy_changed f) c.

(** [save_initial_credential]: the row of the first account of a target, when a
    password was given; the columns hold 150 and 255 characters. *)
Definition save_initial_credential (t : obj target) (f : initial_credential) : M (option id) :=
  if decide (ic_password f = "") then mret None
  else
    secret ← encrypt (ic_password f);
    totp ← (if decide (ic_totp f = "") then mret "" else encrypt (ic_totp f));
    k ← uuid4;
    st ← new_stamps;
    raise_if ((150 <? len (ic_name f)) || (255 <? len (ic_username f))) (OtherError "DataError") ;;
    insert_row credentials k
      (Credential (ic_name f) (pk t) (t_domain (val t)) (ic_username f) PASSWORD secret active_key_id totp
         active_key_id 1 true false None "" None None None RotationStatus.NEVER 0 None st "local") ;;
    mret (Some k).
End secrets.

(** ** Identity sources ([connectors/services.py]) *)

Section sources.
Context {DF : DjangoForms} {PF : Platform} {OE : OutboundEnv}.

Definition IdentitySourceConfigurationError (msg : string) : exn := ValidationError msg.

Definition LDAP_FIELDS : list string :=
  ["server_uri"; "bind_dn"; "bind_password"; "base_dn"; "user_filter"; "group_filter"; "username_attribute";
   "email_attribute"; "display_name_attribute"; "group_attribute"; "use_start_tls"; "connect_timeout_seconds"].
Definition OIDC_FIELDS : list string :=
  ["issuer"; "client_id"; "client_secret"; "scopes"; "username_claim"; "email_claim"; "display_name_claim";
   "groups_claim"; "allowed_email_domains"; "allowed_emails"; "default_user_group"].

(** [not configuration.get(field)] *)
Definition missing (configuration : list (string * json)) (field : string) : bool :=
  match dict_get field configuration with Some j => negb (json_truthy j) | None => true end.

Definition _required (configuration : list (string * json)) (fields : list string) : outcome unit :=
  if existsb (missing configuration) fields
  then Raise (IdentitySourceConfigurationError "Champs obligatoires manquants.") else Ok tt.

Definition known_fields (configuration : list (string * json)) (fields : list string) : outcome unit :=
  if forallb (λ kv, bool_decide (kv.1 ∈ fields)) configuration then Ok tt
  else Raise (IdentitySourceConfigurationError "Champs de configuration inconnus.").

(** [urlparse(configuration[field])]: the value is not empty. *)
Definition parse_address (configuration : list (string * json)) (field : string) : outcome url :=
  match dict_get field configuration with
  | Some (JStr s) => match urlparse s with Some u => Ok u | None => Raise (ValueError "Invalid IPv6 URL") end
  | _ => Raise (OtherError "AttributeError")
  end.

Definition check_ldap (configuration : list (string * json)) : M unit :=
  of_outcome (_required configuration ["server_uri"; "base_dn"; "user_filter"]) ;;
  parsed ← of_outcome (parse_address configuration "server_uri");
  host ← match url_hostname parsed with
         | Some h => if decide (url_scheme parsed ∈ ["ldap"; "ldaps"]) then mret h
                     else raise (IdentitySourceConfigurationError "L’adresse LDAP doit utiliser ldap:// ou ldaps:// avec un hôte explicite.")
         | None => raise (IdentitySourceConfigurationError "L’adresse LDAP doit utiliser ldap:// ou ldaps:// avec un hôte explicite.")
         end;
  port ← of_outcome (url_port parsed);
  of_outcome (validate_outbound_host host
    (match port with
     | Some 0 | None => if decide (url_scheme parsed = "ldaps") then 636 else 389
     | Some p => p
     end)) ;;
  timeout ← of_outcome (match dict_get "connect_timeout_seconds" configuration with Some j => int_of_json j | None => Ok 10 end);
  raise_if ((timeout <? 1) || (60 <? timeout))
    (IdentitySourceConfigurationError "Le délai de connexion LDAP doit être compris entre 1 et 60 secondes.") ;;
  of_outcome (known_fields configuration LDAP_FIELDS).

Definition check_oidc (configuration : list (string * json)) : M unit :=
  of_outcome (_required configuration ["issuer"; "client_id"; "client_secret"]) ;;
  parsed ← of_outcome (parse_address configuration "issuer");
  raise_if (bool_decide (url_scheme parsed ≠ "https") || bool_decide (url_hostname parsed = None))
    (IdentitySourceConfigurationError "L’émetteur OIDC doit être une URL HTTPS absolue.") ;;
  of_outcome (match dict_get "issuer" configuration with
              | Some (JStr s) => validate_outbound_url s ["https"]
              | _ => Raise (OtherError "AttributeError")
              end) ;;
  of_outcome (known_fields configuration OIDC_FIELDS).

Definition validate_identity_source_configuration (kind : string) (configuration : list (string * json)) : M unit :=
  if decide (kind ∈ ["ldap"; "active_directory"]) then check_ldap configuration
  else if decide (kind = "oidc") then check_oidc configuration
  else raise (IdentitySourceConfigurationError "Type de source d’identité non pris en charge.").

(** The encrypted configuration and its key. *)
Definition set_identity_source_configuration (kind : string) (configuration : list (string * json)) : M (string * string) :=
  validate_identity_source_configuration kind configuration ;;
  c ← encrypt_payload configuration;
  mret (c, active_key_id).

(** [existing.get(key, default)] *)
Definition kept_value (existing : list (string * json)) (key : string) (d : json) : json :=
  default d (dict_get key existing).

(** [cleaned.get(secret) or existing.get(secret, "")] *)
Definition text_or_kept (v : string) (existing : list (string * json)) (key : string) : json :=
  if decide (v = "") then kept_value existing key (JStr "") else JStr v.

(** [is_valid()] swallows the [ValidationError]s of the configuration. *)
Definition invalid_if_refused {A} (m : M A) : M (option A) :=
  try_except (x ← m; mret (Some x)) (λ e, match e with ValidationError _ => Some (mret None) | _ => None end).

Definition blank_source : identity_source :=
  IdentitySource "" "" false "" "keyring-v1" None SYNC_NEVER "" (Stamps 0 0) "" true false 60.

Definition existing_configuration (self : option (obj identity_source)) : M (list (string * json)) :=
  match self with
  | Some o => if decide (is_encrypted_configuration (val o) = "") then mret []
              else get_identity_source_configuration (val o)
  | None => mret []
  end.

(** The columns common to both kinds of form. *)
Definition source_columns (d : db) (self : option (obj identity_source)) (q : querydict) (kinds : list string)
    : option (string * string * string) :=
  name ← char_field q "name" true (Some 150);
  slug ← slug_field q "slug" true 150;
  kind ← choice_field q "kind" true kinds;
  require (negb (taken (pk <$> self) (λ s, bool_decide (is_name s = name)) (identity_sources d))) ;;
  require (negb (taken (pk <$> self) (λ s, bool_decide (is_slug s = slug)) (identity_sources d))) ;;
  Some (name, slug, kind).

Definition source_values (self : option (obj identity_source)) : identity_source :=
  match self with Some o => val o | None => blank_source end.

Definition ldap_configuration (q : querydict) (existing : list (string * json)) : option (list (string * json)) :=
  server_uri ← char_field q "server_uri" false None;
  bind_dn ← char_field q "bind_dn" false None;
  bind_password ← char_field q "bind_password" false None;
  base_dn ← char_field q "base_dn" false None;
  user_filter ← char_field q "user_filter" false None;
  group_filter ← char_field q "group_filter" false None;
  Some [("server_uri", JStr server_uri); ("bind_dn", JStr bind_dn);
        ("bind_password", text_or_kept bind_password existing "bind_password");
        ("base_dn", JStr base_dn); ("user_filter", JStr user_filter); ("group_filter", JStr group_filter);
        ("username_attribute", kept_value existing "username_attribute" (JStr "sAMAccountName"));
        ("email_attribute", kept_value existing "email_attribute" (JStr "mail"));
        ("display_name_attribute", kept_value existing "display_name_attribute" (JStr "displayName"));
        ("group_attribute", kept_value existing "group_attribute" (JStr "memberOf"));
        ("use_start_tls", kept_value existing "use_start_tls" (JBool false));
        ("connect_timeout_seconds", kept_value existing "connect_timeout_seconds" (JInt 10))].

Definition oidc_configuration (d : db) (q : querydict) (existing : list (string * json)) : option (list (string * json)) :=
  issuer ← url_field q "issuer";
  client_id ← char_field q "client_id" false None;
  client_secret ← char_field q "client_secret" false None;
  scopes ← char_field q "scopes" false None;
  groups_claim ← char_field q "groups_claim" false None;
  allowed_email_domains ← char_field q "allowed_email_domains" false None;
  allowed_emails ← char_field q "allowed_emails" false None;
  group ← model_choice uuid_key (base.filter (λ kv, ug_enabled kv.2 = true) (user_groups d)) q "default_user_group" false;
  Some [("issuer", JStr issuer); ("client_id", JStr client_id);
        ("client_secret", text_or_kept client_secret existing "client_secret");
        ("scopes", JStr (or_default scopes "openid email profile"));
        ("username_claim", kept_value existing "username_claim" (JStr "preferred_username"));
        ("email_claim", kept_value existing "email_claim" (JStr "email"));
        ("display_name_claim", kept_value existing "display_name_claim" (JStr "name"));
        ("groups_claim", JStr (or_default groups_claim "groups"));
        ("allowed_email_domains", JStr allowed_email_domains); ("allowed_emails", JStr allowed_emails);
        ("default_user_group", match group with
                               | Some g => JStr (str_uuid g)
                               | None => kept_value existing "default_user_group" (JStr "")
                               end)].

(** The source and its configuration, when the form is valid. *)
Definition LDAPIdentitySourceForm (self : option (obj identity_source)) (q : querydict)
    : M (option (identity_source * list (string * json))) :=
  existing ← existing_configuration self;
  d ← asks (λ d, d);
  match (columns ← source_columns d self q ["ldap"; "active_directory"];
         interval ← required_int q "sync_interval_minutes" 5 10080;
         configuration ← ldap_configuration q existing;
         Some (columns, interval, configuration)) with
  | None => mret None
  | Some ((name, slug, kind), interval, configuration) =>
      valid ← invalid_if_refused (validate_identity_source_configuration kind configuration);
      mret (match valid with
            | None => None
            | Some _ =>
                Some (source_values self <| is_name := name |> <| is_slug := slug |> <| is_kind := kind |>
                        <| is_enabled := checkbox q "enabled" |> <| is_sync_enabled := checkbox q "sync_enabled" |>
                        <| is_sync_interval_minutes := interval |>, configuration)
            end)
  end.

Definition OIDCIdentitySourceForm (self : option (obj identity_source)) (q : querydict)
    : M (option (identity_source * list (string * json))) :=
  existing ← existing_configuration self;
  d ← asks (λ d, d);
  match (columns ← source_columns d self q ["ldap"; "active_directory"; "oidc"];
         configuration ← oidc_configuration d q existing;
         Some (columns, configuration)) with
  | None => mret None
  | Some ((name, slug, _), configuration) =>
      valid ← invalid_if_refused (validate_identity_source_configuration "oidc" configuration);
      mret (match valid with
            | None => None
            | Some _ =>
                Some (source_values self <| is_name := name |> <| is_slug := slug |> <| is_kind := "oidc" |>
                        <| is_enabled := checkbox q "enabled" |>, configuration)
            end)
  end.

(** [form.save()] up to the write. *)
Definition seal_source (s : identity_source) (configuration : list (string * json)) : M identity_source :=
  sealed ← set_identity_source_configuration (is_kind s) configuration;
  mret (s <| is_verify_tls := true |> <| is_encrypted_configuration := sealed.1 |> <| is_key_id := sealed.2 |>).
End sources.
