(* ===== verification/Console.v ===== *)
(** * Configuration pages of the console ([pamolive/console/views.py])

    The pages that create and change users, groups, roles, identity sources, mappings,
    domains, targets, host keys, accounts, policies, time frames, rotation policies,
    SIEM integrations and the platform security policy: who may open them, who may
    submit them, what they write and what they record.

    The rows listed beside a form are display and left out; [can_manage], which greys
    the fields out, is kept in the context of the rendered page. *)

From S2P Require Import Prelude PyStr Json Loads Crypto PyTime Models World Text AuditTrail Rbac Ip Policies Vault.
From S2P Require Import Mfa Accounts Broker GatewayApi Licensing Directory Portal Outbound Forms ConsoleForms.
Import Capability.

Local Open Scope Z_scope.

(** ** Permissions *)

Section console.
Context {PF : Platform} {LE : LicenseEnv} {DF : DjangoForms} {OE : OutboundEnv}.

Definition _configuration_permission (u : principal) (r : http_request) (capability view_capability : string) : M bool :=
  can_manage ← user_has_capability u capability;
  (if (can_manage : bool) then mret tt
   else can_view ← can_view_configuration u capability (Some view_capability);
        raise_if (negb can_view) (PermissionDenied "")) ;;
  raise_if (bool_decide (rq_method r = "POST") && negb can_manage) (PermissionDenied "") ;;
  mret can_manage.

(** [@login_required @capability_required(c)] *)
Definition console_view (capability : string) (view : obj user → handler) : handler :=
  login_required (λ u r, capability_required capability (Authenticated u) (view u r)).

(** [get_object_or_404(Model, pk=pk) if pk else None] *)
Definition instance_or_404 {A} (tbl : db → gmap id A) (k : option id) : M (option (obj A)) :=
  match k with Some k => o ← get_or_404 tbl k; mret (Some o) | None => mret None end.

(** A bound form: validation first, then, if it is valid, what [form.save()] does. *)
Definition bound_form : Type := M (option (M resource)).

Definition of_form {A} (form : db → option A) (save : A → M resource) : bound_form :=
  x ← asks form; mret (save <$> x).

Definition _save_form (u : obj user) (form : bound_form) (model_name redirect_name : string) : M (option response) :=
  valid ← form;
  match valid with
  | None => mret None
  | Some save =>
      res ← save;
      record_event (Some (pk u)) ("console." +:+ model_name +:+ ".saved") res [] None ;;
      mret (Some (RedirectTo redirect_name []))
  end.

Definition opt_key {A} (o : option (obj A)) : json := match o with Some x => JStr (str_uuid (pk x)) | None => JNull end.

Definition _render_resource {A} (r : http_request) (name : string) (editing : option (obj A)) (can_manage : bool)
    : M (response * http_request) :=
  mret (Rendered "console/resource.html" 200
          [("resource", JStr name); ("editing", opt_key editing); ("can_manage", JBool can_manage)], r).

(** The shape the resource pages share. *)
Definition resource_page {A} (manage view_cap model_name name : string) (tbl : db → gmap id A)
    (adjust : option (obj A) → bool → bool) (form : option (obj A) → bound_form) (k : option id) : handler :=
  console_view CONSOLE_ACCESS (λ u r,
    can_manage ← _configuration_permission (Authenticated u) r manage view_cap;
    instance ← instance_or_404 tbl k;
    saved ← (if decide (rq_method r = "POST")
             then _save_form u (form instance) model_name ("console:" +:+ name) else mret None);
    match saved with
    | Some resp => mret (resp, r)
    | None => _render_resource r name instance (adjust instance can_manage)
    end).

Definition as_is {A} (_ : option (obj A)) (can_manage : bool) : bool := can_manage.

(** ** Saving *)

Definition write_row {A} (tbl : db → gmap id A) `{!Setter tbl} (self : option (obj A)) (v : A) : M id :=
  match self with
  | Some o => modify (λ d, d <| tbl ::= <[pk o := v]> |>) ;; mret (pk o)
  | None => k ← uuid4; insert_row tbl k v ;; mret k
  end.

(** The page of a table whose form writes a plain row. *)
Definition row_form {A} (tbl : db → gmap id A) `{!Setter tbl} (label : string)
    (form : db → option (obj A) → querydict → option A) (q : querydict) (self : option (obj A)) : bound_form :=
  of_form (λ d, form d self q) (λ v, k ← write_row tbl self v; mret (Resource label (str_uuid k))).

(** ** Users, groups, roles *)

Definition user_form (q : querydict) (self : option (obj user)) : bound_form :=
  match self with
  | Some o => of_form (λ d, UserUpdateForm d o q) (λ u, save_user (pk o) u ;; mret (user_resource (Obj (pk o) u)))
  | None =>
      of_form (λ d, UserCreateForm d q) (λ '(u, password),
        hash ← draw (λ n, make_password n password);
        o ← create_user (u <| u_password := hash |>);
        mret (user_resource o))
  end.

Definition users_page (k : option id) (q : querydict) : handler :=
  resource_page USERS_MANAGE USERS_VIEW "user" "users" users as_is (user_form q) k.

Definition user_groups_page (k : option id) (q : querydict) : handler :=
  resource_page GROUPS_MANAGE GROUPS_VIEW "usergroup" "user_groups" user_groups as_is
    (row_form user_groups "rbac.usergroup" UserGroupForm q) k.

(** [if instance and instance.is_system: can_manage = False] *)
Definition system_locked (self : option (obj role)) (can_manage : bool) : bool :=
  match self with Some o => if ro_is_system (val o) then false else can_manage | None => can_manage end.

Definition roles_page (k : option id) (q : querydict) : handler :=
  resource_page ROLES_MANAGE ROLES_VIEW "role" "roles" roles system_locked
    (row_form roles "rbac.role" RoleForm q) k.

(** ** Identity sources *)

Definition write_source (self : option (obj identity_source)) (s : identity_source) : M id :=
  match self with
  | Some o => t ← now; write_row identity_sources self (s <| is_stamps ::= touch t |>)
  | None => st ← new_stamps; write_row identity_sources self (s <| is_stamps := st |>)
  end.

Definition source_form (form : option (obj identity_source) → querydict → M (option (identity_source * list (string * json))))
    (q : querydict) (self : option (obj identity_source)) : bound_form :=
  x ← form self q;
  mret ((λ '(s, configuration),
    sealed ← seal_source s configuration;
    k ← write_source self sealed;
    mret (source_resource k)) <$> x).

(** [get_object_or_404(IdentitySource, pk=pk, kind__in=kinds)] *)
Definition source_or_404 (kinds : list string) (k : option id) : M (option (obj identity_source)) :=
  o ← instance_or_404 identity_sources k;
  match o with
  | Some x => if decide (is_kind (val x) ∈ kinds) then mret o else raise Http404
  | None => mret None
  end.

(** What the discovery document of an issuer answers: [None] for a
    [RequestException] or for a body that is not JSON. *)
Context (discovery : string → option (list (string * json))).

Definition oidc_discovery_url (issuer : string) : string := rstrip_char "/" issuer +:+ "/.well-known/openid-configuration".

Definition required_metadata : list string := ["issuer"; "authorization_endpoint"; "token_endpoint"; "jwks_uri"].

Definition text_member (l : list (string * json)) (k : string) : outcome string :=
  match dict_get k l with Some (JStr s) => Ok s | _ => Raise (OtherError "AttributeError") end.

(** [test_oidc_provider_configuration] on the configuration of a source. *)
Definition check_provider (configuration : list (string * json)) : M (list (string * json)) :=
  validate_identity_source_configuration "oidc" configuration ;;
  issuer ← of_outcome (text_member configuration "issuer");
  match discovery (oidc_discovery_url issuer) with
  | None => raise (IdentitySourceConfigurationError "Impossible de joindre la découverte OIDC.")
  | Some metadata =>
      raise_if (existsb (missing metadata) required_metadata)
        (IdentitySourceConfigurationError "Métadonnées OIDC incomplètes.") ;;
      returned ← of_outcome (text_member metadata "issuer");
      raise_if (bool_decide (rstrip_char "/" returned ≠ rstrip_char "/" issuer))
        (IdentitySourceConfigurationError "L’issuer retourné par le fournisseur ne correspond pas à l’issuer configuré.") ;;
      for_each required_metadata (λ field,
        v ← of_outcome (text_member metadata field); of_outcome (validate_outbound_url v ["https"])) ;;
      mret metadata
  end.

Definition test_oidc_provider_configuration (source : identity_source) : M (list (string * json)) :=
  raise_if (bool_decide (is_kind source ≠ "oidc"))
    (IdentitySourceConfigurationError "Cette source n’est pas un fournisseur OIDC.") ;;
  configuration ← get_identity_source_configuration source;
  check_provider configuration.

(** The draft test of the OIDC page: the source is sealed but not written. *)
Definition test_draft (form : M (option (identity_source * list (string * json)))) : M unit :=
  x ← form;
  match x with
  | None => mret tt
  | Some (s, configuration) =>
      sealed ← seal_source (blank_source <| is_name := is_name s |> <| is_slug := is_slug s |> <| is_kind := "oidc" |>)
                 configuration;
      invalid_if_refused (test_oidc_provider_configuration sealed) ;; mret tt
  end.

Definition _identity_sources (kinds : list string)
    (form : option (obj identity_source) → querydict → M (option (identity_source * list (string * json))))
    (name : string) (k : option id) (q : querydict) : handler :=
  console_view CONSOLE_ACCESS (λ u r,
    can_manage ← _configuration_permission (Authenticated u) r IDENTITY_SOURCES_MANAGE IDENTITY_SOURCES_VIEW;
    instance ← source_or_404 kinds k;
    saved ← (if decide (rq_method r = "POST") then
               if bool_decide (name = "oidc_sources") && submitted q "test_draft"
               then test_draft (form instance q) ;; mret None
               else _save_form u (source_form form q instance) "identitysource" ("console:" +:+ name)
             else mret None);
    match saved with
    | Some resp => mret (resp, r)
    | None => _render_resource r name instance can_manage
    end).

Definition ldap_sources_page : option id → querydict → handler :=
  _identity_sources ["ldap"; "active_directory"] LDAPIdentitySourceForm "ldap_sources".
Definition identity_sources_page : option id → querydict → handler :=
  _identity_sources ["ldap"; "active_directory"] LDAPIdentitySourceForm "identity_sources".
Definition oidc_sources_page : option id → querydict → handler :=
  _identity_sources ["oidc"] OIDCIdentitySourceForm "oidc_sources".

(** A provider that answers is recorded; a failure only shows a message. *)
Definition test_oidc_source (k : id) : handler := login_required (λ u, require_POST (λ r,
  capability_required CONSOLE_ACCESS (Authenticated u) (
    _configuration_permission (Authenticated u) r IDENTITY_SOURCES_MANAGE IDENTITY_SOURCES_VIEW ;;
    source ← source_or_404 ["oidc"] (Some k);
    match source with
    | None => raise Http404
    | Some s =>
        tested ← invalid_if_refused (test_oidc_provider_configuration (val s));
        match tested with
        | None => mret tt
        | Some metadata =>
            record_event (Some (pk u)) "console.identitysource.oidc_test_succeeded" (source_resource k)
              [("issuer", default JNull (dict_get "issuer" metadata));
               ("authorization_endpoint", default JNull (dict_get "authorization_endpoint" metadata))] None ;;
            mret tt
        end ;;
        mret (RedirectTo "console:oidc_source_edit" [("pk", str_uuid k)], r)
    end))).

Definition directory_mappings_page (k : option id) (q : querydict) : handler :=
  resource_page IDENTITY_SOURCES_MANAGE IDENTITY_SOURCES_VIEW "directorygroupmapping" "directory_mappings"
    group_mappings as_is
    (row_form group_mappings "connectors.directorygroupmapping" DirectoryGroupMappingForm q) k.

(** ** Targets *)

Definition target_resource (k : id) : resource := Resource "targets.target" (str_uuid k).
Definition credential_resource (k : id) : resource := Resource "vault.credential" (str_uuid k).

(** [form.save()] of a target: the licence limit, then the row. *)
Definition write_target (self : option (obj target)) (t : target) : M id :=
  match self with
  | Some o => save_target (pk o) t ;; mret (pk o)
  | None => k ← uuid4; enforce_target_limit (Some k) ;; insert_row targets k t ;; mret k
  end.

(** One transaction: the target, its first account, and their events. *)
Definition save_target_and_credential (u : obj user) (self : option (obj target)) (t : target)
    (first : initial_credential) : M unit :=
  atomic (
    k ← write_target self t;
    created ← save_initial_credential (Obj k t) first;
    record_event (Some (pk u)) "console.target.saved" (target_resource k) [] None ;;
    match created with
    | Some c => record_event (Some (pk u)) "console.credential.created" (credential_resource c) [] None ;; mret tt
    | None => mret tt
    end).

Definition targets_page (k : option id) (q : querydict) : handler :=
  console_view CONSOLE_ACCESS (λ u r,
    can_manage ← _configuration_permission (Authenticated u) r TARGETS_MANAGE TARGETS_VIEW;
    instance ← instance_or_404 targets k;
    form ← (if decide (rq_method r = "POST") then asks (λ d, TargetForm d instance q) else mret None);
    match form with
    | Some (t, first) => save_target_and_credential u instance t first ;; redirect "console:targets" r
    | None => _render_resource r "targets" instance can_manage
    end).

Definition target_groups_page (k : option id) (q : querydict) : handler :=
  resource_page TARGET_GROUPS_MANAGE TARGET_GROUPS_VIEW "targetgroup" "target_groups" target_groups as_is
    (row_form target_groups "targets.targetgroup" TargetGroupForm q) k.

Definition domains_page (k : option id) (q : querydict) : handler :=
  resource_page DOMAINS_MANAGE DOMAINS_VIEW "domain" "domains" domains as_is
    (row_form domains "targets.domain" DomainForm q) k.

(** [host_key.save()]: parsed again; the fingerprint is unique per target. *)
Definition trust_host_key (u : obj user) (t : id) (public_key comment : string) : M (id * string) :=
  at_ ← now;
  k ← uuid4;
  parsed ← of_outcome (parse_ssh_public_key public_key);
  let '(key_type, normalized, fingerprint) := parsed in
  duplicate ← asks (λ d, exists_row (λ o, bool_decide (hk_target (val o) = t)
    && bool_decide (hk_fingerprint_sha256 (val o) = fingerprint)) (host_keys d));
  raise_if duplicate (IntegrityError "unique_target_host_key_fingerprint") ;;
  insert_row host_keys k (TargetHostKey t key_type normalized fingerprint comment at_ (Some (pk u)) None None) ;;
  mret (k, fingerprint).

Definition host_keys_page (q : querydict) : handler := login_required (λ u r,
  can_manage ← _configuration_permission (Authenticated u) r TARGETS_MANAGE TARGETS_VIEW;
  form ← (if decide (rq_method r = "POST") then asks (λ d, TargetHostKeyForm d q) else mret None);
  match form with
  | Some (t, key, comment) =>
      saved ← trust_host_key u t key comment;
      record_event (Some (pk u)) "target.host_key_trusted" (host_key_resource saved.1)
        [("target_id", JStr (str_uuid t)); ("fingerprint", JStr saved.2)] (REMOTE_ADDR (rq_meta r)) ;;
      redirect "console:host_keys" r
  | None => mret (Rendered "console/host_keys.html" 200 [("can_manage", JBool can_manage)], r)
  end).

Definition revoke_host_key (k : id) : handler :=
  require_POST (console_view TARGETS_MANAGE (λ u r,
    key ← get_or_404 host_keys k;
    raise_if (bool_decide (hk_revoked_at (val key) ≠ None)) Http404 ;;
    t ← now;
    save_fields host_keys k (λ h, h <| hk_revoked_at := Some t |> <| hk_revoked_by := Some (pk u) |>) ;;
    record_event (Some (pk u)) "target.host_key_revoked" (host_key_resource k)
      [("target_id", JStr (str_uuid (hk_target (val key))));
       ("fingerprint", JStr (hk_fingerprint_sha256 (val key)))] (REMOTE_ADDR (rq_meta r)) ;;
    redirect "console:host_keys" r)).

(** ** Accounts and policies *)

Definition write_credential (self : option (obj credential)) (c : credential) : M id :=
  match self with
  | Some o => t ← now; write_row credentials self (c <| c_stamps ::= touch t |>)
  | None => st ← new_stamps; write_row credentials self (c <| c_stamps := st |>)
  end.

Definition credential_page_form (q : querydict) (self : option (obj credential)) : bound_form :=
  of_form (λ d, TargetCredentialForm d self q)
    (λ f, c ← seal_credential f; k ← write_credential self c; mret (credential_resource k)).

Definition credentials_page (k : option id) (q : querydict) : handler :=
  resource_page CREDENTIALS_MANAGE CREDENTIALS_VIEW_METADATA "credential" "credentials" credentials as_is
    (credential_page_form q) k.

Definition policies_page (k : option id) (q : querydict) : handler :=
  resource_page POLICIES_MANAGE POLICIES_VIEW "accesspolicy" "policies" policies as_is
    (row_form policies "policies.accesspolicy" AccessPolicyForm q) k.

Definition time_frames_page (k : option id) (q : querydict) : handler :=
  resource_page POLICIES_MANAGE POLICIES_VIEW "timeframe" "time_frames" time_frames as_is
    (row_form time_frames "policies.timeframe" TimeFrameForm q) k.

Definition rotation_policies_page (k : option id) (q : querydict) : handler :=
  resource_page POLICIES_MANAGE POLICIES_VIEW "secretrotationpolicy" "rotation_policies" rotation_policies as_is
    (row_form rotation_policies "policies.secretrotationpolicy" SecretRotationPolicyForm q) k.

(** ** System *)

Definition siem_kind_str (k : siem_kind) : string :=
  match k with HTTPS_WEBHOOK => "https_webhook" | SYSLOG_TLS => "syslog_tls" end.

Definition siem_integrations_page (k : option id) (q : querydict) : handler := login_required (λ u r,
  can_manage ← _configuration_permission (Authenticated u) r SYSTEM_MANAGE SYSTEM_VIEW;
  instance ← instance_or_404 siem_integrations k;
  form ← (if decide (rq_method r = "POST") then asks (λ d, SIEMIntegrationForm d instance q) else mret None);
  match form with
  | Some (i, token) =>
      sealed ← seal_siem i token;
      saved ← write_row siem_integrations instance sealed;
      record_event (Some (pk u)) "system.siem_integration.saved" (Resource "audit.siemintegration" (str_uuid saved))
        [("kind", JStr (siem_kind_str (si_kind sealed))); ("enabled", JBool (si_enabled sealed))] None ;;
      redirect "console:siem_integrations" r
  | None => mret (Rendered "console/siem_integrations.html" 200
                    [("editing", opt_key instance); ("can_manage", JBool can_manage)], r)
  end).

Definition security_policy_resource : resource := Resource "accounts.platformsecuritypolicy" "1".

Definition security_policy_page (q : querydict) : handler := login_required (λ u r,
  can_manage ← _configuration_permission (Authenticated u) r SYSTEM_MANAGE SYSTEM_VIEW;
  policy ← get_security_policy;
  step_up ← (if decide (rq_method r = "POST")
             then sensitive_mfa_required u r "modifier la politique de sécurité" else mret None);
  match step_up with
  | Some resp => mret (resp, r)
  | None =>
      match (if decide (rq_method r = "POST") then PlatformSecurityPolicyForm policy q else None) with
      | Some p =>
          let p := p <| psp_updated_by := Some (pk u) |> in
          save_security_policy p ;;
          record_event (Some (pk u)) "system.session_security_policy.updated" security_policy_resource
            [("idle_timeout_minutes", JInt (idle_timeout_minutes p));
             ("absolute_session_minutes", JInt (absolute_session_minutes p));
             ("require_mfa_for_all_users", JBool (require_mfa_for_all_users p));
             ("sensitive_action_mfa_window_minutes", JInt (sensitive_action_mfa_window_minutes p))] None ;;
          redirect "console:security_policy" r
      | None => mret (Rendered "console/security_policy.html" 200 [("can_manage", JBool can_manage)], r)
      end
  end).

(** ** The pages *)

Inductive page :=
  | Users | UserGroups | Roles | LdapSources | IdentitySources | OidcSources | DirectoryMappings | Domains
  | Targets | HostKeys | TargetGroups | Credentials | Policies | TimeFrames | RotationPolicies | SiemIntegrations.

(** The route of each page; [k]: the row being edited. *)
Definition page_view (p : page) (k : option id) (q : querydict) : handler :=
  match p with
  | Users => users_page k q
  | UserGroups => user_groups_page k q
  | Roles => roles_page k q
  | LdapSources => ldap_sources_page k q
  | IdentitySources => identity_sources_page k q
  | OidcSources => oidc_sources_page k q
  | DirectoryMappings => directory_mappings_page k q
  | Domains => domains_page k q
  | Targets => targets_page k q
  | HostKeys => host_keys_page q
  | TargetGroups => target_groups_page k q
  | Credentials => credentials_page k q
  | Policies => policies_page k q
  | TimeFrames => time_frames_page k q
  | RotationPolicies => rotation_policies_page k q
  | SiemIntegrations => siem_integrations_page k q
  end.
End console.

(** ** Who may change the configuration, and what is recorded *)

Section authorisation.
Context {PF : Platform} {LE : LicenseEnv} {DF : DjangoForms} {OE : OutboundEnv}.

(** The capability a page asks of those who submit it. *)
Definition manage_capability (p : page) : string :=
  match p with
  | Users => USERS_MANAGE
  | UserGroups => GROUPS_MANAGE
  | Roles => ROLES_MANAGE
  | LdapSources | IdentitySources | OidcSources | DirectoryMappings => IDENTITY_SOURCES_MANAGE
  | Domains => DOMAINS_MANAGE
  | Targets | HostKeys => TARGETS_MANAGE
  | TargetGroups => TARGET_GROUPS_MANAGE
  | Credentials => CREDENTIALS_MANAGE
  | Policies | TimeFrames | RotationPolicies => POLICIES_MANAGE
  | SiemIntegrations => SYSTEM_MANAGE
  end.

(** The user holds the capability at an instant: a super-administrator, or through an
    enabled role that reaches the user then. *)
Definition holds (d : db) (u : obj user) (c : string) (t : Z) : Prop :=
  u_is_superuser (val u) = true ∨
  ∃ r, roles d !! pk r = Some (val r) ∧ ro_enabled (val r) = true ∧ c ∈ ro_capabilities (val r) ∧
       role_reaches d (pk u) (pk r) t.

(** A new event of the chain names the user. *)
Definition recorded (d d' : db) (u : obj user) (e : obj audit_event) : Prop :=
  audit_events d !! pk e = None ∧ audit_events d' !! pk e = Some (val e) ∧ e_actor (val e) = Some (pk u).

(** A run that answers after changing the database left an event of the user. *)
Definition audited {A} (u : obj user) (m : M A) : Prop := ∀ w x w',
  m w = (Ok x, w') → w_db w' = w_db w ∨ ∃ e, recorded (w_db w) (w_db w') u e.

(** The audit events are left alone, whatever the outcome. *)
Definition keeps_events {A} (m : M A) : Prop := ∀ es, preserves (λ d, audit_events d = es) m.

Lemma has_capability_quiet u c : quiet (user_has_capability u c).
Proof. unfold user_has_capability, user_capabilities. solve_quiet. Qed.

Lemma has_capability_holds u c w w' :
  user_has_capability (Authenticated u) c w = (Ok true, w') → holds (w_db w) u c (w_clock w).
Proof.
  destruct (u_is_superuser (val u)) eqn:E; [by left|]. rewrite (user_has_capability_run _ _ _ E).
  intros [= H _]. apply bool_decide_eq_true_1, elem_of_capabilities_of_roles in H as (r & Hr & Hc).
  apply elem_of_group_or_direct in Hr as (?&?&?). right. by exists r.
Qed.

Lemma permission_quiet u r c v : quiet (_configuration_permission u r c v).
Proof.
  pose proof has_capability_quiet. unfold _configuration_permission, can_view_configuration. solve_quiet.
Qed.

(** Who passes with a POST request holds the managing capability. *)
Lemma permission_post u r c v w b w' :
  _configuration_permission (Authenticated u) r c v w = (Ok b, w') → rq_method r = "POST" →
  holds (w_db w) u c (w_clock w).
Proof.
  intros H HP. unfold _configuration_permission in H. run_inv H. destruct a; [by eapply has_capability_holds|].
  by rewrite bool_decide_true in R1 by done.
Qed.

Lemma audited_quiet {A} u (m : M A) : quiet m → audited u m.
Proof. intros H w x w' E. left. by destruct (quiet_run _ _ _ _ H E). Qed.

(** A write, then its event. *)
Lemma audited_save {A B} u (m : M A) action (res : A → resource) md ip (k : A → M B) :
  keeps_events m → (∀ a, quiet (k a)) →
  audited u (a ← m; record_event (Some (pk u)) action (res a) (md a) ip ;; k a).
Proof.
  intros Hm Hk w x w' H. run_inv H. apply record_event_ok_inv in R0 as (st & sig & _ & Hv & _ & _ & Hn & _ & _ & He & _).
  destruct (quiet_run _ _ _ _ (Hk a) H) as [-> _]. right. exists a0.
  pose proof (Hm (audit_events (w_db w)) w eq_refl) as E. rewrite R in E. simpl in E.
  split; [by rewrite <-E|]. split; [rewrite He; apply lookup_insert_eq|by rewrite Hv].
Qed.

Lemma audited_bind_quiet {A B} u (m : M A) (k : A → M B) :
  quiet m → (∀ a, audited u (k a)) → audited u (m ≫= k).
Proof.
  intros Hm Hk w x w' H. apply bind_ok_inv in H as (a & w1 & E & H).
  destruct (quiet_run _ _ _ _ Hm E) as [<- _]. by eapply Hk.
Qed.

Lemma audited_bind_then {A B} u (m : M A) (k : A → M B) :
  audited u m → (∀ a, quiet (k a)) → audited u (m ≫= k).
Proof.
  intros Hm Hk w x w' H. apply bind_ok_inv in H as (a & w1 & E & H).
  destruct (quiet_run _ _ _ _ (Hk a) H) as [-> _]. by eapply Hm.
Qed.

(** A page: shown without writing, and audited when it writes. *)
Definition page_body (u : obj user) (r : http_request) (body : bool → M (response * http_request)) : Prop :=
  (rq_method r ≠ "POST" → ∀ b, quiet (body b)) ∧ ∀ b, audited u (body b).

(** What is known of a request that changed the database: the user held the
    capability at the first or the second reading of the clock. *)
Definition justified (c : string) (r : http_request) (w : world) (res : outcome (response * http_request)) (w' : world)
    : Prop :=
  ∃ u, rq_user r = Authenticated u ∧ rq_method r = "POST" ∧
    (∃ t, t ∈ [w_clock w; w_clock (advance w)] ∧ holds (w_db w) u c t) ∧
    (is_ok res = true → ∃ e, recorded (w_db w) (w_db w') u e).

Definition authorised_page (c : string) (h : handler) : Prop := ∀ r w res w',
  h r w = (res, w') → w_db w' ≠ w_db w → justified c r w res w'.

Lemma guarded_body c v u r body w0 w res w' :
  rq_user r = Authenticated u → page_body u r body → w_db w = w_db w0 → w_clock w ∈ [w_clock w0; w_clock (advance w0)] →
  (b ← _configuration_permission (Authenticated u) r c v; body b) w = (res, w') →
  w_db w' ≠ w_db w0 → justified c r w0 res w'.
Proof.
  intros Hu [Hq Ha] Hw0 Ht H Hne. pose proof (permission_quiet (Authenticated u) r c v w) as Hp.
  destruct (_configuration_permission _ r c v w) as [[b|e] w1] eqn:E; destruct Hp as [Hd _]; simpl in Hd.
  2:{ rewrite (bind_raise _ _ _ _ _ E) in H. injection H as <- <-. congruence. }
  rewrite (bind_ok _ _ _ _ _ E) in H. destruct (decide (rq_method r = "POST")) as [HP|HP].
  2:{ destruct (quiet_run _ _ _ _ (Hq HP b) H). congruence. }
  exists u. split; [done|]. split; [done|]. split.
  - exists (w_clock w). split; [done|]. rewrite <-Hw0. by eapply permission_post.
  - destruct res as [x|]; [|done]. intros _. destruct (Ha b _ _ _ H) as [?|[e He]]; [congruence|].
    exists e. by rewrite <-Hw0, <-Hd.
Qed.

Lemma login_page c v (body : obj user → http_request → bool → M (response * http_request)) :
  (∀ u r, page_body u r (body u r)) →
  authorised_page c (login_required (λ u r, b ← _configuration_permission (Authenticated u) r c v; body u r b)).
Proof.
  intros Hb r w res w'. unfold login_required. destruct (rq_user r) as [|u] eqn:Hu; [by intros [= <- <-]|].
  intros H. eapply guarded_body; eauto. left.
Qed.

Lemma has_capability_clock u c w b w1 :
  user_has_capability (Authenticated u) c w = (Ok b, w1) → w_clock w1 ∈ [w_clock w; w_clock (advance w)].
Proof.
  unfold user_has_capability, user_capabilities. intros H. run_inv H.
  destruct (u_is_superuser (val u)); run_inv R; [left|right; left].
Qed.

Lemma console_page c v (body : obj user → http_request → bool → M (response * http_request)) :
  (∀ u r, page_body u r (body u r)) →
  authorised_page c (console_view CONSOLE_ACCESS
    (λ u r, b ← _configuration_permission (Authenticated u) r c v; body u r b)).
Proof.
  intros Hb r w res w'. unfold console_view, login_required.
  destruct (rq_user r) as [|u] eqn:Hu; [by intros [= <- <-]|]. unfold capability_required.
  pose proof (has_capability_quiet (Authenticated u) CONSOLE_ACCESS w) as Hq.
  destruct (user_has_capability _ _ w) as [[b|e] w1] eqn:E; destruct Hq as [Hd _]; simpl in Hd.
  2:{ rewrite (bind_raise _ _ _ _ _ E). by intros [= <- <-]. }
  rewrite (bind_ok _ _ _ _ _ E). destruct b; [|by intros [= <- <-]].
  intros H. eapply guarded_body; eauto using has_capability_clock.
Qed.

(** Validation writes nothing, and saving leaves the audit events alone. *)
Definition sound_form (form : bound_form) : Prop :=
  quiet form ∧ ∀ w save w1, form w = (Ok (Some save), w1) → keeps_events save.

Lemma save_form_audited u form model name : sound_form form → audited u (_save_form u form model name).
Proof.
  intros [Hq Hs] w x w' H. unfold _save_form in H. apply bind_ok_inv in H as (valid & w1 & E & H).
  destruct (quiet_run _ _ _ _ Hq E) as [<- _]. destruct valid as [save|]; [|prim_inv H; by left].
  eapply (audited_save u save); [by eapply Hs| |exact H]. intros; apply quiet_ret.
Qed.

Lemma instance_quiet {A} (tbl : db → gmap id A) k : quiet (instance_or_404 tbl k).
Proof. unfold instance_or_404, get_or_404. solve_quiet. Qed.

(** The instance is fetched, the form is saved or the page is shown. *)
Lemma saving_body {A} u r (instance : M A) (submit : A → M (option response)) show :
  quiet instance → (∀ a, audited u (submit a)) → (∀ a b, quiet (show a b)) →
  page_body u r (λ b, a ← instance;
    saved ← (if decide (rq_method r = "POST") then submit a else mret None);
    match saved with Some resp => mret (resp, r) | None => show a b end).
Proof.
  intros Hi Hs Hr. split.
  - intros HP b. destruct (decide _); [done|]. pose proof Hr. solve_quiet.
  - intros b. apply audited_bind_quiet; [done|]. intros a. apply audited_bind_then; [|pose proof Hr; intros; solve_quiet].
    destruct (decide _); [apply Hs|]. apply audited_quiet, quiet_ret.
Qed.

Lemma resource_page_authorised {A} c v model name (tbl : db → gmap id A) adjust form k :
  (∀ self, sound_form (form self)) →
  authorised_page c (resource_page c v model name tbl adjust form k).
Proof.
  intros Hf. unfold resource_page. apply console_page. intros u r.
  apply (saving_body u r (instance_or_404 tbl k)); [apply instance_quiet|intros; by apply save_form_audited|].
  intros. apply quiet_ret.
Qed.

(** Tables whose writes do not touch the audit events. *)
Class AuditApart {A} (tbl : db → gmap id A) `{!Setter tbl} :=
  audit_apart : ∀ f d, audit_events (set_field tbl f d) = audit_events d.

Lemma insert_keeps_events {A} (tbl : db → gmap id A) `{!Setter tbl, !AuditApart tbl} k v : keeps_events (insert_row tbl k v).
Proof. intros es. apply preserves_insert. intros d _ <-. apply audit_apart. Qed.
Lemma save_keeps_events {A} (tbl : db → gmap id A) `{!Setter tbl, !AuditApart tbl} k f : keeps_events (save_fields tbl k f).
Proof. intros es. apply preserves_save. intros d v' _ <-. apply audit_apart. Qed.
Lemma modify_keeps_events {A} (tbl : db → gmap id A) `{!Setter tbl, !AuditApart tbl} f : keeps_events (modify (set_field tbl f)).
Proof. intros es. apply preserves_modify. intros d <-. apply audit_apart. Qed.
Lemma bind_keeps_events {A B} (m : M A) (f : A → M B) :
  keeps_events m → (∀ a, keeps_events (f a)) → keeps_events (m ≫= f).
Proof. intros Hm Hf es. apply preserves_bind; [apply Hm|intros; apply Hf]. Qed.
Lemma quiet_keeps_events {A} (m : M A) : quiet m → keeps_events m.
Proof. intros H es. by apply quiet_preserves. Qed.

Lemma write_keeps_events {A} (tbl : db → gmap id A) `{!Setter tbl, !AuditApart tbl} self v :
  keeps_events (write_row tbl self v).
Proof.
  unfold write_row. destruct self.
  - apply bind_keeps_events; [by apply modify_keeps_events|]. intros. apply quiet_keeps_events, quiet_ret.
  - apply bind_keeps_events; [apply quiet_keeps_events, quiet_uuid4|]. intros.
    apply bind_keeps_events; [by apply insert_keeps_events|]. intros. apply quiet_keeps_events, quiet_ret.
Qed.

Lemma of_form_sound {A} (form : db → option A) save : (∀ a, keeps_events (save a)) → sound_form (of_form form save).
Proof.
  intros Hs. split; [unfold of_form; solve_quiet|]. intros w f w1. unfold of_form, asks, mbind, M_bind.
  destruct (form (w_db w)); intros [= <- <-]. apply Hs.
Qed.

Lemma row_form_sound {A} (tbl : db → gmap id A) `{!Setter tbl, !AuditApart tbl} label form q self :
  sound_form (row_form tbl label form q self).
Proof.
  apply of_form_sound. intros a. apply bind_keeps_events; [by apply write_keeps_events|].
  intros. apply quiet_keeps_events, quiet_ret.
Qed.

#[local] Hint Extern 0 (AuditApart _) => (intros ? ?; reflexivity) : typeclass_instances.
Create HintDb events.

(** Decompose a [keeps_events] goal; the hint database has the programs that write nothing. *)
Ltac solve_events :=
  repeat lazymatch goal with
    | |- keeps_events (_ ≫= _) => apply bind_keeps_events; [|intros]
    | |- keeps_events (insert_row _ _ _) => apply insert_keeps_events; apply _
    | |- keeps_events (write_row _ _ _) => apply write_keeps_events; apply _
    | |- keeps_events (modify _) => apply modify_keeps_events; apply _
    | |- keeps_events (match ?x with _ => _ end) => destruct x
    | |- keeps_events _ => apply quiet_keeps_events; solve [auto with pam events | solve_quiet]
    end.

Lemma target_limit_quiet k : quiet (enforce_target_limit k).
Proof. pose proof license_status_quiet. unfold enforce_target_limit. solve_quiet. Qed.
#[local] Hint Resolve target_limit_quiet active_limit_quiet : events.

#[local] Hint Resolve encrypt_quiet : events.

Lemma user_form_sound q self : sound_form (user_form q self).
Proof.
  unfold user_form, save_user, create_user. destruct self; apply of_form_sound; [intros|intros [??]]; solve_events.
Qed.

Lemma seal_credential_quiet f : quiet (seal_credential f).
Proof. pose proof encrypt_quiet. unfold seal_credential, plan_rotation. solve_quiet. Qed.
#[local] Hint Resolve seal_credential_quiet : events.

Lemma credential_form_sound q self : sound_form (credential_page_form q self).
Proof. apply of_form_sound. intros. unfold write_credential, new_stamps. solve_events. Qed.

Lemma configuration_quiet kind configuration : quiet (validate_identity_source_configuration kind configuration).
Proof. unfold validate_identity_source_configuration, check_ldap, check_oidc. solve_quiet. Qed.

Lemma quiet_try {A} (m : M A) h : quiet m → (∀ e k, h e = Some k → quiet k) → quiet (try_except m h).
Proof.
  intros Hm Hh w. specialize (Hm w). unfold try_except. destruct (m w) as [[a|e] w1]; [done|].
  destruct (h e) as [k|] eqn:E; [|done]. etrans; [exact Hm|by eapply Hh].
Qed.

Lemma refused_quiet {A} (m : M A) : quiet m → quiet (invalid_if_refused m).
Proof. intros H. apply quiet_try; [solve_quiet|]. intros [] k [= <-]. apply quiet_ret. Qed.

Lemma stored_configuration_quiet s : quiet (get_identity_source_configuration s).
Proof. pose proof decrypt_quiet. unfold get_identity_source_configuration. solve_quiet. Qed.

Lemma existing_quiet self : quiet (existing_configuration self).
Proof. pose proof stored_configuration_quiet. unfold existing_configuration. solve_quiet. Qed.

Lemma ldap_form_quiet self q : quiet (LDAPIdentitySourceForm self q).
Proof.
  unfold LDAPIdentitySourceForm. apply quiet_bind; [apply existing_quiet|]. intros. apply quiet_bind; [apply quiet_asks|].
  intros d. destruct (source_columns _ _ _ _ ≫= _) as [[[[[??]?]?]?]|]; [|apply quiet_ret].
  apply quiet_bind; [apply refused_quiet, configuration_quiet|]. solve_quiet.
Qed.

Lemma oidc_form_quiet self q : quiet (OIDCIdentitySourceForm self q).
Proof.
  unfold OIDCIdentitySourceForm. apply quiet_bind; [apply existing_quiet|]. intros. apply quiet_bind; [apply quiet_asks|].
  intros d. destruct (source_columns _ _ _ _ ≫= _) as [[[[??]?]?]|]; [|apply quiet_ret].
  apply quiet_bind; [apply refused_quiet, configuration_quiet|]. solve_quiet.
Qed.

Lemma seal_source_quiet s configuration : quiet (seal_source s configuration).
Proof.
  pose proof encrypt_quiet. pose proof configuration_quiet.
  unfold seal_source, set_identity_source_configuration, encrypt_payload. solve_quiet.
Qed.
#[local] Hint Resolve seal_source_quiet : events.

Lemma source_form_sound form q self : (∀ self q, quiet (form self q)) → sound_form (source_form form q self).
Proof.
  intros Hf. split; [unfold source_form; solve_quiet|]. intros w save w1 H. unfold source_form in H.
  run_inv H. destruct a as [[s c]|]; [|done]. injection H as <- <-.
  unfold write_source, new_stamps. solve_events.
Qed.

Section discovery.
Context (discovery : string → option (list (string * json))).

Lemma provider_quiet s : quiet (test_oidc_provider_configuration discovery s).
Proof.
  pose proof stored_configuration_quiet. pose proof configuration_quiet.
  unfold test_oidc_provider_configuration, check_provider. solve_quiet.
Qed.

Lemma draft_quiet form : quiet form → quiet (test_draft discovery form).
Proof.
  intros Hf. unfold test_draft. apply quiet_bind; [done|]. intros [[s c]|]; [|apply quiet_ret].
  apply quiet_bind; [apply seal_source_quiet|]. intros. apply quiet_bind; [apply refused_quiet, provider_quiet|]. solve_quiet.
Qed.

Lemma source_or_404_quiet kinds k : quiet (source_or_404 kinds k).
Proof. pose proof @instance_quiet. unfold source_or_404. solve_quiet. Qed.

Lemma source_page_authorised kinds form name k q : (∀ self q, quiet (form self q)) →
  authorised_page IDENTITY_SOURCES_MANAGE (_identity_sources discovery kinds form name k q).
Proof.
  intros Hf. unfold _identity_sources. apply console_page. intros u r.
  apply (saving_body u r (source_or_404 kinds k)
    (λ instance, if bool_decide (name = "oidc_sources") && submitted q "test_draft"
                 then test_draft discovery (form instance q) ;; mret None
                 else _save_form u (source_form form q instance) "identitysource" ("console:" +:+ name))).
  - apply source_or_404_quiet.
  - intros. destruct (_ && _); [|by apply save_form_audited, source_form_sound].
    apply audited_quiet, quiet_bind; [by apply draft_quiet|]. intros. apply quiet_ret.
  - intros. apply quiet_ret.
Qed.

(** The pages that handle their form themselves. *)
Lemma form_body {A B} u r (instance : M A) (form : A → db → option B) (save : A → B → M (response * http_request)) show :
  quiet instance → (∀ a x, audited u (save a x)) → (∀ a b, quiet (show a b)) →
  page_body u r (λ b, a ← instance;
    x ← (if decide (rq_method r = "POST") then asks (form a) else mret None);
    match x with Some x => save a x | None => show a b end).
Proof.
  intros Hi Hs Hr. split.
  - intros HP b. apply quiet_bind; [done|]. intros a w. destruct (decide _); [done|]. apply Hr.
  - intros b. apply audited_bind_quiet; [done|]. intros a. apply audited_bind_quiet; [destruct (decide _); solve_quiet|].
    intros [x|]; [apply Hs|apply audited_quiet, Hr].
Qed.

Lemma target_written_keeps_events self t first :
  keeps_events (k ← write_target self t; c ← save_initial_credential (Obj k t) first; mret (k, c)).
Proof.
  apply bind_keeps_events; [unfold write_target, save_target; solve_events|]. intros k.
  apply bind_keeps_events; [unfold save_initial_credential, new_stamps; solve_events|]. intros c.
  apply quiet_keeps_events, quiet_ret.
Qed.

Lemma target_save_audited u self t first r :
  audited u (save_target_and_credential u self t first ;; redirect "console:targets" r).
Proof.
  apply audited_bind_then; [|intros; apply quiet_ret]. intros w x w' H.
  apply atomic_ok_inv in H. apply bind_ok_inv in H as (k & w1 & E1 & H). apply bind_ok_inv in H as (c & w2 & E2 & H).
  pose proof (target_written_keeps_events self t first _ w eq_refl) as Hk. rewrite (bind_ok _ _ _ _ _ E1), (bind_ok _ _ _ _ _ E2) in Hk. simpl in Hk.
  apply bind_ok_inv in H as (e & w3 & E3 & H).
  apply record_event_ok_inv in E3 as (st & sig & _ & Hv & _ & _ & Hn & _ & _ & He & _). right. exists e.
  assert (Hnew : recorded (w_db w) (w_db w3) u e).
  { split; [by rewrite <-Hk|]. split; [rewrite He; apply lookup_insert_eq|by rewrite Hv]. }
  destruct c as [c|]; [|by prim_inv H]. run_inv H. apply record_event_ok_inv in R as (?&?&_&_&_&_&Hn'&_&_&He'&_).
  destruct Hnew as (?&He3&?). split; [done|]. split; [|done]. rewrite He', lookup_insert_ne; [done|]. congruence.
Qed.

Lemma host_key_keeps_events u t key comment : keeps_events (trust_host_key u t key comment).
Proof. unfold trust_host_key. solve_events. Qed.

Lemma seal_siem_quiet i token : quiet (seal_siem i token).
Proof. pose proof encrypt_quiet. unfold seal_siem. solve_quiet. Qed.
#[local] Hint Resolve seal_siem_quiet : events.

Lemma targets_authorised k q : authorised_page TARGETS_MANAGE (targets_page k q).
Proof.
  unfold targets_page. apply console_page. intros u r.
  apply (form_body u r (instance_or_404 targets k) (λ self d, TargetForm d self q)
    (λ self '(t, first), save_target_and_credential u self t first ;; redirect "console:targets" r)
    (λ self b, _render_resource r "targets" self b)).
  - apply instance_quiet.
  - intros ? []. apply target_save_audited.
  - intros. apply quiet_ret.
Qed.

Lemma host_keys_authorised q : authorised_page TARGETS_MANAGE (host_keys_page q).
Proof.
  unfold host_keys_page. apply login_page. intros u r.
  refine (form_body u r (mret tt) (λ _ d, TargetHostKeyForm d q)
    (λ _ '(t, key, comment), saved ← trust_host_key u t key comment;
      record_event (Some (pk u)) "target.host_key_trusted" (host_key_resource saved.1)
        [("target_id", JStr (str_uuid t)); ("fingerprint", JStr saved.2)] (REMOTE_ADDR (rq_meta r)) ;;
      redirect "console:host_keys" r)
    (λ _ b, mret (Rendered "console/host_keys.html" 200 [("can_manage", JBool b)], r)) _ _ _).
  - apply quiet_ret.
  - intros _ [[t key] comment]. apply (audited_save u (trust_host_key u t key comment) _ (λ saved, host_key_resource saved.1)
      (λ saved, [("target_id", JStr (str_uuid t)); ("fingerprint", JStr saved.2)])); [apply host_key_keeps_events|].
    intros. apply quiet_ret.
  - intros. apply quiet_ret.
Qed.

Lemma siem_authorised k q : authorised_page SYSTEM_MANAGE (siem_integrations_page k q).
Proof.
  unfold siem_integrations_page. apply login_page. intros u r.
  apply (form_body u r (instance_or_404 siem_integrations k) (λ self d, SIEMIntegrationForm d self q)
    (λ self '(i, token), sealed ← seal_siem i token;
      saved ← write_row siem_integrations self sealed;
      record_event (Some (pk u)) "system.siem_integration.saved" (Resource "audit.siemintegration" (str_uuid saved))
        [("kind", JStr (siem_kind_str (si_kind sealed))); ("enabled", JBool (si_enabled sealed))] None ;;
      redirect "console:siem_integrations" r)
    (λ self b, mret (Rendered "console/siem_integrations.html" 200
                       [("editing", opt_key self); ("can_manage", JBool b)], r))).
  - apply instance_quiet.
  - intros self [i token]. apply audited_bind_quiet; [apply seal_siem_quiet|]. intros sealed.
    apply (audited_save u (write_row siem_integrations self sealed) _ (λ saved, Resource "audit.siemintegration" (str_uuid saved))
      (λ _, [("kind", JStr (siem_kind_str (si_kind sealed))); ("enabled", JBool (si_enabled sealed))])).
    + apply write_keeps_events. apply _.
    + intros. apply quiet_ret.
  - intros. apply quiet_ret.
Qed.

(** C4: Changes of the configuration are authorised and recorded.  Whatever one of the
    sixteen configuration pages receives, if the database is not the same afterwards
    then the request was a POST of a signed-in user who held the managing capability of
    that very page when the request was checked, and if the page answered, the audit
    chain has a new event in that user's name.  Reading pages, refused forms, users with
    the viewing capability only and anonymous requests change nothing. *)
Theorem configuration_changes_are_authorised p k q r w res w' :
  page_view discovery p k q r w = (res, w') → w_db w' ≠ w_db w →
  ∃ u, rq_user r = Authenticated u ∧ rq_method r = "POST" ∧
    (∃ t, t ∈ [w_clock w; w_clock (advance w)] ∧ holds (w_db w) u (manage_capability p) t) ∧
    (is_ok res = true → ∃ e, recorded (w_db w) (w_db w') u e).
Proof.
  revert r w res w'. change (authorised_page (manage_capability p) (page_view discovery p k q)).
  destruct p; cbn [manage_capability page_view];
    unfold users_page, user_groups_page, roles_page, directory_mappings_page, target_groups_page, domains_page,
      credentials_page, policies_page, time_frames_page, rotation_policies_page.
  all: try (lazymatch goal with |- authorised_page _ (resource_page _ _ _ _ _ _ (row_form _ _ _ _) _) => idtac end;
            apply resource_page_authorised; intros self; apply row_form_sound; apply _).
  - apply resource_page_authorised, user_form_sound.
  - apply source_page_authorised, ldap_form_quiet.
  - apply source_page_authorised, ldap_form_quiet.
  - apply source_page_authorised, oidc_form_quiet.
  - apply targets_authorised.
  - apply host_keys_authorised.
  - apply resource_page_authorised, credential_form_sound.
  - apply siem_authorised.
Qed.
End discovery.
End authorisation.
