(* ===== verification/ConsoleInvariant.v ===== *)
(** * What the configuration pages guarantee about the rows they write

    The services read policies, time frames, rotation policies, roles, targets and SIEM
    integrations without checking them again: a quorum of zero, a network that does not
    parse or a weekday that is not a number would change what they decide.  This file
    proves that the forms of the console let no such row in: [configured] is an
    invariant of every configuration page. *)

From S2P Require Import Prelude PyStr Json Loads Crypto PyTime Models World Text AuditTrail Rbac Ip Policies Vault.
From S2P Require Import Mfa Accounts Broker GatewayApi Licensing Directory Portal Outbound Forms ConsoleForms Console.
Import Capability.

Local Open Scope Z_scope.

(** ** Well-formed rows *)

Section rows.
Context {DF : DjangoForms}.

Record policy_wf (d : db) (p : access_policy) : Prop := {
  pw_quorum : 1 <= p_approval_quorum p <= 10;
  pw_concurrent : 1 <= p_max_concurrent_sessions p <= 50;
  pw_duration : 0 <= p_max_duration_minutes p <= MAX_INT;
  pw_dates : dates_in_order (p_valid_from p) (p_valid_until p) = true;
  pw_cidrs : Forall (λ s, is_Some (ip_network_of s)) (p_source_cidrs p);
  pw_actions : p_actions p ≠ [] ∧ Forall (.∈ policy_actions) (p_actions p);
  pw_protocols : Forall (.∈ ["ssh"; "rdp"; "web"]) (p_protocols p);
  pw_patterns : Forall (λ s, re_compiles s = true) (p_command_deny_patterns p ++ p_command_alert_patterns p);
  pw_weekdays : Forall (λ j, ∃ z, int_of_json j = Ok z) (p_weekdays p);
  pw_groups : p_user_groups p ⊆ dom (user_groups d) ∧ p_approver_groups p ⊆ dom (user_groups d);
  pw_targets : p_target_groups p ⊆ dom (target_groups d);
  pw_credentials : p_credentials p ⊆ dom (credentials d);
  pw_frames : p_time_frames p ⊆ dom (time_frames d);
}.

Definition frame_wf (f : time_frame) : Prop :=
  Forall (λ j, ∃ z, j = JInt z ∧ 0 <= z <= 6) (tf_weekdays f) ∧
  dates_in_order (tf_valid_from f) (tf_valid_until f) = true.

Definition rotation_wf (p : secret_rotation_policy) : Prop :=
  1 <= srp_interval_days p <= 3650 ∧ 16 <= srp_password_length p <= 128.

Definition target_wf (t : target) : Prop := 1 <= t_port t <= 65535.

(** Known capabilities only, with what they depend on. *)
Definition role_wf (r : role) : Prop :=
  Forall (.∈ choices) (ro_capabilities r) ∧
  ∀ c x, (c, x) ∈ dependencies → c ∈ ro_capabilities r → x ∈ ro_capabilities r.

Definition siem_wf (i : siem_integration) : Prop := siem_clean i = true ∧ si_verify_tls i = true.

(** No two rows have the same name. *)
Definition unique {A} (name : A → string) (t : gmap id A) : Prop :=
  ∀ i j x y, t !! i = Some x → t !! j = Some y → name x = name y → i = j.

Record configured (d : db) : Prop := {
  cd_policies : map_Forall (λ _, policy_wf d) (policies d);
  cd_frames : map_Forall (λ _, frame_wf) (time_frames d);
  cd_rotation : map_Forall (λ _, rotation_wf) (rotation_policies d);
  cd_targets : map_Forall (λ _, target_wf) (targets d);
  cd_roles : map_Forall (λ _, role_wf) (roles d);
  cd_siem : map_Forall (λ _, siem_wf) (siem_integrations d);
  cd_policy_names : unique p_name (policies d);
  cd_frame_names : unique tf_name (time_frames d);
  cd_role_names : unique ro_name (roles d);
  cd_target_names : unique t_name (targets d);
}.

(** The tables a policy refers to have not lost a row. *)
Definition grown (d d' : db) : Prop :=
  dom (user_groups d) ⊆ dom (user_groups d') ∧ dom (target_groups d) ⊆ dom (target_groups d') ∧
  dom (credentials d) ⊆ dom (credentials d') ∧ dom (time_frames d) ⊆ dom (time_frames d').

Lemma policy_wf_grown d d' p : grown d d' → policy_wf d p → policy_wf d' p.
Proof. intros (?&?&?&?) []. constructor; set_solver. Qed.

Lemma policies_grown d d' (t : gmap id access_policy) :
  grown d d' → map_Forall (λ _, policy_wf d) t → map_Forall (λ _, policy_wf d') t.
Proof. intros Hg H. eapply map_Forall_impl; [exact H|]. intros. by eapply policy_wf_grown. Qed.

(** ** Fields *)

Lemma int_field_inv q k req lo hi z : int_field q k req lo hi = Some (Some z) → lo <= z <= hi.
Proof.
  unfold int_field. destruct (decide _); [by destruct req|]. intros (y & _ & H)%bind_Some.
  destruct (between lo y hi) eqn:E; [|done]. injection H as ->. unfold between in E. breflect. lia.
Qed.

Lemma required_int_inv q k lo hi z : required_int q k lo hi = Some z → lo <= z <= hi.
Proof. intros (y & H & E)%bind_Some. destruct y; [|done]. injection E as ->. by eapply int_field_inv. Qed.

Lemma or_one_bounds q k req hi x : 1 <= hi → int_field q k req 0 hi = Some x → 1 <= or_one x <= hi.
Proof.
  destruct x as [z|]; simpl; [|lia]. intros Hh H%int_field_inv. destruct z; simpl; lia.
Qed.

Lemma model_choices_inv {A} parse (t : gmap id A) q k req s : model_choices parse t q k req = Some s → s ⊆ dom t.
Proof.
  unfold model_choices. intros (l & _ & H)%bind_Some. destruct (_ || _) eqn:E; [done|]. injection H as <-.
  apply orb_false_iff in E as [_ E]. apply negb_false_iff in E.
  intros i Hi. apply elem_of_list_to_set in Hi. apply elem_of_dom.
  rewrite forallb_forall in E. apply (bool_decide_eq_true_1 (is_Some (t !! i))), E. by apply list_elem_of_In.
Qed.

Lemma multi_choice_inv q k req cs l : multi_choice_field q k req cs = Some l →
  Forall (.∈ cs) l ∧ (req = true → l ≠ []).
Proof.
  unfold multi_choice_field. destruct (_ || _) eqn:E; [done|]. intros [= <-]. apply orb_false_iff in E as [E1 E2].
  split.
  - apply negb_false_iff in E2. rewrite forallb_forall in E2. apply Forall_forall. intros x Hx.
    apply (bool_decide_eq_true_1 (x ∈ cs)), E2. by apply list_elem_of_In.
  - intros -> Hl. by rewrite Hl in E1.
Qed.

Lemma require_inv b u : require b = Some u → b = true.
Proof. by destruct b. Qed.

Lemma patterns_inv q k l : command_patterns q k = Some l → Forall (λ s, re_compiles s = true) l.
Proof.
  intros (text & _ & H)%bind_Some. cbv zeta in H. destruct (forallb re_compiles _) eqn:E; [|done]. injection H as <-.
  apply Forall_forall. intros x Hx. rewrite forallb_forall in E. apply E. by apply list_elem_of_In.
Qed.

(** The value a model form leaves: the old or the new one. *)
Lemma keep_omitted_prop {A} (P : A → Prop) q k b old new : P old → P new → P (keep_omitted q k b old new).
Proof. unfold keep_omitted. by destruct (_ && _). Qed.

(** The name of a form is not that of another row. *)
Lemma taken_inv {A} (name : A → string) self v (t : gmap id A) i x :
  taken self (λ y, bool_decide (name y = name v)) t = false → t !! i = Some x → Some i ≠ self → name x ≠ name v.
Proof.
  intros H Hi Hs E. apply not_true_iff_false in H. apply H. apply exists_row_true. exists (Obj i x). simpl.
  split; [done|]. by rewrite !bool_decide_true.
Qed.

Lemma unique_insert {A} (name : A → string) self v (t : gmap id A) k :
  unique name t → taken self (λ y, bool_decide (name y = name v)) t = false →
  (∀ s, self = Some s → k = s) → unique name (<[k := v]> t).
Proof.
  intros Hu Ht Hk i j x y. rewrite !lookup_insert_Some. intros [[<- <-]|[Hi Hx]] [[<- <-]|[Hj Hy]] E; try done.
  - destruct (taken_inv name self v t j y Ht Hy); [|done]. intros Es. symmetry in Es. by apply Hk in Es.
  - destruct (taken_inv name self v t i x Ht Hx); [|done]. intros Es. symmetry in Es. by apply Hk in Es.
  - by eapply Hu.
Qed.

(** ** Forms *)

(** Invert a form that validated, field by field. *)
Ltac form_inv H :=
  repeat match type of H with
    | (_ ≫= _) = Some _ =>
        let x := fresh "x" in let F := fresh "F" in apply bind_Some in H as (x & F & H);
        try (apply require_inv in F)
    | (let '(_, _) := ?y in _) = Some _ => destruct y
    end.

(** The row being edited is the one of the table. *)
Definition stored {A} (t : gmap id A) (self : option (obj A)) : Prop :=
  ∀ o, self = Some o → t !! pk o = Some (val o).

Lemma policy_form_wf d self q p :
  map_Forall (λ _, policy_wf d) (policies d) → stored (policies d) self → AccessPolicyForm d self q = Some p →
  policy_wf d p ∧ taken (pk <$> self) (λ y, bool_decide (p_name y = p_name p)) (policies d) = false.
Proof.
  intros Hd Hs H. unfold AccessPolicyForm in H. set (old := match self with Some o => val o | None => blank_policy end) in *.
  assert (Forall (λ j, ∃ z, int_of_json j = Ok z) (p_weekdays old) ∧
          Forall (λ s, is_Some (ip_network_of s)) (p_source_cidrs old) ∧
          Forall (λ s, re_compiles s = true) (p_command_deny_patterns old) ∧
          Forall (λ s, re_compiles s = true) (p_command_alert_patterns old)) as (Hw & Hc & Hdp & Hap).
  { destruct self as [o|]; [|by subst old]. pose proof (Hd _ _ (Hs o eq_refl)) as [].
    apply Forall_app in pw_patterns0 as []. done. }
  form_inv H. injection H as <-. apply negb_true_iff in F17. split; [|exact F17].
  apply multi_choice_inv in F5 as [? Ha]. apply multi_choice_inv in F6 as [? _].
  constructor; simpl.
  - by eapply or_one_bounds in F7.
  - by eapply or_one_bounds in F9.
  - by apply required_int_inv in F8.
  - done.
  - apply keep_omitted_prop; [done|]. apply Forall_forall. intros c Hx. rewrite forallb_forall in F15.
    apply (bool_decide_eq_true_1 (is_Some (ip_network_of c))), F15. by apply list_elem_of_In.
  - split; [by apply Ha|done].
  - done.
  - apply Forall_app; split; apply keep_omitted_prop; eauto using patterns_inv.
  - done.
  - split; by eapply model_choices_inv.
  - by eapply model_choices_inv.
  - by eapply model_choices_inv.
  - by eapply model_choices_inv.
Qed.

Lemma weekdays_wf l ws : Forall (.∈ weekday_choices) l → mapM py_int l = Some ws →
  Forall (λ j, ∃ z, j = JInt z ∧ 0 <= z <= 6) (JInt <$> ws).
Proof.
  intros Hl H. apply Forall_fmap. apply mapM_Some in H. revert Hl. induction H as [|s z l ws Hz _ IH]; [constructor|].
  intros [Hs Hl]%Forall_cons. constructor; [|by apply IH]. exists z. split; [done|]. unfold weekday_choices in Hs.
  repeat (apply elem_of_cons in Hs as [->|Hs]; [vm_compute in Hz; injection Hz as <-; lia|]). by apply elem_of_nil in Hs.
Qed.

Lemma frame_form_wf d self q f : TimeFrameForm d self q = Some f →
  frame_wf f ∧ taken (pk <$> self) (λ y, bool_decide (tf_name y = tf_name f)) (time_frames d) = false.
Proof.
  intros H. unfold TimeFrameForm in H. form_inv H. injection H as <-. apply negb_true_iff in F7.
  apply multi_choice_inv in F0 as [? _]. split; [|done]. split; [by eapply weekdays_wf|done].
Qed.

Lemma rotation_form_wf d self q p : SecretRotationPolicyForm d self q = Some p → rotation_wf p.
Proof.
  intros H. unfold SecretRotationPolicyForm in H. form_inv H. injection H as <-.
  split; by eapply required_int_inv.
Qed.

Lemma rdp_columns_keep q old p security fingerprints layout resize t :
  let t' := rdp_columns q old p security fingerprints layout resize t in t_name t' = t_name t ∧ t_port t' = t_port t.
Proof. unfold rdp_columns. by destruct (decide (p = RDP)). Qed.

Lemma target_form_wf d self q t first : TargetForm d self q = Some (t, first) →
  target_wf t ∧ taken (pk <$> self) (λ y, bool_decide (t_name y = t_name t)) (targets d) = false.
Proof.
  intros H. unfold TargetForm in H. form_inv H.
  lazymatch type of H with Some (rdp_columns ?q ?o ?p ?s ?f ?l ?r ?t0, _) = _ =>
    destruct (rdp_columns_keep q o p s f l r t0) as [En Ep] end.
  apply Some_inj in H. pose proof (f_equal fst H) as E. cbv zeta in En, Ep. cbn [fst] in E. rewrite E in En, Ep.
  unfold target_wf. rewrite En, Ep. simpl.
  split; [by eapply required_int_inv|]. by match goal with H : negb _ = true |- _ => apply negb_true_iff in H end.
Qed.

Lemma siem_form_wf d self q i token : SIEMIntegrationForm d self q = Some (i, token) → siem_clean i = true.
Proof. intros H. unfold SIEMIntegrationForm in H. form_inv H. by injection H as <- <-. Qed.

(** Every capability of the permission table is a known one and comes with what it
    depends on, as far as the profiles can select it. *)
Lemma profile_known : Forall (λ area, Forall (λ l, Forall (.∈ choices) (pl_capabilities l)) (pa_levels area)) PERMISSION_AREAS.
Proof. apply (bool_decide_unpack _). vm_compute. exact I. Qed.

Lemma profile_closed : Forall (λ area, Forall (λ l, Forall (λ cx : string * string,
  cx.1 ∈ pl_capabilities l → cx.2 ∈ pl_capabilities l) dependencies) (pa_levels area)) PERMISSION_AREAS.
Proof. apply (bool_decide_unpack _). vm_compute. exact I. Qed.

Lemma targets_known : Forall (λ cx : string * string, cx.2 ∈ choices) dependencies.
Proof. apply (bool_decide_unpack _). vm_compute. exact I. Qed.

Lemma console_known x : x = CONSOLE_ACCESS ∨ x = CONFIGURATION_VIEW → x ∈ choices.
Proof. intros [->| ->]; apply (bool_decide_unpack _); vm_compute; exact I. Qed.

Lemma normalized_wf n s i e de l : Forall (.∈ choices) l → role_wf (Role n s (normalize_capabilities l) i e de).
Proof.
  intros Hl. split; simpl.
  - apply Forall_forall. intros x Hx. apply elem_of_normalize in Hx as [Hx|[(c & Hc & _)|[_ Hx]]].
    + rewrite Forall_forall in Hl. by apply Hl.
    + apply (Forall_in _ _ (c, x) targets_known Hc).
    + by apply console_known.
  - intros c x Hcx Hc. apply elem_of_normalize in Hc as [Hc|[(b & Hb & _)|[_ Hc]]].
    + apply elem_of_normalize. right. left. by exists c.
    + by destruct (dependency_target_final _ _ _ Hb Hcx).
    + by destruct (console_access_final _ _ Hc Hcx).
Qed.

Lemma profile_wf n s i e de levels : role_wf (Role n s (capabilities_from_levels levels) i e de).
Proof.
  split; simpl.
  - apply Forall_forall. intros x Hx. apply elem_of_capabilities_from_levels in Hx as [Hx|[_ Hx]]; [|by apply console_known].
    apply elem_of_granted in Hx as (a & Ha & Hx).
    pose proof (selected_level_elem levels a Ha) as Hl.
    apply (Forall_in _ _ _ (Forall_in _ _ _ (Forall_in _ _ _ profile_known Ha) Hl) Hx).
  - intros c x Hcx Hc. apply elem_of_capabilities_from_levels in Hc as [Hc|[_ Hc]]; [|by destruct (console_access_final _ _ Hc Hcx)].
    apply elem_of_granted in Hc as (a & Ha & Hc). apply elem_of_capabilities_from_levels. left.
    apply elem_of_granted. exists a. split; [done|].
    pose proof (selected_level_elem levels a Ha) as Hl.
    apply (Forall_in _ _ _ (Forall_in _ _ _ (Forall_in _ _ _ profile_closed Ha) Hl) Hcx Hc).
Qed.

Lemma role_form_wf d self q r : RoleForm d self q = Some r →
  role_wf r ∧ taken (pk <$> self) (λ y, bool_decide (ro_name y = ro_name r)) (roles d) = false.
Proof.
  intros H. unfold RoleForm in H. form_inv H. injection H as <-. apply negb_true_iff in F5. split; [|done].
  apply multi_choice_inv in F2 as [? _]. 
  match goal with |- context [if ?b then _ else _] => destruct b end; [apply profile_wf|by apply normalized_wf].
Qed.
End rows.

(** ** Patterns and commas *)

Lemma drop_while_sub {A} (f : A → bool) l x : x ∈ drop_while f l → x ∈ l.
Proof. induction l as [|y l IH]; simpl; [done|]. destruct (f y); [|done]. intros H. right. by apply IH. Qed.

Lemma rev_sub {A} (l : list A) x : x ∈ rev l → x ∈ l.
Proof. rewrite !list_elem_of_In. apply in_rev. Qed.

Lemma strip_sub s c : c ∈ chars (strip s) → c ∈ chars s.
Proof.
  unfold strip, strip_chars. rewrite chars_of_chars. intros H%rev_sub%drop_while_sub%rev_sub. by eapply drop_while_sub.
Qed.

Lemma splitlines_sub n l w c : (length l <= n)%nat → w ∈ splitlines l → c ∈ w → c ∈ l.
Proof.
  revert l w. induction n as [|n IH]; intros [|a l] w Hn Hw Hc; simpl in *; try lia; try by apply elem_of_nil in Hw.
  destruct (is_line_end a).
  - destruct l as [|b l]; [apply list_elem_of_singleton in Hw; subst; by apply elem_of_nil in Hc|].
    destruct (_ && _); apply elem_of_cons in Hw as [->|Hw]; try by apply elem_of_nil in Hc.
    + do 2 right. apply (IH l w); [simpl in Hn; lia|done|done].
    + right. by apply (IH (b :: l) w); [lia|..].
  - destruct (splitlines l) as [|v vs] eqn:E.
    + apply list_elem_of_singleton in Hw as ->. apply list_elem_of_singleton in Hc as ->. left.
    + apply elem_of_cons in Hw as [->|Hw].
      * apply elem_of_cons in Hc as [->|Hc]; [left|]. right. apply (IH l v); [lia|rewrite E; left|done].
      * right. apply (IH l w); [lia|rewrite E; by right|done].
Qed.

(** What the code splits off never contains a comma. *)
Lemma split_items_no_comma text s : s ∈ split_items text → ","%char ∉ chars s.
Proof.
  unfold split_items. intros Hs Hc. apply list_elem_of_In, filter_In in Hs as [Hs _]. apply list_elem_of_In in Hs.
  apply list_elem_of_fmap in Hs as (w & -> & Hw). apply strip_sub in Hc. rewrite chars_of_chars in Hc.
  pose proof (splitlines_sub _ _ w _ (Nat.le_refl _) Hw Hc) as H.
  apply list_elem_of_fmap in H as (a & E & _). by destruct (decide (a = ","%char)).
Qed.

(** The patterns of a new policy have no comma, although a regular expression may
    need one, as in a bounded repetition. *)
Lemma saved_patterns_have_no_comma `{DjangoForms} d q p : AccessPolicyForm d None q = Some p →
  ∀ s, s ∈ p_command_deny_patterns p ++ p_command_alert_patterns p → ","%char ∉ chars s.
Proof.
  intros HF s Hs. unfold AccessPolicyForm in HF.
  assert (Hp : ∀ k l b, command_patterns q k = Some l → s ∈ keep_omitted q k b [] l → ","%char ∉ chars s).
  { intros k l b (text & _ & Hl)%bind_Some. cbv zeta in Hl. destruct (forallb re_compiles _); [|done]. injection Hl as <-.
    apply (keep_omitted_prop (λ l, s ∈ l → _)); [by intros ?%elem_of_nil|]. apply split_items_no_comma. }
  repeat match type of HF with (_ ≫= _) = Some _ =>
    let F := fresh "F" in apply bind_Some in HF as (? & F & HF) end.
  injection HF as <-. simpl in Hs. apply elem_of_app in Hs as [Hs|Hs]; (eapply Hp; [|exact Hs]); eassumption.
Qed.

(** ** Pages *)

Section pages.
Context {PF : Platform} {LE : LicenseEnv} {DF : DjangoForms} {OE : OutboundEnv}.
Context (P : db → Prop) `{!AuditStable P}.

(** Saving in the state in which the form was valid keeps the property. *)
Definition safe_form (d : db) (form : bound_form) : Prop :=
  quiet form ∧ ∀ w save w1, w_db w = d → form w = (Ok (Some save), w1) → P (w_db (save w1).2).

Lemma save_form_preserves u form model name w :
  P (w_db w) → safe_form (w_db w) form → P (w_db (_save_form u form model name w).2).
Proof.
  intros HP [Hq Hs]. unfold _save_form, mbind at 1, M_bind at 1.
  pose proof (Hq w) as [Hd _]. destruct (form w) as [[[save|]|e] w1] eqn:E; simpl in Hd |- *; try by rewrite Hd.
  specialize (Hs w save w1 eq_refl E). unfold mbind at 1, M_bind at 1.
  destruct (save w1) as [[res|e] w2] eqn:E2; simpl in Hs |- *; [|done]. unfold mbind, M_bind.
  pose proof (record_event_preserves P (Some (pk u)) ("console." +:+ model +:+ ".saved") res [] None w2 Hs) as Hr.
  by destruct (record_event _ _ _ _ _ w2) as [[?|?] w3].
Qed.

(** A run of a part that writes nothing can be skipped. *)
Lemma after_quiet {A B} (m : M A) (f : A → M B) w :
  quiet m → P (w_db w) → (∀ a w1, m w = (Ok a, w1) → w_db w1 = w_db w → P (w_db (f a w1).2)) →
  P (w_db ((m ≫= f) w).2).
Proof.
  intros Hq HP Hf. pose proof (Hq w) as [Hd _]. unfold mbind, M_bind. destruct (m w) as [[a|e] w1] eqn:E; simpl in *.
  - by apply Hf.
  - by rewrite Hd.
Qed.

Lemma instance_stored {A} (tbl : db → gmap id A) k w self w1 :
  instance_or_404 tbl k w = (Ok self, w1) → stored (tbl (w_db w)) self.
Proof.
  unfold instance_or_404. destruct k as [k|]; intros H; run_inv H; [|done].
  apply get_or_404_inv in R as (_ & <- & ?). by intros ? [= ->].
Qed.

Lemma console_view_preserves c view r : (∀ u, preserves P (view u r)) → preserves P (console_view c view r).
Proof.
  intros Hv w HP. unfold console_view, login_required. destruct (rq_user r) as [|u]; [done|]. unfold capability_required.
  apply after_quiet; [apply has_capability_quiet|done|]. intros b w1 _ Hd. destruct b; [apply Hv|]; simpl; congruence.
Qed.

Lemma resource_page_preserves {A} c v model name (tbl : db → gmap id A) adjust form k r :
  (∀ d self, P d → stored (tbl d) self → safe_form d (form self)) →
  preserves P (resource_page c v model name tbl adjust form k r).
Proof.
  intros Hf. apply console_view_preserves. intros u w HP.
  apply after_quiet; [apply permission_quiet|done|]. intros b w1 _ Hd1. rewrite <-Hd1 in HP.
  apply after_quiet; [apply instance_quiet|done|]. intros self w2 Hself Hd2. apply instance_stored in Hself.
  rewrite <-Hd2 in HP, Hself. unfold mbind, M_bind. destruct (decide (rq_method r = "POST")); [|done].
  pose proof (save_form_preserves u (form self) model ("console:" +:+ name) w2 HP (Hf _ _ HP Hself)) as Hs.
  by destruct (_save_form _ _ _ _ w2) as [[[?|]|?] ?].
Qed.

(** A row is written where the instance was, or at a new key. *)
Lemma write_row_run {A} (tbl : db → gmap id A) `{!Setter tbl} self v w :
  P (w_db w) →
  (∀ k, (∀ o, self = Some o → k = pk o) → (self = None → tbl (w_db w) !! k = None) →
        P (set_field tbl <[k := v]> (w_db w))) →
  P (w_db (write_row tbl self v w).2).
Proof.
  intros HP H. unfold write_row. destruct self as [o|].
  - apply H; [by intros ? [= ->]|done].
  - unfold uuid4, draw, insert_row, mbind, M_bind. simpl.
    destruct (tbl (w_db w) !! draw_uuid4 (w_draws w)) eqn:E; [done|]. simpl. by apply H.
Qed.

Lemma row_form_safe {A} (tbl : db → gmap id A) `{!Setter tbl} label form q d self :
  P d →
  (∀ v k, form d self q = Some v → (∀ o, self = Some o → k = pk o) → (self = None → tbl d !! k = None) →
          P (set_field tbl <[k := v]> d)) →
  safe_form d (row_form tbl label form q self).
Proof.
  intros HP H. unfold row_form. split; [unfold of_form; solve_quiet|]. intros w save w1 <-.
  unfold of_form, asks, mbind at 1, M_bind at 1. destruct (form (w_db w) self q) as [v|] eqn:E; [|done].
  intros [= <- <-]. pose proof (write_row_run tbl self v w HP (λ k, H v k eq_refl)) as Hw. unfold mbind, M_bind.
  by destruct (write_row tbl self v w) as [[?|?] ?].
Qed.
End pages.

(** ** The invariant *)

Section invariant.
Context {PF : Platform} {LE : LicenseEnv} {DF : DjangoForms} {OE : OutboundEnv}.

(** Writes elsewhere do not matter. *)
Lemma configured_frame d d' :
  policies d' = policies d → time_frames d' = time_frames d → rotation_policies d' = rotation_policies d →
  targets d' = targets d → roles d' = roles d → siem_integrations d' = siem_integrations d → grown d d' →
  configured d → configured d'.
Proof.
  intros Ep Ef Er Et Eo Es Hg []. constructor; rewrite ?Ep, ?Ef, ?Er, ?Et, ?Eo, ?Es; try done.
  by eapply policies_grown.
Qed.

Lemma grown_refl d d' : user_groups d' = user_groups d → target_groups d' = target_groups d →
  credentials d' = credentials d → time_frames d' = time_frames d → grown d d'.
Proof. unfold grown. intros -> -> -> ->. done. Qed.

#[global] Instance configured_stable : AuditStable configured.
Proof. intros d d' (?&?&?&->). by apply configured_frame, grown_refl. Qed.

Lemma grown_insert {A} (t : gmap id A) k v : dom t ⊆ dom (<[k := v]> t).
Proof. rewrite dom_insert. set_solver. Qed.

Lemma safe_of_preserves (P : db → Prop) d form :
  P d → quiet form → (∀ w save w1, form w = (Ok (Some save), w1) → preserves P save) → safe_form P d form.
Proof.
  intros HP Hq Hs. split; [done|]. intros w save w1 <- E. destruct (quiet_run _ _ _ _ Hq E) as [Hd _].
  apply (Hs _ _ _ E). by rewrite Hd.
Qed.

Lemma of_form_inv {A} (form : db → option A) save w f w1 :
  of_form form save w = (Ok (Some f), w1) → ∃ a, form (w_db w) = Some a ∧ f = save a ∧ w1 = w.
Proof. unfold of_form, asks, mbind, M_bind. destruct (form (w_db w)); intros [= <- <-]. eauto. Qed.

Lemma of_form_quiet {A} (form : db → option A) save : quiet (of_form form save).
Proof. unfold of_form. solve_quiet. Qed.

(** The tables the invariant does not read, or reads only for their keys. *)
Ltac elsewhere :=
  intros; eapply configured_frame; [..|eassumption]; try reflexivity;
  first [ by apply grown_refl | unfold grown; simpl; split_and!; first [done | apply grown_insert] ].

Lemma user_form_safe q d self : configured d → safe_form configured d (user_form q self).
Proof.
  intros HP. apply safe_of_preserves; [done| |].
  - unfold user_form. destruct self; apply of_form_quiet.
  - intros w save w1. pose proof active_limit_quiet. unfold user_form, save_user, create_user.
    destruct self; intros (a & _ & -> & _)%of_form_inv; [|destruct a]; solve_preserves.
    + apply preserves_modify. elsewhere.
    + apply preserves_insert. elsewhere.
Qed.

Lemma credential_form_safe q d self : configured d → safe_form configured d (credential_page_form q self).
Proof.
  intros HP. apply safe_of_preserves; [done|apply of_form_quiet|].
  intros w save w1 (a & _ & -> & _)%of_form_inv. pose proof seal_credential_quiet. unfold write_credential, new_stamps.
  destruct self; unfold write_row; solve_preserves.
  - apply preserves_modify. elsewhere.
  - apply preserves_insert. elsewhere.
Qed.

Lemma source_form_safe form q d self :
  (∀ self q, quiet (form self q)) → configured d → safe_form configured d (source_form form q self).
Proof.
  intros Hf HP. apply safe_of_preserves; [done|unfold source_form; solve_quiet|].
  intros w save w1 H. unfold source_form in H. run_inv H. destruct a as [[s c]|]; [|done]. injection H as <- <-.
  pose proof seal_source_quiet. unfold write_source, new_stamps. destruct self; unfold write_row; solve_preserves.
  - apply preserves_modify. elsewhere.
  - apply preserves_insert. elsewhere.
Qed.

Lemma key_of_self {A} (self : option (obj A)) (k : id) :
  (∀ o, self = Some o → k = pk o) → ∀ s, pk <$> self = Some s → k = s.
Proof. intros H s. destruct self as [o|]; [|done]. intros [= <-]. by apply H. Qed.

Lemma policy_written d self q v k :
  configured d → stored (policies d) self → AccessPolicyForm d self q = Some v → (∀ o, self = Some o → k = pk o) →
  configured (d <| policies ::= <[k := v]> |>).
Proof.
  intros [] Hs H Hk. apply policy_form_wf in H as [Hw Hn]; [|done..]. constructor; simpl; try done.
  - apply map_Forall_insert_2.
    + eapply policy_wf_grown; [|exact Hw]. by apply grown_refl.
    + eapply policies_grown; [|eassumption]. by apply grown_refl.
  - eapply unique_insert; eauto using key_of_self.
Qed.

Lemma frame_written d self q v k :
  configured d → TimeFrameForm d self q = Some v → (∀ o, self = Some o → k = pk o) →
  configured (d <| time_frames ::= <[k := v]> |>).
Proof.
  intros [] [Hw Hn]%frame_form_wf Hk. constructor; simpl; try done.
  - eapply policies_grown; [|eassumption]. unfold grown; simpl; split_and!; first [done | apply grown_insert].
  - by apply map_Forall_insert_2.
  - eapply unique_insert; eauto using key_of_self.
Qed.

Lemma role_written d self q v k :
  configured d → RoleForm d self q = Some v → (∀ o, self = Some o → k = pk o) → configured (d <| roles ::= <[k := v]> |>).
Proof.
  intros [] [Hw Hn]%role_form_wf Hk. constructor; simpl; try done.
  - eapply policies_grown; [|eassumption]. by apply grown_refl.
  - by apply map_Forall_insert_2.
  - eapply unique_insert; eauto using key_of_self.
Qed.

Lemma rotation_written d self q v k :
  configured d → SecretRotationPolicyForm d self q = Some v → configured (d <| rotation_policies ::= <[k := v]> |>).
Proof.
  intros [] Hw%rotation_form_wf. constructor; simpl; try done; [|by apply map_Forall_insert_2].
  eapply policies_grown; [|eassumption]. by apply grown_refl.
Qed.

Lemma target_written d self q v first k :
  configured d → TargetForm d self q = Some (v, first) → (∀ o, self = Some o → k = pk o) →
  configured (d <| targets ::= <[k := v]> |>).
Proof.
  intros [] [Hw Hn]%target_form_wf Hk. constructor; simpl; try done.
  - eapply policies_grown; [|eassumption]. by apply grown_refl.
  - by apply map_Forall_insert_2.
  - eapply unique_insert; eauto using key_of_self.
Qed.

Lemma siem_written d v k : configured d → siem_wf v → configured (d <| siem_integrations ::= <[k := v]> |>).
Proof.
  intros [] Hw. constructor; simpl; try done; [|by apply map_Forall_insert_2].
  eapply policies_grown; [|eassumption]. by apply grown_refl.
Qed.

(** ** The pages with a form of their own *)

Lemma login_preserves (P : db → Prop) view r : (∀ u, preserves P (view u r)) → preserves P (login_required view r).
Proof. intros H w HP. unfold login_required. by destruct (rq_user r); [|apply H]. Qed.

Lemma first_account_preserves t first : preserves configured (save_initial_credential t first).
Proof.
  pose proof encrypt_quiet. unfold save_initial_credential, new_stamps. solve_preserves. apply preserves_insert. elsewhere.
Qed.

Lemma run_then {A B} (P : db → Prop) (m : M A) (k : A → M B) w :
  P (w_db (m w).2) → (∀ a, preserves P (k a)) → P (w_db ((m ≫= k) w).2).
Proof. intros Hm Hk. unfold mbind, M_bind. destruct (m w) as [[a|e] w1]; [by apply Hk|done]. Qed.

Lemma atomic_run {A} (P : db → Prop) (m : M A) w : P (w_db w) → P (w_db (m w).2) → P (w_db (atomic m w).2).
Proof. unfold atomic. by destruct (m w) as [[?|?] ?]. Qed.

Lemma target_write_run self q t first w :
  configured (w_db w) → TargetForm (w_db w) self q = Some (t, first) → configured (w_db (write_target self t w).2).
Proof.
  intros HP HF. unfold write_target, save_target. destruct self as [o|].
  - apply run_then; [|intros; solve_preserves].
    apply after_quiet; [apply target_limit_quiet|done|]. intros _ w1 _ Hd. simpl. rewrite Hd.
    eapply target_written; eauto. by intros ? [= ->].
  - apply after_quiet; [apply quiet_uuid4|done|]. intros k w1 _ Hd1.
    apply after_quiet; [apply target_limit_quiet|by rewrite Hd1|]. intros _ w2 _ Hd2.
    apply run_then; [|intros; solve_preserves].
    unfold insert_row. rewrite Hd2, Hd1. destruct (targets (w_db w) !! k); simpl; [congruence|].
    by eapply target_written.
Qed.

Lemma targets_page_preserves k q r : preserves configured (targets_page k q r).
Proof.
  apply console_view_preserves. intros u w HP.
  apply after_quiet; [apply permission_quiet|done|]. intros b w1 _ Hd1. rewrite <-Hd1 in HP.
  apply after_quiet; [apply instance_quiet|done|]. intros self w2 _ Hd2. rewrite <-Hd2 in HP.
  unfold mbind at 1, M_bind at 1. destruct (decide (rq_method r = "POST")); [|done]. unfold asks.
  destruct (TargetForm (w_db w2) self q) as [[t first]|] eqn:HF; [|done].
  apply run_then; [|intros; apply quiet_preserves, quiet_ret]. unfold save_target_and_credential.
  apply atomic_run; [done|]. apply run_then; [by eapply target_write_run|]. intros.
  pose proof first_account_preserves. pose proof (record_event_preserves configured). solve_preserves.
Qed.

Lemma host_keys_page_preserves q r : preserves configured (host_keys_page q r).
Proof.
  apply login_preserves. intros u w HP.
  apply after_quiet; [apply permission_quiet|done|]. intros b w1 _ Hd1. rewrite <-Hd1 in HP.
  apply after_quiet; [destruct (decide _); solve_quiet|done|]. intros x w2 _ Hd2. rewrite <-Hd2 in HP.
  destruct x as [[[t key] comment]|]; [|done]. pose proof (record_event_preserves configured).
  revert HP. apply preserves_bind; [|intros; unfold redirect; solve_preserves].
  unfold trust_host_key. solve_preserves. apply preserves_insert. elsewhere.
Qed.

Lemma siem_page_preserves k q r : preserves configured (siem_integrations_page k q r).
Proof.
  apply login_preserves. intros u w HP.
  apply after_quiet; [apply permission_quiet|done|]. intros b w1 _ Hd1. rewrite <-Hd1 in HP.
  apply after_quiet; [apply instance_quiet|done|]. intros self w2 _ Hd2. rewrite <-Hd2 in HP.
  unfold mbind at 1, M_bind at 1. destruct (decide (rq_method r = "POST")); [|done]. unfold asks.
  destruct (SIEMIntegrationForm (w_db w2) self q) as [[i token]|] eqn:HF; [|done]. apply siem_form_wf in HF.
  apply after_quiet; [apply seal_siem_quiet|done|]. intros sealed w3 Es Hd3. rewrite <-Hd3 in HP.
  assert (siem_wf sealed).
  { unfold seal_siem in Es. destruct (decide (token = "")); run_inv Es; done. }
  pose proof (record_event_preserves configured). apply run_then; [|intros; unfold redirect; solve_preserves].
  apply write_row_run; [done|]. intros. by apply siem_written.
Qed.

Lemma source_page_preserves discovery kinds form name k q r :
  (∀ self q, quiet (form self q)) → preserves configured (_identity_sources discovery kinds form name k q r).
Proof.
  intros Hf. apply console_view_preserves. intros u w HP.
  apply after_quiet; [apply permission_quiet|done|]. intros b w1 _ Hd1. rewrite <-Hd1 in HP.
  apply after_quiet; [apply source_or_404_quiet|done|]. intros self w2 _ Hd2. rewrite <-Hd2 in HP.
  apply run_then; [|intros; unfold _render_resource; solve_preserves].
  destruct (decide (rq_method r = "POST")); [|done]. destruct (_ && _).
  - apply run_then; [|intros; solve_preserves]. by apply quiet_preserves; [apply draft_quiet|].
  - apply save_form_preserves; [apply _|done|]. by apply source_form_safe.
Qed.

(** The policies of a well-formed configuration are evaluated without errors. *)
Lemma configured_integer_days d : configured d → integer_days d.
Proof.
  intros []. split.
  - intros k p Hp. apply Forall_forall. by destruct (cd_policies0 k p Hp).
  - intros k f Hf j Hj. destruct (cd_frames0 k f Hf) as [H _]. rewrite Forall_forall in H.
    destruct (H j Hj) as (z & -> & _). by exists z.
Qed.

(** C30: The configuration stays well formed.  Whatever is submitted to a configuration
    page, and whether or not it is accepted, if every policy had a quorum of 1 to 10 and
    1 to 50 concurrent sessions, dates in order, networks that parse, patterns that
    compile, known actions, and existing groups, accounts and time frames, then so they
    have afterwards; the same for the weekdays of time frames, the intervals and lengths
    of rotation policies, the ports of targets, the known and closed capabilities of
    roles, the destinations of SIEM integrations, and the uniqueness of names. *)
Theorem configuration_stays_well_formed discovery p k q r w :
  configured (w_db w) → configured (w_db (page_view discovery p k q r w).2).
Proof.
  revert w. change (preserves configured (page_view discovery p k q r)).
  destruct p; cbn [page_view];
    unfold users_page, user_groups_page, roles_page, directory_mappings_page, target_groups_page, domains_page,
      credentials_page, policies_page, time_frames_page, rotation_policies_page.
  all: try (lazymatch goal with |- preserves _ (resource_page _ _ _ _ _ _ _ _ _) => idtac end;
            apply resource_page_preserves; [apply _|]; intros d self HP Hs).
  - by apply user_form_safe.
  - apply row_form_safe; [done|]. elsewhere.
  - apply row_form_safe; [done|]. intros. by eapply role_written.
  - apply source_page_preserves, ldap_form_quiet.
  - apply source_page_preserves, ldap_form_quiet.
  - apply source_page_preserves, oidc_form_quiet.
  - apply row_form_safe; [done|]. elsewhere.
  - apply row_form_safe; [done|]. elsewhere.
  - apply targets_page_preserves.
  - apply host_keys_page_preserves.
  - apply row_form_safe; [done|]. elsewhere.
  - by apply credential_form_safe.
  - apply row_form_safe; [done|]. intros. by eapply policy_written.
  - apply row_form_safe; [done|]. intros. by eapply frame_written.
  - apply row_form_safe; [done|]. intros. by eapply rotation_written.
  - apply siem_page_preserves.
Qed.
End invariant.

(** ** Concrete requests *)

Section witnesses.
#[local] Existing Instance demo_platform.
#[local] Existing Instance demo_outbound.

#[local] Instance demo_license_env : LicenseEnv := demo_env "community" "".

#[local] Instance demo_forms : DjangoForms := {|
  parse_datetime s := if decide (s = "2026-01-01") then Some demo_now else if decide (s = "2027-01-01") then Some (demo_now + day) else None;
  parse_time _ := None;
  valid_email s := true;
  clean_url_field := Some;
  normalize_username s := s;
  valid_username s := true;
  password_acceptable s u := 12 <=? len s;
  re_compiles s := negb (startswith "(" s);
|}.

Definition no_discovery (issuer : string) : option (list (string * json)) := None.

(** A system profile whose holders manage profiles; alice is one of them. *)
Definition admin_role : role :=
  Role "Administrators" (Some "administrators") [CONFIGURATION_VIEW; CONSOLE_ACCESS; ROLES_MANAGE; ROLES_VIEW] true true "".

Definition console_db : db := empty_db
  <| roles := {[ 2%N := admin_role ]} |>
  <| user_groups := {[ 5%N := UserGroup "Admins" {[ pk demo_alice ]} {[ 2%N ]} true "" ]} |>.

Definition role_post : querydict :=
  {[ "name" := ["Administrators"]; "slug" := ["administrators"]; "enabled" := ["on"];
     "capabilities" := [CONFIGURATION_VIEW; CONSOLE_ACCESS; ROLES_MANAGE; ROLES_VIEW];
     "system_level" := ["manage"]; "roles_level" := ["manage"] ]}.

Definition demo_role_saved : outcome (response * http_request) * world := Eval vm_compute in
  page_view no_discovery Roles (Some 2%N) role_post (demo_http "/console/roles/" ∅) (demo_world console_db).

Lemma demo_role_run : page_view no_discovery Roles (Some 2%N) role_post (demo_http "/console/roles/" ∅)
  (demo_world console_db) = demo_role_saved.
Proof. vm_compute. reflexivity. Qed.

(** A system profile can be rewritten by its own holders.  Alice holds a system
    profile that manages profiles and nothing of the system settings.  The form refuses
    changes of the protected fields of a system profile, but the capabilities are then
    computed from the permission levels, which are not among them: one POST that repeats
    the protected fields and adds a level succeeds, and Alice has the new capability. *)
Theorem system_profile_rewritten :
  let w := demo_world console_db in
  let r := demo_http "/console/roles/" ∅ in
  let run := page_view no_discovery Roles (Some 2%N) role_post r w in
  (user_has_capability (rq_user r) SYSTEM_MANAGE w).1 = Ok false ∧
  (ro_is_system <$> roles (w_db w) !! 2%N) = Some true ∧
  run.1 = Ok (RedirectTo "console:roles" [], r) ∧
  (user_has_capability (rq_user r) SYSTEM_MANAGE run.2).1 = Ok true.
Proof. vm_compute. repeat split. Qed.

(** The keyring signs nothing: the role is saved, its event is not. *)
Definition mute_platform : Platform := {|
  draw_uuid4 := @draw_uuid4 demo_platform;
  draw_token_urlsafe := @draw_token_urlsafe demo_platform;
  draw_token_hex := @draw_token_hex demo_platform;
  draw_token_bytes := @draw_token_bytes demo_platform;
  keyring := KeyringClient (kr_encrypt demo_keyring) (kr_decrypt demo_keyring)
               (λ _, Raise (KeyringError "unreachable")) (kr_verify demo_keyring);
  utc_offset := @utc_offset demo_platform;
  make_password := @make_password demo_platform;
  check_password := @check_password demo_platform;
  conf := demo_conf;
|}.

Lemma change_without_event :
  let run := @page_view mute_platform _ _ _ no_discovery Roles (Some 2%N) role_post (demo_http "/console/roles/" ∅)
               (demo_world console_db) in
  is_ok run.1 = false ∧ roles (w_db run.2) ≠ roles console_db ∧ audit_events (w_db run.2) = ∅.
Proof. vm_compute. repeat split. discriminate. Qed.

Lemma configuration_changes_are_authorised_witness :
  let w := demo_world console_db in let r := demo_http "/console/roles/" ∅ in
  ∃ u, rq_user r = Authenticated u ∧ rq_method r = "POST" ∧
    (∃ t, t ∈ [w_clock w; w_clock (advance w)] ∧ holds (w_db w) u (manage_capability Roles) t) ∧
    (is_ok demo_role_saved.1 = true → ∃ e, recorded (w_db w) (w_db demo_role_saved.2) u e).
Proof.
  apply (configuration_changes_are_authorised no_discovery Roles (Some 2%N) role_post
           (demo_http "/console/roles/" ∅) (demo_world console_db) demo_role_saved.1 demo_role_saved.2).
  - rewrite demo_role_run. reflexivity.
  - intros E. apply (f_equal roles) in E. vm_compute in E. discriminate E.
Defined.

Lemma console_db_configured : configured console_db.
Proof.
  constructor; simpl; try apply map_Forall_empty; try done.
  - intros k r [<- <-]%lookup_singleton_Some. split.
    + apply (bool_decide_unpack _). vm_compute. exact I.
    + assert (Forall (λ cx : string * string, cx.1 ∈ ro_capabilities admin_role → cx.2 ∈ ro_capabilities admin_role) dependencies) as H
        by (apply (bool_decide_unpack _); vm_compute; exact I).
      intros c x Hcx. apply (Forall_in _ _ (c, x) H Hcx).
  - by intros i j x y [<- <-]%lookup_singleton_Some [<- <-]%lookup_singleton_Some.
Qed.

Lemma configuration_stays_well_formed_witness : configured (w_db demo_role_saved.2).
Proof.
  pose proof (configuration_stays_well_formed no_discovery Roles (Some 2%N) role_post
           (demo_http "/console/roles/" ∅) (demo_world console_db) console_db_configured) as H.
  rewrite demo_role_run in H. exact H.
Defined.
End witnesses.
