(* ===== verification/ConsoleOps.v ===== *)
(** * Operational pages of the console ([pamolive/console/views.py])

    Governance and access reviews, the dashboard, rotations, approvals, the audit log
    with its export, live and recorded sessions.  They join the services of the other
    files with the capability and fresh-MFA guards.

    The context of a page keeps what the code computes; template texts and cache headers
    are left out. *)

From S2P Require Import Prelude PyStr PyFloat Json Loads Crypto PyTime Models World Text AuditTrail Rbac Ip Policies Approvals Vault.
From S2P Require Import Mfa Accounts Sessions Broker GatewayApi Rotation Governance Licensing Portal Recordings Forms ConsoleForms Console.
Import Capability.

Local Open Scope Z_scope.

(** Django's date parser (the day number; a date that does not exist raises),
    [datetime.fromisoformat] made aware, the decoded browser sessions that have not
    expired ([None]: one that does not decode), the probes of the dashboard, and
    whether the gateway accepts a control request. *)
Class ConsoleEnv := {
  parse_date : string → outcome (option Z);
  fromisoformat_aware : string → outcome Z;
  web_sessions : Z → list (option (list (string * json)));
  database_ok : bool;
  cache_ok : bool;
  pending_migrations : list string;
  gateway_accepts : signed_request → bool;
}.

(** ** Text formats *)

(** [json.dumps] with its default separators, [ensure_ascii=False] *)
Fixpoint ser_spaced (j : json) : list ascii :=
  match j with
  | JArr l =>
      "["%char ::
      (fix go (sep : bool) (l : list json) : list ascii :=
         match l with
         | [] => ["]"%char]
         | x :: l' => (if sep then [","; " "]%char else []) ++ ser_spaced x ++ go true l'
         end) false l
  | JObj l =>
      "{"%char ::
      (fix go (sep : bool) (l : list (string * json)) : list ascii :=
         match l with
         | [] => ["}"%char]
         | (k, x) :: l' =>
             (if sep then [","; " "]%char else []) ++ ser_str k ++ [":"; " "]%char ++ ser_spaced x ++ go true l'
         end) false l
  | _ => ser j
  end.

(** [json.dumps(j, ensure_ascii=False, sort_keys=True)] *)
Definition dumps_spaced (j : json) : string := of_chars (ser_spaced (sort_keys j)).

(** The [csv] module's writer in its default dialect. *)
Definition csv_special (c : ascii) : bool :=
  (code c =? 34) || (code c =? 44) || (code c =? 13) || (code c =? 10).

Definition csv_field (s : string) : list ascii :=
  if existsb csv_special (chars s)
  then quote :: mbind (λ c, if decide (c = quote) then [quote; quote] else [c]) (chars s) ++ [quote]
  else chars s.

Fixpoint csv_fields (l : list string) : list ascii :=
  match l with
  | [] => []
  | [x] => csv_field x
  | x :: l' => csv_field x ++ ","%char :: csv_fields l'
  end.

Definition CRLF : list ascii := [chr 13; chr 10].

Definition csv_row (l : list string) : list ascii := csv_fields l ++ CRLF.

(** [str(value)] of the values of an audit row; [None] becomes the empty text. *)
Definition cell_text (v : json) : string :=
  match v with
  | JNull => ""
  | JInt z => str_int z
  | JStr s => s
  | JBool b => if b then "True" else "False"
  | JFloat f => repr_float (float_value f)
  | JArr _ | JObj _ => ""
  end.

Definition csv_formula_start (s : string) : bool :=
  existsb (λ p, startswith p s) ["="; "+"; "-"; "@"].

Definition _csv_safe (value : json) : string :=
  let rendered := cell_text value in
  if csv_formula_start rendered then "'" +:+ rendered else rendered.

Example csv_ex :
  of_chars (csv_row [_csv_safe (JStr "=1+1"); _csv_safe (JInt (-3)); _csv_safe JNull; _csv_safe (JStr "a,b")])
  = "'=1+1,'-3,," +:+ of_chars ([quote] ++ chars "a,b" ++ [quote] ++ CRLF).
Proof. reflexivity. Qed.

(** ** Audit *)

Section audit.
Context {PF : Platform} {CE : ConsoleEnv}.

(** [field__icontains=value] *)
Definition icontains (value field : string) : bool := contains (upper value) (upper field).

Record audit_filters := AuditFilters {
  af_action : string; af_actor : string; af_from : option Z; af_to : option Z }.

Definition GET_text (q : querydict) (k : string) : string := default "" (qget q k).

Definition read_filters (q : querydict) : outcome audit_filters :=
  match parse_date (GET_text q "from") with
  | Raise e => Raise e
  | Ok from =>
      match parse_date (GET_text q "to") with
      | Raise e => Raise e
      | Ok to => Ok (AuditFilters (slice_to 150 (strip (GET_text q "action")))
                       (slice_to 150 (strip (GET_text q "actor"))) from to)
      end
  end.

(** [occurred_at__date]: the day in the current time zone. *)
Definition local_day (t : Z) : Z := (t + utc_offset t) / day.

Definition actor_matches (d : db) (value : string) (e : audit_event) : bool :=
  match e_actor e ≫= λ u, users d !! u with
  | Some u => icontains value (u_username u) || icontains value (u_display_name u) || icontains value (u_email u)
  | None => false
  end.

Definition filter_allows (d : db) (f : audit_filters) (e : audit_event) : bool :=
  (bool_decide (af_action f = "") || icontains (af_action f) (e_action e))
  && (bool_decide (af_actor f = "") || actor_matches d (af_actor f) e)
  && match af_from f with Some day => day <=? local_day (e_occurred_at e) | None => true end
  && match af_to f with Some day => local_day (e_occurred_at e) <=? day | None => true end.

(** The events the filters select, by sequence. *)
Definition _audit_events (q : querydict) : M (list (obj audit_event)) :=
  f ← of_outcome (read_filters q);
  asks (λ d, List.filter (λ o, filter_allows d f (val o)) (by_sequence (audit_events d))).

Definition opt_text (o : option string) : json := match o with Some s => JStr s | None => JNull end.

Definition _audit_row (d : db) (e : audit_event) : list (string * json) :=
  [("sequence", JInt (e_sequence e)); ("occurred_at", JStr (isoformat (e_occurred_at e)));
   ("actor", match e_actor e ≫= λ u, users d !! u with Some u => JStr (u_username u) | None => JNull end);
   ("action", JStr (e_action e)); ("resource_type", JStr (e_resource_type e));
   ("resource_id", JStr (e_resource_id e)); ("source_ip", opt_text (e_source_ip e));
   ("metadata", redact_metadata (JObj (e_metadata e))); ("previous_hash", JStr (e_previous_hash e));
   ("event_hash", JStr (e_event_hash e)); ("signature", JStr (e_signature e));
   ("hash_version", JInt (e_hash_version e))].

Definition audit_fieldnames : list string :=
  ["sequence"; "occurred_at"; "actor"; "action"; "resource_type"; "resource_id"; "source_ip"; "metadata";
   "previous_hash"; "event_hash"; "signature"; "hash_version"].

(** The metadata column is text, the others are rendered. *)
Definition csv_cells (row : list (string * json)) : list string :=
  (λ kv : string * json, _csv_safe (if decide (kv.1 = "metadata") then JStr (dumps_spaced kv.2) else kv.2)) <$> row.

Definition csv_text (rows : list (list (string * json))) : string :=
  of_chars (csv_row audit_fieldnames ++ mbind (λ row, csv_row (csv_cells row)) rows).

Definition jsonl_text (rows : list (list (string * json))) : string :=
  of_chars (mbind (λ row, chars (dumps_spaced (JObj row)) ++ [chr 10]) rows).

Definition export_limit : nat := Z.to_nat 10000.

Definition user_self (u : obj user) : resource := user_resource u.

Definition audit_page (q : querydict) : handler := console_view AUDIT_VIEW (λ u r,
  events ← _audit_events q;
  integrity ← verify_audit_chain;
  can_export ← user_has_capability (Authenticated u) AUDIT_EXPORT;
  d ← asks (λ d, d);
  mret (Rendered "console/audit.html" 200
    [("events", JArr ((λ o, JObj (_audit_row d (val o))) <$> take 200 (rev events)));
     ("valid", JBool (av_valid integrity)); ("can_export", JBool can_export)], r)).

(** [step_up_response]: the view goes on when the guard has nothing to say. *)
Definition with_step_up (u : obj user) (r : http_request) (label : string) (view : M (response * http_request))
    : M (response * http_request) :=
  step_up ← sensitive_mfa_required u r label;
  match step_up with Some resp => mret (resp, r) | None => view end.

Definition text_body (status : Z) (s : string) : response := FileBody status "text/html; charset=utf-8" (decode_replace (bytes_of s)).

Definition audit_export (export_format : string) (q : querydict) : handler := console_view AUDIT_EXPORT (λ u r,
  with_step_up u r "exporter le journal d’audit" (
    if negb (bool_decide (export_format ∈ ["csv"; "jsonl"]))
    then mret (text_body 404 "Format d’export non pris en charge.", r)
    else
      integrity ← verify_audit_chain;
      if negb (av_valid integrity)
      then mret (text_body 409 "Export bloqué : l’intégrité de la chaîne d’audit doit être vérifiée.", r)
      else
        events ← _audit_events q;
        d ← asks (λ d, d);
        let rows := (λ o, _audit_row d (val o)) <$> take export_limit events in
        let content := if decide (export_format = "jsonl") then jsonl_text rows else csv_text rows in
        let content_type := if decide (export_format = "jsonl") then "application/x-ndjson; charset=utf-8"
                            else "text/csv; charset=utf-8" in
        record_event (Some (pk u)) "audit.exported" (user_self u)
          [("format", JStr export_format); ("event_count", JInt (Z.of_nat (length rows)));
           ("sha256", JStr (sha256_hex content))] (REMOTE_ADDR (rq_meta r)) ;;
        mret (FileBody 200 content_type (points content), r))).
End audit.

(** ** Orders *)

Definition string_le (a b : string) : Prop := String.leb a b = true.
#[global] Instance string_le_dec a b : Decision (string_le a b).
Proof. unfold string_le. apply _. Defined.

(** [order_by(text)] *)
Definition text_order {A} (f : A → string) (a b : A) : Prop := string_le (f a) (f b).
#[global] Instance text_order_dec {A} (f : A → string) a b : Decision (text_order f a b).
Proof. unfold text_order. apply _. Defined.
Definition sort_by_text {A} (f : A → string) (l : list A) : list A := merge_sort (text_order f) l.

(** ** Governance *)

Section pages.
Context {PF : Platform} {LE : LicenseEnv} {CE : ConsoleEnv} {RH : RecordingHost} {FR : FernetReader}.

Definition governance_center : handler := console_view SYSTEM_VIEW (λ u r,
  findings ← security_findings 50;
  risks ← asks (λ d, ranked_policy_risks d 15);
  report ← compliance_report;
  d ← asks (λ d, d);
  mret (Rendered "console/governance.html" 200
    [("findings", JArr (finding_json <$> findings)); ("risks", JArr (risk_json <$> risks)); ("report", report);
     ("campaigns", JArr (campaign_json d <$> take 8 (recent_campaigns d)))], r)).

Definition governance_report_export : handler := console_view SYSTEM_VIEW (λ u r,
  report ← compliance_report;
  record_event (Some (pk u)) "governance.report_exported" (user_self u) [] (REMOTE_ADDR (rq_meta r)) ;;
  mret (JsonBody 200 [("report", report)], r)).

(** [f"Recertification {timezone.now():%Y-%m-%d}"] when no name was given *)
Definition campaign_name (q : querydict) : M string :=
  let name := strip (GET_text q "name") in
  if decide (name = "") then t ← now; mret ("Recertification " +:+ slice_to 10 (isoformat t)) else mret name.

Definition campaign_due (q : querydict) : M (option Z) :=
  let text := strip (GET_text q "due_at") in
  if decide (text = "") then mret None else t ← of_outcome (fromisoformat_aware text); mret (Some t).

(** The name column holds 180 characters. *)
Definition access_reviews (q : querydict) : handler := console_view SYSTEM_VIEW (λ u r,
  if decide (rq_method r = "POST") then
    can_manage ← user_has_capability (Authenticated u) SYSTEM_MANAGE;
    raise_if (negb can_manage) (PermissionDenied "") ;;
    with_step_up u r "créer une campagne de recertification" (
      name ← campaign_name q;
      due_at ← campaign_due q;
      raise_if (180 <? len name) (OtherError "DataError") ;;
      campaign ← create_access_review_campaign name (Some (pk u)) due_at;
      mret (RedirectTo "console:access_review_detail" [("pk", str_uuid (pk campaign))], r))
  else
    d ← asks (λ d, d);
    can_manage ← user_has_capability (Authenticated u) SYSTEM_MANAGE;
    mret (Rendered "console/access_reviews.html" 200
      [("campaigns", JArr (campaign_json d <$> sort_by (λ c, - created_at (rv_stamps (val c))) (rows (campaigns d))));
       ("can_manage", JBool can_manage)], r)).

(** [order_by("-risk_score", "policy__name")]: the items of a campaign. *)
Definition reviewed_policy_name (d : db) (i : obj access_review_item) : string :=
  match policies d !! ri_policy (val i) with Some p => p_name p | None => "" end.

Definition review_items_of (d : db) (c : id) : list (obj access_review_item) :=
  sort_by (λ i, - ri_risk_score (val i)) (sort_by_text (reviewed_policy_name d) (objects_filter (λ i, bool_decide (ri_campaign (val i) = c)) (review_items d))).

Definition access_review_detail (k : id) : handler := console_view SYSTEM_VIEW (λ u r,
  campaign ← get_or_404 campaigns k;
  items ← asks (λ d, review_items_of d k);
  can_manage ← user_has_capability (Authenticated u) SYSTEM_MANAGE;
  mret (Rendered "console/access_review_detail.html" 200
    [("campaign", JStr (rv_name (val campaign))); ("items", JArr ((λ i, JStr (str_uuid (pk i))) <$> items));
     ("can_manage", JBool can_manage)], r)).

Definition access_review_decide (k item_pk : id) (q : querydict) : handler :=
  login_required (λ u, require_POST (λ r, capability_required SYSTEM_MANAGE (Authenticated u) (
    campaign ← get_or_404 campaigns k;
    item ← get_or_404 review_items item_pk;
    raise_if (bool_decide (ri_campaign (val item) ≠ pk campaign)) Http404 ;;
    with_step_up u r "décider une recertification d'accès" (
      decide_access_review_item (pk item) (default "keep" (qget q "decision")) (pk u) (GET_text q "comment") ;;
      mret (RedirectTo "console:access_review_detail" [("pk", str_uuid (pk campaign))], r))))).

(** ** Dashboard *)

(** [int(user_id)] of the truthy identifiers; what does not decode or convert is skipped. *)
Definition connected_user (session : option (list (string * json))) : list Z :=
  match session ≫= dict_get "_auth_user_id" with
  | Some j => if json_truthy j then match int_of_json j with Ok z => [z] | Raise _ => [] end else []
  | None => []
  end.

Definition _connected_web_user_ids : M (gset Z) :=
  t ← now; mret (list_to_set (mbind connected_user (web_sessions t))).

Record live_data := LiveData {
  ld_connected : Z; ld_connected_users : list string; ld_active_sessions : Z; ld_failed_logins : Z;
  ld_recent_failures : list (obj audit_event); ld_audit_events : Z; ld_database_ok : bool; ld_cache_ok : bool }.

Definition is_failure (since : Z) (e : obj audit_event) : bool :=
  bool_decide (e_action (val e) = "authentication.password.failed") && (since <=? e_occurred_at (val e)).

Definition _live_dashboard_data : M live_data :=
  t ← now;
  let since := t - hours 24 in
  connected_ids ← _connected_web_user_ids;
  d ← asks (λ d, d);
  mret (LiveData (Z.of_nat (size connected_ids))
    (take 8 (sort_by_text (λ s, s) ((λ o, u_username (val o)) <$>
       objects_filter (λ o, bool_decide (Z.of_N (pk o) ∈ connected_ids)) (users d))))
    (count_rows (λ s, bool_decide (s_status (val s) = SessionStatus.ACTIVE)) (sessions d))
    (count_rows (is_failure since) (audit_events d))
    (take 8 (sort_by (λ e, - e_occurred_at (val e)) (objects_filter (is_failure since) (audit_events d))))
    (count_rows (λ e, since <=? e_occurred_at (val e)) (audit_events d)) database_ok cache_ok).

Definition pending_requests (d : db) : Z :=
  count_rows (λ o, bool_decide (ar_status (val o) = RequestStatus.PENDING)) (access_requests d).

(** Enabled groups without an enabled policy; enabled targets without an account. *)
Definition group_without_policy (d : db) (g : obj user_group) : bool :=
  ug_enabled (val g) &&
  negb (exists_row (λ p, bool_decide (pk g ∈ p_user_groups (val p)) && p_enabled (val p)) (policies d)).
Definition target_without_credential (d : db) (t : obj target) : bool :=
  t_enabled (val t) && negb (exists_row (λ c, bool_decide (c_target (val c) = pk t)) (credentials d)).

Definition dashboard : handler := console_view CONSOLE_ACCESS (λ u r,
  d ← asks (λ d, d);
  live ← _live_dashboard_data;
  mret (Rendered "console/dashboard.html" 200
    [("user_count", JInt (count_rows (λ o, u_is_active (val o)) (users d)));
     ("user_group_count", JInt (count_rows (λ o, ug_enabled (val o)) (user_groups d)));
     ("target_count", JInt (count_rows (λ o, t_enabled (val o)) (targets d)));
     ("target_group_count", JInt (count_rows (λ o, tg_enabled (val o)) (target_groups d)));
     ("domain_count", JInt (count_rows (λ o, do_enabled (val o)) (domains d)));
     ("identity_source_count", JInt (count_rows (λ o, is_enabled (val o)) (identity_sources d)));
     ("policy_count", JInt (count_rows (λ o, p_enabled (val o)) (policies d)));
     ("pending_approval_count", JInt (pending_requests d));
     ("groups_without_policy", JInt (count_rows (group_without_policy d) (user_groups d)));
     ("targets_without_credentials", JInt (count_rows (target_without_credential d) (targets d)));
     ("connected_user_count", JInt (ld_connected live)); ("connected_users", json_strings (ld_connected_users live));
     ("active_privileged_session_count", JInt (ld_active_sessions live));
     ("failed_login_count", JInt (ld_failed_logins live)); ("audit_event_count_24h", JInt (ld_audit_events live));
     ("database_ok", JBool (ld_database_ok live)); ("cache_ok", JBool (ld_cache_ok live))], r)).

Definition require_GET (h : handler) : handler := λ r,
  if decide (rq_method r = "GET") then h r else mret (NotAllowed ["GET"], r).

Definition ok_or_error (b : bool) : json := JStr (if b then "ok" else "error").

Definition failure_json (e : audit_event) : json :=
  JObj [("at", JStr (isoformat (e_occurred_at e))); ("source_ip", JStr (or_default (default "" (e_source_ip e)) "—"));
        ("username", default (JStr "—") (dict_get "username" (e_metadata e)))].

Definition dashboard_status : handler := require_GET (console_view CONSOLE_ACCESS (λ u r,
  live ← _live_dashboard_data;
  pending ← asks pending_requests;
  mret (JsonBody 200
    [("connected_users", JInt (ld_connected live)); ("active_sessions", JInt (ld_active_sessions live));
     ("failed_logins", JInt (ld_failed_logins live)); ("pending_approvals", JInt pending);
     ("audit_events_24h", JInt (ld_audit_events live)); ("database", ok_or_error (ld_database_ok live));
     ("cache", ok_or_error (ld_cache_ok live));
     ("failures", JArr ((λ o, failure_json (val o)) <$> ld_recent_failures live))], r))).

Definition system_status : handler := console_view SYSTEM_VIEW (λ u r,
  license ← get_license_status;
  first ← _live_dashboard_data;
  second ← _live_dashboard_data;
  mret (Rendered "console/system_status.html" 200
    [("license", as_dict license); ("cluster_enabled", JBool cluster_enabled); ("node_id", JStr node_id);
     ("pending_migrations", json_strings pending_migrations); ("database_ok", JBool (ld_database_ok first));
     ("cache_ok", JBool (ld_cache_ok second))], r)).

(** ** Rotations *)

(** The job is handed to the task queue when it is new. *)
Definition rotate_credential (k : id) : handler := require_POST (console_view CREDENTIALS_ROTATE (λ u r,
  credential ← get_or_404 credentials k;
  queue_rotation (pk credential) (Some (pk u)) "Rotation manuelle depuis la console" None ;;
  redirect "console:rotation_jobs" r)).

Definition rotation_jobs_page : handler := login_required (λ u r,
  can_view ← user_has_capability (Authenticated u) CREDENTIALS_VIEW_METADATA;
  allowed ← (if (can_view : bool) then mret true else user_has_capability (Authenticated u) CREDENTIALS_ROTATE);
  raise_if (negb allowed) (PermissionDenied "") ;;
  jobs ← asks (λ d, take 200 (sort_by (λ j, - created_at (j_stamps (val j))) (rows (rotation_jobs d))));
  mret (Rendered "console/rotation_jobs.html" 200
    [("rotation_jobs", JArr ((λ j, JStr (str_uuid (pk j))) <$> jobs))], r)).

(** ** Approvals *)

(** The requests a user who decides may see: those of policies without approvers or
    with a group of approvers the user belongs to. *)
Definition may_see_request (d : db) (u : obj user) (o : obj access_request) : bool :=
  match policies d !! ar_policy (val o) with
  | Some p => bool_decide (p_approver_groups p = ∅) ||
              exists_row (λ g, bool_decide (pk g ∈ p_approver_groups p) && bool_decide (pk u ∈ ug_users (val g))) (user_groups d)
  | None => false
  end.

(** [order_by("status", "-created_at")] *)
Definition request_rows (d : db) (u : obj user) (can_decide : bool) : list (obj access_request) :=
  let all := sort_by_text (λ o, RequestStatus.str (ar_status (val o)))
               (sort_by (λ o, - created_at (ar_stamps (val o))) (rows (access_requests d))) in
  if can_decide && negb (u_is_superuser (val u)) then List.filter (may_see_request d u) all else all.

Definition recorded_approval_count (d : db) (o : obj access_request) : Z :=
  count_rows (λ a, bool_decide (ad_access_request (val a) = pk o) && bool_decide (ad_decision (val a) = APPROVE)) (decisions d).

(** [get_object_or_404(AccessRequest, pk=...)]: what is no UUID is an error. *)
Definition submitted_request (q : querydict) : M (obj access_request) :=
  match qget q "request_id" with
  | None => raise Http404
  | Some v => match uuid_of_str v with
              | Some k => get_or_404 access_requests k
              | None => raise (ValidationError "“%(value)s” n’est pas un UUID valide.")
              end
  end.

(** A refusal of the service is shown as a message. *)
Definition shown_as_message {A} (m : M A) : M unit :=
  try_except (m ;; mret tt) (λ e,
    match e with PermissionDenied _ | ValidationError _ => Some (mret tt) | _ => None end).

Definition approvals (q : querydict) : handler := console_view APPROVALS_VIEW (λ u r,
  can_decide ← user_has_capability (Authenticated u) APPROVALS_DECIDE;
  if decide (rq_method r = "POST") then
    raise_if (negb can_decide) (PermissionDenied "") ;;
    with_step_up u r "approuver ou refuser une demande d’accès" (
      access_request ← submitted_request q;
      shown_as_message (decide_access_request (pk access_request) u (bool_decide (qget q "decision" = Some "approve"))
                          (GET_text q "comment")) ;;
      redirect "console:approvals" r)
  else
    d ← asks (λ d, d);
    mret (Rendered "console/approvals.html" 200
      [("requests", JArr ((λ o, JObj [("id", JStr (str_uuid (pk o))); ("approvals", JInt (recorded_approval_count d o))])
                            <$> request_rows d u can_decide)); ("can_decide", JBool can_decide)], r)).

(** ** Sessions *)

Definition recent_sessions (d : db) : list (obj privileged_session) :=
  sort_by (λ s, - created_at (s_stamps (val s))) (rows (sessions d)).

Definition sessions_page : handler := console_view SESSIONS_VIEW (λ u r,
  objects ← asks (λ d, take 200 (recent_sessions d));
  can_terminate ← user_has_capability (Authenticated u) SESSIONS_TERMINATE;
  mret (Rendered "console/sessions.html" 200
    [("sessions", JArr ((λ s, JStr (str_uuid (pk s))) <$> objects)); ("can_terminate", JBool can_terminate)], r)).

(** [str(user)] *)
Definition user_str (u : user) : string := or_default (or_default (u_display_name u) (u_email u)) (u_username u).

Definition opt_time (t : option Z) : json := match t with Some t => JStr (isoformat t) | None => JNull end.

Definition session_json (d : db) (s : obj privileged_session) : json :=
  JObj [("id", JStr (str_uuid (pk s)));
        ("user", JStr (match users d !! s_user (val s) with Some u => user_str u | None => "" end));
        ("target", JStr (match targets d !! s_target (val s) with Some t => t_name t | None => "" end));
        ("protocol", JStr (match targets d !! s_target (val s) with Some t => protocol_str (t_protocol t) | None => "" end));
        ("account", JStr (match s_credential (val s) ≫= λ c, credentials d !! c with Some c => c_username c | None => "" end));
        ("status", JStr (SessionStatus.str (s_status (val s)))); ("started_at", opt_time (s_started_at (val s)));
        ("last_activity_at", opt_time (s_last_activity_at (val s)));
        ("recorded", JBool (bool_decide (s_recording_reference (val s) ≠ "")))].

Definition sessions_status : handler := require_GET (console_view SESSIONS_VIEW (λ u r,
  d ← asks (λ d, d);
  mret (JsonBody 200 [("sessions", JArr (session_json d <$> take 100 (recent_sessions d)))], r))).

(** The volume with the sealed recordings. *)
Context (recordings : volume).

(** [except FileNotFoundError: raise Http404] *)
Definition or_404 {A} (m : outcome A) : M A :=
  match m with
  | Raise (OtherError "FileNotFoundError") => raise Http404
  | x => of_outcome x
  end.

Definition recorded_session (k : id) : M (obj privileged_session) :=
  session ← get_or_404 sessions k;
  raise_if (bool_decide (s_recording_reference (val session) = "")) Http404 ;;
  mret session.

(** An event with the code points of its text. *)
Definition replayed_json (e : recording_event) : json :=
  JObj [("at", ev_at e); ("direction", ev_direction e); ("text", JArr (JInt <$> ev_text e)); ("size", JInt (ev_size e))].

Definition session_replay (k : id) : handler := console_view SESSIONS_VIEW (λ u r,
  session ← recorded_session k;
  events ← or_404 (read_recording_events (s_recording_reference (val session)) read_limit recordings);
  mret (Rendered "console/session_replay.html" 200 [("events", JArr (replayed_json <$> events))], r)).

Definition session_recording_export (k : id) : handler := console_view SESSIONS_VIEW (λ u r,
  session ← recorded_session k;
  content ← or_404 (recording_text_export (s_recording_reference (val session)) recordings);
  record_event (Some (pk u)) "session.recording_exported" (session_resource (pk session)) [("format", JStr "txt")]
    (REMOTE_ADDR (rq_meta r)) ;;
  mret (FileBody 200 "text/plain; charset=utf-8" content, r)).

(** The gateway is told when the session was open; whether it answered only changes
    the message. *)
Definition terminate_session (k : id) : handler := require_POST (console_view SESSIONS_TERMINATE (λ u r,
  with_step_up u r "terminer une session privilégiée" (
    session ← get_or_404 sessions k;
    x ← request_session_termination session (pk u);
    (if (x.2 : bool) then request ← notify_gateway_termination (pk x.1); mret (gateway_accepts request) else mret true) ;;
    redirect "console:sessions" r))).
End pages.

(** ** Sensitive operations *)

Section sensitive.
Context {PF : Platform} {LE : LicenseEnv} {CE : ConsoleEnv} {RH : RecordingHost} {FR : FernetReader}.

(** The operations of the console behind the fresh-MFA guard. *)
Inductive operation :=
  | CreateReview (q : querydict)
  | DecideReview (campaign item : id) (q : querydict)
  | DecideRequest (q : querydict)
  | ExportAudit (format : string) (q : querydict)
  | TerminateSession (session : id)
  | ChangeSecurityPolicy (q : querydict).

Definition operation_view (o : operation) : handler :=
  match o with
  | CreateReview q => access_reviews q
  | DecideReview k i q => access_review_decide k i q
  | DecideRequest q => approvals q
  | ExportAudit f q => audit_export f q
  | TerminateSession k => terminate_session k
  | ChangeSecurityPolicy q => security_policy_page q
  end.

Definition operation_capability (o : operation) : string :=
  match o with
  | CreateReview _ | DecideReview _ _ _ | ChangeSecurityPolicy _ => SYSTEM_MANAGE
  | DecideRequest _ => APPROVALS_DECIDE
  | ExportAudit _ _ => AUDIT_EXPORT
  | TerminateSession _ => SESSIONS_TERMINATE
  end.

(** The user held the capability when it was checked, and proved MFA in time. *)
Definition cleared (c : string) (r : http_request) (w : world) : Prop :=
  ∃ u, rq_user r = Authenticated u ∧
    (∃ w1, reads w w1 ∧ holds (w_db w) u c (w_clock w1)) ∧
    (PAMOLIVE_TEST_BYPASS_GLOBAL_MFA conf = false → ∃ w1 w2, later w w1 ∧ mfa_verified (w_db w) u r w1 w2).

#[local] Instance settled_trans : Transitive settled.
Proof.
  intros w1 w2 w3 (s1 & E1 & H1) (s2 & E2 & H2). exists s2. rewrite E2, E1. split; [done|].
  rewrite H2, E1. exact H1.
Qed.

Lemma settled_mfa w1 w2 u r w3 w4 : settled w1 w2 → mfa_verified (w_db w2) u r w3 w4 → mfa_verified (w_db w1) u r w3 w4.
Proof.
  intros (s & E & H) (He & Hs & t & Ht & Hf). rewrite E in He, Hf. split; [done|]. split; [done|].
  exists t. split; [done|]. by simpl in Hf; rewrite H in Hf.
Qed.

Lemma request_policy_total r w : ∃ p w', request_policy r w = (Ok p, w').
Proof.
  unfold request_policy. destruct (rq_policy r); [by do 2 eexists|]. unfold get_security_policy. run.
  destruct (security_policy (w_db w)); [by do 2 eexists|]. unfold save_security_policy. run. by do 2 eexists.
Qed.

Lemma guard_total u r label w : rq_user r = Authenticated u →
  ∃ x w', sensitive_mfa_required u r label w = (Ok x, w').
Proof.
  intros Hu. unfold sensitive_mfa_required. destruct (PAMOLIVE_TEST_BYPASS_GLOBAL_MFA conf); [by do 2 eexists|].
  run. destruct (negb _); [by do 2 eexists|]. destruct (request_policy_total r w) as (p & w1 & E).
  rewrite (bind_ok _ _ _ _ _ E). unfold user_has_recent_mfa. rewrite Hu.
  assert (∃ b w2, (if u_is_service_account (val u) then mret false else
     enrolled ← asks (λ d, mfa_enrolled d (pk u)); if negb enrolled then mret false
     else p0 ← mret p; mfa_timestamp_is_recent (rq_session r !! MFA_SESSION_KEY) p0) w1 = (Ok b, w2)) as (b & w2 & Eb).
  { destruct (u_is_service_account _); [by do 2 eexists|]. run. destruct (negb _); [by do 2 eexists|]. run.
    destruct (mfa_timestamp_run (rq_session r !! MFA_SESSION_KEY) p w1) as (b & w2 & -> & _). eauto. }
  rewrite (bind_ok _ _ _ _ _ Eb). destruct b; [by do 2 eexists|]. destruct (rq_hx r || _); by do 2 eexists.
Qed.

(** A guarded body ran only for a user who proved MFA. *)
Lemma step_up_inv u r label body w res w' :
  rq_user r = Authenticated u → with_step_up u r label body w = (res, w') →
  settled w w' ∨ (PAMOLIVE_TEST_BYPASS_GLOBAL_MFA conf = false → ∃ w1, mfa_verified (w_db w) u r w w1).
Proof.
  intros Hu. unfold with_step_up. destruct (guard_total u r label w Hu) as (x & w1 & E). rewrite (bind_ok _ _ _ _ _ E).
  destruct (guard_inv _ _ _ _ _ _ Hu E) as (_ & Hs & Hx). destruct x as [resp|]; [intros [= <- <-]; by left|].
  right. eauto.
Qed.

(** The guard after parts that write nothing. *)
Definition stepped (u : obj user) (r : http_request) (m : M (response * http_request)) : Prop := ∀ w res w',
  m w = (res, w') → settled w w' ∨
  (PAMOLIVE_TEST_BYPASS_GLOBAL_MFA conf = false → ∃ w1 w2, later w w1 ∧ mfa_verified (w_db w) u r w1 w2).

Lemma stepped_here u r label body : rq_user r = Authenticated u → stepped u r (with_step_up u r label body).
Proof. intros Hu w res w' H. destruct (step_up_inv _ _ _ _ _ _ _ Hu H) as [?|Hm]; [by left|right]. intros Hb. destruct (Hm Hb) as (w1 & ?). by exists w, w1. Qed.

Lemma stepped_quiet u r m : quiet m → stepped u r m.
Proof. intros H w res w' E. left. apply settled_reads. by eapply quiet_run. Qed.

Lemma stepped_after {A} u r (m : M A) f : quiet m → (∀ a, stepped u r (f a)) → stepped u r (m ≫= f).
Proof.
  intros Hq Hf w res w' H. pose proof (Hq w) as Hr. unfold mbind, M_bind in H.
  destruct (m w) as [[a|e] w1]; simpl in Hr.
  2:{ injection H as <- <-. left. by apply settled_reads. }
  destruct (Hf a _ _ _ H) as [Hs|Hm]; [left; etrans; [by apply settled_reads|done]|right].
  intros Hb. destruct (Hm Hb) as (w2 & w3 & Hl & Hv). destruct Hr as [Hd Hl1]. exists w2, w3. rewrite <-Hd. split; [by etrans|done].
Qed.

(** A view that checks a capability, then steps up. *)
Lemma cleared_after c u r w res w' b w1 (m : M (response * http_request)) :
  rq_user r = Authenticated u → user_has_capability (Authenticated u) c w = (Ok b, w1) → (b = true → stepped u r m) →
  (if b then m else raise (PermissionDenied "")) w1 = (res, w') → settled w w' ∨ cleared c r w.
Proof.
  intros Hu E Hm H. pose proof (quiet_run _ _ _ _ (has_capability_quiet _ _) E) as Hr. destruct b.
  2:{ injection H as <- <-. left. by apply settled_reads. }
  destruct (Hm eq_refl _ _ _ H) as [Hs|Hv]; [left; etrans; [by apply settled_reads|done]|right].
  exists u. split; [done|]. split; [exists w; split; [reflexivity|]; by eapply has_capability_holds|].
  intros Hb. destruct (Hv Hb) as (w2 & w3 & Hl & Hm'). destruct Hr as [Hd Hl1]. exists w2, w3. rewrite <-Hd.
  split; [by etrans|done].
Qed.

Lemma required_cleared c u r m w res w' :
  rq_user r = Authenticated u → stepped u r m → capability_required c (Authenticated u) m w = (res, w') →
  settled w w' ∨ cleared c r w.
Proof.
  intros Hu Hm H. unfold capability_required in H. destruct (user_has_capability_total (Authenticated u) c w) as (b & w1 & E & _).
  rewrite (bind_ok _ _ _ _ _ E) in H. eapply cleared_after; eauto.
Qed.

Lemma console_cleared c view r w res w' :
  (∀ u, rq_user r = Authenticated u → stepped u r (view u r)) → console_view c view r w = (res, w') →
  settled w w' ∨ cleared c r w.
Proof.
  intros Hv. unfold console_view, login_required. destruct (rq_user r) as [|u] eqn:Hu; [intros [= <- <-]; left; by apply settled_reads|].
  intros H. eapply required_cleared; eauto.
Qed.

(** What holds after a part that writes nothing held before. *)
Lemma cleared_reads c r w w1 w' : reads w w1 → settled w1 w' ∨ cleared c r w1 → settled w w' ∨ cleared c r w.
Proof.
  intros Hr [Hs|(u & Hu & (w2 & Hr2 & Hh) & Hm)]; [left; etrans; [by apply settled_reads|done]|right].
  pose proof Hr as [Hd Hl]. exists u. split; [done|]. rewrite Hd in Hh, Hm. split; [exists w2; split; [by etrans|done]|].
  intros Hb. destruct (Hm Hb) as (w3 & w4 & ? & ?). exists w3, w4. split; [by etrans|done].
Qed.

Lemma raise_unless_run {A} b e (m : M A) w : (raise_if (negb b) e ;; m) w = (if b then m else raise e) w.
Proof. by destruct b. Qed.

(** Either the request is cleared, or nothing but the default security policy was written. *)
Definition clears (c : string) (r : http_request) (m : M (response * http_request)) : Prop := ∀ w res w',
  m w = (res, w') → settled w w' ∨ cleared c r w.

Lemma clears_quiet c r m : quiet m → clears c r m.
Proof. intros H w res w' E. left. apply settled_reads. by eapply quiet_run. Qed.

Lemma clears_checked c u r post :
  rq_user r = Authenticated u → stepped u r post →
  clears c r (can ← user_has_capability (Authenticated u) c; raise_if (negb can) (PermissionDenied "") ;; post).
Proof.
  intros Hu Hp w res w' H. destruct (user_has_capability_total (Authenticated u) c w) as (b & w1 & E & _).
  rewrite (bind_ok _ _ _ _ _ E), raise_unless_run in H. eapply cleared_after; eauto.
Qed.

Lemma console_clears c view_cap view r :
  (∀ u, rq_user r = Authenticated u → clears c r (view u r)) → clears c r (console_view view_cap view r).
Proof.
  intros Hv w res w'. unfold console_view, login_required.
  destruct (rq_user r) as [|u] eqn:Hu; [intros [= <- <-]; left; by apply settled_reads|]. unfold capability_required.
  destruct (user_has_capability_total (Authenticated u) view_cap w) as (b & w1 & E & _). rewrite (bind_ok _ _ _ _ _ E).
  pose proof (quiet_run _ _ _ _ (has_capability_quiet _ _) E) as Hr.
  destruct b; [|intros [= <- <-]; left; by apply settled_reads]. intros H. eapply cleared_reads; [exact Hr|]. by eapply Hv.
Qed.

Lemma post_clears c h r : clears c r (h r) → clears c r (require_POST h r).
Proof. intros H w res w'. unfold require_POST. destruct (decide _); [apply H|]. intros [= <- <-]. left. by apply settled_reads. Qed.

Lemma reviews_clear q r : clears SYSTEM_MANAGE r (access_reviews q r).
Proof.
  apply console_clears. intros u Hu. destruct (decide (rq_method r = "POST")).
  - by apply clears_checked, stepped_here.
  - apply clears_quiet. pose proof has_capability_quiet. solve_quiet.
Qed.

Lemma approvals_clear q r : clears APPROVALS_DECIDE r (approvals q r).
Proof.
  apply console_clears. intros u Hu. destruct (decide (rq_method r = "POST")).
  - by apply clears_checked, stepped_here.
  - apply clears_quiet. pose proof has_capability_quiet. solve_quiet.
Qed.

Lemma decide_clears k i q r : clears SYSTEM_MANAGE r (access_review_decide k i q r).
Proof.
  unfold access_review_decide, login_required. destruct (rq_user r) as [|u] eqn:Hu; [apply clears_quiet, quiet_ret|].
  apply post_clears. intros w res w' H. eapply required_cleared in H; [exact H|done|].
  do 3 (apply stepped_after; [unfold get_or_404; solve_quiet|intros]). by apply stepped_here.
Qed.

Lemma export_clears f q r : clears AUDIT_EXPORT r (audit_export f q r).
Proof. intros w res w' H. eapply console_cleared in H; [exact H|]. intros. by apply stepped_here. Qed.

Lemma terminate_clears k r : clears SESSIONS_TERMINATE r (terminate_session k r).
Proof.
  apply post_clears. intros w res w' H. eapply console_cleared in H; [exact H|]. intros. by apply stepped_here.
Qed.

Lemma security_policy_run w : ∃ p w1, get_security_policy w = (Ok p, w1) ∧ later w w1 ∧ settled w w1.
Proof.
  set (r := HttpRequest "" "" "" false AnonymousUser ∅ None (RequestMeta None None)).
  destruct (request_policy_total r w) as (p & w1 & E). exists p, w1. split; [exact E|].
  apply request_policy_inv in E as (?&?&_). done.
Qed.

Lemma security_policy_clears q r : clears SYSTEM_MANAGE r (security_policy_page q r).
Proof.
  unfold security_policy_page, login_required. destruct (rq_user r) as [|u] eqn:Hu; [apply clears_quiet, quiet_ret|].
  intros w res w' H. pose proof (permission_quiet (Authenticated u) r SYSTEM_MANAGE SYSTEM_VIEW w) as Hr.
  destruct (_configuration_permission _ r _ _ w) as [[b|e] w1] eqn:E; simpl in Hr.
  2:{ rewrite (bind_raise _ _ _ _ _ E) in H. injection H as <- <-. left. by apply settled_reads. }
  rewrite (bind_ok _ _ _ _ _ E) in H. destruct (security_policy_run w1) as (p & w2 & Ep & Hl2 & Hs2).
  rewrite (bind_ok _ _ _ _ _ Ep) in H. assert (Hs : settled w w2) by (etrans; [by apply settled_reads|done]).
  destruct (decide (rq_method r = "POST")) as [HP|HP].
  2:{ injection H as <- <-. by left. }
  destruct (step_up_inv u r "modifier la politique de sécurité" _ w2 res w' Hu H) as [?|Hm]; [left; by etrans|right].
  exists u. split; [done|]. split; [exists w; split; [reflexivity|]; by eapply permission_post|].
  intros Hb. destruct (Hm Hb) as (w3 & Hv). exists w2, w3. split; [etrans; [apply Hr|done]|]. by eapply settled_mfa.
Qed.

(** The sensitive operations of the console need their capability and a fresh MFA.
    Creating or deciding an access review, deciding a request, exporting the audit log,
    terminating a session and changing the security policy: if such a request wrote
    anything beyond the default security policy that is created on first use, then the
    user is signed in, held the capability of the operation when it was checked, is
    enrolled, is no service account, and proved MFA within the window of the policy
    (unless the test bypass is on). *)
Theorem sensitive_operations_are_cleared o r w res w' :
  operation_view o r w = (res, w') → ¬ settled w w' →
  ∃ u, rq_user r = Authenticated u ∧
    (∃ w1, reads w w1 ∧ holds (w_db w) u (operation_capability o) (w_clock w1)) ∧
    (PAMOLIVE_TEST_BYPASS_GLOBAL_MFA conf = false → ∃ w1 w2, later w w1 ∧ mfa_verified (w_db w) u r w1 w2).
Proof.
  intros H Hs. assert (settled w w' ∨ cleared (operation_capability o) r w) as [?|?]; [|done..].
  destruct o; simpl in *; [eapply reviews_clear | eapply decide_clears | eapply approvals_clear | eapply export_clears
    | eapply terminate_clears | eapply security_policy_clears]; exact H.
Qed.
End sensitive.

(** ** The exported file *)

(** A reader of comma-separated values: quoted fields, doubled quotes, rows ended by
    CR, LF or both. *)
Inductive csv_state := RowStart | AfterCR | FieldStart | Unquoted | Quoted | QuoteSeen.

Definition field_of (f : list ascii) : string := of_chars (rev f).

Fixpoint csv_parse (st : csv_state) (f : list ascii) (row : list string) (l : list ascii) : list (list string) :=
  match l with
  | [] => match st with RowStart | AfterCR => [] | _ => [rev (field_of f :: row)] end
  | c :: l' =>
      let plain :=
        if code c =? 44 then csv_parse FieldStart [] (field_of f :: row) l'
        else if code c =? 13 then rev (field_of f :: row) :: csv_parse AfterCR [] [] l'
        else if code c =? 10 then rev (field_of f :: row) :: csv_parse RowStart [] [] l'
        else csv_parse Unquoted (c :: f) row l' in
      match st with
      | Quoted => if code c =? 34 then csv_parse QuoteSeen f row l' else csv_parse Quoted (c :: f) row l'
      | QuoteSeen => if code c =? 34 then csv_parse Quoted (c :: f) row l' else plain
      | AfterCR => if code c =? 10 then csv_parse RowStart [] [] l'
                   else if code c =? 34 then csv_parse Quoted f row l' else plain
      | RowStart | FieldStart => if code c =? 34 then csv_parse Quoted f row l' else plain
      | Unquoted => plain
      end
  end.

Definition csv_read (text : string) : list (list string) := csv_parse RowStart [] [] (chars text).

Example csv_read_ex :
  csv_read (of_chars (csv_row ["a"; "b,c"; ""] ++ csv_row [of_chars [quote; chr 10]; "=x"; "y"]))
  = [["a"; "b,c"; ""]; [of_chars [quote; chr 10]; "=x"; "y"]].
Proof. reflexivity. Qed.

(** What follows a field: a comma or the end of the row. *)
Inductive ends_field : list ascii → Prop :=
  | ends_comma rest : ends_field (","%char :: rest)
  | ends_row rest : ends_field (CRLF ++ rest).

Lemma plain_field f row rest l :
  forallb (negb ∘ csv_special) l = true →
  csv_parse Unquoted f row (l ++ rest) = csv_parse Unquoted (rev l ++ f) row rest.
Proof.
  revert f. induction l as [|c l IH]; intros f H; [done|]. simpl in H. apply andb_true_iff in H as [Hc Hl].
  unfold csv_special in Hc. apply negb_true_iff, orb_false_iff in Hc as [[[E34 E44]%orb_false_iff E13]%orb_false_iff E10].
  simpl. rewrite E44, E13, E10, IH by done. by rewrite <-app_assoc.
Qed.

Lemma quoted_field f row rest l :
  csv_parse Quoted f row (mbind (λ c, if decide (c = quote) then [quote; quote] else [c]) l ++ quote :: rest)
  = csv_parse QuoteSeen (rev l ++ f) row rest.
Proof.
  revert f. induction l as [|c l IH]; intros f; [done|]. rewrite bind_cons. replace (rev (c :: l) ++ f) with (rev l ++ c :: f) by (simpl; by rewrite <-app_assoc).
  destruct (decide (c = quote)) as [->|Hc].
  - transitivity (csv_parse Quoted (quote :: f) row
      (mbind (λ c, if decide (c = quote) then [quote; quote] else [c]) l ++ quote :: rest)); [reflexivity|apply IH].
  - cbn [app csv_parse]. destruct (code c =? 34) eqn:E; [|by rewrite IH].
    destruct Hc. apply Z.eqb_eq in E. by apply code_inj.
Qed.

(** A field ends alike in every state that can end it. *)
Lemma field_end st f row rest :
  ends_field rest → st ∈ [FieldStart; RowStart; Unquoted; QuoteSeen] →
  csv_parse st f row rest = csv_parse Unquoted f row rest.
Proof. intros [?|?] H; repeat (apply elem_of_cons in H as [->|H]; [done|]); by apply elem_of_nil in H. Qed.

Lemma field_read s row rest st :
  ends_field rest → st ∈ [FieldStart; RowStart] →
  csv_parse st [] row (csv_field s ++ rest) = csv_parse Unquoted (rev (chars s)) row rest.
Proof.
  intros Hr Hst. unfold csv_field. destruct (existsb csv_special (chars s)) eqn:E.
  - transitivity (csv_parse Quoted [] row
      (mbind (λ c, if decide (c = quote) then [quote; quote] else [c]) (chars s) ++ quote :: rest)).
    { rewrite <-app_comm_cons, <-app_assoc. set_unfold. by destruct Hst as [->|[->|[]]]. }
    rewrite quoted_field, app_nil_r. apply field_end; [done|]. set_solver.
  - assert (H : forallb (negb ∘ csv_special) (chars s) = true).
    { apply forallb_forall. intros c Hc. apply negb_true_iff, not_true_iff_false. intros Hs.
      apply not_true_iff_false in E. apply E, existsb_exists. eauto. }
    destruct (chars s) as [|c l]; [apply field_end; [done|set_solver]|].
    rewrite <-(app_nil_r (rev (c :: l))), <-plain_field by done. cbn [app csv_parse]. simpl in H.
    apply andb_true_iff in H as [Hc _]. unfold csv_special in Hc. apply negb_true_iff in Hc.
    destruct (code c =? 34); [done|]. set_unfold. by destruct Hst as [->|[->|[]]].
Qed.

Lemma row_read l row rest st :
  l ≠ [] → st ∈ [FieldStart; RowStart] →
  csv_parse st [] row (csv_row l ++ rest) = (rev row ++ l) :: csv_parse RowStart [] [] rest.
Proof.
  unfold csv_row. revert row st. induction l as [|x l IH]; intros row st Hl Hst; [done|]. rewrite <-app_assoc.
  assert (Ef : ∀ s, field_of (rev (chars s)) = s) by (intros s; unfold field_of; by rewrite rev_involutive, of_chars_chars).
  destruct l as [|y l].
  - cbn [csv_fields]. rewrite field_read; [|constructor|done]. simpl. by rewrite Ef.
  - cbn [csv_fields]. rewrite <-app_assoc, <-app_comm_cons, field_read; [|constructor|done].
    specialize (IH (x :: row) FieldStart). simpl rev in IH. rewrite <-!app_assoc in IH. simpl app in IH.
    rewrite <-IH; [|done|left]. simpl. by rewrite Ef.
Qed.

Lemma rows_read (l : list (list string)) :
  Forall (λ r, r ≠ []) l → csv_parse RowStart [] [] (mbind csv_row l) = l.
Proof.
  induction 1 as [|r l Hr _ IH]; [done|]. rewrite bind_cons, row_read; [|done|by right; left]. by rewrite IH.
Qed.

(** A cell that a spreadsheet would take for a formula. *)
Lemma csv_safe_not_formula v : csv_formula_start (_csv_safe v) = false.
Proof. unfold _csv_safe. destruct (csv_formula_start (cell_text v)) eqn:E; [|done]. by destruct (cell_text v). Qed.

Section export.
Context {PF : Platform} {CE : ConsoleEnv}.

(** C31: The exported file says what the log says.  Reading the CSV text of any events
    back gives one row of column names and then, in order, one row of twelve cells per
    event, whatever commas, quotes and line ends user names, metadata or addresses
    contain, so no text of an event can forge another; and no cell starts like a
    spreadsheet formula. *)
Theorem csv_export_reads_back d (events : list (obj audit_event)) :
  let rows := (λ o, _audit_row d (val o)) <$> events in
  csv_read (csv_text rows) = audit_fieldnames :: (csv_cells <$> rows) ∧
  Forall (λ row, length row = 12%nat ∧ Forall (λ cell, csv_formula_start cell = false) row) (csv_cells <$> rows).
Proof.
  intros rows. split.
  - unfold csv_read, csv_text. rewrite chars_of_chars, row_read; [|done|by right; left]. f_equal.
    transitivity (csv_parse RowStart [] [] (mbind csv_row (csv_cells <$> rows))).
    { f_equal. clear. induction rows as [|row l IH]; [done|]. by rewrite fmap_cons, !bind_cons, IH. }
    apply rows_read, Forall_fmap, Forall_fmap, Forall_true. done.
  - apply Forall_fmap, Forall_fmap, Forall_true. intros o. split; [done|]. unfold csv_cells. apply Forall_fmap, Forall_true.
    intros. apply csv_safe_not_formula.
Qed.

Lemma get_chain_state_quiet : quiet get_chain_state.
Proof. intros w. unfold get_chain_state. by destruct (audit_state (w_db w)). Qed.

Lemma verify_chain_quiet : quiet verify_audit_chain.
Proof.
  pose proof get_chain_state_quiet. unfold verify_audit_chain, verify_event, signature_invalid. cbv zeta. solve_quiet.
Qed.

Definition exported_rows (d : db) (f : audit_filters) : list (list (string * json)) :=
  (λ o, _audit_row d (val o)) <$>
    take export_limit (List.filter (λ o, filter_allows d f (val o)) (by_sequence (audit_events d))).

Definition exported_text (format : string) (rows : list (list (string * json))) : string :=
  if decide (format = "jsonl") then jsonl_text rows else csv_text rows.

Lemma export_body_inv format q (u : obj user) r w content_type content r' w' :
  (integrity ← verify_audit_chain;
   if negb (av_valid integrity)
   then mret (text_body 409 "Export bloqué : l’intégrité de la chaîne d’audit doit être vérifiée.", r)
   else
     events ← _audit_events q;
     d ← asks (λ d, d);
     let rows := (λ o, _audit_row d (val o)) <$> take export_limit events in
     let content := if decide (format = "jsonl") then jsonl_text rows else csv_text rows in
     let content_type := if decide (format = "jsonl") then "application/x-ndjson; charset=utf-8"
                         else "text/csv; charset=utf-8" in
     record_event (Some (pk u)) "audit.exported" (user_self u)
       [("format", JStr format); ("event_count", JInt (Z.of_nat (length rows)));
        ("sha256", JStr (sha256_hex content))] (REMOTE_ADDR (rq_meta r)) ;;
     mret (FileBody 200 content_type (points content), r)) w = (Ok (FileBody 200 content_type content, r'), w') →
  ∃ v w1 f e, verify_audit_chain w = (Ok v, w1) ∧ av_valid v = true ∧ read_filters q = Ok f ∧
    content = points (exported_text format (exported_rows (w_db w) f)) ∧
    recorded (w_db w) (w_db w') u e ∧ e_action (val e) = "audit.exported" ∧
    e_metadata (val e) = [("format", JStr format); ("event_count", JInt (Z.of_nat (length (exported_rows (w_db w) f))));
                          ("sha256", JStr (sha256_hex (exported_text format (exported_rows (w_db w) f))))].
Proof.
  intros H. apply bind_ok_inv in H as (v & w1 & Ev & H). destruct (quiet_run _ _ _ _ verify_chain_quiet Ev) as [Hd _].
  destruct (av_valid v) eqn:Hv; cbn [negb] in H; [|done]. unfold _audit_events in H.
  apply bind_ok_inv in H as (events & w2 & E & H). run_inv E. apply bind_ok_inv in H as (d & w3 & E3 & H).
  prim_inv E3. cbv zeta in H. apply bind_ok_inv in H as (e & w4 & Ee & H). injection H as <- <- <- <-.
  apply record_event_ok_inv in Ee as (st & sig & _ & Hval & _ & _ & Hn & _ & _ & He & _).
  exists v, w1, a, e. rewrite Hd in *. split_and!; try done.
  - split; [done|]. split; [rewrite He; apply lookup_insert_eq|by rewrite Hval].
  - by rewrite Hval.
  - by rewrite Hval.
Qed.

Lemma step_up_ok_inv u r label body w x w' :
  rq_user r = Authenticated u → with_step_up u r label body w = (Ok x, w') → discloses x.1 = true →
  ∃ w1, settled w w1 ∧ (PAMOLIVE_TEST_BYPASS_GLOBAL_MFA conf = false → mfa_verified (w_db w) u r w w1) ∧
        body w1 = (Ok x, w').
Proof.
  intros Hu H Hx. apply bind_ok_inv in H as (y & w1 & E & H). apply guard_inv in E as (_ & Hs & Hy); [|done].
  destruct y as [resp|]; [injection H as <- <-; simpl in Hx; congruence|]. by exists w1.
Qed.

Lemma console_ok_inv c view r w x w' :
  console_view c view r w = (Ok x, w') → discloses x.1 = true →
  ∃ u w1, rq_user r = Authenticated u ∧ reads w w1 ∧ holds (w_db w) u c (w_clock w) ∧ view u r w1 = (Ok x, w').
Proof.
  unfold console_view, login_required. destruct (rq_user r) as [|u] eqn:Hu; [by intros [= <- <-]|]. unfold capability_required.
  intros H Hx. apply bind_ok_inv in H as (b & w1 & E & H). pose proof (quiet_run _ _ _ _ (has_capability_quiet _ _) E).
  destruct b; [|done]. exists u, w1. split_and!; try done. by eapply has_capability_holds.
Qed.

(** An export of the audit log is verified, complete and accounted for.  When
    [audit_export] answers with a file, the user held the export capability and proved
    MFA in time, the whole chain verified just before, the file is the text of the
    events the filters select, in order and up to 10,000, and the chain has a new event
    of that user with the number of rows and the SHA-256 of exactly this text. *)
Theorem audit_export_accounted_for format q r w content_type content r' w' :
  audit_export format q r w = (Ok (FileBody 200 content_type content, r'), w') →
  ∃ u f e, rq_user r = Authenticated u ∧ holds (w_db w) u AUDIT_EXPORT (w_clock w) ∧
    (PAMOLIVE_TEST_BYPASS_GLOBAL_MFA conf = false → ∃ w1 w2, mfa_verified (w_db w) u r w1 w2) ∧
    (∃ w1 v w2, settled w w1 ∧ verify_audit_chain w1 = (Ok v, w2) ∧ av_valid v = true) ∧
    read_filters q = Ok f ∧ format ∈ ["csv"; "jsonl"] ∧
    content = points (exported_text format (exported_rows (w_db w) f)) ∧
    recorded (w_db w) (w_db w') u e ∧ e_action (val e) = "audit.exported" ∧
    e_metadata (val e) = [("format", JStr format); ("event_count", JInt (Z.of_nat (length (exported_rows (w_db w) f))));
                          ("sha256", JStr (sha256_hex (exported_text format (exported_rows (w_db w) f))))].
Proof.
  intros H. apply console_ok_inv in H as (u & w1 & Hu & [Hd Hl] & Hh & H); [|done].
  apply step_up_ok_inv in H as (w2 & (sp & E2 & Esp) & Hm & H); [|done..].
  destruct (bool_decide (format ∈ ["csv"; "jsonl"])) eqn:Ef; cbn [negb] in H; [|done].
  apply bool_decide_eq_true_1 in Ef. apply export_body_inv in H as (v & w3 & f & e & Hv & Hval & Hf & Hc & He & Ha & Hmd).
  rewrite Hd in *. exists u, f, e.
  assert (Hrows : exported_rows (w_db w2) f = exported_rows (w_db w) f) by (by rewrite E2).
  rewrite Hrows in *. split_and!; try done.
  - eauto.
  - exists w2, v, w3. split; [|done]. exists sp. done.
  - destruct He as (?&?&?). by rewrite E2 in *.
Qed.
End export.

(** ** A concrete export *)

Section witnesses.
#[local] Existing Instance demo_platform.

#[local] Instance demo_console : ConsoleEnv := {|
  parse_date s := if decide (s = "2026-01-01") then Ok (Some (local_day demo_now)) else Ok None;
  fromisoformat_aware s := Raise (ValueError "Invalid isoformat string");
  web_sessions t := [];
  database_ok := true;
  cache_ok := true;
  pending_migrations := [];
  gateway_accepts r := true;
|}.

Definition auditors : db :=
  demo_mfa_db
    <| users := {[ pk demo_alice := val demo_alice ]} |>
    <| roles := {[ 2%N := Role "Auditors" None [AUDIT_VIEW; AUDIT_EXPORT] false true "" ]} |>
    <| user_groups := {[ 5%N := UserGroup "Auditors" {[ pk demo_alice ]} {[ 2%N ]} true "" ]} |>.

(** The log has an event of alice whose metadata look like a formula and a row. *)
Definition audited_db : db := Eval vm_compute in w_db
  (record_event (Some (pk demo_alice)) "authentication.password.succeeded" (Resource "accounts.user" "7")
     [("agent", JStr ("=1," +:+ of_chars CRLF))] (Some "192.0.2.9") (demo_world auditors)).2.

Definition export_world : world := World audited_db demo_now [] 5 ∅.
Definition export_query : querydict := {[ "from" := ["2026-01-01"]; "action" := ["PASSWORD"] ]}.

Definition exported : list Z * world := Eval vm_compute in
  match audit_export "csv" export_query portal_request export_world with
  | (Ok (FileBody 200 _ content, _), w) => (content, w)
  | (_, w) => ([], w)
  end.

Lemma export_run : audit_export "csv" export_query portal_request export_world
  = (Ok (FileBody 200 "text/csv; charset=utf-8" exported.1, portal_request), exported.2).
Proof. vm_compute. reflexivity. Qed.

Lemma audit_export_accounted_for_witness :
  ∃ u f e, rq_user portal_request = Authenticated u ∧
    holds (w_db export_world) u AUDIT_EXPORT (w_clock export_world) ∧
    (PAMOLIVE_TEST_BYPASS_GLOBAL_MFA conf = false → ∃ w1 w2, mfa_verified (w_db export_world) u portal_request w1 w2) ∧
    (∃ w1 v w2, settled export_world w1 ∧ verify_audit_chain w1 = (Ok v, w2) ∧ av_valid v = true) ∧
    read_filters export_query = Ok f ∧ "csv" ∈ ["csv"; "jsonl"] ∧
    exported.1 = points (exported_text "csv" (exported_rows (w_db export_world) f)) ∧
    recorded (w_db export_world) (w_db exported.2) u e ∧ e_action (val e) = "audit.exported" ∧
    e_metadata (val e) = [("format", JStr "csv"); ("event_count", JInt (Z.of_nat (length (exported_rows (w_db export_world) f))));
                          ("sha256", JStr (sha256_hex (exported_text "csv" (exported_rows (w_db export_world) f))))].
Proof.
  exact (audit_export_accounted_for "csv" export_query portal_request export_world _ exported.1 portal_request exported.2 export_run).
Defined.

#[local] Instance demo_license_env : LicenseEnv := demo_env "community" "".
#[local] Instance demo_host : RecordingHost := {| PAMOLIVE_RECORDING_KEY := ""; PAMOLIVE_RECORDING_DIR := []; resolve p := p |}.

Lemma sensitive_operations_are_cleared_witness :
  ∃ u, rq_user portal_request = Authenticated u ∧
    (∃ w1, reads export_world w1 ∧
           holds (w_db export_world) u (operation_capability (ExportAudit "csv" export_query)) (w_clock w1)) ∧
    (PAMOLIVE_TEST_BYPASS_GLOBAL_MFA conf = false →
     ∃ w1 w2, later export_world w1 ∧ mfa_verified (w_db export_world) u portal_request w1 w2).
Proof.
  apply (sensitive_operations_are_cleared (ExportAudit "csv" export_query) portal_request export_world
           (Ok (FileBody 200 "text/csv; charset=utf-8" exported.1, portal_request)) exported.2 export_run).
  intros (sp & E & _). apply (f_equal audit_events) in E. vm_compute in E. discriminate E.
Defined.
End witnesses.
