(* ===== verification/Rdp.v ===== *)
(** * The RDP broker ([pamolive/rdp])

    A launch form with a session identifier and a ticket is exchanged, over the internal
    API, for an envelope with the target and its secret; the broker turns it into a
    short-lived connection for Apache Guacamole, encrypted as its JSON authentication
    extension expects, and hands the browser over with a page that stores the token.

    AES, the internal API and the Guacamole server are parameters; HMAC, the CBC mode, the
    padding and base64 are computed. *)

From Stdlib Require Import String.
From S2P Require Import Prelude PyStr PyFloat Json Loads Crypto PyTime Models World Text Ip Broker Recordings.

Local Open Scope Z_scope.

(** ** Ciphers *)

(** AES with a 128-bit key, one block at a time. *)
Class BlockCipher := {
  aes_encrypt : bytes → bytes → bytes;
  aes_decrypt : bytes → bytes → bytes;
}.

(** What the standard defines: a permutation of the 16-byte blocks, inverted by decryption. *)
Class BlockCipherLaws `{BlockCipher} := {
  aes_block key b : length b = 16%nat → Forall is_byte b →
    length (aes_encrypt key b) = 16%nat ∧ Forall is_byte (aes_encrypt key b);
  aes_inverse key b : length b = 16%nat → Forall is_byte b → aes_decrypt key (aes_encrypt key b) = b;
}.

Definition block_size : nat := 16.

(** [padding.PKCS7(128).padder()] *)
Definition pkcs7 (b : bytes) : bytes :=
  let n := (block_size - length b mod block_size)%nat in b ++ replicate n (Z.of_nat n).

Definition xor_bytes (a b : bytes) : bytes := zip_with Z.lxor a b.

(** [n] blocks of a padded message, each chained with the one before. *)
Fixpoint cbc_encrypt `{BlockCipher} (key prev : bytes) (n : nat) (b : bytes) : bytes :=
  match n with
  | O => []
  | S n' => let c := aes_encrypt key (xor_bytes prev (take block_size b)) in
            c ++ cbc_encrypt key c n' (drop block_size b)
  end.

Definition is_hex_char (c : ascii) : bool :=
  let z := code c in between 48 z 57 || between 65 z 70 || between 97 z 102.

(** [re.fullmatch(r"[0-9a-fA-F]{32}", key)] *)
Definition is_json_key (key : string) : bool := (len key =? 32) && forallb is_hex_char (chars key).

Definition hex_digit_value (c : ascii) : Z :=
  let z := code c in if z <=? 57 then z - 48 else if z <=? 70 then z - 55 else z - 87.

(** [bytes.fromhex] *)
Fixpoint fromhex (l : list ascii) : bytes :=
  match l with
  | a :: b :: l' => 16 * hex_digit_value a + hex_digit_value b :: fromhex l'
  | _ => []
  end.

Definition zero_block : bytes := replicate block_size 0.

Definition encrypt_json_auth `{BlockCipher} (payload : json) (key_hex : string) : outcome string :=
  if negb (is_json_key key_hex) then Raise (GatewayProtocolError "La clé JSON Guacamole est invalide.")
  else
    let key := fromhex (chars key_hex) in
    let plaintext := utf8 (dumps payload) in
    let signature := hmac sha256 key plaintext in
    let signed := pkcs7 (signature ++ plaintext) in
    let ciphertext := cbc_encrypt key zero_block (length signed / block_size) signed in
    Ok (of_chars (b64encode ciphertext)).

(** [base64.urlsafe_b64encode(...)] without the padding *)
Definition urlsafe (c : ascii) : ascii :=
  if decide (c = "+"%char) then "-"%char else if decide (c = "/"%char) then "_"%char else c.

Definition nul : string := String (chr 0) "".

Definition guacamole_client_identifier (connection_id data_source : string) : string :=
  let raw := utf8 (connection_id +:+ nul +:+ "c" +:+ nul +:+ data_source) in
  rstrip_char "=" (of_chars (urlsafe <$> b64encode raw)).

(** ** The connection *)

Definition get_json (l : list (string * json)) (k : string) : json := default JNull (dict_get k l).

(** [not envelope.get(field)] *)
Definition falsy (l : list (string * json)) (k : string) : bool := negb (json_truthy (get_json l k)).

(** [str(envelope.get(k) or d)] *)
Definition text_or (l : list (string * json)) (k d : string) : json :=
  JStr (if falsy l k then d else py_str (get_json l k)).

Definition disabled_unless (l : list (string * json)) (k : string) : json :=
  JStr (if falsy l k then "true" else "false").

Definition text_of (l : list (string * json)) (k : string) : json := JStr (py_str (get_json l k)).

Definition rdp_parameters (envelope : list (string * json)) : list (string * json) :=
  [("hostname", text_of envelope "host"); ("port", text_of envelope "port"); ("username", text_of envelope "username");
   ("password", text_of envelope "secret"); ("security", text_or envelope "rdp_security" "nla");
   ("server-layout", text_or envelope "rdp_server_layout" "fr-be-azerty");
   ("resize-method", text_or envelope "rdp_resize_method" "display-update");
   ("disable-copy", disabled_unless envelope "allow_clipboard_copy");
   ("disable-paste", disabled_unless envelope "allow_clipboard_paste");
   ("enable-drive", JStr "false"); ("enable-printing", JStr "false"); ("enable-audio-input", JStr "false")]
  ++ (if falsy envelope "domain" then [] else [("domain", text_of envelope "domain")])
  ++ (if falsy envelope "rdp_certificate_fingerprints" then []
      else [("cert-fingerprints", text_of envelope "rdp_certificate_fingerprints")]).

Definition required_fields : list string := ["session_id"; "host"; "port"; "username"; "secret"].

Section user_data.
Context {PF : Platform}.

(** The identifier of the connection and the payload; the clock in milliseconds. *)
Definition build_rdp_user_data (envelope : list (string * json)) (lifetime_seconds : Z) : M (string * json) :=
  raise_if (bool_decide (get_json envelope "protocol" ≠ JStr "rdp"))
    (GatewayProtocolError "L'enveloppe ne décrit pas une session RDP.") ;;
  raise_if (bool_decide (get_json envelope "credential_kind" ≠ JStr "password"))
    (GatewayProtocolError "RDP requiert un identifiant de type mot de passe.") ;;
  raise_if (existsb (falsy envelope) required_fields) (GatewayProtocolError "L'enveloppe RDP est incomplète.") ;;
  raise_if ((lifetime_seconds <? 5) || (30 <? lifetime_seconds))
    (GatewayProtocolError "La durée du jeton JSON RDP est invalide.") ;;
  let session_id := py_str (get_json envelope "session_id") in
  let connection_id := "pam-olive-" +:+ session_id in
  t ← now;
  let current_ms := t / 1000 in
  let user := match dict_get "pam_user_id" envelope with Some j => j | None => get_json envelope "session_id" end in
  mret (connection_id,
    JObj [("username", JStr ("pam-olive:" +:+ py_str user));
          ("expires", JInt (current_ms + lifetime_seconds * 1000));
          ("singleUse", JBool true);
          ("connections", JObj [(connection_id,
             JObj [("id", JStr session_id); ("protocol", JStr "rdp"); ("singleUse", JBool true);
                   ("parameters", JObj (rdp_parameters envelope))])])]).
End user_data.

(** ** The Guacamole server *)

(** Characters [quote_plus] keeps. *)
Definition url_safe_char (c : ascii) : bool :=
  let z := code c in
  between 48 z 57 || between 65 z 90 || between 97 z 122 || (z =? 95) || (z =? 46) || (z =? 45) || (z =? 126).

Definition upper_hex (z : Z) : ascii := if z <? 10 then chr (48 + z) else chr (55 + z).

(** [urllib.parse.quote_plus] of one byte *)
Definition quote_plus_char (c : ascii) : list ascii :=
  if url_safe_char c then [c] else if code c =? 32 then ["+"%char]
  else ["%"%char; upper_hex (code c / 16); upper_hex (code c mod 16)].

Definition quote_plus (s : string) : string := of_chars (mbind quote_plus_char (chars (encode s))).

(** [urllib.parse.urlencode({"data": data})] *)
Definition token_body (data : string) : string := "data=" +:+ quote_plus data.

Definition token_char (c : ascii) : bool :=
  let z := code c in between 48 z 57 || between 65 z 90 || between 97 z 122 || (z =? 95) || (z =? 45).

(** [re.fullmatch(r"[0-9A-Za-z_-]{20,256}", token)] *)
Definition is_auth_token (token : string) : bool := between 20 (len token) 256 && forallb token_char (chars token).

(** What the server answers to a POST of a body at a URL: a document, or the exception
    of the transport. *)
Class GuacamoleServer := guacamole_post : string → string → outcome json.

Definition URLError : exn := OtherError "URLError".
Definition JSONDecodeError : exn := OtherError "JSONDecodeError".
Definition TimeoutError : exn := OtherError "TimeoutError".

Definition authenticate `{GuacamoleServer} (base_url encrypted_data : string) : outcome string :=
  match guacamole_post (base_url +:+ "/api/tokens") (token_body encrypted_data) with
  | Raise e => if decide (e ∈ [URLError; JSONDecodeError; TimeoutError])
               then Raise (GatewayProtocolError "Apache Guacamole est indisponible.") else Raise e
  | Ok (JObj result) =>
      match dict_get "authToken" result with
      | Some (JStr token) =>
          if negb (is_auth_token token)
          then Raise (GatewayProtocolError "Apache Guacamole n'a pas renvoyé de jeton valide.")
          else if decide (get_json result "dataSource" = JStr "json") then Ok token
          else Raise (GatewayProtocolError "Le jeton n'a pas été émis par la source JSON attendue.")
      | _ => Raise (GatewayProtocolError "Apache Guacamole n'a pas renvoyé de jeton valide.")
      end
  | Ok _ => Raise (GatewayProtocolError "Apache Guacamole n'a pas renvoyé de jeton valide.")
  end.

(** ** The handoff page *)

(** [json.dumps] of a text: [ensure_ascii], so what is not ASCII is escaped. *)
Definition ascii_escape (c : ascii) : list ascii :=
  if code c <? 127 then escape_char c
  else ["\"; "u"; "0"; "0"]%char ++ [hex_digit (code c / 16); hex_digit (code c mod 16)].

Definition dumps_text (s : string) : string := of_chars (quote :: mbind ascii_escape (chars s) ++ [quote]).

Definition quoted (s : string) : string := of_chars (quote :: chars s ++ [quote]).

Definition handoff_script (auth_token client_id : string) : string :=
  "localStorage.setItem(" +:+ quoted "GUAC_AUTH_TOKEN" +:+ "," +:+ dumps_text auth_token +:+ ");" +:+
  "window.location.replace(" +:+ dumps_text ("/guacamole/#/client/" +:+ client_id) +:+ ");".

Definition page_head : string :=
  "<!doctype html><html lang=" +:+ quoted "fr" +:+ "><head><meta charset=" +:+ quoted "utf-8" +:+ ">" +:+
  "<meta name=" +:+ quoted "viewport" +:+ " content=" +:+ quoted "width=device-width,initial-scale=1" +:+ ">" +:+
  "<title>Ouverture RDP · PAM-olive</title></head>" +:+
  "<body><p>Ouverture de la session RDP sécurisée…</p>".

Section handoff.
Context {PF : Platform}.

(** The page and the nonce of its script. *)
Definition build_handoff_page (auth_token connection_id : string) : M (string * string) :=
  raise_if (negb (is_auth_token auth_token)) (GatewayProtocolError "Le jeton de transition est invalide.") ;;
  nonce ← token_urlsafe 18;
  mret (page_head +:+ "<script nonce=" +:+ quoted nonce +:+ ">" +:+
        handoff_script auth_token (guacamole_client_identifier connection_id "json") +:+
        "</script></body></html>", nonce).
End handoff.

(** ** Requests *)

(** The parts of an ASGI scope the brokers read. *)
Record scope := Scope {
  sc_type : string;
  sc_path : string;
  sc_method : string;
  sc_headers : list (string * string);
  sc_client : option string;
}.

(** [{key.lower(): value for key, value in headers}.get(name, b"")]: the last one wins. *)
Definition header_value (s : scope) (name : string) : string :=
  default "" (last (snd <$> List.filter (λ kv, bool_decide (lower kv.1 = name)) (sc_headers s))).

Definition UnicodeDecodeError : exn := ValueError "UnicodeDecodeError".
Definition KeyError : exn := OtherError "KeyError".

(** The first forwarded address, else the peer; [None] when it is no address. *)
Definition _source_ip (s : scope) : outcome (option string) :=
  match decode (header_value s "x-forwarded-for") with
  | None => Raise UnicodeDecodeError
  | Some text =>
      let forwarded := first_hop text in
      let candidate := if decide (forwarded = "") then default "" (sc_client s) else forwarded in
      Ok (_valid_ip candidate)
  end.

(** An [http.request] message: its body and [more_body]. *)
Definition http_message : Type := string * bool.

Definition MAX_REQUEST_BYTES : Z := 16384.

(** The loop of [_body]; [None] while the messages received so far do not end the body. *)
Fixpoint read_body (body : string) (messages : list http_message) : option (outcome string) :=
  match messages with
  | [] => None
  | (chunk, more) :: rest =>
      let body := body +:+ chunk in
      if MAX_REQUEST_BYTES <? len body
      then Some (Raise (GatewayProtocolError "La requête de lancement est trop volumineuse."))
      else if (more : bool) then read_body body rest else Some (Ok body)
  end.

Definition _body : list http_message → option (outcome string) := read_body "".

(** ** [urllib.parse.parse_qs(text, strict_parsing=True, max_num_fields=4)] *)

Fixpoint unquote_bytes (l : list ascii) : list ascii :=
  match l with
  | "%"%char :: l' =>
      match l' with
      | a :: b :: l'' =>
          if is_hex_char a && is_hex_char b
          then chr (16 * hex_digit_value a + hex_digit_value b) :: unquote_bytes l''
          else "%"%char :: unquote_bytes l'
      | _ => "%"%char :: unquote_bytes l'
      end
  | c :: l' => c :: unquote_bytes l'
  | [] => []
  end.

(** [unquote(s.replace("+", " "))]; [None] for a text with characters above U+00FF, which
    no identifier or ticket has. *)
Definition unquote (s : list ascii) : option string :=
  let plus c := if decide (c = "+"%char) then " "%char else c in
  let p := decode_replace (code <$> unquote_bytes (plus <$> mbind encode_char s)) in
  if forallb (λ z, z <? 256) p then Some (of_chars (chr <$> p)) else None.

(** The value of the first field of each name; a field without [=] and more than four
    fields are a [ValueError], empty values are dropped. *)
Definition field_pair (l : list ascii) : option (list ascii * list ascii) :=
  let '(name, found, value) := partition_char "=" l in if (found : bool) then Some (name, value) else None.

Definition parse_qs (text : string) : outcome (list (string * string)) :=
  let fields := split_char "&" (chars text) in
  if (4 <? length fields)%nat then Raise (ValueError "Max number of fields exceeded")
  else match mapM field_pair fields with
       | None => Raise (ValueError "bad query field")
       | Some l => Ok (omap (λ kv : list ascii * list ascii,
                               if decide (kv.2 = []) then None
                               else name ← unquote kv.1; value ← unquote kv.2; Some (name, value)) l)
       end.

(** [form[name][0]] *)
Definition form_value (form : list (string * string)) (name : string) : outcome string :=
  match List.find (λ kv, bool_decide (kv.1 = name)) form with
  | Some kv => Ok kv.2
  | None => Raise KeyError
  end.

Example parse_qs_ex :
  parse_qs "session_id=ab%2Dc&ticket=x+y%C3%A9&empty=" = Ok [("session_id", "ab-c"); ("ticket", "x y" +:+ of_chars [chr 233])]
  ∧ parse_qs "a=1&b" = Raise (ValueError "bad query field")
  ∧ parse_qs "a=1&b=2&c=3&d=4&e=5" = Raise (ValueError "Max number of fields exceeded").
Proof. vm_compute. repeat split. Qed.

(** ** The internal API ([gateway/client.py]) *)

(** The answer to a signed request, or the exception of the transport. *)
Class InternalAPI := internal_answer : signed_request → outcome json.

Definition HTTPError : exn := OtherError "HTTPError".

Section client.
Context {PF : Platform} {FN : Fernet} {IA : InternalAPI}.

Definition internal_post (shared_key path : string) (payload : json) : M json :=
  request ← _post shared_key path payload;
  of_outcome (match internal_answer request with
              | Raise e => if decide (e ∈ [HTTPError; URLError; JSONDecodeError; TimeoutError])
                           then Raise (GatewayProtocolError "L’API interne PAM-olive est indisponible.") else Raise e
              | x => x
              end).

Definition opt_json (s : option string) : json := match s with Some t => JStr t | None => JNull end.

(** [response["envelope"]] after [if "envelope" not in response] *)
Definition envelope_token (response : json) : outcome string :=
  let missing := GatewayProtocolError "L’API interne n’a pas renvoyé d’enveloppe." in
  match response with
  | JObj l => match dict_get "envelope" l with
              | None => Raise missing
              | Some (JStr t) => Ok t
              | Some _ => Raise (OtherError "AttributeError")
              end
  | JArr l => if decide (JStr "envelope" ∈ l) then Raise (TypeError "list indices must be integers or slices") else Raise missing
  | JStr s => if contains "envelope" s then Raise (TypeError "string indices must be integers") else Raise missing
  | _ => Raise (TypeError "argument is not iterable")
  end.

(** The members of the envelope. *)
Definition authorize (shared_key session_id : string) (ticket : json) (source_ip : option string) : M (list (string * json)) :=
  response ← internal_post shared_key "/api/internal/gateway/authorize/"
    (JObj [("session_id", JStr session_id); ("ticket", ticket); ("source_ip", opt_json source_ip)]);
  token ← of_outcome (envelope_token response);
  envelope ← decrypt_envelope token shared_key;
  match envelope with
  | JObj l =>
      raise_if (bool_decide (dict_get "session_id" l ≠ Some (JStr session_id)))
        (GatewayProtocolError "L’enveloppe ne correspond pas à la session demandée.") ;;
      mret l
  | _ => raise (OtherError "AttributeError")
  end.

(** [except GatewayProtocolError: return False] *)
Definition refused_as_false (m : M bool) : M bool :=
  try_except m (λ e, match e with GatewayProtocolError _ => Some (mret false) | _ => None end).

Definition report_close (shared_key : string) (payload : json) : M bool :=
  refused_as_false (internal_post shared_key "/api/internal/gateway/close/" payload ;; mret true).

Definition report_command_event (shared_key : string) (payload : json) : M bool :=
  refused_as_false (internal_post shared_key "/api/internal/gateway/command-event/" payload ;; mret true).

Definition trust_host_key_remote (shared_key session_id public_key : string) : M bool :=
  refused_as_false (
    response ← internal_post shared_key "/api/internal/gateway/trust-host-key/"
      (JObj [("session_id", JStr session_id); ("public_key", JStr public_key)]);
    match response with
    | JObj l => mret (bool_decide (get_json l "status" ∈ [JStr "known"; JStr "trusted"]))
    | _ => raise (OtherError "AttributeError")
    end).
End client.

(** ** The broker *)

Record rdp_config := RDPBrokerConfig {
  rc_internal_base_url : string;
  rc_shared_key : string;
  rc_guacamole_json_key : string;
  rc_guacamole_internal_url : string;
  rc_connect_timeout : pyfloat;
  rc_launch_lifetime_seconds : Z;
}.

Definition rdp_from_env (environ : gmap string string) : outcome rdp_config :=
  let get k d := default d (environ !! k) in
  let shared_key := get "PAMOLIVE_GATEWAY_SHARED_KEY" "" in
  let json_key := get "PAMOLIVE_GUACAMOLE_JSON_KEY" "" in
  if len shared_key <? 32 then Raise (GatewayProtocolError "PAMOLIVE_GATEWAY_SHARED_KEY est absente ou trop courte.")
  else if negb (is_json_key json_key) then
    Raise (GatewayProtocolError "PAMOLIVE_GUACAMOLE_JSON_KEY doit contenir 32 caractères hexadécimaux.")
  else match py_int (get "PAMOLIVE_RDP_LAUNCH_LIFETIME_SECONDS" "15") with
       | None => Raise (ValueError "invalid literal for int() with base 10")
       | Some lifetime =>
           if (lifetime <? 5) || (30 <? lifetime)
           then Raise (GatewayProtocolError "La durée du lancement RDP doit être comprise entre 5 et 30 s.")
           else match connect_timeout environ with
                | Raise e => Raise e
                | Ok timeout =>
                    Ok (RDPBrokerConfig (rstrip_char "/" (get "PAMOLIVE_INTERNAL_URL" "http://web:8000")) shared_key (lower json_key)
                          (rstrip_char "/" (get "PAMOLIVE_GUACAMOLE_INTERNAL_URL" "http://guacamole:8080/guacamole")) timeout lifetime)
                end
       end.

(** What the broker answers, and the close reports it sent on the way. *)
Record rdp_reply := RdpReply {
  rr_status : Z;
  rr_body : string;
  rr_nonce : string;
  rr_reports : list json;
}.

(** [except (GatewayProtocolError, KeyError, ValueError, UnicodeDecodeError)] *)
Definition launch_error (e : exn) : bool :=
  match e with
  | GatewayProtocolError _ | ValueError _ => true
  | e => bool_decide (e = KeyError)
  end.

Section broker.
Context {PF : Platform} {FN : Fernet} {IA : InternalAPI} {BC : BlockCipher} {GS : GuacamoleServer}.
Context (environ : gmap string string).

(** The form, up to the call of the API. *)
Definition launch_form (messages : list http_message) : option (outcome (string * string)) :=
  body ← _body messages;
  Some (match body with
        | Raise e => Raise e
        | Ok body =>
            match decode body with
            | None => Raise UnicodeDecodeError
            | Some text =>
                match parse_qs text with
                | Raise e => Raise e
                | Ok form =>
                    match form_value form "session_id" with
                    | Raise e => Raise e
                    | Ok given =>
                        match uuid_of_str given with
                        | None => Raise (ValueError "badly formed hexadecimal UUID string")
                        | Some k =>
                            match form_value form "ticket" with
                            | Raise e => Raise e
                            | Ok ticket =>
                                if (len ticket <? 32) || (256 <? len ticket)
                                then Raise (GatewayProtocolError "Le ticket RDP est invalide.")
                                else Ok (str_uuid k, ticket)
                            end
                        end
                    end
                end
            end
        end).

(** From the envelope to the page. *)
Definition hand_over (config : rdp_config) (envelope : list (string * json)) : M (string * string) :=
  data ← build_rdp_user_data envelope (rc_launch_lifetime_seconds config);
  encrypted ← of_outcome (encrypt_json_auth data.2 (rc_guacamole_json_key config));
  auth_token ← of_outcome (authenticate (rc_guacamole_internal_url config) encrypted);
  build_handoff_page auth_token data.1.

Definition failed_report (session_id : string) : json :=
  JObj [("session_id", JStr session_id); ("outcome", JStr "failed"); ("reason", JStr "rdp_launch_failed")].

Definition refusal (reports : list json) : rdp_reply :=
  RdpReply 403 (of_chars ("{"%char :: chars (quoted "detail") ++ chars ": " ++
                chars (quoted "La session RDP n'a pas pu être ouverte.") ++ ["}"%char])) "" reports.

(** The result of a part, as a value. *)
Definition attempt {A} (m : M A) : M (outcome A) := λ w, let '(r, w') := m w in (Ok r, w').

(** [None]: the request body is not complete. *)
Definition _launch (s : scope) (messages : list http_message) : option (M rdp_reply) :=
  let last_resort e reports := if launch_error e then mret (refusal reports) else raise e in
  match rdp_from_env environ with
  | Raise e => Some (last_resort e [])
  | Ok config =>
      form ← launch_form messages;
      Some (match form with
            | Raise e => last_resort e []
            | Ok (session_id, ticket) =>
                authorized ← attempt (ip ← of_outcome (_source_ip s); authorize (rc_shared_key config) session_id (JStr ticket) ip);
                match authorized with
                | Raise e => last_resort e []
                | Ok envelope =>
                    page ← attempt (hand_over config envelope);
                    match page with
                    | Ok (body, nonce) => mret (RdpReply 200 body nonce [])
                    | Raise e =>
                        if launch_error e
                        then report_close (rc_shared_key config) (failed_report session_id) ;;
                             mret (refusal [failed_report session_id])
                        else raise e
                    end
                end
            end)
  end.

(** The HTTP part of [__call__]. *)
Definition rdp_application (s : scope) (messages : list http_message) : option (M rdp_reply) :=
  if bool_decide (sc_path s = "/health/live/") && bool_decide (sc_method s = "GET")
  then Some (mret (RdpReply 200 (of_chars ("{"%char :: chars (quoted "status") ++ ":"%char :: chars (quoted "ok") ++ ","%char ::
              chars (quoted "service") ++ ":"%char :: chars (quoted "pam-olive-rdp-broker") ++ ["}"%char])) "" []))
  else if bool_decide (sc_path s ≠ "/launch/") || bool_decide (sc_method s ≠ "POST")
  then Some (mret (RdpReply 404 "Not found" "" []))
  else _launch s messages.
End broker.

(** ** The encrypted connection can be read by its receiver *)

Section json_auth.
Context {BC : BlockCipher}.

Fixpoint cbc_decrypt (key prev : bytes) (n : nat) (c : bytes) : bytes :=
  match n with
  | O => []
  | S n' => let b := take block_size c in
            xor_bytes prev (aes_decrypt key b) ++ cbc_decrypt key b n' (drop block_size c)
  end.

Definition unpad (b : bytes) : bytes := take (length b - Z.to_nat (default 0 (last b))) b.

(** What the Guacamole extension documents: decrypt, check the signature, parse. *)
Definition open_json_auth (token key_hex : string) : option json :=
  c ← a2b_base64 0 0 0 (chars token);
  let key := fromhex (chars key_hex) in
  let content := unpad (cbc_decrypt key zero_block (length c / block_size) c) in
  if decide (take 32 content = hmac sha256 key (drop 32 content))
  then json_loads (string_of_bytes (drop 32 content)) else None.

Lemma lxor_byte a b : is_byte a → is_byte b → is_byte (Z.lxor a b).
Proof.
  unfold is_byte. intros Ha Hb. split; [apply Z.lxor_nonneg; lia|].
  destruct (decide (Z.lxor a b = 0)) as [->|Hn]; [lia|].
  assert (0 <= Z.lxor a b) by (apply Z.lxor_nonneg; lia).
  change 256 with (2 ^ 8) in *. apply Z.log2_lt_pow2; [lia|]. eapply Z.le_lt_trans; [apply Z.log2_lxor; lia|].
  apply Z.max_lub_lt.
  - destruct (decide (a = 0)) as [->|]; [done|]. apply Z.log2_lt_pow2; lia.
  - destruct (decide (b = 0)) as [->|]; [done|]. apply Z.log2_lt_pow2; lia.
Qed.

Lemma xor_bytes_length a b : length a = length b → length (xor_bytes a b) = length b.
Proof. intros H. unfold xor_bytes. rewrite length_zip_with. lia. Qed.

Lemma xor_bytes_bytes a b : Forall is_byte a → Forall is_byte b → Forall is_byte (xor_bytes a b).
Proof.
  intros Ha. revert b. induction Ha as [|x a Hx _ IH]; intros [|y b] Hb; try constructor;
    apply Forall_cons in Hb as [Hy Hb]; auto using lxor_byte.
Qed.

Lemma xor_bytes_cancel a b : length a = length b → xor_bytes a (xor_bytes a b) = b.
Proof.
  revert b. induction a as [|x a IH]; intros [|y b] H; try done. simpl in *. injection H as H.
  f_equal; [|by apply IH]. by rewrite <-Z.lxor_assoc, Z.lxor_nilpotent, Z.lxor_0_l.
Qed.

Context {BL : BlockCipherLaws}.

Lemma cbc_block key prev b n :
  length prev = 16%nat → Forall is_byte prev → length b = (16 * S n)%nat → Forall is_byte b →
  let c := aes_encrypt key (xor_bytes prev (take block_size b)) in
  length (take block_size b) = 16%nat ∧ length c = 16%nat ∧ Forall is_byte c ∧
  length (drop block_size b) = (16 * n)%nat ∧ Forall is_byte (drop block_size b) ∧
  xor_bytes prev (aes_decrypt key c) = take block_size b.
Proof.
  intros Hp Hpb Hl Hb c. unfold block_size in *.
  assert (Ht : length (take 16 b) = 16%nat) by (rewrite length_take; lia).
  assert (Hx : length (xor_bytes prev (take 16 b)) = 16%nat) by (rewrite xor_bytes_length; lia).
  assert (Hxb : Forall is_byte (xor_bytes prev (take 16 b))) by (apply xor_bytes_bytes; [done|by apply Forall_take]).
  destruct (aes_block key _ Hx Hxb) as [Hc Hcb].
  split_and!; try done; [rewrite length_drop; lia|by apply Forall_drop|].
  unfold c. rewrite aes_inverse by done. apply xor_bytes_cancel. lia.
Qed.

Lemma cbc_encrypt_spec key n : ∀ prev b,
  length prev = 16%nat → Forall is_byte prev → length b = (16 * n)%nat → Forall is_byte b →
  length (cbc_encrypt key prev n b) = (16 * n)%nat ∧ Forall is_byte (cbc_encrypt key prev n b) ∧
  cbc_decrypt key prev n (cbc_encrypt key prev n b) = b.
Proof.
  induction n as [|n IH]; intros prev b Hp Hpb Hl Hb.
  { split_and!; [done|constructor|]. simpl. symmetry. apply length_zero_iff_nil. lia. }
  destruct (cbc_block key prev b n Hp Hpb Hl Hb) as (Ht & Hc & Hcb & Hd & Hdb & Hx).
  cbn [cbc_encrypt cbc_decrypt]. set (c := aes_encrypt key (xor_bytes prev (take block_size b))) in *.
  destruct (IH c (drop block_size b) Hc Hcb Hd Hdb) as (Hl' & Hb' & Hr).
  split_and!; [rewrite length_app; lia|by apply Forall_app|].
  rewrite take_app_length', drop_app_length' by done. rewrite Hx, Hr. apply take_drop.
Qed.

Lemma pkcs7_spec b : Forall is_byte b →
  length (pkcs7 b) = (16 * (length (pkcs7 b) / 16))%nat ∧ Forall is_byte (pkcs7 b) ∧ unpad (pkcs7 b) = b.
Proof.
  intros Hb. unfold pkcs7, block_size.
  pose proof (Nat.mod_upper_bound (length b) 16 ltac:(lia)) as Hm.
  set (n := (16 - length b mod 16)%nat). assert (1 <= n <= 16)%nat as Hn by lia. split_and!.
  - rewrite length_app, length_replicate. pose proof (Nat.div_mod_eq (length b) 16) as E.
    assert (E2 : (length b + n = 16 * (length b / 16 + 1))%nat) by lia.
    rewrite E2 at 1. f_equal. rewrite E2, Nat.mul_comm, Nat.div_mul; lia.
  - apply Forall_app. split; [done|]. apply Forall_replicate. unfold is_byte. lia.
  - unfold unpad. destruct n as [|n'] eqn:En; [lia|]. 
    replace (last (b ++ replicate (S n') (Z.of_nat (S n')))) with (Some (Z.of_nat (S n')))
      by (by rewrite replicate_S_end, app_assoc, last_snoc).
    change (default 0 (Some (Z.of_nat (S n')))) with (Z.of_nat (S n')). rewrite Nat2Z.id, length_app, length_replicate, Nat.add_sub. apply take_app_length.
Qed.

Lemma string_of_utf8 s : string_of_bytes (utf8 s) = encode s.
Proof.
  unfold string_of_bytes, utf8, bytes_of. rewrite <-(of_chars_chars (encode s)) at 2. f_equal.
  induction (chars (encode s)) as [|c l IH]; [done|]. rewrite !fmap_cons, IH. f_equal. apply chr_code.
Qed.

Lemma ok_inj {A} (a b : A) : Ok a = Ok b → a = b.
Proof. congruence. Qed.

(** What the broker encrypts, the Guacamole extension reads.  For every connection
    whose keys do not repeat, the token [encrypt_json_auth] produces decodes from base64,
    decrypts block by block, loses exactly its padding, carries the HMAC of its text
    under the shared key, and parses to the connection (with its keys sorted). *)
Theorem json_auth_round_trip payload key_hex token :
  well_keyed payload → encrypt_json_auth payload key_hex = Ok token →
  open_json_auth token key_hex = Some (sort_keys payload).
Proof.
  intros Hw H. unfold encrypt_json_auth in H. destruct (is_json_key key_hex); [|done]. cbn [negb] in H.
  set (key := fromhex (chars key_hex)) in *. set (text := utf8 (dumps payload)) in *.
  assert (Hs : Forall is_byte (hmac sha256 key text ++ text)) by (apply Forall_app; split; [apply hmac_bytes|apply bytes_of_bytes]).
  destruct (pkcs7_spec _ Hs) as (Hl & Hb & Hu). set (signed := pkcs7 (hmac sha256 key text ++ text)) in *.
  destruct (cbc_encrypt_spec key (length signed / 16) zero_block signed) as (Hcl & Hcb & Hr);
    [done|by apply Forall_replicate|done|done|].
  apply ok_inj in H as <-. unfold open_json_auth. rewrite chars_of_chars, a2b_b64encode by done. cbn [mbind option_bind].
  fold key. unfold block_size in *. rewrite Hcl, Nat.mul_comm, Nat.div_mul, Hr, Hu by lia.
  assert (Hh : length (hmac sha256 key text) = 32%nat) by apply sha256_length.
  rewrite take_app_length', drop_app_length' by done. rewrite decide_True by done.
  unfold text. rewrite string_of_utf8. by apply json_loads_dumps.
Qed.
End json_auth.

(** ** The body of a request *)

Lemma length_string_app a b : String.length (a +:+ b) = (String.length a + String.length b)%nat.
Proof. induction a as [|c a IH]; simpl; [done|]. by rewrite IH. Qed.

Lemma len_app a b : len (a +:+ b) = len a + len b.
Proof. unfold len. rewrite length_string_app. lia. Qed.

Lemma read_body_bound body messages r : read_body body messages = Some (Ok r) → len r <= MAX_REQUEST_BYTES.
Proof.
  revert body. induction messages as [|[chunk more] rest IH]; intros body; simpl; [done|].
  destruct (Z.ltb_spec MAX_REQUEST_BYTES (len (body +:+ chunk))); [done|]. destruct more; [apply IH|].
  intros [= <-]. done.
Qed.

Lemma read_body_ends body messages :
  len body <= MAX_REQUEST_BYTES → Forall (λ m : http_message, m.1 ≠ "") messages →
  MAX_REQUEST_BYTES < len body + Z.of_nat (length messages) → is_Some (read_body body messages).
Proof.
  revert body. induction messages as [|[chunk more] rest IH]; intros body Hb Hm Hl; simpl in *; [lia|].
  apply Forall_cons in Hm as [Hc Hm]. destruct (Z.ltb_spec MAX_REQUEST_BYTES (len (body +:+ chunk))); [by eexists|].
  destruct more; [|by eexists]. apply IH; [lia|done|]. rewrite len_app in *.
  assert (1 <= len chunk) by (destruct chunk; [done|unfold len; simpl; lia]). lia.
Qed.

(** C24: Reading a launch request ends, with bounded memory.  After at most 16,385
    messages that carry something, whatever they carry and whatever they announce, the
    loop has answered: with the body, which then has at most 16,384 bytes, or with a
    refusal.  Messages without content are the exception: they are awaited for ever. *)
Theorem launch_body_terminates messages :
  (Forall (λ m : http_message, m.1 ≠ "") messages → MAX_REQUEST_BYTES < Z.of_nat (length messages) →
   is_Some (_body messages)) ∧
  (∀ body, _body messages = Some (Ok body) → len body <= MAX_REQUEST_BYTES) ∧
  (∀ n, _body (replicate n ("", true)) = None).
Proof.
  split_and!.
  - intros Hm Hl. by apply read_body_ends.
  - intros body. apply read_body_bound.
  - intros n. unfold _body. induction n as [|n IH]; [done|]. exact IH.
Qed.

(** ** Launches *)

Section launches.
Context {PF : Platform} {FN : Fernet} {IA : InternalAPI} {BC : BlockCipher} {GS : GuacamoleServer}.
Context (environ : gmap string string).

Lemma authorize_inv key sid ticket ip w l w' :
  authorize key sid ticket ip w = (Ok l, w') → dict_get "session_id" l = Some (JStr sid).
Proof.
  unfold authorize. intros H. apply bind_ok_inv in H as (resp & w1 & _ & H). apply bind_ok_inv in H as (tok & w2 & _ & H).
  apply bind_ok_inv in H as (env & w3 & _ & H). destruct env; try done. run_inv H.
  by apply bool_decide_eq_false_1, dec_stable in R.
Qed.

Lemma user_data_inv envelope lifetime w cid p w' :
  build_rdp_user_data envelope lifetime w = (Ok (cid, p), w') →
  get_json envelope "protocol" = JStr "rdp" ∧ 5 <= lifetime <= 30 ∧
  cid = "pam-olive-" +:+ py_str (get_json envelope "session_id") ∧
  p = JObj [("username", JStr ("pam-olive:" +:+ py_str
               (match dict_get "pam_user_id" envelope with Some j => j | None => get_json envelope "session_id" end)));
            ("expires", JInt (w_clock w / 1000 + lifetime * 1000)); ("singleUse", JBool true);
            ("connections", JObj [(cid, JObj [("id", JStr (py_str (get_json envelope "session_id")));
               ("protocol", JStr "rdp"); ("singleUse", JBool true); ("parameters", JObj (rdp_parameters envelope))])])].
Proof.
  unfold build_rdp_user_data. intros H. run_inv H. subst. apply bool_decide_eq_false_1, dec_stable in R.
  apply orb_false_iff in R2 as [H1 H2]. split_and!; try done; lia.
Qed.

Lemma launch_form_inv messages sid ticket :
  launch_form messages = Some (Ok (sid, ticket)) → 32 <= len ticket <= 256 ∧ ∃ k, sid = str_uuid k.
Proof.
  unfold launch_form. intros (body & _ & H)%bind_Some. injection H as H. destruct body as [body|]; [|done].
  destruct (decode body) as [text|]; [|done]. destruct (parse_qs text) as [form|]; [|done].
  destruct (form_value form "session_id") as [given|]; [|done]. destruct (uuid_of_str given) as [k|]; [|done].
  destruct (form_value form "ticket") as [t|]; [|done].
  destruct ((len t <? 32) || (256 <? len t)) eqn:E; [done|]. injection H as <- <-.
  apply orb_false_iff in E as [??]. split; [lia|eauto].
Qed.

Lemma token_answer_inv url data token :
  authenticate url data = Ok token →
  is_auth_token token = true ∧ ∃ result, guacamole_post (url +:+ "/api/tokens") (token_body data) = Ok (JObj result) ∧
    dict_get "authToken" result = Some (JStr token) ∧ get_json result "dataSource" = JStr "json".
Proof.
  unfold authenticate. destruct (guacamole_post _ _) as [j|e]; [|by destruct (decide _)]. destruct j; try done.
  destruct (dict_get "authToken" l) as [[]|] eqn:E; try done. destruct (is_auth_token s) eqn:Ht; [|done]. cbn [negb].
  destruct (decide _); [|done]. intros [= <-]. split; [done|]. by exists l.
Qed.

(** The connection an envelope allows.  It goes to the server, under the account and with
    the secret of the envelope; text is copied out of the session only if the envelope
    allows copying, and into it only if it allows pasting; drives, printers and the
    microphone stay closed; what the envelope leaves out has the default of the broker. *)
Record connection_allowed (envelope parameters : list (string * json)) : Prop := {
  ca_target : ∀ parameter field, (parameter, field) ∈ [("hostname", "host"); ("port", "port"); ("username", "username"); ("password", "secret")] →
    dict_get parameter parameters = Some (JStr (py_str (get_json envelope field)));
  ca_copy : dict_get "disable-copy" parameters
    = Some (JStr (if json_truthy (get_json envelope "allow_clipboard_copy") then "false" else "true"));
  ca_paste : dict_get "disable-paste" parameters
    = Some (JStr (if json_truthy (get_json envelope "allow_clipboard_paste") then "false" else "true"));
  ca_closed : ∀ parameter, parameter ∈ ["enable-drive"; "enable-printing"; "enable-audio-input"] →
    dict_get parameter parameters = Some (JStr "false");
  ca_chosen : ∀ parameter field d, (parameter, field, d) ∈ [("security", "rdp_security", "nla");
      ("server-layout", "rdp_server_layout", "fr-be-azerty"); ("resize-method", "rdp_resize_method", "display-update")] →
    dict_get parameter parameters
    = Some (JStr (if json_truthy (get_json envelope field) then py_str (get_json envelope field) else d));
  ca_optional : ∀ parameter field, (parameter, field) ∈ [("domain", "domain"); ("cert-fingerprints", "rdp_certificate_fingerprints")] →
    dict_get parameter parameters
    = if json_truthy (get_json envelope field) then Some (JStr (py_str (get_json envelope field))) else None;
  ca_only : parameters.*1 ⊆ ["hostname"; "port"; "username"; "password"; "security"; "server-layout"; "resize-method";
    "disable-copy"; "disable-paste"; "enable-drive"; "enable-printing"; "enable-audio-input"; "domain"; "cert-fingerprints"];
}.

Lemma rdp_parameters_allowed envelope : connection_allowed envelope (rdp_parameters envelope).
Proof.
  unfold rdp_parameters, text_of, text_or, disabled_unless, falsy.
  split; [intros ?? H| | |intros ? H|intros ??? H|intros ?? H|].
  1,4-6: apply list_elem_of_In in H; simpl in H; destruct_or?; simplify_eq.
  all: cbn -[json_truthy py_str].
  all: repeat (first [reflexivity|match goal with |- context [json_truthy ?j] => destruct (json_truthy j) end; cbn -[json_truthy py_str]]).
  all: intros ? H; apply list_elem_of_In in H; apply list_elem_of_In; simpl in *; tauto.
Qed.

(** C23: The browser is handed over only with an authorised, short-lived, single-use
    connection.  When the broker answers a launch with a page, the form named a session
    by its identifier with a ticket of 32 to 256 characters, the internal API granted it
    an envelope for that very session and for RDP, the Guacamole server exchanged the
    encrypted connection for the token of the page, and that connection is the one of
    the envelope: it expires 5 to 30 seconds after it was built, can be used once, goes
    to the server and the account of the envelope, and has the clipboard closed in each
    direction the envelope does not open, and drives, printing and audio input closed. *)
Theorem rdp_launch_is_authorised s messages run w body nonce reports w' :
  _launch environ s messages = Some run → run w = (Ok (RdpReply 200 body nonce reports), w') →
  ∃ config sid ticket ip envelope w1 w2 token result,
    rdp_from_env environ = Ok config ∧ launch_form messages = Some (Ok (sid, ticket)) ∧ 32 <= len ticket <= 256 ∧
    _source_ip s = Ok ip ∧ authorize (rc_shared_key config) sid (JStr ticket) ip w = (Ok envelope, w1) ∧
    dict_get "session_id" envelope = Some (JStr sid) ∧ get_json envelope "protocol" = JStr "rdp" ∧
    5 <= rc_launch_lifetime_seconds config <= 30 ∧
    (∃ parameters, connection_allowed envelope parameters ∧
     let connection := JObj [("username", JStr ("pam-olive:" +:+ py_str
            (match dict_get "pam_user_id" envelope with Some j => j | None => JStr sid end)));
         ("expires", JInt (w_clock w1 / 1000 + rc_launch_lifetime_seconds config * 1000)); ("singleUse", JBool true);
         ("connections", JObj [("pam-olive-" +:+ sid, JObj [("id", JStr sid); ("protocol", JStr "rdp");
            ("singleUse", JBool true); ("parameters", JObj parameters)])])] in
     ∃ data, encrypt_json_auth connection (rc_guacamole_json_key config) = Ok data ∧
       guacamole_post (rc_guacamole_internal_url config +:+ "/api/tokens") (token_body data) = Ok (JObj result)) ∧
    dict_get "authToken" result = Some (JStr token) ∧ is_auth_token token = true ∧
    build_handoff_page token ("pam-olive-" +:+ sid) w2 = (Ok (body, nonce), w') ∧ reports = [].
Proof.
  unfold _launch, refusal. destruct (rdp_from_env environ) as [config|e] eqn:Ec.
  2:{ intros [= <-] H. by destruct (launch_error e). }
  intros (form & Ef & [= <-])%bind_Some. destruct form as [[sid ticket]|e].
  2:{ intros H. by destruct (launch_error e). }
  intros H. apply bind_ok_inv in H as (authorized & w1 & Ea & H). unfold attempt in Ea.
  destruct ((ip ← of_outcome (_source_ip s); authorize (rc_shared_key config) sid (JStr ticket) ip) w) as [r w0] eqn:E0.
  injection Ea as <- <-. destruct r as [envelope|e]; [|by destruct (launch_error e)].
  apply bind_ok_inv in H as (page & w2 & Ep & H). unfold attempt in Ep.
  destruct (hand_over config envelope w0) as [r w3] eqn:Eh. injection Ep as <- <-.
  destruct r as [[b n]|e]; [|destruct (launch_error e); [|done]; by run_inv H].
  injection H as -> -> <- ->. apply bind_ok_inv in E0 as (ip & wi & Ei & E0). prim_inv Ei.
  pose proof (authorize_inv _ _ _ _ _ _ _ E0) as Hsid. pose proof (launch_form_inv _ _ _ Ef) as [Ht _].
  unfold hand_over in Eh. apply bind_ok_inv in Eh as ([cid p] & wa & Eu & Eh).
  apply user_data_inv in Eu as (Hp & Hl & -> & ->). apply bind_ok_inv in Eh as (data & wb & Ed & Eh). prim_inv Ed.
  apply bind_ok_inv in Eh as (token & wc & Et & Eh). prim_inv Et.
  apply token_answer_inv in Et as (Htok & result & Hg & Ht1 & _).
  assert (Hget : get_json envelope "session_id" = JStr sid) by (unfold get_json; by rewrite Hsid).
  rewrite Hget in *. exists config, sid, ticket, ip, envelope, w0, wa, token, result. split_and!; try done; try lia.
  exists (rdp_parameters envelope). split; [apply rdp_parameters_allowed|]. exists data. done.
Qed.

(** A session that was authorised and could not be handed over is reported as
    failed.  A launch that is refused sent no report when the session was never
    authorised; once it was, exactly one report was sent, it names the session and says
    it failed, so the platform does not keep a session open that nobody can use. *)
Theorem rdp_failure_is_reported s messages run w reply w' :
  _launch environ s messages = Some run → run w = (Ok reply, w') → rr_status reply ≠ 200 →
  rr_status reply = 403 ∧
  (rr_reports reply = [] ∧
   (∀ config sid ticket ip envelope w1, rdp_from_env environ = Ok config → launch_form messages = Some (Ok (sid, ticket)) →
      _source_ip s = Ok ip → authorize (rc_shared_key config) sid (JStr ticket) ip w ≠ (Ok envelope, w1)) ∨
   ∃ config sid ticket ip envelope w1, rdp_from_env environ = Ok config ∧ launch_form messages = Some (Ok (sid, ticket)) ∧
     _source_ip s = Ok ip ∧ authorize (rc_shared_key config) sid (JStr ticket) ip w = (Ok envelope, w1) ∧
     rr_reports reply = [JObj [("session_id", JStr sid); ("outcome", JStr "failed"); ("reason", JStr "rdp_launch_failed")]]).
Proof.
  unfold _launch, refusal. destruct (rdp_from_env environ) as [config|e] eqn:Ec.
  2:{ intros [= <-] H _. destruct (launch_error e); [|done]. injection H as <- <-. split; [done|]. left. split; [done|]. intros. congruence. }
  intros (form & Ef & [= <-])%bind_Some. destruct form as [[sid ticket]|e].
  2:{ intros H _. destruct (launch_error e); [|done]. injection H as <- <-. split; [done|]. left. split; [done|]. intros. congruence. }
  intros H Hn. apply bind_ok_inv in H as (authorized & w1 & Ea & H). unfold attempt in Ea.
  destruct ((ip ← of_outcome (_source_ip s); authorize (rc_shared_key config) sid (JStr ticket) ip) w) as [r w0] eqn:E0.
  injection Ea as <- <-. destruct r as [envelope|e].
  - apply bind_ok_inv in E0 as (ip & wi & Ei & E0). prim_inv Ei.
    apply bind_ok_inv in H as (page & w2 & Ep & H). unfold attempt in Ep.
    destruct (hand_over config envelope w0) as [r w3]. injection Ep as <- <-.
    destruct r as [[b n]|e]; [by injection H as <- <-|]. destruct (launch_error e); [|done].
    apply bind_ok_inv in H as (? & w4 & _ & H). injection H as <- <-. split; [done|].
    right. by exists config, sid, ticket, ip, envelope, w0.
  - destruct (launch_error e); [|done]. injection H as <- <-. split; [done|]. left. split; [done|].
    intros ? ? ? ip env w1 [= <-] Hf Hip Hau. simplify_eq. unfold mbind, M_bind, of_outcome in E0. rewrite Hip in E0. congruence.
Qed.
End launches.

(** ** Concrete launches *)

Section witnesses.
#[local] Existing Instance demo_platform.
#[local] Existing Instance demo_fernet.

#[local] Instance demo_cipher : BlockCipher := {| aes_encrypt key b := rev b; aes_decrypt key b := rev b |}.

#[local] Instance demo_cipher_laws : BlockCipherLaws.
Proof.
  split; intros key b Hl Hb; simpl; [|apply rev_involutive]. split; [by rewrite length_rev|].
  rewrite Forall_forall in *. intros x Hx. apply Hb. by apply list_elem_of_In, in_rev, list_elem_of_In.
Qed.

Definition rdp_session : string := "00000000-0000-0000-0000-00000000004d".
Definition rdp_envelope : json :=
  JObj [("session_id", JStr rdp_session); ("protocol", JStr "rdp"); ("credential_kind", JStr "password");
        ("host", JStr "10.0.0.5"); ("port", JInt 3389); ("username", JStr "svc"); ("secret", JStr "s3cret");
        ("allow_clipboard_paste", JBool true)].

#[local] Instance demo_api : InternalAPI := λ r,
  if contains "authorize" (sr_path r) then Ok (JObj [("envelope", JStr ("tok" +:+ encode (dumps rdp_envelope)))])
  else Ok (JObj [("status", JStr "ok")]).

Definition demo_auth_token : string := "ABCDEFGHIJKLMNOPQRSTUVWXYZ0123456789".
Definition serving : GuacamoleServer := λ _ _, Ok (JObj [("authToken", JStr demo_auth_token); ("dataSource", JStr "json")]).
Definition refusing : GuacamoleServer := λ _ _, Raise URLError.
Definition RemoteDisconnected : exn := OtherError "RemoteDisconnected".
Definition hanging_up : GuacamoleServer := λ _ _, Raise RemoteDisconnected.

Definition rdp_environ : gmap string string :=
  {[ "PAMOLIVE_GATEWAY_SHARED_KEY" := demo_shared_key; "PAMOLIVE_GUACAMOLE_JSON_KEY" := "000102030405060708090a0b0c0d0e0f" ]}.

Definition rdp_scope : scope := Scope "http" "/launch/" "POST" [("X-Forwarded-For", "192.0.2.7, 10.0.0.1")] (Some "10.0.0.1").
Definition rdp_messages : list http_message :=
  [("session_id=" +:+ rdp_session, true); ("&ticket=" +:+ demo_shared_key, false)].

Definition demo_reply (server : GuacamoleServer) : outcome rdp_reply * world :=
  match @_launch _ _ _ _ server rdp_environ rdp_scope rdp_messages with
  | Some run => run (demo_world empty_db)
  | None => (Raise DatabaseError, demo_world empty_db)
  end.

Definition demo_launched : outcome rdp_reply * world := Eval vm_compute in demo_reply serving.
Definition demo_refused : outcome rdp_reply * world := Eval vm_compute in demo_reply refusing.

Definition demo_page : string := Eval vm_compute in
  match demo_launched.1 with Ok r => rr_body r | Raise _ => "" end.
Definition demo_nonce : string := Eval vm_compute in
  match demo_launched.1 with Ok r => rr_nonce r | Raise _ => "" end.

(** The server closes the connection: the session was authorised, nothing is reported. *)
Lemma lost_server_leaves_session_open : (demo_reply hanging_up).1 = Raise RemoteDisconnected.
Proof. vm_compute. reflexivity. Qed.

Lemma launch_body_terminates_witness : is_Some (_body (replicate (Z.to_nat 16385) ("x", true))).
Proof.
  apply (launch_body_terminates (replicate (Z.to_nat 16385) ("x", true))).
  - apply Forall_replicate. discriminate.
  - rewrite length_replicate. unfold MAX_REQUEST_BYTES. lia.
Defined.

Lemma json_auth_round_trip_witness :
  ∃ token, encrypt_json_auth rdp_envelope "000102030405060708090a0b0c0d0e0f" = Ok token ∧
           open_json_auth token "000102030405060708090a0b0c0d0e0f" = Some (sort_keys rdp_envelope).
Proof.
  eexists. split; [vm_compute; reflexivity|]. apply (json_auth_round_trip rdp_envelope); [|vm_compute; reflexivity].
  constructor; [|repeat constructor]. apply (bool_decide_unpack _). vm_compute. exact I.
Defined.

Definition demo_refusal : rdp_reply := Eval vm_compute in
  match demo_refused.1 with Ok r => r | Raise _ => RdpReply 0 "" "" [] end.

Lemma rdp_failure_is_reported_witness :
  rr_status demo_refusal = 403 ∧
  (rr_reports demo_refusal = [] ∧
   (∀ config sid ticket ip envelope w1, rdp_from_env rdp_environ = Ok config → launch_form rdp_messages = Some (Ok (sid, ticket)) →
      _source_ip rdp_scope = Ok ip → authorize (rc_shared_key config) sid (JStr ticket) ip (demo_world empty_db) ≠ (Ok envelope, w1)) ∨
   ∃ config sid ticket ip envelope w1, rdp_from_env rdp_environ = Ok config ∧ launch_form rdp_messages = Some (Ok (sid, ticket)) ∧
     _source_ip rdp_scope = Ok ip ∧ authorize (rc_shared_key config) sid (JStr ticket) ip (demo_world empty_db) = (Ok envelope, w1) ∧
     rr_reports demo_refusal = [JObj [("session_id", JStr sid); ("outcome", JStr "failed"); ("reason", JStr "rdp_launch_failed")]]).
Proof.
  eapply (@rdp_failure_is_reported _ _ _ _ refusing rdp_environ rdp_scope rdp_messages _ (demo_world empty_db) demo_refusal demo_refused.2).
  - reflexivity.
  - vm_compute. reflexivity.
  - discriminate.
Defined.

Lemma rdp_launch_is_authorised_witness :
  ∃ config sid ticket ip envelope w1 w2 token result,
    rdp_from_env rdp_environ = Ok config ∧ launch_form rdp_messages = Some (Ok (sid, ticket)) ∧ 32 <= len ticket <= 256 ∧
    _source_ip rdp_scope = Ok ip ∧ authorize (rc_shared_key config) sid (JStr ticket) ip (demo_world empty_db) = (Ok envelope, w1) ∧
    dict_get "session_id" envelope = Some (JStr sid) ∧ get_json envelope "protocol" = JStr "rdp" ∧
    5 <= rc_launch_lifetime_seconds config <= 30 ∧
    (∃ parameters, connection_allowed envelope parameters ∧
     let connection := JObj [("username", JStr ("pam-olive:" +:+ py_str
            (match dict_get "pam_user_id" envelope with Some j => j | None => JStr sid end)));
         ("expires", JInt (w_clock w1 / 1000 + rc_launch_lifetime_seconds config * 1000)); ("singleUse", JBool true);
         ("connections", JObj [("pam-olive-" +:+ sid, JObj [("id", JStr sid); ("protocol", JStr "rdp");
            ("singleUse", JBool true); ("parameters", JObj parameters)])])] in
     ∃ data, encrypt_json_auth connection (rc_guacamole_json_key config) = Ok data ∧
       serving (rc_guacamole_internal_url config +:+ "/api/tokens") (token_body data) = Ok (JObj result)) ∧
    dict_get "authToken" result = Some (JStr token) ∧ is_auth_token token = true ∧
    build_handoff_page token ("pam-olive-" +:+ sid) w2 = (Ok (demo_page, demo_nonce), demo_launched.2) ∧ [] = ([] : list json).
Proof.
  eapply (@rdp_launch_is_authorised _ _ _ _ serving rdp_environ rdp_scope rdp_messages _ (demo_world empty_db)
            demo_page demo_nonce [] demo_launched.2).
  - reflexivity.
  - vm_compute. reflexivity.
Defined.
End witnesses.
