(* ===== verification/Gateway.v ===== *)
(** * The terminal gateway ([pamolive/gateway/asgi.py], [gateway/ssh.py])

    The websocket side of the gateway: the path and the first message, the authorisation
    through the internal API, the encrypted recorder, the SSH connection with its
    host-key policy, the forwarding of output, the report that closes a session, and the
    table of cancellation events through which an administrator ends one.

    The SSH library and the answers of the recording volume are parameters; terminal
    input and the control endpoint are in [Broker], the internal API client in [Rdp].
    Sending on the websocket succeeds, and the server does not cancel the handler. *)

From Stdlib Require Import String.
From S2P Require Import Prelude PyStr PyFloat Json Loads Crypto PyTime Models World Text Ip Policies Broker Recordings Rdp.

Local Open Scope Z_scope.

(** ** Paths *)

Definition session_char (c : ascii) : bool := is_hex_char c || (code c =? 45).

(** [^/ws/sessions/(?P<session_id>[0-9a-fA-F-]{36})/terminal/?$]: the end may be
    followed by one line feed. *)
Definition session_path (path : string) : option string :=
  rest ← strip_chars_prefix (chars "/ws/sessions/") (chars path);
  let session_id := take 36 rest in
  tail ← strip_chars_prefix (chars "/terminal") (drop 36 rest);
  if (length session_id =? 36)%nat && forallb session_char session_id
     && bool_decide (tail ∈ [[]; ["/"%char]; [chr 10]; ["/"%char; chr 10]])
  then Some (of_chars session_id) else None.

Example session_path_ex :
  session_path "/ws/sessions/00000000-0000-0000-0000-00000000004D/terminal/" = Some "00000000-0000-0000-0000-00000000004D"
  ∧ session_path "/ws/sessions/00000000-0000-0000-0000-0000000000/terminal/" = None
  ∧ session_path "/ws/sessions/00000000-0000-0000-0000-00000000004D/terminal/x" = None.
Proof. vm_compute. repeat split. Qed.

(** ** The SSH connection *)

Inductive ssh_secret := Password (p : json) | PrivateKey (k : string).

Record ssh_options := SshOptions {
  so_host : json;
  so_port : Z;
  so_username : json;
  so_known_hosts : option string;
  so_secret : ssh_secret;
  so_connect_timeout : pyfloat;
}.

(** [asyncssh.connect]: the public key of the server once the login succeeded, or an
    exception; with [known_hosts] the key was checked against it before.
    [create_process] on that connection, [import_private_key], and the exceptions that
    are an [OSError] or an [asyncssh.Error]. *)
Class SshLibrary := {
  ssh_connect : ssh_options → outcome string;
  ssh_create_process : ssh_options → outcome unit;
  import_private_key : json → outcome string;
  ssh_error : exn → bool;
}.

Definition PermissionDenied_ssh : exn := OtherError "asyncssh.PermissionDenied".

(** What happened on the way to a shell. *)
Inductive bridge_event :=
  | SecretSent (key_checked : bool)
  | HostKeyObserved (public_key : string) (accepted : bool)
  | ShellStarted.

(** [envelope["k"]] *)
Definition required_member (l : list (string * json)) (k : string) : outcome json :=
  match dict_get k l with Some j => Ok j | None => Raise KeyError end.

(** [envelope.get("known_hosts", "").encode() if envelope.get("known_hosts") else None] *)
Definition known_hosts_of (l : list (string * json)) : outcome (option string) :=
  if falsy l "known_hosts" then Ok None
  else match get_json l "known_hosts" with JStr s => Ok (Some s) | _ => Raise (OtherError "AttributeError") end.

Section ssh.
Context {PF : Platform} {SL : SshLibrary}.

Definition connect_options (envelope : list (string * json)) (connect_timeout : pyfloat) : M ssh_options :=
  raise_if (bool_decide (get_json envelope "protocol" ≠ JStr "ssh"))
    (GatewayProtocolError "Le broker SSH refuse ce protocole.") ;;
  host ← of_outcome (required_member envelope "host");
  given ← of_outcome (required_member envelope "port");
  port ← of_outcome (int_of_json given);
  username ← of_outcome (required_member envelope "username");
  known_hosts ← of_outcome (known_hosts_of envelope);
  secret ← of_outcome (required_member envelope "secret");
  auth ← (if decide (get_json envelope "credential_kind" = JStr "ssh_key")
          then k ← of_outcome (import_private_key secret); mret (PrivateKey k)
          else mret (Password secret));
  mret (SshOptions host port username known_hosts auth connect_timeout).

(** The remote shell, once the key of the server is settled. *)
Definition start_shell (options : ssh_options) (before : list bridge_event) : list bridge_event * outcome unit :=
  match ssh_create_process options with
  | Ok _ => (before ++ [ShellStarted], Ok tt)
  | Raise e => (before, Raise e)
  end.

Definition untrusted : exn := GatewayProtocolError "SSH host-key trust is not configured.".
Definition unrecorded : exn := GatewayProtocolError "The observed SSH host key could not be recorded.".

(** From the envelope to a shell: what happened, and the exception if there is none. *)
Definition open_shell (envelope : list (string * json)) (connect_timeout : pyfloat)
    (host_key_callback : option (string → M bool))
    : M (list bridge_event * outcome unit) :=
  options ← attempt (connect_options envelope connect_timeout);
  match options with
  | Raise e => mret ([], Raise e)
  | Ok options =>
      let sent := SecretSent (bool_decide (is_Some (so_known_hosts options))) in
      match ssh_connect options with
      | Raise e => mret ([sent], Raise e)
      | Ok public_key =>
          if falsy envelope "known_hosts" then
            match host_key_callback with
            | Some callback =>
                if decide (get_json envelope "host_key_policy" = JStr "tofu") then
                  accepted ← attempt (callback (strip public_key));
                  match accepted with
                  | Raise e => mret ([sent], Raise e)
                  | Ok true => mret (start_shell options [sent; HostKeyObserved (strip public_key) true])
                  | Ok false => mret ([sent; HostKeyObserved (strip public_key) false], Raise unrecorded)
                  end
                else mret ([sent], Raise untrusted)
            | None => mret ([sent], Raise untrusted)
            end
          else mret (start_shell options [sent])
      end
  end.
End ssh.

(** Output is recorded, then shown, until the stream ends. *)
Fixpoint _forward_output (direction : string) (chunks : list string) : list gw_effect :=
  match chunks with
  | [] => []
  | data :: rest => if decide (data = "") then []
                    else Recorded direction data :: Sent "terminal.output" :: _forward_output direction rest
  end.

(** How the session ends, from the tasks that are done: the cancellation event, the
    remote process, the input loop.  [None]: it goes on. *)
Definition bridge_reason (cancelled exited : bool) (input : loop_state) : option (outcome string) :=
  if cancelled then Some (Ok "admin_terminated")
  else if exited then Some (Ok "remote_exit")
  else match input with
       | Returned reason => Some (Ok reason)
       | Died e => Some (Raise e)
       | Running _ => None
       end.

(** What is done to a process that has not exited. *)
Definition stop_process (exited exits_in_time : bool) : list string :=
  if exited then [] else "terminate" :: (if exits_in_time then [] else ["kill"]).

(** ** The terminal session *)

(** What the tasks of a session are woken by: a message of the browser, a chunk of an
    output stream (an empty one at its end), the end of the remote process, the
    cancellation event; and the three seconds a process has to end. *)
Inductive output := StdOut | StdErr.
#[global] Instance output_eq_dec : EqDecision output.
Proof. solve_decision. Defined.

Inductive shell_event :=
  | Message (m : ws_message)
  | Chunk (stream : output) (data : string)
  | Exited
  | Cancelled
  | Overdue.

(** The input loop; whether its task, and those of the two streams, still run; whether the
    process has exited and the event is set; the recorder and the volume. *)
Record terminal := Terminal {
  te_input : loop_state;
  te_listening : bool;
  te_stdout : bool;
  te_stderr : bool;
  te_exited : bool;
  te_cancelled : bool;
  te_tape : tape;
}.
#[global] Instance terminal_settable : Settable terminal := λ t,
  Terminal (te_input t) (te_listening t) (te_stdout t) (te_stderr t) (te_exited t) (te_cancelled t) (te_tape t).

Definition direction_named (name : string) : direction :=
  if decide (name = "input") then Input else if decide (name = "command_denied") then CommandDenied
  else if decide (name = "stdout") then Stdout else Stderr.

Definition stream_name (s : output) : string := match s with StdOut => "stdout" | StdErr => "stderr" end.

Definition reading (s : output) (t : terminal) : bool := match s with StdOut => te_stdout t | StdErr => te_stderr t end.

Definition stop_reading (s : output) (t : terminal) : terminal :=
  match s with StdOut => t <| te_stdout := false |> | StdErr => t <| te_stderr := false |> end.

(** [patterns or []] of a list of texts, which is what the internal API sends. *)
Definition pattern_list (j : json) : option (list string) :=
  match j with
  | JArr l => mapM (λ x, match x with JStr s => Some s | _ => None end) l
  | JNull => Some []
  | _ => None
  end.

Section session.
Context {PF : Platform} {FN : Fernet} {DK : Disk} {IA : InternalAPI} {SL : SshLibrary}.
(** [re.search(pattern, command)], see [Broker]. *)
Context (re_search : string → string → option bool).
Context (shared_key session_id : string).

(** The effects on the recorder and on the internal API, in their order; an exception
    of the recorder or of the callback stops them. *)
Fixpoint perform (effects : list gw_effect) (x : tape) : M (outcome unit * tape) :=
  match effects with
  | [] => mret (Ok tt, x)
  | Recorded name data :: rest =>
      written ← write (direction_named name) data x.1 x.2;
      match written.1 with Raise e => mret (Raise e, written.2) | Ok _ => perform rest written.2 end
  | Reported command disposition pattern :: rest =>
      posted ← attempt (report_command_event shared_key
        (JObj [("session_id", JStr session_id); ("command", JStr command); ("disposition", JStr disposition);
               ("pattern", JStr pattern)]));
      match posted with Raise e => mret (Raise e, x) | Ok _ => perform rest x end
  | (Sent _ | Stdin _ | Resized _ _) :: rest => perform rest x
  end.

(** A stream that ended, or whose task an exception ended, is not read any more. *)
Definition on_event (deny alert : list string) (e : shell_event) (t : terminal) : M terminal :=
  match e with
  | Cancelled => mret (t <| te_cancelled := true |>)
  | Exited => mret (t <| te_exited := true |>)
  | Overdue => mret t
  | Chunk stream data =>
      if negb (reading stream t) then mret t
      else if decide (data = "") then mret (stop_reading stream t)
      else
        x ← perform (_forward_output (stream_name stream) [data]) (te_tape t);
        mret (match x.1 with Raise _ => stop_reading stream t | Ok _ => t end <| te_tape := x.2 |>)
  | Message m =>
      match te_input t with
      | Running pending =>
          let '(s, effects) := on_message re_search deny alert pending m in
          x ← perform effects (te_tape t);
          mret (t <| te_input := match x.1 with Raise e => Died e | Ok _ => s end |> <| te_tape := x.2 |>)
      | _ => mret t
      end
  end.

(** After the end is decided the input task lives until the process has exited or its
    three seconds are over; the output tasks are awaited to their end. *)
Definition on_late_event (deny alert : list string) (e : shell_event) (t : terminal) : M terminal :=
  match e with
  | Message _ => if te_listening t then on_event deny alert e t else mret t
  | Exited => mret (t <| te_exited := true |> <| te_listening := false |>)
  | Overdue => mret (t <| te_listening := false |>)
  | _ => on_event deny alert e t
  end.

Fixpoint events_in_turn (step : shell_event → terminal → M terminal) (l : list shell_event) (t : terminal) : M terminal :=
  match l with
  | [] => mret t
  | e :: rest => t ← step e t; events_in_turn step rest t
  end.

(** The bridge has nothing left to wait for. *)
Definition wound_up (t : terminal) : bool := negb (te_listening t) && negb (te_stdout t) && negb (te_stderr t).

(** The waiting coroutine wakes after each batch of events.  [None]: after these events it
    still waits, for the first of the three ends or for what it awaits after it.  When
    the input loop died, the connection is closed without waiting for the streams, but
    their tasks may still store what they had received. *)
Fixpoint run_terminal (deny alert : list string) (batches : list (list shell_event)) (t : terminal)
    : M (option (outcome string) * terminal) :=
  match batches with
  | [] => mret (None, t)
  | batch :: rest =>
      t ← events_in_turn (on_event deny alert) batch t;
      match bridge_reason (te_cancelled t) (te_exited t) (te_input t) with
      | None => run_terminal deny alert rest t
      | Some (Raise e) =>
          t ← events_in_turn (on_late_event deny alert) (concat rest) (t <| te_listening := false |>);
          mret (Some (Raise e), t)
      | Some (Ok reason) =>
          t ← events_in_turn (on_late_event deny alert) (concat rest) (t <| te_listening := negb (te_exited t) |>);
          mret (if wound_up t then Some (Ok reason) else None, t)
      end
  end.

(** A member that is not a list of texts is refused here, at the first command in the
    code. *)
Definition bridge_ssh (batches : list (list shell_event)) (envelope : list (string * json)) (connect_timeout : pyfloat)
    (trusting : bool) (x : tape) : M (option (outcome string) * tape) :=
  opened ← open_shell envelope connect_timeout (if trusting then Some (trust_host_key_remote shared_key session_id) else None);
  match opened.2 with
  | Raise e => mret (Some (Raise e), x)
  | Ok _ =>
      match pattern_list (get_json envelope "command_deny_patterns"), pattern_list (get_json envelope "command_alert_patterns") with
      | Some deny, Some alert =>
          y ← run_terminal deny alert batches (Terminal (Running "") true true true false false x);
          mret (y.1, te_tape y.2)
      | _, _ => mret (Some (Raise (TypeError "first argument must be string or compiled pattern")), x)
      end
  end.
End session.

(** ** One websocket *)

(** The message awaited after the connection was accepted. *)
Inductive first_message := TimedOut | NoText | NullText | Text (text : string).

Definition ticket_of (m : first_message) : outcome json :=
  let read text :=
    match loads text with
    | None => Raise JSONDecodeError
    | Some (JObj l) =>
        if bool_decide (get_json l "type" ≠ JStr "authorize") || falsy l "ticket"
        then Raise (GatewayProtocolError "Ticket de session requis.") else Ok (get_json l "ticket")
    | Some _ => Raise (OtherError "AttributeError")
    end in
  match m with
  | TimedOut => Raise TimeoutError
  | NullText => Raise (TypeError "the JSON object must be str, bytes or bytearray")
  | NoText => read "{}"
  | Text text => read text
  end.

(** How far a session got: whether it was authorised, its recorder, and its end, if it has
    come to one. *)
Record progress := Progress {
  pg_authorised : bool;
  pg_recorder : option recorder;
  pg_result : option (outcome string);
  pg_volume : volume;
}.

(** What a websocket leaves behind: the frames sent, the reports posted, the close code
    ([None]: the handler did not close it), whether its cancellation event is still in
    the table, the exception that escapes, the recordings. *)
Record gateway_run := GatewayRun {
  gr_frames : list json;
  gr_reports : list json;
  gr_code : option Z;
  gr_armed : bool;
  gr_escaped : option exn;
  gr_volume : volume;
}.

Definition status_frame (state : string) : json := JObj [("type", JStr "status"); ("state", JStr state)].
Definition error_frame (message : string) : json := JObj [("type", JStr "error"); ("message", JStr message)].

Section handler.
Context {PF : Platform} {FN : Fernet} {DK : Disk} {IA : InternalAPI} {SL : SshLibrary}.

(** [reason] and the frame of each [except] clause; [None] when no clause matches. *)
Definition OSError_like (e : exn) : bool := bool_decide (e = FileExistsError ∨ e = OSError) || ssh_error e.

Definition failure (e : exn) : option (string * string) :=
  if decide (e = RecordingStorageError) then
    Some ("recording_storage_unavailable",
          "Le stockage sécurisé des enregistrements est indisponible. Contactez un administrateur PAM-olive.")
  else match e with
  | GatewayProtocolError _ => Some ("GatewayProtocolError", "La session privilégiée n’a pas pu être ouverte.")
  | _ =>
      if decide (e = TimeoutError) then Some ("TimeoutError", "La session privilégiée n’a pas pu être ouverte.")
      else if decide (e = JSONDecodeError) then Some ("JSONDecodeError", "La session privilégiée n’a pas pu être ouverte.")
      else if decide (e = PermissionDenied_ssh)
      then Some ("ssh_authentication_failed", "La cible SSH a refusé l’identifiant ou le mot de passe.")
      else if OSError_like e then Some ("ssh_connection_failed", "La cible SSH a refusé la connexion sécurisée.")
      else None
  end.

(** The bridge: the envelope, the connection timeout, whether a host-key callback is given,
    the recorder and the volume; how it ended, if it did, and what it recorded. *)
Definition bridge : Type := list (string * json) → pyfloat → bool → tape → M (option (outcome string) * tape).

(** The callback is given for the first use of an unknown target only. *)
Definition wants_callback (envelope : list (string * json)) : bool :=
  bool_decide (get_json envelope "host_key_policy" = JStr "tofu") && falsy envelope "known_hosts".

Definition negotiate (run_bridge : bridge) (st : storage) (environ : gmap string string) (recording_dir : path)
    (s : scope) (session_id : string) (first : first_message) (v : volume) : M progress :=
  match from_env environ with
  | Raise e => mret (Progress false None (Some (Raise e)) v)
  | Ok config =>
      match ticket_of first with
      | Raise e => mret (Progress false None (Some (Raise e)) v)
      | Ok ticket =>
          envelope ← attempt (ip ← of_outcome (_source_ip s); authorize (gc_shared_key config) session_id ticket ip);
          match envelope with
          | Raise e => mret (Progress false None (Some (Raise e)) v)
          | Ok envelope =>
              let '(opened, v) := open_recorder st recording_dir session_id (gc_recording_key config) v in
              match opened with
              | Raise e => mret (Progress true None (Some (Raise e)) v)
              | Ok recorder =>
                  x ← run_bridge envelope (gc_connect_timeout config) (wants_callback envelope) (recorder, v);
                  let '(result, (recorder, v)) := x in
                  mret (Progress true (Some recorder) result v)
              end
          end
      end
  end.

(** [recorder.close()] as the members added to the report. *)
Definition report_members (report : close_report) : list (string * json) :=
  [("recording_reference", JStr (cr_recording_reference report)); ("recording_sha256", JStr (cr_recording_sha256 report));
   ("bytes_in", JInt (cr_bytes_in report)); ("bytes_out", JInt (cr_bytes_out report))].

Definition recording_result (r : option recorder) (v : volume) : outcome (list (string * json)) * volume :=
  match r with
  | None => (Ok [], v)
  | Some r =>
      let '(closed, (_, v)) := close r v in
      (match closed with Ok report => Ok (report_members report) | Raise e => Raise e end, v)
  end.

Definition close_payload (session_id outcome reason : string) (members : list (string * json)) : json :=
  JObj ([("session_id", JStr session_id); ("outcome", JStr outcome); ("reason", JStr reason)] ++ members).

(** The [except] clauses: outcome, reason, error frames, what escapes. *)
Definition verdict (result : outcome string) : string * string * list json * option exn :=
  match result with
  | Ok reason => ("closed", reason, [], None)
  | Raise e => match failure e with
               | Some (reason, message) => ("failed", reason, [error_frame message], None)
               | None => ("failed", "gateway_error", [], Some e)
               end
  end.

(** The [except] and [finally] clauses.  The recorder is closed before the report is in the
    reach of the inner [finally]: an exception of [recorder.close()] skips the report,
    the removal of the event and the close frame. *)
Definition finish (shared_key session_id : string) (p : progress) : M gateway_run :=
  let frames := [status_frame "authorization_required"]
                ++ (match pg_recorder p with Some _ => [status_frame "authorized"] | None => [] end) in
  match pg_result p with
  | None => mret (GatewayRun frames [] None true None (pg_volume p))
  | Some result =>
      let '(outcome, reason, errors, escaped) := verdict result in
      let '(members, v) := recording_result (pg_recorder p) (pg_volume p) in
      match members with
      | Raise e => mret (GatewayRun (frames ++ errors) [] None true (Some e) v)
      | Ok members =>
          let payload := close_payload session_id outcome reason members in
          posted ← (if pg_authorised p then attempt (report_close shared_key payload) else mret (Ok true));
          let escaped := match posted with Raise e => Some e | Ok _ => escaped end in
          mret (GatewayRun (frames ++ errors) (if pg_authorised p then [payload] else [])
                  (Some (if decide (outcome = "closed") then 1000 else 4500)) false escaped v)
      end
  end.

(** The websocket part of [__call__]. *)
Definition serve (run_bridge : bridge) (st : storage) (environ : gmap string string) (recording_dir : path)
    (s : scope) (first : first_message) (v : volume) : M gateway_run :=
  match session_path (sc_path s) with
  | None => mret (GatewayRun [] [] (Some 4404) false None v)
  | Some session_id =>
      p ← negotiate run_bridge st environ recording_dir s session_id first v;
      finish (default "" (environ !! "PAMOLIVE_GATEWAY_SHARED_KEY")) session_id p
  end.
End handler.

(** ** The key of the server *)

Section trust.
Context {PF : Platform} {SL : SshLibrary}.

Lemma connect_options_inv envelope timeout w options w' :
  connect_options envelope timeout w = (Ok options, w') →
  get_json envelope "protocol" = JStr "ssh" ∧ known_hosts_of envelope = Ok (so_known_hosts options) ∧
  dict_get "host" envelope = Some (so_host options) ∧ dict_get "username" envelope = Some (so_username options).
Proof.
  unfold connect_options. intros H. run_inv H. breflect. apply dec_stable in R.
  unfold required_member in *. repeat case_match; simplify_eq; run_inv H; by subst.
Qed.

Lemma start_shell_inv options before events result :
  start_shell options before = (events, result) → ShellStarted ∈ events → ShellStarted ∉ before →
  ssh_create_process options = Ok () ∧ result = Ok ().
Proof. unfold start_shell. case_match; intros [= <- <-] H1 H2; [|done]. by destruct a. Qed.

(** C21: A shell is only opened on a server whose key is trusted.  It is the host and the
    account of the envelope, the protocol is SSH, the login succeeded, and either the
    envelope names known keys and the connection was bound to them, or it names none,
    its policy is trust on first use, and the key the server showed was recorded by the
    callback before the shell was started. *)
Theorem shell_needs_trusted_key envelope timeout callback w events result w' :
  open_shell envelope timeout callback w = (Ok (events, result), w') → ShellStarted ∈ events →
  result = Ok () ∧ get_json envelope "protocol" = JStr "ssh" ∧
  ∃ options public_key, ssh_connect options = Ok public_key ∧
    dict_get "host" envelope = Some (so_host options) ∧ dict_get "username" envelope = Some (so_username options) ∧
    ((∃ keys, get_json envelope "known_hosts" = JStr keys ∧ keys ≠ "" ∧ so_known_hosts options = Some keys) ∨
     (so_known_hosts options = None ∧ get_json envelope "host_key_policy" = JStr "tofu" ∧
      ∃ cb w1, callback = Some cb ∧ cb (strip public_key) w1 = (Ok true, w'))).
Proof.
  unfold open_shell. intros H Hs. apply bind_ok_inv in H as (x & w1 & Ho & H). unfold attempt in Ho.
  destruct (connect_options envelope timeout w) as [[options|e] w1'] eqn:Ec; injection Ho as <- <-;
    [|injection H as <- _ _; by apply elem_of_nil in Hs].
  apply connect_options_inv in Ec as (Hp & Hk & Hh & Hu). unfold known_hosts_of in Hk.
  destruct (ssh_connect options) as [key|e] eqn:Econ; [|injection H as <- _ _; set_solver].
  destruct (falsy envelope "known_hosts") eqn:Ef.
  - destruct callback as [cb|]; [|injection H as <- _ _; set_solver]. case_decide as Ht; [|injection H as <- _ _; set_solver].
    apply bind_ok_inv in H as (acc & w2 & Ha & H). unfold attempt in Ha.
    destruct (cb (strip key) w1') as [[[]|e] w2'] eqn:Ecb; injection Ha as <- <-; [|injection H as <- _ _; set_solver..].
    injection H as Hst <-. apply start_shell_inv in Hst as [_ ->]; [|done|set_solver].
    split; [done|]. split; [done|]. exists options, key. split_and!; try done. right. injection Hk as <-.
    split_and!; [done..|]. by exists cb, w1'.
  - injection H as Hst <-. apply start_shell_inv in Hst as [_ ->]; [|done|set_solver].
    split; [done|]. split; [done|]. exists options, key. split_and!; try done. left.
    destruct (get_json envelope "known_hosts") as [| | |keys| | |] eqn:Ej; try done. injection Hk as <-.
    exists keys. split_and!; [done| |done]. intros ->. unfold falsy in Ef. by rewrite Ej in Ef.
Qed.
End trust.

(** ** The recording of a session *)

(** What a bridge owes to the handler that reports its session: it writes through the
    recorder it is given, and it comes to an end when [ends] holds of its surroundings. *)
Class AccountableBridge (run_bridge : bridge) (ends : Prop) {DK : Disk} : Prop :=
  bridge_continues : ∀ envelope timeout trusting x w, ∃ result x' w',
    run_bridge envelope timeout trusting x w = (Ok (result, x'), w') ∧ continues x x' ∧ (ends → is_Some result).

(** The remote process exits and both of its streams end: what the terminal waits for. *)
Definition settled (l : list shell_event) : Prop := Exited ∈ l ∧ Chunk StdOut "" ∈ l ∧ Chunk StdErr "" ∈ l.

Section accountable.
Context {PF : Platform} {FN : Fernet} {DK : Disk} {IA : InternalAPI} {SL : SshLibrary}.

Lemma write_continues d data x w : ∃ res x' w', write d data x.1 x.2 w = (Ok (res, x'), w') ∧ continues x x'.
Proof.
  destruct x as [r v]. cbn. destruct (decide (data = "")) as [->|Hd]; [by exists (Ok tt), (r, v), w|].
  destruct (write_run d data r v w Hd) as (s & res & x & w' & E & _ & _ & C & _). by exists res, x, w'.
Qed.

Section events.
Context (re_search : string → string → option bool) (shared_key session_id : string).

Lemma perform_continues effects : ∀ x w, ∃ res x' w',
  perform shared_key session_id effects x w = (Ok (res, x'), w') ∧ continues x x'.
Proof.
  induction effects as [|[name data|k|c d p|data|cols rows] rest IH]; intros x w; cbn [perform]; try apply IH.
  - by exists (Ok tt), x, w.
  - destruct (write_continues (direction_named name) data x w) as (res & x1 & w1 & E & C).
    rewrite (bind_ok _ _ _ _ _ E). cbn [fst snd]. destruct res as [[]|e]; [|by do 3 eexists].
    destruct (IH x1 w1) as (res & x' & w' & -> & C'). do 3 eexists. split; [reflexivity|]. by etrans.
  - set (post := report_command_event _ _). unfold mbind, M_bind, attempt at 1.
    destruct (post w) as [[b|e] w1]; [apply IH|]. by do 3 eexists.
Qed.

(** A step runs to its end and goes on with the recording; it never undoes what the bridge
    waits for, the end [over] of the process and those of the streams, and the events
    that announce them bring them about. *)
Definition advances (over : terminal → bool) (step : shell_event → terminal → M terminal) : Prop :=
  ∀ e t w, ∃ t' w', step e t w = (Ok t', w') ∧ continues (te_tape t) (te_tape t') ∧
    (over t = true ∨ e = Exited → over t' = true) ∧
    ∀ o, reading o t = false ∨ e = Chunk o "" → reading o t' = false.

Lemma on_event_run deny alert e t w : ∃ t' w',
  on_event re_search shared_key session_id deny alert e t w = (Ok t', w') ∧ continues (te_tape t) (te_tape t') ∧
  te_listening t' = te_listening t ∧ (te_exited t = true ∨ e = Exited → te_exited t' = true) ∧
  ∀ o, reading o t = false ∨ e = Chunk o "" → reading o t' = false.
Proof.
  unfold on_event. destruct e as [m|s data| | |].
  - destruct (te_input t); [|do 2 eexists; split; [reflexivity|]; by naive_solver..].
    destruct (on_message _ _ _ _ _) as [st effects].
    destruct (perform_continues effects (te_tape t) w) as (res & x & w' & E & C).
    rewrite (bind_ok _ _ _ _ _ E). do 2 eexists. split; [reflexivity|]. split; [exact C|].
    split; [done|]. split; [by intros [?|?]|]. intros o [Ho|?]; first [done|by destruct o].
  - destruct (reading s t) eqn:Er; cbn [negb].
    2:{ do 2 eexists. split; [reflexivity|]. split; [done|]. split; [done|]. split; [by intros [?|?]|].
        by intros o [?|[= <-]]. }
    destruct (decide (data = "")) as [->|Hd].
    + do 2 eexists. split; [reflexivity|]. split; [by destruct s|]. split; [by destruct s|].
      split; [intros [?|?]; first [done|by destruct s]|]. intros o [Ho|[= ->]]; first [by destruct s, o|by destruct o].
    + destruct (perform_continues (_forward_output (stream_name s) [data]) (te_tape t) w) as (res & x & w' & E & C).
      rewrite (bind_ok _ _ _ _ _ E). do 2 eexists. split; [reflexivity|]. split; [done|].
      split; [by destruct res, s|]. split; [intros [?|?]; first [done|by destruct res, s]|].
      intros o [Ho|[= _ ?]]; first [done|by destruct res, s, o].
  - do 2 eexists. split; [reflexivity|]. split; [done|]. split; [done|]. split; [done|]. intros o [Ho|?]; first [done|by destruct o].
  - do 2 eexists. split; [reflexivity|]. split; [done|]. split; [done|]. split; [by intros [?|?]|].
    intros o [Ho|?]; first [done|by destruct o].
  - do 2 eexists. split; [reflexivity|]. split; [done|]. split; [done|]. split; [by intros [?|?]|]. by intros o [?|?].
Qed.

Lemma on_event_advances deny alert : advances te_exited (on_event re_search shared_key session_id deny alert).
Proof. intros e t w. destruct (on_event_run deny alert e t w) as (t' & w' & E & C & _ & H). by exists t', w'. Qed.

Lemma on_late_event_advances deny alert :
  advances (λ t, negb (te_listening t)) (on_late_event re_search shared_key session_id deny alert).
Proof.
  intros e t w. destruct (on_event_run deny alert e t w) as (t' & w' & E & C & L & _ & H).
  assert (te_listening t' = te_listening t ∧ e ≠ Exited → (negb (te_listening t) = true ∨ e = Exited → negb (te_listening t') = true))
    as Hl by (intros [-> ?] [?|?]; done).
  unfold on_late_event. destruct e as [m|s data| | |]; [destruct (te_listening t) eqn:El| | | |].
  - exists t', w'. split; [exact E|]. split; [done|]. split; [by apply Hl|exact H].
  - exists t, w. split; [done|]. split; [done|]. rewrite El. split; [done|]. by intros o [?|?].
  - exists t', w'. split; [exact E|]. split; [done|]. split; [by apply Hl|exact H].
  - do 2 eexists. split; [reflexivity|]. split; [done|]. split; [done|]. intros o [Ho|?]; first [done|by destruct o].
  - exists t', w'. split; [exact E|]. split; [done|]. split; [by apply Hl|exact H].
  - do 2 eexists. split; [reflexivity|]. split; [done|]. split; [done|]. intros o [Ho|?]; first [done|by destruct o].
Qed.

Lemma events_in_turn_run over step l : advances over step → ∀ t w, ∃ t' w',
  events_in_turn step l t w = (Ok t', w') ∧ continues (te_tape t) (te_tape t') ∧
  (over t = true ∨ Exited ∈ l → over t' = true) ∧
  ∀ o, reading o t = false ∨ Chunk o "" ∈ l → reading o t' = false.
Proof.
  intros Hs. induction l as [|e l IH]; intros t w; cbn [events_in_turn].
  - do 2 eexists. split; [reflexivity|]. split; [done|]. split; [|intros o]; by intros [?|?%elem_of_nil].
  - destruct (Hs e t w) as (t1 & w1 & E & C & X & R). rewrite (bind_ok _ _ _ _ _ E).
    destruct (IH t1 w1) as (t2 & w2 & -> & C2 & X2 & R2). do 2 eexists. split; [reflexivity|].
    split; [by etrans|]. setoid_rewrite elem_of_cons. split; [|intros o]; naive_solver.
Qed.

(** What a settled terminal has left to come, after some of its events. *)
Definition settling (t : terminal) (l : list shell_event) : Prop :=
  (te_exited t = true ∨ Exited ∈ l) ∧ ∀ o, reading o t = false ∨ Chunk o "" ∈ l.

Lemma run_terminal_run deny alert batches : ∀ t w, te_exited t = false → ∃ res t' w',
  run_terminal re_search shared_key session_id deny alert batches t w = (Ok (res, t'), w') ∧
  continues (te_tape t) (te_tape t') ∧ (settling t (concat batches) → is_Some res).
Proof.
  induction batches as [|batch rest IH]; intros t w Hx; cbn [run_terminal concat].
  { do 3 eexists. split; [reflexivity|]. split; [done|]. intros [[?|?%elem_of_nil] _]; [congruence|done]. }
  destruct (events_in_turn_run _ _ batch (on_event_advances deny alert) t w) as (t1 & w1 & E & C & X & R).
  rewrite (bind_ok _ _ _ _ _ E). assert (settling t (batch ++ concat rest) → settling t1 (concat rest)) as Hset.
  { unfold settling. setoid_rewrite elem_of_app. intros [H1 H2]. split; [naive_solver|]. intros o. specialize (H2 o). naive_solver. }
  destruct (bridge_reason _ _ _) as [[reason|e]|] eqn:Er.
  - destruct (events_in_turn_run _ _ (concat rest) (on_late_event_advances deny alert)
      (t1 <| te_listening := negb (te_exited t1) |>) w1) as (t2 & w2 & E2 & C2 & X2 & R2).
    rewrite (bind_ok _ _ _ _ _ E2). do 3 eexists. split; [reflexivity|]. split; [by etrans|].
    intros [H1 H2]%Hset. unfold wound_up. cbn in X2. rewrite negb_involutive in X2. rewrite X2 by done.
    pose proof (R2 StdOut) as RO. pose proof (R2 StdErr) as RE. cbn in RO, RE.
    rewrite RO, RE; [by eexists|exact (H2 StdErr)|exact (H2 StdOut)].
  - destruct (events_in_turn_run _ _ (concat rest) (on_late_event_advances deny alert)
      (t1 <| te_listening := false |>) w1) as (t2 & w2 & E2 & C2 & _).
    rewrite (bind_ok _ _ _ _ _ E2). do 3 eexists. split; [reflexivity|]. split; [by etrans|]. by eexists.
  - destruct (IH t1 w1) as (res & t2 & w2 & -> & C2 & S).
    { unfold bridge_reason in Er. by destruct (te_cancelled t1), (te_exited t1). }
    do 3 eexists. split; [reflexivity|]. split; [by etrans|]. intros H. by apply S, Hset.
Qed.

Lemma attempt_run {A} (m : M A) w : ∃ r w', attempt m w = (Ok r, w').
Proof. unfold attempt. destruct (m w) as [r w']. by exists r, w'. Qed.


Lemma open_shell_ends envelope timeout callback w : ∃ x w', open_shell envelope timeout callback w = (Ok x, w').
Proof.
  unfold open_shell. destruct (attempt_run (connect_options envelope timeout) w) as ([options|e] & w1 & E);
    rewrite (bind_ok _ _ _ _ _ E); [|by do 2 eexists].
  destruct (ssh_connect options) as [key|e]; [|by do 2 eexists].
  destruct (falsy _ _); [|by do 2 eexists]. destruct callback as [callback|]; [|by do 2 eexists].
  case_decide; [|by do 2 eexists]. destruct (attempt_run (callback (strip key)) w1) as ([[]|e] & w2 & E2);
    rewrite (bind_ok _ _ _ _ _ E2); by do 2 eexists.
Qed.

#[export] Instance bridge_ssh_accountable batches :
  AccountableBridge (bridge_ssh re_search shared_key session_id batches) (settled (concat batches)).
Proof.
  intros envelope timeout trusting x w. unfold bridge_ssh.
  destruct (open_shell_ends envelope timeout (if trusting then Some (trust_host_key_remote shared_key session_id) else None) w)
    as ([events [[]|e]] & w1 & E); rewrite (bind_ok _ _ _ _ _ E); cbn [snd]; [|by do 3 eexists].
  destruct (pattern_list _) as [deny|]; [|by do 3 eexists]. destruct (pattern_list _) as [alert|]; [|by do 3 eexists].
  destruct (run_terminal_run deny alert batches (Terminal (Running "") true true true false false x) w1 eq_refl)
    as (res & t & w2 & E2 & C & S).
  rewrite (bind_ok _ _ _ _ _ E2). do 3 eexists. split; [reflexivity|]. split; [exact C|].
  intros (H1 & H2 & H3). apply S. split; [by right|]. intros []; by right.
Qed.
End events.
End accountable.

(** ** The report of a session *)

Section reports.
Context {PF : Platform} {FN : Fernet} {DK : Disk} {IA : InternalAPI} {SL : SshLibrary}.
Context (environ : gmap string string) (recording_dir : path).













End reports.

(** ** The table of cancellation events *)

(** The connections of the process with their session, the event the table holds for a
    session, and the events that are set. *)
Record registry := Registry {
  rg_live : gmap nat string;
  rg_events : gmap string nat;
  rg_fired : gset nat;
}.

(** [cancellation = asyncio.Event(); self.cancellations[session_id] = cancellation] *)
Definition connect (n : nat) (session_id : string) (g : registry) : registry :=
  Registry (<[n := session_id]> (rg_live g)) (<[session_id := n]> (rg_events g)) (rg_fired g).

(** [self.cancellations.pop(session_id, None)] at the end of a connection *)
Definition leave (n : nat) (session_id : string) (g : registry) : registry :=
  Registry (delete n (rg_live g)) (delete session_id (rg_events g)) (rg_fired g).

(** [cancellation.set()] *)
Definition fire (session_id : string) (g : registry) : registry :=
  match rg_events g !! session_id with
  | Some n => Registry (rg_live g) (rg_events g) ({[n]} ∪ rg_fired g)
  | None => g
  end.

(** The table as the control endpoint sees it: session to flag. *)
Definition flags (g : registry) : gmap string bool := (λ n, bool_decide (n ∈ rg_fired g)) <$> rg_events g.

(** A connection takes an event of its own; [exclusive] forbids a second connection on
    the session of one that is open. *)
Inductive registry_step (exclusive : bool) : registry → registry → Prop :=
  | step_connect n session_id g :
      rg_live g !! n = None → n ∉ rg_fired g →
      (exclusive = true → ∀ m, rg_live g !! m ≠ Some session_id) →
      registry_step exclusive g (connect n session_id g)
  | step_leave n session_id g :
      rg_live g !! n = Some session_id → registry_step exclusive g (leave n session_id g)
  | step_fire session_id g : registry_step exclusive g (fire session_id g).

Definition registry_reachable (exclusive : bool) : registry → Prop :=
  rtc (registry_step exclusive) (Registry ∅ ∅ ∅).








(** A second websocket on the session of an open one, refused for want of a ticket,
    takes its event away: the connection stays open and a signed termination request
    finds nothing. *)
Definition disarmed : registry := leave 1 (str_uuid demo_sid) (connect 1 (str_uuid demo_sid) (connect 0 (str_uuid demo_sid) (Registry ∅ ∅ ∅))).

Lemma second_socket_disarms_termination :
  registry_reachable false disarmed ∧ rg_live disarmed !! 0%nat = Some (str_uuid demo_sid) ∧
  match _control no_redis demo_gateway demo_terminate (GatewayState (flags disarmed) ∅) (demo_world empty_db) with
  | (Ok (status, _), _) => status = 404
  | _ => False
  end.
Proof.
  split; [|split; vm_compute; reflexivity].
  eapply rtc_l; [apply (step_connect false 0 (str_uuid demo_sid)); [reflexivity|set_solver|discriminate]|].
  eapply rtc_l; [apply (step_connect false 1 (str_uuid demo_sid)); [reflexivity|set_solver|discriminate]|].
  eapply rtc_l; [apply (step_leave false 1 (str_uuid demo_sid)); reflexivity|]. apply rtc_refl.
Qed.

(** ** Concrete sessions *)

Section witnesses.
#[local] Existing Instance demo_platform.
#[local] Existing Instance demo_fernet.

Definition ssh_envelope : list (string * json) :=
  [("session_id", JStr rdp_session); ("protocol", JStr "ssh"); ("credential_kind", JStr "password");
   ("host", JStr "10.0.0.5"); ("port", JInt 22); ("username", JStr "svc"); ("secret", JStr "s3cret");
   ("host_key_policy", JStr "tofu"); ("known_hosts", JStr ""); ("command_deny_patterns", JArr [JStr "rm -rf"]);
   ("command_alert_patterns", JArr [])].

#[local] Instance ssh_api : InternalAPI := λ r,
  if contains "authorize" (sr_path r) then Ok (JObj [("envelope", JStr ("tok" +:+ encode (dumps (JObj ssh_envelope))))])
  else Ok (JObj [("status", JStr "trusted")]).

#[local] Instance demo_ssh : SshLibrary := {|
  ssh_connect _ := Ok "ssh-ed25519 AAAA";
  ssh_create_process _ := Ok tt;
  import_private_key _ := Raise (ValueError "key");
  ssh_error e := bool_decide (e = OtherError "ConnectionRefusedError") |}.

Definition gateway_environ : gmap string string :=
  {[ "PAMOLIVE_GATEWAY_SHARED_KEY" := demo_shared_key; "PAMOLIVE_RECORDING_KEY" := demo_shared_key ]}.
Definition ssh_scope : scope :=
  Scope "websocket" ("/ws/sessions/" +:+ rdp_session +:+ "/terminal/") "GET" [] (Some "192.0.2.7").
Definition quotes : string := String quote "".
Definition ssh_first : first_message :=
  Text ("{" +:+ quotes +:+ "type" +:+ quotes +:+ ":" +:+ quotes +:+ "authorize" +:+ quotes +:+ "," +:+
        quotes +:+ "ticket" +:+ quotes +:+ ":" +:+ quotes +:+ "t" +:+ quotes +:+ "}").

Definition ssh_batches : list (list shell_event) :=
  [[Chunk StdOut "$ "]; [Message WsDisconnect; Cancelled];
   [Chunk StdOut "bye"; Exited; Chunk StdErr ""; Chunk StdOut ""]].
Definition no_match (pattern command : string) : option bool := Some false.
Definition no_run : gateway_run := GatewayRun [] [] None false None ∅.

Section sound_volume.
#[local] Instance sound_disk : Disk := λ _, Done.
Definition ssh_bridge : bridge := bridge_ssh no_match demo_shared_key rdp_session ssh_batches.

Definition demo_run : outcome gateway_run * world := Eval vm_compute in
  serve ssh_bridge Available gateway_environ ["rec"] ssh_scope ssh_first ∅ (demo_world empty_db).

(** Cancelled and disconnected in one turn of the loop: the administrator's
    termination is what is reported. *)
Example demo_run_report : ∃ report, gr_reports (match demo_run.1 with Ok g => g | Raise _ => no_run end) = [JObj report] ∧
  dict_get "reason" report = Some (JStr "admin_terminated") ∧ dict_get "bytes_out" report = Some (JInt 5).
Proof. eexists. split; [vm_compute; reflexivity|]. split; vm_compute; reflexivity. Qed.


(** The session of the example settles: it ends with its report. *)
Example demo_batches_settle : settled (concat ssh_batches).
Proof. split_and!; apply list_elem_of_In; vm_compute; tauto. Qed.

(** A cancelled session whose streams stay open is not closed yet. *)
Example waiting_run :
  match (serve (bridge_ssh no_match demo_shared_key rdp_session [[Cancelled]; [Exited; Chunk StdOut ""]]) Available
           gateway_environ ["rec"] ssh_scope ssh_first ∅ (demo_world empty_db)).1 with
  | Ok g => gr_reports g = [] ∧ gr_code g = None ∧ gr_armed g = true ∧ gr_escaped g = None
  | Raise _ => False
  end.
Proof. vm_compute. repeat split. Qed.
End sound_volume.

(** The volume takes what is written and fails to make it durable: the session of the
    example ends, nobody is told, and its cancellation event is never removed. *)
Section failing_volume.
#[local] Instance never_durable : Disk := λ n, if decide (n < 2)%nat then Done else Failed 0 0.

Lemma failed_close_reports_nothing :
  match (serve (bridge_ssh no_match demo_shared_key rdp_session ssh_batches) Available gateway_environ ["rec"] ssh_scope
           ssh_first ∅ (demo_world empty_db)).1 with
  | Ok g => gr_reports g = [] ∧ gr_code g = None ∧ gr_armed g = true ∧ gr_escaped g = Some OSError
  | Raise _ => False
  end.
Proof. vm_compute. repeat split. Qed.
End failing_volume.

Definition shell_opening : list bridge_event :=
  [SecretSent false; HostKeyObserved "ssh-ed25519 AAAA" true; ShellStarted].
Definition accepting (public_key : string) : M bool := mret true.

Lemma shell_needs_trusted_key_witness :
  (Ok () : outcome unit) = Ok () ∧ get_json ssh_envelope "protocol" = JStr "ssh" ∧
  ∃ options public_key, ssh_connect options = Ok public_key ∧
    dict_get "host" ssh_envelope = Some (so_host options) ∧ dict_get "username" ssh_envelope = Some (so_username options) ∧
    ((∃ keys, get_json ssh_envelope "known_hosts" = JStr keys ∧ keys ≠ "" ∧ so_known_hosts options = Some keys) ∨
     (so_known_hosts options = None ∧ get_json ssh_envelope "host_key_policy" = JStr "tofu" ∧
      ∃ cb w1, Some accepting = Some cb ∧ cb (strip public_key) w1 = (Ok true, demo_world empty_db))).
Proof.
  apply (shell_needs_trusted_key ssh_envelope nan (Some accepting) (demo_world empty_db) shell_opening).
  - vm_compute. reflexivity.
  - unfold shell_opening. apply list_elem_of_In. simpl. tauto.
Defined.

(** On first use the secret is sent before the key is known to be recorded. *)
Lemma first_use_sends_secret_first :
  open_shell ssh_envelope nan (Some (λ _, mret false)) (demo_world empty_db)
  = (Ok ([SecretSent false; HostKeyObserved "ssh-ed25519 AAAA" false], Raise unrecorded), demo_world empty_db).
Proof. vm_compute. reflexivity. Qed.



End witnesses.
