(* ===== verification/SignIn.v ===== *)
(** * Signing in ([accounts/views.py], [accounts/forms.py], [connectors/oidc.py])

    The login form with its second factor, the login view, and the two views of an
    OpenID Connect sign-in, down to what they leave in the browser session.  The
    session is Django's: [login] keeps the data of an anonymous session or of a session
    of the same user, and flushes the session of another one; its signal saves the
    date of the sign-in, so the licence limit of [licensing/signals.py] is tested
    again at each sign-in.  The date itself is not a column of the model: the program
    never reads it.  Stored passwords are taken to be hashed by the preferred hasher:
    Django's upgrade of an older hash is not modelled.

    Provisioning is in [Directory], the codes in [Mfa], the session policy in
    [Accounts].  The OAuth library and the hash that ties a session to a password are
    parameters. *)

From Stdlib Require Import String.
From S2P Require Import Prelude PyStr Json Loads PyTime Models World Text AuditTrail Ip.
From S2P Require Import Policies Vault Mfa Accounts Licensing Directory Portal Outbound Forms ConsoleForms ConsoleOps.

Local Open Scope Z_scope.

Definition SESSION_KEY : string := "_auth_user_id".
Definition BACKEND_SESSION_KEY : string := "_auth_user_backend".
Definition HASH_SESSION_KEY : string := "_auth_user_hash".
Definition ModelBackend : string := "django.contrib.auth.backends.ModelBackend".

(** [user.get_session_auth_hash()], [url_has_allowed_host_and_scheme], and the OAuth
    client of a configuration: the redirection to the provider, the token of a callback
    and the user information it gives access to. *)
Class SignInEnv := {
  session_auth_hash : string → string;
  allowed_next : string → bool;
  authorize_redirect : list (string * json) → string → outcome string;
  authorize_access_token : list (string * json) → http_request → outcome (list (string * json));
  userinfo : list (string * json) → list (string * json) → outcome json;
}.

Definition OAuthError : exn := OtherError "OAuthError".

Section sign_in.
Context {PF : Platform} {LE : LicenseEnv} {OE : OutboundEnv} {SE : SignInEnv}.

(** ** The session *)

(** [django.contrib.auth.login]: the session and the user of the request. *)
Definition login_session (r : http_request) (u : obj user) : http_request :=
  let sess := rq_session r in
  let hash := session_auth_hash (u_password (val u)) in
  let kept :=
    match sess !! SESSION_KEY with
    | None => sess
    | Some k =>
        if bool_decide (k ≠ JStr (str_user_pk (pk u)))
           || (bool_decide (hash ≠ "") && bool_decide (default (JStr "") (sess !! HASH_SESSION_KEY) ≠ JStr hash))
        then ∅ else sess
    end in
  r <| rq_session := <[HASH_SESSION_KEY := JStr hash]> (<[BACKEND_SESSION_KEY := JStr ModelBackend]>
         (<[SESSION_KEY := JStr (str_user_pk (pk u))]> kept)) |> <| rq_user := Authenticated u |>.

(** The receiver of [user_logged_in]: [user.save(update_fields=["last_login"])], which
    sends [pre_save] first. *)
Definition update_last_login (u : obj user) : M unit := enforce_active_user_limit (Some (pk u)) (val u).

Definition login (r : http_request) (u : obj user) : M http_request :=
  update_last_login u ;; mret (login_session r u).

(** ** The form *)

(** [ModelBackend.authenticate] *)
Definition authenticate_password (username password : string) : M (option (obj user)) :=
  found ← asks (λ d, head (objects_filter (λ o, bool_decide (u_username (val o) = username)) (users d)));
  mret (match found with
        | Some u => if check_password password (u_password (val u)) && u_is_active (val u) then Some u else None
        | None => None
        end).

(** [PAMOliveAuthenticationForm]: the user of a valid form. *)
Definition PAMOliveAuthenticationForm (POST : querydict) : M (option (obj user)) :=
  let otp_token := char_field POST "otp_token" false None in
  user ← match char_field POST "username" true None, raw_char_field POST "password" with
         | Some username, Some password => authenticate_password username password
         | _, _ => mret None
         end;
  match user with
  | None => mret None
  | Some u =>
      enrolled ← asks (λ d, mfa_enrolled d (pk u));
      accepted ← (if enrolled : bool then verify_user_mfa (pk u) (default "" otp_token) else mret true);
      mret (if accepted && bool_decide (is_Some otp_token) then Some u else None)
  end.

(** ** The login view *)

Definition LOGIN_REDIRECT_URL : string := "/".

Definition success_url (next : option string) : string :=
  match next with
  | Some url => if allowed_next url then url else LOGIN_REDIRECT_URL
  | None => LOGIN_REDIRECT_URL
  end.

(** [get_context_data]: the providers offered, by name. *)
Definition oidc_sources (d : db) : list (obj identity_source) :=
  sort_by_text (λ o, is_name (val o))
    (objects_filter (λ o, bool_decide (is_kind (val o) = "oidc") && is_enabled (val o)) (identity_sources d)).

Definition login_page : M response :=
  sources ← asks oidc_sources;
  mret (Rendered "registration/login.html" 200 [("oidc_sources", JArr ((λ o, JStr (is_name (val o))) <$> sources))]).

Definition form_valid (u : obj user) (next : option string) : handler := λ r,
  r ← login r u;
  enrolled ← asks (λ d, mfa_enrolled d (pk u));
  r ← (if enrolled : bool then mark_mfa_verified r None else mret r);
  record_event (Some (pk u)) "authentication.password.succeeded" (user_resource u) [] (request_client_ip (rq_meta r)) ;;
  mret (RedirectUrl (success_url next), r).

Definition chain_resource : resource := Resource "audit.auditchainstate" "1".

Definition form_invalid (POST : querydict) : handler := λ r,
  get_chain_state ;;
  record_event None "authentication.password.failed" chain_resource
    [("username", JStr (slice_to 150 (default "" (qget POST "username"))))] (request_client_ip (rq_meta r)) ;;
  page ← login_page;
  mret (page, r).

Definition PAMOliveLoginView (POST : querydict) (next : option string) : handler := λ r,
  if decide (rq_method r ∈ ["POST"; "PUT"]) then
    user ← PAMOliveAuthenticationForm POST;
    match user with
    | Some u => form_valid u next r
    | None => form_invalid POST r
    end
  else if decide (rq_method r ∈ ["GET"; "HEAD"]) then page ← login_page; mret (page, r)
  else mret (NotAllowed ["GET"; "POST"; "PUT"; "HEAD"; "OPTIONS"], r).

(** ** OpenID Connect *)

(** The configuration the client is registered with. *)
Definition oidc_client_for (source : obj identity_source) : M (list (string * json)) :=
  raise_if (bool_decide (is_kind (val source) ≠ "oidc") || negb (is_enabled (val source)))
    (OIDCProvisioningError "Le fournisseur OIDC n’est pas disponible.") ;;
  configuration ← get_identity_source_configuration (val source);
  validate_identity_source_configuration (is_kind (val source)) configuration ;;
  mret configuration.

(** [get_object_or_404(IdentitySource, slug=slug, kind=OIDC, enabled=True)] *)
Definition oidc_source (slug : string) : M (obj identity_source) :=
  found ← asks (λ d, head (objects_filter (λ o, bool_decide (is_slug (val o) = slug) && bool_decide (is_kind (val o) = "oidc")
                                                && is_enabled (val o)) (identity_sources d)));
  match found with Some s => mret s | None => raise Http404 end.

(** [callback_uri] is the public address of [oidc_callback]. *)
Definition oidc_login (slug callback_uri : string) : handler := λ r,
  source ← oidc_source slug;
  configuration ← oidc_client_for source;
  url ← of_outcome (authorize_redirect configuration callback_uri);
  mret (RedirectUrl url, r).

(** [dict(claims)] *)
Definition dict_of (j : json) : outcome (list (string * json)) :=
  match j with
  | JObj l => Ok l
  | JNull | JBool _ | JInt _ | JFloat _ => Raise (TypeError "object is not iterable")
  | JStr "" | JArr [] => Ok []
  | JStr _ => Raise (ValueError "dictionary update sequence element #0 has length 1; 2 is required")
  | JArr _ => Raise (TypeError "cannot convert dictionary update sequence element #0 to a sequence")
  end.

Definition token_claims (configuration token : list (string * json)) : outcome (list (string * json)) :=
  let claims := default JNull (dict_get "userinfo" token) in
  if json_truthy claims then dict_of claims
  else match userinfo configuration token with Ok j => dict_of j | Raise e => Raise e end.

(** The [try] block: the account the provider vouches for. *)
Definition oidc_user (source : obj identity_source) (r : http_request) : M id :=
  configuration ← oidc_client_for source;
  token ← of_outcome (authorize_access_token configuration r);
  claims ← of_outcome (token_claims configuration token);
  provision_oidc_identity source claims.

(** The exceptions the callback answers for, with their class. *)
Definition oidc_failure (e : exn) : option string :=
  match e with
  | PermissionDenied _ => Some "OIDCProvisioningError"
  | ValueError m => Some (if decide (m ∈ ["JSONDecodeError"; "UnicodeDecodeError"]) then m else "ValueError")
  | _ => if decide (e = OAuthError) then Some "OAuthError" else None
  end.

Definition oidc_callback (slug : string) : handler := λ r,
  source ← oidc_source slug;
  outcome ← try_except (user ← oidc_user source r; mret (inl user))
    (λ e, match oidc_failure e with
          | Some error_type => Some (mret (inr error_type))
          | None => None
          end);
  match outcome with
  | inr error_type =>
      record_event None "authentication.oidc.failed" (source_resource (pk source)) [("error_type", JStr error_type)]
        (request_client_ip (rq_meta r)) ;;
      mret (RedirectTo "login" [], r)
  | inl user =>
      u ← get_row users "User" user;
      r ← login r u;
      record_event (Some user) "authentication.oidc.succeeded" (source_resource (pk source)) [] None ;;
      mret (RedirectTo "dashboard" [], r)
  end.
End sign_in.

(** ** What a sign-in leaves in the session *)

Definition session_of (sess : gmap string json) (u : obj user) : Prop :=
  sess !! SESSION_KEY = Some (JStr (str_user_pk (pk u))).

(** A session without a user holds neither a second factor nor the start of a visit. *)
Definition anonymous_clean (sess : gmap string json) : Prop :=
  sess !! SESSION_KEY = None → sess !! MFA_SESSION_KEY = None ∧ sess !! PAM_SESSION_STARTED_AT = None.

Section facts.
Context {PF : Platform} {LE : LicenseEnv} {OE : OutboundEnv} {SE : SignInEnv}.

Lemma login_user r u : rq_user (login_session r u) = Authenticated u ∧ session_of (rq_session (login_session r u)) u.
Proof.
  split; [done|]. unfold session_of, login_session. cbn [rq_session]. simpl.
  rewrite !lookup_insert_ne by done. apply lookup_insert_eq.
Qed.

Lemma login_keeps r u k j :
  k ∉ [SESSION_KEY; BACKEND_SESSION_KEY; HASH_SESSION_KEY] → rq_session (login_session r u) !! k = Some j →
  rq_session r !! k = Some j ∧ (session_of (rq_session r) u ∨ rq_session r !! SESSION_KEY = None).
Proof.
  rewrite !not_elem_of_cons. intros (H1 & H2 & H3 & _). unfold login_session, session_of. simpl.
  rewrite !lookup_insert_ne by done. destruct (rq_session r !! SESSION_KEY) as [k0|] eqn:E; [|by auto].
  destruct (bool_decide_reflect (k0 ≠ JStr (str_user_pk (pk u)))) as [|Hk]; cbn [orb]; [by rewrite lookup_empty|].
  apply dec_stable in Hk as ->. case_match; [by rewrite lookup_empty|]. auto.
Qed.

(** Signing in on a session that was not this user's starts a new visit. *)
Lemma login_fresh r u k :
  anonymous_clean (rq_session r) → ¬ session_of (rq_session r) u → k ∈ [MFA_SESSION_KEY; PAM_SESSION_STARTED_AT] →
  rq_session (login_session r u) !! k = None.
Proof.
  intros Hc Hn Hk. destruct (rq_session (login_session r u) !! k) as [j|] eqn:E; [|done]. exfalso.
  apply login_keeps in E as [E [|Ha]]; [done| |].
  - destruct (Hc Ha) as [Hm Hs]. rewrite !elem_of_cons in Hk. destruct Hk as [->|[->|Hk]]; [congruence..|by apply elem_of_nil in Hk].
  - rewrite !elem_of_cons in Hk. destruct Hk as [->|[->|Hk]]; [by apply (bool_decide_unpack _)..|by apply elem_of_nil in Hk].
Qed.

Lemma exists_row_update {A} (f : obj A → bool) (t : gmap id A) k v v' :
  t !! k = Some v → f (Obj k v') = f (Obj k v) → exists_row f (<[k := v']> t) = exists_row f t.
Proof.
  intros Hk Hf. apply eq_true_iff_eq. rewrite !exists_row_true. split; intros ([k0 v0] & H0 & Ht); simpl in H0.
  - apply lookup_insert_Some in H0 as [[<- <-]|[? ?]]; [exists (Obj k v); by rewrite <- Hf|by exists (Obj k0 v0)].
  - destruct (decide (k0 = k)) as [->|Hne].
    + exists (Obj k v'). simpl. rewrite lookup_insert_eq, Hf. by replace v with v0 by congruence.
    + exists (Obj k0 v0). simpl. by rewrite lookup_insert_ne.
Qed.

(** The sign-in was within the licence: a valid licence that limits the active users
    to [n] leaves room for this one. *)
Definition within_licence (u : obj user) (w : world) : Prop :=
  ∀ status w' n, get_license_status w = (Ok status, w') → ls_valid status = true → ls_max_users status = JInt n →
    count_rows (λ o, u_is_active (val o) && bool_decide (Some (pk o) ≠ Some (pk u))) (users (w_db w)) < n.

Lemma login_session_of r u w r' w' : login r u w = (Ok r', w') → r' = login_session r u ∧ w_db w' = w_db w.
Proof.
  unfold login, update_last_login. intros H. apply bind_ok_inv in H as ([] & w1 & Hl & H). injection H as <- <-.
  split; [done|]. exact (proj1 (quiet_run _ _ _ _ (active_limit_quiet _ _) Hl)).
Qed.

Lemma login_inv r u w r' w' :
  login r u w = (Ok r', w') → u_is_active (val u) = true →
  r' = login_session r u ∧ w_db w' = w_db w ∧ within_licence u w.
Proof.
  intros H Ha. pose proof (login_session_of _ _ _ _ _ H) as [-> Hw]. do 2 (split; [done|]).
  unfold login, update_last_login in H. apply bind_ok_inv in H as ([] & w1 & Hl & _).
  intros status w2 n Hs Hv Hn. destruct (quiet_run _ _ _ _ license_status_quiet Hs) as [Hd _].
  unfold enforce_active_user_limit in Hl. rewrite (bind_ok _ _ _ _ _ Hs), Hv, Hn, Ha in Hl.
  cbn [negb orb is_none] in Hl. rewrite run_asks in Hl. cbv beta in Hl. rewrite Hd in Hl.
  unfold reaches, raise_if, mbind, M_bind, of_outcome in Hl.
  destruct (n <=? _) eqn:E; [discriminate Hl|]. by apply Z.leb_gt in E.
Qed.

Definition enrolment (u : id) (b : bool) (e : gmap id audit_event) (d : db) : Prop :=
  mfa_enrolled d u = b ∧ audit_events d = e.

Lemma accept_keeps_enrolment u b e k c t1 t2 : preserves (enrolment u b e) (save_fields mfa_devices k (accept_counter c t1 t2)).
Proof.
  apply preserves_save. intros d v Hv [Hb He]. split; [|exact He]. unfold mfa_enrolled in *. simpl.
  by erewrite exists_row_update.
Qed.
#[local] Hint Resolve accept_keeps_enrolment matching_quiet decrypt_quiet : pam.

Lemma verify_keeps_enrolment u token b e : preserves (enrolment u b e) (verify_user_mfa u token).
Proof.
  unfold verify_user_mfa, verify_user_totp, consume_recovery_code, device_secret. solve_preserves.
  by apply preserves_save.
Qed.

Lemma authenticate_password_inv username password w u w' :
  authenticate_password username password w = (Ok (Some u), w') →
  w' = w ∧ users (w_db w) !! pk u = Some (val u) ∧ u_username (val u) = username ∧ u_is_active (val u) = true ∧
  check_password password (u_password (val u)) = true.
Proof.
  unfold authenticate_password. intros H. rewrite run_asks in H. cbv beta in H.
  destruct (head _) as [o|] eqn:E; [|discriminate H]. apply head_Some_elem_of, elem_of_objects_filter in E as [Hu Hn].
  apply bool_decide_eq_true in Hn. destruct (_ && _) eqn:Ec; [|discriminate H]. injection H as <- <-.
  apply andb_true_iff in Ec as [??]. done.
Qed.

(** The form accepted a user on this world. *)
Definition accepted_by_form (POST : querydict) (w : world) (u : obj user) : Prop :=
  (∃ username password, char_field POST "username" true None = Some username ∧ raw_char_field POST "password" = Some password ∧
     u_username (val u) = username ∧ check_password password (u_password (val u)) = true) ∧
  users (w_db w) !! pk u = Some (val u) ∧ u_is_active (val u) = true ∧
  (mfa_enrolled (w_db w) (pk u) = true →
   ∃ otp w1, char_field POST "otp_token" false None = Some otp ∧ verify_user_mfa (pk u) otp w = (Ok true, w1)).

Lemma form_inv POST w u w' :
  PAMOliveAuthenticationForm POST w = (Ok (Some u), w') →
  accepted_by_form POST w u ∧ mfa_enrolled (w_db w') (pk u) = mfa_enrolled (w_db w) (pk u) ∧
  audit_events (w_db w') = audit_events (w_db w).
Proof.
  unfold PAMOliveAuthenticationForm, accepted_by_form. intros H. apply bind_ok_inv in H as (found & w1 & Hf & H).
  destruct (char_field POST "username" true None) as [username|]; [|by injection Hf as <- <-; discriminate H].
  destruct (raw_char_field POST "password") as [password|]; [|by injection Hf as <- <-; discriminate H].
  destruct found as [u0|]; [|discriminate H]. apply authenticate_password_inv in Hf as (-> & Hu & Hn & Ha & Hc).
  rewrite run_asks in H. cbv beta in H. apply bind_ok_inv in H as (ok & w2 & Hv & H).
  destruct ok; cbn [andb] in H; [|discriminate H].
  destruct (char_field POST "otp_token" false None) as [otp|]; cbn in H; [|discriminate H]. injection H as <- <-.
  destruct (mfa_enrolled (w_db w) (pk u0)) eqn:Em.
  - pose proof (verify_keeps_enrolment (pk u0) otp true (audit_events (w_db w)) w (conj Em eq_refl)) as Hk.
    change (default "" (Some otp)) with otp in Hv. rewrite Hv in Hk. split; [|exact Hk]. split_and!; try done; [by exists username, password|].
    intros _. by exists otp, w2.
  - injection Hv as <-. split; [|done]. split_and!; try done. by exists username, password.
Qed.

Lemma form_keeps_events POST e : preserves (λ d, audit_events d = e) (PAMOliveAuthenticationForm POST).
Proof.
  intros w He. unfold PAMOliveAuthenticationForm.
  assert (∀ u token, audit_events (w_db (verify_user_mfa u token w).2) = e) as Hv.
  { intros u token. by destruct (verify_keeps_enrolment u token _ e w (conj eq_refl He)). }
  destruct (char_field POST "username" true None) as [username|]; [|exact He].
  destruct (raw_char_field POST "password") as [password|]; [|exact He].
  unfold authenticate_password. unfold mbind, M_bind. cbn [asks mret M_ret].
  destruct (head _) as [o|]; [|exact He]. destruct (_ && _); [|exact He]. cbn.
  destruct (mfa_enrolled (w_db w) (pk o)); [|exact He].
  specialize (Hv (pk o) (default "" (char_field POST "otp_token" false None))).
  by destruct (verify_user_mfa _ _ w) as [[]].
Qed.

Lemma mark_if_inv (b : bool) r w r' w' :
  (if b then mark_mfa_verified r None else mret r) w = (Ok r', w') →
  audit_events (w_db w') = audit_events (w_db w) ∧ rq_user r' = rq_user r ∧
  (∀ k, k ≠ MFA_SESSION_KEY → rq_session r' !! k = rq_session r !! k) ∧ (b = false → r' = r).
Proof.
  destruct b; intros H; [|by injection H as <- <-]. unfold mark_mfa_verified, time_time in H. run_inv H.
  run_inv R. split_and!; [done..| |done]. intros k Hk. unfold set_session. simpl. by rewrite lookup_insert_ne.
Qed.

(** A refused sign-in is on the trail, with no actor and the name that was tried. *)
Definition failure_logged (POST : querydict) (d d' : db) : Prop :=
  ∃ k e, audit_events d !! k = None ∧ audit_events d' !! k = Some e ∧ e_actor e = None ∧
    e_action e = "authentication.password.failed" ∧
    e_metadata e = [("username", JStr (slice_to 150 (default "" (qget POST "username"))))].

(** The view cannot finish a sign-in the form accepted: the licence refuses the save of
    the account, or its event cannot be recorded. *)
Definition sign_in_stopped (u : obj user) (w : world) (e : exn) : Prop :=
  (∃ w1, enforce_active_user_limit (Some (pk u)) (val u) w = (Raise e, w1)) ∨
  (∃ ip w1 w2, record_event (Some (pk u)) "authentication.password.succeeded" (user_resource u) []
     ip w1 = (Raise e, w2)).

Lemma form_valid_inv u next r w :
  u_is_active (val u) = true →
  match form_valid u next r w with
  | (Ok (response, r'), w') =>
      within_licence u w ∧ response = RedirectUrl (success_url next) ∧ rq_user r' = Authenticated u ∧
      logged (w_db w) (w_db w') (pk u) "authentication.password.succeeded" (user_resource u) ∧
      (∀ k, k ≠ MFA_SESSION_KEY → rq_session r' !! k = rq_session (login_session r u) !! k) ∧
      (mfa_enrolled (w_db w) (pk u) = false → r' = login_session r u)
  | (Raise e, w') => audit_events (w_db w') = audit_events (w_db w) ∧ sign_in_stopped u w e
  end.
Proof.
  intros Ha. unfold form_valid. destruct (login r u w) as [[r0|e] w0] eqn:El.
  - rewrite (bind_ok _ _ _ _ _ El), run_asks. cbv beta. apply login_inv in El as (-> & Hd & Hl); [|done]. rewrite Hd.
    destruct ((if mfa_enrolled (w_db w) (pk u) then mark_mfa_verified (login_session r u) None else mret (login_session r u)) w0)
      as [[r1|e] w1] eqn:Er.
    + rewrite (bind_ok _ _ _ _ _ Er). apply mark_if_inv in Er as (Haud & Hru & Hk & Hoff). rewrite Hd in Haud.
      destruct (record_event (Some (pk u)) "authentication.password.succeeded" (user_resource u) [] (request_client_ip (rq_meta r1)) w1)
        as [[ev|e] w2] eqn:Ev.
      * rewrite (bind_ok _ _ _ _ _ Ev). apply record_event_logged in Ev as [Hlog _]. split_and!; try done.
        unfold logged in *. by rewrite <- Haud.
      * rewrite (bind_raise _ _ _ _ _ Ev). rewrite (record_event_raise_db _ _ _ _ _ _ _ _ Ev). split; [done|right; eauto].
    + by destruct (mfa_enrolled _ _).
  - rewrite (bind_raise _ _ _ _ _ El). unfold login, update_last_login in El.
    destruct (enforce_active_user_limit (Some (pk u)) (val u) w) as [[[]|e1] w1] eqn:Ee; [by rewrite (bind_ok _ _ _ _ _ Ee) in El|].
    rewrite (bind_raise _ _ _ _ _ Ee) in El. injection El as -> ->.
    split; [by rewrite (proj1 (quiet_run _ _ _ _ (active_limit_quiet _ _) Ee))|left; eauto].
Qed.

Lemma form_invalid_inv POST r w :
  match form_invalid POST r w with
  | (Ok (response, r'), w') =>
      r' = r ∧ (∃ context, response = Rendered "registration/login.html" 200 context) ∧ failure_logged POST (w_db w) (w_db w')
  | (Raise e, w') => audit_events (w_db w') = audit_events (w_db w)
  end.
Proof.
  unfold form_invalid, get_chain_state, mbind, M_bind. destruct (audit_state _); [|done].
  destruct (record_event None "authentication.password.failed" chain_resource
    [("username", JStr (slice_to 150 (default "" (qget POST "username"))))] (request_client_ip (rq_meta r)) w) as [[ev|e] w1] eqn:Ev;
    [|by rewrite (record_event_raise_db _ _ _ _ _ _ _ _ Ev)].
  simpl. apply record_event_ok_inv in Ev as (st & sig & _ & Ho & _ & _ & Hn & _ & _ & Hins & _).
  split; [done|]. split; [by eexists|]. exists (pk ev), (val ev). by rewrite Hins, lookup_insert_eq, Ho.
Qed.

(** C29: A password opens a session for its own account only.  The session of the request
    is one Django made: without a user, it holds neither a second factor nor the start
    of a visit.  A submitted login form has one of three outcomes.  It signs in the
    active account of that name, whose password was given and, if it has a confirmed
    device, whose one-time or recovery code was accepted, within the number of active
    users a valid licence allows; the sign-in is on the trail, the session names that
    account, and unless it already did, it starts a new visit and holds a second-factor
    time stamp only if a factor was verified now.  Or it leaves the session as it was,
    shows the form again and records the attempt.  Or an exception escapes the view, so
    no session is opened, and nothing is added to the trail; if the form had accepted
    an account, either the licence limit tested when the sign-in saves the account
    raised it, or the event of the sign-in could not be recorded. *)
Theorem password_sign_in_exact POST next r w :
  rq_method r = "POST" → anonymous_clean (rq_session r) →
  match PAMOliveLoginView POST next r w with
  | (Ok (response, r'), w') =>
      (∃ u, accepted_by_form POST w u ∧
         (∃ w1, PAMOliveAuthenticationForm POST w = (Ok (Some u), w1) ∧ within_licence u w1) ∧
         response = RedirectUrl (success_url next) ∧ rq_user r' = Authenticated u ∧ session_of (rq_session r') u ∧
         logged (w_db w) (w_db w') (pk u) "authentication.password.succeeded" (user_resource u) ∧
         (¬ session_of (rq_session r) u →
          rq_session r' !! PAM_SESSION_STARTED_AT = None ∧
          (is_Some (rq_session r' !! MFA_SESSION_KEY) → mfa_enrolled (w_db w) (pk u) = true))) ∨
      (r' = r ∧ (∃ context, response = Rendered "registration/login.html" 200 context) ∧
       failure_logged POST (w_db w) (w_db w'))
  | (Raise e, w') =>
      audit_events (w_db w') = audit_events (w_db w) ∧
      ∀ u w1, PAMOliveAuthenticationForm POST w = (Ok (Some u), w1) → sign_in_stopped u w1 e
  end.
Proof.
  intros Hm Hclean. unfold PAMOliveLoginView. rewrite Hm, decide_True by (by apply (bool_decide_unpack _)).
  pose proof (form_keeps_events POST _ w eq_refl) as He.
  destruct (PAMOliveAuthenticationForm POST w) as [[[u|]|e] w1] eqn:Hf; cbn in He.
  - rewrite (bind_ok _ _ _ _ _ Hf). pose proof (form_inv _ _ _ _ Hf) as (Ha & Hen & _).
    pose proof (form_valid_inv u next r w1 ltac:(apply Ha)) as H.
    destruct (form_valid u next r w1) as [[[response r']|e] w2];
      [|rewrite He in H; destruct H as [Haud Hstop]; split; [exact Haud|by intros ? ? [= <- <-]]].
    destruct H as (Hl & -> & Hu & Hlog & Hk & Hoff). destruct (login_user r u) as [_ Hs]. left. exists u.
    split; [done|]. split; [eauto|]. do 2 (split; [done|]).
    split; [unfold session_of; by rewrite Hk|]. split; [unfold logged in *; by rewrite <- He|].
    intros Hn. split; [rewrite Hk by done; apply login_fresh; [done..|right; left]|].
    intros [j Hj]. rewrite Hen in Hoff. destruct (mfa_enrolled _ _); [done|]. exfalso. rewrite Hoff in Hj by done.
    by rewrite login_fresh in Hj; [|..|left].
  - rewrite (bind_ok _ _ _ _ _ Hf). pose proof (form_invalid_inv POST r w1) as H.
    destruct (form_invalid POST r w1) as [[[response r']|e] w2]; [|by rewrite He in H].
    destruct H as (-> & Hc & Hlog). right. unfold failure_logged in *. by rewrite <- He.
  - rewrite (bind_raise _ _ _ _ _ Hf). by split.
Qed.

Lemma oidc_source_inv slug w source w' :
  oidc_source slug w = (Ok source, w') →
  w' = w ∧ identity_sources (w_db w) !! pk source = Some (val source) ∧ is_slug (val source) = slug ∧
  is_kind (val source) = "oidc" ∧ is_enabled (val source) = true.
Proof.
  unfold oidc_source. intros H. rewrite run_asks in H. cbv beta in H. destruct (head _) as [o|] eqn:E; [|discriminate H].
  injection H as <- <-. apply head_Some_elem_of, elem_of_objects_filter in E as [Ho Hf].
  apply andb_true_iff in Hf as [[Hs%bool_decide_eq_true Hk%bool_decide_eq_true]%andb_true_iff He]. done.
Qed.

Lemma client_quiet source : quiet (oidc_client_for source).
Proof.
  unfold oidc_client_for, get_identity_source_configuration, validate_identity_source_configuration, check_ldap, check_oidc.
  solve_quiet; apply decrypt_quiet.
Qed.

Lemma oidc_user_inv source r w user w' :
  oidc_user source r w = (Ok user, w') →
  ∃ configuration token claims w0, authorize_access_token configuration r = Ok token ∧
    token_claims configuration token = Ok claims ∧ w_db w0 = w_db w ∧ provision_oidc_identity source claims w0 = (Ok user, w').
Proof.
  unfold oidc_user. intros H. apply bind_ok_inv in H as (configuration & w0 & Hc & H).
  destruct (quiet_run _ _ _ _ (client_quiet source) Hc) as [Hd _]. run_inv H. by exists configuration, a, a0, w0.
Qed.

(** An OpenID Connect callback signs in the account the provider vouches for.  The
    source is an enabled provider of that slug.  Either the claims of the provider's
    token were provisioned, the session names the account and the sign-in is on the
    trail; no second factor is asked, and unless the session was already the account's,
    it holds no second-factor time stamp and starts a new visit.  Or the sign-in failed,
    the session is as it was and the failure is on the trail. *)
Theorem oidc_callback_exact slug r w response r' w' :
  anonymous_clean (rq_session r) → oidc_callback slug r w = (Ok (response, r'), w') →
  ∃ source, identity_sources (w_db w) !! pk source = Some (val source) ∧ is_slug (val source) = slug ∧
    is_kind (val source) = "oidc" ∧ is_enabled (val source) = true ∧
    ((response = RedirectTo "dashboard" [] ∧ ∃ configuration token claims w0 w1 u,
        authorize_access_token configuration r = Ok token ∧ token_claims configuration token = Ok claims ∧
        w_db w0 = w_db w ∧ provision_oidc_identity source claims w0 = (Ok (pk u), w1) ∧
        users (w_db w1) !! pk u = Some (val u) ∧ rq_user r' = Authenticated u ∧ session_of (rq_session r') u ∧
        logged (w_db w1) (w_db w') (pk u) "authentication.oidc.succeeded" (source_resource (pk source)) ∧
        (¬ session_of (rq_session r) u →
         rq_session r' !! PAM_SESSION_STARTED_AT = None ∧ rq_session r' !! MFA_SESSION_KEY = None)) ∨
     (response = RedirectTo "login" [] ∧ r' = r ∧ ∃ e error_type w1 k ev, oidc_user source r w = (Raise e, w1) ∧
        oidc_failure e = Some error_type ∧ audit_events (w_db w1) !! k = None ∧ audit_events (w_db w') !! k = Some ev ∧
        e_action ev = "authentication.oidc.failed" ∧ e_metadata ev = [("error_type", JStr error_type)])).
Proof.
  intros Hclean H. unfold oidc_callback in H. apply bind_ok_inv in H as (source & w0 & Hs & H).
  apply oidc_source_inv in Hs as (-> & Hrow & Hslug & Hkind & Hen). exists source. do 4 (split; [done|]).
  apply bind_ok_inv in H as (result & w1 & Ht & H). unfold try_except in Ht.
  destruct ((user ← oidc_user source r; mret (inl user)) w) as [[x|e] wx] eqn:Eo.
  - injection Ht as <- <-. apply bind_ok_inv in Eo as (user & w2 & Hu & Eo). injection Eo as <- <-. left.
    apply bind_ok_inv in H as (u & w3 & Hget & H). unfold get_row in Hget.
    destruct (users (w_db w2) !! user) as [row|] eqn:Er; [|discriminate Hget]. injection Hget as <- <-.
    apply bind_ok_inv in H as (r1 & w5 & Hl & H).
    apply bind_ok_inv in H as (ev & w4 & Hev & H). injection H as <- <- <-. split; [done|].
    apply login_session_of in Hl as [-> Hdb].
    apply oidc_user_inv in Hu as (configuration & token & claims & w0 & Ha & Hc & Hd & Hp).
    exists configuration, token, claims, w0, w2, (Obj user row). apply record_event_logged in Hev as [Hlog _]. rewrite Hdb in Hlog.
    do 5 (split; [done|]). destruct (login_user r (Obj user row)) as [? ?]. do 3 (split; [done|]).
    intros Hn. split; apply login_fresh; try done; [right; left|left].
  - right. destruct (oidc_failure e) as [error_type|] eqn:Ef; [|discriminate Ht]. injection Ht as <- <-.
    apply bind_ok_inv in H as (ev & w4 & Hev & H). injection H as <- <- <-. split; [done|]. split; [done|].
    apply record_event_ok_inv in Hev as (st & sig & _ & Ho & _ & _ & Hn & _ & _ & Hins & _).
    exists e, error_type, wx, (pk ev), (val ev). rewrite Hins, lookup_insert_eq, Ho. split_and!; try done.
    unfold mbind, M_bind in Eo. destruct (oidc_user source r w) as [[]]; [discriminate Eo|]. by injection Eo as -> ->.
Qed.
End facts.

(** ** Concrete sign-ins *)

Section witnesses.
#[local] Existing Instance demo_platform.
#[local] Existing Instance demo_outbound.
#[local] Instance demo_edition : LicenseEnv := demo_env "community" "".

#[local] Instance demo_provider : SignInEnv := {|
  session_auth_hash p := "session:" +:+ p;
  allowed_next url := startswith "/" url;
  authorize_redirect configuration uri := Ok "https://siem.example.org/authorize";
  authorize_access_token configuration r := Ok [("userinfo", JObj (demo_claims ["Admins"]))];
  userinfo configuration token := Raise OAuthError;
|}.

Definition genesis (d : db) : db := d <| audit_state := Some (AuditChainState 0 "") |>.

Definition login_db : db := genesis (demo_mfa_db <| users := {[7%N := val demo_alice]} |>).
Definition login_request : http_request :=
  HttpRequest "POST" "/accounts/login/" "" false AnonymousUser ∅ None (RequestMeta None (Some "192.0.2.9")).
Definition login_form : querydict :=
  {["username" := [" alice "]; "password" := ["secret"]; "otp_token" := [demo_code demo_now]]}.

Definition demo_login (POST : querydict) (d : db) : outcome (response * http_request) * world :=
  PAMOliveLoginView POST None login_request (demo_world d).

Definition demo_login_done : outcome (response * http_request) * world := Eval vm_compute in demo_login login_form login_db.
Definition demo_login_request : http_request := Eval vm_compute in
  match demo_login_done.1 with Ok (_, r) => r | Raise _ => login_request end.

Example demo_login_session :
  rq_session demo_login_request !! SESSION_KEY = Some (JStr "7") ∧
  rq_session demo_login_request !! MFA_SESSION_KEY = Some (JInt (epoch demo_now)).
Proof. split; vm_compute; reflexivity. Qed.

Lemma demo_login_run : demo_login login_form login_db = (Ok (RedirectUrl "/", demo_login_request), demo_login_done.2).
Proof. vm_compute. reflexivity. Qed.

Lemma password_sign_in_exact_witness :
  ∃ u, accepted_by_form login_form (demo_world login_db) u ∧ rq_user demo_login_request = Authenticated u ∧
     session_of (rq_session demo_login_request) u ∧
     logged login_db (w_db demo_login_done.2) (pk u) "authentication.password.succeeded" (user_resource u).
Proof.
  pose proof (password_sign_in_exact login_form None login_request (demo_world login_db) eq_refl (λ _, conj eq_refl eq_refl)) as H.
  change (PAMOliveLoginView login_form None login_request (demo_world login_db)) with (demo_login login_form login_db) in H.
  rewrite demo_login_run in H. destruct H as [(u & Hu)|(_ & (context & H) & _)]; [|discriminate H].
  exists u. destruct Hu as (H1 & _ & _ & H2 & H3 & H4 & _). split; [exact H1|]. split; [exact H2|]. split; [exact H3|exact H4].
Defined.

(** Under a licence for one active user, a second account whose password is right
    cannot sign in: the limit raises out of the view, and the trail is as it was. *)
Definition crowded_db : db := login_db <| users ::= <[9%N := demo_user]> |>.

Lemma sign_in_over_limit :
  let '(out, w) := @PAMOliveLoginView _ demo_valid _ login_form None login_request (demo_world crowded_db) in
  out = Raise (ValidationError "L'édition business limite l'instance à 1 utilisateurs actifs.") ∧
  audit_events (w_db w) = audit_events crowded_db.
Proof. vm_compute. split; reflexivity. Qed.

(** A service account with a password signs in like any other, without a second
    factor. *)
Definition demo_service : user := User "backup" "backup@example.org" "Backup" true false true "system" "fr" "hash:secret".

Lemma service_account_signs_in :
  match demo_login {["username" := ["backup"]; "password" := ["secret"]]} (genesis (empty_db <| users := {[8%N := demo_service]} |>)) with
  | (Ok (answer, r), _) => answer = RedirectUrl "/" ∧ rq_user r = Authenticated (Obj 8%N demo_service)
  | (Raise _, _) => False
  end.
Proof. vm_compute. split; reflexivity. Qed.

Definition demo_oidc_row : identity_source :=
  val demo_source <| is_encrypted_configuration := "enc:" +:+ dumps (JObj [("issuer", JStr "https://siem.example.org");
    ("client_id", JStr "pam"); ("client_secret", JStr "s")]) |>.
Definition oidc_db : db := genesis (demo_identity_db <| identity_sources := {[60%N := demo_oidc_row]} |>).

Definition demo_oidc_done : outcome (response * http_request) * world := Eval vm_compute in
  oidc_callback "sso" login_request (demo_world oidc_db).
Definition demo_oidc_request : http_request := Eval vm_compute in
  match demo_oidc_done.1 with Ok (_, r) => r | Raise _ => login_request end.

Lemma demo_oidc_run :
  oidc_callback "sso" login_request (demo_world oidc_db) = (Ok (RedirectTo "dashboard" [], demo_oidc_request), demo_oidc_done.2).
Proof. vm_compute. reflexivity. Qed.

Lemma oidc_callback_exact_witness :
  ∃ u, rq_user demo_oidc_request = Authenticated u ∧ session_of (rq_session demo_oidc_request) u.
Proof.
  destruct (oidc_callback_exact "sso" login_request (demo_world oidc_db) _ _ _
    (λ _, conj eq_refl eq_refl : (∅ : gmap string json) !! MFA_SESSION_KEY = None ∧ (∅ : gmap string json) !! PAM_SESSION_STARTED_AT = None)
    demo_oidc_run) as (source & _ & _ & _ & _ & [[_ H]|[H _]]); [|discriminate H].
  destruct H as (configuration & token & claims & w0 & w1 & u & _ & _ & _ & _ & _ & Hu & Hs & _). exists u. split; [exact Hu|exact Hs].
Defined.
End witnesses.
