(* ===== verification/Endpoints.v ===== *)
(** * Operational endpoints and the terminal consumer

    The probes and metrics of [operations/views.py] behind the operations token, the
    websocket consumer of [sessions/consumers.py], and three small pieces of the request
    path: the response headers of [common/middleware.py], the language of
    [accounts/middleware.py] and the step-up helpers of [accounts/recent_mfa.py].

    The database cursor, the cache and the installed version are parameters. *)

From Stdlib Require Import String.
From S2P Require Import Prelude PyStr Json Loads Crypto PyTime Models World Text AuditTrail.
From S2P Require Import Ip Policies Mfa Accounts Sessions Broker Forms Recordings Rdp Gateway.

Local Open Scope Z_scope.

(** ** The operations token *)

Section operations.
Context {PF : Platform}.

(** [scheme, separator, provided = authorization.partition(" ")] *)
Definition _operations_authorized (authorization : string) : outcome bool :=
  let expected := PAMOLIVE_OPERATIONS_TOKEN conf in
  let '(scheme, separated, provided) := partition_char " " (chars authorization) in
  if bool_decide (expected = "") || negb separated || bool_decide (casefold (of_chars scheme) ≠ "bearer") then Ok false
  else match compare_digest (of_chars provided) expected with
       | Some same => Ok same
       | None => Raise (TypeError "comparing strings with non-ASCII characters is not supported")
       end.

(** ** Probes *)

Definition liveness : M response :=
  mret (JsonBody 200 [("status", JStr "ok"); ("service", JStr "pam-olive")]).

(** The answer to [SELECT 1] and the cache, each of which may fail. *)
Record probes := Probes {
  pr_select : outcome Z;
  pr_cache_set : string → outcome unit;
  pr_cache_get : string → outcome (option string);
  pr_cache_delete : string → outcome unit;
}.

Definition database_check (p : probes) : string :=
  match pr_select p with Ok 1 => "ok" | _ => "failed" end.

Definition cache_check (p : probes) (key : string) : string :=
  match pr_cache_set p key with
  | Raise _ => "failed"
  | Ok _ =>
      match pr_cache_get p key with
      | Ok (Some "ok") => match pr_cache_delete p key with Ok _ => "ok" | Raise _ => "failed" end
      | _ => "failed"
      end
  end.

Definition readiness (p : probes) : M response :=
  let database := database_check p in
  k ← uuid4;
  let cache := cache_check p ("pam-olive:readiness:" +:+ str_uuid k) in
  let ready := bool_decide (database = "ok") && bool_decide (cache = "ok") in
  mret (JsonBody (if ready then 200 else 503)
    [("status", JStr (if ready then "ready" else "not_ready"));
     ("checks", JObj [("database", JStr database); ("cache", JStr cache)])]).

Definition audit_integrity (authorization : string) : M response :=
  authorized ← of_outcome (_operations_authorized authorization);
  if negb authorized then mret (JsonBody 403 [("detail", JStr "Forbidden")])
  else
    verification ← verify_audit_chain;
    mret (JsonBody (if av_valid verification then 200 else 503)
      [("status", JStr (if av_valid verification then "ok" else "failed"));
       ("checked_events", JInt (av_checked_events verification));
       ("legacy_events", JInt (av_legacy_events verification));
       ("head_hash", JStr (av_head_hash verification));
       ("issue_count", JInt (Z.of_nat (length (av_issues verification))))]).

(** ** Metrics *)

Definition table_size {A} (t : gmap id A) : Z := count_rows (λ _, true) t.

Definition metric_values (d : db) (t : Z) (state : audit_chain_state) : list (string * Z) :=
  [("pam_olive_users_active", count_rows (λ o, u_is_active (val o)) (users d));
   ("pam_olive_access_requests_pending", count_rows (λ o, bool_decide (ar_status (val o) = RequestStatus.PENDING)) (access_requests d));
   ("pam_olive_sessions_active", count_rows (λ o, bool_decide (s_status (val o) = SessionStatus.ACTIVE)) (sessions d));
   ("pam_olive_sessions_terminating", count_rows (λ o, bool_decide (s_status (val o) = SessionStatus.TERMINATING)) (sessions d));
   ("pam_olive_credentials_rotation_due",
      count_rows (λ o, c_rotation_enabled (val o) && match c_next_rotation_at (val o) with Some n => n <=? t | None => false end)
        (credentials d));
   ("pam_olive_rotation_jobs_failed", count_rows (λ o, bool_decide (j_status (val o) = JobStatus.FAILED)) (rotation_jobs d));
   ("pam_olive_rotation_jobs_action_required",
      count_rows (λ o, bool_decide (j_status (val o) = JobStatus.ACTION_REQUIRED)) (rotation_jobs d));
   ("pam_olive_audit_events_total", table_size (audit_events d));
   ("pam_olive_audit_head_sequence", last_sequence state)].

(** [None]: the package is not installed. *)
Definition _project_version (installed : option string) : string := default "development" installed.

Definition metric_lines (m : string * Z) : list string :=
  ["# TYPE " +:+ m.1 +:+ " gauge"; m.1 +:+ " " +:+ str_int m.2].

Definition exposition (version : string) (values : list (string * Z)) : list string :=
  ["# HELP pam_olive_build_info PAM-olive build information."; "# TYPE pam_olive_build_info gauge";
   "pam_olive_build_info{version=" +:+ quoted version +:+ "} 1"] ++ mbind metric_lines values.

Definition metrics (installed : option string) (authorization : string) : M response :=
  authorized ← of_outcome (_operations_authorized authorization);
  if negb authorized then mret (FileBody 403 "text/plain" (code <$> chars ("Forbidden" +:+ line_feed)))
  else
    t ← now;
    state ← get_chain_state;
    values ← asks (λ d, metric_values d t state);
    mret (FileBody 200 "text/plain; version=0.0.4; charset=utf-8"
      (code <$> chars (join line_feed (exposition (_project_version installed) values) +:+ line_feed))).
End operations.

(** ** The terminal consumer *)

(** What a message makes the consumer do. *)
Record consumer_step := ConsumerStep {
  cs_authorized : option id;
  cs_frames : list json;
  cs_close : option Z;
}.

Section consumer.
Context {PF : Platform}.

Definition consumer_connect (user : principal) : consumer_step :=
  match user with
  | AnonymousUser => ConsumerStep None [] (Some 4401)
  | Authenticated _ => ConsumerStep None [status_frame "authorization_required"] None
  end.

Definition receive_json (session_id : id) (user : obj user) (client : option string) (authorized : option id)
    (content : list (string * json)) : M consumer_step :=
  match authorized with
  | Some s => mret (ConsumerStep (Some s) [error_frame "La passerelle de session n’est pas configurée."] None)
  | None =>
      if bool_decide (get_json content "type" ≠ JStr "authorize") || falsy content "ticket"
      then mret (ConsumerStep None [error_frame "Ticket de session requis."] (Some 4403))
      else
        token ← of_outcome (match get_json content "ticket" with JStr t => Ok t | _ => Raise (OtherError "AttributeError") end);
        session ← try_except (s ← consume_session_ticket session_id token (pk user) client; mret (Some s))
          (λ e, match e with PermissionDenied _ => Some (mret None) | _ => None end);
        match session with
        | None => mret (ConsumerStep None [error_frame "Autorisation de session refusée."] (Some 4403))
        | Some s =>
            close_session (pk s) (Some (pk user)) "gateway_not_configured" true ;;
            mret (ConsumerStep (Some (pk s))
              [JObj [("type", JStr "status"); ("state", JStr "gateway_not_configured"); ("session_id", JStr (str_uuid (pk s)))]]
              (Some 1013))
        end
  end.
End consumer.

(** ** Headers, language, step-up *)

Definition PRODUCT_CSP : string :=
  join "; " ["default-src 'self'"; "base-uri 'self'"; "connect-src 'self' ws: wss:"; "font-src 'self'"; "form-action 'self'";
             "frame-ancestors 'none'"; "img-src 'self' data:"; "object-src 'none'"; "script-src 'self'"; "style-src 'self'"].

(** [text.replace(old, new)] for a non-empty [old]: [skip] characters of a match are
    still to be dropped. *)
Fixpoint replace_chars (old new : list ascii) (skip : nat) (l : list ascii) : list ascii :=
  match l with
  | [] => []
  | c :: l' =>
      match skip with
      | S k => replace_chars old new k l'
      | O => match strip_chars_prefix old l with
             | Some _ => new ++ replace_chars old new (length old - 1) l'
             | None => c :: replace_chars old new 0 l'
             end
      end
  end.

Definition replace (old new text : string) : string := of_chars (replace_chars (chars old) (chars new) 0 (chars text)).

Definition TECHNICAL_ADMIN_CSP : string :=
  replace "style-src 'self'" "style-src 'self' 'unsafe-inline'"
    (replace "script-src 'self'" "script-src 'self' 'unsafe-inline'" PRODUCT_CSP).

(** [SecurityHeadersMiddleware]: the headers set on the response to a path. *)
Definition security_headers (path : string) : list (string * string) :=
  [("Content-Security-Policy", if startswith "/django-admin/" path then TECHNICAL_ADMIN_CSP else PRODUCT_CSP);
   ("Permissions-Policy", "camera=(), microphone=(), geolocation=(), payment=(), usb=()");
   ("Cross-Origin-Opener-Policy", "same-origin");
   ("Cross-Origin-Resource-Policy", "same-origin");
   ("Referrer-Policy", "same-origin")].

(** [UserLanguageMiddleware] *)
Definition request_language (r : http_request) : json :=
  match rq_user r with
  | Authenticated u => JStr (u_preferred_language (val u))
  | AnonymousUser => default (JStr "fr") (rq_session r !! "preferred_language")
  end.

Section step_up.
Context {PF : Platform}.

(** [accounts/recent_mfa.py]; [isinstance(True, int)] holds. *)
Definition has_recent_mfa (r : http_request) : M bool :=
  if PAMOLIVE_TEST_BYPASS_GLOBAL_MFA conf then mret true
  else
    let verified_at := match rq_session r !! MFA_SESSION_KEY with
                       | Some (JInt z) => Some z | Some (JBool b) => Some (Z.b2z b) | _ => None end in
    match verified_at with
    | None => mret false
    | Some verified_at =>
        t ← time_time;
        let age := t - verified_at in
        mret ((0 <=? age) && (age <=? PAMOLIVE_MFA_STEP_UP_MAX_AGE_SECONDS conf))
    end.

Definition verify_mfa_step_up (r : http_request) (u : obj user) (token : string) : M (bool * http_request) :=
  ok ← verify_user_mfa (pk u) token;
  if ok : bool then
    t ← time_time;
    mret (true, set_session MFA_SESSION_KEY (JInt t) r)
  else mret (false, r).
End step_up.

(** ** Facts *)

Definition response_status (r : response) : Z :=
  match r with JsonBody s _ | JsonDetail s _ _ | Rendered _ s _ | FileBody s _ _ => s | _ => 200 end.

(** Pages outside the technical administration accept no inline script or style. *)
Lemma product_pages_refuse_inline path :
  startswith "/django-admin/" path = false →
  ∃ csp, head (security_headers path) = Some ("Content-Security-Policy", csp) ∧ contains "unsafe-inline" csp = false ∧
         contains "frame-ancestors 'none'" csp = true.
Proof. intros H. exists PRODUCT_CSP. unfold security_headers. rewrite H. by split_and!; vm_compute. Qed.

Section operations_facts.
Context {PF : Platform}.

Lemma authorized_inv authorization :
  _operations_authorized authorization = Ok true →
  PAMOLIVE_OPERATIONS_TOKEN conf ≠ "" ∧
  ∃ scheme, authorization = scheme +:+ " " +:+ PAMOLIVE_OPERATIONS_TOKEN conf ∧ casefold scheme = "bearer".
Proof.
  unfold _operations_authorized. destruct (partition_char _ _) as [[scheme sep] provided] eqn:Ep.
  destruct (_ || _) eqn:Eg; [done|]. apply orb_false_iff in Eg as [[He Hs]%orb_false_iff Hb].
  apply bool_decide_eq_false in He. apply negb_false_iff in Hs as ->. apply bool_decide_eq_false, dec_stable in Hb.
  unfold compare_digest. destruct (_ && _); [|done]. intros [= Hc%bool_decide_eq_true]. split; [done|].
  exists (of_chars scheme). split; [|done]. apply partition_char_true in Ep.
  rewrite <- (of_chars_chars authorization), Ep, <- Hc.
  rewrite <- (of_chars_chars (of_chars scheme +:+ _)). f_equal. rewrite !chars_app, !chars_of_chars. done.
Qed.

(** The operational endpoints answer to the token only.  The integrity report and the
    metrics are refused, and read nothing, unless an operations token is configured and
    the request carries exactly it under the scheme [Bearer]; no token is configured by
    default, and then every request is refused. *)
Theorem operations_need_token installed authorization w answer w' :
  (audit_integrity authorization w = (Ok answer, w') ∨ metrics installed authorization w = (Ok answer, w')) →
  (response_status answer = 403 ∧ w' = w) ∨
  (PAMOLIVE_OPERATIONS_TOKEN conf ≠ "" ∧
   ∃ scheme, authorization = scheme +:+ " " +:+ PAMOLIVE_OPERATIONS_TOKEN conf ∧ casefold scheme = "bearer").
Proof.
  intros H. destruct (_operations_authorized authorization) as [[]|e] eqn:Ea.
  - right. by apply authorized_inv.
  - left. unfold audit_integrity, metrics in H. rewrite Ea in H. by destruct H as [[= <- <-]|[= <- <-]].
  - unfold audit_integrity, metrics in H. rewrite Ea in H. by destruct H.
Qed.

(** The integrity probe tells the truth: for an authorised request it says ok, with
    status 200, exactly when the verification of the chain finds nothing. *)
Lemma integrity_probe_exact authorization w v w' :
  _operations_authorized authorization = Ok true → verify_audit_chain w = (Ok v, w') →
  ∃ body, audit_integrity authorization w = (Ok (JsonBody (if av_valid v then 200 else 503) body), w') ∧
    dict_get "issue_count" body = Some (JInt (Z.of_nat (length (av_issues v)))).
Proof.
  intros Ha Hv. unfold audit_integrity. rewrite Ha. change (of_outcome (Ok true) w) with (Ok true, w).
  unfold mbind at 1, M_bind at 1. cbn [of_outcome negb]. rewrite (bind_ok _ _ _ _ _ Hv). eexists. split; reflexivity.
Qed.

(** Readiness never fails to answer, and says ready exactly when both stores answered
    as expected. *)
Theorem readiness_exact p w :
  let key := "pam-olive:readiness:" +:+ str_uuid (draw_uuid4 (w_draws w)) in
  ∃ body w', readiness p w = (Ok body, w') ∧ w_db w' = w_db w ∧
    (response_status body = 200 ↔
     pr_select p = Ok 1 ∧ pr_cache_set p key = Ok tt ∧ pr_cache_get p key = Ok (Some "ok") ∧ pr_cache_delete p key = Ok tt) ∧
    (response_status body = 200 ∨ response_status body = 503).
Proof.
  intros key. unfold readiness. run. do 2 eexists. split; [reflexivity|]. split; [reflexivity|]. fold key.
  assert (bool_decide (database_check p = "ok") = true ↔ pr_select p = Ok 1) as Hd.
  { unfold database_check. destruct (pr_select p) as [z|]; [|done]. destruct (decide (z = 1)) as [->|Hz]; [done|].
    split; [|congruence]. destruct z as [|[]|]; done. }
  assert (bool_decide (cache_check p key = "ok") = true ↔
    pr_cache_set p key = Ok tt ∧ pr_cache_get p key = Ok (Some "ok") ∧ pr_cache_delete p key = Ok tt) as Hc.
  { unfold cache_check. destruct (pr_cache_set p key) as [[]|]; [|by split; [|intros []]].
    destruct (pr_cache_get p key) as [[s|]|]; [|by split; [|intros (_ & ? & _)]..].
    destruct (decide (s = "ok")) as [->|Hs].
    - by destruct (pr_cache_delete p key) as [[]|]; [|split; [|intros (_ & _ & ?)]].
    - split; [|intros (_ & [= ->] & _); done]. intros Hb. exfalso. revert Hb. repeat case_match; simplify_eq; done. }
  cbn [response_status]. rewrite <- Hd, <- Hc. clear.
  destruct (bool_decide (database_check p = "ok")), (bool_decide (cache_check p key = "ok")); cbn [andb];
    (split; [split; [try done|by intros []]|auto]).
Qed.
End operations_facts.

(** ** Reading the metrics back *)

(** A sample of the text exposition format: [name value]; other lines are comments. *)
Definition read_sample (line : list ascii) : option (string * Z) :=
  match line with
  | "#"%char :: _ => None
  | _ => let '(name, sep, value) := partition_char " " line in
         if sep : bool then (λ v, (of_chars name, v)) <$> py_int (of_chars value) else None
  end.

Definition read_exposition (content : list Z) : list (string * Z) :=
  omap read_sample (split_char (chr 10) (chr <$> content)).

Definition sample_name (s : string) : Prop :=
  ((" "%char) ∉ chars s) ∧ (chr 10 ∉ chars s) ∧ head (chars s) ≠ Some "#"%char.

Lemma partition_char_app c h t : c ∉ h → partition_char c (h ++ c :: t) = (h, true, t).
Proof.
  induction h as [|x h IH]; intros Hc; simpl; [by rewrite bool_decide_true|].
  rewrite not_elem_of_cons in Hc. destruct Hc as [Hx Hc]. rewrite bool_decide_false by done. by rewrite IH.
Qed.

Lemma str_int_all_digits z : 0 <= z → forallb is_ascii_digit (chars (str_int z)) = true.
Proof.
  intros Hz. assert (∃ n : N, str_int z = pretty n) as (n & ->).
  { exists (Z.to_N z). destruct z as [|p|p]; try lia; done. }
  apply pretty_digits.
Qed.

Lemma str_int_no_char z c : 0 <= z → is_ascii_digit c = false → c ∉ chars (str_int z).
Proof. intros Hz Hc Hin. pose proof (proj1 (forallb_elem _ _) (str_int_all_digits z Hz) c Hin). congruence. Qed.

Lemma read_sample_line name z : sample_name name → 0 <= z → read_sample (chars (name +:+ " " +:+ str_int z)) = Some (name, z).
Proof.
  intros (Hs & Hn & Hh) Hz. rewrite !chars_app. change (chars " " ++ chars (str_int z)) with (" "%char :: chars (str_int z)).
  assert (read_sample (chars name ++ " "%char :: chars (str_int z))
    = (let '(name, sep, value) := partition_char " " (chars name ++ " "%char :: chars (str_int z)) in
       if sep : bool then (λ v, (of_chars name, v)) <$> py_int (of_chars value) else None)) as ->.
  { destruct (chars name) as [|c l]; [done|]. simpl in Hh. unfold read_sample. simpl.
    destruct (decide (c = "#"%char)) as [->|Hc]; [done|]. destruct c as [[] [] [] [] [] [] [] []]; done. }
  rewrite partition_char_app by done. rewrite !of_chars_chars, py_int_str_int by done. done.
Qed.

Lemma read_comment line : read_sample (chars ("# " +:+ line)) = None.
Proof. done. Qed.

(** The lines of a text that ends each of them with a line feed. *)
Lemma split_joined lines :
  lines ≠ [] → Forall (λ l, chr 10 ∉ chars l) lines →
  split_char (chr 10) (chars (join line_feed lines +:+ line_feed)) = (chars <$> lines) ++ [[]].
Proof.
  intros Hne H. induction lines as [|x lines IH]; [done|]. apply Forall_cons in H as [Hx H].
  destruct lines as [|y lines].
  - simpl. rewrite chars_app. change (chars line_feed) with [chr 10]. by rewrite split_char_line.
  - change (join line_feed (x :: y :: lines)) with (x +:+ line_feed +:+ join line_feed (y :: lines)).
    rewrite !string_app_assoc, chars_app, chars_app. change (chars line_feed) with [chr 10]. cbn [app].
    rewrite split_char_line by done. rewrite IH by done. done.
Qed.

Lemma metric_lines_read values :
  Forall (λ m, sample_name m.1 ∧ 0 <= m.2) values → omap read_sample (chars <$> mbind metric_lines values) = values.
Proof.
  induction 1 as [|[name z] values [Hn Hz] _ IH]; [done|].
  change (mbind metric_lines ((name, z) :: values)) with (metric_lines (name, z) ++ mbind metric_lines values).
  rewrite fmap_app, omap_app, IH. unfold metric_lines. cbn [fmap list_fmap fst snd].
  change (chars ("# TYPE " +:+ name +:+ " gauge")) with (chars ("# " +:+ ("TYPE " +:+ name +:+ " gauge"))).
  cbn [omap list_omap]. by rewrite read_comment, read_sample_line.
Qed.

Lemma metric_lines_one_line values :
  Forall (λ m, sample_name m.1 ∧ 0 <= m.2) values → Forall (λ l, chr 10 ∉ chars l) (mbind metric_lines values).
Proof.
  induction 1 as [|[name z] values [(Hs & Hn & _) Hz] _ IH]; [constructor|].
  change (mbind metric_lines ((name, z) :: values)) with (metric_lines (name, z) ++ mbind metric_lines values).
  apply Forall_app. split; [|exact IH]. unfold metric_lines. cbn [fst snd].
  assert (∀ s, bool_decide (chr 10 ∈ chars s) = false → chr 10 ∉ chars s) as Hc by (intros s; apply bool_decide_eq_false).
  repeat constructor; rewrite !chars_app, !not_elem_of_app; split_and!; try done; try (apply Hc; vm_compute; reflexivity).
  apply str_int_no_char; [done|reflexivity].
Qed.

Definition build_info (version : string) : string := "pam_olive_build_info{version=" +:+ quoted version +:+ "}".

Lemma build_info_name version : (" "%char) ∉ chars version → chr 10 ∉ chars version → sample_name (build_info version).
Proof.
  intros Hs Hn. unfold build_info, quoted, sample_name. rewrite !chars_app, chars_of_chars.
  split_and!; [| |done].
  all: cbn [app]; rewrite !not_elem_of_app, !not_elem_of_cons, !not_elem_of_app.
  all: split_and!; try done; apply (bool_decide_unpack _); vm_compute; exact I.
Qed.

Lemma exposition_read version values :
  (" "%char) ∉ chars version → chr 10 ∉ chars version → Forall (λ m, sample_name m.1 ∧ 0 <= m.2) values →
  omap read_sample (split_char (chr 10) (chars (join line_feed (exposition version values) +:+ line_feed)))
  = (build_info version, 1) :: values.
Proof.
  intros Hs Hn Hv. pose proof (build_info_name version Hs Hn) as Hb. rewrite split_joined; [|done|].
  - unfold exposition. rewrite !fmap_app, !omap_app, metric_lines_read by done.
    pose proof (read_sample_line (build_info version) 1 Hb ltac:(lia)) as Hr.
    unfold build_info in Hr. rewrite !string_app_assoc in Hr.
    change ("}" +:+ " " +:+ str_int 1) with "} 1" in Hr.
    cbn [fmap list_fmap omap list_omap]. rewrite Hr. by rewrite app_nil_r.
  - unfold exposition. apply Forall_app. split; [|by apply metric_lines_one_line].
    repeat constructor; [apply (bool_decide_unpack _); vm_compute; exact I..|].
    destruct Hb as (_ & Hb & _). unfold build_info in Hb. rewrite !chars_app in Hb |- *.
    rewrite !not_elem_of_app in Hb |- *. split_and!; try tauto. apply (bool_decide_unpack _); vm_compute; exact I.
Qed.

Section metrics_facts.
Context {PF : Platform}.

Lemma metric_values_named d t state :
  0 <= last_sequence state → Forall (λ m, sample_name m.1 ∧ 0 <= m.2) (metric_values d t state).
Proof.
  intros Hl. unfold metric_values, table_size.
  repeat (apply Forall_cons; split; [split; [|first [apply count_rows_nonneg|exact Hl]];
    split_and!; apply (bool_decide_unpack _); vm_compute; exact I|]).
  constructor.
Qed.

(** What is scraped is what is counted.  An authorised scrape of a chain whose head has
    a sequence number, with a version text that has no blank, answers 200 with a text
    that reads back as the build information and the nine counters of the database at
    that moment, in order. *)
Theorem metrics_read_back installed authorization w state :
  _operations_authorized authorization = Ok true → audit_state (w_db w) = Some state → 0 <= last_sequence state →
  let version := _project_version installed in
  (" "%char) ∉ chars version → chr 10 ∉ chars version →
  ∃ content w', metrics installed authorization w = (Ok (FileBody 200 "text/plain; version=0.0.4; charset=utf-8" content), w') ∧
    w_db w' = w_db w ∧
    read_exposition content = (build_info version, 1) :: metric_values (w_db w) (w_clock w) state.
Proof.
  intros Ha Hst Hl version Hsp Hnl. unfold metrics. rewrite Ha.
  change ((of_outcome (Ok true)) w) with (Ok true, w). unfold mbind at 1, M_bind at 1. cbn [of_outcome negb]. run.
  rewrite (bind_ok get_chain_state _ (advance w) state (advance w)) by (unfold get_chain_state; cbn; by rewrite Hst).
  do 2 eexists. split; [reflexivity|]. split; [reflexivity|]. fold version.
  unfold read_exposition. rewrite <- list_fmap_compose, (list_fmap_ext _ (λ c, c)), list_fmap_id by (intros ? ? _; apply chr_code).
  apply exposition_read; [done..|]. by apply metric_values_named.
Qed.
End metrics_facts.

Section consumer_facts.
Context {PF : Platform}.

(** The consumer of the web node opens no shell.  A first message either is refused,
    with code 4403 and the database as it was, or consumes the ticket of the signed-in
    user; then the session is ended as failed for want of a gateway before the socket is
    closed, and never left active. *)
Theorem consumer_session_ends sid user client content w step w' :
  receive_json sid user client None content w = (Ok step, w') →
  (cs_authorized step = None ∧ cs_close step = Some 4403 ∧ w_db w' = w_db w) ∨
  (∃ token s w1 row, get_json content "ticket" = JStr token ∧
     consume_session_ticket sid token (pk user) client w = (Ok s, w1) ∧
     cs_authorized step = Some sid ∧ cs_close step = Some 1013 ∧
     sessions (w_db w') !! sid = Some row ∧ s_status row = SessionStatus.FAILED ∧
     s_termination_reason row = "gateway_not_configured").
Proof.
  unfold receive_json. destruct (_ || _); [intros [= <- <-]; by left|]. intros H.
  apply bind_ok_inv in H as (token & w0 & Ht & H). unfold of_outcome in Ht. injection Ht as Ht <-.
  destruct (get_json content "ticket") as [| | |t| | |] eqn:Ej; try discriminate Ht. injection Ht as ->.
  apply bind_ok_inv in H as (found & w1 & Hc & H). unfold try_except in Hc.
  destruct ((s ← consume_session_ticket sid token (pk user) client; mret (Some s)) w) as [[x|e] wx] eqn:Ec.
  - injection Hc as <- <-. apply bind_ok_inv in Ec as (s & w2 & Hs & Ec). injection Ec as <- <-. right.
    apply bind_ok_inv in H as (r & w3 & Hcl & H). injection H as <- <-.
    pose proof Hs as Hs'. apply consume_ticket_inv in Hs' as (kt & k & s0 & p & pol & st & st2 & Hs').
    destruct Hs' as (_ & _ & _ & _ & _ & _ & _ & _ & _ & _ & _ & _ & -> & _ & (a1 & a2 & a3 & Hd)).
    apply close_inv in Hcl as (row & Hrow & Hcl). cbn [pk] in *. rewrite Hd in Hrow. simpl in Hrow.
    rewrite lookup_insert_eq in Hrow. injection Hrow as <-.
    destruct Hcl as [[He _]|(_ & _ & stamp & -> & (b1 & b2 & b3 & Hd'))]; [by vm_compute in He|].
    exists token, (Obj sid (open_row (w_clock w) st s0)), w2. eexists. do 4 (split; [done|]).
    rewrite Hd'. simpl. rewrite lookup_insert_eq. split; [done|]. split; reflexivity.
  - left. assert (w_db wx = w_db w) as Hdb.
    { unfold mbind, M_bind in Ec. destruct (consume_session_ticket sid token (pk user) client w) as [[]] eqn:Es; [discriminate Ec|].
      injection Ec as -> ->. unfold consume_session_ticket in Es. by apply atomic_raise_db in Es. }
    destruct e; try discriminate Hc. injection Hc as <- <-. by injection H as <- <-.
Qed.
End consumer_facts.

(** ** Concrete requests *)

Definition token_platform : Platform := {|
  draw_uuid4 := @draw_uuid4 demo_platform;
  draw_token_urlsafe := @draw_token_urlsafe demo_platform;
  draw_token_hex := @draw_token_hex demo_platform;
  draw_token_bytes := @draw_token_bytes demo_platform;
  keyring := demo_keyring;
  utc_offset := @utc_offset demo_platform;
  make_password := @make_password demo_platform;
  check_password := @check_password demo_platform;
  conf := Settings true "0123456789abcdef0123456789abcdef" false false false 300 "operations-0123456789abcdef012345";
|}.

Section operations_witnesses.
#[local] Existing Instance token_platform.

Definition bearer : string := "bearer " +:+ PAMOLIVE_OPERATIONS_TOKEN conf.
Definition scraped_db : db := empty_db <| audit_state := Some (AuditChainState 3 "h") |> <| users := {[7%N := val demo_alice]} |>.

Definition demo_scrape : outcome response * world := Eval vm_compute in metrics None bearer (demo_world scraped_db).
Definition demo_scraped : response := Eval vm_compute in
  match demo_scrape.1 with Ok x => x | Raise _ => NotAllowed [] end.

Lemma operations_need_token_witness :
  (response_status demo_scraped = 403 ∧ demo_scrape.2 = demo_world scraped_db) ∨
  (PAMOLIVE_OPERATIONS_TOKEN conf ≠ "" ∧
   ∃ scheme, bearer = scheme +:+ " " +:+ PAMOLIVE_OPERATIONS_TOKEN conf ∧ casefold scheme = "bearer").
Proof.
  apply (operations_need_token None bearer (demo_world scraped_db) demo_scraped demo_scrape.2). right. vm_compute. reflexivity.
Defined.

Lemma metrics_read_back_witness :
  ∃ content w', metrics None bearer (demo_world scraped_db)
      = (Ok (FileBody 200 "text/plain; version=0.0.4; charset=utf-8" content), w') ∧ w_db w' = scraped_db ∧
    read_exposition content = (build_info "development", 1) :: metric_values scraped_db demo_now (AuditChainState 3 "h").
Proof.
  apply (metrics_read_back None bearer (demo_world scraped_db) (AuditChainState 3 "h")).
  - vm_compute. reflexivity.
  - reflexivity.
  - simpl. lia.
  - apply (bool_decide_unpack _). vm_compute. exact I.
  - apply (bool_decide_unpack _). vm_compute. exact I.
Defined.

End operations_witnesses.

Section consumer_witnesses.
#[local] Existing Instance demo_platform.

Definition ticket_content : list (string * json) := [("type", JStr "authorize"); ("ticket", JStr "token-1")].
Definition demo_consumed : outcome consumer_step * world := Eval vm_compute in
  receive_json (pk Sessions.demo_session) demo_alice (Some "192.0.2.9") None ticket_content demo_ticketed.
Definition demo_step : consumer_step := Eval vm_compute in
  match demo_consumed.1 with Ok s => s | Raise _ => ConsumerStep None [] None end.

Lemma consumer_session_ends_witness :
  cs_close demo_step = Some 1013 ∧ ∃ row, sessions (w_db demo_consumed.2) !! pk Sessions.demo_session = Some row ∧ s_status row = SessionStatus.FAILED.
Proof.
  destruct (consumer_session_ends (pk Sessions.demo_session) demo_alice (Some "192.0.2.9") ticket_content demo_ticketed demo_step demo_consumed.2)
    as [(H & _)|(token & s & w1 & row & _ & _ & _ & Hc & Hr & Hs & _)].
  - vm_compute. reflexivity.
  - vm_compute in H. discriminate H.
  - split; [exact Hc|]. exists row. split; [exact Hr|exact Hs].
Defined.
End consumer_witnesses.
