(* ===== verification/Migration.v ===== *)
(** * Migration of secrets and signatures ([vault/management/commands/], [vault/legacy.py])

    The two commands that move an installation to another keyring: every encrypted
    column is read with the old cipher and sealed with the active one, the audit chain
    is walked and signed again, in one transaction, after a dry run.  And the command
    that checks a restored database ([operations/management/commands/verify_restore.py]).

    The loops share their shape with [Vault.rotate_model].  Opening a Fernet token under
    a legacy key is a parameter. *)

From Stdlib Require Import String.
From S2P Require Import Prelude PyStr Json Loads Crypto PyTime Models World Text AuditTrail Vault.

Local Open Scope Z_scope.

Definition CommandError : exn := OtherError "CommandError".

(** [Fernet(key)], which refuses some keys, and [Fernet(key).decrypt(token).decode()],
    [None] for [InvalidToken] and [UnicodeDecodeError]. *)
Class LegacyFernet := {
  legacy_key_ok : string → bool;
  legacy_open : string → string → option string;
}.

(** ** The legacy cipher *)

Section legacy.
Context {LF : LegacyFernet}.

(** One key of [self._ciphers] *)
Definition legacy_cipher (kv : string * json) : outcome (string * string) :=
  match kv.2 with
  | JStr key => if legacy_key_ok key then Ok (kv.1, key) else Raise (ValueError "Fernet key must be 32 url-safe base64-encoded bytes.")
  | _ => Raise (OtherError "AttributeError")
  end.

Fixpoint collect {A B} (f : A → outcome B) (l : list A) : outcome (list B) :=
  match l with
  | [] => Ok []
  | x :: l' => match f x with
               | Raise e => Raise e
               | Ok y => match collect f l' with Ok ys => Ok (y :: ys) | Raise e => Raise e end
               end
  end.

(** [configured.setdefault("legacy", legacy_key)] *)
Definition with_default_key (configured : list (string * json)) (legacy_key : string) : list (string * json) :=
  if decide (legacy_key = "") then configured
  else match dict_get "legacy" configured with
       | Some _ => configured
       | None => configured ++ [("legacy", JStr legacy_key)]
       end.

Definition LegacyVaultCipher (environ : gmap string string) : outcome (list (string * string)) :=
  let legacy_key := default "" (environ !! "PAMOLIVE_VAULT_KEY") in
  match loads (default "{}" (environ !! "PAMOLIVE_VAULT_KEYS")) with
  | None => Raise (ValueError "JSONDecodeError")
  | Some (JObj l) =>
      let configured := with_default_key l legacy_key in
      if decide (configured = []) then Raise (VaultError "No legacy vault key is available for migration")
      else collect legacy_cipher configured
  | Some j =>
      if bool_decide (legacy_key = "") && negb (json_truthy j)
      then Raise (VaultError "No legacy vault key is available for migration") else Raise (OtherError "AttributeError")
  end.

(** [self._ciphers.get(key_id)] *)
Definition cipher_for (ciphers : list (string * string)) (key_id : string) : option string :=
  snd <$> List.find (λ kv, bool_decide (kv.1 = key_id)) ciphers.

Definition legacy_decrypt (ciphers : list (string * string)) (token key_id : string) : outcome string :=
  match cipher_for ciphers key_id with
  | None => Raise (VaultError ("Legacy vault key '" +:+ key_id +:+ "' is unavailable"))
  | Some key => match legacy_open key token with
                | Some p => Ok p
                | None => Raise (VaultError "A legacy secret could not be decrypted")
                end
  end.
End legacy.

(** ** The loop over the encrypted columns *)

Record migration_count := MigrationCount { mg_secrets : Z; mg_migrated : Z }.

Section secrets.
Context {PF : Platform}.

(** [reseal value key]: the new ciphertext of a column, [None] to leave it. *)
Context (reseal : string → string → M (option string)).

Definition migrate_fields {A} (fields : list (encrypted_field A)) (a : A) (n : migration_count)
    : M (A * bool * migration_count) :=
  fold_m fields (a, false, n) (λ '(a, dirty, n) f,
    if decide (ef_value f a = "") then mret (a, dirty, n)
    else
      c ← reseal (ef_value f a) (ef_key f a);
      match c with
      | None => mret (a, dirty, MigrationCount (mg_secrets n + 1) (mg_migrated n))
      | Some c => mret (ef_set f c active_key_id a, true, MigrationCount (mg_secrets n + 1) (mg_migrated n + 1))
      end).

Definition migrate_row {A} (tbl : db → gmap id A) `{!Setter tbl} (fields : list (encrypted_field A))
    (stamp : Z → A → A) (n : migration_count) (o : obj A) : M migration_count :=
  r ← migrate_fields fields (val o) n;
  let '(a, dirty, n) := r in
  (if dirty : bool then t ← now; save_fields tbl (pk o) (λ _, stamp t a) else mret tt) ;;
  mret n.

Definition migrate_model {A} (tbl : db → gmap id A) `{!Setter tbl} (fields : list (encrypted_field A))
    (stamp : Z → A → A) (n : migration_count) : M migration_count :=
  l ← asks (λ d, sort_by (λ o, Z.of_N (pk o)) (rows (tbl d)));
  fold_m l n (migrate_row tbl fields stamp).

Definition migrate_all_models : M migration_count :=
  n ← migrate_model credentials credential_fields (λ t c, c <| c_stamps ::= touch t |>) (MigrationCount 0 0);
  n ← migrate_model vault_items vault_item_fields (λ t c, c <| pv_stamps ::= touch t |>) n;
  n ← migrate_model mfa_devices mfa_device_fields (λ t c, c <| m_stamps ::= touch t |>) n;
  n ← migrate_model connectors connector_fields (λ _ c, c) n;
  n ← migrate_model identity_sources identity_source_fields (λ t c, c <| is_stamps ::= touch t |>) n;
  n ← migrate_model rotation_jobs rotation_job_fields (λ t c, c <| j_stamps ::= touch t |>) n;
  migrate_model siem_integrations siem_fields (λ _ c, c) n.
End secrets.

(** ** The walk over the audit chain *)

Record chain_walk := ChainWalk {
  cw_previous_hash : string;
  cw_previous_sequence : Z;
  cw_events : Z;
  cw_resigned : Z;
}.

Section commands.
Context {PF : Platform} {LF : LegacyFernet}.

Definition with_signature (signature : string) (e : audit_event) : audit_event :=
  AuditEvent (e_occurred_at e) (e_sequence e) (e_hash_version e) (e_actor e) (e_action e) (e_resource_type e)
    (e_resource_id e) (e_source_ip e) (e_metadata e) (e_previous_hash e) (e_event_hash e) signature.

(** [AuditEvent.objects.filter(pk=event.pk).update(signature=...)] *)
Definition set_signature (k : id) (signature : string) : M unit :=
  modify (λ d, d <| audit_events ::= alter (with_signature signature) k |>).

(** [resign e]: the new signature of an event, [None] to keep the one it has. *)
Definition migrate_event (resign : audit_event → M (option string)) (s : chain_walk) (o : obj audit_event) : M chain_walk :=
  let e := val o in
  raise_if (bool_decide (e_sequence e ≠ cw_previous_sequence s + 1) || bool_decide (e_previous_hash e ≠ cw_previous_hash s))
    CommandError ;;
  raise_if (bool_decide (e_hash_version e = 2) && bool_decide (e_event_hash e ≠ _payload_hash (event_canonical e))) CommandError ;;
  signature ← resign e;
  (match signature with Some s => set_signature (pk o) s | None => mret tt end) ;;
  mret (ChainWalk (e_event_hash e) (e_sequence e) (cw_events s + 1)
          (cw_resigned s + match signature with Some _ => 1 | None => 0 end)).

Definition migrate_chain (resign : audit_event → M (option string)) (state : audit_chain_state) : M chain_walk :=
  events ← asks (λ d, by_sequence (audit_events d));
  s ← fold_m events (ChainWalk "" 0 0 0) (migrate_event resign);
  raise_if (bool_decide (last_sequence state ≠ cw_previous_sequence s) || bool_decide (last_hash state ≠ cw_previous_hash s))
    CommandError ;;
  mret s.

Definition sign_again (e : audit_event) : M (option string) :=
  s ← of_outcome (kr_sign keyring (e_event_hash e)); mret (Some s).

(** ** [migrate_keyring_backend] *)

Definition reseal_backend (apply : bool) (value key_id : string) : M (option string) :=
  plaintext ← decrypt value key_id;
  if apply then c ← encrypt plaintext; mret (Some c) else mret None.

Definition resign_backend (apply : bool) (e : audit_event) : M (option string) :=
  bad ← signature_invalid e;
  raise_if bad CommandError ;;
  if apply then sign_again e else mret None.

Definition migration_resource : resource := Resource "audit.auditchainstate" "1".

Definition run_backend (apply : bool) : M (Z * Z) :=
  atomic (
    state ← get_chain_state;
    n ← migrate_all_models (reseal_backend apply);
    s ← migrate_chain (resign_backend apply) state;
    (if apply then
       record_event None "security.keyring_backend_migration_completed" migration_resource
         [("secrets", JInt (mg_secrets n)); ("audit_events", JInt (cw_events s))] None ;;
       mret tt
     else mret tt) ;;
    mret (mg_secrets n, cw_events s)).

(** ** [migrate_secrets_to_keyring] *)

Definition reseal_legacy (ciphers : list (string * string)) (apply : bool) (value key_id : string) : M (option string) :=
  if decide (key_id = active_key_id) then decrypt value key_id ;; mret None
  else
    plaintext ← of_outcome (legacy_decrypt ciphers value key_id);
    if apply then c ← encrypt plaintext; mret (Some c) else mret None.

Definition legacy_signature (audit_key : string) (e : audit_event) : string :=
  hexdigest (hmac sha256 (utf8 audit_key) (utf8 (e_event_hash e))).

Definition keyring_valid (e : audit_event) : M bool :=
  if decide (e_signature e = "") then mret false
  else of_outcome (kr_verify keyring (e_event_hash e) (e_signature e)).

Definition resign_legacy (audit_key : string) (apply : bool) (e : audit_event) : M (option string) :=
  valid ← keyring_valid e;
  legacy_valid ← of_outcome (match compare_digest (e_signature e) (legacy_signature audit_key e) with
                             | Some b => Ok b
                             | None => Raise (TypeError "comparing strings with non-ASCII characters is not supported")
                             end);
  raise_if (bool_decide (e_hash_version e = 2) && negb valid && negb legacy_valid) CommandError ;;
  if negb valid && apply then sign_again e else mret None.

Record legacy_report := LegacyReport {
  lr_secrets : Z;
  lr_migrated : Z;
  lr_audit_events : Z;
  lr_resigned : Z;
}.

Definition run_legacy (environ : gmap string string) (apply : bool) : M legacy_report :=
  atomic (
    state ← get_chain_state;
    ciphers ← of_outcome (LegacyVaultCipher environ);
    let audit_key := default "" (environ !! "PAMOLIVE_AUDIT_SIGNING_KEY") in
    raise_if (bool_decide (audit_key = "")) CommandError ;;
    n ← migrate_all_models (reseal_legacy ciphers apply);
    s ← migrate_chain (resign_legacy audit_key apply) state;
    (if apply then
       record_event None "security.keyring_migration_completed" migration_resource
         [("migrated_secrets", JInt (mg_migrated n)); ("resigned_events", JInt (cw_resigned s))] None ;;
       mret tt
     else mret tt) ;;
    mret (LegacyReport (mg_secrets n) (mg_migrated n) (cw_events s) (cw_resigned s))).

(** [handle]: the confirmation, then the run; any exception becomes a [CommandError]. *)
Definition handle_migration {A} (confirmation : string) (run_migration : bool → M A) (apply : bool) (confirm : string) : M A :=
  raise_if (apply && bool_decide (confirm ≠ confirmation)) CommandError ;;
  try_except (run_migration apply) (λ _, Some (raise CommandError)).

Definition migrate_keyring_backend : bool → string → M (Z * Z) := handle_migration "MIGRATE-KEYRING-BACKEND" run_backend.

Definition migrate_secrets_to_keyring (environ : gmap string string) : bool → string → M legacy_report :=
  handle_migration "MIGRATE-TO-KEYRING" (run_legacy environ).

(** ** [verify_restore] *)

(** [pending]: the number of schema migrations to apply.  The answer: the events checked
    and the encrypted fields read. *)
Definition verify_restore (pending : Z) (expect_user : string) : M (Z * Z) :=
  raise_if (negb (pending =? 0)) CommandError ;;
  found ← asks (λ d, exists_row (λ o, bool_decide (u_username (val o) = expect_user)) (users d));
  raise_if (bool_decide (expect_user ≠ "") && negb found) CommandError ;;
  audit ← verify_audit_chain;
  raise_if (negb (av_valid audit)) CommandError ;;
  vault ← rotate_vault_encryption false None;
  mret (av_checked_events audit, scanned_fields vault).
End commands.

(** ** The secrets after a migration *)

(** A table whose updates only touch that table. *)
Class LawfulTable {A} (tbl : db → gmap id A) `{!Setter tbl} : Prop := {
  table_get f d : tbl (set_field tbl f d) = f (tbl d);
  table_set f g d : set_field tbl f (set_field tbl g d) = set_field tbl (λ t, f (g t)) d;
  table_id d : set_field tbl (λ _, tbl d) d = d;
}.

(** The columns of two encrypted fields are different ones. *)
Definition apart {A} (f g : encrypted_field A) : Prop :=
  ∀ c k a, ef_value g (ef_set f c k a) = ef_value g a ∧ ef_key g (ef_set f c k a) = ef_key g a.

Definition own_columns {A} (f : encrypted_field A) : Prop :=
  ∀ c k a, ef_value f (ef_set f c k a) = c ∧ ef_key f (ef_set f c k a) = k.

Fixpoint lawful_fields {A} (fields : list (encrypted_field A)) : Prop :=
  match fields with
  | [] => True
  | f :: rest => own_columns f ∧ Forall (λ g, apart f g ∧ apart g f) rest ∧ lawful_fields rest
  end.

(** Setting [updated_at] leaves the encrypted columns. *)
Definition stamp_apart {A} (stamp : Z → A → A) (fields : list (encrypted_field A)) : Prop :=
  Forall (λ f, ∀ t a, ef_value f (stamp t a) = ef_value f a ∧ ef_key f (stamp t a) = ef_key f a) fields.

(** A row without its encrypted columns and its date of update. *)
Definition wipe {A} (fields : list (encrypted_field A)) (stamp : Z → A → A) (a : A) : A :=
  stamp 0 (foldr (λ f, ef_set f "" "") a fields).

(** Wiping forgets the encrypted columns and the date, whatever they were. *)
Definition wipes {A} (fields : list (encrypted_field A)) (stamp : Z → A → A) : Prop :=
  (∀ t a, wipe fields stamp (stamp t a) = wipe fields stamp a) ∧
  Forall (λ f, ∀ c k a, wipe fields stamp (ef_set f c k a) = wipe fields stamp a) fields.

Section secrets_facts.
Context {PF : Platform}.

(** The active cipher opens a stored value to a text. *)
Definition opens (value key_id plaintext : string) : Prop := ∀ w, (decrypt value key_id w).1 = Ok plaintext.

(** [before]: what a stored value meant under the old cipher. *)
Context (before : string → string → string → Prop).

(** A column that held something still opens, to the same text. *)
Definition carried {A} (f : encrypted_field A) (a b : A) : Prop :=
  (ef_value f a = "" ∧ ef_value f b = "") ∨
  (ef_value f a ≠ "" ∧ ∃ p, before (ef_value f a) (ef_key f a) p ∧ opens (ef_value f b) (ef_key f b) p).

(** The row is the same one, with its secrets carried over. *)
Definition kept_row {A} (fields : list (encrypted_field A)) (stamp : Z → A → A) (a b : A) : Prop :=
  Forall (λ f, carried f a b) fields ∧ wipe fields stamp b = wipe fields stamp a.

Definition carried_row {A} (fields : list (encrypted_field A)) (stamp : Z → A → A) (x y : option A) : Prop :=
  match x, y with
  | Some a, Some b => kept_row fields stamp a b
  | None, None => True
  | _, _ => False
  end.

Definition carried_table {A} (fields : list (encrypted_field A)) (stamp : Z → A → A) (t t' : gmap id A) : Prop :=
  ∀ k, carried_row fields stamp (t !! k) (t' !! k).

(** What a way of resealing owes: it reads what was meant, and what it leaves or writes
    opens to that. *)
Class Carries (reseal : string → string → M (option string)) : Prop :=
  reseal_carries value key w c w' : reseal value key w = (Ok c, w') →
    w_db w' = w_db w ∧ ∃ p, before value key p ∧
      match c with Some c => opens c active_key_id p | None => opens value key p end.

Section one_table.
Context (reseal : string → string → M (option string)) `{!Carries reseal}.
Context {A : Type}.

(** What the loop keeps of a row, if setting an encrypted column keeps it. *)
Lemma migrate_fields_wiped {B} (view : A → B) (fields : list (encrypted_field A)) :
  Forall (λ f, ∀ c k a, view (ef_set f c k a) = view a) fields → ∀ a0 n0 w a dirty n w',
  migrate_fields reseal fields a0 n0 w = (Ok (a, dirty, n), w') → view a = view a0.
Proof.
  intros Hv a0 n0 w. unfold migrate_fields. generalize false as d0. revert a0 n0 w.
  induction Hv as [|f fields Hf _ IH]; intros a0 n0 w d0 a dirty n w' H; cbn [fold_m] in H; [by injection H as <- _ _ _|].
  apply bind_ok_inv in H as ([[a1 d1] n1] & w1 & Hs & H). apply IH in H as ->.
  case_decide; [by injection Hs as <- _ _ _|]. apply bind_ok_inv in Hs as ([c|] & w2 & Hc & Hs); by injection Hs as <- _ _ _.
Qed.

Lemma migrate_fields_inv (fields : list (encrypted_field A)) : lawful_fields fields → ∀ a0 dirty0 n0 w a dirty n w',
  fold_m fields (a0, dirty0, n0) (λ '(a, dirty, n) f,
    if decide (ef_value f a = "") then mret (a, dirty, n)
    else
      c ← reseal (ef_value f a) (ef_key f a);
      match c with
      | None => mret (a, dirty, MigrationCount (mg_secrets n + 1) (mg_migrated n))
      | Some c => mret (ef_set f c active_key_id a, true, MigrationCount (mg_secrets n + 1) (mg_migrated n + 1))
      end) w = (Ok (a, dirty, n), w') →
  w_db w' = w_db w ∧ Forall (λ f, carried f a0 a) fields ∧ (dirty = false → a = a0) ∧ (dirty0 = true → dirty = true) ∧
  ∀ g, Forall (λ f, apart f g) fields → ef_value g a = ef_value g a0 ∧ ef_key g a = ef_key g a0.
Proof.
  induction fields as [|f fields IH]; intros Hl a0 dirty0 n0 w a dirty n w' H.
  { injection H as <- <- <- <-. split_and!; try done. }
  destruct Hl as (Hown & Hap & Hl). cbn [fold_m] in H. apply bind_ok_inv in H as ([[a1 d1] n1] & w1 & Hs & H).
  apply IH in H as (Hdb & Hc & Hd & Hmono & Hg); [|done].
  assert (w_db w1 = w_db w ∧ carried f a0 a1 ∧ (d1 = false → a1 = a0) ∧ (dirty0 = true → d1 = true) ∧
    ∀ g, apart f g → ef_value g a1 = ef_value g a0 ∧ ef_key g a1 = ef_key g a0) as (Hdb1 & Hc1 & Hd1 & Hm1 & Hg1).
  { clear -Hs Hown Carries0. destruct (decide (ef_value f a0 = "")) as [E|E].
    - injection Hs as <- <- <- <-. split_and!; try done. by left.
    - apply bind_ok_inv in Hs as (c & w2 & Hr & Hs). apply reseal_carries in Hr as (Hdb & p & Hp & Ho).
      destruct c as [c|]; injection Hs as <- <- <- <-.
      + destruct (Hown c active_key_id a0) as [Hv Hk].
        split_and!; [done|right; split; [done|]; exists p; by rewrite Hv, Hk|done|done|]. intros g Hap. apply Hap.
      + split_and!; try done. right. split; [done|]. by exists p. }
  split; [congruence|]. split; [|split; [|split; [auto|]]].
  - apply Forall_cons. split.
    + destruct (Hg f) as [Hv Hk]; [eapply Forall_impl; [exact Hap|naive_solver]|].
      unfold carried in *. by rewrite Hv, Hk.
    + apply Forall_forall. intros g Hin. rewrite Forall_forall in Hc, Hap.
      destruct (Hg1 g) as [Hv Hk]; [by apply Hap|]. specialize (Hc g Hin). unfold carried in *. by rewrite <- Hv, <- Hk.
  - intros ->. destruct d1; [by specialize (Hmono eq_refl)|]. rewrite Hd, Hd1; done.
  - intros g [Hg0 Hgs]%Forall_cons. destruct (Hg g Hgs), (Hg1 g Hg0). split; congruence.
Qed.

Context (tbl : db → gmap id A) `{!Setter tbl} `{!LawfulTable tbl}.
Context (fields : list (encrypted_field A)) (stamp : Z → A → A).
Context (Hfields : lawful_fields fields) (Hstamp : stamp_apart stamp fields) (Hwipes : wipes fields stamp).

Lemma table_update f d : set_field tbl f d = set_field tbl (λ _, f (tbl d)) d.
Proof. rewrite <- (table_id d) at 1. by rewrite table_set. Qed.

Lemma migrate_row_inv n o w n' w' :
  tbl (w_db w) !! pk o = Some (val o) → migrate_row reseal tbl fields stamp n o w = (Ok n', w') →
  ∃ b, w_db w' = set_field tbl (λ _, <[pk o := b]> (tbl (w_db w))) (w_db w) ∧ kept_row fields stamp (val o) b.
Proof.
  intros Ho H. unfold migrate_row in H. apply bind_ok_inv in H as ([[a dirty] n1] & w1 & Hf & H).
  destruct Hwipes as [Hw Hws]. pose proof (migrate_fields_wiped _ _ Hws _ _ _ _ _ _ _ Hf) as Ha.
  apply migrate_fields_inv in Hf as (Hdb & Hc & Hclean & _ & _); [|done]. destruct dirty.
  - apply bind_ok_inv in H as (u & w2 & Hs & H). injection H as <- <-. apply bind_ok_inv in Hs as (t & w3 & Ht & Hs).
    prim_inv Ht. unfold save_fields in Hs. simpl in Hs. rewrite Hdb, Ho in Hs. injection Hs as _ <-.
    exists (stamp (w_clock w1) a). split; [exact (table_update _ _)|]. split; [|by rewrite Hw].
    apply Forall_forall. intros f Hin. rewrite Forall_forall in Hc. specialize (Hc f Hin).
    unfold stamp_apart in Hstamp. rewrite Forall_forall in Hstamp. destruct (Hstamp f Hin (w_clock w1) a) as [Hv Hk].
    unfold carried in *. by rewrite Hv, Hk.
  - injection H as <- <-. exists (val o). rewrite Hdb, insert_id, table_id by done. split; [done|]. split; [by rewrite Hclean in Hc|done].
Qed.

Lemma migrate_rows_inv l : ∀ n w n' w',
  NoDup (pk <$> l) → (∀ o, o ∈ l → tbl (w_db w) !! pk o = Some (val o)) →
  fold_m l n (migrate_row reseal tbl fields stamp) w = (Ok n', w') →
  ∃ t', w_db w' = set_field tbl (λ _, t') (w_db w) ∧ (∀ k, k ∉ pk <$> l → t' !! k = tbl (w_db w) !! k) ∧
    ∀ o, o ∈ l → ∃ b, t' !! pk o = Some b ∧ kept_row fields stamp (val o) b.
Proof.
  induction l as [|o l IH]; intros n w n' w' Hnd Hl H; cbn [fold_m] in H.
  - injection H as <- <-. exists (tbl (w_db w)). split; [by rewrite table_id|]. split; [done|].
    intros o Ho. by apply elem_of_nil in Ho.
  - apply NoDup_cons in Hnd as [Hno Hnd]. apply bind_ok_inv in H as (n1 & w1 & Hr & H).
    apply migrate_row_inv in Hr as (b & Hdb & Hb); [|apply Hl; left].
    apply IH in H as (t' & Hdb' & Hk & Hrows); [|done|].
    + exists t'. rewrite Hdb', Hdb, table_set. split; [done|]. rewrite Hdb, table_get in Hk. split.
      * intros k [Hko Hkl]%not_elem_of_cons. rewrite Hk by done. by apply lookup_insert_ne.
      * intros o' [->|Ho']%elem_of_cons; [|by apply Hrows]. exists b. split; [|done]. rewrite Hk by done. apply lookup_insert_eq.
    + intros o' Ho'. rewrite Hdb, table_get, lookup_insert_ne; [apply Hl; by right|].
      intros E. apply Hno. rewrite E. by apply list_elem_of_fmap_2.
Qed.

Lemma migrate_model_inv n w n' w' :
  migrate_model reseal tbl fields stamp n w = (Ok n', w') →
  ∃ t', w_db w' = set_field tbl (λ _, t') (w_db w) ∧ carried_table fields stamp (tbl (w_db w)) t'.
Proof.
  intros H. unfold migrate_model in H. rewrite run_asks in H. cbv beta in H.
  set (l := sort_by _ _) in H. assert (l ≡ₚ rows (tbl (w_db w))) as Hp by apply sort_by_Permutation.
  assert (∀ o, o ∈ l ↔ tbl (w_db w) !! pk o = Some (val o)) as Hel by (intros o; by rewrite Hp, elem_of_rows).
  apply migrate_rows_inv in H as (t' & Hdb & Hk & Hrows).
  - exists t'. split; [done|]. intros k. destruct (tbl (w_db w) !! k) as [a|] eqn:Ea.
    + destruct (Hrows (Obj k a)) as (b & Eb & Hb); [by apply Hel|]. cbn in Eb. by rewrite Eb.
    + rewrite Hk, Ea; [done|]. intros ([k0 a] & -> & Hin)%list_elem_of_fmap. apply Hel in Hin. simpl in *. congruence.
  - rewrite Hp. unfold rows. rewrite <- list_fmap_compose. apply NoDup_fst_map_to_list.
  - intros o. by apply Hel.
Qed.
End one_table.
End secrets_facts.

#[export] Instance credentials_lawful : LawfulTable credentials. Proof. by split; [..|intros []]. Qed.
#[export] Instance vault_items_lawful : LawfulTable vault_items. Proof. by split; [..|intros []]. Qed.
#[export] Instance mfa_devices_lawful : LawfulTable mfa_devices. Proof. by split; [..|intros []]. Qed.
#[export] Instance connectors_lawful : LawfulTable connectors. Proof. by split; [..|intros []]. Qed.
#[export] Instance identity_sources_lawful : LawfulTable identity_sources. Proof. by split; [..|intros []]. Qed.
#[export] Instance rotation_jobs_lawful : LawfulTable rotation_jobs. Proof. by split; [..|intros []]. Qed.
#[export] Instance siem_lawful : LawfulTable siem_integrations. Proof. by split; [..|intros []]. Qed.

Ltac solve_columns :=
  cbn; unfold stamp_apart, own_columns, apart, wipes, wipe; repeat constructor.

(** Every row of the tables with encrypted columns is there, with its secrets carried
    over and its other columns unchanged. *)
Definition secrets_carried `{Platform} (before : string → string → string → Prop) (d d' : db) : Prop :=
  carried_table before credential_fields (λ t c, c <| c_stamps ::= touch t |>) (credentials d) (credentials d') ∧
  carried_table before vault_item_fields (λ t c, c <| pv_stamps ::= touch t |>) (vault_items d) (vault_items d') ∧
  carried_table before mfa_device_fields (λ t c, c <| m_stamps ::= touch t |>) (mfa_devices d) (mfa_devices d') ∧
  carried_table before connector_fields (λ _ c, c) (connectors d) (connectors d') ∧
  carried_table before identity_source_fields (λ t c, c <| is_stamps ::= touch t |>) (identity_sources d) (identity_sources d') ∧
  carried_table before rotation_job_fields (λ t c, c <| j_stamps ::= touch t |>) (rotation_jobs d) (rotation_jobs d') ∧
  carried_table before siem_fields (λ _ c, c) (siem_integrations d) (siem_integrations d').

(** The database without the tables that a migration may change. *)
Definition other_tables (d : db) : db :=
  d <| credentials := ∅ |> <| vault_items := ∅ |> <| mfa_devices := ∅ |> <| connectors := ∅ |> <| identity_sources := ∅ |>
    <| rotation_jobs := ∅ |> <| siem_integrations := ∅ |> <| audit_events := ∅ |> <| audit_state := None |> <| on_commit := [] |>.

Section all_models.
Context {PF : Platform} (before : string → string → string → Prop).
Context (reseal : string → string → M (option string)) `{!Carries before reseal}.

Lemma migrate_all_inv w n w' :
  migrate_all_models reseal w = (Ok n, w') →
  secrets_carried before (w_db w) (w_db w') ∧ audit_events (w_db w') = audit_events (w_db w) ∧
  audit_state (w_db w') = audit_state (w_db w) ∧ other_tables (w_db w') = other_tables (w_db w).
Proof.
  unfold migrate_all_models. intros H.
  apply bind_ok_inv in H as (n1 & w1 & H1 & H). apply (migrate_model_inv before) in H1 as (t1 & D1 & C1); [|first [apply _|solve_columns]..].
  apply bind_ok_inv in H as (n2 & w2 & H2 & H). apply (migrate_model_inv before) in H2 as (t2 & D2 & C2); [|first [apply _|solve_columns]..].
  apply bind_ok_inv in H as (n3 & w3 & H3 & H). apply (migrate_model_inv before) in H3 as (t3 & D3 & C3); [|first [apply _|solve_columns]..].
  apply bind_ok_inv in H as (n4 & w4 & H4 & H). apply (migrate_model_inv before) in H4 as (t4 & D4 & C4); [|first [apply _|solve_columns]..].
  apply bind_ok_inv in H as (n5 & w5 & H5 & H). apply (migrate_model_inv before) in H5 as (t5 & D5 & C5); [|first [apply _|solve_columns]..].
  apply bind_ok_inv in H as (n6 & w6 & H6 & H). apply (migrate_model_inv before) in H6 as (t6 & D6 & C6); [|first [apply _|solve_columns]..].
  apply (migrate_model_inv before) in H as (t7 & D7 & C7); [|first [apply _|solve_columns]..].
  rewrite D1 in D2, C2. rewrite D2 in D3, C3. rewrite D3 in D4, C4. rewrite D4 in D5, C5. rewrite D5 in D6, C6. rewrite D6 in D7, C7.
  unfold secrets_carried. rewrite D7. simpl in *. done.
Qed.
End all_models.

(** ** The chain after a migration *)

(** The same event, perhaps signed again. *)
Definition same_content (o o' : obj audit_event) : Prop :=
  pk o = pk o' ∧ ∃ signature, val o' = with_signature signature (val o).

Definition known_version (o : obj audit_event) : Prop := e_hash_version (val o) = 1 ∨ e_hash_version (val o) = 2.

Section chain_facts.
Context {PF : Platform}.

(** What a way of signing again owes: the signature it gives or leaves is one the
    keyring accepts. *)
Class Resigns (resign : audit_event → M (option string)) : Prop :=
  resign_accepted e w s w' : resign e w = (Ok s, w') →
    w_db w' = w_db w ∧
    let signature := default (e_signature e) s in
    (e_hash_version e = 2 → signature ≠ "" ∧ kr_verify keyring (e_event_hash e) signature = Ok true).

Context (resign : audit_event → M (option string)) `{!Resigns resign}.

Lemma with_own_signature e : with_signature (e_signature e) e = e.
Proof. by destruct e. Qed.

Definition with_events (ev : gmap id audit_event) (d : db) : db := d <| audit_events := ev |>.

Lemma migrate_event_inv s o w s' w' :
  audit_events (w_db w) !! pk o = Some (val o) → migrate_event resign s o w = (Ok s', w') →
  ∃ o', same_content o o' ∧ w_db w' = with_events (<[pk o := val o']> (audit_events (w_db w))) (w_db w) ∧
    e_sequence (val o) = cw_previous_sequence s + 1 ∧ e_previous_hash (val o) = cw_previous_hash s ∧
    cw_previous_sequence s' = e_sequence (val o) ∧ cw_previous_hash s' = e_event_hash (val o) ∧
    (known_version o → event_ok (val o')).
Proof.
  intros Ho H. unfold migrate_event in H.
  apply bind_ok_inv in H as (u1 & w1 & H1 & H). unfold raise_if in H1. destruct (_ || _) eqn:Eg in H1; [discriminate H1|].
  injection H1 as _ <-. apply orb_false_iff in Eg as [Hs Hh]. breflect. apply dec_stable in Hs, Hh.
  apply bind_ok_inv in H as (u2 & w2 & H2 & H). unfold raise_if in H2. destruct (_ && _) eqn:Ev in H2; [discriminate H2|].
  injection H2 as _ <-. apply bind_ok_inv in H as (sig & w3 & H3 & H). apply resign_accepted in H3 as [Hdb Hok]. simpl in Hok.
  apply bind_ok_inv in H as (u4 & w4 & H4 & H). injection H as <- <-.
  exists (Obj (pk o) (with_signature (default (e_signature (val o)) sig) (val o))).
  split; [split; [done|by eexists]|]. split.
  - unfold with_events. destruct sig as [sig|].
    + injection H4 as _ <-. simpl. rewrite Hdb. unfold set_field. simpl. f_equal.
      apply map_eq. intros k. destruct (decide (k = pk o)) as [->|Hk].
      * by rewrite lookup_alter_eq, lookup_insert_eq, Ho.
      * by rewrite lookup_alter_ne, lookup_insert_ne.
    + injection H4 as _ <-. simpl. rewrite with_own_signature, insert_id, Hdb by done. by destruct (w_db w).
  - do 4 (split; [done|]). intros [Hv|Hv]; [by left|right]. destruct (Hok Hv) as [Hne Hver].
    split; [done|]. split; [|done]. rewrite Hv in Ev. apply andb_false_iff in Ev as [Ev|Ev]; [done|].
    apply bool_decide_eq_false, dec_stable in Ev. exact Ev.
Qed.

Lemma migrate_events_inv l : ∀ s w s' w',
  NoDup (pk <$> l) → (∀ o, o ∈ l → audit_events (w_db w) !! pk o = Some (val o)) →
  fold_m l s (migrate_event resign) w = (Ok s', w') →
  ∃ ev l', w_db w' = with_events ev (w_db w) ∧ (∀ k, k ∉ pk <$> l → ev !! k = audit_events (w_db w) !! k) ∧
    Forall2 same_content l l' ∧ (∀ o, o ∈ l' → ev !! pk o = Some (val o)) ∧
    (Forall known_version l →
     linked (cw_previous_sequence s) (cw_previous_hash s) l' (cw_previous_sequence s') (cw_previous_hash s')).
Proof.
  induction l as [|o l IH]; intros s w s' w' Hnd Hl H; cbn [fold_m] in H.
  - injection H as <- <-. exists (audit_events (w_db w)), []. split; [by destruct (w_db w)|]. split; [done|].
    split; [constructor|]. split; [intros o Ho; by apply elem_of_nil in Ho|]. intros _. constructor.
  - apply NoDup_cons in Hnd as [Hno Hnd]. apply bind_ok_inv in H as (s1 & w1 & Hs & H).
    apply migrate_event_inv in Hs as (o' & Hsame & Hdb & Hseq & Hhash & Hs1 & Hh1 & Hok); [|apply Hl; left].
    assert (audit_events (w_db w1) = <[pk o := val o']> (audit_events (w_db w))) as Hev by (by rewrite Hdb).
    apply IH in H as (ev & l' & Hdb' & Hk & H2 & Hin & Hlink); [|done|].
    + pose proof Hsame as [Hpk (sig & Hval)]. exists ev, (o' :: l'). split; [by rewrite Hdb', Hdb|]. rewrite Hev in Hk. split; [|split].
      * intros k [Hko Hkl]%not_elem_of_cons. rewrite Hk by done. by apply lookup_insert_ne.
      * by constructor.
      * split.
        -- intros x [->|Hx]%elem_of_cons; [|by apply Hin]. rewrite <- Hpk, Hk by done. apply lookup_insert_eq.
        -- intros [Hv Hvs]%Forall_cons. constructor.
           ++ by rewrite Hval.
           ++ by rewrite Hval.
           ++ by apply Hok.
           ++ rewrite Hs1, Hh1 in Hlink. rewrite Hval. by apply Hlink.
    + intros x Hx. rewrite Hev, lookup_insert_ne; [apply Hl; by right|].
      intros E. apply Hno. rewrite E. by apply list_elem_of_fmap_2.
Qed.
End chain_facts.

(** The trail holds the same events, whatever their signatures. *)
Definition same_trail (ev ev' : gmap id audit_event) : Prop :=
  ∀ k, match ev !! k, ev' !! k with
       | Some e, Some e' => ∃ signature, e' = with_signature signature e
       | None, None => True
       | _, _ => False
       end.

Section chain_walk_facts.
Context {PF : Platform} (resign : audit_event → M (option string)) `{!Resigns resign}.

Lemma rows_pk_NoDup {A} (t : gmap id A) : NoDup (pk <$> rows t).
Proof. unfold rows. rewrite <- list_fmap_compose. apply NoDup_fst_map_to_list. Qed.

Lemma same_content_pks l l' : Forall2 same_content l l' → pk <$> l' = pk <$> l.
Proof. induction 1 as [|o o' l l' [Hp _] _ IH]; [done|]. by rewrite !fmap_cons, IH, Hp. Qed.

Lemma rows_of_list {A} (t : gmap id A) (l : list (obj A)) :
  NoDup (pk <$> l) → (∀ o, o ∈ l → t !! pk o = Some (val o)) → (∀ k, k ∉ pk <$> l → t !! k = None) → rows t ≡ₚ l.
Proof.
  intros Hnd Hin Hout. apply NoDup_Permutation.
  - apply (NoDup_fmap_1 pk), rows_pk_NoDup.
  - by apply (NoDup_fmap_1 pk).
  - intros [k a]. rewrite elem_of_rows. simpl. split; [|apply (Hin (Obj k a))]. intros Hk.
    destruct (decide (k ∈ pk <$> l)) as [(o & -> & Ho)%list_elem_of_fmap|Hn]; [|by rewrite Hout in Hk].
    rewrite (Hin o Ho) in Hk. injection Hk as <-. by destruct o.
Qed.

Lemma migrate_chain_inv state w s w' :
  migrate_chain resign state w = (Ok s, w') →
  ∃ ev, w_db w' = with_events ev (w_db w) ∧ same_trail (audit_events (w_db w)) ev ∧
    (Forall known_version (rows (audit_events (w_db w))) →
     linked 0 "" (by_sequence ev) (last_sequence state) (last_hash state)).
Proof.
  unfold migrate_chain. intros H. rewrite run_asks in H. cbv beta in H. set (l := by_sequence _) in H.
  assert (l ≡ₚ rows (audit_events (w_db w))) as Hp by apply sort_by_Permutation.
  assert (∀ o, o ∈ l ↔ audit_events (w_db w) !! pk o = Some (val o)) as Hel by (intros o; by rewrite Hp, elem_of_rows).
  assert (NoDup (pk <$> l)) as Hnd by (rewrite Hp; apply rows_pk_NoDup).
  apply bind_ok_inv in H as (s1 & w1 & Hf & H).
  apply bind_ok_inv in H as (u & w2 & Hr & H). injection H as <- <-. unfold raise_if in Hr.
  destruct (_ || _) eqn:Eg in Hr; [discriminate Hr|]. injection Hr as _ <-. apply orb_false_iff in Eg as [Es Eh]. breflect.
  apply dec_stable in Es, Eh.
  apply (migrate_events_inv resign) in Hf as (ev & l' & Hdb & Hk & H2 & Hin & Hlink); [|done|intros o; by apply Hel].
  pose proof (same_content_pks _ _ H2) as Hpk. exists ev. split; [done|].
  assert (∀ k, k ∉ pk <$> l' → ev !! k = None) as Hout.
  { intros k Hn. rewrite Hpk in Hn. rewrite Hk by done. destruct (audit_events (w_db w) !! k) as [e|] eqn:E; [|done].
    exfalso. apply Hn, list_elem_of_fmap. exists (Obj k e). split; [done|]. by apply Hel. }
  split.
  - intros k. destruct (decide (k ∈ pk <$> l)) as [(o & -> & Ho)%list_elem_of_fmap|Hn].
    + pose proof Ho as Ho'. apply Hel in Ho'. rewrite Ho'.
      apply list_elem_of_lookup in Ho as [i Hi]. destruct (Forall2_lookup_l _ _ _ _ _ H2 Hi) as (o' & Hi' & Hpo & sig & Hv).
      rewrite Hpo. rewrite (Hin o'); [by exists sig|by eapply list_elem_of_lookup_2].
    + rewrite <- (Hk k Hn), Hout; [done|]. by rewrite Hpk.
  - intros Hv. rewrite <- Hp in Hv. specialize (Hlink Hv). simpl in Hlink. rewrite Es, Eh.
    replace (by_sequence ev) with l'; [exact Hlink|]. symmetry. unfold by_sequence. apply sort_by_unique.
    + by apply linked_sequences in Hlink as (_ & ? & _).
    + symmetry. apply rows_of_list; [by rewrite Hpk|done|done].
Qed.
End chain_walk_facts.

(** ** The commands *)

Section commands_facts.
Context {PF : Platform} {LF : LegacyFernet} {EK : EncryptingKeyring} {SK : SigningKeyring}.

Lemma decrypt_opens value key w p w' : decrypt value key w = (Ok p, w') → w' = w ∧ opens value key p.
Proof.
  intros H. split; [pose proof (decrypt_run value key w) as E; by rewrite H in E|].
  intros w2. rewrite (decrypt_indep value key w2 w). by rewrite H.
Qed.

Lemma encrypt_opens p w c w' : encrypt p w = (Ok c, w') → w_db w' = w_db w ∧ opens c active_key_id p.
Proof.
  intros (-> & H)%encrypt_ok_inv. split; [done|]. apply decrypt_encrypt in H. intros w2. unfold decrypt. cbn. by rewrite H.
Qed.

#[export] Instance backend_carries : Carries opens (reseal_backend true).
Proof.
  intros value key w c w' H. unfold reseal_backend in H. apply bind_ok_inv in H as (p & w1 & Hd & H).
  apply decrypt_opens in Hd as [-> Hp]. apply bind_ok_inv in H as (c' & w2 & He & H). injection H as <- <-.
  apply encrypt_opens in He as [Hdb Ho]. split; [done|]. by exists p.
Qed.

(** What a stored value meant before the first migration. *)
Definition legacy_meaning (ciphers : list (string * string)) (value key_id plaintext : string) : Prop :=
  if decide (key_id = active_key_id) then opens value key_id plaintext else legacy_decrypt ciphers value key_id = Ok plaintext.

#[export] Instance legacy_carries ciphers : Carries (legacy_meaning ciphers) (reseal_legacy ciphers true).
Proof.
  intros value key w c w' H. unfold reseal_legacy in H. unfold legacy_meaning. destruct (decide (key = active_key_id)).
  - apply bind_ok_inv in H as (p & w1 & Hd & H). apply decrypt_opens in Hd as [-> Hp]. injection H as <- <-.
    split; [done|]. by exists p.
  - apply bind_ok_inv in H as (p & w1 & Hd & H). injection Hd as Hd <-. apply bind_ok_inv in H as (c' & w2 & He & H).
    injection H as <- <-. apply encrypt_opens in He as [Hdb Ho]. split; [done|]. by exists p.
Qed.

Lemma sign_again_inv e w s w' :
  sign_again e w = (Ok s, w') → w' = w ∧ ∃ sig, s = Some sig ∧ sig ≠ "" ∧ kr_verify keyring (e_event_hash e) sig = Ok true.
Proof.
  unfold sign_again. intros H. apply bind_ok_inv in H as (sig & w1 & Hs & H). injection Hs as Hs <-. injection H as <- <-.
  split; [done|]. exists sig. split; [done|]. by apply sign_verifies.
Qed.

Lemma raise_if_inv b e w u w' : raise_if b e w = (Ok u, w') → b = false ∧ w' = w.
Proof. unfold raise_if. destruct b; [discriminate|]. by intros [= _ <-]. Qed.

#[export] Instance backend_resigns : Resigns (resign_backend true).
Proof.
  intros e w s w' H. unfold resign_backend in H. apply bind_ok_inv in H as (bad & w1 & Hb & H).
  assert (w1 = w) as ->.
  { unfold signature_invalid in Hb. case_decide; [by injection Hb|]. apply bind_ok_inv in Hb as (ok & w2 & Hk & Hb).
    by injection Hk as _ <-; injection Hb as _ <-. }
  apply bind_ok_inv in H as (u & w2 & Hr & H). apply raise_if_inv in Hr as [_ ->].
  apply sign_again_inv in H as (-> & sig & -> & Hne & Hv). done.
Qed.

#[export] Instance legacy_resigns audit_key : Resigns (resign_legacy audit_key true).
Proof.
  intros e w s w' H. unfold resign_legacy in H. apply bind_ok_inv in H as (valid & w1 & Hb & H).
  assert (w1 = w ∧ (valid = true → e_signature e ≠ "" ∧ kr_verify keyring (e_event_hash e) (e_signature e) = Ok true)) as [-> Hv].
  { unfold keyring_valid in Hb. case_decide; [by injection Hb as <- <-|]. by injection Hb as Hb <-; split; [|intros ->]. }
  apply bind_ok_inv in H as (lv & w2 & Hl & H). injection Hl as _ <-.
  apply bind_ok_inv in H as (u & w2 & Hr & H). apply raise_if_inv in Hr as [_ ->].
  destruct valid; cbn [negb andb] in H.
  - injection H as <- <-. split; [done|]. intros signature _. by apply Hv.
  - apply sign_again_inv in H as (-> & sig & -> & ? & ?). done.
Qed.

(** An applied command: its run, or nothing. *)
Lemma handle_true {A} confirmation (run_migration : bool → M A) confirm w r w' :
  (∀ w e w', run_migration true w = (Raise e, w') → w_db w' = w_db w) →
  handle_migration confirmation run_migration true confirm w = (r, w') →
  match r with Ok x => run_migration true w = (Ok x, w') | Raise _ => w_db w' = w_db w end.
Proof.
  intros Hraise H. unfold handle_migration, raise_if, mbind, M_bind in H. destruct (_ && _); [by injection H as <- <-|].
  cbn [mret M_ret] in H. unfold try_except in H. destruct (run_migration true w) as [[x|e] w1] eqn:Er; injection H as <- <-; [done|].
  by eapply Hraise.
Qed.

(** Everything a migration that adds the event [action] carries over: the secrets and
    the rows that hold them, every other table, the events, the chain. *)
Definition migrated (before : string → string → string → Prop) (action : string) (d d' : db) : Prop :=
  secrets_carried before d d' ∧ other_tables d' = other_tables d ∧
  (∃ closing, e_actor (val closing) = None ∧ e_action (val closing) = action ∧
     audit_events d !! pk closing = None ∧ audit_events d' !! pk closing = Some (val closing) ∧
     same_trail (audit_events d) (delete (pk closing) (audit_events d'))) ∧
  (Forall known_version (rows (audit_events d)) → chain_ok d').

Lemma migration_steps before reseal resign `{!Carries before reseal} `{!Resigns resign} state w n w1 s w2 action md o w3 :
  audit_state (w_db w) = Some state → migrate_all_models reseal w = (Ok n, w1) → migrate_chain resign state w1 = (Ok s, w2) →
  record_event None action migration_resource md None w2 = (Ok o, w3) → migrated before action (w_db w) (w_db w3).
Proof.
  intros Hst Hm Hc Hr. apply (migrate_all_inv before) in Hm as (Hs & Hev & Hstate & Hother); [|apply _].
  apply (migrate_chain_inv resign) in Hc as (ev & Hdb & Htrail & Hlink). rewrite Hev in Htrail, Hlink.
  assert (Forall known_version (rows (audit_events (w_db w))) → chain_ok (w_db w2)) as Hok.
  { intros Hv. exists state. rewrite Hdb. unfold with_events. cbn. split; [congruence|]. by apply Hlink. }
  pose proof Hr as Hr'. apply record_event_ok_inv in Hr' as (st' & sig & _ & Ho & _ & _ & Hn & _ & _ & Hins & (a & b & c & Hf)).
  assert (audit_events (w_db w2) = ev) as E2 by by rewrite Hdb. rewrite E2 in Hn, Hins.
  split; [|split; [|split]].
  - unfold secrets_carried in *. rewrite Hf, Hdb. unfold with_events. simpl. exact Hs.
  - rewrite <- Hother, Hf, Hdb. done.
  - exists o. rewrite Hins, lookup_insert_eq, delete_insert_id by done. rewrite Ho. do 2 (split; [done|]). split; [|done].
    specialize (Htrail (pk o)). rewrite Hn in Htrail. by destruct (audit_events (w_db w) !! pk o).
  - intros Hv. by eapply chain_ok_record; [apply Hok|].
Qed.

(** Moving to another backend keeps everything.  When the confirmed command succeeds,
    every encrypted column that held something opens, under the active key, to the text
    it opened to before; the other columns and tables are unchanged, but for the dates
    of update; every audit event is there, unchanged but for its signature, and one
    event is added; and if the events have known versions, the chain verifies.  When it
    fails, the database is as it was. *)
Theorem backend_migration_keeps_everything confirm w :
  match migrate_keyring_backend true confirm w with
  | (Ok _, w') => migrated opens "security.keyring_backend_migration_completed" (w_db w) (w_db w')
  | (Raise _, w') => w_db w' = w_db w
  end.
Proof.
  destruct (migrate_keyring_backend true confirm w) as [r w'] eqn:H.
  apply handle_true in H; [|intros; by eapply (atomic_raise_db _ _)].
  destruct r as [r|e]; [|done]. unfold run_backend in H. apply atomic_ok_inv in H.
  apply bind_ok_inv in H as (state & w1 & Hst & H). unfold get_chain_state in Hst.
  destruct (audit_state (w_db w)) as [st|] eqn:Est; [|discriminate Hst]. injection Hst as <- <-.
  apply bind_ok_inv in H as (n & w2 & Hm & H). apply bind_ok_inv in H as (s & w3 & Hch & H).
  apply bind_ok_inv in H as (u2 & w4 & Hr & H). injection H as _ <-. apply bind_ok_inv in Hr as (o & w5 & Hr & Hu). injection Hu as _ <-.
  by eapply (migration_steps opens (reseal_backend true) (resign_backend true)).
Qed.

(** C14: Moving off the legacy keys keeps everything.  When the confirmed command
    succeeds, the legacy ciphers could be built from the environment; every encrypted
    column that held something opens, through the keyring, to the text it held before
    (as the legacy cipher of its key opened it, or the keyring if its key was already
    the active one), and an empty one is still empty; no row appears or disappears,
    and the other columns of these rows are unchanged, but for the date of update; every
    other table is unchanged; every audit event is there, unchanged but for its
    signature, and one event without actor reports the migration; and if the events had
    known versions, the whole chain is linked and each signature verifies.  When the
    command fails, the database is as it was. *)
Theorem legacy_migration_keeps_everything environ confirm w :
  match migrate_secrets_to_keyring environ true confirm w with
  | (Ok _, w') => ∃ ciphers, LegacyVaultCipher environ = Ok ciphers ∧
      migrated (legacy_meaning ciphers) "security.keyring_migration_completed" (w_db w) (w_db w')
  | (Raise _, w') => w_db w' = w_db w
  end.
Proof.
  destruct (migrate_secrets_to_keyring environ true confirm w) as [r w'] eqn:H.
  apply handle_true in H; [|intros; by eapply (atomic_raise_db _ _)].
  destruct r as [r|e]; [|done]. unfold run_legacy in H. apply atomic_ok_inv in H.
  apply bind_ok_inv in H as (state & w1 & Hst & H). unfold get_chain_state in Hst.
  destruct (audit_state (w_db w)) as [st|] eqn:Est; [|discriminate Hst]. injection Hst as <- <-.
  apply bind_ok_inv in H as (ciphers & w1 & Hci & H). injection Hci as Hci <-.
  apply bind_ok_inv in H as (u1 & w1 & Hk & H). apply raise_if_inv in Hk as [_ ->].
  apply bind_ok_inv in H as (n & w2 & Hm & H). apply bind_ok_inv in H as (s & w3 & Hch & H).
  apply bind_ok_inv in H as (u2 & w4 & Hr & H). injection H as _ <-. apply bind_ok_inv in Hr as (o & w5 & Hr & Hu). injection Hu as _ <-.
  exists ciphers. split; [done|]. by eapply (migration_steps (legacy_meaning ciphers) (reseal_legacy ciphers true)
    (resign_legacy (default "" (environ !! "PAMOLIVE_AUDIT_SIGNING_KEY")) true)).
Qed.
End commands_facts.

(** ** Dry runs and failures *)

Section dry_runs.
Context {PF : Platform} {LF : LegacyFernet}.

(** A step of the walk that writes nothing and asks for nothing to be written. *)
Definition only_reads {B} (m : M (option B)) : Prop := ∀ w x w', m w = (Ok x, w') → x = None ∧ w_db w' = w_db w.

Section loops.
Context (reseal : string → string → M (option string)) (Hreseal : ∀ value key, only_reads (reseal value key)).
Context (resign : audit_event → M (option string)) (Hresign : ∀ e, only_reads (resign e)).

Definition keeps_db {B} (m : M B) : Prop := ∀ w x w', m w = (Ok x, w') → w_db w' = w_db w.

Lemma fold_keeps {A S} (l : list A) (f : S → A → M S) : (∀ s x, keeps_db (f s x)) → ∀ s, keeps_db (fold_m l s f).
Proof.
  intros Hf. induction l as [|x l IH]; intros s w y w' H; cbn [fold_m] in H; [by injection H as _ <-|].
  apply bind_ok_inv in H as (s1 & w1 & H1 & H). apply Hf in H1. apply IH in H. congruence.
Qed.

Lemma fields_read {A} (fields : list (encrypted_field A)) a n w b dirty n' w' :
  migrate_fields reseal fields a n w = (Ok (b, dirty, n'), w') → dirty = false ∧ w_db w' = w_db w.
Proof.
  unfold migrate_fields. enough (∀ d0, d0 = false → ∀ a n w,
    fold_m fields (a, d0, n) _ w = (Ok (b, dirty, n'), w') → dirty = false ∧ w_db w' = w_db w) as H by (by apply H).
  induction fields as [|f fields IH]; intros d0 -> a0 n0 w0 H; cbn [fold_m] in H; [by injection H as _ <- _ <-|].
  apply bind_ok_inv in H as ([[a1 d1] n1] & w1 & Hs & H).
  assert (d1 = false ∧ w_db w1 = w_db w0) as [-> Hdb].
  { case_decide; [by injection Hs as _ <- _ <-|]. apply bind_ok_inv in Hs as (c & w2 & Hc & Hs).
    apply Hreseal in Hc as [-> Hc]. by injection Hs as _ <- _ <-. }
  apply IH in H as [-> H]; [|done]. split; [done|congruence].
Qed.

Lemma model_reads {A} (tbl : db → gmap id A) `{!Setter tbl} fields stamp n : keeps_db (migrate_model reseal tbl fields stamp n).
Proof.
  intros w x w' H. unfold migrate_model in H. rewrite run_asks in H. eapply fold_keeps, H. clear -Hreseal. intros s o w x w' H.
  unfold migrate_row in H. apply bind_ok_inv in H as ([[a dirty] n1] & w1 & Hf & H). apply fields_read in Hf as [-> Hdb].
  by injection H as _ <-.
Qed.

Lemma all_models_read : keeps_db (migrate_all_models reseal).
Proof.
  intros w x w' H. unfold migrate_all_models in H.
  do 6 (apply bind_ok_inv in H as (? & ? & ?H1 & H)).
  repeat match goal with H1 : migrate_model _ _ _ _ _ _ = _ |- _ => apply model_reads in H1 end. congruence.
Qed.

Lemma chain_reads state : keeps_db (migrate_chain resign state).
Proof.
  intros w x w' H. unfold migrate_chain in H. rewrite run_asks in H. cbv beta in H.
  apply bind_ok_inv in H as (s & w1 & Hf & H). apply bind_ok_inv in H as (u & w2 & Hr & H). injection H as _ <-.
  apply raise_if_inv in Hr as [_ ->]. eapply fold_keeps, Hf. clear -Hresign. intros s o w x w' H. unfold migrate_event in H.
  apply bind_ok_inv in H as (u1 & w1 & H1 & H). apply raise_if_inv in H1 as [_ ->].
  apply bind_ok_inv in H as (u2 & w2 & H2 & H). apply raise_if_inv in H2 as [_ ->].
  apply bind_ok_inv in H as (sig & w3 & H3 & H). apply Hresign in H3 as [-> Hdb]. by injection H as _ <-.
Qed.
End loops.

Lemma backend_reads value key : only_reads (reseal_backend false value key).
Proof.
  intros w x w' H. unfold reseal_backend in H. apply bind_ok_inv in H as (p & w1 & Hd & H). injection H as <- <-.
  pose proof (decrypt_run value key w) as E. rewrite Hd in E. simpl in E. by subst.
Qed.

Lemma legacy_reads ciphers value key : only_reads (reseal_legacy ciphers false value key).
Proof.
  intros w x w' H. unfold reseal_legacy in H. case_decide.
  - apply bind_ok_inv in H as (p & w1 & Hd & H). injection H as <- <-.
    pose proof (decrypt_run value key w) as E. rewrite Hd in E. simpl in E. by subst.
  - apply bind_ok_inv in H as (p & w1 & Hd & H). injection Hd as _ <-. by injection H as <- <-.
Qed.

Lemma backend_checks e : only_reads (resign_backend false e).
Proof.
  intros w x w' H. unfold resign_backend in H. apply bind_ok_inv in H as (bad & w1 & Hb & H).
  apply bind_ok_inv in H as (u & w2 & Hr & H). apply raise_if_inv in Hr as [_ ->]. injection H as <- <-. split; [done|].
  unfold signature_invalid in Hb. case_decide; [by injection Hb as _ <-|]. apply bind_ok_inv in Hb as (ok & w2 & Hk & Hb).
  injection Hk as _ <-. by injection Hb as _ <-.
Qed.

Lemma legacy_checks audit_key e : only_reads (resign_legacy audit_key false e).
Proof.
  intros w x w' H. unfold resign_legacy in H. apply bind_ok_inv in H as (valid & w1 & Hb & H).
  apply bind_ok_inv in H as (lv & w2 & Hl & H). injection Hl as _ <-.
  apply bind_ok_inv in H as (u & w2 & Hr & H). apply raise_if_inv in Hr as [_ ->]. rewrite andb_false_r in H. injection H as <- <-.
  split; [done|]. unfold keyring_valid in Hb. case_decide; by injection Hb as _ <-.
Qed.

Lemma run_backend_reads : keeps_db (run_backend false).
Proof.
  intros w x w' H. unfold run_backend in H. apply atomic_ok_inv in H. apply bind_ok_inv in H as (st & w1 & Hst & H).
  unfold get_chain_state in Hst. case_match; [|discriminate Hst]. injection Hst as _ <-.
  apply bind_ok_inv in H as (n & w2 & Hm & H). apply all_models_read in Hm; [|apply backend_reads].
  apply bind_ok_inv in H as (s & w3 & Hc & H). apply chain_reads in Hc; [|apply backend_checks]. injection H as _ <-. congruence.
Qed.

Lemma run_legacy_reads environ : keeps_db (run_legacy environ false).
Proof.
  intros w x w' H. unfold run_legacy in H. apply atomic_ok_inv in H. apply bind_ok_inv in H as (st & w1 & Hst & H).
  unfold get_chain_state in Hst. case_match; [|discriminate Hst]. injection Hst as _ <-.
  apply bind_ok_inv in H as (ciphers & w1 & Hci & H). injection Hci as _ <-.
  apply bind_ok_inv in H as (u1 & w1 & Hk & H). apply raise_if_inv in Hk as [_ ->].
  apply bind_ok_inv in H as (n & w2 & Hm & H). apply all_models_read in Hm; [|apply legacy_reads].
  apply bind_ok_inv in H as (s & w3 & Hc & H). apply chain_reads in Hc; [|apply legacy_checks]. injection H as _ <-. congruence.
Qed.

Lemma handle_reads {A} confirmation (run_migration : bool → M A) apply confirm w r w' :
  (∀ b w e w', run_migration b w = (Raise e, w') → w_db w' = w_db w) → keeps_db (run_migration false) →
  handle_migration confirmation run_migration apply confirm w = (r, w') →
  (apply = false ∨ is_ok r = false → w_db w' = w_db w) ∧ (apply = true → confirm ≠ confirmation → r = Raise CommandError) ∧
  ∀ e, r = Raise e → e = CommandError.
Proof.
  intros Hraise Hdry. unfold handle_migration, raise_if. destruct (_ && _) eqn:Eg.
  - intros [= <- <-]. split_and!; try done. by intros e [= <-].
  - intros H. assert (apply = true → confirm = confirmation) as Hconf.
    { intros ->. apply bool_decide_eq_false in Eg. by apply dec_stable. }
    unfold mbind, M_bind in H. cbn [mret M_ret] in H. unfold try_except in H.
    destruct (run_migration apply w) as [[x|e] w1] eqn:Er; injection H as <- <-.
    + split_and!; [|naive_solver|done]. intros [->|Hf]; [by eapply Hdry|done].
    + split_and!; [intros _; by eapply Hraise|done|by intros ? [= <-]].
Qed.

(** A migration that does not succeed, or is not applied, changes nothing.  For either
    command, a dry run and a run that fails leave the database as it was, whatever had
    been resealed or signed before the failure; a run that is applied without its
    confirmation text fails; and every failure is reported as a command error. *)
Theorem migration_all_or_nothing environ apply confirm w :
  (∀ r w', migrate_keyring_backend apply confirm w = (r, w') →
     (apply = false ∨ is_ok r = false → w_db w' = w_db w) ∧
     (apply = true → confirm ≠ "MIGRATE-KEYRING-BACKEND" → r = Raise CommandError) ∧ ∀ e, r = Raise e → e = CommandError) ∧
  (∀ r w', migrate_secrets_to_keyring environ apply confirm w = (r, w') →
     (apply = false ∨ is_ok r = false → w_db w' = w_db w) ∧
     (apply = true → confirm ≠ "MIGRATE-TO-KEYRING" → r = Raise CommandError) ∧ ∀ e, r = Raise e → e = CommandError).
Proof.
  split; intros r w'.
  - apply handle_reads; [|apply run_backend_reads]. intros b w0 e w1. unfold run_backend. apply atomic_raise_db.
  - apply handle_reads; [|apply run_legacy_reads]. intros b w0 e w1. unfold run_legacy. apply atomic_raise_db.
Qed.
End dry_runs.

(** ** A restored database *)

Section restores.
Context {PF : Platform}.

Lemma verified_chain w v w' : verify_audit_chain w = (Ok v, w') → w' = w ∧ (av_valid v = true → chain_ok (w_db w)).
Proof.
  unfold verify_audit_chain. intros H. rewrite run_asks in H. cbv beta in H. apply bind_ok_inv in H as (s & w1 & Hf & H).
  apply verify_loop_spec in Hf as (-> & _ & Hs). apply bind_ok_inv in H as (st & w2 & Hst & H). unfold get_chain_state in Hst.
  destruct (audit_state (w_db w)) as [st'|] eqn:Est; [|discriminate Hst]. injection Hst as <- <-. injection H as <- <-.
  split; [done|]. intros [Hi Hh]%bool_decide_eq_true%app_nil. apply Hs in Hi as [_ Hl]. simpl in Hl.
  destruct (_ || _) eqn:E in Hh; [done|]. apply orb_false_iff in E as [E1 E2]. breflect. apply dec_stable in E1, E2.
  exists st'. split; [done|]. by rewrite E1, E2.
Qed.

(** Every column of the table that holds something opens. *)
Definition readable_table {A} (fields : list (encrypted_field A)) (t : gmap id A) : Prop :=
  ∀ k a f, t !! k = Some a → f ∈ fields → ef_value f a ≠ "" → ∃ p, opens (ef_value f a) (ef_key f a) p.

Definition readable (d : db) : Prop :=
  readable_table credential_fields (credentials d) ∧ readable_table vault_item_fields (vault_items d) ∧
  readable_table mfa_device_fields (mfa_devices d) ∧ readable_table connector_fields (connectors d) ∧
  readable_table identity_source_fields (identity_sources d) ∧ readable_table rotation_job_fields (rotation_jobs d) ∧
  readable_table siem_fields (siem_integrations d).

Lemma decrypt_readable value key w p w' : decrypt value key w = (Ok p, w') → w' = w ∧ opens value key p.
Proof.
  intros H. split; [pose proof (decrypt_run value key w) as E; by rewrite H in E|].
  intros w2. rewrite (decrypt_indep value key w2 w). by rewrite H.
Qed.

Lemma rotate_fields_reads {A} (fields : list (encrypted_field A)) a rep w b dirty rep' w' :
  rotate_fields false fields a rep w = (Ok (b, dirty, rep'), w') →
  w' = w ∧ ∀ f, f ∈ fields → ef_value f a ≠ "" → ∃ p, opens (ef_value f a) (ef_key f a) p.
Proof.
  unfold rotate_fields. generalize false at 1 as d0. revert rep. induction fields as [|f fields IH]; intros rep d0 H; cbn [fold_m] in H.
  - injection H as _ _ _ <-. split; [done|]. intros f Hf. by apply elem_of_nil in Hf.
  - apply bind_ok_inv in H as ([[a1 d1] r1] & w1 & Hs & H).
    assert (w1 = w ∧ a1 = a ∧ (ef_value f a ≠ "" → ∃ p, opens (ef_value f a) (ef_key f a) p)) as (-> & -> & Hf).
    { case_decide; [by injection Hs as <- _ _ <-|]. apply bind_ok_inv in Hs as (p & w2 & Hd & Hs).
      apply decrypt_readable in Hd as [-> Hp]. case_decide; injection Hs as <- _ _ <-; eauto. }
    apply IH in H as [-> Hrest]. split; [done|]. intros g [->|Hg]%elem_of_cons; [done|by apply Hrest].
Qed.

Lemma rotate_model_reads {A} (tbl : db → gmap id A) `{!Setter tbl} fields stamp rep w rep' w' :
  rotate_model tbl fields stamp false rep w = (Ok rep', w') → w' = w ∧ readable_table fields (tbl (w_db w)).
Proof.
  unfold rotate_model. intros H. rewrite run_asks in H. cbv beta in H. set (l := sort_by _ _) in H.
  assert (∀ o, o ∈ l ↔ tbl (w_db w) !! pk o = Some (val o)) as Hel by (intros o; unfold l; by rewrite elem_of_sort_by, elem_of_rows).
  enough (w' = w ∧ ∀ o, o ∈ l → ∀ f, f ∈ fields → ef_value f (val o) ≠ "" → ∃ p, opens (ef_value f (val o)) (ef_key f (val o)) p)
    as [-> Hr].
  { split; [done|]. intros k a f Hk. by apply (Hr (Obj k a)), Hel. }
  clear Hel. revert rep H. induction l as [|o l IH]; intros rep H; cbn [fold_m] in H.
  - injection H as _ <-. split; [done|]. intros o Ho. by apply elem_of_nil in Ho.
  - apply bind_ok_inv in H as (r1 & w1 & Hs & H). apply bind_ok_inv in Hs as ([[a d] r2] & w2 & Hf & Hs).
    apply rotate_fields_reads in Hf as [-> Hf]. injection Hs as _ <-. apply IH in H as [-> Hr]. split; [done|].
    intros o' [->|Ho']%elem_of_cons; [done|by apply Hr].
Qed.

Lemma rotate_all_reads w rep w' : rotate_all_models false w = (Ok rep, w') → w' = w ∧ readable (w_db w).
Proof.
  unfold rotate_all_models, readable. intros H.
  apply bind_ok_inv in H as (r1 & w1 & H1 & H). apply rotate_model_reads in H1 as [-> C1].
  apply bind_ok_inv in H as (r2 & w2 & H2 & H). apply rotate_model_reads in H2 as [-> C2].
  apply bind_ok_inv in H as (r3 & w3 & H3 & H). apply rotate_model_reads in H3 as [-> C3].
  apply bind_ok_inv in H as (r4 & w4 & H4 & H). apply rotate_model_reads in H4 as [-> C4].
  apply bind_ok_inv in H as (r5 & w5 & H5 & H). apply rotate_model_reads in H5 as [-> C5].
  apply bind_ok_inv in H as (r6 & w6 & H6 & H). apply rotate_model_reads in H6 as [-> C6].
  apply rotate_model_reads in H as [-> C7]. done.
Qed.

(** A restored database that passes the check is usable.  When [verify_restore]
    succeeds, no schema migration is pending, the marker account asked for exists, the
    audit chain satisfies its specification, every encrypted column opens under the
    active key, and the check has changed nothing. *)
Theorem verified_restore_is_usable pending expect_user w r w' :
  verify_restore pending expect_user w = (Ok r, w') →
  w_db w' = w_db w ∧ pending = 0 ∧
  (expect_user ≠ "" → ∃ k u, users (w_db w) !! k = Some u ∧ u_username u = expect_user) ∧
  chain_ok (w_db w) ∧ readable (w_db w).
Proof.
  unfold verify_restore. intros H. apply bind_ok_inv in H as (u1 & w1 & Hp & H). apply raise_if_inv in Hp as [Hp ->].
  apply negb_false_iff, Z.eqb_eq in Hp. rewrite run_asks in H. cbv beta in H.
  apply bind_ok_inv in H as (u2 & w2 & Hu & H). apply raise_if_inv in Hu as [Hu ->].
  apply bind_ok_inv in H as (v & w3 & Hv & H). apply verified_chain in Hv as [-> Hv].
  apply bind_ok_inv in H as (u4 & w4 & Ha & H). apply raise_if_inv in Ha as [Ha ->]. apply negb_false_iff in Ha.
  apply bind_ok_inv in H as (rep & w5 & Hr & H). injection H as _ <-. unfold rotate_vault_encryption in Hr.
  apply atomic_ok_inv in Hr. apply bind_ok_inv in Hr as (rep' & w6 & Hall & Hr). apply rotate_all_reads in Hall as [-> Hread].
  injection Hr as _ <-. split; [done|]. split; [done|]. split; [|split; [by apply Hv|done]].
  intros Hne. rewrite bool_decide_true in Hu by done. cbn [andb] in Hu. apply negb_false_iff, exists_row_true in Hu as (o & Ho & Hn).
  exists (pk o), (val o). split; [done|]. by apply bool_decide_eq_true in Hn.
Qed.
End restores.


(** ** Concrete runs *)

Section witnesses.
#[local] Existing Instance demo_platform.

(** A legacy token is its key, a colon, and the text. *)
#[local] Instance demo_legacy : LegacyFernet := {|
  legacy_key_ok k := bool_decide (k ≠ "");
  legacy_open k t := strip_prefix (k +:+ ":") t;
|}.

#[local] Instance demo_signing : SigningKeyring.
Proof. split. intros h s [= <-]. split; [done|]. simpl. by rewrite bool_decide_true. Qed.

Definition demo_item (payload key_id : string) : personal_vault_item :=
  PersonalVaultItem 7 None "bank" "login" payload key_id false (Stamps 0 0).

(** One secret under each key, and a chain of one event signed by the old key. *)
Definition demo_old : world := Eval vm_compute in
  let d := w_db (record_event None "first" (Resource "accounts.user" "7") [] None (demo_world empty_db)).2 in
  demo_world (d <| vault_items := {[ 70%N := demo_item "oldkey:hunter2" "legacy"; 71%N := demo_item "enc:swordfish" active_key_id ]} |>
                <| audit_events ::= fmap (λ e, with_signature (legacy_signature "k" e) e) |>).

Definition demo_environ : gmap string string :=
  {[ "PAMOLIVE_VAULT_KEY" := "oldkey"; "PAMOLIVE_AUDIT_SIGNING_KEY" := "k" ]}.

Definition demo_moved : outcome legacy_report * world := Eval vm_compute in
  migrate_secrets_to_keyring demo_environ true "MIGRATE-TO-KEYRING" demo_old.

Definition demo_resealed : outcome (Z * Z) * world := Eval vm_compute in
  migrate_keyring_backend true "MIGRATE-KEYRING-BACKEND" demo_moved.2.

(** Two secrets are seen and one is moved; the event is signed again, and the command
    adds the second event, which the other command then finds. *)
Example migration_counts :
  demo_moved.1 = Ok (LegacyReport 2 1 1 1) ∧ demo_resealed.1 = Ok (2, 2) ∧
  (pv_encrypted_payload <$> vault_items (w_db demo_moved.2) !! 70%N) = Some "enc:hunter2".
Proof. by split_and!; vm_compute. Qed.

(** Without the old audit key, the command fails. *)
Example migration_needs_audit_key :
  (migrate_secrets_to_keyring (delete "PAMOLIVE_AUDIT_SIGNING_KEY" demo_environ) true "MIGRATE-TO-KEYRING" demo_old).1 = Raise CommandError.
Proof. vm_compute. reflexivity. Qed.

Lemma legacy_migration_keeps_everything_witness :
  ∃ ciphers, LegacyVaultCipher demo_environ = Ok ciphers ∧
    migrated (legacy_meaning ciphers) "security.keyring_migration_completed" (w_db demo_old) (w_db demo_moved.2).
Proof.
  pose proof (@legacy_migration_keeps_everything _ _ demo_encrypting demo_signing demo_environ "MIGRATE-TO-KEYRING" demo_old) as H.
  assert (migrate_secrets_to_keyring demo_environ true "MIGRATE-TO-KEYRING" demo_old = demo_moved) as E by (vm_compute; reflexivity).
  rewrite E in H. exact H.
Defined.

Lemma backend_migration_keeps_everything_witness :
  migrated opens "security.keyring_backend_migration_completed" (w_db demo_moved.2) (w_db demo_resealed.2).
Proof.
  pose proof (@backend_migration_keeps_everything _ demo_encrypting demo_signing "MIGRATE-KEYRING-BACKEND" demo_moved.2) as H.
  assert (migrate_keyring_backend true "MIGRATE-KEYRING-BACKEND" demo_moved.2 = demo_resealed) as E by (vm_compute; reflexivity).
  by rewrite E in H.
Defined.

(** A secret under an unknown key stops the migration, after the first was resealed. *)
Definition demo_broken : world := Eval vm_compute in
  demo_old <| w_db ::= λ d, d <| vault_items ::= insert 72%N (demo_item "x" "lost") |> |>.

Lemma migration_all_or_nothing_witness :
  (migrate_secrets_to_keyring demo_environ true "MIGRATE-TO-KEYRING" demo_broken).1 = Raise CommandError ∧
  w_db (migrate_secrets_to_keyring demo_environ true "MIGRATE-TO-KEYRING" demo_broken).2 = w_db demo_broken.
Proof.
  assert ((migrate_secrets_to_keyring demo_environ true "MIGRATE-TO-KEYRING" demo_broken).1 = Raise CommandError) as E
    by (vm_compute; reflexivity).
  split; [exact E|].
  destruct (migration_all_or_nothing demo_environ true "MIGRATE-TO-KEYRING" demo_broken) as [_ H].
  destruct (H _ _ (surjective_pairing _)) as [Hdb _]. apply Hdb. right. by rewrite E.
Defined.

Lemma verified_restore_is_usable_witness :
  chain_ok (w_db demo_resealed.2) ∧ readable (w_db demo_resealed.2).
Proof.
  destruct (verified_restore_is_usable 0 "" demo_resealed.2 (3, 2) demo_resealed.2) as (_ & _ & _ & Hc & Hr).
  - vm_compute. reflexivity.
  - by split.
Defined.
End witnesses.
