(* ===== verification/Ldap.v ===== *)
(** * The directory adapter ([pamolive/connectors/adapters.py], [tasks.py])

    Reading users over LDAP: the connection with its guard and its transport security,
    the search, the translation of entries, and the background task that synchronises
    a source with its retries.  What is done to the directory is a trace of calls. *)

From S2P Require Import Prelude PyStr Json Loads Crypto PyTime Models World Text AuditTrail Ip Vault Licensing Policies Directory Outbound.

Local Open Scope Z_scope.
#[local] Set Warnings "-register-all".

(** ** The LDAP library *)

(** [Server(...)]; certificates are always required ([Tls(validate=ssl.CERT_REQUIRED)]),
    and no schema is read ([get_info=NONE]). *)
Record ldap_server := LdapServer {
  srv_host : option string;
  srv_port : Z;
  srv_use_ssl : bool;
  srv_connect_timeout : Z;
}.

(** [Connection(server, ...)], bound when it is made; [start_tls]: before the bind. *)
Record ldap_bind := LdapBind {
  bind_user : option json;
  bind_password : option json;
  start_tls : bool;
}.

(** A value of an attribute: a text, a list, or anything else by its truth, its text and,
    when it can be iterated over, the texts of its items. *)
Inductive ldap_value :=
  | LText (s : string)
  | LList (l : list ldap_value)
  | LOther (truthy : bool) (text : string) (items : option (list string)).

(** An answer: [entry.get("type")], [entry["dn"]] ([None] for [KeyError]), and
    [entry.get("attributes", {}).get(name)]. *)
Record ldap_entry := LdapEntry {
  le_type : option string;
  le_dn : option string;
  le_attribute : json → outcome (option ldap_value);
}.

(** The search yields its answers one by one, and may raise at any of them.
    [list_str]: [str] of a list. *)
Class LdapLib := {
  ldap_conn : Type;
  new_server : ldap_server → outcome unit;
  new_connection : ldap_server → ldap_bind → outcome ldap_conn;
  paged_search : ldap_conn → json → json → list json → Z → outcome (list (outcome ldap_entry));
  unbind : ldap_conn → outcome unit;
  list_str : list ldap_value → string;
}.

(** ** Calls and their trace *)

Inductive ldap_call :=
  | Connected (server : ldap_server) (bind : ldap_bind)
  | Searched (base user_filter : json) (attributes : list json)
  | Unbound.

Definition io (A : Type) : Type := list ldap_call * outcome A.

#[global] Instance io_ret : MRet io := λ A x, ([], Ok x).
#[global] Instance io_bind : MBind io := λ A B f m,
  match m.2 with
  | Ok x => (m.1 ++ (f x).1, (f x).2)
  | Raise e => (m.1, Raise e)
  end.

Definition lift {A} (r : outcome A) : io A := ([], r).

(** A call that is made, and what it answers. *)
Definition call {A} (c : ldap_call) (r : outcome A) : io A := ([c], r).

(** [except Exception as error: raise DirectoryConnectionError(msg) from error] *)
Definition masked {A} (msg : string) (m : io A) : io A :=
  (m.1, match m.2 with Ok x => Ok x | Raise _ => Raise (DirectoryConnectionError msg) end).

(** [try: m finally: f]: an exception of [f] replaces the result. *)
Definition finally {A} (m : io A) (f : io unit) : io A :=
  (m.1 ++ f.1, match f.2 with Raise e => Raise e | Ok _ => m.2 end).

(** ** The adapter *)

Definition is_ldap_kind (kind : string) : bool := bool_decide (kind ∈ ["ldap"; "active_directory"]).

Definition connection_refused : string := "Connexion à l’annuaire impossible.".
Definition reading_failed : string := "Lecture de l’annuaire impossible.".

Section adapter.
Context {OE : OutboundEnv} {LL : LdapLib}.

(** [urlparse(configuration["server_uri"])]: a value that is not a text parses as
    nothing when it is falsy. *)
Definition server_uri (configuration : list (string * json)) : outcome url :=
  match dict_get "server_uri" configuration with
  | None => Raise (OtherError "KeyError")
  | Some (JStr s) => match urlparse s with Some u => Ok u | None => Raise (ValueError "Invalid IPv6 URL") end
  | Some j => if json_truthy j then Raise (OtherError "AttributeError") else Ok (Url "" None None None None)
  end.

(** [validate_outbound_host(parsed.hostname, ...)]: no host resolves to the loopback. *)
Definition validate_directory_host (host : option string) (port : Z) : outcome unit :=
  match host with
  | Some h => validate_outbound_host h port
  | None => match _allowed_networks with
            | Raise e => Raise e
            | Ok allowed => check_addresses allowed ["127.0.0.1"; "::1"]
            end
  end.

(** [configuration.get(name) or None] *)
Definition or_none (configuration : list (string * json)) (name : string) : option json :=
  match dict_get name configuration with
  | Some j => if json_truthy j then Some j else None
  | None => None
  end.

Definition directory_server (configuration : list (string * json)) : outcome ldap_server :=
  match server_uri configuration with
  | Raise e => Raise e
  | Ok parsed =>
      let use_ssl := bool_decide (url_scheme parsed = "ldaps") in
      match url_port parsed with
      | Raise e => Raise e
      | Ok p =>
          let port := match p with Some 0 | None => if use_ssl then 636 else 389 | Some n => n end in
          match validate_directory_host (url_hostname parsed) port with
          | Raise e => Raise e
          | Ok _ =>
              match (match dict_get "connect_timeout_seconds" configuration with Some j => int_of_json j | None => Ok 10 end) with
              | Raise e => Raise e
              | Ok timeout => Ok (LdapServer (url_hostname parsed) port use_ssl timeout)
              end
          end
      end
  end.

Definition directory_bind (configuration : list (string * json)) (server : ldap_server) : ldap_bind :=
  LdapBind (or_none configuration "bind_dn") (or_none configuration "bind_password")
    (match or_none configuration "use_start_tls" with Some _ => negb (srv_use_ssl server) | None => false end).

Definition _connection (configuration : list (string * json)) : io ldap_conn :=
  server ← lift (directory_server configuration);
  lift (new_server server) ;;
  let bind := directory_bind configuration server in
  masked connection_refused (call (Connected server bind) (new_connection server bind)).

Definition test_connection (configuration : list (string * json)) : io bool :=
  connection ← _connection configuration;
  call Unbound (unbind connection) ;;
  mret true.

(** ** Entries *)

Definition value_truthy (v : ldap_value) : bool :=
  match v with
  | LText s => bool_decide (s ≠ "")
  | LList l => bool_decide (l ≠ [])
  | LOther b _ _ => b
  end.

(** [str(value)] *)
Definition value_str (v : ldap_value) : string :=
  match v with LText s => s | LList l => list_str l | LOther _ t _ => t end.

(** [value[0] if value else ""] of a list; another value as it is. *)
Definition first_value (v : ldap_value) : ldap_value :=
  match v with LList l => default (LText "") (head l) | _ => v end.

(** [values.get(name) or ""], the first of a list, as a text *)
Definition text_attribute (e : ldap_entry) (name : json) : outcome string :=
  match le_attribute e name with
  | Raise x => Raise x
  | Ok v => let v := default (LText "") v in
            Ok (value_str (first_value (if value_truthy v then v else LText "")))
  end.

Definition entry_groups (e : ldap_entry) (name : json) : outcome (list string) :=
  match le_attribute e name with
  | Raise x => Raise x
  | Ok None => Ok []
  | Ok (Some v) =>
      if negb (value_truthy v) then Ok []
      else match v with
           | LText s => Ok [s]
           | LList l => Ok (value_str <$> l)
           | LOther _ _ (Some items) => Ok items
           | LOther _ _ None => Raise (TypeError "object is not iterable")
           end
  end.

Record attribute_names := AttributeNames {
  username_attribute : json;
  email_attribute : json;
  display_name_attribute : json;
  group_attribute : json;
}.

(** [configuration.get(name, default)] *)
Definition read_attribute_names (configuration : list (string * json)) : attribute_names :=
  let get name default_ := default (JStr default_) (dict_get name configuration) in
  AttributeNames (get "username_attribute" "uid") (get "email_attribute" "mail")
    (get "display_name_attribute" "displayName") (get "group_attribute" "memberOf").

(** One turn of the loop: no user for a reference or an entry without a name. *)
Definition read_entry (names : attribute_names) (e : ldap_entry) : outcome (option directory_user) :=
  if negb (bool_decide (le_type e = Some "searchResEntry")) then Ok None
  else
    match le_attribute e (username_attribute names) with
    | Raise x => Raise x
    | Ok None => Ok None
    | Ok (Some v) =>
        let username := first_value v in
        if negb (value_truthy username) then Ok None
        else
          match entry_groups e (group_attribute names), text_attribute e (email_attribute names),
                text_attribute e (display_name_attribute names), le_dn e with
          | Ok groups, Ok email, Ok display_name, Some dn =>
              Ok (Some (DirectoryUser dn (value_str username) email display_name groups [("dn", JStr dn)]))
          | Raise x, _, _, _ | _, Raise x, _, _ | _, _, Raise x, _ => Raise x
          | _, _, _, None => Raise (OtherError "KeyError")
          end
    end.

Fixpoint read_entries (names : attribute_names) (entries : list (outcome ldap_entry)) : outcome (list directory_user) :=
  match entries with
  | [] => Ok []
  | Raise e :: _ => Raise e
  | Ok entry :: rest =>
      match read_entry names entry with
      | Raise e => Raise e
      | Ok user =>
          match read_entries names rest with
          | Raise e => Raise e
          | Ok users => Ok (match user with Some u => u :: users | None => users end)
          end
      end
  end.

Definition get_item (configuration : list (string * json)) (name : string) : outcome json :=
  match dict_get name configuration with Some j => Ok j | None => Raise (OtherError "KeyError") end.

(** [connection.extend.standard.paged_search(...)] *)
Definition search_users (connection : ldap_conn) (configuration : list (string * json)) : io (list directory_user) :=
  let names := read_attribute_names configuration in
  let attributes := [username_attribute names; email_attribute names; display_name_attribute names; group_attribute names] in
  base ← lift (get_item configuration "base_dn");
  user_filter ← lift (get_item configuration "user_filter");
  entries ← call (Searched base user_filter attributes) (paged_search connection base user_filter attributes 500);
  lift (read_entries names entries).

Definition fetch_users (configuration : list (string * json)) : io (list directory_user) :=
  connection ← _connection configuration;
  finally (masked reading_failed (search_users connection configuration)) (call Unbound (unbind connection)).
End adapter.

(** ** The background task *)

Section task.
Context {PF : Platform} {LE : LicenseEnv} {OE : OutboundEnv} {LL : LdapLib}.

(** [adapter_for(source)]: the configuration the adapter holds. *)
Definition adapter_for (source : obj identity_source) : M (list (string * json)) :=
  if is_ldap_kind (is_kind (val source)) then get_identity_source_configuration (val source)
  else raise (ValueError "Cette source ne prend pas en charge la synchronisation d’annuaire.").

(** [adapter_for(source).fetch_users()]; reading the configuration changes nothing. *)
Definition fetch_from (source : obj identity_source) (w : world) : outcome (list directory_user) :=
  match (adapter_for source w).1 with
  | Raise e => Raise e
  | Ok configuration => (fetch_users configuration).2
  end.

Definition sync_identity_source (text : exn → string) (source_id : id) : M sync_result :=
  source ← get_row identity_sources "IdentitySource" source_id;
  fetched ← ((λ w, (Ok (fetch_from source w), w)) : M (outcome (list directory_user)));
  synchronize_identity_source source fetched text.

(** [ConnectionError], its subclasses, and [TimeoutError] *)
Definition retried_by_worker (e : exn) : bool :=
  match e with
  | OtherError c => bool_decide (c ∈ ["ConnectionError"; "BrokenPipeError"; "ConnectionAbortedError"; "ConnectionRefusedError";
                                      "ConnectionResetError"; "TimeoutError"])
  | _ => false
  end.

(** The worker: a retried exception runs the task again, [retries] times at most. *)
Fixpoint run_sync_task (retries : nat) (text : exn → string) (source_id : id) : M sync_result := λ w,
  match sync_identity_source text source_id w with
  | (Raise e, w') =>
      match retries with
      | S n => if retried_by_worker e then run_sync_task n text source_id w' else (Raise e, w')
      | O => (Raise e, w')
      end
  | r => r
  end.

Definition sync_max_retries : nat := 3.
End task.

(** ** What the adapter does to the directory *)

Section adapter_facts.
Context {OE : OutboundEnv} {LL : LdapLib}.

Lemma bind_io {A B} (m : io A) (f : A → io B) :
  m ≫= f = match m.2 with Ok x => (m.1 ++ (f x).1, (f x).2) | Raise e => (m.1, Raise e) end.
Proof. done. Qed.

Lemma lift_bind {A B} (r : outcome A) (f : A → io B) :
  lift r ≫= f = match r with Ok x => f x | Raise e => ([], Raise e) end.
Proof. rewrite bind_io. destruct r as [x|e]; [|done]. cbn. by destruct (f x). Qed.

(** Either nothing is sent, or one connection is tried, on the server configured. *)
Lemma connection_cases configuration :
  (∃ e, _connection configuration = ([], Raise e)) ∨
  ∃ server, directory_server configuration = Ok server ∧ new_server server = Ok tt ∧
    let bind := directory_bind configuration server in
    _connection configuration =
      ([Connected server bind],
       match new_connection server bind with Ok c => Ok c | Raise _ => Raise (DirectoryConnectionError connection_refused) end).
Proof.
  unfold _connection. rewrite lift_bind. destruct (directory_server configuration) as [server|e]; [|left; by exists e].
  rewrite lift_bind. destruct (new_server server) as [[]|e] eqn:En; [|left; by exists e].
  right. exists server. by rewrite En.
Qed.

(** The two things a search may send. *)
Lemma search_trace connection configuration :
  (search_users connection configuration).1 = [] ∨
  ∃ base user_filter attributes, (search_users connection configuration).1 = [Searched base user_filter attributes].
Proof.
  unfold search_users. rewrite lift_bind. destruct (get_item configuration "base_dn") as [base|]; [|by left].
  rewrite lift_bind. destruct (get_item configuration "user_filter") as [user_filter|]; [|by left].
  right. rewrite bind_io. exists base, user_filter. eexists. cbn. by destruct (paged_search _ _ _ _ _).
Qed.

Lemma connected_inv configuration server bind :
  Connected server bind ∈ (fetch_users configuration).1 →
  directory_server configuration = Ok server ∧ bind = directory_bind configuration server.
Proof.
  unfold fetch_users. rewrite bind_io.
  destruct (connection_cases configuration) as [[e ->]|(server' & Hs & _ & ->)]; simpl; [by intros ?%elem_of_nil|].
  destruct (new_connection server' _) as [connection|]; simpl.
  - intros [H|[H|H]%elem_of_app]%elem_of_cons; [by injection H as -> ->| |].
    + destruct (search_trace connection configuration) as [E|(b & f & a & E)]; rewrite E in H; set_solver.
    + set_solver.
  - intros H%list_elem_of_singleton. by injection H as -> ->.
Qed.

(** A directory is always left as it was found.  Reading the users either sends nothing,
    or tries one connection which is refused, or opens one connection, searches at most
    once, and closes it, whatever the search raised; and whatever was raised after the
    connection was tried is reported as one of two fixed messages, unless closing the
    connection itself fails. *)
Theorem directory_always_released configuration :
  let '(trace, result) := fetch_users configuration in
  (trace = [] ∧ is_ok result = false) ∨
  ∃ server, directory_server configuration = Ok server ∧
    let bind := directory_bind configuration server in
    ((trace = [Connected server bind] ∧ result = Raise (DirectoryConnectionError connection_refused)) ∨
    ∃ connection search, new_connection server bind = Ok connection ∧
      trace = Connected server bind :: search ++ [Unbound] ∧
      (search = [] ∨ ∃ base user_filter attributes, search = [Searched base user_filter attributes]) ∧
      match unbind connection with
      | Raise e => result = Raise e
      | Ok _ => is_ok result = true ∨ result = Raise (DirectoryConnectionError reading_failed)
      end).
Proof.
  destruct (fetch_users configuration) as [trace result] eqn:E. unfold fetch_users in E. rewrite bind_io in E.
  destruct (connection_cases configuration) as [[e Ec]|(server & Hs & _ & Ec)]; rewrite Ec in E; simpl in E.
  - left. by injection E as <- <-.
  - right. exists server. split; [done|]. cbv zeta.
    destruct (new_connection server _) as [connection|e0] eqn:En; simpl in E; [right|left].
    + exists connection, (search_users connection configuration).1. injection E as <- <-. split; [done|]. split; [done|].
      split; [apply search_trace|]. destruct (unbind connection) as [u|e1]; [|done].
      destruct (search_users connection configuration).2; [by left|by right].
    + by injection E as <- <-.
Qed.

Lemma read_entries_inv names answers users :
  read_entries names answers = Ok users →
  ∃ (entries : list ldap_entry) found, answers = Ok <$> entries ∧ Forall2 (λ e f, read_entry names e = Ok f) entries found ∧ users = omap (λ x, x) found.
Proof.
  revert users. induction answers as [|[e|x] answers IH]; intros users; simpl; [|intros H|done].
  - intros [= <-]. by exists [], [].
  - destruct (read_entry names e) as [f|] eqn:Ee; [|done]. destruct (read_entries names answers) as [l|]; [|done].
    destruct (IH l eq_refl) as (entries & found & -> & Hf & ->). injection H as <-.
    exists (e :: entries), (f :: found). split; [done|]. split; [by constructor|]. by destruct f.
Qed.

(** Where a connection may go. *)
Definition directory_address_ok (address : string) : Prop :=
  ∃ ip, ip_address address = Some ip ∧
    ((∃ cidr n, cidr ∈ PAMOLIVE_OUTBOUND_ALLOWED_CIDRS ∧ ip_network_of cidr = Some n ∧ ip_in_network ip n = true) ∨
     in_any (unmapped ip) internal_networks = false).

Lemma allowed_address address : destination_allowed address → directory_address_ok address.
Proof. intros (ip & ? & [?|?]); exists ip; (split; [done|]); [by left|right]. by apply is_global_not_internal. Qed.

Lemma directory_host_ok host port :
  validate_directory_host host port = Ok tt →
  match host with
  | Some h => match getaddrinfo h port with
              | Some addresses => ∀ a, a ∈ addresses → directory_address_ok a
              | None => PAMOLIVE_OUTBOUND_ALLOW_UNRESOLVED_HOSTS = true
              end
  | None => ∀ a, a ∈ ["127.0.0.1"; "::1"] → directory_address_ok a
  end.
Proof.
  destruct host as [h|]; intros H; cbn [validate_directory_host] in H.
  - apply validate_host_spec in H. destruct (getaddrinfo h port); [|done]. intros a Ha. by apply allowed_address, H.
  - unfold _allowed_networks in H. destruct (networks_of _) as [allowed|] eqn:En; [|done]. intros a Ha. apply allowed_address.
    destruct (check_addresses_spec _ _ H a Ha) as (ip & ? & [Hin|?]); exists ip; (split; [done|]); [left|by right].
    apply existsb_elem in Hin as (n & Hn & ?). destruct (networks_of_spec _ _ En n Hn) as (cidr & ? & ?). eauto.
Qed.

Lemma directory_server_inv configuration server :
  directory_server configuration = Ok server →
  ∃ u, server_uri configuration = Ok u ∧ srv_host server = url_hostname u ∧
    srv_use_ssl server = bool_decide (url_scheme u = "ldaps") ∧
    validate_directory_host (srv_host server) (srv_port server) = Ok tt.
Proof.
  unfold directory_server. destruct (server_uri configuration) as [u|]; [|done].
  destruct (url_port u) as [p|]; [|done]. destruct (validate_directory_host _ _) as [[]|] eqn:Ev; [|done].
  destruct (match dict_get _ _ with Some j => _ | None => _ end) as [timeout|]; [|done].
  intros [= <-]. by exists u.
Qed.

(** The server only connects to directories it may.  Each connection of the adapter goes
    to the host of the configured address; every address that host resolved to is in a
    network the operator allowed or outside loopback, link-local and private networks
    (an address without a host counts as the loopback); and the secret is sent under TLS
    exactly when the address is [ldaps] or StartTLS was asked for. *)
Theorem directory_destination_guarded configuration server bind :
  Connected server bind ∈ (fetch_users configuration).1 →
  ∃ u, server_uri configuration = Ok u ∧ srv_host server = url_hostname u ∧
    match url_hostname u with
    | Some h => match getaddrinfo h (srv_port server) with
                | Some addresses => ∀ a, a ∈ addresses → directory_address_ok a
                | None => PAMOLIVE_OUTBOUND_ALLOW_UNRESOLVED_HOSTS = true
                end
    | None => ∀ a, a ∈ ["127.0.0.1"; "::1"] → directory_address_ok a
    end ∧
    (srv_use_ssl server = true ∨ start_tls bind = true ↔
     url_scheme u = "ldaps" ∨ is_Some (or_none configuration "use_start_tls")).
Proof.
  intros [Hs ->]%connected_inv. apply directory_server_inv in Hs as (u & Hu & Hh & Hssl & Hv).
  exists u. split; [done|]. split; [done|]. rewrite Hh in Hv. split.
  - by apply directory_host_ok in Hv.
  - unfold directory_bind. cbn [start_tls]. rewrite Hssl.
    destruct (or_none configuration "use_start_tls") as [j|]; case_bool_decide; naive_solver.
Qed.

(** The users read are those of the directory.  When the adapter returns users, the
    search under the configured base and filter answered to its end, and the users are,
    in its order, what each answer stands for: no user for a reference or an entry
    whose name is empty, and otherwise its distinguished name, its attributes and its
    groups. *)
Theorem directory_read_exact configuration users :
  (fetch_users configuration).2 = Ok users →
  ∃ server connection base user_filter entries found,
    let names := read_attribute_names configuration in
    let attributes := [username_attribute names; email_attribute names; display_name_attribute names; group_attribute names] in
    directory_server configuration = Ok server ∧ new_connection server (directory_bind configuration server) = Ok connection ∧
    dict_get "base_dn" configuration = Some base ∧ dict_get "user_filter" configuration = Some user_filter ∧
    paged_search connection base user_filter attributes 500 = Ok (Ok <$> entries) ∧
    Forall2 (λ e f, read_entry names e = Ok f) entries found ∧ users = omap (λ x, x) found.
Proof.
  unfold fetch_users. rewrite bind_io.
  destruct (connection_cases configuration) as [[e ->]|(server & Hs & _ & ->)]; simpl; [done|].
  destruct (new_connection server _) as [connection|] eqn:Hc; [|done]. simpl.
  destruct (unbind connection); [|done]. unfold search_users. rewrite lift_bind.
  unfold get_item. destruct (dict_get "base_dn" configuration) as [base|]; [|done].
  rewrite lift_bind. destruct (dict_get "user_filter" configuration) as [user_filter|]; [|done].
  rewrite bind_io. cbn [call fst snd lift]. set (attributes := [_; _; _; _]).
  destruct (paged_search connection base user_filter attributes 500) as [answers|] eqn:Ep; [|done].
  destruct (read_entries _ answers) as [l|] eqn:Er; [|done]. intros [= <-].
  apply read_entries_inv in Er as (entries & found & -> & Hf & ->).
  by exists server, connection, base, user_filter, entries, found.
Qed.
End adapter_facts.

(** ** The task *)

Section task_facts.
Context {PF : Platform} {LE : LicenseEnv} {OE : OutboundEnv} {LL : LdapLib}.

Lemma sync_task_run text k row w : identity_sources (w_db w) !! k = Some row →
  sync_identity_source text k w =
    synchronize_identity_source (Obj k row) (fetch_from (Obj k row) w) text w.
Proof. intros Hrow. unfold sync_identity_source, get_row, mbind, M_bind. by rewrite Hrow. Qed.

(** C37: An outage of the directory is recorded once and not retried.  When the directory of
    an enabled source refuses the connection, the run fails, no account, membership or
    external identity changes, the source is marked as failed with the text of the fixed
    message, and the worker gives up after that one run however many retries it is
    allowed, although the task declares that it retries connection errors (unless the
    failure could not be recorded, which leaves no event). *)
Theorem directory_outage_not_retried text k row w configuration server e0 :
  identity_sources (w_db w) !! k = Some row → is_enabled row = true →
  (adapter_for (Obj k row) w).1 = Ok configuration →
  directory_server configuration = Ok server → new_server server = Ok tt →
  new_connection server (directory_bind configuration server) = Raise e0 →
  let refused := DirectoryConnectionError connection_refused in
  ∃ e w', sync_identity_source text k w = (Raise e, w') ∧ accounts_same (w_db w) (w_db w') ∧
    (∃ row', identity_sources (w_db w') !! k = Some row' ∧ is_last_sync_status row' = SYNC_FAILED ∧
       is_last_error row' = slice_to 2000 (text refused)) ∧
    (e = refused ∧ (∀ retries, run_sync_task retries text k w = (Raise e, w')) ∨
     audit_events (w_db w') = audit_events (w_db w)).
Proof.
  intros Hrow Hen Had Hs Hn Hc refused.
  assert (Hfetch : fetch_from (Obj k row) w = Raise refused).
  { unfold fetch_from. rewrite Had. unfold fetch_users, _connection. rewrite !bind_io.
    unfold lift at 1 2. cbn [fst snd]. rewrite Hs. cbn. rewrite Hn. cbn. by rewrite Hc. }
  destruct (failed_sync_run (Obj k row) (Raise refused) text row w refused
    (with_db (w_db w <| identity_sources ::= <[k := set_sync SYNC_RUNNING None "" (w_clock w) row]> |>) (advance w)))
    as (e & w' & Hrun & Hsame & (row' & H1 & H2 & H3 & H4)); [done|done|done|].
  assert (Htask : sync_identity_source text k w = (Raise e, w')) by (rewrite (sync_task_run _ _ row), Hfetch; done).
  exists e, w'. split; [done|]. split; [done|]. split; [by exists row'|].
  destruct H4 as [->|H4]; [left|by right]. split; [done|]. intros [|retries]; simpl; by rewrite Htask.
Qed.
End task_facts.

(** ** Concrete runs *)

Section witnesses.
#[local] Existing Instance demo_platform.
#[local] Instance demo_community : LicenseEnv := demo_env "community" "".
#[local] Existing Instance demo_outbound.

Definition demo_attributes (uid : ldap_value) : json → outcome (option ldap_value) := λ name,
  match name with
  | JStr "uid" => Ok (Some uid)
  | JStr "mail" => Ok (Some (LList [LText "alice@example.test"]))
  | JStr "memberOf" => Ok (Some (LText "operators"))
  | JStr _ => Ok None
  | _ => Raise (TypeError "unhashable type")
  end.

(** A reference, a user, and an entry without a name. *)
Definition demo_entries : list ldap_entry :=
  [LdapEntry (Some "searchResRef") None (λ _, Ok None);
   LdapEntry (Some "searchResEntry") (Some "uid=alice,dc=example,dc=test") (demo_attributes (LList [LText "alice"]));
   LdapEntry (Some "searchResEntry") (Some "uid=missing,dc=example,dc=test") (demo_attributes (LList []))].

(** A directory that answers unless it is [down]. *)
Definition demo_directory (down : bool) : LdapLib := {|
  ldap_conn := unit;
  new_server _ := Ok tt;
  new_connection _ _ := if down then Raise (OtherError "LDAPSocketOpenError") else Ok tt;
  paged_search _ _ _ _ _ := Ok (Ok <$> demo_entries);
  unbind _ := Ok tt;
  list_str _ := "[]";
|}.

Definition demo_ldap : list (string * json) :=
  [("server_uri", JStr "ldap://siem.example.org"); ("bind_dn", JStr "cn=pam"); ("bind_password", JStr "secret");
   ("base_dn", JStr "dc=example,dc=test"); ("user_filter", JStr "(objectClass=person)"); ("use_start_tls", JBool true)].

Definition demo_alice_read : directory_user :=
  DirectoryUser "uid=alice,dc=example,dc=test" "alice" "alice@example.test" "" ["operators"]
    [("dn", JStr "uid=alice,dc=example,dc=test")].

Example demo_fetch : ∃ server bind search,
  @fetch_users demo_outbound (demo_directory false) demo_ldap = ([Connected server bind; search; Unbound], Ok [demo_alice_read]) ∧
  srv_port server = 389 ∧ start_tls bind = true.
Proof. do 3 eexists. vm_compute. repeat split. Qed.

Definition demo_server : ldap_server := LdapServer (Some "siem.example.org") 389 false 10.

Lemma directory_destination_guarded_witness :
  ∀ a, a ∈ ["8.8.8.8"; "2606:4700::1"] → directory_address_ok a.
Proof.
  destruct (@directory_destination_guarded demo_outbound (demo_directory false) demo_ldap demo_server
    (directory_bind demo_ldap demo_server)) as (u & Hu & _ & H & _).
  - vm_compute. left.
  - vm_compute in Hu. injection Hu as <-. exact H.
Defined.

Lemma directory_read_exact_witness :
  ∃ found, Forall2 (λ e f, @read_entry (demo_directory false) (read_attribute_names demo_ldap) e = Ok f) demo_entries found ∧
    [demo_alice_read] = omap (λ x, x) found.
Proof.
  destruct (@directory_read_exact demo_outbound (demo_directory false) demo_ldap [demo_alice_read])
    as (server & connection & base & user_filter & entries & found & _ & _ & _ & _ & Hp & Hf & Hu).
  - vm_compute. reflexivity.
  - exists found. split; [|exact Hu]. injection Hp as Hp.
    assert (entries = demo_entries) as ->; [|exact Hf].
    assert (Inj (=) (=) (@Ok ldap_entry)) by (intros ? ? [= ->]; done).
    apply (inj (fmap (M := list) (@Ok ldap_entry))). symmetry. exact Hp.
Defined.

Definition demo_ldap_row : identity_source :=
  IdentitySource "ldap" "ldap" true ("enc:" +:+ of_chars (ser (JObj demo_ldap))) active_key_id None SYNC_NEVER "" (Stamps 0 0) "ldap" true false 60.

Definition demo_ldap_world : world := demo_world (empty_db <| identity_sources := {[ 60%N := demo_ldap_row ]} |>).

(** With three retries to go, the worker stops after the first run. *)
Lemma directory_outage_not_retried_witness :
  ∃ e w', @run_sync_task _ _ _ (demo_directory true) 3 (λ _, "text") 60 demo_ldap_world = (Raise e, w') ∧
    accounts_same (w_db demo_ldap_world) (w_db w').
Proof.
  destruct (@directory_outage_not_retried _ _ _ (demo_directory true) (λ _, "text") 60 demo_ldap_row demo_ldap_world demo_ldap
    demo_server (OtherError "LDAPSocketOpenError")) as (e & w' & Hrun & Hsame & _ & [[_ Hn]|He]).
  - reflexivity.
  - reflexivity.
  - vm_compute. reflexivity.
  - vm_compute. reflexivity.
  - reflexivity.
  - reflexivity.
  - exists e, w'. split; [exact (Hn 3%nat)|exact Hsame].
  - exfalso. assert (w' = (@sync_identity_source _ _ _ (demo_directory true) (λ _, "text") 60 demo_ldap_world).2) as -> by (by rewrite Hrun).
    vm_compute in He. discriminate He.
Defined.
End witnesses.
