(* ===== verification/PortalPages.v ===== *)
(** * The pages of the portal ([api/views.py], [accounts/forms.py])

    The start page, the list of targets, the account page with its three forms, and the
    health endpoint.  What a page shows is the context of its template; the widgets are
    left out, and so are the first and last names, which nothing else reads.  The
    validation of passwords and addresses is [Forms.DjangoForms]; the hash that ties a
    browser session to a password is [SignIn.session_auth_hash]. *)

From S2P Require Import Prelude PyStr Json Loads Crypto PyTime Models World Text AuditTrail Rbac Ip Policies.
From S2P Require Import Approvals Vault Mfa Accounts Leases Sessions Licensing Directory Portal PortalMfa Outbound Forms ConsoleForms ConsoleOps SignIn.

Local Open Scope Z_scope.

(** ** The forms of the account page ([accounts/forms.py]) *)

Section forms.
Context {PF : Platform} {DF : DjangoForms}.

(** The instance with the names and address of a valid form. *)
Definition ProfileForm (d : db) (self : obj user) (q : querydict) : option user :=
  display_name ← char_field q "display_name" false (Some 150);
  email ← email_field q "email";
  char_field q "first_name" false (Some 150) ;;
  char_field q "last_name" false (Some 150) ;;
  require (negb (taken (Some (pk self)) (λ u, bool_decide (u_email u = email)) (users d))) ;;
  Some (val self <| u_display_name := display_name |> <| u_email := email |>).

Definition PreferencesForm (self : obj user) (q : querydict) : option user :=
  theme ← choice_field q "preferred_theme" true Theme_values;
  language ← choice_field q "preferred_language" true Language_values;
  Some (val self <| u_preferred_theme := theme |> <| u_preferred_language := language |>).

(** Django's [PasswordChangeForm]: the new password. *)
Definition PasswordChangeForm (self : obj user) (q : querydict) : option string :=
  old_password ← raw_char_field q "old_password";
  new_password1 ← raw_char_field q "new_password1";
  new_password2 ← raw_char_field q "new_password2";
  require (check_password old_password (u_password (val self))) ;;
  require (bool_decide (new_password1 = new_password2)) ;;
  require (password_acceptable new_password2 (val self)) ;;
  Some new_password1.
End forms.

(** ** The views *)

Section views.
Context {PF : Platform} {LE : LicenseEnv} {DF : DjangoForms} {SE : SignInEnv}.

Definition ids_json {A} (l : list (obj A)) : json := JArr ((λ o, JStr (str_uuid (pk o))) <$> l).

(** [form.save()] or [set_password] and [save]: the whole row of [request.user], which
    is the same object afterwards. *)
Definition save_account (u : obj user) (new : user) (action : string) (r : http_request) : M (response * http_request) :=
  save_user (pk u) new ;;
  record_event (Some (pk u)) action (user_resource u) [] None ;;
  redirect "account" (r <| rq_user := Authenticated (Obj (pk u) new) |>).

(** [update_session_auth_hash] *)
Definition update_session_auth_hash (r : http_request) (new : user) : http_request :=
  r <| rq_session ::= <[HASH_SESSION_KEY := JStr (session_auth_hash (u_password new))]> |>.

Definition change_password (u : obj user) (password : string) (r : http_request) : M (response * http_request) :=
  hash ← draw (λ n, make_password n password);
  let new := val u <| u_password := hash |> in
  save_user (pk u) new ;;
  let r := update_session_auth_hash r new in
  record_event (Some (pk u)) "account.password_changed" (user_resource u) [] None ;;
  redirect "account" (r <| rq_user := Authenticated (Obj (pk u) new) |>).

(** The rest of the page: the first confirmed device and the codes left. *)
Definition account_listing (u : obj user) (r : http_request) : M (response * http_request) :=
  d ← asks (λ d, d);
  let device := head (objects_filter (λ o, bool_decide (m_user (val o) = pk u) && bool_decide (m_kind (val o) = TOTP)
                                           && m_confirmed (val o)) (mfa_devices d)) in
  let codes := count_rows (λ o, bool_decide (rc_user (val o) = pk u) && bool_decide (rc_used_at (val o) = None)) (recovery_codes d) in
  mret (Rendered "account.html" 200
          [("mfa_device", match device with Some o => JStr (str_uuid (pk o)) | None => JNull end);
           ("recovery_code_count", JInt codes)], r).

Definition account_page (q : querydict) : handler := login_required (λ u r,
  d ← asks (λ d, d);
  if decide (rq_method r = "POST") then
    match qget q "action" with
    | Some "profile" =>
        match ProfileForm d u q with
        | Some new => save_account u new "account.profile_updated" r
        | None => account_listing u r
        end
    | Some "preferences" =>
        match PreferencesForm u q with
        | Some new => save_account u new "account.preferences_updated" r
        | None => account_listing u r
        end
    | Some "password" =>
        match PasswordChangeForm u q with
        | Some password => change_password u password r
        | None => account_listing u r
        end
    | _ => account_listing u r
    end
  else account_listing u r).

(** [order_by("-created_at")[:4]]; the requests of the user that wait for a decision. *)
Definition pending_requests (d : db) (u : obj user) : list (obj access_request) :=
  objects_filter (λ o, bool_decide (ar_requester (val o) = pk u) && bool_decide (ar_status (val o) = RequestStatus.PENDING))
    (access_requests d).

Definition dashboard : handler := login_required (λ u r,
  d ← asks (λ d, d);
  let mine := pending_requests d u in
  mret (Rendered "dashboard.html" 200
          [("target_groups", ids_json (take 4 (target_groups_for_user d (Authenticated u))));
           ("personal_secret_count", JInt (count_rows (λ o, bool_decide (pv_owner (val o) = pk u)) (vault_items d)));
           ("pending_requests", ids_json (take 4 (rev (sort_by (λ o, created_at (ar_stamps (val o))) mine))));
           ("pending_request_count", JInt (Z.of_nat (length mine)));
           ("active_sessions", ids_json (objects_filter (λ o, bool_decide (s_user (val o) = pk u)
                                          && bool_decide (s_status (val o) = SessionStatus.ACTIVE)) (sessions d)))], r)).

(** A loop that appends to a list. *)
Definition gather {A B} (l : list A) (f : A → M (list B)) : M (list B) :=
  fold_m l [] (λ acc x, y ← f x; mret (acc ++ y)).

(** The accounts of a target the user may start a session with. *)
Definition startable (u : obj user) (source_ip : option string) (t : obj target) : M (list (obj credential)) :=
  creds ← asks (λ d, objects_filter (λ c, bool_decide (c_target (val c) = pk t)) (credentials d));
  gather creds (λ c,
    ok ← credential_allows_action (Authenticated u) c START_SESSION source_ip None;
    mret (if ok : bool then [c] else [])).

(** What the page knows of one target. *)
Record visible_target := VisibleTarget {
  vt_group : id;
  vt_target : obj target;
  vt_actions : gset string;
  vt_credentials : list (obj credential);
}.

(** The [Prefetch] of [target_groups_for_user]: enabled targets only. *)
Definition group_targets (d : db) (g : obj target_group) : list (obj target) :=
  objects_filter (λ t, t_enabled (val t) && bool_decide (pk t ∈ tg_targets (val g))) (targets d).

Definition visible_target_of (u : obj user) (source_ip : option string) (g : obj target_group) (t : obj target)
    : M (list visible_target) :=
  actions ← actions_for_target (Authenticated u) t source_ip None;
  creds ← startable u source_ip t;
  mret [VisibleTarget (pk g) t actions creds].

Definition visible_targets (u : obj user) (source_ip : option string) : M (list visible_target) :=
  groups ← asks (λ d, target_groups_for_user d (Authenticated u));
  gather groups (λ g,
    ts ← asks (λ d, group_targets d g);
    gather ts (visible_target_of u source_ip g)).

Definition visible_json (v : visible_target) : json :=
  JObj [("group", JStr (str_uuid (vt_group v))); ("target", JStr (str_uuid (pk (vt_target v))));
        ("actions", JArr (JStr <$> elements (vt_actions v))); ("credentials", ids_json (vt_credentials v))].

Definition targets_page : handler := login_required (λ u r,
  l ← visible_targets u (request_client_ip (rq_meta r));
  d ← asks (λ d, d);
  mret (Rendered "targets.html" 200
          [("target_groups", JArr (visible_json <$> l));
           ("pending_request_count", JInt (Z.of_nat (length (pending_requests d u))))], r)).

(** Anyone may ask; a failure of the cursor is an error page. *)
Definition health (cursor : outcome unit) : handler := λ r,
  of_outcome cursor ;;
  status ← get_license_status;
  mret (JsonBody 200 [("status", JStr "ok"); ("database", JStr "ok"); ("node_id", JStr node_id);
                      ("cluster_enabled", JBool cluster_enabled); ("license", as_dict status)], r).
End views.

(** ** What the account page may change *)

Section account_facts.
Context {PF : Platform} {LE : LicenseEnv} {DF : DjangoForms} {SE : SignInEnv}.

(** The columns only administrators set. *)
Definition same_standing (u new : user) : Prop :=
  u_username new = u_username u ∧ u_is_active new = u_is_active u ∧ u_is_superuser new = u_is_superuser u ∧
  u_is_service_account new = u_is_service_account u.

(** What one of the three forms makes of the account. *)
Definition allowed_change (d0 : db) (u : obj user) (q : querydict) (new : user) : Prop :=
  same_standing (val u) new ∧
  (u_email new = u_email (val u) ∨ ∀ k v, users d0 !! k = Some v → k ≠ pk u → u_email v ≠ u_email new) ∧
  (u_password new = u_password (val u) ∨
   ∃ old password n, qget q "old_password" = Some old ∧ check_password old (u_password (val u)) = true ∧
     password_acceptable password (val u) = true ∧ new = val u <| u_password := make_password n password |>).

(** Nothing has changed but the audit tables and perhaps the row of [u]. *)
Definition confined (d0 : db) (u : obj user) (q : querydict) (d : db) : Prop :=
  ∃ us, audit_frame (d0 <| users := us |>) d ∧
    (us = users d0 ∨ ∃ new, us = <[pk u := new]> (users d0) ∧ allowed_change d0 u q new).

#[local] Instance confined_stable d0 u q : AuditStable (confined d0 u q).
Proof. intros d d' Hd (us & Hf & Hus). exists us. split; [by etrans|done]. Qed.

Lemma save_user_confined d0 u q new :
  allowed_change d0 u q new → preserves (confined d0 u q) (save_user (pk u) new).
Proof.
  intros Hnew. apply preserves_bind; [apply quiet_preserves, active_limit_quiet|]. intros _. apply preserves_modify.
  intros d (us & (st & ev & oc & ->) & Hus). exists (<[pk u := new]> us). split.
  - by exists st, ev, oc.
  - right. exists new. split; [|done]. destruct Hus as [->|(n & -> & _)]; [done|]. by rewrite insert_insert_eq.
Qed.

Lemma save_account_confined d0 u q new action r :
  allowed_change d0 u q new → preserves (confined d0 u q) (save_account u new action r).
Proof.
  intros Hnew. pose proof (save_user_confined d0 u q new Hnew). pose proof (record_event_preserves (confined d0 u q)).
  unfold save_account, redirect. solve_preserves.
Qed.

Lemma profile_allowed d u q new : ProfileForm d u q = Some new → allowed_change d u q new.
Proof.
  unfold ProfileForm. intros H.
  apply bind_Some in H as (name & _ & H). apply bind_Some in H as (email & _ & H).
  do 2 apply bind_Some in H as (? & _ & H). apply bind_Some in H as (? & Hfree & [= <-]).
  split; [done|]. split; [|by left]. right. intros k v Hv Hk E. unfold require in Hfree.
  destruct (taken _ _ _) eqn:Et; [done|]. unfold taken in Et. rewrite exists_row_false in Et. specialize (Et (Obj k v) Hv). simpl in Et.
  apply andb_false_iff in Et as [Et|Et]; apply bool_decide_eq_false in Et; [|by destruct Et]. apply Et. simpl. congruence.
Qed.

Lemma preferences_allowed d u q new : PreferencesForm u q = Some new → allowed_change d u q new.
Proof.
  unfold PreferencesForm. intros H. do 2 apply bind_Some in H as (? & _ & H). injection H as <-.
  split; [done|]. split; by left.
Qed.

Lemma password_form_inv u q password :
  PasswordChangeForm u q = Some password →
  ∃ old, qget q "old_password" = Some old ∧ check_password old (u_password (val u)) = true ∧
    password_acceptable password (val u) = true.
Proof.
  unfold PasswordChangeForm, raw_char_field, require. intros H.
  apply bind_Some in H as (old & Ho & H). destruct (qget q "old_password") as [o|]; [|done].
  cbn [default] in Ho. destruct (_ || _) in Ho; [done|]. injection Ho as ->.
  apply bind_Some in H as (p1 & H1 & H). apply bind_Some in H as (p2 & H2 & H).
  apply bind_Some in H as ([] & Hc & H). apply bind_Some in H as ([] & He & H). apply bind_Some in H as ([] & Ha & [= <-]).
  exists old. split; [done|]. destruct (check_password old _); [|done]. case_bool_decide as E; [|done]. subst p2.
  by destruct (password_acceptable p1 _).
Qed.

Lemma preserves_bind_draw {A B} (P : db → Prop) (f : nat → A) (g : A → M B) :
  (∀ n, preserves P (g (f n))) → preserves P (draw f ≫= g).
Proof. intros Hg w Hw. by apply (Hg (w_draws w) (drawn w)). Qed.

Lemma change_password_confined d0 u q password r :
  PasswordChangeForm u q = Some password → preserves (confined d0 u q) (change_password u password r).
Proof.
  intros (old & Ho & Hc & Ha)%password_form_inv. pose proof (record_event_preserves (confined d0 u q)).
  assert (∀ n, allowed_change d0 u q (val u <| u_password := make_password n password |>)) as Hnew.
  { intros n. split; [done|]. split; [by left|]. right. by exists old, password, n. }
  unfold change_password, redirect. apply preserves_bind_draw. intros n.
  pose proof (save_user_confined d0 u q _ (Hnew n)). solve_preserves.
Qed.

(** C26: The account page changes the account of its user only, and not its rights.  Whatever
    is submitted and whatever the outcome, nothing but the audit tables changes, or else
    it is the row of the signed-in user on a POST: the name, the rights, the activity and
    the kind of the account stay, the address is the old one or one nobody else has,
    and the password hash changes only for a request that gave the current password and
    a new one the validators accept. *)
Theorem account_page_confined q r w x w' :
  account_page q r w = (x, w') →
  audit_frame (w_db w) (w_db w') ∨
  rq_method r = "POST" ∧ ∃ u new, rq_user r = Authenticated u ∧ allowed_change (w_db w) u q new ∧
    audit_frame (w_db w <| users ::= <[pk u := new]> |>) (w_db w').
Proof.
  unfold account_page, login_required. destruct (rq_user r) as [|u] eqn:Eu; [by intros [= <- <-]; left|].
  rewrite run_asks. cbv beta. destruct (decide (rq_method r = "POST")) as [HP|]; [|by intros [= <- <-]; left].
  set (m := match qget q "action" with Some _ => _ | None => _ end). intros H.
  assert (preserves (confined (w_db w) u q) m) as Hm.
  { assert (preserves (confined (w_db w) u q) (account_listing u r)) as Hl by (unfold account_listing; solve_preserves).
    subst m. destruct (qget q "action") as [a|]; [|done].
    repeat match goal with |- preserves _ (match ?x with _ => _ end) => destruct x eqn:?; try done end.
    all: first [by apply change_password_confined | by apply save_account_confined, profile_allowed
               |by apply save_account_confined, preferences_allowed]. }
  assert (confined (w_db w) u q (w_db w)) as H0.
  { exists (users (w_db w)). split; [by destruct (w_db w)|by left]. }
  specialize (Hm w H0). rewrite H in Hm. destruct Hm as (us & Hf & [->|(new & -> & Hnew)]).
  - left. simpl in Hf. by destruct (w_db w).
  - right. split; [done|]. by exists u, new.
Qed.
End account_facts.

(** ** What the list of targets offers *)

Section listing_facts.
Context {PF : Platform}.

(** A run of [m] between two worlds of the same database. *)
Definition ran_within {A} (m : M A) (y : A) (w w' : world) : Prop :=
  ∃ w1 w2, reads w w1 ∧ m w1 = (Ok y, w2) ∧ reads w2 w'.

Lemma ran_within_weaken {A} (m : M A) y w0 w w' w1 :
  reads w0 w → reads w' w1 → ran_within m y w w' → ran_within m y w0 w1.
Proof. intros H0 H1 (wa & wb & ? & ? & ?). exists wa, wb. split; [by etrans|]. split; [done|by etrans]. Qed.

Lemma gather_inv {A B} (f : A → M (list B)) (l : list A) w r w' :
  (∀ x, quiet (f x)) → gather l f w = (Ok r, w') →
  reads w w' ∧ ∃ ys, r = concat ys ∧ Forall2 (λ x y, ran_within (f x) y w w') l ys.
Proof.
  intros Hf. unfold gather. enough (∀ acc, fold_m l acc (λ acc x, y ← f x; mret (acc ++ y)) w = (Ok r, w') →
    reads w w' ∧ ∃ ys, r = acc ++ concat ys ∧ Forall2 (λ x y, ran_within (f x) y w w') l ys) as H by apply H.
  revert w. induction l as [|x l IH]; intros w acc H; cbn [fold_m] in H.
  - injection H as <- <-. split; [done|]. exists []. split; [by rewrite app_nil_r|constructor].
  - rewrite run_assoc in H. apply bind_ok_inv in H as (y & w1 & Hx & H). rewrite run_ret in H.
    pose proof (quiet_run _ _ _ _ (Hf x) Hx) as Hr. apply IH in H as (Hr2 & ys & -> & Hys).
    split; [by etrans|]. exists (y :: ys). split; [by rewrite <- app_assoc|]. constructor.
    + exists w, w1. by split.
    + eapply Forall2_impl; [exact Hys|]. intros a b. by apply ran_within_weaken.
Qed.

Lemma gather_quiet {A B} (f : A → M (list B)) l : (∀ x, quiet (f x)) → quiet (gather l f).
Proof. intros Hf. unfold gather. apply quiet_fold. intros acc x. apply quiet_bind; [done|]. intros y. apply quiet_ret. Qed.
Lemma concat_from {A B} (P : A → list B → Prop) l ys y :
  Forall2 P l ys → y ∈ concat ys → ∃ x zs, x ∈ l ∧ P x zs ∧ y ∈ zs.
Proof.
  induction 1 as [|x zs l ys HP HF IH]; simpl; [by intros ?%elem_of_nil|].
  intros [Hy|(x' & zs' & ? & ? & ?)%IH]%elem_of_app; [exists x, zs|exists x', zs']; split_and!; try done; by constructor.
Qed.

Lemma concat_to {A B} (P : A → list B → Prop) l ys x :
  Forall2 P l ys → x ∈ l → ∃ zs, P x zs ∧ ∀ y, y ∈ zs → y ∈ concat ys.
Proof.
  induction 1 as [|x' zs l ys HP HF IH]; simpl; [by intros ?%elem_of_nil|]. intros [->|(zs' & ? & Hsub)%IH]%elem_of_cons.
  - exists zs. split; [done|]. intros y Hy. apply elem_of_app. by left.
  - exists zs'. split; [done|]. intros y Hy%Hsub. apply elem_of_app. by right.
Qed.

Lemma startable_quiet u ip t : quiet (startable u ip t).
Proof.
  unfold startable. apply quiet_bind; [apply quiet_asks|]. intros creds. apply gather_quiet. intros c.
  apply quiet_bind; [apply credential_allows_quiet|]. intros ok. apply quiet_ret.
Qed.

Lemma visible_target_quiet u ip g t : quiet (visible_target_of u ip g t).
Proof.
  apply quiet_bind; [apply actions_for_target_quiet|]. intros actions.
  apply quiet_bind; [apply startable_quiet|]. intros creds. apply quiet_ret.
Qed.

(** An account the user may start a session with, at an instant of the run. *)
Definition start_granted (u : obj user) (ip : option string) (c : obj credential) (w w' : world) : Prop :=
  ∃ p t, instant w w' None t ∧ grants (w_db w) (pk u) p START_SESSION t ip ∧ covers (w_db w) (val p) c.

Lemma startable_inv u ip t w l w' :
  startable u ip t w = (Ok l, w') →
  ∀ c, c ∈ l → credentials (w_db w) !! pk c = Some (val c) ∧ c_target (val c) = pk t ∧ start_granted u ip c w w'.
Proof.
  unfold startable. intros H c Hc. rewrite run_asks in H. cbv beta in H. apply gather_inv in H as (_ & ys & -> & Hys).
  2:{ intros x. apply quiet_bind; [apply credential_allows_quiet|]. intros ok. apply quiet_ret. }
  apply (concat_from _ _ _ _ Hys) in Hc as (c' & zs & Hin & (w1 & w2 & H1 & Hrun & H2) & Hc).
  apply bind_ok_inv in Hrun as (ok & w3 & Hok & Hret). injection Hret as <- <-.
  destruct ok; [|by apply elem_of_nil in Hc]. apply list_elem_of_singleton in Hc as ->.
  apply elem_of_objects_filter in Hin as [Hrow Ht%bool_decide_eq_true]. split; [done|]. split; [done|].
  apply credential_allows_action_sound in Hok as [Hr (uo & p & t0 & [= <-] & Hi & Hg & Hcov)].
  exists p, t0. rewrite (proj1 H1) in *. split; [|done]. eapply instant_weaken, Hi; [apply H1|apply H2|apply Hr].
Qed.

(** The group is enabled and named by an enabled policy the user holds. *)
Definition listed (d : db) (u : obj user) (g : obj target_group) : Prop :=
  target_groups d !! pk g = Some (val g) ∧ tg_enabled (val g) = true ∧
  ∃ p, holds_policy d (pk u) p ∧ pk g ∈ p_target_groups (val p).

Lemma listed_iff d u g : g ∈ target_groups_for_user d (Authenticated u) ↔ listed d u g.
Proof.
  unfold target_groups_for_user, listed. rewrite elem_of_objects_filter, andb_true_iff. split.
  - intros (H1 & H2 & (p & Hp%elem_of_policies_for_user & Hg%bool_decide_eq_true)%existsb_elem). eauto.
  - intros (H1 & H2 & p & Hp & Hg). split; [done|]. split; [done|]. apply existsb_elem. exists p.
    split; [by apply elem_of_policies_for_user|by apply bool_decide_eq_true].
Qed.

Lemma group_targets_iff d g t :
  t ∈ group_targets d g ↔ targets d !! pk t = Some (val t) ∧ t_enabled (val t) = true ∧ pk t ∈ tg_targets (val g).
Proof. unfold group_targets. by rewrite elem_of_objects_filter, andb_true_iff, bool_decide_eq_true. Qed.

(** The entry of one target. *)
Lemma visible_target_inv u ip g t w l w' :
  visible_target_of u ip g t w = (Ok l, w') →
  ∃ v, l = [v] ∧ vt_group v = pk g ∧ vt_target v = t ∧
    ∀ c, c ∈ vt_credentials v →
      credentials (w_db w) !! pk c = Some (val c) ∧ c_target (val c) = pk t ∧ start_granted u ip c w w'.
Proof.
  unfold visible_target_of. intros H. apply bind_ok_inv in H as (actions & w1 & Ha & H).
  apply bind_ok_inv in H as (creds & w2 & Hs & H). injection H as <- <-. eexists. split; [done|]. split; [done|]. split; [done|].
  pose proof (quiet_run _ _ _ _ (actions_for_target_quiet _ _ _ _) Ha) as [Hd Hl].
  pose proof (quiet_run _ _ _ _ (startable_quiet _ _ _) Hs) as [_ Hl2].
  intros c (H1 & H2 & p & t0 & Hi & Hg & Hc)%(startable_inv _ _ _ _ _ _ Hs). rewrite Hd in *. split; [done|]. split; [done|].
  exists p, t0. split; [|done]. eapply instant_weaken, Hi; done.
Qed.

Lemma group_entries_quiet u ip g : quiet (ts ← asks (λ d, group_targets d g); gather ts (visible_target_of u ip g)).
Proof. apply quiet_bind; [apply quiet_asks|]. intros ts. apply gather_quiet. intros t. apply visible_target_quiet. Qed.

(** The entries of one group. *)
Lemma group_entries_inv u ip g w l w' :
  (ts ← asks (λ d, group_targets d g); gather ts (visible_target_of u ip g)) w = (Ok l, w') →
  (∀ t, t ∈ group_targets (w_db w) g → ∃ v, v ∈ l ∧ vt_group v = pk g ∧ vt_target v = t) ∧
  ∀ v, v ∈ l → vt_group v = pk g ∧ vt_target v ∈ group_targets (w_db w) g ∧
    ∀ c, c ∈ vt_credentials v → credentials (w_db w) !! pk c = Some (val c) ∧ c_target (val c) = pk (vt_target v) ∧
      start_granted u ip c w w'.
Proof.
  rewrite run_asks. cbv beta. intros H. apply gather_inv in H as (_ & ys & -> & Hys); [|intros t; apply visible_target_quiet]. split.
  - intros t Ht. destruct (concat_to _ _ _ _ Hys Ht) as (zs & (w1 & w2 & _ & Hrun & _) & Hsub).
    apply visible_target_inv in Hrun as (v & -> & ? & ? & _). exists v. split; [|done]. apply Hsub. by left.
  - intros v Hv. destruct (concat_from _ _ _ _ Hys Hv) as (t & zs & Ht & (w1 & w2 & H1 & Hrun & H2) & Hin).
    pose proof (quiet_run _ _ _ _ (visible_target_quiet _ _ _ _) Hrun) as [_ Hl].
    apply visible_target_inv in Hrun as (v' & -> & Hg & Et & Hc). apply list_elem_of_singleton in Hin as ->.
    split; [done|]. rewrite Et. split; [done|]. intros c (? & ? & p & t0 & Hi & ?)%Hc. rewrite (proj1 H1) in *.
    split; [done|]. split; [done|]. exists p, t0. split; [|done]. eapply instant_weaken, Hi; [apply H1|apply H2|done].
Qed.

(** The list of targets shows what the user may reach, and nothing changes.  The page
    has one entry for each enabled target of each enabled group that an enabled policy
    of the user names, and no other; and each account it offers for a session belongs
    to the target of its entry and is granted by a policy that covers it, current at an
    instant of the request for the address it came from. *)
Theorem targets_page_exact u ip w l w' :
  visible_targets u ip w = (Ok l, w') →
  reads w w' ∧
  (∀ k t, (∃ v, v ∈ l ∧ vt_group v = k ∧ vt_target v = t) ↔
     ∃ g, listed (w_db w) u (Obj k g) ∧ targets (w_db w) !! pk t = Some (val t) ∧ t_enabled (val t) = true ∧ pk t ∈ tg_targets g) ∧
  ∀ v c, v ∈ l → c ∈ vt_credentials v →
    credentials (w_db w) !! pk c = Some (val c) ∧ c_target (val c) = pk (vt_target v) ∧ start_granted u ip c w w'.
Proof.
  unfold visible_targets. intros H. rewrite run_asks in H. cbv beta in H.
  apply gather_inv in H as (Hr & ys & -> & Hys); [|intros g; apply group_entries_quiet]. split; [done|]. split.
  - intros k t. split.
    + intros (v & Hv & <- & <-). destruct (concat_from _ _ _ _ Hys Hv) as (g & zs & Hg%listed_iff & (w1 & w2 & H1 & Hrun & _) & Hin).
      apply group_entries_inv in Hrun as [_ Hrun]. destruct (Hrun v Hin) as (-> & Ht & _). rewrite (proj1 H1) in Ht.
      apply group_targets_iff in Ht. exists (val g). by destruct g.
    + intros (g & Hg%listed_iff & Ht). destruct (concat_to _ _ _ _ Hys Hg) as (zs & (w1 & w2 & H1 & Hrun & _) & Hsub).
      apply group_entries_inv in Hrun as [Hrun _]. rewrite (proj1 H1) in Hrun.
      destruct (Hrun t) as (v & Hv & ? & ?); [by apply group_targets_iff|]. exists v. split; [by apply Hsub|done].
  - intros v c Hv Hc. destruct (concat_from _ _ _ _ Hys Hv) as (g & zs & _ & (w1 & w2 & H1 & Hrun & H2) & Hin).
    pose proof (quiet_run _ _ _ _ (group_entries_quiet _ _ _) Hrun) as [_ Hl].
    apply group_entries_inv in Hrun as [_ Hrun]. destruct (Hrun v Hin) as (_ & _ & Hcred).
    destruct (Hcred c Hc) as (? & ? & p & t0 & Hi & ?). rewrite (proj1 H1) in *. split; [done|]. split; [done|].
    exists p, t0. split; [|done]. eapply instant_weaken, Hi; [apply H1|apply H2|done].
Qed.
End listing_facts.

(** ** Concrete runs *)

Section witnesses.
#[local] Existing Instance demo_platform.
#[local] Existing Instance demo_edition.
#[local] Existing Instance demo_provider.

#[local] Instance demo_fields : DjangoForms := {|
  parse_datetime _ := None;
  parse_time _ := None;
  valid_email s := bool_decide ("@"%char ∈ chars s);
  clean_url_field := Some;
  normalize_username s := s;
  valid_username _ := true;
  password_acceptable s u := 12 <=? len s;
  re_compiles _ := true;
|}.

Definition account_db : db := genesis (demo_policy_db <| users := {[7%N := val demo_alice]} |>).

Definition account_request : http_request :=
  demo_http "/account/" ∅ <| rq_method := "POST" |> <| rq_user := Authenticated demo_alice |>.

Definition password_post : querydict :=
  {["action" := ["password"]; "old_password" := ["secret"]; "new_password1" := ["correct horse"]; "new_password2" := ["correct horse"]]}.

Definition demo_changed : outcome (response * http_request) * world := Eval vm_compute in
  account_page password_post account_request (demo_world account_db).

(** The new hash is stored, and this session stays valid under it. *)
Example password_change_keeps_session :
  (u_password <$> users (w_db demo_changed.2) !! 7%N) = Some "hash:correct horse" ∧
  match demo_changed.1 with
  | Ok (resp, r) => resp = RedirectTo "account" [] ∧ rq_session r !! HASH_SESSION_KEY = Some (JStr "session:hash:correct horse")
  | Raise _ => False
  end.
Proof. vm_compute. repeat split. Qed.

(** A wrong password, a short one and an address in use change nothing. *)
Example refused_changes :
  w_db (account_page (<["old_password" := ["guess"]]> password_post) account_request (demo_world account_db)).2 = account_db ∧
  w_db (account_page (<["new_password1" := ["short"]]> password_post) account_request (demo_world account_db)).2 = account_db ∧
  let others := account_db <| users ::= <[8%N := val demo_alice <| u_email := "bob@example.org" |>]> |> in
  w_db (account_page {["action" := ["profile"]; "email" := ["bob@example.org"]]} account_request (demo_world others)).2 = others.
Proof. vm_compute. repeat split. Qed.

Lemma account_page_confined_witness :
  audit_frame account_db (w_db demo_changed.2) ∨
  ∃ u new, rq_user account_request = Authenticated u ∧ allowed_change account_db u password_post new ∧
    audit_frame (account_db <| users ::= <[pk u := new]> |>) (w_db demo_changed.2).
Proof.
  destruct (account_page_confined password_post account_request (demo_world account_db) demo_changed.1 demo_changed.2) as [H|[_ H]].
  - vm_compute. reflexivity.
  - left. exact H.
  - right. exact H.
Defined.

(** The target of the policy, in a group the policy names. *)
Definition listed_db : db :=
  demo_policy_db <| policies := {[40%N := demo_policy <| p_target_groups := {[50%N]} |>]} |>
    <| target_groups := {[50%N := TargetGroup "servers" {[20%N]} true ""]} |>.

Definition demo_listing : outcome (list visible_target) * world := Eval vm_compute in
  visible_targets demo_alice (Some "192.0.2.9") (demo_world listed_db).

Definition listed_targets : list visible_target := Eval vm_compute in
  match demo_listing.1 with Ok l => l | Raise _ => [] end.

Lemma targets_page_exact_witness :
  ∀ v c, v ∈ listed_targets → c ∈ vt_credentials v →
    credentials listed_db !! pk c = Some (val c) ∧ c_target (val c) = pk (vt_target v) ∧
    start_granted demo_alice (Some "192.0.2.9") c (demo_world listed_db) demo_listing.2.
Proof.
  destruct (targets_page_exact demo_alice (Some "192.0.2.9") (demo_world listed_db) listed_targets demo_listing.2) as (_ & _ & H).
  - vm_compute. reflexivity.
  - exact H.
Defined.

Example listing_offers_account :
  (λ v, (pk (vt_target v), pk <$> vt_credentials v)) <$> listed_targets = [(20%N, [30%N])].
Proof. vm_compute. reflexivity. Qed.

(** A policy may name a target without a group: its user may start a session, and the
    page that offers sessions does not show the target. *)
Lemma direct_targets_not_listed :
  (credential_allows_action (Authenticated demo_alice) (Obj 30%N demo_credential) START_SESSION (Some "192.0.2.9") None
     (demo_world demo_policy_db)).1 = Ok true ∧
  (visible_targets demo_alice (Some "192.0.2.9") (demo_world demo_policy_db)).1 = Ok [].
Proof. split; vm_compute; reflexivity. Qed.
End witnesses.
