(* ===== verification/Deployment.v ===== *)
(** * Starting an installation ([config/runtime_secrets.py], [config/settings/],
    [keyring/app.py], [keyring/backends.py])

    What stands between the environment variables of a deployment and its services: the
    check of the secrets, the refusals of the production and staging settings, and the
    start of the keyring service with its Vault Transit address.  The [environ] package,
    files and certificates are parameters. *)

From S2P Require Import Prelude PyStr PyFloat Json Loads Crypto PyTime Models World Text Ip Licensing Outbound Keyring Broker Rdp PortalMfa Recordings ConsoleOps Endpoints.

Local Open Scope Z_scope.

Definition ImproperlyConfigured (msg : string) : exn := OtherError ("ImproperlyConfigured: " +:+ msg).

(** ** The secrets *)

Definition SECRET_REQUIREMENTS : list (string * Z) :=
  [("DJANGO_SECRET_KEY", 50); ("POSTGRES_PASSWORD", 32); ("REDIS_PASSWORD", 32); ("PAMOLIVE_KEYRING_TOKEN", 32);
   ("PAMOLIVE_GATEWAY_SHARED_KEY", 32); ("PAMOLIVE_RECORDING_KEY", 32); ("PAMOLIVE_OPERATIONS_TOKEN", 32);
   ("PAMOLIVE_GUACAMOLE_JSON_KEY", 32)].

Definition FORBIDDEN_EXACT : list string := [""; "changeme"; "change-me"; "default"; "password"; "secret"].

Definition FORBIDDEN_FRAGMENTS : list string :=
  ["change-before-production"; "generate-a-"; "replace-with"; "unsafe-local"].

Definition unsafe_value (value : string) (minimum_length : Z) : bool :=
  let normalized := lower (strip value) in
  (len value <? minimum_length) || bool_decide (normalized ∈ FORBIDDEN_EXACT)
  || existsb (λ fragment, contains fragment normalized) FORBIDDEN_FRAGMENTS.

Definition invalid_secrets (environment : gmap string string) : list string :=
  fst <$> List.filter (λ '(name, minimum_length), unsafe_value (default "" (environment !! name)) minimum_length) SECRET_REQUIREMENTS.

Definition validate_runtime_secrets (environment : gmap string string) : outcome unit :=
  let invalid := invalid_secrets environment in
  if decide (invalid = []) then Ok tt
  else Raise (ImproperlyConfigured ("Unsafe or missing runtime secrets: " +:+ join ", " (sort_by_text (λ s, s) invalid)
         +:+ ". Run ./install.sh and configure deployment-specific values before starting PAM-olive.")).

(** ** The settings *)

(** [env(name, default=...)] and [env.bool(name, default=...)] *)
Class EnvReader := {
  env_str : gmap string string → string → string → string;
  env_bool : gmap string string → string → bool → outcome bool;
}.

(** The settings of [base.py] the two modules look at. *)
Record base_settings := BaseSettings {
  SECRET_KEY : string;
  KEYRING_BACKEND : string;
  KEYRING_URL : string;
  REDIS_URL : string;
  REDIS_TLS_CA_PATH : string;
  GATEWAY_SHARED_KEY : string;
  OPERATIONS_TOKEN : string;
  RDP_ENABLED : bool;
  RDP_PUBLIC_ORIGIN : string;
  GUACAMOLE_JSON_KEY : string;
}.

(** [parsed.netloc] and whether [parsed.path] is empty, of a URL whose scheme has
    parameters; [None] for the [ValueError]. *)
Definition origin_parts (s : string) : option (string * string * bool) :=
  u ← urlparse s;
  let l := filter (λ c, c ∉ [chr 9; chr 10; chr 13]) (drop_while (λ c, code c <=? 32) (chars s)) in
  let '(scheme, rest) := split_scheme l in
  match rest with
  | "/"%char :: "/"%char :: r =>
      let netloc := take_while_not ["/"; "?"; "#"]%char r in
      Some (url_scheme u, of_chars netloc, negb (bool_decide (head (drop (length netloc) r) = Some "/"%char)))
  | _ => Some (url_scheme u, "", bool_decide (take_while_not ["?"; "#"]%char rest = []))
  end.

Definition parsed_url (s : string) : outcome url :=
  match urlparse s with Some u => Ok u | None => Raise (ValueError "Invalid IPv6 URL") end.

Section settings.
Context {ER : EnvReader}.

Definition read_base_settings (environ : gmap string string) : outcome base_settings :=
  let env := env_str environ in
  bind_outcome (parsed_url (env "REDIS_URL" "redis://localhost:6379/0")) (λ _,
  match env_bool environ "PAMOLIVE_RDP_ENABLED" false with
  | Raise e => Raise e
  | Ok rdp =>
      Ok (BaseSettings (env "DJANGO_SECRET_KEY" "unsafe-local-key-change-before-production") (env "PAMOLIVE_KEYRING_BACKEND" "http")
            (env "PAMOLIVE_KEYRING_URL" "https://keyring:8000") (env "REDIS_URL" "redis://localhost:6379/0") (env "REDIS_TLS_CA_PATH" "")
            (env "PAMOLIVE_GATEWAY_SHARED_KEY" "unsafe-local-gateway-key-change-before-production") (env "PAMOLIVE_OPERATIONS_TOKEN" "")
            rdp (rstrip_char "/" (env "PAMOLIVE_RDP_PUBLIC_ORIGIN" "http://localhost:8081")) (env "PAMOLIVE_GUACAMOLE_JSON_KEY" ""))
  end).

Definition refuse_if (b : bool) (msg : string) (rest : outcome unit) : outcome unit :=
  if b then Raise (ImproperlyConfigured msg) else rest.

(** The tests the two modules share; [label] is the word of their messages. *)
Definition common_tests (label : string) (s : base_settings) (rest : outcome unit) : outcome unit :=
  refuse_if (bool_decide (SECRET_KEY s = "unsafe-local-key-change-before-production")) "DJANGO_SECRET_KEY must be configured" (
  bind_outcome (parsed_url (KEYRING_URL s)) (λ keyring_url,
  refuse_if (bool_decide (KEYRING_BACKEND s ≠ "http")) (label +:+ " requires the HTTP keyring backend") (
  refuse_if (bool_decide (url_scheme keyring_url ≠ "https") || bool_decide (url_hostname keyring_url ≠ Some "keyring"))
    "PAMOLIVE_KEYRING_URL must point to the internal keyring service" (
  bind_outcome (parsed_url (REDIS_URL s)) (λ redis_url,
  refuse_if (bool_decide (url_scheme redis_url ≠ "rediss") || bool_decide (REDIS_TLS_CA_PATH s = ""))
    (label +:+ " requires verified TLS for the internal Redis service") rest))))).

Definition rdp_tests (s : base_settings) : outcome unit :=
  if RDP_ENABLED s then
    refuse_if (negb (is_json_key (GUACAMOLE_JSON_KEY s)))
      "PAMOLIVE_GUACAMOLE_JSON_KEY must contain exactly 32 hexadecimal characters" (
    match origin_parts (RDP_PUBLIC_ORIGIN s) with
    | None => Raise (ValueError "Invalid IPv6 URL")
    | Some (scheme, netloc, no_path) =>
        refuse_if (bool_decide (scheme ≠ "https") || bool_decide (netloc = "") || negb no_path)
          "PAMOLIVE_RDP_PUBLIC_ORIGIN must be a dedicated HTTPS origin without a path" (Ok tt)
    end)
  else Ok tt.

Definition production_tests (s : base_settings) : outcome unit :=
  common_tests "Production" s (
  refuse_if (len (GATEWAY_SHARED_KEY s) <? 32) "PAMOLIVE_GATEWAY_SHARED_KEY must contain at least 32 characters" (
  refuse_if (len (OPERATIONS_TOKEN s) <? 32) "PAMOLIVE_OPERATIONS_TOKEN must contain at least 32 characters" (
  rdp_tests s))).

(** Importing [config.settings.production] or [config.settings.staging]. *)
Definition load_settings (tests : base_settings → outcome unit) (environ : gmap string string) : outcome base_settings :=
  bind_outcome (read_base_settings environ) (λ s,
  bind_outcome (validate_runtime_secrets environ) (λ _,
  bind_outcome (tests s) (λ _, Ok s))).

Definition production : gmap string string → outcome base_settings := load_settings production_tests.

Definition staging : gmap string string → outcome base_settings := load_settings (λ s, common_tests "Staging" s (Ok tt)).
End settings.

(** ** The keyring service *)

(** Reading a file as text ([None] for [OSError]), and [ssl.create_default_context]. *)
Class VaultHost := {
  read_text : string → option string;
  create_default_context : option string → outcome unit;
}.

Record vault_config := VaultConfig {
  vc_address : string;
  vc_mount : string;
  vc_key_name : string;
  vc_token : string;
  vc_namespace : string;
  vc_timeout : pyfloat;
}.

Definition strip_slashes (s : string) : string := of_chars (strip_chars (λ c, bool_decide (c = "/"%char)) (chars s)).

Section keyring_start.
Context {VH : VaultHost}.

(** [VaultTransitBackend.__init__] *)
Definition open_vault (environ : gmap string string) : outcome vault_config :=
  let get k d := default d (environ !! k) in
  let address := rstrip_char "/" (get "PAMOLIVE_VAULT_ADDR" "") in
  bind_outcome (parsed_url address) (λ parsed,
  if bool_decide (url_scheme parsed ≠ "https") || bool_decide (url_hostname parsed = None)
     || text_truthy (url_username parsed) || text_truthy (url_password parsed)
  then Raise (RuntimeError "PAMOLIVE_VAULT_ADDR must be an HTTPS URL without credentials")
  else
    let mount := strip_slashes (get "PAMOLIVE_VAULT_TRANSIT_MOUNT" "transit") in
    let key_name := get "PAMOLIVE_VAULT_KEY_NAME" "pamolive" in
    if bool_decide (mount = "") || bool_decide ("/"%char ∈ chars key_name) || bool_decide (key_name = "")
    then Raise (RuntimeError "Vault Transit mount and key name must be non-empty path segments")
    else
      match read_text (get "PAMOLIVE_VAULT_TOKEN_FILE" "/run/secrets/pamolive_vault_token") with
      | None => Raise (RuntimeError "Vault token file is unavailable")
      | Some text =>
          let token := strip text in
          if len token <? 16 then Raise (RuntimeError "Vault token file is empty or invalid")
          else match py_float (get "PAMOLIVE_VAULT_TIMEOUT_SECONDS" "5") with
               | None => Raise (ValueError "could not convert string to float")
               | Some timeout =>
                   let ca_path := strip (get "PAMOLIVE_VAULT_CA_PATH" "") in
                   bind_outcome (create_default_context (if decide (ca_path = "") then None else Some ca_path)) (λ _,
                   Ok (VaultConfig address mount key_name token (strip (get "PAMOLIVE_VAULT_NAMESPACE" "")) timeout))
               end
      end).

(** The URL and the headers of [_request]. *)
Definition vault_url (c : vault_config) (operation : string) : string :=
  vc_address c +:+ "/v1/" +:+ vc_mount c +:+ "/" +:+ operation +:+ "/" +:+ quote (vc_key_name c).

Definition vault_headers (c : vault_config) : list (string * string) :=
  [("Content-Type", "application/json"); ("X-Vault-Token", vc_token c)]
  ++ (if decide (vc_namespace c = "") then [] else [("X-Vault-Namespace", vc_namespace c)]).

(** What the process holds once [app.py] is imported, and the key file. *)
Record keyring_process := KeyringProcess {
  kp_app : keyring_app;
  kp_limiter : limiter;
  kp_vault : option vault_config;
  kp_key_file : option bytes;
}.

Context {KC : KeyringCrypto}.

Definition start_keyring (environ : gmap string string) (stored : option bytes) (urandom : bytes) : outcome keyring_process :=
  let token := default "" (environ !! "PAMOLIVE_KEYRING_TOKEN") in
  if len token <? 32 then Raise (RuntimeError "PAMOLIVE_KEYRING_TOKEN must contain at least 32 characters")
  else
    let positive name d := _positive_integer_environment name (environ !! name) d in
    bind_outcome (positive "PAMOLIVE_KEYRING_RATE_LIMIT_PER_MINUTE" 1200) (λ per_minute,
    bind_outcome (positive "PAMOLIVE_KEYRING_DECRYPT_LIMIT_PER_MINUTE" 300) (λ decrypts,
    let backend := default "local" (environ !! "PAMOLIVE_KEYRING_CRYPTO_BACKEND") in
    bind_outcome (if decide (backend = "vault-transit") then bind_outcome (open_vault environ) (λ c, Ok (Some c)) else Ok None) (λ vault,
    bind_outcome (open_routed backend stored urandom) (λ '(crypto, key_file),
    Ok (KeyringProcess (KeyringApp token crypto) (Limiter {["/decrypt" := decrypts]} per_minute 60 ∅) vault key_file))))).
End keyring_start.

(** ** The preflight report ([operations/management/commands/preflight_status.py]) *)

Definition preflight_key : string := "pam-olive:preflight:cache".

(** [pending]: the names of the migrations the executor would apply. *)
Definition preflight_status {LE : LicenseEnv} (p : probes) (pending : list string) : M json :=
  one ← of_outcome (pr_select p);
  let database_ok := one =? 1 in
  of_outcome (pr_cache_set p preflight_key) ;;
  cached ← of_outcome (pr_cache_get p preflight_key);
  let cache_ok := bool_decide (cached = Some "ok") in
  of_outcome (pr_cache_delete p preflight_key) ;;
  license ← get_license_status;
  mret (JObj [("status", JStr (if database_ok && cache_ok && bool_decide (pending = []) then "ok" else "attention_required"));
              ("database_ok", JBool database_ok); ("cache_ok", JBool cache_ok); ("pending_migrations", JArr (JStr <$> pending));
              ("license", JObj [("edition", JStr (ls_edition license)); ("valid", JBool (ls_valid license));
                                ("source", JStr (ls_source license)); ("reason", JStr (ls_reason license));
                                ("cluster_allowed", JBool (cluster_allowed license))]);
              ("cluster_enabled", JBool cluster_enabled); ("node_id", JStr node_id)]).

(** A good report agrees with the readiness probe, and every migration is applied. *)
Lemma preflight_agrees {LE : LicenseEnv} p pending w members w' :
  preflight_status p pending w = (Ok (JObj members), w') → dict_get "status" members = Some (JStr "ok") →
  database_check p = "ok" ∧ cache_check p preflight_key = "ok" ∧ pending = [].
Proof.
  unfold preflight_status, database_check, cache_check. intros H Hs.
  destruct (pr_select p) as [one|] eqn:E1; [|done]. rewrite (run_of_ok _ _ _ _ eq_refl) in H.
  destruct (pr_cache_set p preflight_key) as [[]|] eqn:E2; [|done]. rewrite (run_of_ok _ _ _ _ eq_refl) in H.
  destruct (pr_cache_get p preflight_key) as [cached|] eqn:E3; [|done]. rewrite (run_of_ok _ _ _ _ eq_refl) in H.
  destruct (pr_cache_delete p preflight_key) as [[]|] eqn:E4; [|done]. rewrite (run_of_ok _ _ _ _ eq_refl) in H.
  apply bind_ok_inv in H as (license & w1 & _ & H). injection H as <- _. simpl in Hs.
  destruct (Z.eqb_spec one 1) as [->|]; [|done]. destruct (decide (cached = Some "ok")) as [->|]; [|by rewrite bool_decide_false in Hs].
  destruct (decide (pending = [])) as [->|]; [done|]. by rewrite (bool_decide_false (pending = [])) in Hs.
Qed.

(** ** What a deployment that starts has *)






Section start_facts.
Context {ER : EnvReader}.

Lemma bind_outcome_ok {A B} (r : outcome A) (f : A → outcome B) y :
  bind_outcome r f = Ok y ↔ ∃ x, r = Ok x ∧ f x = Ok y.
Proof. destruct r; simpl; split; [eauto|by intros (? & [= ->] & ?)|done|by intros (? & ? & _)]. Qed.


Lemma parsed_url_ok s u : parsed_url s = Ok u ↔ urlparse s = Some u.
Proof. unfold parsed_url. destruct (urlparse s); naive_solver. Qed.





End start_facts.

(** ** The services of a production deployment start *)

(** The package reads a variable as it is, unless it starts with a dollar sign, which
    refers to another variable. *)
Class PlainEnv `{EnvReader} : Prop :=
  env_plain environ name d v : environ !! name = Some v → head (chars v) ≠ Some "$"%char → env_str environ name d = v.

Section services.
Context {ER : EnvReader} {PE : PlainEnv} {VH : VaultHost} {KC : KeyringCrypto}.



Lemma open_vault_inv environ c :
  open_vault environ = Ok c →
  ∃ u, urlparse (vc_address c) = Some u ∧ url_scheme u = "https" ∧ url_hostname u ≠ None ∧
    text_truthy (url_username u) = false ∧ text_truthy (url_password u) = false ∧
    16 <= len (vc_token c) ∧ vc_mount c ≠ "" ∧ "/"%char ∉ chars (vc_key_name c).
Proof.
  unfold open_vault. intros (u & Hu%parsed_url_ok & H)%bind_outcome_ok.
  destruct (_ || _ || _ || _) eqn:E1 in H; [done|]. destruct (_ || _ || _) eqn:E2 in H; [done|].
  destruct (read_text _) as [text|]; [|done]. destruct (Z.ltb_spec (len (strip text)) 16); [done|].
  destruct (py_float _); [|done]. apply bind_outcome_ok in H as (_ & _ & [= <-]). simpl.
  apply orb_false_iff in E1 as [[[Es Eh]%orb_false_iff En]%orb_false_iff Ep].
  apply orb_false_iff in E2 as [[Em Ek]%orb_false_iff _].
  apply bool_decide_eq_false, dec_stable in Es. apply bool_decide_eq_false in Eh, Em, Ek. by exists u.
Qed.

Lemma positive_environment name value d n :
  _positive_integer_environment name value d = Ok n → 1 <= n.
Proof.
  unfold _positive_integer_environment. destruct (match value with Some _ => _ | None => _ end) as [m|]; [|done].
  destruct (Z.ltb_spec m 1); [done|]. by intros [= <-].
Qed.





(** The keyring service starts only when it is guarded: with a token of 32 characters at
    least, with limits of one request a minute at least and no request counted yet; and
    on Vault Transit only over HTTPS, at a host, without credentials in the address, and
    with a token of 16 characters at least. *)
Theorem keyring_starts_guarded environ stored urandom p :
  start_keyring environ stored urandom = Ok p →
  32 <= len (AUTH_TOKEN (kp_app p)) ∧ fresh_limiter (kp_limiter p) ∧ (∀ operation, 1 <= limit_of (kp_limiter p) operation) ∧
  (active (CRYPTO (kp_app p)) = VaultTransitBackend → ∃ c u, kp_vault p = Some c ∧ urlparse (vc_address c) = Some u ∧
     url_scheme u = "https" ∧ url_hostname u ≠ None ∧ text_truthy (url_username u) = false ∧ text_truthy (url_password u) = false ∧
     16 <= len (vc_token c) ∧ vc_mount c ≠ "" ∧ "/"%char ∉ chars (vc_key_name c)).
Proof.
  unfold start_keyring. destruct (Z.ltb_spec (len (default "" (environ !! "PAMOLIVE_KEYRING_TOKEN"))) 32) as [|Ht]; [done|].
  intros (n1 & H1%positive_environment & (n2 & H2%positive_environment & (vault & Hv & ([crypto file] & Hr & [= <-])%bind_outcome_ok)
    %bind_outcome_ok)%bind_outcome_ok)%bind_outcome_ok. simpl. split; [done|]. split; [done|]. split.
  - intros operation. unfold limit_of. simpl. destruct (decide (operation = "/decrypt")) as [->|Hne].
    + by rewrite lookup_singleton_eq.
    + by rewrite lookup_singleton_ne.
  - intros Ha. unfold open_routed in Hr. destruct (decide (_ = "local")) as [El|].
    + apply bind_outcome_ok in Hr as ([k f] & _ & [= <- _]). discriminate Ha.
    + destruct (decide (_ = "vault-transit")); [|done]. apply bind_outcome_ok in Hv as (c & Hc & [= <-]).
      apply open_vault_inv in Hc as (u & Hu). by exists c, u.
Qed.
End services.

(** ** A deployment *)

#[local] Existing Instance demo_crypto.

#[local] Instance plain_reader : EnvReader := {|
  env_str environ name d := default d (environ !! name);
  env_bool environ name d := Ok (match environ !! name with Some v => bool_decide (v = "true") | None => d end);
|}.

#[local] Instance plain_reader_plain : PlainEnv.
Proof. intros environ name d v H _. simpl. by rewrite H. Qed.

#[local] Instance demo_vault_host : VaultHost := {|
  read_text path := if decide (path = "/run/secrets/pamolive_vault_token") then Some ("hvs.0123456789abcdef" +:+ of_chars [chr 10]) else None;
  create_default_context _ := Ok tt;
|}.

Definition production_environ : gmap string string :=
  {[ "DJANGO_SECRET_KEY" := "0123456789abcdef0123456789abcdef0123456789abcdef0123";
     "POSTGRES_PASSWORD" := demo_shared_key; "REDIS_PASSWORD" := demo_shared_key; "PAMOLIVE_KEYRING_TOKEN" := demo_shared_key;
     "PAMOLIVE_GATEWAY_SHARED_KEY" := demo_shared_key; "PAMOLIVE_RECORDING_KEY" := demo_shared_key;
     "PAMOLIVE_OPERATIONS_TOKEN" := demo_shared_key; "PAMOLIVE_GUACAMOLE_JSON_KEY" := demo_shared_key;
     "REDIS_URL" := "rediss://redis:6379/0"; "REDIS_TLS_CA_PATH" := "/etc/redis/ca.crt"; "PAMOLIVE_RDP_ENABLED" := "true";
     "PAMOLIVE_RDP_PUBLIC_ORIGIN" := "https://rdp.example.org/" ]}.


Definition vault_environ : gmap string string :=
  {[ "PAMOLIVE_KEYRING_TOKEN" := demo_shared_key; "PAMOLIVE_KEYRING_CRYPTO_BACKEND" := "vault-transit";
     "PAMOLIVE_VAULT_ADDR" := "https://vault.example.org:8200/"; "PAMOLIVE_KEYRING_DECRYPT_LIMIT_PER_MINUTE" := "30" ]}.

(** Refusals: a placeholder, an origin with a path, and an address in clear. *)
Example refusals :
  production (<["DJANGO_SECRET_KEY" := "generate-a-0123456789abcdef0123456789abcdef0123456789"]> production_environ)
    = Raise (ImproperlyConfigured "Unsafe or missing runtime secrets: DJANGO_SECRET_KEY. Run ./install.sh and configure deployment-specific values before starting PAM-olive.") ∧
  production (<["PAMOLIVE_RDP_PUBLIC_ORIGIN" := "https://rdp.example.org/guacamole"]> production_environ)
    = Raise (ImproperlyConfigured "PAMOLIVE_RDP_PUBLIC_ORIGIN must be a dedicated HTTPS origin without a path") ∧
  open_vault (<["PAMOLIVE_VAULT_ADDR" := "http://vault.example.org"]> vault_environ)
    = Raise (RuntimeError "PAMOLIVE_VAULT_ADDR must be an HTTPS URL without credentials").
Proof. repeat split; vm_compute; reflexivity. Qed.


Definition demo_process : keyring_process := Eval vm_compute in
  match start_keyring vault_environ None [] with
  | Ok p => p
  | Raise _ => KeyringProcess demo_keyring_app (Limiter ∅ 0 0 ∅) None None
  end.

Lemma keyring_starts_guarded_witness : ∃ c, kp_vault demo_process = Some c ∧ 16 <= len (vc_token c) ∧ vc_mount c ≠ "".
Proof.
  destruct (keyring_starts_guarded vault_environ None [] demo_process) as (_ & _ & _ & H).
  - vm_compute. reflexivity.
  - destruct (H eq_refl) as (c & u & H1 & _ & _ & _ & _ & _ & H2 & H3 & _). exists c. split; [exact H1|]. split; [exact H2|exact H3].
Defined.
