(* ===== verification/LicenseTool.v ===== *)
(** * Issuing a licence ([tools/generate_license.py])

    The tool that signs the licence of a customer and writes it to a file, and the way
    back: the file is read by the platform ([licensing/services.py], in [Licensing.v])
    as the document that was signed.  The private key is a parameter. *)

From S2P Require Import Prelude PyStr Json Loads Crypto PyTime Models World Text Keyring Recordings ConsoleOps Licensing.

Local Open Scope Z_scope.

Record license_args := LicenseArgs {
  la_customer : string;
  la_edition : string;
  la_features : list string;
  la_max_users : string;
  la_max_targets : string;
  la_max_nodes : string;
  la_domain : string;
  la_installation_id : string;
  la_expires_at : string;
}.

(** The choices of [--edition]. *)
Definition args_ok (args : license_args) : bool := bool_decide (la_edition args ∈ ["business"; "enterprise"]).

Definition parse_limit (value : string) : outcome json :=
  if decide (value ∈ [""; "none"; "null"; "unlimited"]) then Ok JNull
  else match py_int value with Some n => Ok (JInt n) | None => Raise (ValueError "invalid literal for int() with base 10") end.

(** [sorted(set(features))] *)
Definition sorted_features (l : list string) : list string := sort_by_text (λ s, s) (remove_dups l).

Definition license_payload (args : license_args) (now : Z) : outcome (list (string * json)) :=
  bind_outcome (parse_limit (la_max_users args)) (λ users,
  bind_outcome (parse_limit (la_max_targets args)) (λ targets,
  bind_outcome (parse_limit (la_max_nodes args)) (λ nodes,
  Ok [("customer", JStr (la_customer args)); ("edition", JStr (la_edition args));
      ("features", JArr (JStr <$> sorted_features (la_features args)));
      ("max_users", users); ("max_targets", targets); ("max_nodes", nodes);
      ("domain", JStr (la_domain args)); ("installation_id", JStr (la_installation_id args));
      ("issued_at", JStr (isoformat now)); ("expires_at", JStr (la_expires_at args))]))).

(** [base64.urlsafe_b64encode(b).decode().rstrip("=")] *)
Definition to_urlsafe (c : ascii) : ascii :=
  if decide (c = "+"%char) then "-"%char else if decide (c = "/"%char) then "_"%char else c.

Definition urlsafe_unpadded (b : bytes) : string := rstrip_char "=" (of_chars (to_urlsafe <$> b64encode b)).

(** The document; [sign]: [private_key.sign]. *)
Definition generate_license (sign : string → bytes) (args : license_args) (now : Z) : outcome json :=
  bind_outcome (license_payload args now) (λ payload,
  Ok (JObj [("payload", JObj payload); ("signature", JStr (urlsafe_unpadded (sign (_canonical_payload payload))))])).

(** [json.dumps(document, indent=2)]: a character of a string, a string, and a value
    that starts [depth] levels deep. *)
Definition escape_ascii (c : ascii) : list ascii := mbind ascii_only (escape_char c).

Definition ascii_str (s : string) : list ascii := quote :: mbind escape_ascii (chars s) ++ [quote].

Definition margin (depth : nat) : list ascii := chr 10 :: replicate (2 * depth) " "%char.

Fixpoint ser_indented (depth : nat) (j : json) : list ascii :=
  match j with
  | JStr s => ascii_str s
  | JArr ((_ :: _) as l) =>
      "["%char ::
      (fix go (sep : bool) (l : list json) : list ascii :=
         match l with
         | [] => margin depth ++ ["]"%char]
         | x :: l' => (if sep then [","%char] else []) ++ margin (S depth) ++ ser_indented (S depth) x ++ go true l'
         end) false l
  | JObj ((_ :: _) as l) =>
      "{"%char ::
      (fix go (sep : bool) (l : list (string * json)) : list ascii :=
         match l with
         | [] => margin depth ++ ["}"%char]
         | (k, x) :: l' =>
             (if sep then [","%char] else []) ++ margin (S depth) ++ ascii_str k ++ ":"%char :: " "%char
               :: ser_indented (S depth) x ++ go true l'
         end) false l
  | _ => ser j
  end.

(** What the tool writes. *)
Definition license_file (document : json) : string := of_chars (ser_indented 0 (sort_keys document) ++ [chr 10]).

(** *** The signature survives its encoding *)

Lemma to_urlsafe_char v : 0 <= v < 64 →
  from_urlsafe (to_urlsafe (b64_char v)) = b64_char v ∧ to_urlsafe (b64_char v) ≠ "="%char ∧ b64_value (b64_char v) = Some v ∧ b64_char v ≠ "="%char.
Proof.
  intros Hv.
  assert (forallb (λ z, let v := Z.of_nat z in
    bool_decide (from_urlsafe (to_urlsafe (b64_char v)) = b64_char v ∧ to_urlsafe (b64_char v) ≠ "="%char ∧
                 b64_value (b64_char v) = Some v ∧ b64_char v ≠ "="%char)) (seq 0 64) = true) as H by (vm_compute; reflexivity).
  rewrite forallb_forall in H. specialize (H (Z.to_nat v)). cbv zeta in H. rewrite Z2Nat.id in H by lia.
  apply (bool_decide_eq_true_1 _), H, in_seq. lia.
Qed.

(** The digits of a text in base 64, without the padding. *)
Fixpoint b64_digits (b : bytes) : list Z :=
  match b with
  | x :: y :: z :: b' =>
      let v := 65536 * x + 256 * y + z in v / 262144 :: v / 4096 mod 64 :: v / 64 mod 64 :: v mod 64 :: b64_digits b'
  | [x; y] => let v := 65536 * x + 256 * y in [v / 262144; v / 4096 mod 64; v / 64 mod 64]
  | [x] => let v := 65536 * x in [v / 262144; v / 4096 mod 64]
  | [] => []
  end.

Lemma b64_digits_spec b : Forall is_byte b →
  Forall (λ v, 0 <= v < 64) (b64_digits b) ∧
  b64encode b = (b64_char <$> b64_digits b) ++ replicate (Z.to_nat ((- Z.of_nat (length (b64_digits b))) mod 4)) "="%char.
Proof.
  intros Hb. remember (length b) as n eqn:Hn. revert b Hn Hb. induction (lt_wf n) as [n _ IH]. intros b -> Hb.
  unfold is_byte in *. destruct b as [|x [|y [|z b]]]; [by split|..]; rewrite ?Forall_cons in Hb; destruct_and?.
  - split; [|done]. repeat constructor; digits.
  - split; [|done]. repeat constructor; digits.
  - destruct (IH (length b) ltac:(simpl; lia) b eq_refl) as [Hf He]; [done|]. split.
    + cbn [b64_digits]. cbv zeta. repeat (constructor; [digits|]). done.
    + cbn [b64_digits b64encode]. cbv zeta. rewrite He. cbn [fmap list_fmap length app]. do 4 f_equal. f_equal. f_equal. f_equal.
      rewrite !Nat2Z.inj_succ. digits.
Qed.

Lemma lenient_digit v q pads l : 0 <= v < 64 →
  Licensing.a2b_base64 q pads (b64_char v :: l) =
    match q with
    | [a; b; d] => r ← Licensing.a2b_base64 [] 0 l; Some (a * 4 + b / 16 :: b mod 16 * 16 + d / 4 :: d mod 4 * 64 + v :: r)
    | _ => Licensing.a2b_base64 (q ++ [v]) 0 l
    end.
Proof.
  intros (_ & _ & Hv & Hne)%to_urlsafe_char. cbn [Licensing.a2b_base64]. rewrite decide_False by done. by rewrite Hv.
Qed.

Lemma lenient_b64encode b : Forall is_byte b → Licensing.a2b_base64 [] 0 (b64encode b) = Some b.
Proof.
  intros Hb. remember (length b) as n eqn:Hn. revert b Hn Hb. induction (lt_wf n) as [n _ IH]. intros b -> Hb.
  unfold is_byte in *. destruct b as [|x [|y [|z b]]]; [done|..]; rewrite ?Forall_cons in Hb; destruct_and?;
    cbn [b64encode]; cbv zeta; rewrite !lenient_digit by digits; cbn [app].
  - cbn. do 2 f_equal. digits.
  - cbn. do 2 f_equal; [digits|]. f_equal. digits.
  - rewrite (IH (length b)) by (simpl; auto with lia). cbn [mbind option_bind]. do 2 f_equal; [digits|]. f_equal; [digits|]. f_equal. digits.
Qed.

Lemma drop_while_app_all {A} (f : A → bool) l k : forallb f l = true → drop_while f (l ++ k) = drop_while f k.
Proof. induction l as [|x l IH]; simpl; [done|]. intros [-> H]%andb_true_iff. by apply IH. Qed.

Lemma rstrip_padding l n : Forall (λ c, c ≠ "="%char) l → rstrip_char "=" (of_chars (l ++ replicate n "="%char)) = of_chars l.
Proof.
  intros Hl. unfold rstrip_char. rewrite chars_of_chars, rev_app_distr. rewrite drop_while_app_all.
  - f_equal. destruct (rev l) as [|c k] eqn:E.
    + assert (l = []) as -> by (rewrite <- (rev_involutive l), E; done). done.
    + simpl. rewrite bool_decide_false; [by rewrite <- E, rev_involutive|]. rewrite Forall_forall in Hl. apply Hl.
      apply list_elem_of_In, in_rev. rewrite E. by left.
  - apply forallb_forall. intros c Hc%in_rev%list_elem_of_In%elem_of_replicate_inv. subst. by apply bool_decide_eq_true.
Qed.

Lemma unpadded_decodes b : Forall is_byte b → _b64decode (urlsafe_unpadded b) = Some b.
Proof.
  intros Hb. destruct (b64_digits_spec b Hb) as [Hd He].
  assert (Forall (λ v, from_urlsafe (to_urlsafe (b64_char v)) = b64_char v ∧ to_urlsafe (b64_char v) ≠ "="%char ∧
            code (to_urlsafe (b64_char v)) < 128) (b64_digits b)) as Hc.
  { eapply Forall_impl; [exact Hd|]. intros v Hv. destruct (to_urlsafe_char v Hv) as (? & ? & _). split; [done|]. split; [done|].
    assert (forallb (λ z, code (to_urlsafe (b64_char (Z.of_nat z))) <? 128) (seq 0 64) = true) as Hall by (vm_compute; reflexivity).
    rewrite forallb_forall in Hall. specialize (Hall (Z.to_nat v)). cbv beta in Hall. destruct Hv as [Hv0 Hv1]. rewrite Z2Nat.id in Hall by exact Hv0.
    apply Z.ltb_lt, Hall, in_seq. clear -Hv0 Hv1. lia. }
  assert (urlsafe_unpadded b = of_chars (to_urlsafe <$> (b64_char <$> b64_digits b))) as E.
  { unfold urlsafe_unpadded. rewrite He, fmap_app, fmap_replicate. apply rstrip_padding. apply Forall_fmap, Forall_fmap.
    eapply Forall_impl; [exact Hc|]. by intros v (_ & ? & _). }
  unfold _b64decode. rewrite E. unfold is_ascii, len. rewrite <- length_chars, chars_of_chars, !length_fmap, fmap_app, fmap_replicate.
  replace (forallb _ _) with true; cycle 1.
  { symmetry. apply forallb_forall. intros c Hin%list_elem_of_In. apply list_elem_of_fmap in Hin as (? & -> & Hin).
    apply list_elem_of_fmap in Hin as (v & -> & Hin). rewrite Forall_forall in Hc. by apply Z.ltb_lt, (Hc v). }
  assert (from_urlsafe <$> (to_urlsafe <$> (b64_char <$> b64_digits b)) = b64_char <$> b64_digits b) as ->.
  { rewrite <- !list_fmap_compose. apply list_fmap_ext. intros i v Hi. simpl. apply list_elem_of_lookup_2 in Hi.
    rewrite Forall_forall in Hc. by apply (Hc v). }
  change (from_urlsafe "=") with "="%char. rewrite <- He. by apply lenient_b64encode.
Qed.

(** ** The file is read back *)

Lemma read_char_ascii c r : read_char (escape_ascii c ++ r) = Some (c, r).
Proof. destruct c as [[] [] [] [] [] [] [] []]; reflexivity. Qed.

Lemma ascii_head c : ∃ d w, escape_ascii c = d :: w ∧ (code d =? 34) = false.
Proof. destruct c as [[] [] [] [] [] [] [] []]; do 2 eexists; split; reflexivity. Qed.

Lemma ascii_str_app s r : ascii_str s ++ r = quote :: mbind escape_ascii (chars s) ++ quote :: r.
Proof. unfold ascii_str. simpl. by rewrite <- app_assoc. Qed.

Lemma read_ascii_str s r n : (length (mbind escape_ascii (chars s)) < n)%nat →
  read_string n (mbind escape_ascii (chars s) ++ quote :: r) = Some (chars s, r).
Proof.
  intros Hn. apply read_string_escaped; [apply read_char_ascii|apply ascii_head|].
  pose proof (escaped_length escape_ascii ascii_head (chars s)). lia.
Qed.

(** Line breaks and indentation are white space. *)
Lemma skip_margin depth r : skip_ws (margin depth ++ r) = skip_ws r.
Proof.
  unfold margin, skip_ws. cbn [app drop_while]. change (is_ws (chr 10)) with true. cbv iota.
  induction (2 * depth)%nat as [|k IH]; [done|]. cbn [replicate app drop_while]. by change (is_ws " ") with true.
Qed.

Definition rows (depth : nat) : bool → list json → list ascii :=
  fix go (sep : bool) (l : list json) : list ascii :=
    match l with
    | [] => margin depth ++ ["]"%char]
    | x :: l' => (if sep then [","%char] else []) ++ margin (S depth) ++ ser_indented (S depth) x ++ go true l'
    end.

Definition members (depth : nat) : bool → list (string * json) → list ascii :=
  fix go (sep : bool) (l : list (string * json)) : list ascii :=
    match l with
    | [] => margin depth ++ ["}"%char]
    | (k, x) :: l' =>
        (if sep then [","%char] else []) ++ margin (S depth) ++ ascii_str k ++ ":"%char :: " "%char
          :: ser_indented (S depth) x ++ go true l'
    end.

Lemma indented_arr depth x l : ser_indented depth (JArr (x :: l)) = "["%char :: rows depth false (x :: l).
Proof. reflexivity. Qed.

Lemma indented_obj depth k x l : ser_indented depth (JObj ((k, x) :: l)) = "{"%char :: members depth false ((k, x) :: l).
Proof. reflexivity. Qed.

Lemma rows_cons depth sep x l r :
  rows depth sep (x :: l) ++ r
  = (if sep then [","%char] else []) ++ margin (S depth) ++ ser_indented (S depth) x ++ rows depth true l ++ r.
Proof. destruct sep; simpl; by rewrite <- !app_assoc. Qed.

Lemma members_cons depth sep k x l r :
  members depth sep ((k, x) :: l) ++ r
  = (if sep then [","%char] else []) ++ margin (S depth) ++ ascii_str k ++ ":"%char :: " "%char
      :: ser_indented (S depth) x ++ members depth true l ++ r.
Proof. destruct sep; cbn [members app]; rewrite <- ?app_assoc; repeat (cbn [app]; rewrite <- ?app_assoc); done. Qed.

Lemma rows_end depth l r : ends_number (rows depth true l ++ r).
Proof. by destruct l. Qed.

Lemma members_end depth l r : ends_number (members depth true l ++ r).
Proof. by destruct l as [|[]]. Qed.

(** A value starts with no white space and no bracket that closes. *)
Lemma indented_head depth j : ∃ c w, ser_indented depth j = c :: w ∧ is_ws c = false ∧ c ≠ "]"%char.
Proof.
  assert (∀ j, ∃ c w, ser j = c :: w ∧ is_ws c = false ∧ c ≠ "]"%char) as Hser.
  { clear. intros j. destruct (ser_head j) as (c & w & E & Hc). exists c, w. split; [done|]. revert Hc. clear.
    destruct c as [[] [] [] [] [] [] [] []]; (try by split); destruct j as [|[]| | | | |]; discriminate. }
  destruct j as [| | |s|[|x l]|[|[k x] l]|]; try apply Hser; rewrite ?indented_arr, ?indented_obj; by do 2 eexists.
Qed.

Lemma skip_indented depth j r : skip_ws (ser_indented depth j ++ r) = ser_indented depth j ++ r.
Proof. destruct (indented_head depth j) as (c & w & -> & Hc & _). unfold skip_ws. simpl. by rewrite Hc. Qed.

Definition reads_indented (j : json) : Prop :=
  ∀ depth n r, (2 * length (ser_indented depth j) + 1 <= n)%nat → ends_number r →
    read_value n (ser_indented depth j ++ r) = Some (j, r).

Lemma read_rows depth l : Forall reads_indented l → l ≠ [] → ∀ n r,
  (2 * length (rows depth false l) + 2 <= n)%nat →
  read_items n (rows depth false l ++ r) = Some (l, r).
Proof.
  induction 1 as [|x l Hx Hl IH]; intros Hne n r Hn; [done|]. destruct n as [|n]; [lia|].
  pose proof (f_equal length (rows_cons depth false x l [])) as Hlen. rewrite !app_nil_r in Hlen. cbn [app] in Hlen.
  rewrite !length_app in Hlen. rewrite rows_cons. cbn [app read_items]. rewrite skip_margin, skip_indented.
  rewrite Hx by first [lia|apply rows_end]. cbn [mbind option_bind fst snd].
  destruct l as [|y l].
  - cbn [rows]. rewrite <- app_assoc, skip_margin. reflexivity.
  - assert (length (rows depth true (y :: l)) = S (length (rows depth false (y :: l)))) by done.
    change (rows depth true (y :: l) ++ r) with (","%char :: rows depth false (y :: l) ++ r).
    unfold skip_ws. cbn [drop_while]. change (is_ws ",") with false. cbv iota. rewrite IH by first [done|lia]. done.
Qed.

Lemma read_member_rows depth l : Forall (λ kv, reads_indented kv.2) l → l ≠ [] → ∀ n r,
  (2 * length (members depth false l) + 2 <= n)%nat →
  read_members n (members depth false l ++ r) = Some (l, r).
Proof.
  induction 1 as [|[k x] l Hx Hl IH]; intros Hne n r Hn; [done|]. destruct n as [|n]; [lia|].
  pose proof (f_equal length (members_cons depth false k x l [])) as Hlen. rewrite !app_nil_r in Hlen. cbn [app] in Hlen.
  rewrite !length_app in Hlen. cbn [length] in Hlen. rewrite length_app in Hlen. simpl in Hx.
  rewrite members_cons. cbn [app read_members]. rewrite skip_margin, ascii_str_app.
  unfold skip_ws at 1. cbn [drop_while]. change (is_ws quote) with false. change (code quote =? 34) with true. cbv iota.
  rewrite read_ascii_str by (rewrite length_app; simpl; lia). cbn [mbind option_bind fst snd].
  unfold skip_ws at 1. cbn [drop_while]. change (is_ws ":") with false. cbv iota.
  change (skip_ws (" "%char :: ?w)) with (skip_ws w). rewrite skip_indented.
  rewrite Hx by first [lia|apply members_end]. cbn [mbind option_bind fst snd]. rewrite of_chars_chars.
  destruct l as [|[k2 y] l].
  - cbn [members]. rewrite <- app_assoc, skip_margin. reflexivity.
  - assert (length (members depth true ((k2, y) :: l)) = S (length (members depth false ((k2, y) :: l)))) by done.
    change (members depth true ((k2, y) :: l) ++ r) with (","%char :: members depth false ((k2, y) :: l) ++ r).
    unfold skip_ws. cbn [drop_while]. change (is_ws ",") with false. cbv iota. rewrite IH by first [done|lia]. done.
Qed.

Lemma read_indented_arr depth n x l r :
  read_value (S n) ("["%char :: rows depth false (x :: l) ++ r)
  = (p ← read_items n (rows depth false (x :: l) ++ r); Some (JArr p.1, p.2)).
Proof.
  cbn [read_value]. rewrite rows_cons at 1. cbn [app]. rewrite skip_margin, skip_indented.
  destruct (indented_head (S depth) x) as (c & w & -> & _ & Hc). cbn [app].
  destruct c as [[] [] [] [] [] [] [] []]; try reflexivity. by destruct Hc.
Qed.

Lemma read_indented_obj depth n k x l r :
  read_value (S n) ("{"%char :: members depth false ((k, x) :: l) ++ r)
  = (p ← read_members n (members depth false ((k, x) :: l) ++ r); Some (JObj (dict_of p.1), p.2)).
Proof. cbn [read_value]. rewrite members_cons at 1. cbn [app]. by rewrite skip_margin, ascii_str_app. Qed.

Lemma read_indented_int z : reads_indented (JInt z).
Proof.
  intros depth n r Hn Hr. destruct n as [|n]; [lia|]. cbn [ser_indented ser].
  pose proof (read_int_pretty z r Hr) as Hi. pose proof (str_int_num z) as Hnum. pose proof (str_int_ne_empty z).
  destruct (chars (str_int z)) as [|c w]; [done|]. cbn [app] in *. simpl in Hnum. breflect. by rewrite read_value_num, Hi.
Qed.

(** Every value is read back from its indented text. *)
Lemma read_value_indented j : well_keyed j → reads_indented j.
Proof.
  induction j as [|b|z|s|l IH|l IH|f] using json_rect_strong; intros Hw depth n r Hn Hr;
    (destruct n as [|n]; [lia|]); [..|by inversion Hw].
  - done.
  - by destruct b.
  - by apply read_indented_int.
  - cbn [ser_indented] in *. unfold ascii_str in Hn. cbn [length] in Hn. rewrite length_app in Hn. rewrite ascii_str_app, read_value_quote, read_ascii_str.
    + cbn. by rewrite of_chars_chars.
    + rewrite length_app. lia.
  - inversion Hw as [| | | |? Hl|]; subst. destruct l as [|x l]; [done|]. rewrite indented_arr in *. cbn [app length] in *.
    rewrite read_indented_arr, read_rows; [done| |done|lia]. rewrite Forall_forall in *. auto.
  - inversion Hw as [| | | | |? Hnd Hl]; subst. destruct l as [|[k x] l]; [done|]. rewrite indented_obj in *. cbn [app length] in *.
    rewrite read_indented_obj, read_member_rows; [| |done|lia].
    + cbn [mbind option_bind fst snd]. by rewrite dict_of_distinct.
    + rewrite Forall_forall in *. auto.
Qed.

(** The file of a document is the document with its keys sorted. *)
Lemma loads_license_file document : well_keyed document → loads (license_file document) = Some (sort_keys document).
Proof.
  intros Hw%well_keyed_sort. unfold loads, loads_chars, license_file. rewrite chars_of_chars, skip_indented.
  rewrite read_value_indented; [done|done| |done]. rewrite length_app. simpl. lia.
Qed.

(** ** The licence is accepted *)

Section issued.
Context {LE : LicenseEnv}.

(** The payload as it is read back. *)
Definition sorted_payload (args : license_args) (users targets nodes : json) (t0 : Z) : list (string * json) :=
  [("customer", JStr (la_customer args)); ("domain", JStr (la_domain args)); ("edition", JStr (la_edition args));
   ("expires_at", JStr (la_expires_at args)); ("features", JArr (JStr <$> sorted_features (la_features args)));
   ("installation_id", JStr (la_installation_id args)); ("issued_at", JStr (isoformat t0)); ("max_nodes", nodes);
   ("max_targets", targets); ("max_users", users)].

Lemma parse_limit_value value j : parse_limit value = Ok j → sort_keys j = j ∧ well_keyed j.
Proof. unfold parse_limit. case_decide; [intros [= <-]; split; constructor|]. destruct (py_int value); [|done]. intros [= <-]. split; constructor. Qed.

Lemma sort_strings (l : list string) : sort_keys <$> (JStr <$> l) = JStr <$> l.
Proof. rewrite <- list_fmap_compose. by apply list_fmap_ext. Qed.

(** Concrete keys are distinct. *)
Ltac distinct_keys := apply (bool_decide_unpack _); vm_compute; exact I.

Lemma payload_sorts args users targets nodes t0 :
  sort_keys users = users → sort_keys targets = targets → sort_keys nodes = nodes →
  let sorted := JObj (sorted_payload args users targets nodes t0) in
  sort_keys (JObj [("customer", JStr (la_customer args)); ("edition", JStr (la_edition args));
      ("features", JArr (JStr <$> sorted_features (la_features args)));
      ("max_users", users); ("max_targets", targets); ("max_nodes", nodes);
      ("domain", JStr (la_domain args)); ("installation_id", JStr (la_installation_id args));
      ("issued_at", JStr (isoformat t0)); ("expires_at", JStr (la_expires_at args))]) = sorted ∧
  sort_keys sorted = sorted.
Proof.
  intros S1 S2 S3. cbv zeta. unfold sorted_payload.
  assert (∀ a b c d e f g h i j : json,
    sort_keys (JObj [("customer", a); ("edition", b); ("features", c); ("max_users", d); ("max_targets", e); ("max_nodes", f);
                     ("domain", g); ("installation_id", h); ("issued_at", i); ("expires_at", j)]) =
    JObj [("customer", sort_keys a); ("domain", sort_keys g); ("edition", sort_keys b); ("expires_at", sort_keys j);
          ("features", sort_keys c); ("installation_id", sort_keys h); ("issued_at", sort_keys i); ("max_nodes", sort_keys f);
          ("max_targets", sort_keys e); ("max_users", sort_keys d)]) as -> by reflexivity.
  assert (∀ a b c d e f g h i j : json,
    sort_keys (JObj [("customer", a); ("domain", b); ("edition", c); ("expires_at", d); ("features", e); ("installation_id", f);
                     ("issued_at", g); ("max_nodes", h); ("max_targets", i); ("max_users", j)]) =
    JObj [("customer", sort_keys a); ("domain", sort_keys b); ("edition", sort_keys c); ("expires_at", sort_keys d);
          ("features", sort_keys e); ("installation_id", sort_keys f); ("issued_at", sort_keys g); ("max_nodes", sort_keys h);
          ("max_targets", sort_keys i); ("max_users", sort_keys j)]) as -> by reflexivity.
  cbn [sort_keys]. rewrite sort_strings, S1, S2, S3. done.
Qed.

Lemma generate_license_inv sign args t0 document :
  generate_license sign args t0 = Ok document →
  ∃ users targets nodes, parse_limit (la_max_users args) = Ok users ∧ parse_limit (la_max_targets args) = Ok targets ∧
    parse_limit (la_max_nodes args) = Ok nodes ∧ well_keyed document ∧
    let payload := sorted_payload args users targets nodes t0 in
    sort_keys document =
      JObj [("payload", JObj payload); ("signature", JStr (urlsafe_unpadded (sign (_canonical_payload payload))))].
Proof.
  unfold generate_license, license_payload. intros H.
  destruct (parse_limit (la_max_users args)) as [users|] eqn:E1; [|done]. destruct (parse_limit (la_max_targets args)) as [targets|] eqn:E2; [|done].
  destruct (parse_limit (la_max_nodes args)) as [nodes|] eqn:E3; [|done]. cbn [bind_outcome] in H.
  injection H as <-. exists users, targets, nodes. split_and!; [done..| |].
  - apply parse_limit_value in E1 as [_ W1], E2 as [_ W2], E3 as [_ W3].
    assert (well_keyed (JArr (JStr <$> sorted_features (la_features args)))) as Wf
      by (constructor; apply Forall_fmap, Forall_true; constructor).
    constructor; [distinct_keys|]. repeat (apply Forall_cons_2; simpl); try constructor; [distinct_keys|].
    repeat (apply Forall_cons_2; simpl); first [done|constructor].
  - apply parse_limit_value in E1 as [S1 _], E2 as [S2 _], E3 as [S3 _].
    destruct (payload_sorts args users targets nodes t0 S1 S2 S3) as [P1 P2].
    assert (∀ a b, sort_keys (JObj [("payload", a); ("signature", JStr b)]) = JObj [("payload", sort_keys a); ("signature", JStr b)]) as ->
      by reflexivity.
    unfold _canonical_payload, dumps. by rewrite P1, P2.
Qed.

(** The signing key and the configured public key are a pair. *)
Definition key_pair (sign : string → bytes) (key : public_key) : Prop :=
  ∀ m, Forall is_byte (sign m) ∧ ed25519_verify key (sign m) m = true.

(** The file of the tool is where the platform looks for its licence. *)
Definition installed (path : string) (document : json) : Prop :=
  strip (PAMOLIVE_LICENSE license_conf) = "" ∧ strip (PAMOLIVE_LICENSE_FILE license_conf) = path ∧ path ≠ "" ∧
  read_bytes path = inl (encode (license_file document)).

Lemma installed_document path document : installed path document → well_keyed document →
  _load_license_document = Ok (inl (Some (sort_keys document), path)).
Proof.
  intros (H1 & H2 & H3 & H4) Hw. unfold _load_license_document. rewrite H1, H2, decide_False by (intros H; by destruct H).
  by rewrite decide_True, H4, decode_encode, loads_license_file by done.
Qed.

Lemma text_of_string payload k s : dict_get k payload = Some (JStr s) → text_of payload k = s.
Proof. unfold text_of. intros ->. simpl. by destruct s. Qed.

(** What the platform reads in the payload. *)
Lemma payload_fields args users targets nodes t0 (payload := sorted_payload args users targets nodes t0) :
  text_of payload "customer" = la_customer args ∧ text_of payload "expires_at" = la_expires_at args ∧
  edition_of payload = lower (la_edition args) ∧ features_of payload = Ok (sorted_features (la_features args)) ∧
  field_of payload "max_users" = users ∧ field_of payload "max_targets" = targets ∧ field_of payload "max_nodes" = nodes.
Proof.
  split_and!; try reflexivity.
  - by apply text_of_string.
  - by apply text_of_string.
  - unfold features_of. change (dict_get "features" payload) with (Some (JArr (JStr <$> sorted_features (la_features args)))). cbv iota.
    f_equal. rewrite <- list_fmap_compose. apply list_fmap_id.
Qed.

Lemma sorted_signature_valid sign key payload : key_pair sign key →
  signature_valid key (urlsafe_unpadded (sign (_canonical_payload payload))) payload = true.
Proof. intros Hk. destruct (Hk (_canonical_payload payload)) as [Hb Hv]. unfold signature_valid. by rewrite unpadded_decodes. Qed.

(** The expiry that was asked for, if any, is a date the platform can read and is not
    past: the tool itself does not look at it. *)
Definition current (args : license_args) (clock : Z) : Prop :=
  la_expires_at args ≠ "" → ∃ t, fromisoformat (replace_z (la_expires_at args)) = Some t ∧ clock <= t.

Lemma check_expiry_decides args payload w : text_of payload "expires_at" = la_expires_at args →
  ∃ r w', check_expiry payload w = (Ok r, w') ∧
    ((current args (w_clock w) ∧ r = inl payload) ∨ (¬ current args (w_clock w) ∧ ∃ reason, r = inr reason)).
Proof.
  intros E. unfold check_expiry, current. rewrite E. case_decide as He; [by eexists _, _; split; [|left]|].
  destruct (fromisoformat (replace_z (la_expires_at args))) as [t|] eqn:Ef.
  - rewrite run_now. eexists _, _. split; [done|]. destruct (Z.ltb_spec t (w_clock w)) as [Hlt|Hle].
    + right. split; [|by eexists]. intros H. destruct (H He) as (t' & [= <-] & ?). lia.
    + left. split; [|done]. intros _. by exists t.
  - eexists _, _. split; [done|]. right. split; [|by eexists]. intros H. by destruct (H He) as (t & ? & _).
Qed.

(** C39: An issued licence is accepted, under the edition it was issued for and until it
    expires.  Suppose that the tool signed a licence with the private half of the
    configured key, that its file is where the platform looks for one, and that the
    platform is configured for an edition that needs a licence.  Then the platform reads
    back the document that was signed (the members of its objects sorted), and gives a
    status, which is valid exactly when the configured edition is the licence's and
    the expiry that was asked for, if any, is a readable date that is not past.
    The valid status has the edition, the customer, the sorted features, the limits and
    the expiry that were asked for. *)
Theorem issued_license_accepted sign args t0 document path data key w :
  generate_license sign args t0 = Ok document → args_ok args = true → key_pair sign key → installed path document →
  configured_edition ≠ COMMUNITY → configured_edition ≠ LAB →
  _load_public_key = inl data → data ≠ "" → load_pem_public_key data = Ok (Some key) →
  _load_license_document = Ok (inl (Some (sort_keys document), path)) ∧
  ∃ users targets nodes status w',
    parse_limit (la_max_users args) = Ok users ∧ parse_limit (la_max_targets args) = Ok targets ∧
    parse_limit (la_max_nodes args) = Ok nodes ∧ get_license_status w = (Ok status, w') ∧
    (ls_valid status = true ↔ configured_edition = la_edition args ∧ current args (w_clock w)) ∧
    (ls_valid status = true → status = LicenseStatus (la_edition args) true path "" (la_customer args)
      (sorted_features (la_features args)) users targets nodes (la_expires_at args)).
Proof.
  intros (users & targets & nodes & Hu & Ht & Hn & Hw & Hs)%generate_license_inv Ha Hk Hi N1 N2 Hd Hne Hl. cbv zeta in Hs.
  split; [by apply installed_document|]. exists users, targets, nodes.
  unfold get_license_status. rewrite (installed_document _ _ Hi Hw), Hs.
  destruct (payload_fields args users targets nodes t0) as (F1 & F2 & F3 & F4 & F5 & F6 & F7).
  set (payload := sorted_payload args users targets nodes t0) in *. apply bool_decide_eq_true in Ha.
  assert (lower (la_edition args) = la_edition args) as Hed.
  { apply elem_of_cons in Ha as [E|[E|Ha%not_elem_of_nil]%elem_of_cons]; [..|done]; rewrite E; by vm_compute. }
  rewrite !decide_False by done. rewrite (run_of_ok _ _ _ _ eq_refl). cbn [json_truthy]. rewrite bool_decide_true by done. cbn [negb].
  destruct (check_expiry_decides args payload w F2) as (r & w' & Hc & Hr).
  assert (_verify_signed_license (JObj [("payload", JObj payload); ("signature", JStr (urlsafe_unpadded (sign (_canonical_payload payload))))]) w
    = (Ok r, w')) as Hv.
  { unfold _verify_signed_license. rewrite Hd.
    change (dict_get "payload" _) with (Some (JObj payload)). change (dict_get "signature" _) with (Some (JStr (urlsafe_unpadded (sign (_canonical_payload payload))))).
    cbv iota. by rewrite decide_False, Hl, (sorted_signature_valid _ _ _ Hk) by done. }
  rewrite (bind_ok _ _ _ _ _ Hv). destruct Hr as [[Hcur ->]|[Hcur (reason & ->)]].
  - rewrite F3, Hed. destruct (decide (la_edition args ≠ configured_edition)) as [Hdiff|Heq].
    + eexists _, _. do 4 (split; [done|]). split; [|done]. split; [done|]. intros [E _]. by destruct Hdiff.
    + apply dec_stable in Heq. rewrite (run_of_ok _ _ _ _ F4), F1, F2, F5, F6, F7. eexists _, _. do 4 (split; [done|]).
      simpl. rewrite <- Heq. by split.
  - eexists _, _. do 4 (split; [done|]). split; [|done]. split; [done|]. by intros [_ ?].
Qed.
End issued.

(** ** The status command ([licensing/management/commands/license_status.py]) *)

(** [payload[key] = value] on the members of the status. *)
Definition license_status_json {LE : LicenseEnv} (status : license_status) : json :=
  match as_dict status with
  | JObj members => JObj (dict_set "node_id" (JStr node_id) (dict_set "cluster_enabled" (JBool cluster_enabled) members))
  | j => j
  end.

Definition license_status_command {LE : LicenseEnv} : M string :=
  status ← get_license_status;
  mret (of_chars (ser_indented 0 (sort_keys (license_status_json status)))).

(** ** A licence *)

(** The signature of a message is the message, as in [demo_env]. *)
Definition demo_args : license_args :=
  LicenseArgs "Olive & Co" "business" ["cluster"; "audit"; "cluster"] "25" "unlimited" "1" "olive.example" "" "2027".

Definition demo_document : json := Eval vm_compute in
  match generate_license bytes_of demo_args demo_now with Ok d => d | Raise _ => JNull end.

#[local] Instance demo_installation : LicenseEnv := {|
  license_conf := LicenseSettings "business" false "vm-1" "" "/etc/pam-olive/license.json" "pem" "";
  read_bytes path := if decide (path = "/etc/pam-olive/license.json") then inl (encode (license_file demo_document)) else inr "no such file";
  json_error _ := "Expecting value";
  public_key := unit;
  load_pem_public_key _ := Ok (Some tt);
  ed25519_verify _ s m := bool_decide (string_of_bytes s = m);
  fromisoformat s := if decide (s = "2027") then Some (demo_now + day) else None;
|}.

Lemma demo_key_pair : @key_pair demo_installation bytes_of tt.
Proof.
  intros m. split; [apply bytes_of_bytes|]. simpl. apply bool_decide_eq_true. unfold string_of_bytes, bytes_of.
  rewrite <- list_fmap_compose. rewrite <- (of_chars_chars m) at 2. f_equal. rewrite <- (list_fmap_id (chars m)) at 2.
  apply list_fmap_ext. intros _ c _. apply chr_code.
Qed.

Lemma issued_license_accepted_witness :
  ∃ status w', get_license_status (demo_world empty_db) = (Ok status, w') ∧ ls_valid status = true ∧
  status = LicenseStatus "business" true "/etc/pam-olive/license.json" "" "Olive & Co" ["audit"; "cluster"] (JInt 25) JNull (JInt 1) "2027".
Proof.
  destruct (@issued_license_accepted demo_installation bytes_of demo_args demo_now demo_document "/etc/pam-olive/license.json" "pem" tt (demo_world empty_db))
    as (_ & users & targets & nodes & status & w' & H1 & H2 & H3 & H4 & H5 & H6).
  - vm_compute. reflexivity.
  - reflexivity.
  - exact demo_key_pair.
  - split; [reflexivity|]. split; [reflexivity|]. split; [discriminate|reflexivity].
  - discriminate.
  - discriminate.
  - reflexivity.
  - discriminate.
  - reflexivity.
  - assert (ls_valid status = true) as Hv.
    { apply H5. split; [reflexivity|]. intros _. exists (demo_now + day). split; [reflexivity|]. vm_compute. discriminate. }
    injection H1 as <-. injection H2 as <-. injection H3 as <-. exists status, w'. split; [exact H4|]. split; [exact Hv|exact (H6 Hv)].
Defined.
