(* ===== verification/Upgrade.v ===== *)
(** * The data steps of an upgrade ([audit/migrations/0002_audit_chain_v2.py],
    [rbac/migrations/0004_seed_system_roles.py], [0006_expand_system_roles.py])

    The three schema migrations that compute.  The first numbers the events of the trail
    of the first version and opens the chain of the second; the other two seed the
    system profiles with their groups and give them the capabilities of the current
    version.  The change of columns itself is the framework's. *)

From S2P Require Import Prelude PyStr Json Crypto PyTime Models World AuditTrail Rbac.

Local Open Scope Z_scope.

(** ** The audit chain *)

(** [order_by("occurred_at", "id")] *)
Definition event_before (a b : obj audit_event) : Prop :=
  e_occurred_at (val a) < e_occurred_at (val b) ∨ (e_occurred_at (val a) = e_occurred_at (val b) ∧ (pk a <= pk b)%N).

#[global] Instance event_before_dec a b : Decision (event_before a b).
Proof. unfold event_before. apply _. Defined.

Definition by_occurrence (t : gmap id audit_event) : list (obj audit_event) := merge_sort event_before (rows t).

(** [.update(sequence=n, hash_version=1)] *)
Definition numbered (n : Z) (e : audit_event) : audit_event :=
  AuditEvent (e_occurred_at e) n 1 (e_actor e) (e_action e) (e_resource_type e) (e_resource_id e) (e_source_ip e) (e_metadata e)
    (e_previous_hash e) (e_event_hash e) (e_signature e).

(** One turn of the loop; the state is [last_sequence] and [last_hash]. *)
Definition number_event (s : Z * string) (o : obj audit_event) : M (Z * string) :=
  let n := s.1 + 1 in
  update_where audit_events (λ x, bool_decide (pk x = pk o)) (numbered n) ;;
  mret (n, e_event_hash (val o)).

Definition initialize_chain : M unit :=
  events ← asks (λ d, by_occurrence (audit_events d));
  s ← fold_m events (0, "") number_event;
  modify (λ d, d <| audit_state := Some (AuditChainState s.1 s.2) |>).

(** *** The chain that results *)

(** Each event carries the hash of the event before it. *)
Fixpoint hashes_linked (h : string) (l : list (obj audit_event)) : Prop :=
  match l with
  | [] => True
  | o :: l' => e_previous_hash (val o) = h ∧ hashes_linked (e_event_hash (val o)) l'
  end.

(** The events of [l] with the numbers that follow [n]. *)
Fixpoint number_from (n : Z) (l : list (obj audit_event)) : list (obj audit_event) :=
  match l with
  | [] => []
  | o :: l' => Obj (pk o) (numbered (n + 1) (val o)) :: number_from (n + 1) l'
  end.

Lemma number_from_keys n l : pk <$> number_from n l = pk <$> l.
Proof. revert n. induction l as [|o l IH]; intros n; simpl; [done|]. by rewrite IH. Qed.

Lemma number_from_sorted n l :
  StronglySorted (λ a b, e_sequence (val a) < e_sequence (val b)) (number_from n l) ∧
  Forall (λ o, n < e_sequence (val o) ∧ e_hash_version (val o) = 1) (number_from n l).
Proof.
  revert n. induction l as [|o l IH]; intros n; simpl; [by split; constructor|].
  destruct (IH (n + 1)) as [Hs Hf]. split; [constructor; [done|]|constructor; [simpl; split; [lia|done]|]];
    eapply Forall_impl; [exact Hf| |exact Hf|]; simpl; intros x [? ?]; [lia|split; [lia|done]].
Qed.

Lemma number_from_linked {PF : Platform} n h l :
  (∃ s' h', linked n h (number_from n l) s' h') ↔ hashes_linked h l.
Proof.
  revert n h. induction l as [|o l IH]; intros n h; simpl.
  - split; [done|]. intros _. do 2 eexists. constructor.
  - split.
    + intros (s' & h' & Hl). inversion Hl as [|? ? ? ? ? ? Hn Hp He Hr]; subst. simpl in *. split; [done|].
      apply (IH (n + 1)). by exists s', h'.
    + intros [Hp Hr]. apply (IH (n + 1)) in Hr as (s' & h' & Hr). exists s', h'. constructor; try done. by left.
Qed.

#[global] Instance event_before_total : Total event_before.
Proof. intros a b. unfold event_before. lia. Qed.
#[global] Instance event_before_trans : Transitive event_before.
Proof. intros a b c. unfold event_before. lia. Qed.

Lemma by_occurrence_perm t : by_occurrence t ≡ₚ rows t.
Proof. apply merge_sort_Permutation. Qed.

Lemma by_occurrence_keys t : NoDup (pk <$> by_occurrence t).
Proof.
  rewrite by_occurrence_perm. unfold rows. rewrite <- list_fmap_compose. apply NoDup_fst_map_to_list.
Qed.

Lemma update_one k f (t : gmap id audit_event) k' :
  map_imap (λ k0 v, Some (if bool_decide (pk (Obj k0 v) = k) then f v else v)) t !! k'
  = (if decide (k' = k) then f <$> t !! k' else t !! k').
Proof.
  rewrite map_lookup_imap. destruct (t !! k') as [v|]; simpl; [|by case_decide].
  case_bool_decide; case_decide; done.
Qed.

Lemma number_event_run {B} s o (f : Z * string → M B) w :
  (number_event s o ≫= f) w
  = f (s.1 + 1, e_event_hash (val o))
      (with_db (w_db w <| audit_events ::= map_imap (λ k v, Some (if bool_decide (pk (Obj k v) = pk o) then numbered (s.1 + 1) v else v)) |>) w).
Proof. done. Qed.

(** The loop numbers its events and leaves the others alone. *)
Lemma number_loop l : ∀ s w, NoDup (pk <$> l) → (∀ o, o ∈ l → audit_events (w_db w) !! pk o = Some (val o)) →
  ∃ ev, fold_m l s number_event w
        = (Ok (head_after s.1 s.2 (number_from s.1 l)), with_db (w_db w <| audit_events := ev |>) w) ∧
    (∀ x, x ∈ number_from s.1 l → ev !! pk x = Some (val x)) ∧
    (∀ k, k ∉ pk <$> l → ev !! k = audit_events (w_db w) !! k).
Proof.
  induction l as [|o l IH]; intros [n h] w Hnd Hin; simpl.
  - exists (audit_events (w_db w)). split_and!; [by destruct w as [[] ? ? ? ?]|by intros x ?%elem_of_nil|done].
  - rewrite fmap_cons, NoDup_cons in Hnd. destruct Hnd as [Ho Hnd].
    rewrite number_event_run. simpl.
    match goal with |- context [fold_m l _ _ ?w0] => set (w1 := w0) end.
    assert (∀ k, audit_events (w_db w1) !! k = (if decide (k = pk o) then numbered (n + 1) <$> audit_events (w_db w) !! k else audit_events (w_db w) !! k)) as H1
      by (intros k; apply update_one).
    destruct (IH (n + 1, e_event_hash (val o)) w1) as (ev & Hrun & Hx & Hk); [done| |].
    { intros x Hx. rewrite H1, decide_False; [apply Hin; by right|]. intros E. apply Ho. rewrite <- E. by apply list_elem_of_fmap_2. }
    exists ev. simpl in *. split_and!.
    + rewrite Hrun. by destruct w as [[] ? ? ? ?].
    + intros x [->|Hx']%elem_of_cons; [|by apply Hx]. simpl. rewrite Hk, H1, decide_True by done. by rewrite (Hin o ltac:(by left)).
    + intros k Hk'. rewrite elem_of_cons in Hk'. rewrite Hk, H1, decide_False by naive_solver. done.
Qed.

(** What the migration leaves: the same rows, numbered in the order of occurrence, and
    the head of the last one. *)
Lemma initialize_chain_run w :
  let l := number_from 0 (by_occurrence (audit_events (w_db w))) in
  ∃ w', initialize_chain w = (Ok tt, w') ∧ by_sequence (audit_events (w_db w')) = l ∧
    audit_state (w_db w') = Some (AuditChainState (head_after 0 "" l).1 (head_after 0 "" l).2) ∧
    audit_frame (w_db w) (w_db w').
Proof.
  intros l. set (l0 := by_occurrence (audit_events (w_db w))) in *.
  assert (∀ o, o ∈ l0 ↔ audit_events (w_db w) !! pk o = Some (val o)) as Hl0
    by (intros o; unfold l0; by rewrite by_occurrence_perm, elem_of_rows).
  destruct (number_loop l0 (0, "") w (by_occurrence_keys _)) as (ev & Hrun & Hx & Hk); [by intros o ?%Hl0|].
  eexists. unfold initialize_chain. rewrite run_asks, (bind_ok _ _ _ _ _ Hrun). split; [reflexivity|]. simpl in *. split; [|split; [done|]].
  - apply sort_by_unique; [apply number_from_sorted|]. apply NoDup_Permutation.
    + apply (NoDup_fmap_1 pk). unfold l. rewrite number_from_keys. apply by_occurrence_keys.
    + unfold rows. apply (NoDup_fmap_1 pk). rewrite <- list_fmap_compose. apply NoDup_fst_map_to_list.
    + intros x. rewrite elem_of_rows. split; [by apply Hx|]. intros Hev.
      destruct (decide (pk x ∈ pk <$> l0)) as [Hp|Hp].
      * unfold l0 in Hp. rewrite <- (number_from_keys 0) in Hp. apply list_elem_of_fmap in Hp as (y & E & Hy).
        pose proof (Hx _ Hy) as Hv. rewrite <- E, Hev in Hv. injection Hv as Hv. destruct x, y; simpl in *; by subst.
      * rewrite Hk in Hev by done. exfalso. apply Hp. apply list_elem_of_fmap_2. by apply Hl0.
  - do 3 eexists. reflexivity.
Qed.

Section upgraded.
Context {PF : Platform}.

(** The verifier takes the events of the first version without the key service. *)
Lemma verify_first_version l : Forall (λ o, e_hash_version (val o) = 1) l → ∀ s w,
  ∃ s', fold_m l s verify_event w = (Ok s', w) ∧ vs_checked s' = vs_checked s + Z.of_nat (length l) ∧
    vs_legacy s' = vs_legacy s + Z.of_nat (length l).
Proof.
  induction 1 as [|o l Ho Hl IH]; intros s w; simpl; [eexists; split; [reflexivity|lia]|].
  assert (∃ s1, verify_event s o w = (Ok s1, w) ∧ vs_checked s1 = vs_checked s + 1 ∧ vs_legacy s1 = vs_legacy s + 1)
    as (s1 & E & E1 & E2) by (unfold verify_event; rewrite decide_True by done; by eexists).
  rewrite (bind_ok _ _ _ _ _ E). destruct (IH s1 w) as (s' & -> & H1 & H2). exists s'. split; [done|lia].
Qed.

Lemma upgraded_chain_ok w w' : initialize_chain w = (Ok tt, w') →
  chain_ok (w_db w') ↔ hashes_linked "" (by_occurrence (audit_events (w_db w))).
Proof.
  destruct (initialize_chain_run w) as (w1 & E & Hl & Hst & _). rewrite E. intros [= <-].
  unfold chain_ok. rewrite Hl, Hst, <- (number_from_linked 0). split.
  - intros (st & _ & H). by do 2 eexists.
  - intros (s' & h' & H). eexists. split; [done|]. simpl. by rewrite <- (linked_head _ _ _ _ _ H).
Qed.

(** C10: The trail of the first version is taken over as it is.  The migration always
    succeeds; it changes nothing but the numbers and versions of the events and the head
    of the chain; and the verifier of the second version then accepts the trail, without
    the key service, exactly when every event, in order of occurrence, carries the hash
    of the event before it.  It counts each of them as an event of the first version. *)
Theorem upgraded_trail_verifies w :
  ∃ w' r, initialize_chain w = (Ok tt, w') ∧ audit_frame (w_db w) (w_db w') ∧
    by_sequence (audit_events (w_db w')) = number_from 0 (by_occurrence (audit_events (w_db w))) ∧
    verify_audit_chain w' = (Ok r, w') ∧
    (av_valid r = true ↔ hashes_linked "" (by_occurrence (audit_events (w_db w)))) ∧
    av_checked_events r = Z.of_nat (size (audit_events (w_db w))) ∧ av_legacy_events r = av_checked_events r.
Proof.
  destruct (initialize_chain_run w) as (w' & E & Hl & Hst & Hf).
  assert (Forall (λ o, e_hash_version (val o) = 1) (by_sequence (audit_events (w_db w')))) as Hv.
  { rewrite Hl. eapply Forall_impl; [apply number_from_sorted|]. by intros x [_ ?]. }
  destruct (verify_first_version _ Hv (VerifyState "" 0 [] 0 0) w') as (s' & Hs & Hc & Hg).
  destruct (verify_after_loop w' _ s' Hst Hs) as (r & Hr & Hok & Hrc & Hrg).
  exists w', r. split_and!; [done..| | |].
  - by rewrite Hok, (upgraded_chain_ok w w').
  - rewrite Hrc, Hc, Hl. simpl. rewrite <- (length_fmap pk), number_from_keys, length_fmap, by_occurrence_perm.
    unfold rows. by rewrite length_fmap, length_map_to_list.
  - rewrite Hrg, Hrc. simpl in *. lia.
Qed.
End upgraded.

(** ** The system profiles *)

Definition SEEDED_ADMINISTRATOR : list string :=
  ["console.access"; "configuration.view"; "users.manage"; "groups.manage"; "roles.manage"; "targets.manage"; "credentials.manage";
   "policies.manage"; "approvals.view"; "approvals.decide"; "audit.view"; "sessions.view"].

Definition SEEDED_AUDITOR : list string :=
  ["console.access"; "configuration.view"; "approvals.view"; "audit.view"; "sessions.view"].

Definition ADMIN_CAPABILITIES : list string :=
  ["console.access"; "configuration.view"; "users.view"; "users.manage"; "groups.view"; "groups.manage"; "roles.view"; "roles.manage";
   "identity_sources.view"; "identity_sources.manage"; "identity_sources.sync"; "targets.view"; "targets.manage"; "target_groups.view";
   "target_groups.manage"; "domains.view"; "domains.manage"; "credentials.view_metadata"; "credentials.manage"; "credentials.reveal";
   "credentials.rotate"; "policies.view"; "policies.manage"; "approvals.view"; "approvals.decide"; "audit.view"; "audit.export";
   "sessions.view"; "sessions.terminate"; "sessions.join"; "system.view"; "system.manage"].

Definition AUDITOR_CAPABILITIES : list string :=
  ["console.access"; "configuration.view"; "users.view"; "groups.view"; "roles.view"; "identity_sources.view"; "targets.view";
   "target_groups.view"; "domains.view"; "credentials.view_metadata"; "policies.view"; "approvals.view"; "audit.view"; "audit.export";
   "sessions.view"; "system.view"].

Definition APPROVER_CAPABILITIES : list string := ["console.access"; "approvals.view"; "approvals.decide"].

Definition ADMINISTRATORS : string := "Administrateurs PAM-olive".
Definition AUDITORS : string := "Auditeurs PAM-olive".
Definition USERS : string := "Utilisateurs PAM-olive".
Definition APPROVERS : string := "Approbateurs PAM-olive".

Definition MultipleObjectsReturned : exn := OtherError "MultipleObjectsReturned".

Section profiles.
Context {PF : Platform}.

(** The unique name of a role. *)
Definition role_name_free (k : option id) (r : role) : M unit :=
  taken ← asks (λ d, exists_row (λ o, bool_decide (Some (pk o) ≠ k) && bool_decide (ro_name (val o) = ro_name r)) (roles d));
  raise_if taken (IntegrityError "name").

(** [Role.objects.update_or_create(slug=slug, defaults=...)]; [f] sets the defaults. *)
Definition update_or_create_role (slug : string) (f : role → role) : M id :=
  found ← asks (λ d, objects_filter (λ o, bool_decide (ro_slug (val o) = Some slug)) (roles d));
  match found with
  | [] =>
      let r := f (Role "" (Some slug) [] false true "") in
      k ← uuid4;
      role_name_free None r ;;
      insert_row roles k r ;;
      mret k
  | [o] =>
      role_name_free (Some (pk o)) (f (val o)) ;;
      save_fields roles (pk o) (λ _, f (val o)) ;;
      mret (pk o)
  | _ => raise MultipleObjectsReturned
  end.

(** [UserGroup.objects.get_or_create(name=name, defaults=...)] *)
Definition get_or_create_group (name description : string) : M id :=
  found ← asks (λ d, objects_filter (λ o, bool_decide (ug_name (val o) = name)) (user_groups d));
  match found with
  | [] => k ← uuid4; insert_row user_groups k (UserGroup name ∅ ∅ true description) ;; mret k
  | [o] => mret (pk o)
  | _ => raise MultipleObjectsReturned
  end.

Definition add_role (group r : id) : M unit := save_fields user_groups group (λ g, g <| ug_roles ::= ({[r]} ∪.) |>).
Definition add_user (group u : id) : M unit := save_fields user_groups group (λ g, g <| ug_users ::= ({[u]} ∪.) |>).

Definition system_role (name : string) (capabilities : list string) (r : role) : role :=
  r <| ro_name := name |> <| ro_capabilities := capabilities |> <| ro_is_system := true |> <| ro_enabled := true |>.

Definition seeded_role (name description : string) (capabilities : list string) (r : role) : role :=
  system_role name capabilities (r <| ro_description := description |>).

(** [staff]: the column [is_staff], which nothing else of the model reads. *)
Definition seed_system_roles (staff : id → bool) : M unit :=
  administrator ← update_or_create_role "administrator"
    (seeded_role "Administrateur" "Administration fonctionnelle complète de PAM-olive." SEEDED_ADMINISTRATOR);
  auditor ← update_or_create_role "auditor"
    (seeded_role "Auditeur" "Consultation en lecture seule des configurations, sessions et audits." SEEDED_AUDITOR);
  user_role ← update_or_create_role "user"
    (seeded_role "Utilisateur" "Coffre personnel, demandes et accès accordés par les politiques." []);
  admin_group ← get_or_create_group ADMINISTRATORS "Administrateurs fonctionnels de la plateforme.";
  auditor_group ← get_or_create_group AUDITORS "Auditeurs en lecture seule.";
  user_group ← get_or_create_group USERS "Utilisateurs standards de la plateforme.";
  add_role admin_group administrator ;;
  add_role auditor_group auditor ;;
  add_role user_group user_role ;;
  people ← asks (λ d, objects_filter (λ o, negb (u_is_superuser (val o))) (users d));
  for_each people (λ o, if staff (pk o) then add_user admin_group (pk o) else add_user user_group (pk o)).

Definition expand_system_roles : M unit :=
  update_or_create_role "administrator" (system_role "Administrateur" ADMIN_CAPABILITIES) ;;
  update_or_create_role "auditor" (system_role "Auditeur" AUDITOR_CAPABILITIES) ;;
  approver ← update_or_create_role "approver" (system_role "Approbateur" APPROVER_CAPABILITIES);
  approvers ← get_or_create_group APPROVERS "Utilisateurs autorisés à traiter les demandes d’autrui.";
  add_role approvers approver ;;
  update_or_create_role "user" (system_role "Utilisateur" []) ;;
  mret tt.

(** Both migrations, each in its transaction. *)
Definition upgrade_profiles (staff : id → bool) : M unit :=
  atomic (seed_system_roles staff) ;; atomic expand_system_roles.
End profiles.

Section profile_facts.
Context {PF : Platform}.

Definition has_slug (slug : string) (r : role) : Prop := ro_slug r = Some slug.

(** The role that is written: the one with the slug, or a new one when there is none. *)
Lemma update_or_create_role_inv slug f w k w' :
  update_or_create_role slug f w = (Ok k, w') →
  ∃ r, w_db w' = w_db w <| roles ::= <[k := f r]> |> ∧ ro_slug r = Some slug ∧
    ((roles (w_db w) !! k = Some r ∧ ∀ k' r', roles (w_db w) !! k' = Some r' → has_slug slug r' → k' = k) ∨
     (roles (w_db w) !! k = None ∧ r = Role "" (Some slug) [] false true "" ∧
      ∀ k' r', roles (w_db w) !! k' = Some r' → ¬ has_slug slug r')).
Proof.
  unfold update_or_create_role. rewrite run_asks.
  assert (∀ k' r', roles (w_db w) !! k' = Some r' → has_slug slug r' →
    Obj k' r' ∈ objects_filter (λ o, bool_decide (ro_slug (val o) = Some slug)) (roles (w_db w))) as Hin.
  { intros k' r' Hr Hs. apply elem_of_objects_filter. split; [done|by apply bool_decide_eq_true]. }
  destruct (objects_filter _ _) as [|o [|? ?]] eqn:E; intros H; [..|done].
  - rewrite run_uuid4 in H. apply bind_ok_inv in H as ([] & w1 & H1 & H). unfold role_name_free in H1.
    rewrite run_asks in H1. apply raise_if_ok_inv in H1 as [_ ->]. apply bind_ok_inv in H as ([] & w2 & H2 & [= <- <-]).
    unfold insert_row in H2. simpl in H2. destruct (roles (w_db w) !! _) eqn:Ek; [done|]. injection H2 as <-.
    eexists. split; [reflexivity|]. split; [done|]. right. split; [done|]. split; [done|]. intros k' r' Hr Hs. specialize (Hin _ _ Hr Hs). by apply not_elem_of_nil in Hin.
  - assert (o ∈ objects_filter (λ o, bool_decide (ro_slug (val o) = Some slug)) (roles (w_db w))) as Ho by (rewrite E; by left).
    apply elem_of_objects_filter in Ho as [Hr Hs%bool_decide_eq_true].
    apply bind_ok_inv in H as ([] & w1 & H1 & H). unfold role_name_free in H1. rewrite run_asks in H1. apply raise_if_ok_inv in H1 as [_ ->].
    apply bind_ok_inv in H as ([] & w2 & H2 & [= <- <-]). unfold save_fields in H2. rewrite Hr in H2. injection H2 as <-.
    exists (val o). split; [done|]. split; [done|]. left. split; [done|]. intros k' r' Hr' Hs'. specialize (Hin _ _ Hr' Hs').
    apply list_elem_of_singleton in Hin. by rewrite <- Hin.
Qed.

Lemma get_or_create_group_inv name description w k w' :
  get_or_create_group name description w = (Ok k, w') →
  (∃ g, user_groups (w_db w) !! k = Some g ∧ ug_name g = name ∧ w' = w) ∨
  (user_groups (w_db w) !! k = None ∧ w_db w' = w_db w <| user_groups ::= <[k := UserGroup name ∅ ∅ true description]> |>).
Proof.
  unfold get_or_create_group. rewrite run_asks. destruct (objects_filter _ _) as [|o [|? ?]] eqn:E; intros H; [..|done].
  - rewrite run_uuid4 in H. apply bind_ok_inv in H as ([] & w2 & H2 & [= <- <-]). unfold insert_row in H2. simpl in H2.
    destruct (user_groups (w_db w) !! _) eqn:Ek; [done|]. injection H2 as <-. by right.
  - injection H as <- <-. assert (o ∈ objects_filter (λ o, bool_decide (ug_name (val o) = name)) (user_groups (w_db w))) as Ho by (rewrite E; by left).
    apply elem_of_objects_filter in Ho as [Hr Hs%bool_decide_eq_true]. left. by exists (val o).
Qed.

Lemma save_group_inv k f w w' : save_fields user_groups k f w = (Ok tt, w') →
  ∃ g, user_groups (w_db w) !! k = Some g ∧ w_db w' = w_db w <| user_groups ::= <[k := f g]> |>.
Proof. unfold save_fields. destruct (_ !! k) as [g|] eqn:E; [|done]. intros [= <-]. by exists g. Qed.

(** The users of a list that go to a group. *)
Definition joining (p : id → bool) (l : list (obj user)) : gset id := list_to_set (List.filter p (pk <$> l)).

Lemma distribute_inv (staff : id → bool) ga gu (l : list (obj user)) : ga ≠ gu → ∀ w w',
  for_each l (λ o, if staff (pk o) then add_user ga (pk o) else add_user gu (pk o)) w = (Ok tt, w') →
  ∃ G : gmap id user_group, w_db w' = w_db w <| user_groups := G |> ∧
    G !! ga = (λ g : user_group, g <| ug_users ::= (joining staff l ∪.) |>) <$> user_groups (w_db w) !! ga ∧
    G !! gu = (λ g, g <| ug_users ::= (joining (λ k, negb (staff k)) l ∪.) |>) <$> user_groups (w_db w) !! gu ∧
    ∀ k, k ≠ ga → k ≠ gu → G !! k = user_groups (w_db w) !! k.
Proof.
  intros Hne. induction l as [|o l IH]; intros w w' H; simpl in H.
  - injection H as <-. exists (user_groups (w_db w)). split; [by destruct w as [[] ? ? ? ?]|]. unfold joining. simpl.
    split_and!; [| |done]; (destruct (_ !! _) as [g|]; [|done]); simpl; f_equal; destruct g; simpl; f_equal; set_solver.
  - apply bind_ok_inv in H as ([] & w1 & H1 & H). apply IH in H as (G & Hw & Ha & Hu & Ho).
    assert (∃ k (g : user_group) (f : user_group → user_group), (k = ga ∧ staff (pk o) = true ∨ k = gu ∧ staff (pk o) = false) ∧ f = (λ g : user_group, g <| ug_users ::= ({[pk o]} ∪.) |>) ∧
      user_groups (w_db w) !! k = Some g ∧ w_db w1 = w_db w <| user_groups ::= <[k := f g]> |>) as (k & g & f & Hk & Hf & Hg & Hw1).
    { destruct (staff (pk o)) eqn:Es; apply save_group_inv in H1 as (g & Hg & Hw1); do 3 eexists; (split; [eauto|]); (split; [reflexivity|]); by split. }
    rewrite Hw1 in Hw, Ha, Hu, Ho. simpl in *. exists G. split; [by rewrite Hw; destruct w as [[] ? ? ? ?]|].
    unfold joining in *. simpl. destruct Hk as [[-> Es]|[-> Es]]; rewrite Es in *; simpl in *; subst f.
    + rewrite lookup_insert_eq in Ha. rewrite lookup_insert_ne in Hu by done. rewrite Ha, Hu, Hg. simpl. split_and!; [|done|].
      * f_equal. destruct g; simpl. f_equal. set_solver.
      * intros k ? ?. rewrite Ho by done. by rewrite lookup_insert_ne.
    + rewrite lookup_insert_eq in Hu. rewrite lookup_insert_ne in Ha by done. rewrite Ha, Hu, Hg. simpl. split_and!; [done| |].
      * f_equal. destruct g; simpl. f_equal. set_solver.
      * intros k ? ?. rewrite Ho by done. by rewrite lookup_insert_ne.
Qed.

(** *** What the two migrations leave *)

Definition no_role (slug : string) (d : db) : Prop := ∀ k r, roles d !! k = Some r → ¬ has_slug slug r.
Definition no_group (name : string) (d : db) : Prop := ∀ k g, user_groups d !! k = Some g → ug_name g ≠ name.

Lemma create_role_inv slug f w k w' :
  update_or_create_role slug f w = (Ok k, w') → no_role slug (w_db w) →
  roles (w_db w) !! k = None ∧ w_db w' = w_db w <| roles ::= <[k := f (Role "" (Some slug) [] false true "")]> |>.
Proof.
  intros (r & Hw & Hs & [[Hr _]|(Hk & -> & _)])%update_or_create_role_inv Hn; [by destruct (Hn _ _ Hr)|by split].
Qed.

Lemma replace_role_inv slug f w k w' k0 r0 :
  update_or_create_role slug f w = (Ok k, w') → roles (w_db w) !! k0 = Some r0 → has_slug slug r0 →
  k = k0 ∧ w_db w' = w_db w <| roles ::= <[k0 := f r0]> |>.
Proof.
  intros (r & Hw & Hs & [[Hr Hu]|(_ & _ & Hn)])%update_or_create_role_inv H0 H1; [|by destruct (Hn _ _ H0)].
  pose proof (Hu _ _ H0 H1). subst k0. rewrite Hr in H0. injection H0 as <-. done.
Qed.

Lemma create_group_inv name description w k w' :
  get_or_create_group name description w = (Ok k, w') → no_group name (w_db w) →
  user_groups (w_db w) !! k = None ∧ w_db w' = w_db w <| user_groups ::= <[k := UserGroup name ∅ ∅ true description]> |>.
Proof. intros [(g & Hg & He & _)|[Hk Hw]]%get_or_create_group_inv Hn; [by destruct (Hn _ _ Hg)|done]. Qed.

(** No profile or group of the migrations exists yet, and references have their row. *)
Record unseeded (d : db) : Prop := {
  unseeded_slugs slug : slug ∈ ["administrator"; "auditor"; "approver"; "user"] → no_role slug d;
  unseeded_names name : name ∈ [ADMINISTRATORS; AUDITORS; USERS; APPROVERS] → no_group name d;
  group_role_exists k g r : user_groups d !! k = Some g → r ∈ ug_roles g → is_Some (roles d !! r);
  assigned_role_exists k a : role_assignments d !! k = Some a → is_Some (roles d !! ra_role a);
}.

(** A profile of the current version, under a key that was free. *)
Definition new_profile (d d' : db) (k : id) (slug : string) (capabilities : list string) : Prop :=
  roles d !! k = None ∧ ∃ x, roles d' !! k = Some x ∧ has_slug slug x ∧ ro_capabilities x = capabilities ∧ ro_is_system x = true ∧ ro_enabled x = true.

Definition new_group (g : option user_group) (name : string) (members : gset id) (r : id) : Prop :=
  ∃ x, g = Some x ∧ ug_name x = name ∧ ug_users x = members ∧ ug_roles x = {[r]} ∧ ug_enabled x = true.

(** The users who are not superusers, by [p]. *)
Definition people_of (p : id → bool) (d : db) : gset id := joining p (objects_filter (λ o, negb (u_is_superuser (val o))) (users d)).

Definition seeded (staff : id → bool) (d d1 : db) (ka kb kc ga gb gc : id) : Prop :=
  ∃ ra rb rc G, d1 = d <| user_groups := G |> <| roles ::= <[ka := ra]> |> <| roles ::= <[kb := rb]> |> <| roles ::= <[kc := rc]> |> ∧
  (has_slug "administrator" ra ∧ has_slug "auditor" rb ∧ has_slug "user" rc) ∧
  (roles d !! ka = None ∧ roles d !! kb = None ∧ roles d !! kc = None ∧ ka ≠ kb ∧ ka ≠ kc ∧ kb ≠ kc) ∧
  (user_groups d !! ga = None ∧ user_groups d !! gb = None ∧ user_groups d !! gc = None) ∧
  new_group (G !! ga) ADMINISTRATORS (people_of staff d) ka ∧ new_group (G !! gb) AUDITORS ∅ kb ∧
  new_group (G !! gc) USERS (people_of (λ k, negb (staff k)) d) kc ∧
  ∀ k, k ≠ ga → k ≠ gb → k ≠ gc → G !! k = user_groups d !! k.

Lemma no_role_insert slug d k r : no_role slug d → ro_slug r ≠ Some slug → no_role slug (d <| roles ::= <[k := r]> |>).
Proof. intros Hn Hr k' r'. simpl. intros [[_ <-]|[_ H]]%lookup_insert_Some; [done|by apply (Hn k')]. Qed.

Lemma no_group_insert name d k g : no_group name d → ug_name g ≠ name → no_group name (d <| user_groups ::= <[k := g]> |>).
Proof. intros Hn Hg k' g'. simpl. intros [[_ <-]|[_ H]]%lookup_insert_Some; [done|by apply (Hn k')]. Qed.

(** One creation of a sequence: the key, its freshness and the database after it; [E] is
    the equation of the database before it. *)
Ltac created_role H E k K :=
  let v := fresh "v" in let H1 := fresh in let E' := fresh in
  apply bind_ok_inv in H as (k & v & H1 & H); apply create_role_inv in H1 as [K E'];
  [rewrite E in E', K; clear E; rename E' into E
  |rewrite E; repeat (apply no_role_insert; [|done]); by eauto using list_elem_of_here, list_elem_of_further].

Ltac created_group H E k K :=
  let v := fresh "v" in let H1 := fresh in let E' := fresh in
  apply bind_ok_inv in H as (k & v & H1 & H); apply create_group_inv in H1 as [K E'];
  [rewrite E in E', K; clear E; rename E' into E
  |rewrite E; repeat (apply no_group_insert; [|done]); by eauto using list_elem_of_here, list_elem_of_further].

Ltac saved_group H E g L :=
  let v := fresh "v" in let H1 := fresh in let E' := fresh in
  apply bind_ok_inv in H as ([] & v & H1 & H); apply save_group_inv in H1 as (g & L & E');
  rewrite E in E', L; clear E; rename E' into E.

Lemma seed_inv staff w w1 : unseeded (w_db w) → seed_system_roles staff w = (Ok tt, w1) →
  ∃ ka kb kc ga gb gc, seeded staff (w_db w) (w_db w1) ka kb kc ga gb gc.
Proof.
  intros [Hs Hg _ _] H. unfold seed_system_roles in H. remember (w_db w) as d eqn:E. symmetry in E.
  created_role H E ka Ka. created_role H E kb Kb. created_role H E kc Kc.
  created_group H E ga Ga. created_group H E gb Gb. created_group H E gc Gc.
  saved_group H E g1 L1. saved_group H E g2 L2. saved_group H E g3 L3. simpl in *.
  apply lookup_insert_None in Kb as [Kb Nab], Gb as [Gb Mab]. rewrite !lookup_insert_None in Kc. rewrite !lookup_insert_None in Gc.
  destruct Kc as [[Kc Nac] Nbc], Gc as [[Gc Mac] Mbc].
  rewrite !(lookup_insert_ne _ _ ga), lookup_insert_eq in L1 by done. injection L1 as <-.
  rewrite !(lookup_insert_ne _ _ gb), lookup_insert_eq in L2 by done. injection L2 as <-.
  rewrite !(lookup_insert_ne _ _ gc), lookup_insert_eq in L3 by done. injection L3 as <-.
  rewrite run_asks in H. apply distribute_inv in H as (G & Hw & Ha & Hu & Ho); [|done]. rewrite E in Hw, Ha, Hu, Ho. simpl in *.
  exists ka, kb, kc, ga, gb, gc. do 3 eexists. exists G. split; [exact Hw|]. split; [done|]. split; [done|]. split; [done|].
  rewrite !(lookup_insert_ne _ _ ga), lookup_insert_eq in Ha by done. rewrite lookup_insert_eq in Hu.
  pose proof (Ho gb ltac:(done) ltac:(done)) as Hb. rewrite !(lookup_insert_ne _ _ gb), lookup_insert_eq in Hb by done.
  rewrite Ha, Hb, Hu. split_and!; try (eexists; split; [reflexivity|]; simpl; by rewrite !union_empty_r_L).
  intros k N1 N2 N3. rewrite Ho by done. by rewrite !lookup_insert_ne by done.
Qed.

(** The database after both migrations: the four profiles, their groups, and every other
    role and group as it was. *)
Definition upgraded (staff : id → bool) (d d' : db) : Prop :=
  ∃ ka kb kc kp ga gb gc gp R G, d' = d <| roles := R |> <| user_groups := G |> ∧
  new_profile d d' ka "administrator" ADMIN_CAPABILITIES ∧ new_profile d d' kb "auditor" AUDITOR_CAPABILITIES ∧
  new_profile d d' kc "user" [] ∧ new_profile d d' kp "approver" APPROVER_CAPABILITIES ∧
  (∀ k, k ∉ [ka; kb; kc; kp] → R !! k = roles d !! k) ∧
  (user_groups d !! ga = None ∧ user_groups d !! gb = None ∧ user_groups d !! gc = None ∧ user_groups d !! gp = None) ∧
  new_group (G !! ga) ADMINISTRATORS (people_of staff d) ka ∧ new_group (G !! gb) AUDITORS ∅ kb ∧
  new_group (G !! gc) USERS (people_of (λ k, negb (staff k)) d) kc ∧ new_group (G !! gp) APPROVERS ∅ kp ∧
  (∀ k, k ∉ [ga; gb; gc; gp] → G !! k = user_groups d !! k).

Ltac replaced_role H E k0 r0 S :=
  let k := fresh "k" in let v := fresh "v" in let H1 := fresh in let E' := fresh in
  apply bind_ok_inv in H as (k & v & H1 & H); apply (replace_role_inv _ _ _ _ _ k0 r0) in H1 as [_ E'];
  [rewrite E in E'; clear E; rename E' into E|rewrite E; simpl; by simplify_map_eq|exact S].

Lemma new_group_name g name members r x : new_group g name members r → g = Some x → ug_name x = name.
Proof. by intros (y & -> & ? & _) [= <-]. Qed.

Lemma expand_inv staff d w w1 ka kb kc ga gb gc : unseeded d → seeded staff d (w_db w) ka kb kc ga gb gc →
  expand_system_roles w = (Ok tt, w1) → upgraded staff d (w_db w1).
Proof.
  intros [Hs Hg _ _] (ra & rb & rc & G & E & (Sa & Sb & Sc) & (Ka & Kb & Kc & Nab & Nac & Nbc) & (Ga & Gb & Gc) & Na & Nb & Nc & Ho) H.
  unfold expand_system_roles in H.
  replaced_role H E ka ra Sa. replaced_role H E kb rb Sb.
  apply bind_ok_inv in H as (kp & v1 & H1 & H). apply create_role_inv in H1 as [Kp E1].
  2:{ rewrite E. repeat (apply no_role_insert; [|simpl; unfold has_slug in *; congruence]). apply Hs. set_solver. }
  rewrite E in E1, Kp. clear E.
  apply bind_ok_inv in H as (gp & v2 & H1 & H). apply create_group_inv in H1 as [Gp E].
  2:{ rewrite E1. intros j g. simpl. destruct (decide (j = ga)) as [->|]; [intros ->%(new_group_name _ _ _ _ _ Na); discriminate|].
      destruct (decide (j = gb)) as [->|]; [intros ->%(new_group_name _ _ _ _ _ Nb); discriminate|].
      destruct (decide (j = gc)) as [->|]; [intros ->%(new_group_name _ _ _ _ _ Nc); discriminate|]. rewrite Ho by done. apply Hg. set_solver. }
  rewrite E1 in E, Gp. clear E1. simpl in Kp, Gp. rewrite !lookup_insert_None in Kp. destruct Kp as [[[[[Kp ?] ?] ?] ?] ?].
  saved_group H E g L. replaced_role H E kc rc Sc. injection H as <-. simpl in *.
  rewrite lookup_insert_eq in L. injection L as <-.
  assert (gp ≠ ga ∧ gp ≠ gb ∧ gp ≠ gc) as (Ma & Mb & Mc)
    by (unfold new_group in *; destruct_all; split_and!; intros ->; congruence).
  unfold upgraded, new_profile. exists ka, kb, kc, kp, ga, gb, gc, gp, (roles (w_db v4)), (user_groups (w_db v4)).
  rewrite E. split; [reflexivity|]. cbn [roles user_groups].
  rewrite (Ho gp) in Gp by done. split_and!; try done; try (by eexists; simplify_map_eq); try by rewrite !lookup_insert_ne by done.
  - intros j Hj. rewrite !not_elem_of_cons in Hj. destruct Hj as (? & ? & ? & ? & _). by rewrite !lookup_insert_ne by done.
  - rewrite lookup_insert_eq. eexists. split; [reflexivity|]. simpl. by rewrite union_empty_r_L.
  - intros j Hj. rewrite !not_elem_of_cons in Hj. destruct Hj as (? & ? & ? & ? & _). rewrite !lookup_insert_ne by done. by apply Ho.
Qed.

Lemma upgrade_inv staff w w' : unseeded (w_db w) → upgrade_profiles staff w = (Ok tt, w') → upgraded staff (w_db w) (w_db w').
Proof.
  intros Hn ([] & w1 & H1%atomic_ok_inv & H2%atomic_ok_inv)%bind_ok_inv.
  destruct (seed_inv _ _ _ Hn H1) as (ka & kb & kc & ga & gb & gc & Hs). by eapply expand_inv.
Qed.

Lemma elem_of_people p d u : u ∈ people_of p d ↔ p u = true ∧ ∃ x, users d !! u = Some x ∧ u_is_superuser x = false.
Proof.
  unfold people_of, joining. rewrite elem_of_list_to_set, list_elem_of_In, filter_In, <- list_elem_of_In, list_elem_of_fmap. split.
  - intros [(o & -> & [Ho Hs%negb_true_iff]%elem_of_objects_filter) Hp]. split; [done|]. by exists (val o).
  - intros [Hp (x & Hx & Hs)]. split; [|done]. exists (Obj u x). split; [done|]. apply elem_of_objects_filter. split; [done|]. by apply negb_true_iff.
Qed.

(** The capabilities of a user who is not a superuser ([user_capabilities]). *)
Definition granted (d : db) (u : id) (t : Z) : gset string := capabilities_of_roles (group_roles d u ++ direct_roles d u t).

Lemma granted_by_role d u t c : c ∈ granted d u t ↔
  ∃ r x, roles d !! r = Some x ∧ ro_enabled x = true ∧ c ∈ ro_capabilities x ∧ role_reaches d u r t.
Proof.
  unfold granted. rewrite elem_of_capabilities_of_roles. setoid_rewrite elem_of_group_or_direct. split.
  - intros (r & (? & ? & ?) & ?). by exists (pk r), (val r).
  - intros (r & x & ? & ? & ? & ?). by exists (Obj r x).
Qed.

(** A reference of the old database names a role the migrations leave alone. *)
Lemma reaches_old d u r t : unseeded d → role_reaches d u r t → is_Some (roles d !! r).
Proof.
  intros [_ _ Hg Ha] [(g & Hk & _ & _ & Hr)|(a & Hk & _ & <- & _)]; [by eapply Hg|by eapply Ha].
Qed.

(** Where a user's roles come from after the migrations. *)
Lemma upgraded_reaches staff d d' : unseeded d → upgraded staff d d' →
  ∃ ka kb kc kp, new_profile d d' ka "administrator" ADMIN_CAPABILITIES ∧ new_profile d d' kc "user" [] ∧
    (∀ k, k ∉ [ka; kb; kc; kp] → roles d' !! k = roles d !! k) ∧ (∀ k, k ∈ [ka; kb; kc; kp] → roles d !! k = None) ∧
    ∀ u r t, role_reaches d' u r t ↔ role_reaches d u r t ∨ (u ∈ people_of staff d ∧ r = ka) ∨
                                      (u ∈ people_of (λ k, negb (staff k)) d ∧ r = kc).
Proof.
  intros Hn (ka & kb & kc & kp & ga & gb & gc & gp & R & G & -> & Pa & Pb & Pc & Pp & Ho & (Ga & Gb & Gc & Gp) & Na & Nb & Nc & Np & Hg).
  exists ka, kb, kc, kp. split; [done|]. split; [done|]. split; [done|]. split.
  { unfold new_profile in *. destruct_all. intros k Hk. repeat (apply elem_of_cons in Hk as [->|Hk]; [done|]). by apply not_elem_of_nil in Hk. }
  intros u r t. unfold role_reaches. cbn [user_groups role_assignments set_field].
  unfold new_group in *. destruct Na as (xa & La & _ & Ua & Ra & Ea), Nb as (xb & Lb & _ & Ub & Rb & Eb), Nc as (xc & Lc & _ & Uc & Rc & Ec),
    Np as (xp & Lp & _ & Up & Rp & Ep). split.
  - intros [(g & Hk & He & Hu & Hr)|Hd]; [|by left; right]. destruct (decide (pk g ∈ [ga; gb; gc; gp])) as [Hin|Hout].
    + right. repeat rewrite elem_of_cons in Hin. rewrite elem_of_nil in Hin.
      destruct Hin as [E|[E|[E|[E|[]]]]]; rewrite E in Hk; simplify_eq; [left|..|right|]; set_solver.
    + left. left. exists g. by rewrite <- Hg.
  - intros [[(g & Hk & He & Hu & Hr)|Hd]|[[Hu ->]|[Hu ->]]]; [|by right|..].
    + left. exists g. rewrite Hg; [done|]. intros Hin. repeat rewrite elem_of_cons in Hin. rewrite elem_of_nil in Hin.
      destruct Hin as [E|[E|[E|[E|[]]]]]; rewrite E in Hk; congruence.
    + left. exists (Obj ga xa). simpl. split_and!; [done..|by rewrite Ua|rewrite Ra; set_solver].
    + left. exists (Obj gc xc). simpl. split_and!; [done..|by rewrite Uc|rewrite Rc; set_solver].
Qed.

(** C12: The upgrade gives the console to the staff and to nobody else.  On a database without
    the profiles, after the two migrations every user who is not a superuser has exactly
    the capabilities held before, at any instant, and, for a member of the staff, every
    capability there is. *)
Theorem upgrade_grants_exactly staff w w' u x t c :
  unseeded (w_db w) → upgrade_profiles staff w = (Ok tt, w') →
  users (w_db w) !! u = Some x → u_is_superuser x = false →
  c ∈ granted (w_db w') u t ↔ c ∈ granted (w_db w) u t ∨ (staff u = true ∧ c ∈ Capability.choices).
Proof.
  intros Hn Hup Hu Hx. apply (upgrade_inv _ _ _ Hn) in Hup.
  destruct (upgraded_reaches _ _ _ Hn Hup) as (ka & kb & kc & kp & (_ & xa & La & _ & Ca & _ & Ea) & (_ & xc & Lc & _ & Cc & _ & _) & Ho & Hfree & Hr).
  assert (ADMIN_CAPABILITIES = Capability.choices) as Hall by reflexivity. rewrite Hall in Ca.
  rewrite !granted_by_role. split.
  - intros (r & y & Hy & He & Hc & Hreach). apply Hr in Hreach as [Hold|[[Hs ->]|[Hs ->]]].
    + left. exists r, y. rewrite <- Ho; [done|]. intros Hin%Hfree. destruct (reaches_old _ _ _ _ Hn Hold) as [? ?]. congruence.
    + right. apply elem_of_people in Hs as [Hs _]. simplify_eq. by rewrite <- Ca.
    + simplify_eq. rewrite Cc in Hc. by apply not_elem_of_nil in Hc.
  - intros [(r & y & Hy & He & Hc & Hreach)|[Hs Hc]].
    + exists r, y. rewrite Ho; [split_and!; [done..|]; apply Hr; by left|]. intros Hin%Hfree. congruence.
    + exists ka, xa. rewrite Ca. split_and!; [done..|]. apply Hr. right. left. split; [|done]. apply elem_of_people. eauto.
Qed.
End profile_facts.

(** *** The profiles and the levels of the console *)

(** The administrator has the highest level of every area, the auditor reads every area
    but the secrets and exports the trail, and both are closed under the dependencies.
    The approver is not: saved in the console, the profile also gets
    [configuration.view]. *)
Lemma shipped_profiles :
  (λ area, level_for_capabilities area ADMIN_CAPABILITIES) <$> PERMISSION_AREAS = (λ area, default "none" (pl_value <$> last (pa_levels area))) <$> PERMISSION_AREAS ∧
  (λ area, level_for_capabilities area AUDITOR_CAPABILITIES) <$> PERMISSION_AREAS
    = ["view"; "view"; "view"; "view"; "view"; "view"; "view"; "view"; "none"; "view"; "view"; "view"; "export"; "view"] ∧
  normalize_capabilities ADMIN_CAPABILITIES = sorted_set (list_to_set ADMIN_CAPABILITIES) ∧
  normalize_capabilities AUDITOR_CAPABILITIES = sorted_set (list_to_set AUDITOR_CAPABILITIES) ∧
  normalize_capabilities APPROVER_CAPABILITIES = sorted_set (list_to_set ("configuration.view" :: APPROVER_CAPABILITIES)).
Proof. split_and!; vm_compute; reflexivity. Qed.

(** ** An installation *)

Definition first_version (h1 h2 : string) (t1 t2 : Z) : gmap id audit_event :=
  let event t previous hash := AuditEvent t 0 2 None "login" "accounts.user" "7" None [] previous hash "" in
  {[ 40%N := event t1 "" h1; 30%N := event t2 h1 h2 ]}.

(** Two events in the order they were recorded, and the same two with the dates swapped. *)
Example upgraded_trails :
  let valid t1 t2 := match initialize_chain (demo_world (empty_db <| audit_events := first_version "aa" "bb" t1 t2 |>)) with
                     | (Ok _, w) => match @verify_audit_chain demo_platform w with (Ok r, _) => Some (av_valid r) | _ => None end
                     | _ => None end in
  valid 5 9 = Some true ∧ valid 9 5 = Some false.
Proof. split; vm_compute; reflexivity. Qed.

Definition staffed_db : db :=
  empty_db <| users := {[ 7%N := User "s" "s@example.org" "S" true false false "dark" "fr" "!";
                          8%N := User "u" "u@example.org" "U" true false false "dark" "fr" "!" ]} |>.

Definition demo_staff (k : id) : bool := bool_decide (k = 7%N).

Definition upgraded_world : world := Eval vm_compute in (@upgrade_profiles demo_platform demo_staff (demo_world staffed_db)).2.

Lemma upgrade_grants_exactly_witness :
  "audit.export" ∈ granted (w_db upgraded_world) 7 demo_now ∧ "audit.export" ∉ granted (w_db upgraded_world) 8 demo_now.
Proof.
  assert (unseeded (w_db (demo_world staffed_db))) as Hn.
  { constructor; [intros ? _ ? ?|intros ? _ ? ?|intros ? ? ?|intros ? ?]; simpl; by rewrite lookup_empty. }
  assert (@upgrade_profiles demo_platform demo_staff (demo_world staffed_db) = (Ok tt, upgraded_world)) as Hrun by (vm_compute; reflexivity).
  split.
  - apply (@upgrade_grants_exactly demo_platform demo_staff (demo_world staffed_db) upgraded_world 7%N _ demo_now "audit.export" Hn Hrun eq_refl eq_refl).
    right. split; [reflexivity|]. apply (bool_decide_unpack _). vm_compute. exact I.
  - intros H. apply (@upgrade_grants_exactly demo_platform demo_staff (demo_world staffed_db) upgraded_world 8%N _ demo_now "audit.export" Hn Hrun eq_refl eq_refl) in H.
    destruct H as [H|[H _]]; [|discriminate H]. apply granted_by_role in H as (r & x & H & _). simpl in H. by rewrite lookup_empty in H.
Defined.
