(* ===== verification/TechnicalAdmin.v ===== *)
(** * The technical administration ([api/admin.py])

    The framework's administration site as the application configures it: who passes,
    where the others are sent, and which tables it may write.  The site itself is a
    parameter with its documented behaviour: a request without permission is redirected
    to the login page of the site. *)

From S2P Require Import Prelude PyStr Json Crypto PyTime Models World Rbac Ip Mfa Accounts Portal.

Local Open Scope Z_scope.

(** ** Access *)

(** [AdminSite.admin_view] around the views of the site. *)
Class AdminSite := {
  admin_view : (http_request → M bool) → handler → handler;
  admin_view_granted p v r w w1 : p r w = (Ok true, w1) → admin_view p v r w = v r w1;
  admin_view_refused p v r w w1 : p r w = (Ok false, w1) →
    ∃ next, admin_view p v r w = (Ok (RedirectUrl ("/django-admin/login/?next=" +:+ next), r), w1);
}.

Definition superuser_with_mfa_only (r : http_request) : M bool :=
  match rq_user r with
  | AnonymousUser => mret false
  | Authenticated u =>
      if u_is_active (val u) && u_is_superuser (val u) then asks (λ d, mfa_enrolled d (pk u)) else mret false
  end.

Definition redirect_admin_login_to_product_login : handler := λ r,
  match rq_user r with
  | AnonymousUser => mret (RedirectUrl "/accounts/login/?next=/django-admin/", r)
  | Authenticated u =>
      enrolled ← asks (λ d, mfa_enrolled d (pk u));
      if u_is_superuser (val u) && negb enrolled then redirect "mfa_setup_required" r else redirect "admin:index" r
  end.

(** ** The tables *)

(** The three [has_..._permission] methods all answer [False], or are the framework's. *)
Inductive rights := ReadOnly | Framework.
#[global] Instance rights_eq_dec : EqDecision rights.
Proof. solve_decision. Defined.

Record registration := Registration {
  reg_model : string;
  reg_rights : rights;
  reg_exclude : list string;
}.

Definition registered (model : string) : registration := Registration model Framework [].

Definition registry : list registration :=
  [registered "User"; registered "Target"; registered "AccessRequest";
   Registration "ApprovalDecision" ReadOnly []; Registration "AuditEvent" ReadOnly []; Registration "AuditChainState" ReadOnly [];
   Registration "Credential" ReadOnly ["encrypted_secret"; "encrypted_totp_secret"];
   Registration "RotationJob" ReadOnly ["encrypted_candidate_secret"];
   registered "Role"; registered "RoleAssignment"; registered "UserGroup"; registered "AccessPolicy"; registered "TimeFrame";
   registered "SecretRotationPolicy"; registered "TargetGroup"; registered "PrivilegedSession"; registered "MFADevice";
   registered "Connector"; registered "Domain"; registered "DirectoryGroupMapping"; registered "ExternalIdentity";
   registered "ExternalGroupMembership"; registered "PersonalVaultItem"; registered "PersonalVaultGroup";
   Registration "TargetHostKey" ReadOnly []; Registration "SecretLease" ReadOnly ["token_hash"];
   Registration "SessionTicket" ReadOnly ["token_hash"]; Registration "IdentitySource" ReadOnly ["encrypted_configuration"]].

(** Whether the site may add, change or delete rows of a table, and show a column. *)
Definition writable (model : string) : bool :=
  existsb (λ g, bool_decide (reg_model g = model) && bool_decide (reg_rights g = Framework)) registry.

Definition shown (model column : string) : bool :=
  existsb (λ g, bool_decide (reg_model g = model) && negb (bool_decide (column ∈ reg_exclude g))) registry.

(** The evidence and the secrets of the platform are not writable there, and the hashes of
    tokens are not shown; the ciphertexts of factors and of personal items are. *)
Lemma protected_tables :
  forallb (λ m, negb (writable m)) ["AuditEvent"; "AuditChainState"; "ApprovalDecision"; "Credential"; "RotationJob"; "TargetHostKey";
                                    "SecretLease"; "SessionTicket"; "IdentitySource"; "PlatformSecurityPolicy"; "SIEMIntegration"] = true ∧
  existsb (λ p, shown p.1 p.2) [("Credential", "encrypted_secret"); ("Credential", "encrypted_totp_secret"); ("SecretLease", "token_hash");
    ("SessionTicket", "token_hash"); ("IdentitySource", "encrypted_configuration"); ("RotationJob", "encrypted_candidate_secret")] = false ∧
  shown "MFADevice" "encrypted_secret" = true ∧ shown "PersonalVaultItem" "encrypted_payload" = true.
Proof. repeat split; vm_compute; reflexivity. Qed.

Lemma registered_once : NoDup (reg_model <$> registry).
Proof. apply (bool_decide_unpack _). vm_compute. exact I. Qed.

(** ** Who gets in *)

Section access.
Context {AS : AdminSite}.

(** The site: its login page is not behind the permission. *)
Definition technical_admin (views : handler) : handler := λ r,
  if startswith "/django-admin/login/" (rq_path r) then redirect_admin_login_to_product_login r
  else admin_view superuser_with_mfa_only views r.

Lemma superuser_check r w : ∃ b, superuser_with_mfa_only r w = (Ok b, w) ∧
  (b = true ↔ ∃ u, rq_user r = Authenticated u ∧ u_is_active (val u) = true ∧ u_is_superuser (val u) = true ∧
     mfa_enrolled (w_db w) (pk u) = true).
Proof.
  unfold superuser_with_mfa_only. destruct (rq_user r) as [|u].
  - eexists. split; [reflexivity|]. split; [done|]. by intros (? & ? & _).
  - destruct (u_is_active (val u)) eqn:Ea, (u_is_superuser (val u)) eqn:Es; cbn [andb]; (eexists; split; [reflexivity|]); naive_solver.
Qed.

(** The technical administration is for enrolled superusers.  On every path of the site
    but its login page a view runs, in the same database, exactly when the user is an
    active superuser with a confirmed factor; otherwise none runs, nothing is written and
    the answer is a redirection to the login page, which itself never runs a view. *)
Theorem technical_admin_gated views r w :
  (let permitted := ∃ u, rq_user r = Authenticated u ∧ u_is_active (val u) = true ∧ u_is_superuser (val u) = true ∧
                         mfa_enrolled (w_db w) (pk u) = true in
   if startswith "/django-admin/login/" (rq_path r) then ∃ a, technical_admin views r w = (Ok (a, r), w)
   else (permitted ∧ technical_admin views r w = views r w) ∨
        (¬ permitted ∧ ∃ next, technical_admin views r w = (Ok (RedirectUrl ("/django-admin/login/?next=" +:+ next), r), w))).
Proof.
  cbv zeta. unfold technical_admin. destruct (startswith _ _).
  - unfold redirect_admin_login_to_product_login, redirect. destruct (rq_user r) as [|u]; [by eexists|]. rewrite run_asks.
    destruct (u_is_superuser (val u) && negb _); by eexists.
  - destruct (superuser_check r w) as (b & Hb & Hspec). destruct b.
    + left. split; [by apply Hspec|]. by apply admin_view_granted.
    + right. split; [intros H; by apply Hspec in H|]. by eapply admin_view_refused.
Qed.

(** *** A redirection that does not end *)

(** Where a browser goes next on the site, if it goes on there. *)
Definition next_path (a : response) : option string :=
  match a with
  | RedirectTo "admin:index" _ => Some "/django-admin/"
  | RedirectUrl url => if startswith "/django-admin/login/" url then Some "/django-admin/login/" else None
  | _ => None
  end.

Fixpoint follow (n : nat) (views : handler) (r : http_request) : M response :=
  x ← technical_admin views r;
  match n, next_path x.1 with
  | S n', Some path => follow n' views (r <| rq_path := path |>)
  | _, _ => mret x.1
  end.

(** A signed-in user who is not a superuser is sent from the index to the login page and
    from the login page to the index, for ever: after any number of redirections the
    answer is another one. *)
Theorem product_user_redirected_forever views r u n w :
  rq_user r = Authenticated u → u_is_superuser (val u) = false →
  ∃ a path, follow n views r w = (Ok a, w) ∧ next_path a = Some path.
Proof.
  intros Hu Hs. revert r Hu. induction n as [|n IH]; intros r Hu.
  all: assert (∃ a path, technical_admin views r w = (Ok (a, r), w) ∧ next_path a = Some path) as (a & path & Ha & Hp).
  1,3: unfold technical_admin; destruct (startswith "/django-admin/login/" (rq_path r));
    [unfold redirect_admin_login_to_product_login; rewrite Hu, run_asks, Hs; by do 2 eexists|];
    destruct (admin_view_refused superuser_with_mfa_only views r w w) as [next Hn];
    [unfold superuser_with_mfa_only; by rewrite Hu, Hs, andb_false_r|]; rewrite Hn; by do 2 eexists.
  - simpl. rewrite (bind_ok _ _ _ _ _ Ha). by exists a, path.
  - simpl. rewrite (bind_ok _ _ _ _ _ Ha). simpl. rewrite Hp. by apply IH.
Qed.
End access.

(** ** A site *)

Definition demo_next : string := "%2Fdjango-admin%2F".

#[local] Instance demo_site : AdminSite.
Proof.
  refine {| admin_view := λ p v r,
    ok ← p r; if ok : bool then v r else mret (RedirectUrl ("/django-admin/login/?next=" +:+ demo_next), r) |}.
  - intros p v r w w1 H. by rewrite (bind_ok _ _ _ _ _ H).
  - intros p v r w w1 H. exists demo_next. by rewrite (bind_ok _ _ _ _ _ H).
Defined.

Definition product_user : obj user := Obj 8%N (User "u" "u@example.org" "U" true false false "dark" "fr" "!").

Definition index_request : http_request :=
  HttpRequest "GET" "/django-admin/" "" false (Authenticated product_user) ∅ None (RequestMeta None (Some "192.0.2.7")).

Lemma product_user_redirected_forever_witness :
  ∃ a path, follow 9 (λ r, mret (Page "index", r)) index_request (demo_world empty_db) = (Ok a, demo_world empty_db) ∧ next_path a = Some path.
Proof. apply (product_user_redirected_forever _ _ product_user); reflexivity. Defined.
